(* ===== verification/_CoqProject ===== *)
-Q . S2P
Prelude.v
PyText.v
StateMachines.v
RfbFilter.v
Reservations.v
Lease.v
RangeOps.v
MaintenanceWindows.v
CircuitBreaker.v
RedisLock.v
AuditArchive.v
AuditExport.v
AuditJobs.v
AuditVerify.v
DetectionQuery.v
MaintenanceQueries.v
Capacity.v
Slots.v
RangeLifecycle.v
SchedulerClock.v
Correlator.v
ContentStaleness.v
FeedMatching.v
ContentReview.v
ContentSync.v
Cmi5Structure.v
Cmi5Rules.v
Cmi5Ids.v
Cmi5Lms.v
Cmi5MoveOn.v
Cmi5Runs.v
Cmi5Gradebook.v
ClassRanges.v
LabSessions.v
LabRuns.v
