(* ===== verification/Prelude.v ===== *)
(** * TrueNorth Range: a verification library of the control plane's core logic

    TrueNorth runs training ranges (networks of virtual machines) on a hypervisor cluster.  An API
    (src/control-plane/api) accepts what people and its own scheduler ask of ranges, bookings and labs and
    keeps it in one database; a worker (src/control-plane/worker) carries it out on the hypervisor through
    tasks a broker delivers at least once; telemetry (src/telemetry) turns the ranges' events into alerts.
    The hard part is that API replicas, worker replicas and people act at once, that tasks are lost,
    repeated or late, and that what is taken for a range (addresses, VLANs, capacity, the lease, the audit
    record) must never be given to two.  This library models that logic and proves what makes it correct.

    ** How it is built

    A request or a task works under a row lock or through a guarded UPDATE, so it is a function from the
    database's state to an outcome ([result], below) and a new state.  What a component reads of tables
    that are not its own is a field of its state or an argument.  Where several parties race, the file has a
    step relation whose steps are those functions, each with the possibly stale version it was called on, and
    its theorems hold of every interleaving.  Times are integers of a unit named in the file; a dict is a
    [gmap] where order does not matter and an association list or an ordered list of rows where it does;
    uuids are strings.  Third-party code is a parameter with named hypotheses.

    ** The files, in the order they build on each other

    - Prelude.v: outcomes, Python's dict and sorting idioms, lists without repetition, the [reflect_bools],
      [in_list] and [cases_in] tactics and the hint databases [tn] and [zlen].  PyText.v: text and dates.
    - StateMachines.v: the states of ranges and exercises (api/app/state_machines.py, models.py), the booking
      lifecycle with its guarded moves (scheduler/lifecycle.py) and who may change a booking (change_rule.py).
    - RfbFilter.v: the console relay's view-only filter (console_relay/rfb_filter.py): only a legal handshake
      and harmless messages pass, whatever way the bytes are cut.
    - Reservations.v: VLANs, subnets and addresses of ranges, allocated by the worker (worker/range_alloc.py,
      db_ops.py) and by the API (network_inventory/service.py) in one table.
    - Lease.v: the range lease that fences worker executions (worker/fencing.py, db_ops.py), abandonment and
      tombstones.
    - RangeOps.v: what was asked of a range (range_ops/service.py, lease_status.py): acceptance, the outbox,
      reconciliation, force-release.
    - MaintenanceWindows.v, MaintenanceQueries.v: which window covers a range, for the worker's task entry
      (worker/maintenance_windows.py, maintenance_windows/policy.py) and for the API (service.py).
    - CircuitBreaker.v, RedisLock.v: the breaker around outside services, the lock of a periodic sweep.
    - AuditArchive.v, AuditExport.v, AuditJobs.v, AuditVerify.v: the write-once archive (a class [AuditArchive]
      with the filesystem as its instance), signed exports in one chain, the daily jobs and retention, the
      verifier (worker/audit_*.py).
    - DetectionQuery.v: the detection language (search_backends/detection_query.py): lexer, parser, the refusal
      of ground-truth labels, the serialiser.
    - Capacity.v, Slots.v: what bookings, classes and labs hold of the cluster (scheduler/capacity.py,
      classes/holds.py), the fit of a booking and the search for its next free slot (scheduler/service.py).
    - RangeLifecycle.v, SchedulerClock.v: builds and teardowns for bookings (range_lifecycle.py) over RangeOps.v,
      and the scheduler's clock (scheduler/clock.py) with releases, moves and edits.
    - ClassRanges.v: the clock's step 00, a class's ranges (classes/ranges.py): built at the lead, one per seat,
      kept across sessions, torn down at the end; over RangeLifecycle.v.
    - LabSessions.v, LabRuns.v: students' own labs (lab_sessions/service.py, capacity_gate.py): the operations,
      and how processes run them under the session's lease and send its outbox; over Capacity.v.
    - Correlator.v: alerts from patterns of events (telemetry/pipelines/correlator.py).
    - ContentStaleness.v: the content clock's rules (content_review/staleness.py): the review cycle, and the
      stale reasons that flow down the dependency edges.
    - FeedMatching.v: which feed entries make which content stale (worker/content_feeds/match.py,
      feed_backends/base.py), and storing entries (content_feeds/store.py).
    - ContentReview.v, ContentSync.v: the content clock at work over its tables: the service behind the routes
      (content_review/service.py), and the worker's sync (content_review_sync.py, content_feeds/apply.py), which
      reads what content exists, plans without locks, and writes what nobody changed meanwhile.
    - Cmi5Structure.v, Cmi5Rules.v, Cmi5Ids.v: reading a course structure (cmi5/structure.py), what a unit may
      send (cmi5/rules.py), and the ids of the LMS's own statements (cmi5/lms.py).
    - Cmi5Lms.v, Cmi5MoveOn.v, Cmi5Runs.v: TrueNorth as a cmi5 LMS (cmi5/lms.py, router.py): launches, the
      fetched token, every request of a unit checked, forwarded and recorded, waivers, marks (content.py); what
      [evaluate] records of blocks and the course; and the runs of all this, one transaction a step, against an
      LRS that may answer anything.
    - Cmi5Gradebook.v: a unit's results on to the gradebook of the LMS that launched it (cmi5/ags.py,
      lti_identity/links.py): which cells, the outbox row of each, and delivery by several senders.

    Components meet as in the code: the clock moves bookings by [transition] (StateMachines.v) and builds and
    destroys through [accept] and [dispatch] (RangeOps.v); acceptance and the worker's entry ask the windows;
    the slot search asks capacity, conflicts and windows; the audit jobs run against the class of archives; the
    content clock's service and sync work on one set of tables by the rules of ContentStaleness.v; the cmi5 LMS
    walks the tree [parse] returns and takes only what [check] accepts.

    ** What the theorems show

    Exclusion: a reserved value has one holder (Reservations.values_exclusive); a lease, a sweep lock and an
    operation in flight are held once (Lease.claim_exclusive, RedisLock.one_holder, RangeOps.one_in_flight); a
    fenced-out execution never writes again (Lease.fenced_out_forever).  Interleavings: each move of a booking
    happens once, with the commits in the middle of a build and of a teardown between others'
    (SchedulerClock.moves_once; [tick_runs]: a tick is such a run), and the release of its range is right on every
    branch (release_branches); a class's ranges are all accounted for (ClassRanges.class_range_accounted, with
    [class_tick_runs]).  Labs: two labs never share a network; one returns to the pool only when its lab's ranges are
    destroyed and the task that looks for leftovers was sent or dropped and waited for, unless an administrator
    abandons the range of a lab that is up; no commit works on a stale row; tasks are sent in order, and none is lost
    but what the broker's contract refuses; the limits hold (LabRuns.labs_share_no_network, networks_returned_clean, commits_on_latest, no_task_lost, lab_limits).
    Agreement of two implementations or of an optimised one with its definition: Reservations.api_worker_agree (the
    pruning, excluding allocation of a fresh build and the API's, on the same usable pool), RfbFilter.feed_chunks,
    MaintenanceQueries.maintenance_agrees, Slots.next_free_slot_first, Correlator.alerts_exact,
    AuditVerify.archive_verified_iff, FeedMatching.flags_for_exact, ContentStaleness.incremental_is_rebuild (and
    what it maintains, inherited_exactly_from_flagged).  The content clock's service, which loads part of the
    graph, refines the rules on the whole (ContentReview.service_refines_graph), keeps what it assumes
    (stale_rows_right) and the tenants apart (others_untouched, ContentSync.depends_in_scope); the sync
    establishes it (ContentSync.sync_settles) and loses no update and no flag (no_lost_update,
    recorded_flags_carried).  Refusal: what the filter and the detection language let through
    (RfbFilter.session_safe, DetectionQuery.accepted_sees_no_label), what retention may delete
    (AuditJobs.purge_only_exported).  The cmi5 LMS: what the rules take and that conforming units are taken
    (Cmi5Rules.accepted_statement, conforming_accepted), no unit's statement has an id of the LMS's
    (Cmi5Ids.lms_ids_reserved), what is recorded satisfied is so and is in the LRS (Cmi5MoveOn.evaluate_records), and
    of every run: sessions in order with one verdict (Cmi5Runs.sessions_in_order), a pass that TrueNorth marked
    (passed_earned), scores that are marks (scores_are_marks), the attempts within the limit (marks_limited), and a
    bearer confined to its own session, Student and registration (unit_confined).  A course structure is read as it
    is written (Cmi5Structure.parse_tree).  Its gradebook: a result reaches its cells and no other
    (Cmi5Gradebook.result_cells), a cell marked sent was sent as it is (sent_was_taken), and none waits for ever
    (results_settle).  Termination, round trips, bounds and error paths are next to the code they are about.  Some
    results are negative, and concrete: SchedulerClock.edit_orphans_a_build, AuditExport.interrupted_before_signature,
    Correlator.distinct_values_forgotten, ContentSync.overdue_text_stays, DetectionQuery.demo_recursion,
    LabRuns.abandoned_returns_unlooked, Cmi5Rules.demo_single_other, Cmi5MoveOn.nested_block_missed,
    Cmi5Runs.waive_race, Cmi5Gradebook.bad_lineitem_raises and fifty_first_missed exhibit what the code does where
    its comments say otherwise, where two requests overlap, or on an unforeseen input.

    ** Fuel

    A loop whose end is not structural takes fuel computed from its input, and a lemma says it is enough:
    the filter's loops take the length of the buffer plus one per turn (RfbFilter.feeds_terminate); the parser
    the length of the query, and the interpreter's recursion limit as an argument, reached only by an input
    that nests deeper than it allows (DetectionQuery.parse_detection_returns); the walk of the chain the number of
    manifests (AuditVerify.walk_spec); slices and the grid of starts the number of steps to the end
    (Slots.elem_of_grid); breadth-first search the nodes edges lead to (ContentStaleness.dependents_inv); the
    export's days the days to yesterday (AuditJobs); the walk over a course its number of blocks
    (Cmi5MoveOn.enough_top).

    ** Not modelled, and why

    The web application (TypeScript), HTTP routers and schemas, e-mail and calendar text, the vendor SDK calls
    of the provisioners, appliance configuration text, the AI orchestrator, the installer and the scripts have
    little state of their own or act through libraries.  Within modelled parts: YAML and JSON enter parsed,
    cryptography and compression are parameters, strings are ASCII, floating-point times are integers and
    mastery scores and marks exact rationals, Python's recursion limit is modelled in the detection parser only, and
    a broken database connection is outside.  Of the cmi5 LMS: the course structure as served to other systems, and
    the routes' checks of tenant and role.  Range certification, exercise scoring, [verify_database] of the audit
    verifier and the VLAN pools of the vSphere provisioner read or write much of the database and the cluster
    around a small decision, and are left out. *)

From stdpp Require Export base decidable list gmap strings pretty sorting.
From Stdlib Require Export ZArith Lia.
From Stdlib Require Import Ascii.

#[global] Set Default Goal Selector "!".

(** ** Errors as values

    A Python call either returns or raises.  [result E A] is its outcome: [Ok] the
    value returned, [Err] the exception raised. *)
Inductive result (E A : Type) : Type :=
| Ok (a : A)
| Err (e : E).
Arguments Ok {E A} a.
Arguments Err {E A} e.

#[export] Instance result_ret E : MRet (result E) := fun A a => Ok a.
#[export] Instance result_bind E : MBind (result E) := fun A B f r =>
  match r with Ok a => f a | Err e => Err e end.

(** [guard_or e b k]: "if not b: raise e", then [k]. *)
Definition guard_or {E A} (b : bool) (e : E) (k : result E A) : result E A :=
  if b then k else Err e.

(** ** Sequences *)

(** [len(xs)] as an integer. *)
Definition zlen {A} (l : list A) : Z := Z.of_nat (length l).

(** [list(dict.fromkeys(xs))]: the distinct elements, each at its first position. *)
Fixpoint fromkeys_from {A} `{EqDecision A} (seen : list A) (l : list A) : list A :=
  match l with
  | [] => []
  | x :: l' =>
      if decide (x ∈ seen) then fromkeys_from seen l'
      else x :: fromkeys_from (x :: seen) l'
  end.
Definition fromkeys {A} `{EqDecision A} (l : list A) : list A := fromkeys_from [] l.

(** ** Text

    A Python [str] is a [string] of ASCII characters; [str(i)] is stdpp's [pretty]. *)

(** [s.encode()] *)
Fixpoint bytes_of_string (s : string) : list Z :=
  match s with
  | EmptyString => []
  | String c s' => Z.of_nat (nat_of_ascii c) :: bytes_of_string s'
  end.

(** [s.startswith(p)] *)
Definition startswith (p s : string) : bool := String.prefix p s.

(** ASCII white space, and the lower-case form of a character. *)
Definition is_space (c : ascii) : bool :=
  let n := nat_of_ascii c in ((9 <=? n) && (n <=? 13) || (28 <=? n) && (n <=? 32))%nat.
Definition lower_char (c : ascii) : ascii :=
  let n := nat_of_ascii c in if ((65 <=? n) && (n <=? 90))%nat then ascii_of_nat (n + 32) else c.

(** A stable insertion sort: Python's [sorted(xs, key=...)], with [leb] comparing keys. *)
Section Sorted.
Context {A : Type} (leb : A -> A -> bool).

Fixpoint insert_sorted (x : A) (l : list A) : list A :=
  match l with
  | [] => [x]
  | y :: l' => if leb x y then x :: y :: l' else y :: insert_sorted x l'
  end.

Fixpoint py_sorted (l : list A) : list A :=
  match l with
  | [] => []
  | x :: l' => insert_sorted x (py_sorted l')
  end.

Lemma insert_sorted_perm x l : insert_sorted x l ≡ₚ x :: l.
Proof.
  induction l as [|y l IH]; simpl; [done|].
  destruct (leb x y); [done|]. rewrite IH. apply Permutation_swap.
Qed.

Lemma py_sorted_perm l : py_sorted l ≡ₚ l.
Proof.
  induction l as [|x l IH]; simpl; [done|].
  by rewrite insert_sorted_perm, IH.
Qed.

Lemma elem_of_py_sorted x l : x ∈ py_sorted l ↔ x ∈ l.
Proof. by rewrite py_sorted_perm. Qed.

Context (leb_total : forall x y, leb x y = false -> leb y x = true).
Context (leb_trans : forall x y z, leb x y = true -> leb y z = true -> leb x z = true).

Definition le_by (x y : A) : Prop := leb x y = true.

Lemma insert_sorted_sorted x l :
  StronglySorted le_by l -> StronglySorted le_by (insert_sorted x l).
Proof.
  induction 1 as [|y l Hs IH Hall]; simpl; [by repeat constructor|].
  destruct (leb x y) eqn:E.
  - constructor; [by constructor|]. constructor; [done|].
    eapply Forall_impl; [exact Hall|]. intros z Hz. by eapply leb_trans.
  - constructor; [done|]. rewrite Forall_forall in *.
    intros z. rewrite insert_sorted_perm, elem_of_cons. intros [->|Hz]; [|by apply Hall].
    by apply leb_total.
Qed.

Lemma py_sorted_sorted l : StronglySorted le_by (py_sorted l).
Proof. induction l; simpl; [constructor|by apply insert_sorted_sorted]. Qed.

(** Where equal keys mean equal elements, a sorted list depends on the elements only. *)
Lemma py_sorted_perm_eq l k :
  (forall x y, leb x y = true -> leb y x = true -> x = y) -> l ≡ₚ k -> py_sorted l = py_sorted k.
Proof.
  intros Ha Hp. apply (StronglySorted_unique_strong le_by); [intros; by apply Ha|apply py_sorted_sorted..|].
  by rewrite !py_sorted_perm.
Qed.

Lemma NoDup_py_sorted l : NoDup l -> NoDup (py_sorted l).
Proof. by rewrite py_sorted_perm. Qed.
End Sorted.

(** Python's order of strings. *)
Definition string_leb (s t : string) : bool := bool_decide (String.le s t).

Lemma string_leb_total s t : string_leb s t = false -> string_leb t s = true.
Proof. intros H%bool_decide_eq_false. apply bool_decide_eq_true. by destruct (total String.le s t). Qed.
Lemma string_leb_trans s t u : string_leb s t = true -> string_leb t u = true -> string_leb s u = true.
Proof. unfold string_leb. rewrite !bool_decide_eq_true. apply (transitivity (R := String.le)). Qed.
Lemma string_leb_antisym s t : string_leb s t = true -> string_leb t s = true -> s = t.
Proof. unfold string_leb. rewrite !bool_decide_eq_true. apply (anti_symm String.le). Qed.

Section Fromkeys.
Context {A : Type} `{EqDecision A}.

Lemma elem_of_fromkeys_from (x : A) seen l :
  x ∈ fromkeys_from seen l ↔ x ∈ l ∧ x ∉ seen.
Proof.
  revert seen; induction l as [|y l IH]; intros seen; simpl; [set_solver|].
  case_decide; rewrite ?elem_of_cons, IH, ?elem_of_cons; [set_solver|].
  destruct (decide (x = y)); set_solver.
Qed.

Lemma NoDup_fromkeys_from seen (l : list A) : NoDup (fromkeys_from seen l).
Proof.
  revert seen; induction l as [|y l IH]; intros seen; simpl; [constructor|].
  case_decide; [done|]. constructor; [|done].
  rewrite elem_of_fromkeys_from, elem_of_cons. set_solver.
Qed.

Lemma elem_of_fromkeys (x : A) l : x ∈ fromkeys l ↔ x ∈ l.
Proof. unfold fromkeys. rewrite elem_of_fromkeys_from. set_solver. Qed.

Lemma NoDup_fromkeys (l : list A) : NoDup (fromkeys l).
Proof. apply NoDup_fromkeys_from. Qed.
End Fromkeys.

Lemma elem_of_take_in {A} (x : A) n l : x ∈ take n l -> x ∈ l.
Proof. intros H. rewrite <- (take_drop n l). by apply elem_of_app; left. Qed.
Lemma not_nil_elem {A} (l : list A) : l <> [] -> exists x, x ∈ l.
Proof. destruct l as [|x l]; [done|]. exists x. left. Qed.
Lemma NoDup_take {A} n (l : list A) : NoDup l -> NoDup (take n l).
Proof. rewrite <- (take_drop n l) at 1. by rewrite NoDup_app; intros [? _]. Qed.

(** ** [List.filter], the code's comprehensions with a test *)

Lemma elem_of_lfilter {A} (f : A -> bool) x l : x ∈ List.filter f l <-> x ∈ l /\ f x = true.
Proof. rewrite !list_elem_of_In. apply filter_In. Qed.

Lemma length_filter_filter {A} (f h : A -> bool) l : (length (List.filter f (List.filter h l)) <= length (List.filter f l))%nat.
Proof. induction l as [|x l IH]; cbn; [done|]. destruct (h x); cbn; destruct (f x); cbn; lia. Qed.

Lemma sublist_lfilter {A} (h : A -> bool) l : sublist (List.filter h l) l.
Proof. induction l as [|x l IH]; cbn; [constructor|]. destruct (h x); by constructor. Qed.

Lemma filter_comm {A} (f h : A -> bool) l : List.filter f (List.filter h l) = List.filter h (List.filter f l).
Proof. induction l as [|x l IH]; cbn; [done|]. destruct (f x) eqn:Ef, (h x) eqn:Eh; cbn; rewrite ?Ef, ?Eh, ?IH; done. Qed.

(** ** Keys: a list with at most one element per key *)

Section UniqueBy.
Context {A K : Type} (f : A -> option K).

Definition unique_by (l : list A) : Prop := NoDup (omap f l).

Lemma elem_of_omap_filter p k l : k ∈ omap f (List.filter p l) -> k ∈ omap f l.
Proof.
  rewrite !list_elem_of_omap. intros (x & Hx & Hk). exists x.
  by apply list_elem_of_In, filter_In in Hx as [Hx%list_elem_of_In _].
Qed.

Lemma unique_by_filter p l : unique_by l -> unique_by (List.filter p l).
Proof.
  unfold unique_by. induction l as [|x l IH]; simpl; [done|]. destruct (f x) as [k|] eqn:E.
  - rewrite NoDup_cons. intros [Hk Hl]. destruct (p x); simpl; rewrite ?E; [|by apply IH].
    constructor; [|by apply IH]. by intros ?%elem_of_omap_filter.
  - intros Hl. destruct (p x); simpl; rewrite ?E; by apply IH.
Qed.

Lemma unique_by_map g l : (forall x, f (g x) = f x) -> unique_by l -> unique_by (map g l).
Proof.
  intros Hg. unfold unique_by. induction l as [|x l IH]; simpl; [done|]. rewrite Hg.
  destruct (f x); [|done]. rewrite !NoDup_cons. intros [Hk Hl]. split; [|by apply IH].
  contradict Hk. revert Hk. rewrite !list_elem_of_omap. intros (y & Hy & Hf).
  apply list_elem_of_fmap in Hy as (z & -> & Hz). exists z. by rewrite <- Hg.
Qed.

Lemma unique_by_snoc x l :
  unique_by l -> (forall y k, y ∈ l -> f x = Some k -> f y = Some k -> False) -> unique_by (l ++ [x]).
Proof.
  unfold unique_by. rewrite omap_app. intros Hl Hx. simpl. destruct (f x) as [k|] eqn:E; [|by rewrite app_nil_r].
  apply NoDup_app. split; [done|]. split; [|apply NoDup_singleton].
  intros k' Hk' ->%list_elem_of_singleton. apply list_elem_of_omap in Hk' as (y & Hy & Hf). eauto.
Qed.

Lemma unique_by_inj l x y k :
  unique_by l -> x ∈ l -> y ∈ l -> f x = Some k -> f y = Some k -> x = y.
Proof.
  unfold unique_by. induction l as [|z l IH]; simpl; [by rewrite elem_of_nil|].
  intros Hn Hx Hy Ex Ey. rewrite !elem_of_cons in *.
  assert (forall w, w ∈ l -> f w = Some k -> k ∈ omap f l) as Hin
    by (intros w Hw Ew; apply list_elem_of_omap; eauto).
  destruct (f z) as [kz|] eqn:Ez; [apply NoDup_cons in Hn as [Hnz Hn]|];
    destruct Hx as [->|Hx], Hy as [->|Hy]; simplify_eq; auto; exfalso; eauto.
Qed.
End UniqueBy.

(** ** Arithmetic and automation *)

Lemma zlen_nil {A} : zlen (@nil A) = 0%Z.
Proof. done. Qed.
Lemma zlen_cons {A} (x : A) l : zlen (x :: l) = (1 + zlen l)%Z.
Proof. unfold zlen; simpl; lia. Qed.
Lemma zlen_app {A} (l k : list A) : zlen (l ++ k) = (zlen l + zlen k)%Z.
Proof. unfold zlen. rewrite length_app. lia. Qed.
Lemma zlen_nonneg {A} (l : list A) : (0 <= zlen l)%Z.
Proof. unfold zlen; lia. Qed.

Create Rewrite HintDb zlen.
#[export] Hint Rewrite @zlen_nil @zlen_cons @zlen_app : zlen.
Create HintDb tn discriminated.
#[export] Hint Resolve zlen_nonneg NoDup_fromkeys : tn.

(** Membership in a list of constructors: proved by computation, or taken apart. *)
Ltac in_list := apply (bool_decide_eq_true_1 _); vm_compute; reflexivity.
Ltac cases_in H := repeat (apply elem_of_cons in H as [H|H]); [..|by apply elem_of_nil in H].

(** Taking apart an outcome known to be [Ok]: its guards held, its binds succeeded. *)
Lemma guard_or_ok {E A} (b : bool) (e : E) (k : result E A) x : guard_or b e k = Ok x -> b = true /\ k = Ok x.
Proof. unfold guard_or. by destruct b. Qed.
Lemma raise_ok {E A} (b : bool) (e : E) (k : result E A) x : (if b then Err e else k) = Ok x -> b = false /\ k = Ok x.
Proof. by destruct b. Qed.
Lemma bind_ok {E A B} (r : result E A) (f : A -> result E B) y : (x ← r; f x) = Ok y -> exists x, r = Ok x /\ f x = Ok y.
Proof. destruct r as [x|e]; [|done]. intros H. by exists x. Qed.
Ltac ok_steps H :=
  repeat match type of H with
  | guard_or _ _ _ = Ok _ => let Hg := fresh "Hg" in apply guard_or_ok in H as [Hg H]
  | (if _ then Err _ else _) = Ok _ => let Hg := fresh "Hg" in apply raise_ok in H as [Hg H]
  | (mbind _ _) = Ok _ => let x := fresh "x" in let Hx := fresh "Hx" in apply bind_ok in H as (x & Hx & H)
  end.

(** Reflect the boolean tests of the code into propositions, everywhere. *)
Ltac reflect_bools :=
  repeat match goal with
  | H : (_ && _) = true |- _ => apply andb_true_iff in H as [? ?]
  | H : (_ || _) = false |- _ => apply orb_false_iff in H as [? ?]
  | H : negb _ = true |- _ => apply negb_true_iff in H
  | H : negb _ = false |- _ => apply negb_false_iff in H
  | H : bool_decide _ = true |- _ => apply bool_decide_eq_true in H
  | H : bool_decide _ = false |- _ => apply bool_decide_eq_false in H
  | H : (_ <? _)%Z = true |- _ => apply Z.ltb_lt in H
  | H : (_ <? _)%Z = false |- _ => apply Z.ltb_ge in H
  | H : (_ <=? _)%Z = true |- _ => apply Z.leb_le in H
  | H : (_ <=? _)%Z = false |- _ => apply Z.leb_gt in H
  | H : (_ =? _)%Z = true |- _ => apply Z.eqb_eq in H
  | H : (_ =? _)%Z = false |- _ => apply Z.eqb_neq in H
  end.

(** Split the [if]s and [match]es of the goal on their scrutinee, remembering it. *)
Ltac case_code :=
  match goal with
  | |- context [match ?x with _ => _ end] => destruct x eqn:?
  end.
Ltac case_code_in H :=
  match type of H with
  | context [match ?x with _ => _ end] => destruct x eqn:?
  end.
