(* ===== verification/PyText.v ===== *)
(** * Python's text and dates

    What several components use of [str] and [datetime]: stripping and lower case, suffixes, [split],
    [join], and the ISO 8601 form of a date and of a UTC date and time.  A date is its day number since
    1970-01-01, a date and time its number of microseconds. *)

From S2P Require Import Prelude.
From Stdlib Require Import Ascii.

Local Open Scope Z_scope.

(** ** Text: [str.strip], [str.lower] *)

Fixpoint lower (s : string) : string :=
  match s with EmptyString => EmptyString | String c s' => String (lower_char c) (lower s') end.
Fixpoint lstrip (s : string) : string :=
  match s with EmptyString => EmptyString | String c s' => if is_space c then lstrip s' else s end.
Fixpoint rstrip (s : string) : string :=
  match s with
  | EmptyString => EmptyString
  | String c s' => match rstrip s' with
                   | EmptyString => if is_space c then EmptyString else String c EmptyString
                   | r => String c r
                   end
  end.
Definition strip (s : string) : string := rstrip (lstrip s).

(** Stripping other characters; the white space [int] and [float] allow around a number. *)
Fixpoint lstrip_if (p : ascii -> bool) (s : string) : string :=
  match s with EmptyString => EmptyString | String c s' => if p c then lstrip_if p s' else s end.
Fixpoint rstrip_if (p : ascii -> bool) (s : string) : string :=
  match s with
  | EmptyString => EmptyString
  | String c s' => match rstrip_if p s' with EmptyString => if p c then EmptyString else String c EmptyString | r => String c r end
  end.
Definition number_space (c : ascii) : bool :=
  let n := nat_of_ascii c in ((9 <=? n) && (n <=? 13) || (n =? 32))%nat.

(** [s.endswith(suf)] *)
Fixpoint endswith (suf s : string) : bool :=
  String.eqb s suf || match s with EmptyString => false | String _ s' => endswith suf s' end.

(** [s.split()]: the words between white space, none of them empty; [word] is the word being read. *)
Fixpoint words_from (word s : string) : list string :=
  let done_word := if String.eqb word "" then [] else [word] in
  match s with
  | EmptyString => done_word
  | String c s' => if is_space c then done_word ++ words_from "" s' else words_from (word +:+ String c EmptyString) s'
  end.
Definition split_words (s : string) : list string := words_from "" s.

(** [sep.join(xs)] *)
Fixpoint str_join (sep : string) (l : list string) : string :=
  match l with [] => "" | [x] => x | x :: l' => x +:+ sep +:+ str_join sep l' end.

(** Concatenation. *)
Lemma string_app_cons c s t : String c s +:+ t = String c (s +:+ t).
Proof. reflexivity. Qed.

Lemma string_length_app s t : String.length (s +:+ t) = (String.length s + String.length t)%nat.
Proof. induction s as [|c s IH]; [done|]. rewrite string_app_cons. simpl. by rewrite IH. Qed.

Lemma string_app_assoc (s t u : string) : (s +:+ t) +:+ u = s +:+ (t +:+ u).
Proof. induction s as [|c s IH]; [done|]. by rewrite !string_app_cons, IH. Qed.

Lemma string_app_nil_r s : s +:+ "" = s.
Proof. induction s as [|c s IH]; [done|]. by rewrite string_app_cons, IH. Qed.

Lemma startswith_inv p s : startswith p s = true -> exists t, s = p +:+ t.
Proof.
  unfold startswith. revert s; induction p as [|c p IH]; intros s; [by exists s|].
  destruct s as [|d s]; [done|]. cbn [String.prefix]. destruct (ascii_dec c d) as [->|]; [|done].
  intros [t ->]%IH. by exists t.
Qed.

(** ** Dates *)

(** The proleptic Gregorian date of a day number (0 = 1970-01-01), as [datetime.date] computes it. *)
Definition civil (day : Z) : Z * Z * Z :=
  let z := day + 719468 in
  let era := z / 146097 in
  let doe := z mod 146097 in
  let yoe := (doe - doe / 1460 + doe / 36524 - doe / 146096) / 365 in
  let doy := doe - (365 * yoe + yoe / 4 - yoe / 100) in
  let mp := (5 * doy + 2) / 153 in
  let d := doy - (153 * mp + 2) / 5 + 1 in
  let m := if mp <? 10 then mp + 3 else mp - 9 in
  (yoe + era * 400 + (if m <=? 2 then 1 else 0), m, d).

(** Zero-padding to a width, as ["%02d"] does. *)
Fixpoint zeros (n : nat) : string := match n with O => "" | S n' => "0" +:+ zeros n' end.
Definition pad (w : nat) (n : Z) : string := zeros (w - String.length (pretty n)) +:+ pretty n.

(** [date.isoformat] *)
Definition isoformat (day : Z) : string :=
  let '(y, m, d) := civil day in pad 4 y +:+ "-" +:+ pad 2 m +:+ "-" +:+ pad 2 d.

(** Microseconds in a second and in a day; [dt.date()] as a day number. *)
Definition SECOND : Z := 1000000.
Definition DAY : Z := 86400 * SECOND.
Definition date_of (t : Z) : Z := t / DAY.

(** [dt.isoformat()] of a UTC date and time. *)
Definition isoformat_utc (t : Z) : string :=
  let s := t mod DAY / SECOND in
  let us := t mod SECOND in
  isoformat (date_of t) +:+ "T" +:+ pad 2 (s / 3600) +:+ ":" +:+ pad 2 (s / 60 mod 60) +:+ ":" +:+ pad 2 (s mod 60) +:+
  (if us =? 0 then "" else "." +:+ pad 6 us) +:+ "+00:00".

Example isoformat_utc_1 : isoformat_utc (1767322445 * SECOND + 42) = "2026-01-02T02:54:05.000042+00:00"%string.
Proof. vm_compute. reflexivity. Qed.
Example split_words_1 : str_join "-" (split_words "  Windows   CNG Key ") = "Windows-CNG-Key"%string.
Proof. vm_compute. reflexivity. Qed.
