(* ===== verification/StateMachines.v ===== *)
(** * The state machines of ranges, exercises and bookings, and who may change a booking

    Models [control-plane/api/app/state_machines.py] with the enums of [models.py], the booking
    lifecycle [scheduler/lifecycle.py] (guarded moves on the booking's row) and the change rule
    [scheduler/change_rule.py].  A request works on a booking object it loaded earlier ([evt.state]
    may be stale) and on the row itself.  The theorems: no range state strands a range; a booking's
    row only ever moves along the lifecycle, finished bookings never move, and of racing requests
    for one move exactly one makes it; the page's flags agree with what the server refuses. *)

From S2P Require Import Prelude.

(** ** Ranges and exercises *)

Inductive RangeState :=
| created | provisioning | ready | running | stopping | stopped | starting | destroying | destroyed | failed.
#[export] Instance RangeState_eq_dec : EqDecision RangeState.
Proof. solve_decision. Defined.

Definition RANGE_TRANSITIONS (s : RangeState) : list RangeState :=
  match s with
  | created => [provisioning; destroyed]
  | provisioning => [ready; failed]
  | ready => [running; stopping; destroying; failed]
  | running => [stopping; destroying]
  | stopping => [stopped; failed; destroying]
  | stopped => [starting; destroying]
  | starting => [running; failed; destroying]
  | destroying => [destroyed; failed]
  | failed => [provisioning; destroying; destroyed]
  | destroyed => []
  end.

Definition range_can_transition_to (s target : RangeState) : bool := bool_decide (target ∈ RANGE_TRANSITIONS s).

Module Exercise.
Inductive ExerciseState := pending | running | paused | completed | cancelled.
#[export] Instance ExerciseState_eq_dec : EqDecision ExerciseState.
Proof. solve_decision. Defined.

Definition EXERCISE_TRANSITIONS (s : ExerciseState) : list ExerciseState :=
  match s with
  | pending => [running; cancelled]
  | running => [paused; completed; cancelled]
  | paused => [running; cancelled]
  | completed => []
  | cancelled => []
  end.

Definition exercise_can_transition_to (s target : ExerciseState) : bool :=
  bool_decide (target ∈ EXERCISE_TRANSITIONS s).
End Exercise.

(** ** Bookings *)

Inductive EventState :=
| s_draft | s_pending_approval | s_rejected | s_scheduled | s_provisioning | s_active | s_completed | s_cancelled.
#[export] Instance EventState_eq_dec : EqDecision EventState.
Proof. solve_decision. Defined.

(** [SOURCES]; [SOURCES[draft]] is a KeyError. *)
Definition SOURCES (target : EventState) : option (list EventState) :=
  match target with
  | s_pending_approval => Some [s_draft; s_scheduled]
  | s_scheduled => Some [s_draft; s_pending_approval]
  | s_rejected => Some [s_pending_approval]
  | s_provisioning => Some [s_scheduled]
  | s_active => Some [s_scheduled; s_provisioning]
  | s_completed => Some [s_active]
  | s_cancelled => Some [s_draft; s_pending_approval; s_scheduled; s_provisioning; s_active]
  | s_draft => None
  end.

Definition EDITABLE : list EventState := [s_draft; s_pending_approval; s_scheduled].
Definition HOLDING : list EventState := [s_scheduled; s_provisioning; s_active].
Definition CALLED_OFF : list EventState := [s_cancelled; s_rejected].
Definition MOVABLE : list EventState := [s_draft; s_scheduled; s_pending_approval].
Definition S_FINISHED : list EventState := [s_completed; s_cancelled; s_rejected].

Inductive http_error := Http (status : Z) | KeyError.

(** The guarded UPDATE: moves the row only from [allowed]; says whether it did. *)
Definition guarded_update (allowed : list EventState) (to : EventState) (row : EventState) : bool * EventState :=
  if bool_decide (row ∈ allowed) then (true, to) else (false, row).

(** [transition]: [evt] is the state the request loaded, [row] the booking's row now.  On [Err]
    nothing was written (the move that lost the race rolls back). *)
Definition transition (evt to row : EventState) : result http_error (bool * EventState) :=
  if bool_decide (evt = to) then Ok (false, row)
  else
    match SOURCES to with
    | None => Err KeyError
    | Some allowed =>
        if negb (bool_decide (evt ∈ allowed)) then Err (Http 409)
        else
          match guarded_update allowed to row with
          | (true, row') => Ok (true, row')
          | (false, _) => Err (Http 409)
          end
    end.

(** [lock_editable]: the row, unchanged and locked, or a refusal. *)
Definition lock_editable (evt row : EventState) : result http_error EventState :=
  if negb (bool_decide (evt ∈ EDITABLE)) then Err (Http 409)
  else match guarded_update EDITABLE row row with
       | (true, row') => Ok row'
       | (false, _) => Err (Http 409)
       end.

(** ** Who may change a booking *)

Inductive UserRole := admin | instructor | student | observer | range_ops.
#[export] Instance UserRole_eq_dec : EqDecision UserRole.
Proof. solve_decision. Defined.

Definition LEAD_ROLES : list UserRole := [instructor; admin].

(** What the rule reads of a user: ids as text; [u_admin], [u_write]: the permissions
    [schedule:admin] and [schedule:write] (rbac). *)
Record user := User { u_id : string; u_tenant : string; u_role : UserRole; u_admin : bool; u_write : bool }.
Record class := Class { c_tenant : string; c_lead : string; c_status : string }.
Record booking := Booking { b_state : EventState; b_instructor : option string }.
(** [approval.proposed_start is not None] *)
Record approval := Approval { a_proposed : bool }.

(** [_edits_class] *)
Definition edits_class (c : class) (u : user) : bool :=
  if negb (String.eqb c.(c_tenant) u.(u_tenant)) then false
  else if bool_decide (u.(u_role) = admin) then true
  else String.eqb c.(c_lead) u.(u_id) && bool_decide (u.(u_role) ∈ LEAD_ROLES).

(** [refusal]: the status code, or [None]. *)
Definition refusal (evt : booking) (u : user) (cls : option class) (winding_down : bool) : option Z :=
  match cls with
  | Some c =>
      if negb (String.eqb c.(c_status) "open") && negb (winding_down && String.eqb c.(c_status) "cancelled")
      then Some 409%Z
      else if negb (edits_class c u || u.(u_admin)) then Some 403%Z else None
  | None =>
      match evt.(b_instructor) with
      | Some i => if negb (String.eqb i u.(u_id)) && negb u.(u_admin) then Some 403%Z else None
      | None => None
      end
  end.

Record change_flags := Flags {
  can_change : bool; can_move : bool; can_accept : bool; can_decline : bool; can_wind_down : bool
}.
Definition no_flags : change_flags := Flags false false false false false.

Definition flags (evt : booking) (u : option user) (cls : option class) (appr : option approval) : change_flags :=
  match u with
  | None => no_flags
  | Some u =>
      if negb u.(u_write) then no_flags
      else
        let wind := bool_decide (refusal evt u cls true = None) && negb (bool_decide (evt.(b_state) ∈ S_FINISHED)) in
        if negb (bool_decide (refusal evt u cls false = None)) then Flags false false false false wind
        else
          let proposal := bool_decide (evt.(b_state) = s_pending_approval) &&
            match appr with Some a => a.(a_proposed) | None => false end in
          Flags true (bool_decide (evt.(b_state) ∈ MOVABLE)) proposal proposal wind
  end.

(** ** Properties of the range machine *)

Definition range_step (s s' : RangeState) : Prop := range_can_transition_to s s' = true.

Lemma range_step_in s s' : s' ∈ RANGE_TRANSITIONS s -> range_step s s'.
Proof. intros H. by apply bool_decide_eq_true. Qed.

(** No state strands a range: every state leads to [destroyed], which is final; and an operation
    in progress ends: no in-progress state leads to itself, and each can be left for [failed]. *)
Theorem range_never_stranded s :
  rtc range_step s destroyed /\ (forall s', range_step s s' -> s <> destroyed /\ s' <> s) /\
  (s ∈ [provisioning; destroying; stopping; starting] -> range_step s failed /\ s <> failed).
Proof.
  assert (Hd : rtc range_step destroying destroyed)
    by (apply rtc_once, range_step_in; set_solver).
  assert (Hf : rtc range_step failed destroyed) by (apply rtc_once, range_step_in; set_solver).
  split; [|split].
  - destruct s; try done; try (apply rtc_once, range_step_in; set_solver);
      (eapply rtc_l; [|exact Hd]; apply range_step_in; set_solver) ||
      (eapply rtc_l; [|exact Hf]; apply range_step_in; set_solver).
  - intros s' H. apply bool_decide_eq_true in H. destruct s, s'; simpl in H; set_solver.
  - intros H. destruct s; try set_solver; (split; [apply range_step_in; set_solver|done]).
Qed.

(** ** Properties of the booking lifecycle *)

(** One move of a booking's row along the lifecycle. *)
Definition moves (s s' : EventState) : Prop := exists allowed, SOURCES s' = Some allowed /\ s ∈ allowed.

(** Requests on one booking, in the order their UPDATEs reach the row, each with the state it had
    loaded; the answers, and the row at the end. *)
Fixpoint requests (rs : list (EventState * EventState)) (row : EventState)
    : list (result http_error bool) * EventState :=
  match rs with
  | [] => ([], row)
  | (evt, to) :: rs' =>
      match transition evt to row with
      | Ok (b, row') => let '(l, fin) := requests rs' row' in (Ok b :: l, fin)
      | Err e => let '(l, fin) := requests rs' row in (Err e :: l, fin)
      end
  end.

Lemma transition_row evt to row b row' :
  transition evt to row = Ok (b, row') -> if b then moves row row' /\ row' = to else row' = row.
Proof.
  unfold transition, guarded_update. intros H.
  case_bool_decide; [by simplify_eq|]. destruct (SOURCES to) as [al|] eqn:E; [|done].
  destruct (negb _); [done|]. case_bool_decide; simplify_eq. split; [|done]. by exists al.
Qed.

Lemma moves_from_finished s s' : s ∈ S_FINISHED -> ~ moves s s'.
Proof. intros H (al & Ha & Hin). destruct s'; simplify_eq/=; set_solver. Qed.

Lemma moves_irrefl s : ~ moves s s.
Proof. intros (al & Ha & Hin). destruct s; simplify_eq/=; set_solver. Qed.

Lemma moves_acyclic_to s s' : moves s s' -> s' <> s_draft.
Proof. by intros (al & Ha & Hin) ->. Qed.

(** Whatever requests race on a booking, with however stale a state in hand, its row only moves
    along the lifecycle and a finished booking never moves again; and of two requests that both ask
    a move from the state they loaded, one after the other, the second is refused. *)
Theorem booking_lifecycle rs row l fin :
  requests rs row = (l, fin) ->
  rtc moves row fin /\ (row ∈ S_FINISHED -> fin = row) /\
  (forall to, to <> row -> requests [(row, to); (row, to)] row = ([Ok true; Err (Http 409)], to) \/
     (requests [(row, to); (row, to)] row).2 = row /\ forall b, Ok b ∉ (requests [(row, to); (row, to)] row).1).
Proof.
  intros H. assert (Hr : rtc moves row fin).
  { revert row l H. induction rs as [|[evt to] rs IH]; intros row l H; simpl in H; [by simplify_eq|].
    destruct (transition evt to row) as [[b row']|e] eqn:E.
    - destruct (requests rs row') as [l' fin'] eqn:Er. simplify_eq. apply IH in Er.
      apply transition_row in E. destruct b; [destruct E; by eapply rtc_l|by subst].
    - destruct (requests rs row) as [l' fin'] eqn:Er. simplify_eq. by eapply IH. }
  split; [done|]. split.
  - intros Hf. inversion Hr as [|? s ? Hm]; [done|]. by apply moves_from_finished in Hm.
  - intros to Hne. simpl. unfold transition, guarded_update. rewrite !(bool_decide_eq_false_2 (row = to)) by done.
    destruct (SOURCES to) as [al|] eqn:Es.
    + destruct (decide (row ∈ al)) as [Hin|Hin].
      * left. rewrite !(bool_decide_eq_true_2 _ Hin). simpl.
        rewrite (bool_decide_eq_false_2 (to ∈ al)); [done|]. intros Hto. eapply (moves_irrefl to). by exists al.
      * right. rewrite !(bool_decide_eq_false_2 _ Hin). simpl. split; [done|]. set_solver.
    + right. simpl. split; [done|]. set_solver.
Qed.

Definition permitted (evt : booking) (u : user) (cls : option class) (winding_down : bool) : Prop :=
  u_write u = true /\ refusal evt u cls winding_down = None.

(** The page's flags are the server's rule: "change" exactly when a change is not refused, "move"
    only then and while the booking may still move, "wind down" exactly when winding down is not
    refused and there is something left; a closed class offers nothing and a cancelled one only
    winding down. *)
Theorem flags_agree evt u cls appr :
  (can_change (flags evt (Some u) cls appr) = true <-> permitted evt u cls false) /\
  (can_move (flags evt (Some u) cls appr) = true <-> permitted evt u cls false /\ b_state evt ∈ EDITABLE) /\
  (can_wind_down (flags evt (Some u) cls appr) = true <->
     permitted evt u cls true /\ b_state evt ∉ S_FINISHED) /\
  (can_accept (flags evt (Some u) cls appr) = true -> permitted evt u cls false /\ b_state evt = s_pending_approval) /\
  (forall c, cls = Some c -> c_status c <> "open"%string ->
     can_change (flags evt (Some u) cls appr) = false /\
     (c_status c <> "cancelled"%string -> flags evt (Some u) cls appr = no_flags)).
Proof.
  unfold permitted, flags. destruct (u_write u); simpl; [|repeat split; try done; intros [[]]; try done; naive_solver].
  assert (Hm : forall s, s ∈ MOVABLE <-> s ∈ EDITABLE) by (intros s; unfold MOVABLE, EDITABLE; set_solver).
  destruct (decide (refusal evt u cls false = None)) as [Hr|Hr].
  - rewrite (bool_decide_eq_true_2 _ Hr). simpl. rewrite bool_decide_eq_true, Hm.
    rewrite !andb_true_iff, negb_true_iff, !bool_decide_eq_true, bool_decide_eq_false.
    split; [naive_solver|]. split; [naive_solver|]. split; [naive_solver|]. split; [naive_solver|].
    intros c -> Hc. unfold refusal in Hr. apply String.eqb_neq in Hc. by rewrite Hc in Hr.
  - rewrite (bool_decide_eq_false_2 _ Hr). simpl.
    rewrite !andb_true_iff, negb_true_iff, bool_decide_eq_true, bool_decide_eq_false.
    split; [naive_solver|]. split; [naive_solver|]. split; [naive_solver|]. split; [done|].
    intros c -> Hc. split; [done|]. intros Hc2. unfold no_flags. f_equal. apply andb_false_iff. left.
    apply bool_decide_eq_false. unfold refusal. apply String.eqb_neq in Hc, Hc2. by rewrite Hc, Hc2.
Qed.

(** ** Concrete cases *)

Lemma range_never_stranded_witness : range_step stopping failed.
Proof. apply (range_never_stranded stopping). set_solver. Defined.

Lemma booking_lifecycle_witness :
  requests [(s_scheduled, s_active); (s_scheduled, s_provisioning); (s_active, s_completed); (s_active, s_cancelled)]
    s_scheduled = ([Ok true; Err (Http 409); Ok true; Err (Http 409)], s_completed) /\ rtc moves s_scheduled s_completed.
Proof.
  split; [vm_compute; reflexivity|].
  apply (booking_lifecycle [(s_scheduled, s_active); (s_scheduled, s_provisioning); (s_active, s_completed);
    (s_active, s_cancelled)] s_scheduled [Ok true; Err (Http 409); Ok true; Err (Http 409)]).
  vm_compute. reflexivity.
Defined.

Lemma flags_agree_witness :
  flags (Booking s_scheduled (Some "i1")) (Some (User "i2" "t" instructor false true)) (Some (Class "t" "i2" "cancelled"))
    None = Flags false false false false true /\
  permitted (Booking s_scheduled (Some "i1")) (User "i2" "t" instructor false true) (Some (Class "t" "i2" "cancelled")) true.
Proof.
  split; [vm_compute; reflexivity|].
  apply (flags_agree (Booking s_scheduled (Some "i1"%string)) (User "i2" "t" instructor false true)
    (Some (Class "t" "i2" "cancelled")) None). vm_compute. reflexivity.
Defined.
