(* ===== verification/RfbFilter.v ===== *)
(** * The view-only RFB filter of the console relay

    Models [control-plane/api/app/console_relay/rfb_filter.py]: the byte-stream filter that
    frames what a view-only console's browser sends to the hypervisor and forwards only whole
    allowed messages.  [filter] is the instance state of [ViewOnlyFilter]; every method is a
    function from the state to the new state and an outcome: a value, or the [Violation] raised
    (the state keeps what was assigned before the raise, as the Python object does).  Bytes are
    integers 0..255.  The theorems: both feeds terminate; what is forwarded is always a prefix
    of a legal handshake followed by allowed messages only; framing does not depend on how the
    stream is cut into WebSocket messages; buffering is bounded; a violation is final. *)

From S2P Require Import Prelude.
From Stdlib Require Import Ascii.

Local Open Scope Z_scope.

(** ** Bytes and integers ([struct]) *)

Notation byte := Z (only parsing).
Notation bytes := (list Z) (only parsing).
Definition is_byte (b : byte) : Prop := 0 <= b < 256.

(** [struct.unpack_from(">H", b, off)] and [">I"]: big-endian, unsigned. *)
Definition byte_at (b : bytes) (off : nat) : Z := default 0 (b !! off).
Definition u16_at (b : bytes) (off : nat) : Z := 256 * byte_at b off + byte_at b (S off).
Definition u32_at (b : bytes) (off : nat) : Z := 65536 * u16_at b off + u16_at b (S (S off)).
(** [">i"]: two's complement. *)
Definition signed32 (u : Z) : Z := if u <? 2147483648 then u else u - 4294967296.
(** [struct.unpack_from(f">{n}i", b, 4)], on the bytes from the offset on. *)
Fixpoint i32s (n : nat) (b : bytes) : list Z :=
  match n with
  | O => []
  | S n' => signed32 (u32_at b 0) :: i32s n' (drop 4 b)
  end.
Definition pack_u16 (v : Z) : bytes := [v / 256 mod 256; v mod 256].
Definition pack_i32 (v : Z) : bytes :=
  let u := v mod 4294967296 in [u / 16777216; u / 65536 mod 256; u / 256 mod 256; u mod 256].
Definition pack_i32s (vs : list Z) : bytes := concat (map pack_i32 vs).

(** ** Constants of the module *)

Definition CLOSE_POLICY : Z := 1008.
Definition CLOSE_TOO_BIG : Z := 1009.
Definition newline : string := String "010"%char "".
Definition VERSIONS : list bytes :=
  [bytes_of_string ("RFB 003.007" +:+ newline); bytes_of_string ("RFB 003.008" +:+ newline)].
Definition SECURITY_NONE : Z := 1.
Definition SECURITY_VNC : Z := 2.
Definition VNC_AUTH_RESPONSE : Z := 16.
Definition SET_PIXEL_FORMAT : Z := 0.
Definition SET_ENCODINGS : Z := 2.
Definition FRAMEBUFFER_UPDATE_REQUEST : Z := 3.
Definition KEY_EVENT : Z := 4.
Definition POINTER_EVENT : Z := 5.
Definition CLIENT_CUT_TEXT : Z := 6.
Definition FORWARD_LEN (kind : Z) : option Z :=
  if kind =? SET_PIXEL_FORMAT then Some 20
  else if kind =? FRAMEBUFFER_UPDATE_REQUEST then Some 10 else None.
Definition DROP_LEN (kind : Z) : option Z :=
  if kind =? KEY_EVENT then Some 8 else if kind =? POINTER_EVENT then Some 6 else None.
Definition MAX_ENCODINGS : Z := 1024.
Definition MAX_CUT_TEXT : Z := 1024 * 1024.
Definition MAX_FRAMED : Z := 4 + 4 * MAX_ENCODINGS.
Definition MAX_NAME : Z := 4096.
Definition MAX_SERVER_BUF : Z := 24 + MAX_NAME + 64.
Definition STRIPPED : list Z := [-258; -259; -305; -308; -309; -310; -312; -313; -1063131698].
Definition STRIPPED_RANGES : list (Z * Z) := [(1464686080, 1464686335)].  (* 0x574D5600 .. 0x574D56FF *)

Definition stripped (code : Z) : bool :=
  bool_decide (code ∈ STRIPPED) || existsb (fun r => (r.1 <=? code) && (code <=? r.2)) STRIPPED_RANGES.

(** ** State *)

(** [range(5)] and [range(9)] of the source, in order. *)
Inductive cstate := C_VERSION | C_SECURITY | C_AUTH | C_INIT | C_MESSAGES.
Inductive sstate :=
| SV_VERSION | SV_VERSION_WAIT | SV_LIST | SV_CHOICE_WAIT | SV_CHALLENGE | SV_RESULT
| SV_INIT_WAIT | SV_INIT | SV_DONE.

#[export] Instance cstate_eq_dec : EqDecision cstate.
Proof. solve_decision. Defined.
#[export] Instance sstate_eq_dec : EqDecision sstate.
Proof. solve_decision. Defined.

Definition sv_num (s : sstate) : Z :=
  match s with
  | SV_VERSION => 0 | SV_VERSION_WAIT => 1 | SV_LIST => 2 | SV_CHOICE_WAIT => 3 | SV_CHALLENGE => 4
  | SV_RESULT => 5 | SV_INIT_WAIT => 6 | SV_INIT => 7 | SV_DONE => 8
  end.

Record violation := Violation { v_code : Z; v_reason : string }.

Record filter := mkFilter {
  f_buf : bytes;
  f_state : cstate;
  f_skip : Z;
  f_dead : bool;
  f_dropped : Z;
  f_sbuf : bytes;
  f_sstate : sstate;
  f_sver : Z;
  f_cver : Z;
  f_offered : option (list Z);
  f_choice : Z;
  f_challenge_seen : bool;
  f_security_done : bool;
  f_serverinit_seen : bool
}.

(** [ViewOnlyFilter.__init__] *)
Definition new_filter : filter :=
  mkFilter [] C_VERSION 0 false 0 [] SV_VERSION 0 0 None 0 false false false.

Definition set_buf b f := mkFilter b f.(f_state) f.(f_skip) f.(f_dead) f.(f_dropped) f.(f_sbuf) f.(f_sstate)
  f.(f_sver) f.(f_cver) f.(f_offered) f.(f_choice) f.(f_challenge_seen) f.(f_security_done) f.(f_serverinit_seen).
Definition set_state s f := mkFilter f.(f_buf) s f.(f_skip) f.(f_dead) f.(f_dropped) f.(f_sbuf) f.(f_sstate)
  f.(f_sver) f.(f_cver) f.(f_offered) f.(f_choice) f.(f_challenge_seen) f.(f_security_done) f.(f_serverinit_seen).
Definition set_skip k f := mkFilter f.(f_buf) f.(f_state) k f.(f_dead) f.(f_dropped) f.(f_sbuf) f.(f_sstate)
  f.(f_sver) f.(f_cver) f.(f_offered) f.(f_choice) f.(f_challenge_seen) f.(f_security_done) f.(f_serverinit_seen).
Definition set_dead d f := mkFilter f.(f_buf) f.(f_state) f.(f_skip) d f.(f_dropped) f.(f_sbuf) f.(f_sstate)
  f.(f_sver) f.(f_cver) f.(f_offered) f.(f_choice) f.(f_challenge_seen) f.(f_security_done) f.(f_serverinit_seen).
Definition inc_dropped f := mkFilter f.(f_buf) f.(f_state) f.(f_skip) f.(f_dead) (f.(f_dropped) + 1) f.(f_sbuf)
  f.(f_sstate) f.(f_sver) f.(f_cver) f.(f_offered) f.(f_choice) f.(f_challenge_seen) f.(f_security_done)
  f.(f_serverinit_seen).
Definition set_sbuf b f := mkFilter f.(f_buf) f.(f_state) f.(f_skip) f.(f_dead) f.(f_dropped) b f.(f_sstate)
  f.(f_sver) f.(f_cver) f.(f_offered) f.(f_choice) f.(f_challenge_seen) f.(f_security_done) f.(f_serverinit_seen).
Definition set_sstate s f := mkFilter f.(f_buf) f.(f_state) f.(f_skip) f.(f_dead) f.(f_dropped) f.(f_sbuf) s
  f.(f_sver) f.(f_cver) f.(f_offered) f.(f_choice) f.(f_challenge_seen) f.(f_security_done) f.(f_serverinit_seen).
Definition set_sver v f := mkFilter f.(f_buf) f.(f_state) f.(f_skip) f.(f_dead) f.(f_dropped) f.(f_sbuf) f.(f_sstate)
  v f.(f_cver) f.(f_offered) f.(f_choice) f.(f_challenge_seen) f.(f_security_done) f.(f_serverinit_seen).
Definition set_cver v f := mkFilter f.(f_buf) f.(f_state) f.(f_skip) f.(f_dead) f.(f_dropped) f.(f_sbuf) f.(f_sstate)
  f.(f_sver) v f.(f_offered) f.(f_choice) f.(f_challenge_seen) f.(f_security_done) f.(f_serverinit_seen).
Definition set_offered o f := mkFilter f.(f_buf) f.(f_state) f.(f_skip) f.(f_dead) f.(f_dropped) f.(f_sbuf)
  f.(f_sstate) f.(f_sver) f.(f_cver) o f.(f_choice) f.(f_challenge_seen) f.(f_security_done) f.(f_serverinit_seen).
Definition set_choice c f := mkFilter f.(f_buf) f.(f_state) f.(f_skip) f.(f_dead) f.(f_dropped) f.(f_sbuf)
  f.(f_sstate) f.(f_sver) f.(f_cver) f.(f_offered) c f.(f_challenge_seen) f.(f_security_done) f.(f_serverinit_seen).
Definition see_challenge f := mkFilter f.(f_buf) f.(f_state) f.(f_skip) f.(f_dead) f.(f_dropped) f.(f_sbuf)
  f.(f_sstate) f.(f_sver) f.(f_cver) f.(f_offered) f.(f_choice) true f.(f_security_done) f.(f_serverinit_seen).
Definition finish_security f := mkFilter f.(f_buf) f.(f_state) f.(f_skip) f.(f_dead) f.(f_dropped) f.(f_sbuf)
  f.(f_sstate) f.(f_sver) f.(f_cver) f.(f_offered) f.(f_choice) f.(f_challenge_seen) true f.(f_serverinit_seen).
Definition see_serverinit f := mkFilter f.(f_buf) f.(f_state) f.(f_skip) f.(f_dead) f.(f_dropped) f.(f_sbuf)
  f.(f_sstate) f.(f_sver) f.(f_cver) f.(f_offered) f.(f_choice) f.(f_challenge_seen) f.(f_security_done) true.

(** What a call does: it returns, it raises, or (a loop that never ends) neither.  The last is
    shown impossible ([feed_terminates]). *)
Inductive outcome (A : Type) := Val (a : A) | Raise (v : violation) | Diverges.
Arguments Val {A} a.
Arguments Raise {A} v.
Arguments Diverges {A}.

Definition refused : violation := Violation CLOSE_POLICY "Input is not allowed on a view-only console".
Definition bad_version : violation :=
  Violation CLOSE_POLICY "This console speaks a protocol version that is not supported".
Definition machine_refused : violation := Violation CLOSE_POLICY "The machine refused the console connection".

(** [VERSIONS.index(version)] when [version in VERSIONS]. *)
Definition version_index (v : bytes) : option Z :=
  if bool_decide (v = nth 0 VERSIONS []) then Some 0
  else if bool_decide (v = nth 1 VERSIONS []) then Some 1 else None.

(** ** The server's side *)

Inductive loop_step := SContinue | SReturn | SRaise (v : violation).

(** One turn of [_advance_server]'s [while True]. *)
Definition advance_step (f : filter) : filter * loop_step :=
  let sbuf := f.(f_sbuf) in
  match f.(f_sstate) with
  | SV_VERSION =>
      if zlen sbuf <? 12 then (f, SReturn)
      else match version_index (take 12 sbuf) with
           | None => (f, SRaise bad_version)
           | Some i => (set_sstate SV_VERSION_WAIT (set_sbuf (drop 12 sbuf) (set_sver (i + 7) f)), SContinue)
           end
  | SV_LIST =>
      match sbuf with
      | [] => (f, SReturn)
      | count :: rest =>
          if count =? 0 then (f, SRaise machine_refused)
          else if zlen sbuf <? 1 + count then (f, SReturn)
          else (set_sstate SV_CHOICE_WAIT (set_sbuf (drop (Z.to_nat (1 + count)) sbuf)
                 (set_offered (Some (take (Z.to_nat count) rest)) f)), SContinue)
      end
  | SV_CHALLENGE =>
      if zlen sbuf <? VNC_AUTH_RESPONSE then (f, SReturn)
      else (set_sstate SV_RESULT (see_challenge (set_sbuf (drop 16 sbuf) f)), SContinue)
  | SV_RESULT =>
      if zlen sbuf <? 4 then (f, SReturn)
      else if negb (bool_decide (take 4 sbuf = [0; 0; 0; 0])) then (f, SRaise machine_refused)
      else (set_sstate SV_INIT_WAIT (finish_security (set_sbuf (drop 4 sbuf) f)), SContinue)
  | SV_INIT =>
      if zlen sbuf <? 24 then (f, SReturn)
      else let name_len := u32_at sbuf 20 in
           if MAX_NAME <? name_len
           then (f, SRaise (Violation CLOSE_TOO_BIG "The machine's console announced an oversize name"))
           else if zlen sbuf <? 24 + name_len then (f, SReturn)
           else (set_sbuf [] (set_sstate SV_DONE (see_serverinit f)), SReturn)
  | SV_VERSION_WAIT | SV_CHOICE_WAIT | SV_INIT_WAIT | SV_DONE => (f, SReturn)
  end.

Fixpoint advance_loop (fuel : nat) (f : filter) : filter * outcome unit :=
  match fuel with
  | O => (f, Diverges)
  | S fuel' =>
      match advance_step f with
      | (f', SReturn) => (f', Val tt)
      | (f', SRaise v) => (f', Raise v)
      | (f', SContinue) => advance_loop fuel' f'
      end
  end.

(** [_advance_server]: every turn that continues moves [_sstate] forward, so nine are enough. *)
Definition advance_server (f : filter) : filter * outcome unit := advance_loop 9 f.

(** [feed_server] *)
Definition feed_server (f : filter) (data : bytes) : filter * outcome unit :=
  if f.(f_dead) then (f, Raise refused)
  else if bool_decide (f.(f_sstate) = SV_DONE) then (f, Val tt)
  else
    match advance_server (set_sbuf (f.(f_sbuf) ++ data) f) with
    | (f', Val _) =>
        if MAX_SERVER_BUF <? zlen f'.(f_sbuf)
        then (set_dead true f',
              Raise (Violation CLOSE_TOO_BIG "The machine's console sent more than a handshake allows"))
        else (f', Val tt)
    | (f', Raise v) => (set_dead true f', Raise v)
    | (f', Diverges) => (f', Diverges)
    end.

(** The properties [held] and [handshaken]. *)
Definition held (f : filter) : Z := zlen f.(f_buf).
Definition handshaken (f : filter) : bool :=
  bool_decide (f.(f_state) = C_MESSAGES) && f.(f_serverinit_seen).

(** ** The client's side *)

Definition not_ready : violation := Violation CLOSE_POLICY "The console is not ready for that yet".

(** [_pass]: forward the first [n] bytes and move on. *)
Definition pass_unit (f : filter) (out : list bytes) (n : Z) (next : cstate) : filter * list bytes :=
  (set_state next (set_buf (drop (Z.to_nat n) f.(f_buf)) f), out ++ [take (Z.to_nat n) f.(f_buf)]).

(** A step's outcome: the bytes consumed (0: need more) and the messages to forward so far. *)
Definition step_res := (filter * outcome (Z * list bytes))%type.

(** [n = ...; self._advance_server(); return n] *)
Definition then_advance (f : filter) (n : Z) (out : list bytes) : step_res :=
  match advance_server f with
  | (f', Val _) => (f', Val (n, out))
  | (f', Raise v) => (f', Raise v)
  | (f', Diverges) => (f', Diverges)
  end.

(** [_message] *)
Definition message (f : filter) (out : list bytes) : step_res :=
  let buf := f.(f_buf) in
  match buf with
  | [] => (f, Val (0, out))
  | kind :: _ =>
      match FORWARD_LEN kind with
      | Some n =>
          if zlen buf <? n then (f, Val (0, out))
          else (set_buf (drop (Z.to_nat n) buf) f, Val (n, out ++ [take (Z.to_nat n) buf]))
      | None =>
          if kind =? SET_ENCODINGS then
            if zlen buf <? 4 then (f, Val (0, out))
            else
              let count := u16_at buf 2 in
              if MAX_ENCODINGS <? count then (f, Raise (Violation CLOSE_TOO_BIG "Too many encodings offered"))
              else
                let n := 4 + 4 * count in
                if zlen buf <? n then (f, Val (0, out))
                else
                  let codes := List.filter (fun c => negb (stripped c)) (i32s (Z.to_nat count) (drop 4 buf)) in
                  let msg := [SET_ENCODINGS; 0] ++ pack_u16 (zlen codes) ++ pack_i32s codes in
                  (set_buf (drop (Z.to_nat n) buf) f, Val (n, out ++ [msg]))
          else
            match DROP_LEN kind with
            | Some k => (inc_dropped (set_skip k f), Val (1, out))
            | None =>
                if kind =? CLIENT_CUT_TEXT then
                  if zlen buf <? 8 then (f, Val (0, out))
                  else
                    let len := u32_at buf 4 in
                    if MAX_CUT_TEXT <? len
                    then (f, Raise (Violation CLOSE_TOO_BIG "Clipboard text is too large"))
                    else (inc_dropped (set_skip (8 + len) f), Val (1, out))
                else (f, Raise (Violation CLOSE_POLICY "That input is not allowed on a view-only console"))
            end
      end
  end.

(** [_next]: one unit at the head of the buffer. *)
Definition next_unit (f : filter) (out : list bytes) : step_res :=
  let buf := f.(f_buf) in
  match buf with
  | [] => (f, Val (0, out))
  | first :: _ =>
      match f.(f_state) with
      | C_VERSION =>
          if negb (sv_num SV_VERSION_WAIT <=? sv_num f.(f_sstate)) then (f, Raise not_ready)
          else if zlen buf <? 12 then (f, Val (0, out))
          else
            match version_index (take 12 buf) with
            | None => (f, Raise bad_version)
            | Some i =>
                let f1 := set_cver (i + 7) f in
                if f1.(f_sver) <? f1.(f_cver)
                then (f1, Raise (Violation CLOSE_POLICY "That protocol version is newer than the console's"))
                else
                  let '(f2, out') := pass_unit (set_sstate SV_LIST f1) out 12 C_SECURITY in
                  then_advance f2 12 out'
            end
      | C_SECURITY =>
          match f.(f_offered) with
          | None => (f, Raise not_ready)
          | Some offered =>
              let choice := first in
              if negb (bool_decide (choice ∈ [SECURITY_NONE; SECURITY_VNC])) || negb (bool_decide (choice ∈ offered))
              then (f, Raise (Violation CLOSE_POLICY "This console's security type is not supported"))
              else
                let f1 := set_choice choice f in
                let f2 := if choice =? SECURITY_VNC then set_sstate SV_CHALLENGE f1
                          else if 8 <=? f1.(f_cver) then set_sstate SV_RESULT f1
                          else set_sstate SV_INIT_WAIT (finish_security f1) in
                let '(f3, out') := pass_unit f2 out 1 (if choice =? SECURITY_VNC then C_AUTH else C_INIT) in
                then_advance f3 1 out'
          end
      | C_AUTH =>
          if negb f.(f_challenge_seen) then (f, Raise not_ready)
          else if zlen buf <? VNC_AUTH_RESPONSE then (f, Val (0, out))
          else let '(f1, out') := pass_unit f out VNC_AUTH_RESPONSE C_INIT in (f1, Val (VNC_AUTH_RESPONSE, out'))
      | C_INIT =>
          if negb f.(f_security_done) then (f, Raise not_ready)
          else
            let f1 := set_sstate SV_INIT (set_state C_MESSAGES (set_buf (drop 1 buf) f)) in
            then_advance f1 1 (out ++ [[1]])
      | C_MESSAGES =>
          if negb f.(f_serverinit_seen) then (f, Raise not_ready) else message f out
      end
  end.

(** One turn of [_run]'s [while True]: whether it goes on, and the messages so far. *)
Definition turn (f : filter) (out : list bytes) : filter * outcome (bool * list bytes) :=
  if negb (f.(f_skip) =? 0) then
    let n := Z.min f.(f_skip) (zlen f.(f_buf)) in
    let f1 := set_skip (f.(f_skip) - n) (set_buf (drop (Z.to_nat n) f.(f_buf)) f) in
    (f1, Val (f1.(f_skip) =? 0, out))
  else
    match next_unit f out with
    | (f', Val (take, out')) => (f', Val (negb (take =? 0), out'))
    | (f', Raise v) => (f', Raise v)
    | (f', Diverges) => (f', Diverges)
    end.

(** [_run]'s loop. *)
Fixpoint run_loop (fuel : nat) (f : filter) (out : list bytes) : filter * outcome (list bytes) :=
  match fuel with
  | O => (f, Diverges)
  | S fuel' =>
      match turn f out with
      | (f', Val (true, out')) => run_loop fuel' f' out'
      | (f', Val (false, out')) => (f', Val out')
      | (f', Raise v) => (f', Raise v)
      | (f', Diverges) => (f', Diverges)
      end
  end.

(** Every turn consumes a byte or turns a dropped message into bytes to skip. *)
Definition run_fuel (f : filter) : nat := 2 * length f.(f_buf) + 2.

(** [_run] *)
Definition run (f : filter) (data : bytes) : filter * outcome (list bytes) :=
  let f1 := set_buf (f.(f_buf) ++ data) f in run_loop (run_fuel f1) f1 [].

(** [feed] *)
Definition feed (f : filter) (data : bytes) : filter * outcome (list bytes) :=
  if f.(f_dead) then (f, Raise refused)
  else
    match run f data with
    | (f', Raise v) => (set_dead true f', Raise v)
    | r => r
    end.

(** ** The server loop terminates and leaves the client's side alone *)

Lemma advance_step_progress f f' :
  advance_step f = (f', SContinue) -> sv_num f.(f_sstate) < sv_num f'.(f_sstate) <= 8.
Proof.
  unfold advance_step. intros H.
  destruct (f_sstate f) eqn:E; repeat (case_code_in H; simplify_eq/=); simplify_eq; simpl; lia.
Qed.

Lemma advance_loop_total fuel f :
  8 - sv_num f.(f_sstate) < Z.of_nat fuel -> (advance_loop fuel f).2 <> Diverges.
Proof.
  revert f; induction fuel as [|fuel IH]; intros f Hf; simpl.
  - destruct (f_sstate f); simpl in Hf; lia.
  - destruct (advance_step f) as [f' []] eqn:E; [|done|done].
    apply advance_step_progress in E. apply IH. lia.
Qed.

Lemma advance_server_total f : (advance_server f).2 <> Diverges.
Proof. apply advance_loop_total. destruct (f_sstate f); simpl; lia. Qed.

(** What the server loop may not touch, and how it may move the flags. *)
Definition client_same (f f' : filter) : Prop :=
  f'.(f_buf) = f.(f_buf) /\ f'.(f_state) = f.(f_state) /\ f'.(f_skip) = f.(f_skip) /\
  f'.(f_dead) = f.(f_dead) /\ f'.(f_dropped) = f.(f_dropped) /\ f'.(f_choice) = f.(f_choice) /\
  f'.(f_cver) = f.(f_cver) /\
  (f.(f_challenge_seen) = true -> f'.(f_challenge_seen) = true) /\
  (f.(f_security_done) = true -> f'.(f_security_done) = true) /\
  (f.(f_serverinit_seen) = true -> f'.(f_serverinit_seen) = true).

Lemma client_same_refl f : client_same f f.
Proof. by repeat split. Qed.
Lemma client_same_trans f g h : client_same f g -> client_same g h -> client_same f h.
Proof. unfold client_same. intuition congruence. Qed.

Lemma advance_step_client f : client_same f (advance_step f).1.
Proof.
  unfold advance_step.
  destruct (f_sstate f); repeat (case_code; simpl); try apply client_same_refl;
    by repeat split.
Qed.

Lemma advance_loop_client fuel f : client_same f (advance_loop fuel f).1.
Proof.
  revert f; induction fuel as [|fuel IH]; intros f; simpl; [apply client_same_refl|].
  pose proof (advance_step_client f) as H.
  destruct (advance_step f) as [f' []]; simpl in *; [|done|done].
  eapply client_same_trans; [exact H|apply IH].
Qed.

Lemma advance_server_client f : client_same f (advance_server f).1.
Proof. apply advance_loop_client. Qed.

(** Appending client bytes commutes with the server loop. *)
Definition app_buf (x : bytes) (f : filter) : filter := set_buf (f.(f_buf) ++ x) f.

Lemma advance_step_app x f :
  advance_step (app_buf x f) = (app_buf x (advance_step f).1, (advance_step f).2).
Proof.
  destruct f as [buf st sk dd dr sbuf ss sv cv off ch c1 c2 c3]. unfold advance_step, app_buf; simpl.
  destruct ss; repeat (case_code; simpl); done.
Qed.

Lemma advance_loop_app fuel x f :
  advance_loop fuel (app_buf x f) = (app_buf x (advance_loop fuel f).1, (advance_loop fuel f).2).
Proof.
  revert f; induction fuel as [|fuel IH]; intros f; simpl; [done|].
  rewrite advance_step_app. by destruct (advance_step f) as [f' []]; simpl.
Qed.

Lemma advance_server_app x f :
  advance_server (app_buf x f) = (app_buf x (advance_server f).1, (advance_server f).2).
Proof. apply advance_loop_app. Qed.

(** ** Well-formed states *)

Definition wf (f : filter) : Prop :=
  Forall is_byte f.(f_buf) /\ Forall is_byte f.(f_sbuf) /\ 0 <= f.(f_skip).

Lemma byte_at_range b i : Forall is_byte b -> 0 <= byte_at b i < 256.
Proof.
  intros Hb. unfold byte_at. destruct (b !! i) as [x|] eqn:E; simpl; [|lia].
  by apply (Forall_lookup_1 _ _ _ _ Hb E).
Qed.
Lemma u16_at_range b i : Forall is_byte b -> 0 <= u16_at b i < 65536.
Proof. intros Hb. unfold u16_at. pose proof (byte_at_range b i Hb). pose proof (byte_at_range b (S i) Hb). lia. Qed.
Lemma u32_at_range b i : Forall is_byte b -> 0 <= u32_at b i < 4294967296.
Proof.
  intros Hb. unfold u32_at. pose proof (u16_at_range b i Hb).
  pose proof (u16_at_range b (S (S i)) Hb). lia.
Qed.

Lemma advance_step_wf f : wf f -> wf (advance_step f).1.
Proof.
  destruct f as [buf st sk dd dr sbuf ss sv cv off ch c1 c2 c3].
  unfold wf, advance_step; simpl. intros (Hb & Hs & Hk).
  destruct ss; repeat (case_code; simpl); repeat split; auto using Forall_drop.
Qed.
Lemma advance_loop_wf fuel f : wf f -> wf (advance_loop fuel f).1.
Proof.
  revert f; induction fuel as [|fuel IH]; intros f H; simpl; [done|].
  pose proof (advance_step_wf f H) as H'.
  destruct (advance_step f) as [f' []]; simpl in *; [by apply IH|done|done].
Qed.
Lemma advance_server_wf f : wf f -> wf (advance_server f).1.
Proof. apply advance_loop_wf. Qed.

(** ** What a unit at the head of the buffer does

    [step_ok f r]: the result of one step consumed a prefix of the buffer. *)
Definition consumed (f f' : filter) (n : Z) : Prop :=
  f'.(f_buf) = drop (Z.to_nat n) f.(f_buf) /\ 0 <= n <= zlen f.(f_buf).

Lemma then_advance_spec f n out f' r :
  then_advance f n out = (f', r) ->
  f' = (advance_server f).1 /\ (r = Val (n, out) \/ exists v, r = Raise v).
Proof.
  unfold then_advance. pose proof (advance_server_total f).
  destruct (advance_server f) as [f1 []]; simpl; intros; simplify_eq; eauto.
Qed.

Lemma then_advance_out f n out o1 :
  then_advance f n (o1 ++ out) =
  match then_advance f n out with
  | (f', Val (k, o)) => (f', Val (k, o1 ++ o)) | r => r end.
Proof. unfold then_advance. by destruct (advance_server f) as [f1 []]. Qed.

Lemma then_advance_app x f n out :
  then_advance (app_buf x f) n out = (app_buf x (then_advance f n out).1, (then_advance f n out).2).
Proof.
  unfold then_advance. rewrite advance_server_app.
  by destruct (advance_server f) as [f1 []].
Qed.

(** The messages so far are only ever appended to. *)
Lemma message_out f out o1 :
  message f (o1 ++ out) =
  match message f out with (f', Val (k, o)) => (f', Val (k, o1 ++ o)) | r => r end.
Proof. unfold message. repeat case_code; simpl; rewrite ?app_assoc; done. Qed.

Lemma next_unit_out f out o1 :
  next_unit f (o1 ++ out) =
  match next_unit f out with (f', Val (k, o)) => (f', Val (k, o1 ++ o)) | r => r end.
Proof.
  unfold next_unit, pass_unit. destruct (f_buf f); [done|].
  destruct (f_state f); [..|destruct (negb _); [done|apply message_out]];
    repeat match goal with
    | |- context [then_advance _ _ ((_ ++ _) ++ _)] => rewrite <- app_assoc, then_advance_out
    | |- (if ?b then _ else _) = _ => destruct b; [done|]
    | |- context [match ?x with _ => _ end] => is_var x; destruct x; try done
    | |- match ?x with _ => _ end = _ => destruct x; try done
    end; rewrite ?app_assoc; try done.
  all: rewrite <- app_assoc, then_advance_out; done.
Qed.

Lemma turn_out f out o1 :
  turn f (o1 ++ out) =
  match turn f out with (f', Val (k, o)) => (f', Val (k, o1 ++ o)) | r => r end.
Proof.
  unfold turn. destruct (negb _); [done|]. rewrite next_unit_out.
  by destruct (next_unit f out) as [f' [[]| |]].
Qed.

Lemma run_loop_out n f out o1 :
  run_loop n f (o1 ++ out) =
  match run_loop n f out with (f', Val o) => (f', Val (o1 ++ o)) | r => r end.
Proof.
  revert f out; induction n as [|n IH]; intros f out; simpl; [done|].
  rewrite turn_out. destruct (turn f out) as [f' [[[] o]| |]]; simpl; auto.
Qed.

(** ** A unit decided on the bytes held is decided the same way with more bytes behind it *)

Lemma byte_at_app b x i : (i < length b)%nat -> byte_at (b ++ x) i = byte_at b i.
Proof. intros H. unfold byte_at. by rewrite lookup_app_l. Qed.
Lemma u16_at_app b x i : (S i < length b)%nat -> u16_at (b ++ x) i = u16_at b i.
Proof. intros H. unfold u16_at. rewrite !byte_at_app by lia. done. Qed.
Lemma u32_at_app b x i : (S (S (S i)) < length b)%nat -> u32_at (b ++ x) i = u32_at b i.
Proof. intros H. unfold u32_at. rewrite !u16_at_app by lia. done. Qed.

Lemma i32s_app n b x : (4 * n <= length b)%nat -> i32s n (b ++ x) = i32s n b.
Proof.
  revert b; induction n as [|n IH]; intros b H; simpl; [done|].
  rewrite u32_at_app by lia. f_equal. rewrite drop_app_le by lia.
  apply IH. rewrite length_drop. lia.
Qed.

Lemma zlen_ltb_app (b x : bytes) n : (zlen b <? n) = false -> (zlen (b ++ x) <? n) = false.
Proof. rewrite !Z.ltb_ge, zlen_app. pose proof (zlen_nonneg x). lia. Qed.

Lemma take_drop_app (b x : bytes) n :
  (zlen b <? n) = false ->
  take (Z.to_nat n) (b ++ x) = take (Z.to_nat n) b /\ drop (Z.to_nat n) (b ++ x) = drop (Z.to_nat n) b ++ x.
Proof.
  rewrite Z.ltb_ge. unfold zlen. intros H.
  by rewrite take_app_le, drop_app_le by lia.
Qed.

Definition goes_on {A} (r : outcome (Z * A)) : Prop :=
  match r with Val (n, _) => n <> 0 | _ => True end.

Lemma then_advance_app' f n out x f' r :
  then_advance f n out = (f', r) -> then_advance (app_buf x f) n out = (app_buf x f', r).
Proof. intros E. by rewrite then_advance_app, E. Qed.

Lemma forward_len_pos k n : FORWARD_LEN k = Some n -> 0 < n.
Proof. unfold FORWARD_LEN. repeat case_match; intros; simplify_eq; lia. Qed.
Lemma forward_len_le k n : FORWARD_LEN k = Some n -> n <= 20.
Proof. unfold FORWARD_LEN. repeat case_match; intros; simplify_eq; lia. Qed.
Lemma drop_len_pos k n : DROP_LEN k = Some n -> 0 < n.
Proof. unfold DROP_LEN. repeat case_match; intros; simplify_eq; lia. Qed.

Lemma message_app f out x f' r :
  wf f -> message f out = (f', r) -> goes_on r -> message (app_buf x f) out = (app_buf x f', r).
Proof.
  destruct f as [buf st sk dd dr sbuf ss sv cv off ch c1 c2 c3].
  unfold wf, message, app_buf; simpl. intros (Hb & _ & _) H Hg.
  destruct buf as [|kind rest]; [by simplify_eq/=|].
  change ((kind :: rest) ++ x) with (kind :: (rest ++ x)) in *. cbn match.
  set (buf := kind :: rest) in *.
  change (kind :: (rest ++ x)) with (buf ++ x).
  destruct (FORWARD_LEN kind) as [n|] eqn:Ef.
  { destruct (zlen buf <? n) eqn:El; [by simplify_eq/=|].
    rewrite zlen_ltb_app by done. destruct (take_drop_app buf x n El) as [-> ->]. by simplify_eq/=. }
  destruct (kind =? SET_ENCODINGS).
  { destruct (zlen buf <? 4) eqn:El; [by simplify_eq/=|].
    rewrite zlen_ltb_app by done. pose proof El as Hl. rewrite Z.ltb_ge in Hl. unfold zlen in Hl.
    rewrite u16_at_app by lia. pose proof (u16_at_range buf 2 Hb) as Hu.
    destruct (MAX_ENCODINGS <? u16_at buf 2) eqn:Em; [by simplify_eq/=|].
    destruct (zlen buf <? 4 + 4 * u16_at buf 2) eqn:En; [by simplify_eq/=|].
    rewrite zlen_ltb_app by done. destruct (take_drop_app buf x _ En) as [_ ->].
    rewrite (drop_app_le buf x 4), i32s_app.
    - by simplify_eq/=.
    - rewrite Z.ltb_ge in En. unfold zlen in En. rewrite length_drop. lia.
    - lia. }
  destruct (DROP_LEN kind); [by simplify_eq/=|].
  destruct (kind =? CLIENT_CUT_TEXT); [|by simplify_eq/=].
  destruct (zlen buf <? 8) eqn:El; [by simplify_eq/=|].
  rewrite zlen_ltb_app by done. rewrite Z.ltb_ge in El. unfold zlen in El.
  rewrite u32_at_app by lia. destruct (MAX_CUT_TEXT <? _); by simplify_eq/=.
Qed.

Lemma pass_app b f out n st x :
  f_buf f = b -> (zlen b <? n) = false ->
  pass_unit (app_buf x f) out n st = (app_buf x (pass_unit f out n st).1, (pass_unit f out n st).2).
Proof.
  intros <- H. unfold pass_unit, app_buf; simpl. destruct (take_drop_app (f_buf f) x n H) as [-> ->]. done.
Qed.

Lemma next_unit_app f out x f' r :
  wf f -> next_unit f out = (f', r) -> goes_on r -> next_unit (app_buf x f) out = (app_buf x f', r).
Proof.
  intros Hwf H Hg. unfold next_unit in *.
  destruct (f_buf f) as [|first rest] eqn:Eb; [by simplify_eq/=|].
  assert (f_buf (app_buf x f) = first :: (rest ++ x)) as -> by (unfold app_buf; simpl; by rewrite Eb).
  change (f_state (app_buf x f)) with (f_state f).
  change (f_sstate (app_buf x f)) with (f_sstate f).
  change (f_offered (app_buf x f)) with (f_offered f).
  change (f_challenge_seen (app_buf x f)) with (f_challenge_seen f).
  change (f_security_done (app_buf x f)) with (f_security_done f).
  change (f_serverinit_seen (app_buf x f)) with (f_serverinit_seen f).
  assert (first :: (rest ++ x) = (first :: rest) ++ x) as Hc by done. rewrite Hc.
  destruct (f_state f).
  - destruct (negb _); [by simplify_eq/=|].
    destruct (zlen (first :: rest) <? 12) eqn:El; [by simplify_eq/=|].
    rewrite zlen_ltb_app by done. destruct (take_drop_app _ x 12 El) as [Ht _].
    change (Z.to_nat 12) with 12%nat in Ht. rewrite Ht.
    destruct (version_index _) as [i|]; [|by simplify_eq/=].
    simpl f_sver in *. simpl f_cver in *.
    destruct (f_sver f <? i + 7); [by simplify_eq/=|].
    change (set_sstate SV_LIST (set_cver (i + 7) (app_buf x f)))
      with (app_buf x (set_sstate SV_LIST (set_cver (i + 7) f))).
    rewrite (pass_app (first :: rest)) by (exact Eb || exact El).
    destruct (pass_unit _ _ _ _) as [f2 o2]. simpl. by apply then_advance_app'.
  - destruct (f_offered f) as [l|]; [|by simplify_eq/=].
    destruct (negb _ || negb _); [by simplify_eq/=|].
    simpl f_cver in *. destruct (first =? SECURITY_VNC); [|destruct (8 <=? f_cver f)].
    all: match type of H with context [pass_unit ?g] =>
           match goal with |- context [pass_unit ?g'] => change g' with (app_buf x g) end end.
    all: rewrite (pass_app (first :: rest))
           by (exact Eb || (rewrite zlen_cons, Z.ltb_ge; pose proof (zlen_nonneg rest); lia)).
    all: destruct (pass_unit _ _ _ _) as [f2 o2]; simpl; by apply then_advance_app'.
  - destruct (negb _); [by simplify_eq/=|].
    destruct (zlen (first :: rest) <? VNC_AUTH_RESPONSE) eqn:El; [by simplify_eq/=|].
    rewrite zlen_ltb_app, (pass_app (first :: rest)) by (exact Eb || exact El).
    destruct (pass_unit _ _ _ _) as [f2 o2]. by simplify_eq/=.
  - destruct (negb _); [by simplify_eq/=|].
    exact (then_advance_app' _ _ _ x _ _ H).
  - destruct (negb _); [by simplify_eq/=|]. by apply message_app.
Qed.

(** ** How a turn of the client loop ends *)

Lemma message_spec f out f' n out' :
  wf f -> message f out = (f', Val (n, out')) ->
  (n = 0 /\ f' = f /\ out' = out) \/
  (n = 1 /\ exists k, 0 < k /\ f' = inc_dropped (set_skip k f) /\ out' = out) \/
  (1 < n <= zlen (f_buf f) /\ f' = set_buf (drop (Z.to_nat n) (f_buf f)) f).
Proof.
  unfold message. intros (Hb & _ & _) H. destruct (f_buf f) as [|kind rest] eqn:Eb; [by simplify_eq; left|].
  pose proof (u16_at_range (kind :: rest) 2 Hb). pose proof (u32_at_range (kind :: rest) 4 Hb).
  destruct (FORWARD_LEN kind) as [k|] eqn:Ef.
  { case_code_in H; simplify_eq; [by left|]. right; right. reflect_bools.
    split; [|done]. revert Ef. unfold FORWARD_LEN. repeat case_match; intros; simplify_eq; lia. }
  destruct (kind =? SET_ENCODINGS).
  { repeat (case_code_in H; simplify_eq); try by left. right; right. reflect_bools. split; [lia|done]. }
  destruct (DROP_LEN kind) as [k|] eqn:Ed.
  { simplify_eq. right; left. split; [done|]. exists k. by apply drop_len_pos in Ed. }
  repeat (case_code_in H; simplify_eq); try by left.
  right; left. split; [done|]. eexists. split; [|done]. lia.
Qed.

Definition measure (f : filter) : Z := 2 * zlen f.(f_buf) + (if f.(f_skip) =? 0 then 1 else 0).

Lemma measure_lt f f' n :
  f_buf f' = drop (Z.to_nat n) (f_buf f) -> f_skip f' = f_skip f -> 0 < n <= zlen (f_buf f) ->
  measure f' < measure f.
Proof. unfold measure, zlen. intros -> ->. rewrite length_drop. lia. Qed.

Lemma message_wf f out : wf f -> wf (message f out).1.
Proof.
  intros Hwf. pose proof (u32_at_range (f_buf f) 4 (proj1 Hwf)). destruct Hwf as (Hb & Hs & Hk).
  unfold message, wf in *. destruct (f_buf f) as [|kind rest] eqn:Eb; [simpl; by rewrite Eb|].
  repeat (case_code; simpl; rewrite ?Eb); repeat split; auto using Forall_drop; try lia.
  all: match goal with H : DROP_LEN _ = Some _ |- _ => by apply drop_len_pos, Z.lt_le_incl in H end.
Qed.

Lemma then_advance_wf f n out : wf f -> wf (then_advance f n out).1.
Proof.
  intros H. apply advance_server_wf in H. unfold then_advance.
  by destruct (advance_server f) as [f' []].
Qed.

Lemma next_unit_wf f out : wf f -> wf (next_unit f out).1.
Proof.
  intros Hwf. unfold next_unit, pass_unit. destruct (f_buf f) eqn:Eb; [done|]. rewrite <- Eb.
  assert (Hd : forall n, Forall is_byte (drop n (f_buf f))) by (intros; apply Forall_drop, Hwf).
  destruct (f_state f); [..|destruct (negb _); [done|by apply message_wf]];
    repeat case_match; simplify_eq/=; try apply then_advance_wf; try done;
    unfold wf in *; simpl; intuition auto.
Qed.

Lemma then_advance_buf f n out f' k o :
  then_advance f n out = (f', Val (k, o)) ->
  k = n /\ o = out /\ f_buf f' = f_buf f /\ f_skip f' = f_skip f.
Proof.
  intros H. destruct (then_advance_spec _ _ _ _ _ H) as [-> [?|[??]]]; simplify_eq.
  by destruct (advance_server_client f) as (?&?&?&_).
Qed.

Lemma next_unit_spec f out f' n out' :
  wf f -> next_unit f out = (f', Val (n, out')) ->
  (n = 0 /\ f' = f /\ out' = out) \/ (n <> 0 /\ (f_skip f = 0 -> measure f' < measure f)).
Proof.
  intros Hwf H. unfold next_unit, pass_unit in H.
  destruct (f_buf f) as [|first rest] eqn:Eb; [by simplify_eq; left|]. rewrite <- ?Eb in H.
  assert (Hl : 1 <= zlen (f_buf f)) by (rewrite Eb, zlen_cons; pose proof (zlen_nonneg rest); lia).
  destruct (f_state f).
  - repeat (case_code_in H; simplify_eq/=); try by left.
    apply then_advance_buf in H as (-> & -> & Hb & Hk). right. split; [done|]. intros _.
    reflect_bools. eapply (measure_lt _ _ 12); eauto. lia.
  - repeat (case_code_in H; simplify_eq/=); try by left.
    all: apply then_advance_buf in H as (-> & -> & Hb & Hk); right; split; [done|]; intros _;
      eapply (measure_lt _ _ 1); eauto; lia.
  - repeat (case_code_in H; simplify_eq/=); try by left.
    right. split; [done|]. intros _. reflect_bools. eapply (measure_lt _ _ 16); eauto. unfold VNC_AUTH_RESPONSE in *; lia.
  - case_code_in H; simplify_eq/=. apply then_advance_buf in H as (-> & -> & Hb & Hk).
    right. split; [done|]. intros _. eapply (measure_lt _ _ 1); eauto. lia.
  - case_code_in H; simplify_eq/=.
    apply message_spec in H as [(-> & -> & ->)|[(-> & k & Hk & -> & ->)|(Hn & ->)]]; [by left|..|done]; right.
    + split; [done|]. intros Hs. unfold measure; simpl. rewrite Hs; simpl.
      destruct (k =? 0) eqn:E; reflect_bools; lia.
    + split; [lia|]. intros _. eapply (measure_lt _ _ n); simpl; auto. lia.
Qed.

Lemma turn_wf f out : wf f -> wf (turn f out).1.
Proof.
  intros Hwf. unfold turn. destruct (negb _).
  - unfold wf in *; simpl. destruct Hwf as (?&?&?). split; [|split]; auto using Forall_drop; lia.
  - pose proof (next_unit_wf f out Hwf). by destruct (next_unit f out) as [f' [[]| |]].
Qed.

Lemma then_advance_no_loop f n out : (then_advance f n out).2 <> Diverges.
Proof.
  unfold then_advance. pose proof (advance_server_total f).
  by destruct (advance_server f) as [f' []].
Qed.

Lemma next_unit_no_loop f out : (next_unit f out).2 <> Diverges.
Proof.
  unfold next_unit, pass_unit, message.
  repeat (case_code; simpl; try done); apply then_advance_no_loop.
Qed.

Lemma turn_no_loop f out : (turn f out).2 <> Diverges.
Proof.
  unfold turn. destruct (negb _); [done|]. pose proof (next_unit_no_loop f out).
  by destruct (next_unit f out) as [f' [[]| |]].
Qed.

Lemma turn_measure f out f' o : wf f -> turn f out = (f', Val (true, o)) -> measure f' < measure f.
Proof.
  intros Hwf. unfold turn. destruct (f_skip f =? 0) eqn:Es; simpl.
  - destruct (next_unit f out) as [f1 [[n o1]| |]] eqn:E; intros; simplify_eq.
    apply next_unit_spec in E as [(-> & _ & _)|[_ Hm]]; [done|..|done]. apply Hm. by reflect_bools.
  - intros H. simplify_eq. unfold measure; simpl. rewrite Es. destruct Hwf as (_ & _ & Hk).
    unfold zlen in *. rewrite length_drop. reflect_bools. case_match; lia.
Qed.

Lemma run_loop_total n f out : wf f -> measure f < Z.of_nat n -> (run_loop n f out).2 <> Diverges.
Proof.
  revert f out; induction n as [|n IH]; intros f out Hwf Hm; simpl.
  - unfold measure in Hm. pose proof (zlen_nonneg (f_buf f)). case_match; lia.
  - pose proof (turn_no_loop f out) as Hn. pose proof (turn_wf f out Hwf) as Hw.
    destruct (turn f out) as [f' [[[] o]| |]] eqn:E; simpl in *; [|done|done|done].
    apply turn_measure in E; [|done]. apply IH; [done|lia].
Qed.

(** Enough fuel is enough: more changes nothing. *)
Lemma run_loop_more n m f out :
  (run_loop n f out).2 <> Diverges -> (n <= m)%nat -> run_loop m f out = run_loop n f out.
Proof.
  revert m f out; induction n as [|n IH]; intros m f out H Hle; simpl in *; [done|].
  destruct m as [|m]; [lia|]. simpl.
  destruct (turn f out) as [f' [[[] o]| |]]; [|done|done|done]. apply IH; [done|lia].
Qed.

Lemma run_loop_wf n f out : wf f -> wf (run_loop n f out).1.
Proof.
  revert f out; induction n as [|n IH]; intros f out Hwf; simpl; [done|].
  pose proof (turn_wf f out Hwf). destruct (turn f out) as [f' [[[] o]| |]]; simpl in *; auto.
Qed.

Lemma app_buf_wf f d : wf f -> Forall is_byte d -> wf (app_buf d f).
Proof. intros (?&?&?) Hd. split; [simpl; by apply Forall_app|done]. Qed.

Lemma run_app f d : run f d = run_loop (run_fuel (app_buf d f)) (app_buf d f) [].
Proof. done. Qed.

Lemma run_total f d : wf f -> Forall is_byte d -> (run f d).2 <> Diverges.
Proof.
  intros Hwf Hd. rewrite run_app. apply run_loop_total; [by apply app_buf_wf|].
  unfold measure, run_fuel, zlen. case_match; lia.
Qed.

Lemma feed_wf f d : wf f -> Forall is_byte d -> wf (feed f d).1.
Proof.
  intros Hwf Hd. unfold feed. destruct (f_dead f); [done|].
  pose proof (run_loop_wf (run_fuel (app_buf d f)) _ [] (app_buf_wf f d Hwf Hd)) as H.
  rewrite <- run_app in H. by destruct (run f d) as [f' []].
Qed.

Lemma feed_server_wf f d : wf f -> Forall is_byte d -> wf (feed_server f d).1.
Proof.
  intros Hwf Hd. unfold feed_server. destruct (f_dead f); [done|]. case_bool_decide; [done|].
  assert (wf (set_sbuf (f_sbuf f ++ d) f)) as Hw.
  { destruct Hwf as (?&?&?). split; [done|]. split; [simpl; by apply Forall_app|done]. }
  apply advance_server_wf in Hw. destruct (advance_server _) as [f' []]; simpl in *; [|done|done].
  by case_match.
Qed.

Lemma drop_zlen (b : bytes) : drop (Z.to_nat (zlen b)) b = [].
Proof. unfold zlen. by rewrite Nat2Z.id, drop_all. Qed.
Lemma drop_zlen_app (b x : bytes) n :
  0 <= n -> drop (Z.to_nat (zlen b + n)) (b ++ x) = drop (Z.to_nat n) x.
Proof. intros H. unfold zlen. by rewrite Z2Nat.inj_add, Nat2Z.id, drop_app_add by lia. Qed.

(** A turn that ends the loop saw nothing it could act on. *)
Lemma turn_stop f out f' o x :
  wf f -> turn f out = (f', Val (false, o)) ->
  o = out /\ turn (app_buf x f) out = turn (app_buf x f') out.
Proof.
  intros Hwf. unfold turn. change (f_skip (app_buf x f)) with (f_skip f).
  destruct (f_skip f =? 0) eqn:Es; simpl.
  - destruct (next_unit f out) as [f1 [[n o1]| |]] eqn:E; intros; simplify_eq.
    apply next_unit_spec in E as [(-> & -> & ->)|[Hn _]]; [by rewrite Es|..|done].
    reflect_bools. lia.
  - intros H. destruct Hwf as (_ & _ & Hk). pose proof (zlen_nonneg x) as Hx. reflect_bools.
    destruct (Z.le_gt_cases (f_skip f) (zlen (f_buf f))) as [Hlt|Hlt].
    { rewrite Z.min_l, Z.sub_diag in H by lia. by simplify_eq. }
    rewrite Z.min_r in H by lia. rewrite drop_zlen in H.
    injection H as <- _ <-. unfold app_buf; simpl. split; [done|].
    destruct (f_skip f - zlen (f_buf f) =? 0) eqn:E0; [reflect_bools; lia|]. simpl.
    assert (f_skip f `min` zlen (f_buf f ++ x) =
      zlen (f_buf f) + (f_skip f - zlen (f_buf f)) `min` zlen x) as -> by (rewrite zlen_app; lia).
    rewrite drop_zlen_app by lia.
    unfold set_skip, set_buf; simpl. rewrite Z.sub_add_distr. done.
Qed.

Lemma turn_app f out x f' r :
  wf f -> turn f out = (f', r) -> match r with Val (b, _) => b = true | _ => True end ->
  turn (app_buf x f) out = (app_buf x f', r).
Proof.
  intros Hwf. unfold turn. change (f_skip (app_buf x f)) with (f_skip f).
  destruct (f_skip f =? 0) eqn:Es; simpl.
  - destruct (next_unit f out) as [f1 r1] eqn:E. intros H Hb.
    rewrite (next_unit_app _ _ x _ _ Hwf E).
    + destruct r1 as [[]| |]; by simplify_eq.
    + destruct r1 as [[]| |]; simplify_eq; simpl; [|done..]. by reflect_bools.
  - intros H Hb; simplify_eq. destruct Hwf as (_ & _ & Hk). reflect_bools.
    assert (f_skip f <= zlen (f_buf f)) as Hle by (unfold zlen in *; lia).
    rewrite zlen_app, !Z.min_l by (pose proof (zlen_nonneg x); lia).
    unfold app_buf, set_skip, set_buf; simpl.
    rewrite drop_app_le by (unfold zlen in *; lia). done.
Qed.

Lemma run_loop_any n m f out :
  (run_loop n f out).2 <> Diverges -> (run_loop m f out).2 <> Diverges -> run_loop n f out = run_loop m f out.
Proof.
  intros Hn Hm. destruct (Nat.le_ge_cases n m).
  - by rewrite (run_loop_more n m).
  - by rewrite (run_loop_more m n).
Qed.

Lemma run_loop_app_raise n f out x f' v :
  wf f -> run_loop n f out = (f', Raise v) -> run_loop n (app_buf x f) out = (app_buf x f', Raise v).
Proof.
  revert f out; induction n as [|n IH]; intros f out Hwf H; simpl in *; [done|].
  pose proof (turn_wf f out Hwf) as Hw.
  destruct (turn f out) as [f1 [[[] o]|v1|]] eqn:E; simplify_eq/=.
  - rewrite (turn_app _ _ x _ _ Hwf E) by done. by apply IH.
  - by rewrite (turn_app _ _ x _ _ Hwf E).
Qed.

Lemma run_loop_app n m f out x f' o :
  wf f -> run_loop n f out = (f', Val o) -> (run_loop m (app_buf x f') o).2 <> Diverges ->
  run_loop (n + m) (app_buf x f) out = run_loop m (app_buf x f') o.
Proof.
  revert f out; induction n as [|n IH]; intros f out Hwf H Hm; simpl in *; [done|].
  pose proof (turn_wf f out Hwf) as Hw.
  destruct (turn f out) as [f1 [[[] o1]|v1|]] eqn:E; simplify_eq/=.
  - rewrite (turn_app _ _ x _ _ Hwf E) by done. by apply IH.
  - destruct (turn_stop _ _ _ _ x Hwf E) as [-> Ht]. rewrite Ht.
    change (run_loop (S (n + m)) (app_buf x f') out = run_loop m (app_buf x f') out).
    apply run_loop_more; [done|lia].
Qed.

Lemma then_advance_dead f n out : f_dead (then_advance f n out).1 = f_dead f.
Proof.
  destruct (advance_server_client f) as (_&_&_&H&_). unfold then_advance.
  by destruct (advance_server f) as [f' []].
Qed.

Lemma turn_dead f out : f_dead (turn f out).1 = f_dead f.
Proof.
  assert (f_dead (next_unit f out).1 = f_dead f) as H.
  { unfold next_unit, pass_unit, message.
    repeat (case_code; simpl; try done); rewrite then_advance_dead; simpl; repeat case_match; done. }
  unfold turn. destruct (negb _); [done|]. by destruct (next_unit f out) as [f' [[]| |]].
Qed.

Lemma run_loop_dead n f out : f_dead (run_loop n f out).1 = f_dead f.
Proof.
  revert f out; induction n as [|n IH]; intros f out; simpl; [done|].
  pose proof (turn_dead f out) as H.
  destruct (turn f out) as [f' [[[] o]| |]]; simpl in *; [|done..]. by rewrite IH.
Qed.

Lemma app_buf_app d1 d2 f : app_buf (d1 ++ d2) f = app_buf d2 (app_buf d1 f).
Proof. unfold app_buf; simpl. by rewrite app_assoc. Qed.

Lemma run_two f d1 d2 f1 o1 :
  wf f -> Forall is_byte d1 -> Forall is_byte d2 -> run f d1 = (f1, Val o1) ->
  run f (d1 ++ d2) =
  match run f1 d2 with (f2, Val o2) => (f2, Val (o1 ++ o2)) | r => r end.
Proof.
  intros Hwf H1 H2 E. rewrite run_app in E.
  assert (wf (app_buf d1 f)) as Hw by (by apply app_buf_wf).
  assert (wf f1) as Hw1 by (pose proof (run_loop_wf (run_fuel (app_buf d1 f)) _ [] Hw) as H; by rewrite E in H).
  pose proof (run_total f1 d2 Hw1 H2) as Ht. rewrite run_app in Ht.
  assert (Ho : run_loop (run_fuel (app_buf d2 f1)) (app_buf d2 f1) o1 =
    match run f1 d2 with (f2, Val o2) => (f2, Val (o1 ++ o2)) | r => r end).
  { rewrite run_app, <- (app_nil_r o1) at 1. by rewrite run_loop_out. }
  assert (Hnd : (run_loop (run_fuel (app_buf d2 f1)) (app_buf d2 f1) o1).2 <> Diverges).
  { rewrite Ho, run_app. revert Ht.
    destruct (run_loop (run_fuel (app_buf d2 f1)) (app_buf d2 f1) []) as [? []]; simpl; done. }
  pose proof (run_total f (d1 ++ d2) Hwf ltac:(by apply Forall_app)) as Ha.
  rewrite <- Ho, <- (run_loop_app _ _ _ _ _ _ _ Hw E Hnd).
  rewrite run_app, app_buf_app in *.
  apply run_loop_any; [done|]. by rewrite (run_loop_app _ _ _ _ _ _ _ Hw E Hnd).
Qed.

Lemma run_two_raise f d1 d2 f1 v :
  wf f -> Forall is_byte d1 -> Forall is_byte d2 -> run f d1 = (f1, Raise v) ->
  run f (d1 ++ d2) = (app_buf d2 f1, Raise v).
Proof.
  intros Hwf H1 H2 E. rewrite run_app in *.
  assert (wf (app_buf d1 f)) as Hw by (by apply app_buf_wf).
  apply (run_loop_app_raise _ _ _ d2) in E; [|done]. rewrite app_buf_app. rewrite <- E.
  apply run_loop_any; [|by rewrite E].
  pose proof (run_total f (d1 ++ d2) Hwf ltac:(by apply Forall_app)) as Ha.
  by rewrite run_app, app_buf_app in Ha.
Qed.

(** Feeding the chunks of a stream one after the other, stopping at a violation. *)
Fixpoint feeds (f : filter) (d : bytes) (ds : list bytes) : filter * outcome (list bytes) :=
  match ds with
  | [] => feed f d
  | d' :: ds' =>
      match feed f d with
      | (f1, Val o1) =>
          match feeds f1 d' ds' with (f2, Val o2) => (f2, Val (o1 ++ o2)) | r => r end
      | r => r
      end
  end.

Lemma feed_two f d1 d2 :
  wf f -> Forall is_byte d1 -> Forall is_byte d2 ->
  match feed f d1 with
  | (f1, Val o1) =>
      feed f (d1 ++ d2) = match feed f1 d2 with (f2, Val o2) => (f2, Val (o1 ++ o2)) | r => r end
  | (_, r) => (feed f (d1 ++ d2)).2 = r
  end.
Proof.
  intros Hwf H1 H2. unfold feed. destruct (f_dead f) eqn:Ed; [done|].
  pose proof (run_total f d1 Hwf H1). pose proof (run_loop_dead (run_fuel (app_buf d1 f)) (app_buf d1 f) []) as Hd.
  rewrite <- run_app in Hd. destruct (run f d1) as [f1 [o1|v|]] eqn:E; simpl in *; [..|done].
  - rewrite (run_two f d1 d2 f1 o1), Hd, Ed by done. by destruct (run f1 d2) as [f2 [o2|v|]].
  - by rewrite (run_two_raise f d1 d2 f1 v).
Qed.

(** ** What may have been forwarded *)

(** A forwarded message a view-only console allows: SetPixelFormat, FramebufferUpdateRequest, or
    a rebuilt SetEncodings without any stripped pseudo-encoding. *)
Definition allowed (m : bytes) : Prop :=
  (length m = 20%nat /\ m !! 0%nat = Some SET_PIXEL_FORMAT) \/
  (length m = 10%nat /\ m !! 0%nat = Some FRAMEBUFFER_UPDATE_REQUEST) \/
  exists codes, m = [SET_ENCODINGS; 0] ++ pack_u16 (zlen codes) ++ pack_i32s codes /\
    zlen codes <= MAX_ENCODINGS /\ Forall (fun c => stripped c = false) codes.

(** The client's half of a complete handshake up to, and without, ClientInit. *)
Inductive hello : Z -> list bytes -> Prop :=
| hello_none v : v ∈ VERSIONS -> hello SECURITY_NONE [v; [SECURITY_NONE]]
| hello_vnc v r : v ∈ VERSIONS -> length r = 16%nat -> hello SECURITY_VNC [v; [SECURITY_VNC]; r].

(** What was forwarded, given the client's state. *)
Definition legal (f : filter) (out : list bytes) : Prop :=
  match f.(f_state) with
  | C_VERSION => out = []
  | C_SECURITY => exists v, v ∈ VERSIONS /\ out = [v]
  | C_AUTH => f.(f_choice) = SECURITY_VNC /\ exists v, v ∈ VERSIONS /\ out = [v; [SECURITY_VNC]]
  | C_INIT => hello f.(f_choice) out
  | C_MESSAGES =>
      exists hs ms, hello f.(f_choice) hs /\ Forall allowed ms /\ out = hs ++ [[1]] ++ ms /\
        (ms <> [] -> f.(f_serverinit_seen) = true)
  end.

(** The client was never let ahead of the server: each handshake item was forwarded only after the
    server item that opens it was seen. *)
Definition in_order (f : filter) : Prop :=
  (f.(f_state) <> C_VERSION -> 2 <= sv_num f.(f_sstate)) /\
  (f.(f_state) <> C_VERSION -> f.(f_state) <> C_SECURITY ->
     4 <= sv_num f.(f_sstate) /\ exists l, f.(f_offered) = Some l /\ f.(f_choice) ∈ l) /\
  (f.(f_state) = C_INIT \/ f.(f_state) = C_MESSAGES ->
     f.(f_choice) = SECURITY_VNC -> f.(f_challenge_seen) = true) /\
  (f.(f_state) = C_MESSAGES -> f.(f_security_done) = true).

Definition server_keeps (f f' : filter) : Prop :=
  sv_num f.(f_sstate) <= sv_num f'.(f_sstate) /\
  (3 <= sv_num f.(f_sstate) -> f'.(f_offered) = f.(f_offered)) /\
  zlen f'.(f_sbuf) <= zlen f.(f_sbuf).

Lemma advance_step_server f : server_keeps f (advance_step f).1.
Proof.
  destruct f as [buf st sk dd dr sbuf ss sv cv off ch c1 c2 c3].
  unfold server_keeps, advance_step, zlen; simpl.
  destruct ss; repeat (case_code; simpl); rewrite ?length_drop; repeat split; simpl; try lia.
Qed.

Lemma advance_loop_server n f : server_keeps f (advance_loop n f).1.
Proof.
  revert f; induction n as [|n IH]; intros f; simpl; [by split; [lia|split]|].
  pose proof (advance_step_server f) as H.
  destruct (advance_step f) as [f' []]; simpl in *; [|done|done].
  destruct (IH f') as (H1 & H2 & H3). destruct H as (G1 & G2 & G3). unfold server_keeps.
  split; [lia|]. split; [|lia]. intros ?. rewrite H2, G2 by lia. done.
Qed.

Lemma advance_server_server f : server_keeps f (advance_server f).1.
Proof. apply advance_loop_server. Qed.

Lemma legal_advance f out : legal f out -> legal (advance_server f).1 out.
Proof.
  destruct (advance_server_client f) as (_&Hs&_&_&_&Hc&_&_&_&Hi).
  unfold legal. rewrite Hs, Hc. destruct (f_state f); try done. naive_solver.
Qed.

Lemma in_order_advance f : in_order f -> in_order (advance_server f).1.
Proof.
  destruct (advance_server_client f) as (_&Hs&_&_&_&Hc&_&H1&H2&_).
  destruct (advance_server_server f) as (Hn&Ho&_).
  unfold in_order. rewrite Hs, Hc. intros (I1&I2&I3&I4). repeat split; intros; eauto.
  - specialize (I1 ltac:(done)). lia.
  - destruct I2 as [? _]; [done..|]. lia.
  - destruct I2 as [? (l&?&?)]; [done..|]. exists l. rewrite Ho by lia. done.
Qed.

Lemma then_advance_legal f n out f' k o :
  then_advance f n out = (f', Val (k, o)) ->
  legal f out -> in_order f -> legal f' o /\ in_order f'.
Proof.
  intros H. destruct (then_advance_spec _ _ _ _ _ H) as [-> [?|[??]]]; simplify_eq.
  split; [by apply legal_advance|by apply in_order_advance].
Qed.

Lemma i32s_length n b : length (i32s n b) = n.
Proof. revert b; induction n; intros; simpl; auto. Qed.

Lemma forward_allowed kind rest k :
  FORWARD_LEN kind = Some k -> k <= zlen (kind :: rest) -> allowed (take (Z.to_nat k) (kind :: rest)).
Proof.
  unfold FORWARD_LEN, allowed, zlen. intros H Hl.
  assert (length (take (Z.to_nat k) (kind :: rest)) = Z.to_nat k) as -> by (rewrite length_take; lia).
  repeat case_match; simplify_eq; reflect_bools; subst; [by left|by right; left].
Qed.

Lemma message_allowed f out f' n out' :
  wf f -> message f out = (f', Val (n, out')) ->
  exists ms, out' = out ++ ms /\ Forall allowed ms /\ f'.(f_state) = f.(f_state) /\
    f'.(f_sstate) = f.(f_sstate) /\ f'.(f_offered) = f.(f_offered) /\ f'.(f_choice) = f.(f_choice) /\
    f'.(f_challenge_seen) = f.(f_challenge_seen) /\ f'.(f_security_done) = f.(f_security_done) /\
    f'.(f_serverinit_seen) = f.(f_serverinit_seen).
Proof.
  intros (Hb & _ & _) H. unfold message in H.
  destruct (f_buf f) as [|kind rest] eqn:Eb; [simplify_eq; exists []; by rewrite app_nil_r|].
  destruct (FORWARD_LEN kind) as [k|] eqn:Ef.
  { case_code_in H; simplify_eq; [exists []; by rewrite app_nil_r|].
    eexists [_]. split; [done|]. split; [|done]. constructor; [|constructor]. reflect_bools. by apply forward_allowed. }
  destruct (kind =? SET_ENCODINGS).
  { pose proof (u16_at_range (kind :: rest) 2 Hb).
    repeat (case_code_in H; simplify_eq); try (exists []; by rewrite app_nil_r).
    eexists [_]. split; [done|]. split; [|done]. constructor; [|constructor]. right; right. eexists. split; [done|].
    split.
    - unfold zlen.
      reflect_bools. etrans; [apply Nat2Z.inj_le, List.filter_length_le|]. rewrite i32s_length. lia.
    - rewrite Forall_forall. intros c Hc. apply list_elem_of_In, filter_In in Hc as [_ Hc].
      by apply negb_true_iff in Hc. }
  repeat (case_code_in H; simplify_eq); exists []; by rewrite app_nil_r.
Qed.

Lemma version_index_in v i : version_index v = Some i -> v ∈ VERSIONS.
Proof. unfold version_index, VERSIONS. intros. repeat case_bool_decide; simplify_eq/=; set_solver. Qed.

(** The Python code keeps [_offered] and [_choice] in step; the client's side moves one state on. *)
Lemma next_unit_legal f out f' n o :
  wf f -> next_unit f out = (f', Val (n, o)) -> legal f out -> in_order f -> legal f' o /\ in_order f'.
Proof.
  intros Hwf H Hl Ho. unfold next_unit, pass_unit in H.
  destruct (f_buf f) as [|first rest] eqn:Eb; [by simplify_eq|]. rewrite <- Eb in H.
  pose proof Hl as Hl0. pose proof Ho as (O1 & O2 & O3 & O4). unfold legal in Hl.
  destruct (f_state f) eqn:Es.
  - repeat (case_code_in H; simplify_eq; try done).
    eapply then_advance_legal; [exact H|..]; unfold legal, in_order; simpl.
    + eexists. split; [by eapply version_index_in|]. by rewrite Eb.
    + repeat split; intros; naive_solver lia.
  - destruct Hl as (v & Hv & ->). specialize (O1 ltac:(done)).
    destruct (f_offered f) as [l|] eqn:Eo; [|done].
    destruct (negb _ || negb _) eqn:Ec; [done|]. reflect_bools.
    assert (first = 1 \/ first = 2) as Hf.
    { match goal with Hx : first ∈ [_; _] |- _ => revert Hx end.
      unfold SECURITY_NONE, SECURITY_VNC. set_solver. }
    simpl f_cver in H.
    destruct Hf as [-> | ->]; simpl in H; [destruct (8 <=? f_cver f)|];
      (eapply then_advance_legal; [exact H|..]; unfold legal, in_order; simpl; rewrite ?Eb, ?Eo).
    1,3: by constructor.
    3: by eauto.
    all: repeat split; intros; try done; try lia; try naive_solver.
  - destruct Hl as (Hc & v & Hv & ->).
    case_code_in H; [done|]. case_code_in H; [by simplify_eq|]. simplify_eq. reflect_bools.
    unfold legal, in_order; simpl. rewrite Hc. split.
    + constructor; [done|]. rewrite length_take. unfold zlen, VNC_AUTH_RESPONSE in *. lia.
    + rewrite Hc in O2. repeat split; naive_solver.
  - case_code_in H; [done|]. reflect_bools.
    eapply then_advance_legal; [exact H|..]; unfold legal, in_order; simpl.
    + exists out, []. done.
    + destruct O2 as [O2 O2']; [done..|]. repeat split; intros; try done; try lia. by apply O3; [left|].
  - case_code_in H; [done|]. reflect_bools. destruct Hl as (hs & ms & Hh & Hms & -> & _).
    apply message_allowed in H as (ms' & -> & Hms' & G1 & G2 & G3 & G4 & G5 & G6 & G7); [|done].
    unfold legal, in_order. rewrite G1, G2, G3, G4, G5, G6, G7, Es. split; [|done].
    exists hs, (ms ++ ms'). rewrite <- !app_assoc, Forall_app. done.
Qed.

Definition safe (f : filter) (out : list bytes) : Prop := wf f /\ legal f out /\ in_order f.

Lemma turn_safe f out f' b o : turn f out = (f', Val (b, o)) -> safe f out -> safe f' o.
Proof.
  intros H (Hwf & Hl & Ho). pose proof (turn_wf f out Hwf) as Hw. rewrite H in Hw.
  split; [done|]. unfold turn in H. destruct (negb _).
  - by simplify_eq.
  - destruct (next_unit f out) as [f1 [[n o1]| |]] eqn:E; simplify_eq. exact (next_unit_legal _ _ _ _ _ Hwf E Hl Ho).
Qed.

Lemma run_loop_safe n f out f' o : run_loop n f out = (f', Val o) -> safe f out -> safe f' o.
Proof.
  revert f out; induction n as [|n IH]; intros f out H Hs; simpl in H; [done|].
  destruct (turn f out) as [f1 [[[] o1]| |]] eqn:E; simplify_eq; eauto using turn_safe.
Qed.

Lemma feed_safe f d f' o out :
  Forall is_byte d -> feed f d = (f', Val o) -> safe f out -> safe f' (out ++ o).
Proof.
  intros Hd H (Hwf & Hl & Ho). unfold feed in H. destruct (f_dead f); [done|].
  destruct (run f d) as [f1 [o1| |]] eqn:E; simplify_eq.
  rewrite run_app in E. pose proof (run_loop_out (run_fuel (app_buf d f)) (app_buf d f) [] out) as Hr.
  rewrite E, app_nil_r in Hr. apply run_loop_safe in Hr; [done|].
  split; [by apply app_buf_wf|done].
Qed.

Lemma feed_server_safe f d f' out :
  Forall is_byte d -> feed_server f d = (f', Val tt) -> safe f out -> safe f' out.
Proof.
  intros Hd H (Hwf & Hl & Ho). pose proof (feed_server_wf f d Hwf Hd) as Hw. rewrite H in Hw.
  split; [done|]. unfold feed_server in H. destruct (f_dead f); [done|].
  case_bool_decide; [by simplify_eq|].
  pose proof (legal_advance (set_sbuf (f_sbuf f ++ d) f) out Hl).
  pose proof (in_order_advance (set_sbuf (f_sbuf f ++ d) f) Ho).
  destruct (advance_server _) as [f1 []]; [|done..]. case_match; by simplify_eq.
Qed.

(** ** Buffering *)

Lemma message_hungry f out f' out' :
  wf f -> message f out = (f', Val (0, out')) -> held f' < MAX_FRAMED.
Proof.
  intros Hwf H. pose proof (message_spec _ _ _ _ _ Hwf H) as Hs.
  destruct Hs as [(_ & -> & _)|[(? & _)|(? & _)]]; [|lia|lia].
  unfold held, MAX_FRAMED. unfold message in H. pose proof (u16_at_range (f_buf f) 2 (proj1 Hwf)).
  pose proof (u32_at_range (f_buf f) 4 (proj1 Hwf)).
  destruct (f_buf f) as [|kind rest] eqn:Eb; [done|].
  destruct (FORWARD_LEN kind) as [k|] eqn:Ef;
    [pose proof (forward_len_pos _ _ Ef); apply forward_len_le in Ef|];
    repeat (case_code_in H; simplify_eq); reflect_bools; unfold MAX_ENCODINGS in *; try lia.
Qed.

Lemma next_unit_hungry f out f' out' :
  wf f -> next_unit f out = (f', Val (0, out')) -> held f' < MAX_FRAMED.
Proof.
  intros Hwf H. pose proof H as H'. unfold next_unit, pass_unit in H'.
  destruct (f_buf f) as [|first rest] eqn:Eb; [simplify_eq; unfold held; by rewrite Eb|].
  rewrite <- Eb in H'.
  destruct (f_state f); [..|case_code_in H'; [done|by eapply message_hungry]];
    apply next_unit_spec in H as [(_ & -> & _)|[? _]]; try done; unfold held, MAX_FRAMED, MAX_ENCODINGS, VNC_AUTH_RESPONSE in *;
    repeat (case_code_in H'; simplify_eq); reflect_bools; unfold VNC_AUTH_RESPONSE in *; try lia;
    try (by apply then_advance_buf in H' as [? _]).
Qed.

Lemma turn_hungry f out f' o : wf f -> turn f out = (f', Val (false, o)) -> held f' < MAX_FRAMED.
Proof.
  intros Hwf H. unfold turn in H. destruct (f_skip f =? 0) eqn:Es; simpl in H.
  - destruct (next_unit f out) as [f1 [[n o1]| |]] eqn:E; simplify_eq. reflect_bools; subst.
    by eapply next_unit_hungry.
  - simplify_eq. destruct Hwf as (_ & _ & Hk). reflect_bools. unfold held; simpl.
    rewrite Z.min_r, drop_zlen by (unfold zlen in *; lia). done.
Qed.

Lemma then_advance_sbuf f n out : zlen (then_advance f n out).1.(f_sbuf) <= zlen f.(f_sbuf).
Proof.
  destruct (advance_server_server f) as (_ & _ & H). unfold then_advance.
  by destruct (advance_server f) as [f' []].
Qed.

Lemma turn_sbuf f out : zlen (turn f out).1.(f_sbuf) <= zlen f.(f_sbuf).
Proof.
  assert (zlen (next_unit f out).1.(f_sbuf) <= zlen f.(f_sbuf)) as H.
  { unfold next_unit, pass_unit, message.
    repeat (case_code; simpl; try lia); (etrans; [apply then_advance_sbuf|]); simpl; repeat case_match; done. }
  unfold turn. destruct (negb _); [done|]. by destruct (next_unit f out) as [f' [[]| |]].
Qed.

Lemma run_loop_bounded n f out f' o :
  wf f -> run_loop n f out = (f', Val o) -> held f' < MAX_FRAMED /\ zlen f'.(f_sbuf) <= zlen f.(f_sbuf).
Proof.
  revert f out; induction n as [|n IH]; intros f out Hwf H; simpl in H; [done|].
  pose proof (turn_wf f out Hwf) as Hw. pose proof (turn_sbuf f out) as Hs.
  destruct (turn f out) as [f1 [[[] o1]| |]] eqn:E; simplify_eq/=.
  - destruct (IH _ _ Hw H). split; [done|lia].
  - split; [exact (turn_hungry _ _ _ _ Hwf E)|done].
Qed.

(** ** Sessions: the relay's calls on one filter, in any order *)

Inductive session : filter -> list bytes -> Prop :=
| session_new : session new_filter []
| session_server f out d f' r :
    session f out -> Forall is_byte d -> feed_server f d = (f', r) -> session f' out
| session_client f out d f' o :
    session f out -> Forall is_byte d -> feed f d = (f', Val o) -> session f' (out ++ o)
| session_violation f out d f' v :
    session f out -> Forall is_byte d -> feed f d = (f', Raise v) -> session f' out.

Lemma feed_raise_dead f d f' v : feed f d = (f', Raise v) -> f_dead f' = true.
Proof.
  unfold feed. destruct (f_dead f) eqn:Ed; [by intros; simplify_eq|].
  destruct (run f d) as [f1 []]; intros; by simplify_eq.
Qed.

Lemma feed_server_raise_dead f d f' v : feed_server f d = (f', Raise v) -> f_dead f' = true.
Proof.
  unfold feed_server. destruct (f_dead f) eqn:Ed; [by intros; simplify_eq|].
  case_bool_decide; [done|].
  destruct (advance_server _) as [f1 []]; [case_match|..]; intros; by simplify_eq.
Qed.

Lemma feed_server_total f d : (feed_server f d).2 <> Diverges.
Proof.
  unfold feed_server. pose proof (advance_server_total (set_sbuf (f_sbuf f ++ d) f)).
  repeat case_code; done.
Qed.

Lemma feed_total f d : wf f -> Forall is_byte d -> (feed f d).2 <> Diverges.
Proof.
  intros Hwf Hd. pose proof (run_total f d Hwf Hd). unfold feed. destruct (f_dead f); [done|].
  by destruct (run f d) as [f' []].
Qed.

Lemma wf_new : wf new_filter.
Proof. repeat constructor. done. Qed.

Lemma session_wf f out : session f out -> wf f.
Proof.
  induction 1 as [|f out d f' r Hs IH Hd E|f out d f' o Hs IH Hd E|f out d f' v Hs IH Hd E].
  - apply wf_new.
  - pose proof (feed_server_wf f d IH Hd) as H. by rewrite E in H.
  - pose proof (feed_wf f d IH Hd) as H. by rewrite E in H.
  - pose proof (feed_wf f d IH Hd) as H. by rewrite E in H.
Qed.

Lemma feed_val_alive f d f' o : feed f d = (f', Val o) -> f_dead f = false.
Proof. unfold feed. by destruct (f_dead f). Qed.

(** ** Packing and unpacking *)

Definition is_i32 (v : Z) : Prop := -2147483648 <= v < 2147483648.

Lemma pack_i32_at v r : is_i32 v -> signed32 (u32_at (pack_i32 v ++ r) 0) = v.
Proof.
  unfold is_i32. intros H. unfold signed32, u32_at, u16_at, byte_at, pack_i32; simpl.
  assert (Hu : forall u, 0 <= u < 4294967296 ->
    65536 * (256 * (u / 16777216) + u / 65536 mod 256) + (256 * (u / 256 mod 256) + u mod 256) = u)
    by (intros u Hu; Z.to_euclidean_division_equations; lia).
  rewrite Hu by (apply Z.mod_pos_bound; lia).
  destruct (Z.le_gt_cases 0 v).
  - rewrite Z.mod_small by lia. case_match; reflect_bools; lia.
  - replace (v mod 4294967296) with (v + 4294967296)
      by (rewrite <- (Z.mod_add v 1), Z.mod_small by lia; lia).
    case_match; reflect_bools; lia.
Qed.

Lemma i32s_pack vs r : Forall is_i32 vs -> i32s (length vs) (pack_i32s vs ++ r) = vs.
Proof.
  unfold pack_i32s. induction 1 as [|v vs Hv _ IH]; [done|]. cbn [map concat length i32s].
  rewrite <- !app_assoc, pack_i32_at by done. f_equal.
  change (drop 4 (pack_i32 v ++ ?l)) with l. done.
Qed.

Lemma pack_i32s_length vs : length (pack_i32s vs) = (4 * length vs)%nat.
Proof.
  unfold pack_i32s. induction vs as [|v vs IH]; [done|]. cbn [map concat length].
  rewrite length_app, IH. simpl. lia.
Qed.

Lemma pack_u16_bytes v : Forall is_byte (pack_u16 v).
Proof. repeat constructor; apply Z.mod_pos_bound; lia. Qed.
Lemma pack_i32s_bytes vs : Forall is_byte (pack_i32s vs).
Proof.
  unfold pack_i32s. induction vs as [|v vs IH]; [constructor|]. cbn [map concat].
  apply Forall_app; split; [|done]. unfold pack_i32, is_byte.
  pose proof (Z.mod_pos_bound v 4294967296 ltac:(lia)).
  repeat constructor; Z.to_euclidean_division_equations; lia.
Qed.

(** The SetEncodings message a browser sends for the encodings [codes] ([pad] is ignored). *)
Definition set_encodings_msg (pad : byte) (codes : list Z) : bytes :=
  [SET_ENCODINGS; pad] ++ pack_u16 (zlen codes) ++ pack_i32s codes.

Lemma message_set_encodings f pad codes out :
  zlen codes <= MAX_ENCODINGS -> Forall is_i32 codes ->
  f_buf f = set_encodings_msg pad codes ->
  message f out = (set_buf [] f, Val (4 + 4 * zlen codes,
    out ++ [set_encodings_msg 0 (List.filter (fun c => negb (stripped c)) codes)])).
Proof.
  intros Hn Hc Hb. unfold message. rewrite Hb. unfold set_encodings_msg, pack_u16. cbn [app].
  change (FORWARD_LEN SET_ENCODINGS) with (@None Z). change (SET_ENCODINGS =? SET_ENCODINGS) with true.
  cbn match. unfold MAX_ENCODINGS in *. pose proof (zlen_nonneg codes).
  set (c1 := zlen codes / 256 mod 256). set (c2 := zlen codes mod 256).
  change (u16_at _ 2) with (256 * c1 + c2).
  assert (256 * c1 + c2 = zlen codes) as -> by (unfold c1, c2; Z.to_euclidean_division_equations; lia).
  assert (Hl : zlen (SET_ENCODINGS :: pad :: c1 :: c2 :: pack_i32s codes) = 4 + 4 * zlen codes)
    by (unfold zlen; simpl; rewrite pack_i32s_length; lia).
  rewrite Hl. destruct (4 + 4 * zlen codes <? 4) eqn:E1; [reflect_bools; lia|].
  destruct (1024 <? zlen codes) eqn:E2; [reflect_bools; lia|]. rewrite Z.ltb_irrefl.
  rewrite <- Hl at 1. rewrite drop_zlen. cbn [drop].
  replace (Z.to_nat (zlen codes)) with (length codes) by (unfold zlen; lia).
  pose proof (i32s_pack codes [] Hc) as Hi. rewrite app_nil_r in Hi. by rewrite drop_0, Hi.
Qed.

(** ** The filter's properties *)

(** C1: no sequence of calls lets anything through a view-only console but the legal handshake, in
    step with the server, then allowed messages: while the filter lives, what it has returned is
    exactly what its state admits; after a violation it is still what some state admitted. *)
Theorem session_safe f out :
  session f out ->
  (f_dead f = false -> legal f out /\ in_order f) /\ (exists g, legal g out /\ in_order g).
Proof.
  induction 1 as [|f out d f' r Hs [IH IHg] Hd E|f out d f' o Hs [IH IHg] Hd E|f out d f' v Hs [IH IHg] Hd E].
  - assert (legal new_filter [] /\ in_order new_filter) as H by (unfold legal, in_order; naive_solver).
    split; [done|by exists new_filter].
  - split; [|done]. intros Hf. apply session_wf in Hs.
    destruct r as [[]|v|].
    + destruct (f_dead f) eqn:Ed; [unfold feed_server in E; rewrite Ed in E; done|].
      destruct IH as [Hl Ho]; [done|]. eapply feed_server_safe; [exact Hd|exact E|by split].
    + by rewrite (feed_server_raise_dead _ _ _ _ E) in Hf.
    + pose proof (feed_server_total f d) as Ht. by rewrite E in Ht.
  - apply session_wf in Hs. pose proof (feed_val_alive _ _ _ _ E) as Hf.
    destruct (IH Hf) as [Hl Ho].
    destruct (feed_safe f d f' o out Hd E) as (_ & G); [by split|]. split; [done|by exists f'].
  - split; [|done]. intros Hf. by rewrite (feed_raise_dead _ _ _ _ E) in Hf.
Qed.

(** C2: framing does not depend on how the client's stream is cut into WebSocket messages: feeding
    the chunks one after the other forwards the same messages, or raises the same violation, as
    feeding them at once, and ends in the same state when nothing is violated. *)
Theorem feed_chunks f d ds :
  wf f -> Forall is_byte d -> Forall (Forall is_byte) ds ->
  (feeds f d ds).2 = (feed f (d ++ concat ds)).2 /\
  (forall o, (feeds f d ds).2 = Val o -> feeds f d ds = feed f (d ++ concat ds)).
Proof.
  revert f d; induction ds as [|d' ds IH]; intros f d Hwf Hd Hds; [simpl; by rewrite app_nil_r|].
  apply Forall_cons in Hds as [Hd' Hds]. cbn [feeds concat].
  assert (Forall is_byte (d' ++ concat ds)) as Hc by (by apply Forall_app; split; [|apply Forall_concat]).
  pose proof (feed_two f d (d' ++ concat ds) Hwf Hd Hc) as H2. pose proof (feed_wf f d Hwf Hd) as Hw.
  destruct (feed f d) as [f1 [o1|v|]]; simpl in Hw; [|done..].
  rewrite H2. destruct (IH f1 d' Hw Hd' Hds) as [I1 I2].
  destruct (feeds f1 d' ds) as [f2 [o2|v|]]; simpl in *; [by rewrite <- (I2 _ eq_refl)|..];
    rewrite I1; by destruct (feed f1 _) as [f3 []]; simplify_eq/=.
Qed.

(** Both feeds return or raise on every input: the loops of [_run] and [_advance_server] end. *)
Theorem feeds_terminate f out d :
  session f out -> Forall is_byte d -> (feed f d).2 <> Diverges /\ (feed_server f d).2 <> Diverges.
Proof.
  intros Hs Hd. split; [|apply feed_server_total]. apply session_wf in Hs. by apply feed_total.
Qed.

(** Buffering is bounded: a live filter never holds a whole [MAX_FRAMED] of client bytes nor
    more than [MAX_SERVER_BUF] server bytes, whatever was sent. *)
Theorem session_bounded f out :
  session f out -> f_dead f = false -> held f < MAX_FRAMED /\ zlen (f_sbuf f) <= MAX_SERVER_BUF.
Proof.
  induction 1 as [|f out d f' r Hs IH Hd E|f out d f' o Hs IH Hd E|f out d f' v Hs IH Hd E]; intros Hf.
  - done.
  - unfold feed_server in E. destruct (f_dead f) eqn:Ed; [simplify_eq; congruence|].
    destruct IH as [I1 I2]; [done|]. case_bool_decide; [by simplify_eq|].
    destruct (advance_server_client (set_sbuf (f_sbuf f ++ d) f)) as (Hb & _).
    destruct (advance_server _) as [f1 [[]|v|]] eqn:Ea.
    + case_match; simplify_eq. reflect_bools. unfold held in *. simpl in Hb. by rewrite Hb.
    + by simplify_eq.
    + pose proof (advance_server_total (set_sbuf (f_sbuf f ++ d) f)) as Ht. by rewrite Ea in Ht.
  - apply session_wf in Hs. pose proof (feed_val_alive _ _ _ _ E) as Hf0. destruct (IH Hf0) as [_ I2].
    unfold feed in E. rewrite Hf0 in E. destruct (run f d) as [f1 [o1| |]] eqn:Er; simplify_eq.
    rewrite run_app in Er. apply run_loop_bounded in Er as [H1 H2]; [|by apply app_buf_wf].
    simpl in H2. split; [done|lia].
  - by rewrite (feed_raise_dead _ _ _ _ E) in Hf.
Qed.

(** A whole SetEncodings message, offered encodings in any number the filter takes, is forwarded
    with exactly the stripped pseudo-encodings removed, in order, and its count rewritten. *)
Theorem feed_set_encodings f pad codes :
  f_dead f = false -> f_state f = C_MESSAGES -> f_serverinit_seen f = true -> f_skip f = 0 -> f_buf f = [] ->
  is_byte pad -> zlen codes <= MAX_ENCODINGS -> Forall is_i32 codes ->
  feed f (set_encodings_msg pad codes) =
  (f, Val [set_encodings_msg 0 (List.filter (fun c => negb (stripped c)) codes)]).
Proof.
  intros Hd Hs Hi Hk Hb Hp Hn Hc. unfold feed. rewrite Hd, run_app.
  set (m := set_encodings_msg pad codes). set (f0 := app_buf m f).
  assert (Hb0 : f_buf f0 = m) by (unfold f0, app_buf; simpl; by rewrite Hb).
  assert (Hf0 : set_buf [] f0 = f) by (destruct f; simpl in *; by subst).
  assert (turn f0 [] = (f, Val (true, [set_encodings_msg 0 (List.filter (fun c => negb (stripped c)) codes)]))) as Ht.
  { unfold turn. change (f_skip f0) with (f_skip f). rewrite Hk. simpl. unfold next_unit. rewrite Hb0.
    change (f_state f0) with (f_state f). change (f_serverinit_seen f0) with (f_serverinit_seen f).
    rewrite Hs, Hi. unfold m, set_encodings_msg at 1. cbn [app negb].
    rewrite (message_set_encodings f0 pad codes []), Hf0 by done.
    pose proof (zlen_nonneg codes). destruct (4 + 4 * zlen codes =? 0) eqn:E; [reflect_bools; lia|done]. }
  unfold run_fuel. rewrite Hb0. unfold m, set_encodings_msg at 1. cbn [app length Nat.mul Nat.add run_loop].
  rewrite Ht. unfold turn, next_unit. by rewrite Hk, Hb.
Qed.

(** A violation is final: once either feed has raised, every later call of either raises and
    leaves the filter as it is, so nothing more is forwarded. *)
Theorem violation_final f d v d' f' :
  feed f d = (f', Raise v) \/ feed_server f d = (f', Raise v) ->
  feed f' d' = (f', Raise refused) /\ feed_server f' d' = (f', Raise refused).
Proof.
  intros [H|H]; [apply feed_raise_dead in H|apply feed_server_raise_dead in H];
    unfold feed, feed_server; by rewrite H.
Qed.

(** ** A session on concrete bytes *)

Lemma is_bytes l : forallb (fun b => (0 <=? b) && (b <? 256)) l = true -> Forall is_byte l.
Proof.
  rewrite forallb_forall, Forall_forall. intros H b Hb. apply list_elem_of_In, H in Hb.
  reflect_bools. done.
Qed.

Lemma are_bytes {A} (g : A -> bytes) l :
  forallb (fun a => forallb (fun b => (0 <=? b) && (b <? 256)) (g a)) l = true ->
  Forall (fun a => Forall is_byte (g a)) l.
Proof.
  rewrite forallb_forall, Forall_forall. intros H a Ha. by apply is_bytes, H, list_elem_of_In.
Qed.

(** The relay's calls in order: [inl] is the server's bytes, [inr] the client's. *)
Fixpoint relay (calls : list (bytes + bytes)) (f : filter) (out : list bytes) : filter * list bytes :=
  match calls with
  | [] => (f, out)
  | inl d :: calls' => relay calls' (feed_server f d).1 out
  | inr d :: calls' =>
      match feed f d with
      | (f', Val o) => relay calls' f' (out ++ o)
      | (f', _) => relay calls' f' out
      end
  end.

Definition call_bytes (c : bytes + bytes) : bytes := match c with inl d => d | inr d => d end.

Lemma relay_session calls f out :
  session f out -> Forall (fun c => Forall is_byte (call_bytes c)) calls ->
  session (relay calls f out).1 (relay calls f out).2.
Proof.
  intros Hs Hc. revert f out Hs. induction Hc as [|[d|d] calls Hd Hc IH]; intros f out Hs; simpl in *; [done|..].
  - destruct (feed_server f d) as [f' r] eqn:E. apply IH. by eapply session_server.
  - pose proof (feed_total f d (session_wf f out Hs) Hd) as Ht.
    destruct (feed f d) as [f' [o|v|]] eqn:E; [| |done]; apply IH; [by eapply session_client|].
    by eapply session_violation.
Qed.

(** A 3.8 handshake without authentication, the client's bytes cut across units; then a key event
    (dropped) and a FramebufferUpdateRequest. *)
Definition demo_calls : list (bytes + bytes) :=
  [inl (nth 1 VERSIONS []); inr (take 5 (nth 1 VERSIONS [])); inr (drop 5 (nth 1 VERSIONS []));
   inl [2; 1; 2]; inr [1]; inl [0; 0; 0; 0]; inr [0]; inl (repeat 0 24);
   inr [4; 1; 0; 0; 0; 0; 0]; inr [9; 3; 0; 0; 0; 0; 0; 1; 0; 1; 0]].
Definition demo : filter * list bytes := relay demo_calls new_filter [].
Definition demo_out : list bytes :=
  [nth 1 VERSIONS []; [1]; [1]; [3; 0; 0; 0; 0; 0; 1; 0; 1; 0]].

Lemma demo_calls_bytes : Forall (fun c => Forall is_byte (call_bytes c)) demo_calls.
Proof. by apply are_bytes. Qed.

Lemma demo_session : session demo.1 demo.2.
Proof. apply relay_session; [constructor|apply demo_calls_bytes]. Qed.

Lemma session_safe_witness :
  demo.2 = demo_out /\ f_dropped demo.1 = 1 /\ legal demo.1 demo.2 /\ in_order demo.1.
Proof.
  split; [by vm_compute|]. split; [by vm_compute|].
  apply (session_safe demo.1 demo.2); [apply demo_session|by vm_compute].
Defined.

Lemma feed_chunks_witness :
  (feeds demo.1 [4; 1] [[0; 0; 0]; [0; 0; 9; 7]]).2 = Raise (Violation CLOSE_POLICY
    "That input is not allowed on a view-only console") /\
  (feeds demo.1 [4; 1] [[0; 0; 0]; [0; 0; 9; 7]]).2 = (feed demo.1 [4; 1; 0; 0; 0; 0; 0; 9; 7]).2.
Proof.
  split; [by vm_compute|].
  apply (feed_chunks demo.1 [4; 1] [[0; 0; 0]; [0; 0; 9; 7]]).
  - eapply session_wf, demo_session.
  - by apply is_bytes.
  - by apply (are_bytes id).
Defined.

Lemma feeds_terminate_witness : (feed demo.1 [6; 0]).2 <> Diverges /\ (feed_server demo.1 [6; 0]).2 <> Diverges.
Proof. apply (feeds_terminate demo.1 demo.2); [apply demo_session|by apply is_bytes]. Defined.

Lemma session_bounded_witness : held demo.1 < MAX_FRAMED /\ zlen (f_sbuf demo.1) <= MAX_SERVER_BUF.
Proof. apply (session_bounded demo.1 demo.2); [apply demo_session|by vm_compute]. Defined.

Lemma feed_set_encodings_witness :
  feed demo.1 (set_encodings_msg 0 [7; -308; 0; -312; 1464686081]) =
  (demo.1, Val [set_encodings_msg 0 [7; 0]]).
Proof.
  rewrite (feed_set_encodings demo.1 0 [7; -308; 0; -312; 1464686081]).
  - vm_compute; reflexivity.
  - vm_compute; reflexivity.
  - vm_compute; reflexivity.
  - vm_compute; reflexivity.
  - vm_compute; reflexivity.
  - vm_compute; reflexivity.
  - unfold is_byte; lia.
  - vm_compute; discriminate.
  - repeat (apply Forall_cons; split; [unfold is_i32; lia|]). constructor.
Defined.

Lemma violation_final_witness :
  let f' := (feed new_filter [4]).1 in
  feed f' [1] = (f', Raise refused) /\ feed_server f' [1] = (f', Raise refused).
Proof. apply (violation_final new_filter [4] not_ready [1]). left. by vm_compute. Defined.
