(* ===== verification/Reservations.v ===== *)
(** * Network reservations: values ranges hold on shared networks

    Models the reservation table and its transactions: the worker's allocator
    ([control-plane/worker/worker/range_alloc.py] over [db_ops.py]) and the API's half
    ([control-plane/api/app/network_inventory/service.py]).  [db] holds the rows of
    [network_reservations] and of [ranges]; each SQL statement is a function on it, each
    transaction a function that returns the new database or the exception that rolls it back.
    The advisory lock serialises the transactions of a (domain, kind), so a transaction is one
    step.  The theorems: what an allocation returns on every path, that the allocator never
    runs into the unique constraints, that it is idempotent, that no value is ever held twice
    whatever the order of transactions, that live-read values are never handed out, and that
    the API's and the worker's allocators agree. *)

From S2P Require Import Prelude.
From stdpp Require Import gmap.


Local Open Scope Z_scope.

(** ** Data *)

(** A row of [network_reservations] (models.NetworkReservation): [r_range] and [r_tenant] are NULL
    for an external one; [r_seen] is [updated_at]. *)
Record row := Row {
  r_id : Z; r_tenant : option string; r_range : option string; r_domain : string; r_kind : string;
  r_value : string; r_holder : string; r_seen : Z
}.

(** An entry of a recorded output's [networks] list. *)
Inductive net_entry :=
| Net (name : string) (physical_vlan : option Z)
| NotANet (text : string).

(** A value of the output's JSON object: only the networks list is looked into. *)
Inductive jval := JNets (nets : list net_entry) | JOther (text : string).

(** [provisioner_output]: the JSON object's items in order; [None] when NULL or unreadable. *)
Definition output := option (list (string * jval)).

Record range := Range { g_state : string; g_tenant : string; g_output : output }.

Record db := Db { rows : list row; ranges : gmap string range; next_id : Z }.

#[export] Instance row_eq_dec : EqDecision row.
Proof. solve_decision. Defined.

Definition KINDS : list string := ["mac"; "noise_mgmt_ip"; "uplink_ip"; "vlan"].
Definition EXTERNAL : string := "external:".
Definition EXTERNAL_TTL : Z := 30 * 24 * 3600.  (* timedelta(days=30), in seconds *)

(** The exceptions of a transaction.  [IntegrityError] and [NoResultFound] are the database's. *)
Inductive exn :=
| ValueError
| DomainChangedError (elsewhere : list string)
| ReservedNetworkError (held : list string)
| PoolExhaustedError (free total needed : Z)
| AllocationError
| NetworkConflictError
| RuntimeError
| LeaseLost
| IndexError
| NoResultFound
| IntegrityError.

Notation tx A := (result exn (A * db)).

(** ** [lock_key]: zlib.crc32, bit by bit *)

Definition crc_bit (c : Z) : Z :=
  if Z.testbit c 0 then Z.lxor (Z.shiftr c 1) 3988292384 else Z.shiftr c 1.
Definition crc_byte (c b : Z) : Z := Nat.iter 8 crc_bit (Z.lxor c b).
Definition crc32 (bs : list Z) : Z := Z.lxor (fold_left crc_byte bs 4294967295) 4294967295.
Definition lock_key (domain kind : string) : Z :=
  crc32 (bytes_of_string (kind +:+ ":" +:+ domain)) - 2147483648.

(** ** The statements of db_ops.py *)

Definition set_rows (l : list row) (d : db) : db := Db l d.(ranges) d.(next_id).
Definition set_ranges (g : gmap string range) (d : db) : db := Db d.(rows) g d.(next_id).
Definition delete_where (p : row -> bool) (d : db) : db := set_rows (List.filter (fun r => negb (p r)) d.(rows)) d.

Definition same (domain kind : string) (r : row) : bool :=
  String.eqb r.(r_domain) domain && String.eqb r.(r_kind) kind.
Definition of_range (range_id : string) (r : row) : bool := bool_decide (r.(r_range) = Some range_id).
Definition is_external (r : row) : bool := bool_decide (r.(r_range) = None).

Definition state_of (d : db) (range_id : string) : option string := g_state <$> d.(ranges) !! range_id.

Definition lock_range_in_state (d : db) (range_id state : string) : bool :=
  bool_decide (state_of d range_id = Some state).

Definition range_reservations (d : db) (range_id kind : string) : list (string * string * string) :=
  map (fun r => (r.(r_holder), r.(r_value), r.(r_domain)))
    (List.filter (fun r => of_range range_id r && String.eqb r.(r_kind) kind) d.(rows)).

Definition drop_range_reservations (range_id kind : string) (holders : list string) (d : db) : db :=
  delete_where (fun r => of_range range_id r && String.eqb r.(r_kind) kind && bool_decide (r.(r_holder) ∈ holders)) d.

(** A row whose range is recorded destroyed. *)
Definition of_destroyed (d : db) (r : row) : bool :=
  match r.(r_range) with
  | Some g => bool_decide (state_of d g = Some "destroyed"%string)
  | None => false
  end.

Definition free_destroyed (domain kind : string) (d : db) : db :=
  delete_where (fun r => same domain kind r && of_destroyed d r) d.
Definition values_in (d : db) (domain kind : string) : list string :=
  map r_value (List.filter (same domain kind) d.(rows)).

Definition taken_reservation_values (domain kind : string) (d : db) : list string * db :=
  let d' := free_destroyed domain kind d in (values_in d' domain kind, d').

(** What the unique constraints say of one more row. *)
Definition conflicts_with (r r' : row) : bool :=
  (String.eqb r.(r_domain) r'.(r_domain) && String.eqb r.(r_kind) r'.(r_kind) && String.eqb r.(r_value) r'.(r_value)) ||
  (bool_decide (r.(r_range) = r'.(r_range)) && negb (is_external r) &&
   String.eqb r.(r_kind) r'.(r_kind) && String.eqb r.(r_holder) r'.(r_holder)).

(** INSERT of one row, its id fresh. *)
Definition insert_row (r : row) (d : db) : result exn db :=
  if existsb (conflicts_with r) d.(rows) then Err IntegrityError
  else Ok (Db (d.(rows) ++ [r]) d.(ranges) (d.(next_id) + 1)).

Fixpoint insert_rows (mk : Z -> string * string -> row) (items : list (string * string)) (d : db) : result exn db :=
  match items with
  | [] => Ok d
  | it :: items' => insert_row (mk d.(next_id) it) d ≫= insert_rows mk items'
  end.

Definition range_row (tenant range_id domain kind : string) (now : Z) (id : Z) (it : string * string) : row :=
  Row id (Some tenant) (Some range_id) domain kind it.2 it.1 now.

Definition insert_reservations (range_id domain kind : string) (values : list (string * string)) (now : Z) (d : db)
    : result exn db :=
  match d.(ranges) !! range_id with
  | None => Err NoResultFound
  | Some g => insert_rows (range_row g.(g_tenant) range_id domain kind now) values d
  end.

Definition release_destroyed_range (range_id : string) (d : db) : Z * db :=
  let d' := delete_where (fun r => of_range range_id r && bool_decide (state_of d range_id = Some "destroyed"%string)) d in
  (zlen d.(rows) - zlen d'.(rows), d').

Definition range_held_values (d : db) (domain kind : string) : list string :=
  map r_value (List.filter (fun r => same domain kind r && negb (is_external r)) d.(rows)).

Definition external_reservations (d : db) (domain kind : string) : list row :=
  List.filter (fun r => same domain kind r && is_external r) d.(rows).

Definition drop_reservation_ids (ids : list Z) (seen_before : Z) (d : db) : db :=
  delete_where (fun r => bool_decide (r.(r_id) ∈ ids) && (r.(r_seen) <? seen_before)) d.

Definition touch_row (ids : list Z) (at_ : Z) (r : row) : row :=
  if bool_decide (r.(r_id) ∈ ids) && (r.(r_seen) <? at_)
  then Row r.(r_id) r.(r_tenant) r.(r_range) r.(r_domain) r.(r_kind) r.(r_value) r.(r_holder) at_ else r.
Definition touch_reservation_ids (ids : list Z) (at_ : Z) (d : db) : db :=
  set_rows (map (touch_row ids at_) d.(rows)) d.

Definition expire_external (domain kind keep_prefix : string) (before : Z) (d : db) : db :=
  delete_where (fun r => same domain kind r && is_external r && (r.(r_seen) <? before) &&
                         negb (startswith keep_prefix r.(r_holder))) d.

Definition external_row (domain kind : string) (seen_at : Z) (id : Z) (it : string * string) : row :=
  Row id None None domain kind it.1 (String.substring 0 255 it.2) seen_at.
(** [values] is {value: holder}. *)
Definition insert_external_reservations (domain kind : string) (values : list (string * string)) (seen_at : Z) (d : db)
    : result exn db := insert_rows (external_row domain kind seen_at) values d.

Definition drop_range_values (range_id domain kind : string) (values : list string) (d : db) : Z * db :=
  let d' := delete_where (fun r => of_range range_id r && same domain kind r && bool_decide (r.(r_value) ∈ values)) d in
  (zlen d.(rows) - zlen d'.(rows), d').

(** [{**current, **updates}]: an updated key keeps its place, a new one goes last. *)
Fixpoint set_key (k : string) (v : jval) (o : list (string * jval)) : list (string * jval) :=
  match o with
  | [] => [(k, v)]
  | (k', v') :: o' => if String.eqb k k' then (k, v) :: o' else (k', v') :: set_key k v o'
  end.
Fixpoint get_key (k : string) (o : list (string * jval)) : option jval :=
  match o with [] => None | (k', v) :: o' => if String.eqb k k' then Some v else get_key k o' end.

(** [merge_range_output] (an UPDATE of no row when there is no such range). *)
Definition merge_range_output (range_id : string) (updates : list (string * jval)) (d : db) : db :=
  match d.(ranges) !! range_id with
  | None => d
  | Some g =>
      let merged := fold_left (fun o u => set_key u.1 u.2 o) updates (default [] g.(g_output)) in
      set_ranges (<[range_id := Range g.(g_state) g.(g_tenant) (Some merged)]> d.(ranges)) d
  end.

Definition on_vlans (vlans : list Z) (n : net_entry) : bool :=
  match n with Net _ (Some v) => bool_decide (v ∈ vlans) | _ => false end.

Definition drop_range_networks (range_id : string) (physical_vlans : list Z) (d : db) : db :=
  match d.(ranges) !! range_id with
  | Some (Range _ _ (Some current)) =>
      match get_key "networks" current with
      | Some (JNets nets) =>
          merge_range_output range_id
            [("networks"%string, JNets (List.filter (fun n => negb (on_vlans physical_vlans n)) nets))] d
      | _ => d
      end
  | _ => d
  end.

(** ** The worker's allocator: range_alloc.py *)

(** A dict of text to text. *)
Notation dict := (gmap string string).
Definition dict_of (items : list (string * string)) : dict := list_to_map (reverse items).  (* the last wins *)
(** [{h: mine[h] for h in holders}] *)
Definition pick (mine : dict) (holders : list string) : dict :=
  dict_of (omap (fun h => pair h <$> mine !! h) holders).
Definition string_sorted (l : list string) : list string := py_sorted String.leb (fromkeys l).

(** [mine], after a fresh build's [prune]: the holders of other builds freed. *)
Definition prune_stale (d : db) (range_id kind : string) (holders : list string) (prune : bool) : dict * db :=
  let rs := range_reservations d range_id kind in
  let mine := dict_of (map fst rs) in
  let stale := List.filter (fun h => negb (bool_decide (h ∈ holders))) (map (fun x => x.1.1) rs) in
  if prune && negb (bool_decide (stale = []))
  then (base.filter (fun hv => hv.1 ∈ holders) mine, drop_range_reservations range_id kind stale d)
  else (mine, d).

(** From [needed] on: the lowest free values for the holders without one. *)
Definition hand_out (d : db) (mine : dict) (range_id domain kind : string) (pool holders excluded : list string)
    (now : Z) : tx dict :=
  let needed := List.filter (fun h => negb (bool_decide (is_Some (mine !! h)))) (fromkeys holders) in
  if bool_decide (needed = []) then Ok (pick mine holders, d)
  else
    let '(taken0, d2) := taken_reservation_values domain kind d in
    let taken := taken0 ++ excluded in
    let free := take (length needed) (List.filter (fun v => negb (bool_decide (v ∈ taken))) pool) in
    if zlen free <? zlen needed then Err (PoolExhaustedError (zlen free) (zlen pool) (zlen needed))
    else
      d3 ← insert_reservations range_id domain kind (zip needed free) now d2;
      Ok (pick (dict_of (zip needed free) ∪ mine) holders, d3).

Definition reserve_values (d : db) (range_id domain kind : string) (pool holders : list string) (prune : bool)
    (excluded : list string) (now : Z) : tx dict :=
  if String.eqb domain "" then Err ValueError
  else
    let elsewhere := string_sorted
      (List.filter (fun x => negb (String.eqb x domain)) (map snd (range_reservations d range_id kind))) in
    if negb (bool_decide (elsewhere = [])) then Err (DomainChangedError elsewhere)
    else
      let '(mine, d1) := prune_stale d range_id kind holders prune in
      let held := string_sorted (List.filter (fun v => bool_decide (v ∈ excluded)) (map snd (map_to_list mine))) in
      if negb (bool_decide (held = [])) then Err (ReservedNetworkError held)
      else hand_out d1 mine range_id domain kind pool holders excluded now.

(** What one live read found ([LiveUsage]): [foreign] and [managed] are {value: name}. *)
Record usage := Usage {
  u_domain : string; u_kind : string; u_source : string;
  u_foreign : list (string * string); u_managed : list (string * string); u_read_at : option Z
}.

Definition source_prefix (u : usage) : string := EXTERNAL +:+ u.(u_source) +:+ ":".

(** [want]: the source's {value: holder} before the held ones are taken out. *)
Definition want_of (u : usage) (held : list string) : list (string * string) :=
  let foreign := map (fun vn => (vn.1, source_prefix u +:+ vn.2)) u.(u_foreign) in
  foreign ++
  map (fun vn => (vn.1, source_prefix u +:+ vn.2 +:+ " (orphaned TrueNorth port group)"))
    (List.filter (fun vn => negb (bool_decide (vn.1 ∈ held)) && negb (bool_decide (vn.1 ∈ map fst u.(u_foreign)))) u.(u_managed)).

Definition record_external (d : db) (u : usage) (now : Z) : tx (list (string * string)) :=
  let '(_, d1) := taken_reservation_values u.(u_domain) u.(u_kind) d in
  let held := range_held_values d1 u.(u_domain) u.(u_kind) in
  let prefix := source_prefix u in
  let want := List.filter (fun vh => negb (bool_decide (vh.1 ∈ held))) (want_of u held) in
  let seen_at := default now u.(u_read_at) in
  let d2 := expire_external u.(u_domain) u.(u_kind) prefix (now - EXTERNAL_TTL) d1 in
  let ours := List.filter (fun r => startswith prefix r.(r_holder)) (external_reservations d2 u.(u_domain) u.(u_kind)) in
  let wanted r := bool_decide (r.(r_value) ∈ map fst want) in
  let d3 :=
    match u.(u_read_at) with
    | Some read_at => drop_reservation_ids (map r_id (List.filter (fun r => negb (wanted r)) ours)) read_at d2
    | None => d2
    end in
  let d4 := touch_reservation_ids (map r_id (List.filter wanted ours)) seen_at d3 in
  let present := map r_value (external_reservations d4 u.(u_domain) u.(u_kind)) in
  d5 ← insert_external_reservations u.(u_domain) u.(u_kind)
         (List.filter (fun vh => negb (bool_decide (vh.1 ∈ present))) want) seen_at d4;
  Ok (want, d5).

(** What a build collided on ([result.conflict]): [c_vlans] is {vlan: name}. *)
Record conflict := Conflict {
  c_domain : string; c_source : option string; c_release : list Z; c_vlans : list (Z * string)
}.

Definition release_conflict (d : db) (range_id : string) (c : conflict) (now : Z) : result exn db :=
  let source := match c.(c_source) with Some s => if String.eqb s "" then "live switch"%string else s
                                      | None => "live switch"%string end in
  let release := map pretty c.(c_release) in
  let '(_, d1) := drop_range_values range_id c.(c_domain) "vlan" release d in
  let d2 := drop_range_networks range_id c.(c_release) d1 in
  let '(taken, d3) := taken_reservation_values c.(c_domain) "vlan" d2 in
  insert_external_reservations c.(c_domain) "vlan"
    (map (fun vn => (pretty vn.1, EXTERNAL +:+ source +:+ ":" +:+ vn.2))
       (List.filter (fun vn => negb (bool_decide (pretty vn.1 ∈ taken))) c.(c_vlans))) now d3.

(** What a provisioner declares it needs ([allocation_needs]). *)
Record need := Need {
  n_key : string; n_domain : string; n_kind : string; n_pool : list string; n_holders : list string;
  n_single : bool; n_excluded : list string
}.

(** A build's allocation: one value, or a dict. *)
Inductive allocation := One (v : string) | Many (m : dict).

Fixpoint record_all (us : list usage) (n : need) (now : Z) (d : db) : result exn db :=
  match us with
  | [] => Ok d
  | u :: us' =>
      if String.eqb u.(u_domain) n.(n_domain) && String.eqb u.(u_kind) n.(n_kind)
      then r ← record_external d u now; record_all us' n now r.2
      else record_all us' n now d
  end.

Fixpoint allocate (needs : list need) (us : list usage) (range_id : string) (now : Z)
    (acc : list (string * allocation)) (d : db) : tx (list (string * allocation)) :=
  match needs with
  | [] => Ok (acc, d)
  | n :: needs' =>
      d1 ← record_all us n now d;
      got ← reserve_values d1 range_id n.(n_domain) n.(n_kind) n.(n_pool) n.(n_holders) true n.(n_excluded) now;
      if n.(n_single) then
        match n.(n_holders) with
        | [] => Err IndexError
        | h :: _ => allocate needs' us range_id now (acc ++ [(n.(n_key), One (default ""%string (got.1 !! h)))]) got.2
        end
      else allocate needs' us range_id now (acc ++ [(n.(n_key), Many got.1)]) got.2
  end.

Definition need_leb (n n' : need) : bool :=
  lock_key n.(n_domain) n.(n_kind) <=? lock_key n'.(n_domain) n'.(n_kind).

(** The provisioner's side of [reserve_for_build], and the checks of other components: the outcome
    of [reserved_networks.conflicts], of [allocation_needs] and of [live_usage] ([None]: raised),
    whether the task still holds the range's lease, and [planned_output]. *)
Record build_env := BuildEnv {
  e_clashes : option (list string); e_needs : option (list need); e_usage : option (list usage);
  e_lease_held : bool; e_planned : list (string * allocation) -> option (list (string * jval))
}.

(** [reserve_for_build]: on [Err] the transaction was rolled back. *)
Definition reserve_for_build (d : db) (range_id : string) (env : build_env) (now : Z) : tx (list (string * allocation)) :=
  match env.(e_clashes) with
  | None => Err (ReservedNetworkError [])
  | Some ((_ :: _) as clashes) => Err (ReservedNetworkError clashes)
  | Some [] =>
      match env.(e_needs) with
      | None => Err AllocationError
      | Some [] => Ok ([], d)
      | Some needs =>
          match env.(e_usage) with
          | None => Err RuntimeError
          | Some us =>
              if negb (lock_range_in_state d range_id "provisioning") then Err AllocationError
              else if negb env.(e_lease_held) then Err LeaseLost
              else
                r ← allocate (py_sorted need_leb needs) us range_id now [] d;
                match env.(e_planned) r.1 with
                | Some planned => Ok (r.1, merge_range_output range_id planned r.2)
                | None => Ok r
                end
          end
      end
  end.

(** [build_failure]: the exception to raise, and the database. *)
Definition build_failure (d : db) (range_id : string) (c : option conflict) (now : Z) : exn * db :=
  match c with
  | None => (RuntimeError, d)
  | Some c =>
      if lock_range_in_state d range_id "provisioning" then
        match release_conflict d range_id c now with
        | Ok d' => (NetworkConflictError, d')
        | Err _ => (NetworkConflictError, d)
        end
      else (NetworkConflictError, d)
  end.

(** [release_after_destroy] *)
Definition release_after_destroy (d : db) (range_id : string) : Z * db := release_destroyed_range range_id d.

(** ** The API's half: network_inventory/service.py *)

Definition api_reserve (d : db) (range_id domain kind : string) (pool holders : list string) (now : Z) : tx dict :=
  if negb (bool_decide (kind ∈ KINDS)) then Err ValueError
  else if String.eqb domain "" then Err ValueError
  else
    let mine := dict_of (map (fun r => (r.(r_holder), r.(r_value)))
      (List.filter (fun r => of_range range_id r && String.eqb r.(r_kind) kind && String.eqb r.(r_domain) domain) d.(rows))) in
    let needed := List.filter (fun h => negb (bool_decide (is_Some (mine !! h)))) (fromkeys holders) in
    if bool_decide (needed = []) then Ok (pick mine holders, d)
    else
      let d1 := free_destroyed domain kind d in
      let taken := values_in d1 domain kind in
      let free := List.filter (fun v => negb (bool_decide (v ∈ taken))) pool in
      if zlen free <? zlen needed then Err (PoolExhaustedError (zlen free) (zlen pool) (zlen needed))
      else
        d2 ← insert_reservations range_id domain kind (zip needed free) now d1;
        Ok (pick (dict_of (zip needed free) ∪ mine) holders, d2).

Definition sync (d : db) (range_id domain kind : string) (pool holders : list string) (now : Z) : tx dict :=
  let stale r := of_range range_id r && String.eqb r.(r_kind) kind &&
    (negb (String.eqb r.(r_domain) domain) || negb (bool_decide (r.(r_holder) ∈ holders)) ||
     negb (bool_decide (r.(r_value) ∈ pool))) in
  let d1 := delete_where stale d in
  if bool_decide (holders = []) then Ok (∅, d1) else api_reserve d1 range_id domain kind pool holders now.

Definition release_range (d : db) (range_id : string) : Z * db :=
  let d' := delete_where (of_range range_id) d in (zlen d.(rows) - zlen d'.(rows), d').

(** ** The tables' invariant: what the unique constraints say *)

Definition value_key (r : row) : option (string * string * string) := Some (r.(r_domain), r.(r_kind), r.(r_value)).
Definition holder_key (r : row) : option (string * string * string) :=
  (fun g => (g, r.(r_kind), r.(r_holder))) <$> r.(r_range).
Definition id_key (r : row) : option Z := Some r.(r_id).

Definition inv (d : db) : Prop :=
  unique_by value_key d.(rows) /\ unique_by holder_key d.(rows) /\ unique_by id_key d.(rows) /\
  Forall (fun r => r.(r_id) < d.(next_id)) d.(rows).

Lemma conflicts_with_false r r' :
  conflicts_with r r' = false <->
  value_key r <> value_key r' /\ (holder_key r = None \/ holder_key r <> holder_key r').
Proof.
  unfold conflicts_with, value_key, holder_key, is_external.
  destruct r as [i t g d k v h s], r' as [i' t' g' d' k' v' h' s']; simpl.
  rewrite orb_false_iff, !andb_false_iff, !String.eqb_neq, bool_decide_eq_false, negb_false_iff, bool_decide_eq_true.
  assert ((d <> d' \/ k <> k') \/ v <> v' <-> Some (d, k, v) <> Some (d', k', v')) as <-.
  { destruct (decide (d = d')), (decide (k = k')), (decide (v = v')); subst; intuition congruence. }
  apply and_iff_compat_l.
  destruct g as [g|], g' as [g'|]; simpl; [|intuition congruence..].
  destruct (decide (g = g')), (decide (k = k')), (decide (h = h')); subst; intuition congruence.
Qed.

Lemma inv_delete p d : inv d -> inv (delete_where p d).
Proof.
  intros (Hv & Hh & Hi & Hn). unfold inv, delete_where; simpl.
  repeat split; try by apply unique_by_filter.
  apply Forall_forall. intros r Hr. apply list_elem_of_In, filter_In in Hr as [Hr _].
  rewrite Forall_forall in Hn. by apply Hn, list_elem_of_In.
Qed.

Lemma inv_set_ranges g d : inv d -> inv (set_ranges g d).
Proof. done. Qed.

Lemma inv_touch ids at_ d : inv d -> inv (touch_reservation_ids ids at_ d).
Proof.
  intros (Hv & Hh & Hi & Hn). unfold inv, touch_reservation_ids; simpl.
  repeat split; try (apply unique_by_map; [|done]; intros r; unfold touch_row; by case_match).
  rewrite Forall_map. eapply Forall_impl; [exact Hn|]. intros r Hr. unfold touch_row; simpl.
  by destruct (_ && _).
Qed.

Lemma insert_row_inv r d d' : inv d -> r_id r = next_id d -> insert_row r d = Ok d' -> inv d'.
Proof.
  intros (Hv & Hh & Hi & Hn) Hid H. unfold insert_row in H.
  destruct (existsb _ _) eqn:E; [done|]. simplify_eq. unfold inv; simpl.
  assert (forall r', r' ∈ rows d -> conflicts_with r r' = false) as Hc.
  { intros r' Hr'. destruct (conflicts_with r r') eqn:Ec; [|done].
    assert (existsb (conflicts_with r) (rows d) = true); [|congruence].
    apply existsb_exists. exists r'. by rewrite <- list_elem_of_In. }
  rewrite Forall_forall in Hn. repeat split.
  - apply unique_by_snoc; [done|]. intros r' k Hr' Hk Hk'. apply Hc, conflicts_with_false in Hr' as [? _]. congruence.
  - apply unique_by_snoc; [done|]. intros r' k Hr' Hk Hk'.
    apply Hc, conflicts_with_false in Hr' as [_ [?|?]]; congruence.
  - apply unique_by_snoc; [done|]. intros r' k Hr' Hk Hk'. apply Hn in Hr'. unfold id_key in *. simplify_eq. lia.
  - rewrite Forall_app, Forall_forall. split; [intros r' Hr'; specialize (Hn r' Hr'); lia|].
    repeat constructor. lia.
Qed.

Lemma insert_rows_inv mk items d d' :
  (forall n it, r_id (mk n it) = n) -> inv d -> insert_rows mk items d = Ok d' -> inv d'.
Proof.
  intros Hmk. revert d; induction items as [|it items IH]; intros d Hd H; simpl in H; [by simplify_eq|].
  destruct (insert_row _ d) as [d1|] eqn:E; [|done]. simpl in H.
  apply insert_row_inv in E; [|done|by rewrite Hmk]. by eapply IH.
Qed.

(** ** INSERT of several rows *)

Fixpoint rows_of (mk : Z -> string * string -> row) (n : Z) (items : list (string * string)) : list row :=
  match items with [] => [] | it :: items' => mk n it :: rows_of mk (n + 1) items' end.

Lemma elem_of_rows_of mk n items r :
  r ∈ rows_of mk n items -> exists n' it, it ∈ items /\ r = mk n' it.
Proof.
  revert n; induction items as [|it items IH]; intros n; simpl; [by rewrite elem_of_nil|].
  rewrite elem_of_cons. intros [->|Hr]; [exists n, it; split; [left|done]|].
  destruct (IH _ Hr) as (n' & it' & ? & ->). exists n', it'. split; [by right|done].
Qed.

Lemma rows_of_elem mk n items it : it ∈ items -> exists n', mk n' it ∈ rows_of mk n items.
Proof.
  revert n; induction items as [|it' items IH]; intros n; simpl; [by rewrite elem_of_nil|].
  rewrite elem_of_cons. intros [->|Hr]; [exists n; left|].
  destruct (IH (n + 1) Hr) as [n' ?]. exists n'. by right.
Qed.

Lemma insert_rows_shape mk items d d' :
  insert_rows mk items d = Ok d' ->
  d' = Db (rows d ++ rows_of mk (next_id d) items) (ranges d) (next_id d + zlen items).
Proof.
  revert d; induction items as [|it items IH]; intros d H; simpl in H.
  - simplify_eq. simpl. rewrite app_nil_r, Z.add_0_r. by destruct d'.
  - unfold insert_row in H. destruct (existsb _ _); [done|]. simpl in H. apply IH in H as ->. simpl.
    rewrite <- app_assoc, zlen_cons. f_equal. lia.
Qed.

(** No two of the new rows, nor a new row and one of the table, meet a unique constraint. *)
Definition fits (mk : Z -> string * string -> row) (items : list (string * string)) (d : db) : Prop :=
  (forall it n r, it ∈ items -> r ∈ rows d -> conflicts_with (mk n it) r = false) /\
  ForallOrdPairs (fun it it' => forall n n', conflicts_with (mk n' it') (mk n it) = false) items.

Lemma insert_rows_ok mk items d : fits mk items d -> exists d', insert_rows mk items d = Ok d'.
Proof.
  revert d; induction items as [|it items IH]; intros d [Hd Hp]; simpl; [by eexists|].
  inversion Hp as [|? ? Hit Hp']; subst.
  unfold insert_row. destruct (existsb _ _) eqn:E.
  - apply existsb_exists in E as (r & Hr & Hc). rewrite Hd in Hc; [done|left|by apply list_elem_of_In].
  - simpl. apply IH. split; [|done]. simpl. intros it' n r Hit' [Hr|Hr%list_elem_of_singleton]%elem_of_app.
    + apply Hd; [by right|done].
    + subst. rewrite Forall_forall in Hit. by apply Hit.
Qed.

(** [fits] for a dict whose keys and values are all different. *)
Lemma fits_pairs (mk : Z -> string * string -> row) items d :
  (forall it n r, it ∈ items -> r ∈ rows d -> conflicts_with (mk n it) r = false) ->
  (forall it it' n n', it.1 <> it'.1 -> it.2 <> it'.2 -> conflicts_with (mk n' it') (mk n it) = false) ->
  NoDup items.*1 -> NoDup items.*2 -> fits mk items d.
Proof.
  intros Hd Hp H1 H2. split; [done|]. clear Hd. induction items as [|it items IH]; [constructor|].
  simpl in *. apply NoDup_cons in H1 as [N1 H1], H2 as [N2 H2]. constructor; [|by apply IH].
  apply Forall_forall. intros it' Hit' n n'. apply Hp.
  - contradict N1. rewrite N1. by apply list_elem_of_fmap_2.
  - contradict N2. rewrite N2. by apply list_elem_of_fmap_2.
Qed.

(** ** Dicts *)

Lemma dict_of_spec items k v : NoDup items.*1 -> dict_of items !! k = Some v <-> (k, v) ∈ items.
Proof.
  intros H. unfold dict_of. rewrite <- elem_of_list_to_map, elem_of_reverse; [done|].
  rewrite fmap_reverse. by rewrite reverse_Permutation.
Qed.

Lemma pick_spec mine holders h v :
  pick mine holders !! h = Some v <-> h ∈ holders /\ mine !! h = Some v.
Proof.
  unfold pick, dict_of. set (items := omap _ _). split.
  - intros H%elem_of_list_to_map_2. rewrite elem_of_reverse in H.
    apply list_elem_of_omap in H as (h' & Hh & H). destruct (mine !! h') eqn:E; simplify_eq/=. done.
  - intros [Hh Hm]. assert (Hin : (h, v) ∈ reverse items).
    { rewrite elem_of_reverse. apply list_elem_of_omap. exists h. by rewrite Hm. }
    destruct (list_to_map (M := gmap string string) (reverse items) !! h) as [v'|] eqn:E.
    + apply elem_of_list_to_map_2 in E. rewrite elem_of_reverse in E.
      apply list_elem_of_omap in E as (h' & _ & E). destruct (mine !! h') eqn:E'; simplify_eq/=. congruence.
    + apply not_elem_of_list_to_map in E. contradict E. change h with (h, v).1. by apply list_elem_of_fmap_2.
Qed.

(** ** Handing out values *)

Definition holds (d : db) (range_id domain kind h v : string) : Prop :=
  exists r, r ∈ rows d /\ r.(r_range) = Some range_id /\ r.(r_domain) = domain /\ r.(r_kind) = kind /\
    r.(r_holder) = h /\ r.(r_value) = v.

(** [mine] is what the range's rows of the kind say. *)
Definition mine_ok (d : db) (range_id domain kind : string) (mine : dict) : Prop :=
  forall h v, mine !! h = Some v <-> holds d range_id domain kind h v.

(** Nobody but a destroyed range holds [v]. *)
Definition free_value (d : db) (domain kind v : string) : Prop :=
  forall r, r ∈ rows d -> r.(r_domain) = domain -> r.(r_kind) = kind -> r.(r_value) = v -> of_destroyed d r = true.

Lemma same_spec domain kind r : same domain kind r = true <-> r.(r_domain) = domain /\ r.(r_kind) = kind.
Proof. unfold same. by rewrite andb_true_iff, !String.eqb_eq. Qed.

Lemma elem_of_delete p d r : r ∈ rows (delete_where p d) <-> r ∈ rows d /\ p r = false.
Proof. simpl. by rewrite list_elem_of_In, filter_In, <- list_elem_of_In, negb_true_iff. Qed.

Lemma elem_of_free_destroyed domain kind d r :
  r ∈ rows (free_destroyed domain kind d) <-> r ∈ rows d /\ same domain kind r && of_destroyed d r = false.
Proof. apply elem_of_delete. Qed.

Lemma values_in_spec d domain kind v :
  v ∈ values_in d domain kind <->
  exists r, r ∈ rows d /\ r.(r_domain) = domain /\ r.(r_kind) = kind /\ r.(r_value) = v.
Proof.
  unfold values_in. rewrite list_elem_of_fmap. split.
  - intros (r & -> & Hr). apply list_elem_of_In, filter_In in Hr as [Hr Hs%same_spec].
    exists r. rewrite list_elem_of_In. naive_solver.
  - intros (r & Hr & Hd & Hk & <-). exists r. split; [done|]. apply list_elem_of_In, filter_In.
    rewrite <- list_elem_of_In, same_spec. done.
Qed.

Lemma not_taken_free d domain kind v :
  v ∉ (taken_reservation_values domain kind d).1 <-> free_value d domain kind v.
Proof.
  simpl. rewrite values_in_spec. unfold free_value, free_destroyed. split.
  - intros H r Hr Hd Hk Hv. destruct (of_destroyed d r) eqn:E; [done|]. exfalso. apply H. exists r.
    rewrite elem_of_delete, E, andb_false_r. done.
  - intros H (r & Hr & Hd & Hk & Hv). apply elem_of_delete in Hr as [Hr Hn].
    assert (same domain kind r = true) as Hs by (by apply same_spec).
    rewrite Hs, (H r Hr Hd Hk Hv) in Hn. done.
Qed.

Lemma free_destroyed_ranges domain kind d : ranges (free_destroyed domain kind d) = ranges d.
Proof. done. Qed.

(** The needed holders and the values picked for them. *)
Definition needed_of (mine : dict) (holders : list string) : list string :=
  List.filter (fun h => negb (bool_decide (is_Some (mine !! h)))) (fromkeys holders).
Definition free_of (d : db) (domain kind : string) (pool excluded : list string) : list string :=
  List.filter (fun v => negb (bool_decide (v ∈ (taken_reservation_values domain kind d).1 ++ excluded))) pool.

Lemma needed_of_spec mine holders h : h ∈ needed_of mine holders <-> h ∈ holders /\ mine !! h = None.
Proof.
  unfold needed_of. rewrite list_elem_of_In, filter_In, <- list_elem_of_In, elem_of_fromkeys.
  rewrite negb_true_iff, bool_decide_eq_false, <- eq_None_not_Some. done.
Qed.

Lemma needed_of_nodup mine holders : NoDup (needed_of mine holders).
Proof. apply NoDup_ListNoDup, List.NoDup_filter, NoDup_ListNoDup, NoDup_fromkeys. Qed.

Lemma free_of_spec d domain kind pool excluded v :
  v ∈ free_of d domain kind pool excluded <-> v ∈ pool /\ v ∉ excluded /\ free_value d domain kind v.
Proof.
  unfold free_of. rewrite list_elem_of_In, filter_In, <- list_elem_of_In, negb_true_iff, bool_decide_eq_false.
  rewrite elem_of_app, <- not_taken_free. naive_solver.
Qed.

Lemma free_of_nodup d domain kind pool excluded : NoDup pool -> NoDup (free_of d domain kind pool excluded).
Proof. intros H. by apply NoDup_ListNoDup, List.NoDup_filter, NoDup_ListNoDup. Qed.

(** The values a range gets: the lowest free of the pool, in its order, one per needed holder. *)
Definition grant (d : db) (mine : dict) (domain kind : string) (pool holders excluded : list string)
    : list (string * string) :=
  zip (needed_of mine holders) (take (length (needed_of mine holders)) (free_of d domain kind pool excluded)).

Lemma grant_keys d mine domain kind pool holders excluded :
  (length (needed_of mine holders) <= length (free_of d domain kind pool excluded))%nat ->
  (grant d mine domain kind pool holders excluded).*1 = needed_of mine holders /\
  (grant d mine domain kind pool holders excluded).*2 =
    take (length (needed_of mine holders)) (free_of d domain kind pool excluded).
Proof. intros H. unfold grant. rewrite fst_zip, snd_zip; rewrite ?length_take; auto; lia. Qed.

Section HandOut.
Context (d : db) (range_id domain kind : string) (pool holders excluded : list string) (now : Z).
Context (mine : dict) (g : range).
Context (Hinv : inv d) (Hg : ranges d !! range_id = Some g) (Hlive : g_state g <> "destroyed"%string).
Context (Hmine : mine_ok d range_id domain kind mine).
Context (Hdom : forall r, r ∈ rows d -> r_range r = Some range_id -> r_kind r = kind -> r_domain r = domain).
Context (Hpool : NoDup pool).

Local Notation needed := (needed_of mine holders).
Local Notation free := (free_of d domain kind pool excluded).
Local Notation new := (grant d mine domain kind pool holders excluded).
Local Notation d2 := (free_destroyed domain kind d).

Lemma grant_in h v : (h, v) ∈ new -> h ∈ needed /\ v ∈ free.
Proof.
  unfold grant. intros H. split.
  - by apply elem_of_zip_l in H.
  - by apply elem_of_zip_r, elem_of_take_in in H.
Qed.

Lemma grant_fits : (length needed <= length free)%nat -> fits (range_row (g_tenant g) range_id domain kind now) new d2.
Proof.
  intros Hle. destruct (grant_keys d mine domain kind pool holders excluded Hle) as [H1 H2].
  apply fits_pairs; rewrite ?H1, ?H2.
  - intros [h v] n r Hit Hr. apply grant_in in Hit as [Hh Hv]. apply conflicts_with_false.
    apply elem_of_delete in Hr as [Hr Hp]. simpl. split.
    + intros ?; simplify_eq. apply free_of_spec in Hv as (_ & _ & Hv).
      assert (same (r_domain r) (r_kind r) r = true) as Hs by (by apply same_spec).
      rewrite Hs, (Hv r Hr eq_refl eq_refl eq_refl) in Hp. done.
    + right. unfold holder_key; simpl. intros Hk. destruct (r_range r) as [g'|] eqn:Er; simplify_eq/=.
      apply needed_of_spec in Hh as [_ Hh].
      assert (mine !! r_holder r = Some (r_value r)) as Hm; [|congruence].
      apply Hmine. exists r. repeat split; auto.
  - intros [h v] [h' v'] n n' Hh Hv. apply conflicts_with_false. unfold value_key, holder_key; simpl in *.
    split; [|right]; congruence.
  - apply needed_of_nodup.
  - by apply NoDup_take, free_of_nodup.
Qed.

Lemma hand_out_eq :
  hand_out d mine range_id domain kind pool holders excluded now =
  if bool_decide (needed = []) then Ok (pick mine holders, d)
  else if (length free <? length needed)%nat
  then Err (PoolExhaustedError (zlen free) (zlen pool) (zlen needed))
  else Ok (pick (dict_of new ∪ mine) holders,
           Db (rows d2 ++ rows_of (range_row (g_tenant g) range_id domain kind now) (next_id d) new)
              (ranges d) (next_id d + zlen new)).
Proof using All.
  unfold hand_out. fold (needed_of mine holders). case_bool_decide; [done|].
  change (taken_reservation_values domain kind d) with
    ((taken_reservation_values domain kind d).1, d2). cbv beta iota zeta.
  fold (free_of d domain kind pool excluded).
  destruct (Nat.ltb_spec (length free) (length needed)) as [Hlt|Hle].
  - rewrite take_ge by lia. destruct (zlen free <? zlen needed) eqn:E; [done|].
    unfold zlen in E. reflect_bools. lia.
  - assert (zlen (take (length needed) free) = zlen needed) as Hz.
    { unfold zlen. rewrite length_take. lia. }
    rewrite Hz, Z.ltb_irrefl. fold (grant d mine domain kind pool holders excluded).
    unfold insert_reservations. change (ranges d2) with (ranges d). rewrite Hg.
    destruct (insert_rows_ok _ _ _ (grant_fits Hle)) as [d3 Hd3]. rewrite Hd3. simpl.
    apply insert_rows_shape in Hd3 as ->. done.
Qed.

Lemma new_dict h v :
  (length needed <= length free)%nat -> dict_of new !! h = Some v <-> (h, v) ∈ new.
Proof.
  intros Hle. apply dict_of_spec. destruct (grant_keys d mine domain kind pool holders excluded Hle) as [-> _].
  apply needed_of_nodup.
Qed.

(** The range's rows of the kind, after the new ones went in. *)
Lemma granted_mine :
  (length needed <= length free)%nat ->
  mine_ok (Db (rows d2 ++ rows_of (range_row (g_tenant g) range_id domain kind now) (next_id d) new)
              (ranges d) (next_id d + zlen new)) range_id domain kind (dict_of new ∪ mine).
Proof using Hg Hlive Hmine.
  intros Hle h v. rewrite lookup_union_Some_raw, new_dict by done. split.
  - intros [Hin|[Hn Hm]].
    + destruct (rows_of_elem (range_row (g_tenant g) range_id domain kind now) (next_id d) new (h, v) Hin) as [n Hr].
      eexists. split; [apply elem_of_app; right; exact Hr|]. done.
    + apply Hmine in Hm as (r & Hr & H1 & H2 & H3 & H4). exists r. split; [|done].
      apply elem_of_app; left. apply elem_of_delete. split; [done|].
      unfold of_destroyed, state_of. rewrite H1, Hg. simpl. rewrite bool_decide_eq_false_2 by congruence.
      apply andb_false_r.
  - intros (r & [Hr|Hr]%elem_of_app & H1 & H2 & H3 & H4 & H5).
    + apply elem_of_delete in Hr as [Hr _]. assert (mine !! h = Some v) as Hm by (apply Hmine; by exists r).
      right. split; [|done]. destruct (dict_of new !! h) as [v'|] eqn:E; [|done].
      apply new_dict in E; [|done]. apply grant_in in E as [E%needed_of_spec _]. destruct E; congruence.
    + left. apply elem_of_rows_of in Hr as (n & [h' v'] & Hin & ->). simpl in *. by subst.
Qed.

Lemma hand_out_spec m d' :
  hand_out d mine range_id domain kind pool holders excluded now = Ok (m, d') ->
  (forall h v, m !! h = Some v <-> h ∈ holders /\ holds d' range_id domain kind h v) /\
  (forall h, h ∈ holders -> is_Some (m !! h)) /\
  (forall h v, holds d' range_id domain kind h v ->
     mine !! h = Some v \/ h ∈ holders /\ v ∈ pool /\ v ∉ excluded /\ free_value d domain kind v) /\
  (forall h v, mine !! h = Some v -> holds d' range_id domain kind h v) /\
  (forall r, r ∈ rows d' -> r_range r = Some range_id -> r_kind r = kind -> r_domain r = domain) /\
  inv d' /\ ranges d' = ranges d /\
  (forall r, r_range r <> Some range_id -> of_destroyed d r = false -> r ∈ rows d' <-> r ∈ rows d).
Proof using All.
  intros H. rewrite hand_out_eq in H. case_bool_decide as Hn.
  { simplify_eq. assert (forall h, h ∈ holders -> is_Some (mine !! h)) as Hs.
    { intros h Hh. destruct (mine !! h) eqn:E; [by eexists|].
      assert (h ∈ needed) as Hin by (by apply needed_of_spec). rewrite Hn in Hin. by apply elem_of_nil in Hin. }
    split; [intros h v; rewrite pick_spec; unfold mine_ok in Hmine; by rewrite Hmine|].
    split; [intros h Hh; destruct (Hs h Hh) as [v Hv]; exists v; by apply pick_spec|].
    split; [intros h v Hv; left; by apply Hmine|]. split; [intros h v Hv; by apply Hmine|]. done. }
  destruct (Nat.ltb_spec (length free) (length needed)) as [Hlt|Hle]; [done|]. simplify_eq.
  pose proof (granted_mine Hle) as Hok.
  split; [intros h v; rewrite pick_spec; unfold mine_ok in Hok; by rewrite Hok|].
  split; [|split; [|split; [|split; [|split; [|split; [done|]]]]]].
  - intros h Hh. destruct ((dict_of new ∪ mine) !! h) as [v|] eqn:E; [exists v; by apply pick_spec|].
    apply lookup_union_None in E as [E1 E2]. exfalso.
    assert (h ∈ needed) as Hin by (by apply needed_of_spec).
    destruct (grant_keys d mine domain kind pool holders excluded Hle) as [Hk _]. rewrite <- Hk in Hin.
    apply list_elem_of_fmap in Hin as ([h' v'] & -> & Hin). apply new_dict in Hin; [|done]. simpl in *. congruence.
  - intros h v Hm%Hok. apply lookup_union_Some_raw in Hm as [Hm|[_ Hm]]; [right|by left].
    apply new_dict in Hm; [|done]. apply grant_in in Hm as [Hh%needed_of_spec Hv%free_of_spec]. tauto.
  - intros h v Hm. apply Hok, lookup_union_Some_raw. right. split; [|done].
    destruct (dict_of new !! h) as [v'|] eqn:E; [|done]. apply new_dict in E; [|done].
    apply grant_in in E as [[_ E]%needed_of_spec _]. congruence.
  - intros r [Hr|Hr]%elem_of_app H1 H2; [apply elem_of_free_destroyed in Hr as [Hr _]; by apply Hdom|].
    by apply elem_of_rows_of in Hr as (n & it & _ & ->).
  - destruct (insert_rows_ok _ _ _ (grant_fits Hle)) as [d3 Hd3]. pose proof Hd3 as Hsh.
    apply insert_rows_shape in Hsh. apply insert_rows_inv in Hd3; [|done|by apply inv_delete].
    by rewrite Hsh in Hd3.
  - intros r Hr Hd. pose proof (elem_of_free_destroyed domain kind d r) as Hfd.
    rewrite Hd, andb_false_r in Hfd. simpl in *. rewrite elem_of_app, Hfd.
    split; [|by left]. intros [[? _]|Hin]; [done|].
    apply elem_of_rows_of in Hin as (n & it & _ & ->). done.
Qed.
End HandOut.

(** ** The range's own rows *)

Lemma elem_of_range_reservations d range_id kind h v dom :
  (h, v, dom) ∈ range_reservations d range_id kind <-> holds d range_id dom kind h v.
Proof.
  unfold range_reservations, holds. rewrite list_elem_of_fmap. split.
  - intros (r & ? & Hr). simplify_eq. apply list_elem_of_In, filter_In in Hr as [Hr Hp].
    apply andb_true_iff in Hp as [Hp1%bool_decide_eq_true Hp2%String.eqb_eq].
    exists r. by rewrite list_elem_of_In.
  - intros (r & Hr & H1 & <- & <- & <- & <-). exists r. split; [done|]. apply list_elem_of_In, filter_In.
    rewrite <- list_elem_of_In. split; [done|]. unfold of_range.
    by rewrite String.eqb_refl, bool_decide_eq_true_2.
Qed.

Lemma range_reservations_keys d range_id kind :
  inv d -> NoDup (map (fun x => x.1.1) (range_reservations d range_id kind)).
Proof.
  intros (_ & Hh & _). unfold range_reservations. rewrite map_map. simpl.
  assert (unique_by holder_key (List.filter (fun r => of_range range_id r && String.eqb (r_kind r) kind) (rows d)))
    as Hu by (by apply unique_by_filter).
  unfold unique_by in Hu. clear Hh.
  induction (rows d) as [|r l IH]; simpl in *; [constructor|].
  destruct (of_range range_id r && String.eqb (r_kind r) kind) eqn:E; simpl in *.
  - unfold of_range in E. apply andb_true_iff in E as [E1%bool_decide_eq_true E2%String.eqb_eq].
    unfold holder_key in Hu at 1. rewrite E1, E2 in Hu. simpl in Hu. apply NoDup_cons in Hu as [Hn Hu].
    constructor; [|by apply IH].
    contradict Hn. apply list_elem_of_In, in_map_iff in Hn as (r' & Hr' & Hin).
    apply list_elem_of_omap. exists r'. split; [by apply list_elem_of_In|].
    apply filter_In in Hin as [_ Hp]. unfold of_range in Hp.
    apply andb_true_iff in Hp as [Hp1%bool_decide_eq_true Hp2%String.eqb_eq].
    unfold holder_key. by rewrite Hp1, Hp2, Hr'.
  - by apply IH.
Qed.

Lemma mine_all d range_id domain kind :
  inv d -> (forall r, r ∈ rows d -> r_range r = Some range_id -> r_kind r = kind -> r_domain r = domain) ->
  mine_ok d range_id domain kind (dict_of (map fst (range_reservations d range_id kind))).
Proof.
  intros Hi Hd h v. rewrite dict_of_spec.
  - rewrite list_elem_of_In, in_map_iff. split.
    + intros ([[h' v'] dom] & ? & Hin%list_elem_of_In). simplify_eq/=.
      apply elem_of_range_reservations in Hin. destruct Hin as (r & Hr & H1 & H2 & H3 & H4).
      exists r. destruct H4 as [? ?]. rewrite (Hd r) by done. done.
    + intros H%elem_of_range_reservations. exists (h, v, domain). split; [done|]. by apply list_elem_of_In.
  - pose proof (range_reservations_keys d range_id kind Hi) as H.
    change (NoDup (map fst (map fst (range_reservations d range_id kind)))). by rewrite map_map.
Qed.

Lemma prune_stale_spec d range_id domain kind holders prune mine d1 :
  inv d -> (forall r, r ∈ rows d -> r_range r = Some range_id -> r_kind r = kind -> r_domain r = domain) ->
  prune_stale d range_id kind holders prune = (mine, d1) ->
  mine_ok d1 range_id domain kind mine /\ inv d1 /\ ranges d1 = ranges d /\
  (forall r, r ∈ rows d1 -> r ∈ rows d) /\
  (forall r, r_range r <> Some range_id -> r ∈ rows d1 <-> r ∈ rows d) /\
  (prune = true -> forall h, is_Some (mine !! h) -> h ∈ holders) /\
  (forall h v, h ∈ holders -> holds d range_id domain kind h v -> mine !! h = Some v) /\
  (prune = false -> d1 = d).
Proof.
  intros Hi Hd H. pose proof (mine_all d range_id domain kind Hi Hd) as Hm.
  unfold prune_stale in H. set (stale := List.filter _ _) in H.
  assert (Hst : forall h, h ∈ stale <-> h ∉ holders /\ exists v, holds d range_id domain kind h v).
  { intros h. unfold stale. rewrite list_elem_of_In, filter_In, in_map_iff, negb_true_iff, bool_decide_eq_false.
    split.
    - intros [([[h' v] dom] & <- & Hin%list_elem_of_In) Hn]. split; [done|]. exists v.
      apply elem_of_range_reservations in Hin as (r & Hr & H1 & H2 & H3 & H4). exists r.
      destruct H4 as [? ?]. rewrite (Hd r) by done. done.
    - intros [Hn [v Hv%elem_of_range_reservations]]. split; [|done]. exists (h, v, domain).
      by rewrite <- list_elem_of_In. }
  destruct (prune && negb (bool_decide (stale = []))) eqn:E; simplify_eq.
  - assert (Hrow : forall r, r ∈ rows (drop_range_reservations range_id kind stale d) <->
      r ∈ rows d /\ ~ (r_range r = Some range_id /\ r_kind r = kind /\ r_holder r ∈ stale)).
    { intros r. unfold drop_range_reservations. rewrite elem_of_delete. unfold of_range.
      rewrite !andb_false_iff, !bool_decide_eq_false, String.eqb_neq.
      destruct (decide (r_range r = Some range_id)), (decide (r_kind r = kind)), (decide (r_holder r ∈ stale)); tauto. }
    split; [|split; [by apply inv_delete|split; [done|]]].
    + intros h v. rewrite map_lookup_filter_Some. simpl. rewrite (Hm h v). unfold holds. split.
      * intros [(r & Hr & H1 & H2 & H3 & H4 & H5) Hh]. exists r. rewrite Hrow, H4. split; [|done].
        split; [done|]. intros (_ & _ & Hx). by apply Hst in Hx as [? _].
      * intros (r & Hr & H1 & H2 & H3 & H4 & H5). apply Hrow in Hr as [Hr Hn]. split; [by exists r|].
        destruct (decide (h ∈ holders)); [done|]. exfalso. apply Hn. rewrite H4, Hst.
        split; [done|split; [done|split; [done|]]]. exists v. by exists r.
    + split; [intros r Hr; by apply Hrow in Hr as [? _]|]. split; [|split; [|split]].
      * intros r Hr. rewrite Hrow. tauto.
      * intros _ h [v Hv]. by apply map_lookup_filter_Some in Hv as [_ ?].
      * intros h v Hh Hv. apply map_lookup_filter_Some. split; [by apply Hm|done].
      * intros ->. done.
  - split; [done|split; [done|split; [done|split; [done|split; [done|split]]]]].
    + intros -> h [v Hv]. simpl in E. apply negb_false_iff, bool_decide_eq_true in E.
      destruct (decide (h ∈ holders)) as [|Hn]; [done|]. exfalso.
      assert (h ∈ stale) as Hx by (apply Hst; split; [done|]; exists v; by apply Hm).
      rewrite E in Hx. by apply elem_of_nil in Hx.
    + split; [|done]. intros h v _ Hv. by apply Hm.
Qed.

Lemma elem_of_string_sorted x l : x ∈ string_sorted l <-> x ∈ l.
Proof. unfold string_sorted. by rewrite elem_of_py_sorted, elem_of_fromkeys. Qed.

Lemma string_sorted_nil l : string_sorted l = [] <-> l = [].
Proof.
  split; [|by intros ->]. intros H. destruct l as [|x l]; [done|].
  assert (x ∈ string_sorted (x :: l)) as Hx by (apply elem_of_string_sorted; left).
  rewrite H in Hx. by apply elem_of_nil in Hx.
Qed.

Lemma filter_nil_iff {A} (p : A -> bool) l : List.filter p l = [] <-> forall x, x ∈ l -> p x = false.
Proof.
  split.
  - intros H x Hx. destruct (p x) eqn:E; [|done].
    assert (x ∈ List.filter p l) as Hin by (apply list_elem_of_In, filter_In; by rewrite <- list_elem_of_In).
    rewrite H in Hin. by apply elem_of_nil in Hin.
  - induction l as [|y l IH]; intros H; [done|]. simpl. rewrite (H y) by left.
    apply IH. intros x Hx. apply H. by right.
Qed.

(** The two checks on what the range already holds. *)
Lemma elsewhere_nil d range_id domain kind :
  string_sorted (List.filter (fun x => negb (String.eqb x domain)) (map snd (range_reservations d range_id kind))) = [] <->
  (forall r, r ∈ rows d -> r_range r = Some range_id -> r_kind r = kind -> r_domain r = domain).
Proof.
  rewrite string_sorted_nil, filter_nil_iff. split.
  - intros H r Hr H1 H2. specialize (H (r_domain r)). rewrite negb_false_iff, String.eqb_eq in H. apply H.
    apply list_elem_of_In, in_map_iff. exists (r_holder r, r_value r, r_domain r). split; [done|].
    apply list_elem_of_In, elem_of_range_reservations. by exists r.
  - intros H dom Hin. apply list_elem_of_In, in_map_iff in Hin as ([[h v] dom'] & <- & Hin).
    apply list_elem_of_In, elem_of_range_reservations in Hin as (r & Hr & H1 & H2 & H3 & _).
    rewrite negb_false_iff, String.eqb_eq. simpl. rewrite <- H2. by apply H.
Qed.

Lemma held_nil (mine : dict) (excluded : list string) :
  string_sorted (List.filter (fun v => bool_decide (v ∈ excluded)) (map snd (map_to_list mine))) = [] <->
  (forall h v, mine !! h = Some v -> v ∉ excluded).
Proof.
  rewrite string_sorted_nil, filter_nil_iff. split.
  - intros H h v Hm. specialize (H v). rewrite bool_decide_eq_false in H. apply H.
    apply list_elem_of_In, in_map_iff. exists (h, v). split; [done|]. by apply list_elem_of_In, elem_of_map_to_list.
  - intros H v Hin. apply list_elem_of_In, in_map_iff in Hin as ([h v'] & <- & Hin).
    rewrite bool_decide_eq_false. by eapply H, elem_of_map_to_list, list_elem_of_In.
Qed.

(** A live range: recorded, and not destroyed. *)
Definition live_range (d : db) (range_id : string) : Prop :=
  exists g, ranges d !! range_id = Some g /\ g_state g <> "destroyed"%string.

(** Everything [reserve_values] promises when it returns. *)
Record reserved (d : db) (range_id domain kind : string) (pool holders : list string) (prune : bool)
    (excluded : list string) (m : dict) (d' : db) : Prop := {
  res_exact : forall h v, m !! h = Some v <-> h ∈ holders /\ holds d' range_id domain kind h v;
  res_all : forall h, h ∈ holders -> is_Some (m !! h);
  res_keeps : forall h v, h ∈ holders -> holds d range_id domain kind h v -> m !! h = Some v;
  res_excluded : forall h v, holds d' range_id domain kind h v -> v ∉ excluded;
  res_fresh : forall h v, m !! h = Some v -> ~ holds d range_id domain kind h v ->
    v ∈ pool /\ forall r, r ∈ rows d -> r_domain r = domain -> r_kind r = kind -> r_value r = v ->
      of_destroyed d r = true \/ r_range r = Some range_id /\ r_holder r ∉ holders;
  res_prune : prune = true -> forall h v, holds d' range_id domain kind h v -> h ∈ holders;
  res_domain : forall r, r ∈ rows d' -> r_range r = Some range_id -> r_kind r = kind -> r_domain r = domain;
  res_inv : inv d';
  res_ranges : ranges d' = ranges d;
  res_others : forall r, r_range r <> Some range_id -> of_destroyed d r = false -> r ∈ rows d' <-> r ∈ rows d
}.

Section ReserveValues.
Context (d : db) (range_id domain kind : string) (pool holders : list string) (prune : bool).
Context (excluded : list string) (now : Z).
Context (Hinv : inv d) (Hpool : NoDup pool) (Hlive : live_range d range_id).

Lemma reserve_values_ok m d' :
  reserve_values d range_id domain kind pool holders prune excluded now = Ok (m, d') ->
  reserved d range_id domain kind pool holders prune excluded m d'.
Proof using All.
  intros H. unfold reserve_values in H. destruct (String.eqb domain ""); [done|].
  case_bool_decide as He; [|done]. simpl in H. pose proof (proj1 (elsewhere_nil _ _ _ _) He) as Hd.
  destruct (prune_stale d range_id kind holders prune) as [mine d1] eqn:Ep.
  destruct (prune_stale_spec _ _ domain _ _ _ _ _ Hinv Hd Ep) as (Hm & Hi1 & Hr1 & Hsub & Hoth & Hpr & Hkeep & _).
  case_bool_decide as Hh; [|done]. simpl in H. pose proof (proj1 (held_nil _ _) Hh) as Hex.
  destruct Hlive as (g & Hg & Hgs). rewrite <- Hr1 in Hg.
  assert (Hd1 : forall r, r ∈ rows d1 -> r_range r = Some range_id -> r_kind r = kind -> r_domain r = domain).
  { intros r Hr. by apply Hd, Hsub. }
  destruct (hand_out_spec d1 range_id domain kind pool holders excluded now mine g Hi1 Hg Hgs Hm Hd1 Hpool m d' H)
    as (S1 & S2 & S3 & S4 & S5 & S6 & S7 & S8).
  assert (Hofd : forall r, of_destroyed d1 r = of_destroyed d r).
  { intros r. unfold of_destroyed, state_of. by rewrite Hr1. }
  assert (Hold : forall h v, mine !! h = Some v -> holds d range_id domain kind h v).
  { intros h v (r & Hr & Hx)%Hm. exists r. split; [by apply Hsub|done]. }
  split; try done; try congruence.
  - intros h v Hin Hv. apply S1. split; [done|]. by apply S4, Hkeep.
  - intros h v Hv. destruct (S3 h v Hv) as [Hv'|(_ & _ & Hx & _)]; [by eapply Hex|done].
  - intros h v [Hin Hv]%S1 Hn. destruct (S3 h v Hv) as [Hv'|(_ & Hp & _ & Hf)]; [by apply Hold in Hv'|].
    split; [done|]. intros r Hr H1 H2 H3.
    destruct (decide (r ∈ rows d1)) as [Hr1'|Hr1']; [left; rewrite <- Hofd; by apply Hf|right].
    destruct (decide (r_range r = Some range_id)) as [Hrg|Hrg]; [|by apply (Hoth r Hrg) in Hr].
    split; [done|]. intros Hh'. apply Hr1'.
    assert (mine !! r_holder r = Some (r_value r)) as Hm' by (apply Hkeep; [done|]; by exists r).
    destruct Hold with (r_holder r) (r_value r) as (r2 & Hr2 & Hx); [done|].
    apply Hm in Hm' as (r3 & Hr3 & Y1 & Y2 & Y3 & Y4 & Y5). pose proof Hr3 as Hr3'. apply Hsub in Hr3'.
    destruct Hinv as (Hv1 & _). assert (r3 = r) as <-; [|done].
    eapply (unique_by_inj value_key _ _ _ _ Hv1 Hr3' Hr); [done|]. unfold value_key. congruence.
  - intros Hp h v Hv. destruct (S3 h v Hv) as [Hv'|(? & _)]; [|done]. apply Hpr; [done|]. by eexists.
  - intros r Hr Hof. rewrite S8, Hoth by (done || by rewrite Hofd). done.
Qed.

Lemma reserve_values_err e :
  reserve_values d range_id domain kind pool holders prune excluded now = Err e ->
  match e with
  | ValueError => domain = ""%string
  | DomainChangedError l => exists dom h v, dom ∈ l /\ dom <> domain /\ holds d range_id dom kind h v
  | ReservedNetworkError l => exists h v, v ∈ l /\ v ∈ excluded /\ holds d range_id domain kind h v
  | PoolExhaustedError free total needed =>
      free < needed /\ total = zlen pool /\
      exists fs, zlen fs = free /\ NoDup fs /\ (forall v, v ∈ fs -> v ∈ pool /\ v ∉ excluded) /\
        (forall v, v ∈ pool -> v ∉ excluded -> free_value d domain kind v -> v ∈ fs)
  | _ => False
  end.
Proof using All.
  intros H. unfold reserve_values in H.
  destruct (String.eqb domain "") eqn:Ed; [simplify_eq; by apply String.eqb_eq|].
  case_bool_decide as He; simpl in H.
  - pose proof (proj1 (elsewhere_nil _ _ _ _) He) as Hd.
    destruct (prune_stale d range_id kind holders prune) as [mine d1] eqn:Ep.
    destruct (prune_stale_spec _ _ domain _ _ _ _ _ Hinv Hd Ep) as (Hm & Hi1 & Hr1 & Hsub & _).
    case_bool_decide as Hh; simpl in H.
    + destruct Hlive as (g & Hg & Hgs). rewrite <- Hr1 in Hg.
      assert (Hd1 : forall r, r ∈ rows d1 -> r_range r = Some range_id -> r_kind r = kind -> r_domain r = domain).
      { intros r Hr. by apply Hd, Hsub. }
      rewrite (hand_out_eq d1 range_id domain kind pool holders excluded now mine g) in H by done.
      case_bool_decide; [done|]. destruct (Nat.ltb_spec (length (free_of d1 domain kind pool excluded))
        (length (needed_of mine holders))) as [Hlt|?]; [|done].
      simplify_eq. split; [unfold zlen; lia|]. split; [done|].
      exists (free_of d1 domain kind pool excluded). split; [done|]. split; [by apply free_of_nodup|]. split.
      * intros v Hv%free_of_spec. tauto.
      * intros v Hp Hx Hf. apply free_of_spec. split; [done|split; [done|]]. intros r Hr H1 H2 H3.
        unfold of_destroyed, state_of. rewrite Hr1. by apply (Hf r (Hsub r Hr)).
    + simplify_eq. destruct (not_nil_elem _ Hh) as [v Hv]. pose proof Hv as Hin. rewrite elem_of_string_sorted in Hv.
      apply list_elem_of_In, filter_In in Hv as [Hv Hx%bool_decide_eq_true].
      apply in_map_iff in Hv as ([h v'] & <- & Hin'%list_elem_of_In%elem_of_map_to_list).
      apply Hm in Hin' as (r & Hr & Hrest). exists h, v'. split; [done|]. split; [done|]. exists r. auto.
  - simplify_eq. destruct (not_nil_elem _ He) as [dom Hv]. pose proof Hv as Hin0. rewrite elem_of_string_sorted in Hv.
    apply list_elem_of_In, filter_In in Hv as [Hv Hx%negb_true_iff%String.eqb_neq].
    apply in_map_iff in Hv as ([[h v] dom'] & <- & Hin%list_elem_of_In%elem_of_range_reservations).
    exists dom', h, v. done.
Qed.

(** Asked again, the same reservation: the same answer, and nothing changes. *)
Lemma reserve_values_again m d' :
  reserve_values d range_id domain kind pool holders prune excluded now = Ok (m, d') ->
  reserve_values d' range_id domain kind pool holders prune excluded now = Ok (m, d').
Proof using All.
  intros H. pose proof (reserve_values_ok m d' H) as R. unfold reserve_values in *.
  destruct (String.eqb domain ""); [done|]. clear H.
  rewrite (bool_decide_eq_true_2 _ (proj2 (elsewhere_nil _ _ _ _) (res_domain _ _ _ _ _ _ _ _ _ _ R))). simpl.
  destruct (prune_stale d' range_id kind holders prune) as [mine d1] eqn:Ep.
  assert (d1 = d') as ->.
  { unfold prune_stale in Ep. destruct prune eqn:Epr; simpl in Ep; [|by simplify_eq].
    rewrite bool_decide_eq_true_2 in Ep; [by simplify_eq/=|]. apply filter_nil_iff.
    intros h Hin. apply list_elem_of_In, in_map_iff in Hin as ([[h' v] dom] & <- & Hin).
    apply list_elem_of_In, elem_of_range_reservations in Hin as (r & Hr & H1 & H2 & H3 & H4).
    rewrite negb_false_iff, bool_decide_eq_true. eapply (res_prune _ _ _ _ _ _ _ _ _ _ R); [done|].
    exists r. rewrite (res_domain _ _ _ _ _ _ _ _ _ _ R r Hr H1 H3). done. }
  destruct (prune_stale_spec _ _ domain _ _ _ _ _ (res_inv _ _ _ _ _ _ _ _ _ _ R)
    (res_domain _ _ _ _ _ _ _ _ _ _ R) Ep) as (Hm & _ & _ & _ & _ & _ & Hkeep & _).
  rewrite (bool_decide_eq_true_2 (string_sorted _ = [])); simpl.
  - unfold hand_out. rewrite bool_decide_eq_true_2.
    + f_equal. f_equal. apply map_eq. intros h. apply option_eq. intros v.
      rewrite pick_spec, (res_exact _ _ _ _ _ _ _ _ _ _ R). unfold mine_ok in Hm. by rewrite Hm.
    + apply filter_nil_iff. intros h Hh. rewrite elem_of_fromkeys in Hh. rewrite negb_false_iff, bool_decide_eq_true.
      destruct (res_all _ _ _ _ _ _ _ _ _ _ R h Hh) as [v Hv]. exists v.
      apply Hm. by apply (res_exact _ _ _ _ _ _ _ _ _ _ R).
  - apply held_nil. intros h v Hv%Hm. by apply (res_excluded _ _ _ _ _ _ _ _ _ _ R h v).
Qed.
End ReserveValues.

(** ** Every transaction keeps the constraints *)

Lemma insert_reservations_inv range_id domain kind vs now d d' :
  inv d -> insert_reservations range_id domain kind vs now d = Ok d' -> inv d'.
Proof. unfold insert_reservations. intros Hi H. case_match; [|done].
  eapply insert_rows_inv; [|exact Hi|exact H]; done.
Qed.

Lemma prune_stale_inv d range_id kind holders prune mine d1 :
  inv d -> prune_stale d range_id kind holders prune = (mine, d1) -> inv d1.
Proof. unfold prune_stale. intros Hi H. case_match; simplify_eq; [by apply inv_delete|done]. Qed.

Lemma hand_out_inv d mine range_id domain kind pool holders excluded now m d' :
  inv d -> hand_out d mine range_id domain kind pool holders excluded now = Ok (m, d') -> inv d'.
Proof.
  unfold hand_out. intros Hi H. case_bool_decide; [by simplify_eq|]. simpl in H.
  case_match; [done|]. destruct (insert_reservations _ _ _ _ _ _) as [d3|] eqn:E; [|done]. simplify_eq/=.
  eapply insert_reservations_inv; [|exact E]. by apply inv_delete.
Qed.

Lemma reserve_values_inv d range_id domain kind pool holders prune excluded now m d' :
  inv d -> reserve_values d range_id domain kind pool holders prune excluded now = Ok (m, d') -> inv d'.
Proof.
  unfold reserve_values. intros Hi H. destruct (String.eqb domain ""); [done|].
  destruct (negb _); [done|]. destruct (prune_stale _ _ _ _ _) as [mine d1] eqn:E.
  destruct (negb _); [done|]. eapply hand_out_inv; [|exact H]. by eapply prune_stale_inv.
Qed.

Lemma api_reserve_inv d range_id domain kind pool holders now m d' :
  inv d -> api_reserve d range_id domain kind pool holders now = Ok (m, d') -> inv d'.
Proof.
  unfold api_reserve. intros Hi H. destruct (negb _); [done|]. destruct (String.eqb domain ""); [done|].
  case_bool_decide; [by simplify_eq|]. case_match; [done|].
  destruct (insert_reservations _ _ _ _ _ _) as [d3|] eqn:E; [|done]. simplify_eq/=.
  eapply insert_reservations_inv; [|exact E]. by apply inv_delete.
Qed.

Lemma sync_inv d range_id domain kind pool holders now m d' :
  inv d -> sync d range_id domain kind pool holders now = Ok (m, d') -> inv d'.
Proof.
  unfold sync. intros Hi H. case_bool_decide; [simplify_eq; by apply inv_delete|].
  eapply api_reserve_inv; [|exact H]. by apply inv_delete.
Qed.

Lemma record_external_inv d u now w d' : inv d -> record_external d u now = Ok (w, d') -> inv d'.
Proof.
  unfold record_external. intros Hi H. cbn [taken_reservation_values] in H.
  simpl in H. unfold insert_external_reservations in H.
  match type of H with context [insert_rows ?mk ?items ?d4] => destruct (insert_rows mk items d4) as [d5|] eqn:E end;
    [|done]. simplify_eq/=. eapply insert_rows_inv; [|..|exact E]; [done|].
  apply inv_touch. destruct (u_read_at u); repeat apply inv_delete; done.
Qed.

Lemma merge_range_output_rows range_id up d :
  rows (merge_range_output range_id up d) = rows d /\ next_id (merge_range_output range_id up d) = next_id d.
Proof. unfold merge_range_output. by case_match. Qed.

Lemma drop_range_networks_rows range_id vs d :
  rows (drop_range_networks range_id vs d) = rows d /\ next_id (drop_range_networks range_id vs d) = next_id d.
Proof. unfold drop_range_networks. repeat case_match; try done; apply merge_range_output_rows. Qed.

Lemma inv_eq d d' : rows d' = rows d -> next_id d' = next_id d -> inv d -> inv d'.
Proof. unfold inv. by intros -> ->. Qed.

Lemma release_conflict_inv d range_id c now d' : inv d -> release_conflict d range_id c now = Ok d' -> inv d'.
Proof.
  unfold release_conflict. intros Hi H. simpl in H. unfold insert_external_reservations in H.
  eapply insert_rows_inv; [|..|exact H]; [done|]. apply inv_delete.
  match goal with |- inv (drop_range_networks ?a ?b ?d0) =>
    destruct (drop_range_networks_rows a b d0) as [H1 H2]; apply (inv_eq _ _ H1 H2) end.
  by apply inv_delete.
Qed.

(** The transactions, in any order, and any change to the ranges. *)
Inductive step : db -> db -> Prop :=
| step_reserve d range_id domain kind pool holders prune excluded now m d' :
    reserve_values d range_id domain kind pool holders prune excluded now = Ok (m, d') -> step d d'
| step_record d u now w d' : record_external d u now = Ok (w, d') -> step d d'
| step_conflict d range_id c now d' : release_conflict d range_id c now = Ok d' -> step d d'
| step_destroyed d range_id : step d (release_after_destroy d range_id).2
| step_api_reserve d range_id domain kind pool holders now m d' :
    api_reserve d range_id domain kind pool holders now = Ok (m, d') -> step d d'
| step_sync d range_id domain kind pool holders now m d' :
    sync d range_id domain kind pool holders now = Ok (m, d') -> step d d'
| step_release d range_id : step d (release_range d range_id).2
| step_ranges d g : step d (set_ranges g d).

Inductive reachable : db -> Prop :=
| reachable_empty g : reachable (Db [] g 0)
| reachable_step d d' : reachable d -> step d d' -> reachable d'.

Lemma step_inv d d' : step d d' -> inv d -> inv d'.
Proof.
  intros [] Hi; [by eapply reserve_values_inv|by eapply record_external_inv|by eapply release_conflict_inv|
    by apply inv_delete|by eapply api_reserve_inv|by eapply sync_inv|by apply inv_delete|done].
Qed.

Lemma reachable_inv d : reachable d -> inv d.
Proof.
  induction 1 as [g|d d' _ IH Hs]; [|by eapply step_inv].
  unfold inv, unique_by; simpl. repeat split; constructor.
Qed.

(** ** A live read, recorded *)

Definition recorded_want (d : db) (u : usage) : list (string * string) :=
  let held := range_held_values (free_destroyed (u_domain u) (u_kind u) d) (u_domain u) (u_kind u) in
  List.filter (fun vh => negb (bool_decide (vh.1 ∈ held))) (want_of u held).

(** The database just before the new external rows go in. *)
Definition refreshed (d : db) (u : usage) (now : Z) : db :=
  let d1 := free_destroyed (u_domain u) (u_kind u) d in
  let prefix := source_prefix u in
  let d2 := expire_external (u_domain u) (u_kind u) prefix (now - EXTERNAL_TTL) d1 in
  let ours := List.filter (fun r => startswith prefix (r_holder r)) (external_reservations d2 (u_domain u) (u_kind u)) in
  let wanted r := bool_decide (r_value r ∈ map fst (recorded_want d u)) in
  let d3 := match u_read_at u with
            | Some read_at => drop_reservation_ids (map r_id (List.filter (fun r => negb (wanted r)) ours)) read_at d2
            | None => d2 end in
  touch_reservation_ids (map r_id (List.filter wanted ours)) (default now (u_read_at u)) d3.

Definition new_external (d : db) (u : usage) (now : Z) : list (string * string) :=
  List.filter (fun vh => negb (bool_decide (vh.1 ∈ map r_value (external_reservations (refreshed d u now) (u_domain u) (u_kind u)))))
    (recorded_want d u).

Lemma record_external_eq d u now :
  record_external d u now =
  (d5 ← insert_external_reservations (u_domain u) (u_kind u) (new_external d u now) (default now (u_read_at u))
          (refreshed d u now);
   Ok (recorded_want d u, d5)).
Proof. done. Qed.

(** What [refreshed] keeps of a row: everything but [r_seen]. *)
Definition row_same (r r' : row) : Prop :=
  r_id r = r_id r' /\ r_range r = r_range r' /\ r_domain r = r_domain r' /\ r_kind r = r_kind r' /\
  r_value r = r_value r' /\ r_holder r = r_holder r'.

Lemma touch_row_same ids at_ r : row_same r (touch_row ids at_ r).
Proof. unfold touch_row, row_same. by destruct (_ && _). Qed.

Lemma refreshed_ranges d u now : ranges (refreshed d u now) = ranges d.
Proof. unfold refreshed. by destruct (u_read_at u). Qed.

Lemma refreshed_from d u now r' :
  r' ∈ rows (refreshed d u now) ->
  exists r, r ∈ rows d /\ row_same r r' /\ same (u_domain u) (u_kind u) r && of_destroyed d r = false.
Proof.
  unfold refreshed. intros Hr. apply list_elem_of_fmap in Hr as (r & -> & Hr).
  exists r.
  assert (r ∈ rows (free_destroyed (u_domain u) (u_kind u) d)) as Hr1.
  { destruct (u_read_at u); [apply elem_of_delete in Hr as [Hr _]|]; by apply elem_of_delete in Hr as [Hr _]. }
  apply elem_of_free_destroyed in Hr1 as [? ?]. split; [done|]. split; [apply touch_row_same|done].
Qed.

Lemma in_ours ids u d r :
  ids = List.filter (fun r => startswith (source_prefix u) (r_holder r)) (external_reservations d (u_domain u) (u_kind u)) ->
  r ∈ ids -> r ∈ rows d /\ is_external r = true /\ same (u_domain u) (u_kind u) r = true.
Proof.
  intros -> H. apply list_elem_of_In, filter_In in H as [H _].
  unfold external_reservations in H. apply filter_In in H as [H [? ?]%andb_true_iff].
  by apply list_elem_of_In in H.
Qed.

(** A live range's row stays as it is; so does an external row seen at or after the read. *)
Lemma refreshed_keeps d u now r :
  inv d -> r ∈ rows d -> same (u_domain u) (u_kind u) r && of_destroyed d r = false ->
  is_external r = false \/
    (startswith (source_prefix u) (r_holder r) = true /\
     forall at_, u_read_at u = Some at_ -> at_ <= r_seen r \/ r_value r ∈ map fst (recorded_want d u)) ->
  exists r', r' ∈ rows (refreshed d u now) /\ row_same r r'.
Proof.
  intros Hi Hr Hd Hk. unfold refreshed. eexists. split; [apply list_elem_of_fmap_2|apply touch_row_same].
  assert (Hr2 : r ∈ rows (expire_external (u_domain u) (u_kind u) (source_prefix u) (now - EXTERNAL_TTL)
    (free_destroyed (u_domain u) (u_kind u) d))).
  { apply elem_of_delete. split; [by apply elem_of_free_destroyed|].
    destruct Hk as [Hk|[Hk _]]; rewrite Hk; by rewrite ?andb_false_r. }
  destruct (u_read_at u) as [at_|] eqn:Ea; [|done].
  apply elem_of_delete. split; [done|]. apply andb_false_iff.
  match goal with |- bool_decide ?P = false \/ _ => destruct (bool_decide P) eqn:E end; [right|by left].
  apply bool_decide_eq_true in E. apply list_elem_of_In, in_map_iff in E as (r2 & Hid & Hin).
  apply filter_In in Hin as [Hin Hnw]. apply list_elem_of_In in Hin.
  destruct (in_ours _ _ _ _ eq_refl Hin) as (Hr3 & Hext & _).
  assert (r2 = r) as ->.
  { apply elem_of_delete in Hr3 as [Hr3 _]. apply elem_of_free_destroyed in Hr3 as [Hr3 _].
    destruct Hi as (_ & _ & Hu & _). eapply (unique_by_inj id_key _ _ _ _ Hu Hr3 Hr); [done|].
    unfold id_key. by rewrite Hid. }
  destruct Hk as [Hk|[_ Hk]]; [congruence|]. destruct (Hk _ eq_refl) as [Hs|Hs].
  - by apply Z.ltb_ge.
  - rewrite bool_decide_eq_true_2 in Hnw by done. done.
Qed.

Lemma want_keys u held :
  NoDup (u_foreign u).*1 -> NoDup (u_managed u).*1 -> NoDup (want_of u held).*1.
Proof.
  intros Hf Hm. unfold want_of. rewrite fmap_app. apply NoDup_app.
  assert (E1 : forall (g : string * string -> string) (l : list (string * string)), (map (fun vn => (vn.1, g vn)) l).*1 = l.*1).
  { intros g l. induction l as [|x l IH]; simpl; [done|]. by f_equal. }
  rewrite (E1 (fun vn => source_prefix u +:+ vn.2)),
    (E1 (fun vn => source_prefix u +:+ vn.2 +:+ " (orphaned TrueNorth port group)")).
  split; [done|]. split.
  - intros v Hv Hv'. apply list_elem_of_fmap in Hv' as (x & -> & Hx).
    apply list_elem_of_In, filter_In in Hx as [_ [_ Hx]%andb_true_iff].
    apply negb_true_iff, bool_decide_eq_false in Hx. by apply Hx.
  - induction (u_managed u) as [|x l IH]; simpl in *; [constructor|]. apply NoDup_cons in Hm as [Hx Hm].
    case_match; [|by apply IH]. simpl. constructor; [|by apply IH]. contradict Hx.
    apply list_elem_of_fmap in Hx as (y & -> & Hy). apply list_elem_of_In, filter_In in Hy as [Hy _].
    apply list_elem_of_fmap_2. by apply list_elem_of_In.
Qed.

Lemma NoDup_fmap_filter {A B} (f : A -> B) (p : A -> bool) l : NoDup (f <$> l) -> NoDup (f <$> List.filter p l).
Proof.
  induction l as [|x l IH]; simpl; [done|]. rewrite NoDup_cons. intros [Hx Hl].
  destruct (p x); simpl; [|by apply IH]. constructor; [|by apply IH]. contradict Hx.
  apply list_elem_of_fmap in Hx as (y & -> & Hy). apply list_elem_of_In, filter_In in Hy as [Hy _].
  apply list_elem_of_fmap_2. by apply list_elem_of_In.
Qed.

Lemma range_held_spec d domain kind v :
  v ∈ range_held_values d domain kind <->
  exists r, r ∈ rows d /\ same domain kind r = true /\ is_external r = false /\ r_value r = v.
Proof.
  unfold range_held_values. rewrite list_elem_of_fmap. split.
  - intros (r & -> & Hr). apply list_elem_of_In, filter_In in Hr as [Hr [Hs He%negb_true_iff]%andb_true_iff].
    exists r. by rewrite list_elem_of_In.
  - intros (r & Hr & Hs & He & <-). exists r. split; [done|]. apply list_elem_of_In, filter_In.
    rewrite <- list_elem_of_In, Hs, He. done.
Qed.

Lemma external_spec d domain kind v :
  v ∈ map r_value (external_reservations d domain kind) <->
  exists r, r ∈ rows d /\ same domain kind r = true /\ is_external r = true /\ r_value r = v.
Proof.
  unfold external_reservations. rewrite list_elem_of_In, in_map_iff. split.
  - intros (r & <- & Hr). apply filter_In in Hr as [Hr [Hs He]%andb_true_iff].
    exists r. by rewrite list_elem_of_In.
  - intros (r & Hr & Hs & He & <-). exists r. split; [done|]. apply filter_In.
    rewrite <- list_elem_of_In, Hs, He. done.
Qed.

Lemma fits_keys (mk : Z -> string * string -> row) items d :
  (forall it n r, it ∈ items -> r ∈ rows d -> conflicts_with (mk n it) r = false) ->
  (forall it it' n n', it.1 <> it'.1 -> conflicts_with (mk n' it') (mk n it) = false) ->
  NoDup items.*1 -> fits mk items d.
Proof.
  intros Hd Hp H1. split; [done|]. clear Hd. induction items as [|it items IH]; [constructor|].
  simpl in *. apply NoDup_cons in H1 as [N1 H1]. constructor; [|by apply IH].
  apply Forall_forall. intros it' Hit' n n'. apply Hp.
  contradict N1. rewrite N1. by apply list_elem_of_fmap_2.
Qed.

Lemma new_external_fits d u now :
  NoDup (u_foreign u).*1 -> NoDup (u_managed u).*1 ->
  fits (external_row (u_domain u) (u_kind u) (default now (u_read_at u))) (new_external d u now) (refreshed d u now).
Proof.
  intros Hf Hm. apply fits_keys.
  - intros [v h] n r Hit Hr. apply conflicts_with_false. split; [|by left]. unfold value_key; simpl. intros ?; simplify_eq.
    unfold new_external in Hit. apply list_elem_of_In, filter_In in Hit as [Hit Hp].
    apply negb_true_iff, bool_decide_eq_false in Hp. apply filter_In in Hit as [_ Hh].
    apply negb_true_iff, bool_decide_eq_false in Hh. simpl in *.
    assert (Hs : same (u_domain u) (u_kind u) r = true) by (by apply same_spec).
    destruct (is_external r) eqn:E.
    + apply Hp, external_spec. by exists r.
    + destruct (refreshed_from _ _ _ _ Hr) as (r0 & Hr0 & (S1 & S2 & S3 & S4 & S5 & S6) & Hd).
      apply Hh, range_held_spec. exists r0. split; [by apply elem_of_free_destroyed|].
      unfold is_external in *. rewrite S2. split; [apply same_spec; split; congruence|]. split; [done|congruence].
  - intros [v h] [v' h'] n n' Hv. apply conflicts_with_false. split; [|by left]. unfold value_key; simpl in *. congruence.
  - by apply NoDup_fmap_filter, NoDup_fmap_filter, want_keys.
Qed.

Lemma want_foreign u held v : v ∈ (u_foreign u).*1 -> v ∈ (want_of u held).*1.
Proof.
  unfold want_of. rewrite fmap_app, elem_of_app. intros H; left.
  apply list_elem_of_fmap in H as (x & -> & Hx). apply list_elem_of_fmap. exists (x.1, source_prefix u +:+ x.2).
  split; [done|]. apply list_elem_of_In, in_map_iff. exists x. by rewrite <- list_elem_of_In.
Qed.

Lemma new_or_present d u now v :
  v ∈ (recorded_want d u).*1 ->
  v ∈ map r_value (external_reservations (refreshed d u now) (u_domain u) (u_kind u)) \/
  v ∈ (new_external d u now).*1.
Proof.
  intros Hv. destruct (decide (v ∈ map r_value (external_reservations (refreshed d u now) (u_domain u) (u_kind u))));
    [by left|right].
  apply list_elem_of_fmap in Hv as (x & -> & Hx). apply list_elem_of_fmap_2.
  apply list_elem_of_In, filter_In. rewrite <- list_elem_of_In, negb_true_iff, bool_decide_eq_false. done.
Qed.

(** ** The API's allocator *)

Lemma zip_take {A B} (l : list A) (k : list B) : zip l (take (length l) k) = zip l k.
Proof. revert k; induction l as [|x l IH]; intros [|y k]; simpl; try done. f_equal. apply IH. Qed.

Lemma api_mine d range_id domain kind :
  (forall r, r ∈ rows d -> r_range r = Some range_id -> r_kind r = kind -> r_domain r = domain) ->
  map (fun r => (r_holder r, r_value r))
    (List.filter (fun r => of_range range_id r && String.eqb (r_kind r) kind && String.eqb (r_domain r) domain) (rows d)) =
  map fst (range_reservations d range_id kind).
Proof.
  intros Hd. unfold range_reservations. rewrite map_map. simpl. f_equal. apply filter_ext_in.
  intros r Hr%list_elem_of_In. destruct (of_range range_id r && String.eqb (r_kind r) kind) eqn:E; [|done].
  apply andb_true_iff in E as [E1%bool_decide_eq_true E2%String.eqb_eq]. simpl. apply String.eqb_eq. by apply Hd.
Qed.

(** No two rows that the constraints forbid. *)
Lemma inv_exclusive d r r' :
  inv d -> r ∈ rows d -> r' ∈ rows d ->
  (r_domain r = r_domain r' /\ r_kind r = r_kind r' /\ r_value r = r_value r') \/
  (r_range r = r_range r' /\ is_external r = false /\ r_kind r = r_kind r' /\ r_holder r = r_holder r') ->
  r = r'.
Proof.
  intros (Hv & Hh & _) Hr Hr' [(E1 & E2 & E3)|(E1 & E2 & E3 & E4)].
  - eapply (unique_by_inj value_key _ _ _ _ Hv Hr Hr'); [done|]. unfold value_key. congruence.
  - unfold is_external in E2. apply bool_decide_eq_false in E2. destruct (r_range r) as [g|] eqn:Eg; [|done].
    eapply (unique_by_inj holder_key _ _ _ _ Hh Hr Hr'); unfold holder_key; [by rewrite Eg|].
    rewrite <- E1. simpl. congruence.
Qed.

Lemma record_external_ok d u now :
  NoDup (u_foreign u).*1 -> NoDup (u_managed u).*1 -> exists x, record_external d u now = Ok x.
Proof.
  intros Hf Hm. rewrite record_external_eq. unfold insert_external_reservations.
  destruct (insert_rows_ok _ _ _ (new_external_fits d u now Hf Hm)) as [d' ->]. by eexists.
Qed.

Lemma external_new (d : db) (domain kind : string) (items : list (string * string)) (now : Z) :
  NoDup items.*1 -> (forall v, v ∈ items.*1 -> v ∉ values_in d domain kind) ->
  exists d', insert_external_reservations domain kind items now d = Ok d'.
Proof.
  intros Hn Hf. apply insert_rows_ok, fits_keys; [|by intros [v h] [v' h'] n n' Hv; apply conflicts_with_false;
    split; [|by left]; unfold value_key; simpl in *; congruence|done].
  intros [v h] n r Hit Hr. apply conflicts_with_false. split; [|by left]. unfold value_key; simpl. intros ?; simplify_eq.
  apply (Hf (r_value r)); [exact (list_elem_of_fmap_2 fst _ _ Hit)|]. apply values_in_spec. by exists r.
Qed.

Lemma release_conflict_ok d range_id c now :
  NoDup (c_vlans c).*1 -> exists d', release_conflict d range_id c now = Ok d'.
Proof.
  intros Hn. unfold release_conflict. cbn [drop_range_values taken_reservation_values]. apply external_new.
  - match goal with |- NoDup (map ?f ?l).*1 => assert ((map f l).*1 = pretty <$> l.*1) as -> end.
    { match goal with |- _ = pretty <$> ?items.*1 => induction items as [|x its IH]; [done|] end. simpl. by f_equal. }
    apply NoDup_fmap_2; [apply _|]. by apply NoDup_fmap_filter.
  - intros v Hv. apply list_elem_of_fmap in Hv as (x & -> & Hx). apply list_elem_of_In, in_map_iff in Hx as (y & <- & Hy).
    apply filter_In in Hy as [_ Hy%negb_true_iff%bool_decide_eq_false]. done.
Qed.

(** *** The API's allocator and the worker's *)

(** The pool without the excluded values. *)
Definition usable (pool excluded : list string) : list string :=
  List.filter (fun v => negb (bool_decide (v ∈ excluded))) pool.

(** The same result, or the pool exhausted on both sides: only the size each was given differs. *)
Definition same_outcome (total total' : Z) (r r' : tx dict) : Prop :=
  match r, r' with
  | Ok x, Ok y => x = y
  | Err (PoolExhaustedError free t needed), Err (PoolExhaustedError free' t' needed') =>
      free = free' /\ needed = needed' /\ t = total /\ t' = total'
  | _, _ => False
  end.

Lemma api_reserve_eq d range_id domain kind pool holders now :
  kind ∈ KINDS -> domain <> ""%string ->
  (forall r, r ∈ rows d -> r_range r = Some range_id -> r_kind r = kind -> r_domain r = domain) ->
  api_reserve d range_id domain kind pool holders now =
  hand_out d (dict_of (map fst (range_reservations d range_id kind))) range_id domain kind pool holders [] now.
Proof.
  intros Hk He Hd. unfold api_reserve. rewrite (bool_decide_eq_true_2 _ Hk). simpl.
  rewrite (proj2 (String.eqb_neq _ _) He), api_mine by done. unfold hand_out. set (mine := dict_of _).
  fold (needed_of mine holders). case_bool_decide; [done|]. simpl.
  set (free := List.filter _ pool). rewrite !app_nil_r. fold free.
  destruct (zlen free <? zlen (needed_of mine holders)) eqn:E.
  - rewrite take_ge by (reflect_bools; unfold zlen in *; lia). by rewrite E.
  - assert ((zlen (take (length (needed_of mine holders)) free) <? zlen (needed_of mine holders)) = false) as ->.
    { apply Z.ltb_ge. apply Z.ltb_ge in E. unfold zlen in *. rewrite length_take. lia. }
    by rewrite zip_take.
Qed.

Lemma free_usable d domain kind pool excluded :
  free_of d domain kind (usable pool excluded) [] = free_of d domain kind pool excluded.
Proof.
  unfold free_of, usable. set (taken := (taken_reservation_values domain kind d).1). clearbody taken.
  induction pool as [|v pool IH]; [done|]. cbn [List.filter].
  destruct (decide (v ∈ excluded)) as [He|He].
  - rewrite (bool_decide_eq_true_2 _ He), (bool_decide_eq_true_2 (v ∈ taken ++ excluded)) by set_solver. exact IH.
  - rewrite (bool_decide_eq_false_2 _ He). cbn [negb List.filter]. rewrite IH.
    by rewrite (bool_decide_ext (v ∈ taken ++ excluded) (v ∈ taken ++ [])) by set_solver.
Qed.

Lemma usable_nodup pool excluded : NoDup pool -> NoDup (usable pool excluded).
Proof. intros H. by apply NoDup_ListNoDup, List.NoDup_filter, NoDup_ListNoDup. Qed.

(** Handing out of the usable values, and handing out of the pool what is not excluded. *)
Lemma hand_out_agree d range_id domain kind pool holders excluded now mine g :
  ranges d !! range_id = Some g -> g_state g <> "destroyed"%string -> inv d -> mine_ok d range_id domain kind mine ->
  (forall r, r ∈ rows d -> r_range r = Some range_id -> r_kind r = kind -> r_domain r = domain) -> NoDup pool ->
  same_outcome (zlen (usable pool excluded)) (zlen pool)
    (hand_out d mine range_id domain kind (usable pool excluded) holders [] now)
    (hand_out d mine range_id domain kind pool holders excluded now).
Proof.
  intros Hg Hl Hi Hm Hd Hp. rewrite !(hand_out_eq _ _ _ _ _ _ _ _ _ g) by (try done; by apply usable_nodup).
  unfold grant. rewrite free_usable. case_bool_decide; [done|]. by destruct (_ <? _)%nat.
Qed.

Section Pruned.
Context (d : db) (range_id domain kind : string) (holders : list string).

(** The range's rows of the kind for holders no longer listed, freed. *)
Definition pruned : db :=
  delete_where (fun r => of_range range_id r && String.eqb (r_kind r) kind && negb (bool_decide (r_holder r ∈ holders))) d.

Context (Hi : inv d).
Context (Hd : forall r, r ∈ rows d -> r_range r = Some range_id -> r_kind r = kind -> r_domain r = domain).

Lemma pruned_domain r : r ∈ rows pruned -> r_range r = Some range_id -> r_kind r = kind -> r_domain r = domain.
Proof using Hd. intros Hr. apply Hd. by apply elem_of_delete in Hr as [? _]. Qed.

Lemma prune_pruned mine d1 : prune_stale d range_id kind holders true = (mine, d1) -> d1 = pruned.
Proof using.
  clear Hi Hd domain. unfold prune_stale. set (stale := List.filter _ _).
  assert (Hst : forall r, r ∈ rows d -> of_range range_id r && String.eqb (r_kind r) kind = true ->
    bool_decide (r_holder r ∈ stale) = negb (bool_decide (r_holder r ∈ holders))).
  { intros r Hr Ho. apply andb_true_iff in Ho as [Ho1%bool_decide_eq_true Ho2%String.eqb_eq].
    destruct (decide (r_holder r ∈ holders)) as [Hh|Hh].
    - rewrite (bool_decide_eq_true_2 _ Hh). apply bool_decide_eq_false. unfold stale.
      rewrite list_elem_of_In, filter_In, negb_true_iff, bool_decide_eq_false. tauto.
    - rewrite (bool_decide_eq_false_2 _ Hh). apply bool_decide_eq_true. unfold stale.
      rewrite list_elem_of_In, filter_In, negb_true_iff, bool_decide_eq_false. split; [|done].
      apply in_map_iff. exists (r_holder r, r_value r, r_domain r). split; [done|].
      apply list_elem_of_In, elem_of_range_reservations. by exists r. }
  assert (He : delete_where (fun r => of_range range_id r && String.eqb (r_kind r) kind && bool_decide (r_holder r ∈ stale)) d = pruned).
  { unfold pruned, delete_where. f_equal. apply filter_ext_in. intros r Hr%list_elem_of_In. f_equal.
    destruct (of_range range_id r && String.eqb (r_kind r) kind) eqn:E; [|done]. simpl. by apply Hst. }
  rewrite andb_true_l. case_bool_decide as Hn; cbn [negb]; intros [= _ <-].
  - rewrite <- He, Hn. unfold delete_where. rewrite (forallb_filter_id _ (rows _)); [by destruct d|].
    apply forallb_forall. intros r _. rewrite bool_decide_eq_false_2 by apply not_elem_of_nil. by rewrite andb_false_r.
  - exact He.
Qed.

Lemma reserve_values_pruned pool excluded now :
  domain <> ""%string -> (forall h v, h ∈ holders -> holds d range_id domain kind h v -> v ∉ excluded) ->
  reserve_values d range_id domain kind pool holders true excluded now =
  hand_out pruned (dict_of (map fst (range_reservations pruned range_id kind))) range_id domain kind pool holders excluded now.
Proof using All.
  intros He Hx. unfold reserve_values. rewrite (proj2 (String.eqb_neq _ _) He).
  rewrite (bool_decide_eq_true_2 _ (proj2 (elsewhere_nil _ _ _ _) Hd)). simpl.
  destruct (prune_stale d range_id kind holders true) as [mine d1] eqn:Ep.
  pose proof (prune_pruned _ _ Ep) as ->.
  destruct (prune_stale_spec _ _ domain _ _ _ _ _ Hi Hd Ep) as (Hm & Hi1 & _ & Hsub & _ & Hin & _).
  rewrite (bool_decide_eq_true_2 (string_sorted _ = [])).
  - simpl. f_equal. apply map_eq. intros h. apply option_eq. intros v.
    pose proof (mine_all pruned range_id domain kind Hi1 pruned_domain) as Hm'. unfold mine_ok in *. by rewrite Hm, Hm'.
  - apply held_nil. intros h v Hv. apply (Hx h v); [apply Hin; [done|by exists v]|].
    apply Hm in Hv as (r & Hr & Hrest). exists r. split; [by apply Hsub|done].
Qed.

Lemma sync_pruned pool now :
  kind ∈ KINDS -> domain <> ""%string -> (forall h v, h ∈ holders -> holds d range_id domain kind h v -> v ∈ pool) ->
  sync d range_id domain kind pool holders now =
  hand_out pruned (dict_of (map fst (range_reservations pruned range_id kind))) range_id domain kind pool holders [] now.
Proof using All.
  intros Hk He Hx. unfold sync.
  match goal with |- context [delete_where ?p d] => assert (Hp : delete_where p d = pruned); [|rewrite Hp] end.
  { unfold pruned, delete_where. f_equal. apply filter_ext_in. intros r Hr%list_elem_of_In. f_equal.
    destruct (of_range range_id r && String.eqb (r_kind r) kind) eqn:E; [|done]. simpl.
    apply andb_true_iff in E as [E1%bool_decide_eq_true E2%String.eqb_eq].
    rewrite (proj2 (String.eqb_eq _ _) (Hd r Hr E1 E2)). simpl.
    destruct (decide (r_holder r ∈ holders)) as [Hh|Hh]; [|by rewrite (bool_decide_eq_false_2 _ Hh)].
    rewrite (bool_decide_eq_true_2 _ Hh). simpl. apply negb_false_iff, bool_decide_eq_true.
    apply (Hx (r_holder r)); [done|]. exists r. split; [done|]. pose proof (Hd r Hr E1 E2). auto. }
  case_bool_decide as Hh; [|apply api_reserve_eq; [done..|apply pruned_domain]].
  rewrite Hh. unfold hand_out. simpl. done.
Qed.
End Pruned.

(** The rows [sync] leaves of the kind are all in the domain: what follows is a reservation. *)
Lemma sync_no_integrity d range_id domain kind pool holders now :
  inv d -> NoDup pool -> live_range d range_id ->
  sync d range_id domain kind pool holders now <> Err IntegrityError.
Proof.
  intros Hi Hp Hl. unfold sync. case_bool_decide; [done|].
  match goal with |- api_reserve ?d0 _ _ _ _ _ _ <> _ => set (d1 := d0) end.
  destruct (decide (kind ∈ KINDS)) as [Hk|Hk];
    [|unfold api_reserve; by rewrite (bool_decide_eq_false_2 _ Hk)].
  destruct (decide (domain = ""%string)) as [->|He]; [unfold api_reserve; by rewrite (bool_decide_eq_true_2 _ Hk)|].
  assert (Hd1 : forall r, r ∈ rows d1 -> r_range r = Some range_id -> r_kind r = kind -> r_domain r = domain).
  { intros r Hr H1 H2. apply elem_of_delete in Hr as [_ Hr]. unfold of_range in Hr.
    rewrite (bool_decide_eq_true_2 _ H1), (proj2 (String.eqb_eq _ _) H2) in Hr. simpl in Hr.
    apply orb_false_iff in Hr as [[Hr _]%orb_false_iff _]. by apply negb_false_iff, String.eqb_eq in Hr. }
  rewrite api_reserve_eq by done. destruct Hl as (g & Hg & Hgs).
  assert (Hi1 : inv d1) by by apply inv_delete.
  rewrite (hand_out_eq _ _ _ _ _ _ _ _ _ g) by (try done; by apply mine_all).
  case_bool_decide; [done|]. by destruct (_ <? _)%nat.
Qed.

(** ** The properties *)

(** An allocation that returns gives every holder a value the range then holds in the domain,
    keeps the values already held, takes new ones only from the pool, only ones nobody live holds
    and never an excluded one, frees what a fresh build no longer lists, and touches no other
    live range's rows. *)
Theorem reserve_values_spec d range_id domain kind pool holders prune excluded now m d' :
  inv d -> NoDup pool -> live_range d range_id ->
  reserve_values d range_id domain kind pool holders prune excluded now = Ok (m, d') ->
  reserved d range_id domain kind pool holders prune excluded m d'.
Proof. intros Hi Hp Hl. by apply reserve_values_ok. Qed.

(** C3: when it raises, it is for one of the documented reasons, and never the unique constraints:
    in particular PoolExhaustedError means fewer free values than holders without one. *)
Theorem reserve_values_raises d range_id domain kind pool holders prune excluded now e :
  inv d -> NoDup pool -> live_range d range_id ->
  reserve_values d range_id domain kind pool holders prune excluded now = Err e ->
  match e with
  | ValueError => domain = ""%string
  | DomainChangedError l => exists dom h v, dom ∈ l /\ dom <> domain /\ holds d range_id dom kind h v
  | ReservedNetworkError l => exists h v, v ∈ l /\ v ∈ excluded /\ holds d range_id domain kind h v
  | PoolExhaustedError free total needed =>
      free < needed /\ total = zlen pool /\
      exists fs, zlen fs = free /\ NoDup fs /\ (forall v, v ∈ fs -> v ∈ pool /\ v ∉ excluded) /\
        (forall v, v ∈ pool -> v ∉ excluded -> free_value d domain kind v -> v ∈ fs)
  | _ => False
  end.
Proof. intros Hi Hp Hl H. by eapply reserve_values_err. Qed.

(** Reserving is idempotent: a retry gets the same values and changes nothing. *)
Theorem reserve_values_idempotent d range_id domain kind pool holders prune excluded now m d' :
  inv d -> NoDup pool -> live_range d range_id ->
  reserve_values d range_id domain kind pool holders prune excluded now = Ok (m, d') ->
  reserve_values d' range_id domain kind pool holders prune excluded now = Ok (m, d').
Proof. intros Hi Hp Hl. by apply reserve_values_again. Qed.

(** C4: whatever transactions ran, in whatever order, and however the ranges' states changed, a
    value of a (domain, kind) is held at most once and a range's holder has at most one value of a
    kind; and it is the allocators that see to it, never the unique constraints: on such a table no
    reservation of a live range, no recorded live read and no released conflict is refused by them. *)
Theorem values_exclusive d :
  reachable d ->
  (forall r r', r ∈ rows d -> r' ∈ rows d ->
     (r_domain r = r_domain r' /\ r_kind r = r_kind r' /\ r_value r = r_value r') \/
     (r_range r = r_range r' /\ is_external r = false /\ r_kind r = r_kind r' /\ r_holder r = r_holder r') ->
     r = r') /\
  (forall range_id domain kind pool holders prune excluded now, NoDup pool -> live_range d range_id ->
     reserve_values d range_id domain kind pool holders prune excluded now <> Err IntegrityError) /\
  (forall range_id domain kind pool holders now, NoDup pool -> live_range d range_id ->
     sync d range_id domain kind pool holders now <> Err IntegrityError) /\
  (forall u now, NoDup (u_foreign u).*1 -> NoDup (u_managed u).*1 -> exists x, record_external d u now = Ok x) /\
  (forall range_id c now, NoDup (c_vlans c).*1 -> exists d', release_conflict d range_id c now = Ok d').
Proof.
  intros Hi%reachable_inv. split; [|split; [|split; [|split]]].
  - intros r r'. by apply inv_exclusive.
  - intros * Hp Hl E. by apply reserve_values_err in E.
  - intros *. by apply sync_no_integrity.
  - intros *. apply record_external_ok.
  - intros *. apply release_conflict_ok.
Qed.

(** Recording a live read never fails; every value another user carries on the switch is
    afterwards held in the table (by a range or as external), so no allocation hands it out; no
    live range's reservation is touched, and what a later read saw is not deleted. *)
Theorem record_external_spec d u now :
  inv d -> NoDup (u_foreign u).*1 -> NoDup (u_managed u).*1 ->
  exists d', record_external d u now = Ok (recorded_want d u, d') /\ inv d' /\
    (forall v, v ∈ (u_foreign u).*1 -> ~ free_value d' (u_domain u) (u_kind u) v) /\
    (forall r, r ∈ rows d -> is_external r = false -> of_destroyed d r = false ->
       exists r', r' ∈ rows d' /\ row_same r r') /\
    (forall r at_, r ∈ rows d -> is_external r = true -> same (u_domain u) (u_kind u) r = true ->
       startswith (source_prefix u) (r_holder r) = true -> u_read_at u = Some at_ -> at_ <= r_seen r ->
       exists r', r' ∈ rows d' /\ row_same r r').
Proof.
  intros Hi Hf Hm. rewrite record_external_eq. unfold insert_external_reservations.
  destruct (insert_rows_ok _ _ _ (new_external_fits d u now Hf Hm)) as [d' Hd']. rewrite Hd'. simpl.
  exists d'. split; [done|]. assert (H0 : record_external d u now = Ok (recorded_want d u, d')).
  { rewrite record_external_eq. unfold insert_external_reservations. by rewrite Hd'. }
  split; [by eapply record_external_inv|].
  apply insert_rows_shape in Hd'. subst d'.
  assert (Hin : forall r, r ∈ rows (refreshed d u now) -> r ∈ rows (refreshed d u now) ++
    rows_of (external_row (u_domain u) (u_kind u) (default now (u_read_at u))) (next_id (refreshed d u now)) (new_external d u now)).
  { intros r Hr. apply elem_of_app. by left. }
  split; [|split].
  - intros v Hv Hfree. set (held := range_held_values (free_destroyed (u_domain u) (u_kind u) d) (u_domain u) (u_kind u)).
    destruct (decide (v ∈ held)) as [Hh|Hh].
    + apply range_held_spec in Hh as (r & Hr & Hs & He & Hval). apply elem_of_free_destroyed in Hr as [Hr Hd].
      destruct (refreshed_keeps d u now r Hi Hr Hd) as (r' & Hr' & (S1 & S2 & S3 & S4 & S5 & S6)); [by left|].
      apply same_spec in Hs as [Hs1 Hs2].
      specialize (Hfree r' (Hin _ Hr')). unfold of_destroyed in *. rewrite <- S2 in Hfree.
      rewrite (proj2 (same_spec (u_domain u) (u_kind u) r)) in Hd by done. simpl in Hd.
      destruct (r_range r) as [g|] eqn:Eg; [|unfold is_external in He; by rewrite Eg in He].
      unfold state_of in Hfree. cbn [ranges] in Hfree. rewrite refreshed_ranges in Hfree.
      change (g_state <$> ranges d !! g) with (state_of d g) in Hfree.
      rewrite Hfree in Hd; [done|..]; congruence.
    + assert (v ∈ (recorded_want d u).*1) as Hw.
      { apply want_foreign with (held := held) in Hv. apply list_elem_of_fmap in Hv as (x & -> & Hx).
        apply list_elem_of_fmap_2, list_elem_of_In, filter_In. rewrite <- list_elem_of_In. split; [done|].
        by apply negb_true_iff, bool_decide_eq_false. }
      destruct (new_or_present d u now v Hw) as [(r & Hr & Hs & He & Hval)%external_spec|Hn].
      * apply same_spec in Hs as [Hs1 Hs2]. specialize (Hfree r (Hin _ Hr) Hs1 Hs2 Hval).
        unfold of_destroyed, is_external in *. apply bool_decide_eq_true in He. by rewrite He in Hfree.
      * apply list_elem_of_fmap in Hn as ([v' h] & -> & Hn).
        destruct (rows_of_elem (external_row (u_domain u) (u_kind u) (default now (u_read_at u)))
          (next_id (refreshed d u now)) _ _ Hn) as [n Hr].
        assert (false = true); [|done].
        apply (Hfree _ ltac:(apply elem_of_app; right; exact Hr)); done.
  - intros r Hr He Hd. destruct (refreshed_keeps d u now r Hi Hr) as (r' & Hr' & Hs).
    + rewrite Hd. by apply andb_false_r.
    + by left.
    + exists r'. split; [by apply Hin|done].
  - intros r at_ Hr He Hs Hp Ha Hle. destruct (refreshed_keeps d u now r Hi Hr) as (r' & Hr' & Hsm).
    + unfold of_destroyed. unfold is_external in He. apply bool_decide_eq_true in He. rewrite He. by apply andb_false_r.
    + right. split; [done|]. intros at' ?. simplify_eq. by left.
    + exists r'. split; [by apply Hin|done].
Qed.

(** C5: the API's [sync] and the worker's build of the same live range agree, when the range holds
    the kind in no other domain and what its listed holders already have is in the pool and not
    excluded: on every table that keeps the constraints, the worker's pruning and excluding allocator
    and the API's, given the pool without the excluded values, return the same values and the same
    table, or both find the pool exhausted with the same counts of free and of needed values; no
    other outcome is possible. *)
Theorem api_worker_agree d range_id domain kind pool holders excluded now :
  inv d -> NoDup pool -> live_range d range_id -> kind ∈ KINDS -> domain <> ""%string ->
  (forall r, r ∈ rows d -> r_range r = Some range_id -> r_kind r = kind ->
     r_domain r = domain /\ (r_holder r ∈ holders -> r_value r ∈ pool /\ r_value r ∉ excluded)) ->
  same_outcome (zlen (usable pool excluded)) (zlen pool)
    (sync d range_id domain kind (usable pool excluded) holders now)
    (reserve_values d range_id domain kind pool holders true excluded now).
Proof.
  intros Hi Hp (g & Hg & Hgs) Hk He Hr.
  assert (Hd : forall r, r ∈ rows d -> r_range r = Some range_id -> r_kind r = kind -> r_domain r = domain).
  { intros r Hin H1 H2. by apply Hr. }
  assert (Hh : forall h v, h ∈ holders -> holds d range_id domain kind h v -> v ∈ pool /\ v ∉ excluded).
  { intros h v Hin (r & Hrin & H1 & H2 & H3 & H4 & H5). subst. by apply Hr. }
  rewrite (sync_pruned _ _ domain), reserve_values_pruned; try done.
  - apply (hand_out_agree _ _ _ _ _ _ _ _ _ g); try done; [by apply inv_delete|..].
    + apply mine_all; [by apply inv_delete|by apply pruned_domain].
    + by apply pruned_domain.
  - intros h v Hin Hv. by apply (Hh h v).
  - intros h v Hin Hv. destruct (Hh h v Hin Hv). apply list_elem_of_In, filter_In.
    rewrite <- list_elem_of_In, negb_true_iff, bool_decide_eq_false. done.
Qed.

(** ** Concrete tables *)

Example crc32_check : crc32 (bytes_of_string "123456789") = 3421780262.
Proof. vm_compute. reflexivity. Qed.

Definition demo_ranges : gmap string range :=
  list_to_map [("r0", Range "destroyed" "t" None); ("r1", Range "provisioning" "t" None);
               ("r2", Range "ready" "t" None)]%string.
Definition demo_db : db :=
  Db [Row 0 (Some "t") (Some "r2") "sw" "vlan" "2000" "lan" 5;
      Row 1 (Some "t") (Some "r0") "sw" "vlan" "2001" "lan" 5;
      Row 2 None None "sw" "vlan" "2002" "external:esx:Prod" 5]%string demo_ranges 3.
Definition demo_pool : list string := ["2000"; "2001"; "2002"; "2003"; "2004"; "2005"]%string.
Definition demo_reserve (holders : list string) (d : db) :=
  reserve_values d "r1" "sw" "vlan" demo_pool holders true ["2003"%string] 9.
Definition ok_or {E A} (a : A) (r : result E A) : A := match r with Ok x => x | Err _ => a end.
Definition demo_done : dict * db := ok_or (∅, demo_db) (demo_reserve ["a"; "b"] demo_db)%string.

Lemma demo_inv : inv demo_db.
Proof. unfold inv. repeat split; apply (bool_decide_unpack _); vm_compute; exact I. Qed.
Lemma demo_pool_nodup : NoDup demo_pool.
Proof. apply (bool_decide_unpack _); vm_compute; exact I. Qed.
Lemma demo_live : live_range demo_db "r1".
Proof. exists (Range "provisioning" "t" None). split; [vm_compute; reflexivity|discriminate]. Qed.

Lemma reserve_values_spec_witness :
  map_to_list demo_done.1 = [("a", "2001"); ("b", "2004")]%string /\
  reserved demo_db "r1" "sw" "vlan" demo_pool ["a"; "b"]%string true ["2003"%string] demo_done.1 demo_done.2.
Proof.
  split; [vm_compute; reflexivity|].
  apply (reserve_values_spec _ _ _ _ _ _ _ _ 9); [apply demo_inv|apply demo_pool_nodup|apply demo_live|].
  vm_compute; reflexivity.
Defined.

Lemma reserve_values_raises_witness :
  demo_reserve ["a"; "b"; "c"; "d"] demo_db = Err (PoolExhaustedError 3 6 4) /\ 3 < 4 /\ 6 = zlen demo_pool.
Proof.
  assert (H : demo_reserve ["a"; "b"; "c"; "d"]%string demo_db = Err (PoolExhaustedError 3 6 4))
    by (vm_compute; reflexivity).
  split; [exact H|].
  destruct (reserve_values_raises _ _ _ _ _ _ _ _ _ _ demo_inv demo_pool_nodup demo_live H) as (H1 & H2 & _).
  split; [exact H1|exact H2].
Defined.

Lemma reserve_values_idempotent_witness :
  demo_reserve ["a"; "b"]%string demo_done.2 = Ok (demo_done.1, demo_done.2).
Proof.
  apply (reserve_values_idempotent demo_db); [apply demo_inv|apply demo_pool_nodup|apply demo_live|].
  vm_compute; reflexivity.
Defined.

Definition demo_start : db := Db [] demo_ranges 0.
Definition demo_after : db := (ok_or (∅, demo_start) (demo_reserve ["a"; "b"] demo_start)%string).2.
Lemma demo_reachable : reachable demo_after.
Proof.
  eapply reachable_step; [apply (reachable_empty demo_ranges)|].
  eapply (step_reserve _ "r1" "sw" "vlan" demo_pool ["a"; "b"]%string true ["2003"%string] 9). vm_compute. reflexivity.
Qed.

Lemma values_exclusive_witness :
  rows demo_after !! 1%nat = Some (Row 1 (Some "t") (Some "r1") "sw" "vlan" "2001" "b" 9)%string /\
  (forall r, r ∈ rows demo_after -> r_domain r = "sw"%string -> r_kind r = "vlan"%string -> r_value r = "2001"%string ->
    r = Row 1 (Some "t") (Some "r1") "sw" "vlan" "2001" "b" 9) /\
  reserve_values demo_after "r2" "sw" "vlan" demo_pool ["lan"]%string true [] 9 <> Err IntegrityError.
Proof.
  destruct (values_exclusive demo_after demo_reachable) as (He & Hr & _).
  split; [vm_compute; reflexivity|]. split.
  - intros r Hr0 H1 H2 H3. apply He; [exact Hr0| |].
    + apply (list_elem_of_lookup_2 _ 1%nat). vm_compute; reflexivity.
    + left. rewrite H1, H2, H3. split; [|split]; reflexivity.
  - apply Hr; [apply demo_pool_nodup|].
    exists (Range "ready" "t" None). split; [vm_compute; reflexivity|discriminate].
Defined.

Definition demo_usage : usage := Usage "sw" "vlan" "esx" [("2004", "Other")]%string [("2000", "tn-r2")]%string (Some 8).

Lemma record_external_spec_witness :
  exists d', record_external demo_db demo_usage 9 = Ok (recorded_want demo_db demo_usage, d') /\
    recorded_want demo_db demo_usage = [("2004", "external:esx:Other")]%string /\
    ~ free_value d' "sw" "vlan" "2004".
Proof.
  destruct (record_external_spec demo_db demo_usage 9) as (d' & H1 & _ & H3 & _).
  - apply demo_inv.
  - apply (bool_decide_unpack _); vm_compute; exact I.
  - apply (bool_decide_unpack _); vm_compute; exact I.
  - exists d'. split; [exact H1|]. split; [vm_compute; reflexivity|]. apply H3. left.
Defined.

Lemma demo_done_inv : inv demo_done.2.
Proof. unfold inv. repeat split; apply (bool_decide_unpack _); vm_compute; exact I. Qed.
Lemma demo_done_rows r :
  r ∈ rows demo_done.2 -> r_range r = Some "r1"%string -> r_kind r = "vlan"%string ->
  r_domain r = "sw"%string /\ (r_holder r ∈ ["b"; "c"]%string -> r_value r ∈ demo_pool /\ r_value r ∉ ["2003"]%string).
Proof.
  intros Hr H1 H2. assert (H : Forall (fun r => r_domain r = "sw"%string /\ r_value r ∈ demo_pool /\ r_value r ∉ ["2003"]%string)
    (List.filter (fun r => bool_decide (r_range r = Some "r1"%string)) (rows demo_done.2)))
    by (apply (bool_decide_unpack _); vm_compute; exact I).
  rewrite Forall_forall in H. destruct (H r) as (H3 & H4 & H5); [|done].
  apply list_elem_of_In, filter_In. rewrite <- list_elem_of_In. split; [done|]. by apply bool_decide_eq_true.
Qed.

Lemma api_worker_agree_witness :
  reserve_values demo_done.2 "r1" "sw" "vlan" demo_pool ["b"; "c"]%string true ["2003"]%string 9 =
  sync demo_done.2 "r1" "sw" "vlan" (usable demo_pool ["2003"]) ["b"; "c"]%string 9.
Proof.
  assert (E1 : match reserve_values demo_done.2 "r1" "sw" "vlan" demo_pool ["b"; "c"]%string true ["2003"]%string 9 with
               | Ok _ => true | Err _ => false end = true)
    by (vm_compute; reflexivity).
  assert (H : same_outcome 5 6
    (sync demo_done.2 "r1" "sw" "vlan" (usable demo_pool ["2003"]) ["b"; "c"]%string 9)
    (reserve_values demo_done.2 "r1" "sw" "vlan" demo_pool ["b"; "c"]%string true ["2003"]%string 9)).
  { apply (api_worker_agree demo_done.2).
    - apply demo_done_inv.
    - apply demo_pool_nodup.
    - exists (Range "provisioning" "t" None). split; [vm_compute; reflexivity|discriminate].
    - apply (bool_decide_unpack _); vm_compute; exact I.
    - discriminate.
    - apply demo_done_rows. }
  destruct (reserve_values _ _ _ _ _ _ _ _ _) as [x|]; [|discriminate E1].
  destruct (sync _ _ _ _ _ _ _) as [y|[]]; simpl in H; try contradiction. rewrite H. reflexivity.
Defined.
