(* ===== verification/Lease.v ===== *)
(** * Range leases: one execution acts on a range at a time

    Models [control-plane/worker/worker/fencing.py] (the lease statements, the [_Lease] object and
    its heartbeat, [claim], [keep], [release], [ensure_held], [guarded_range_update], [fenced]) and
    [fence_lease] / the tombstone rename of [control-plane/api/app/range_ops/service.py].  [world]
    is the database both share: the clock, [range_leases] (at most one row per range: its primary
    key) and the ranges.  An execution's [_Lease] object is an [exec] value.  The task body that
    [fenced] decorates is a parameter; what it may do between two database calls of the wrapper is
    any function of the world.  The theorems: a claim succeeds only over no lease or an expired
    one; an execution that lost its lease or was abandoned never writes a range's state again,
    whatever everybody does afterwards; a renewed lease is never taken over; a finished task leaves
    neither its lease nor its tombstone behind. *)

From S2P Require Import Prelude.
From Stdlib Require Import Ascii.

Local Open Scope Z_scope.

(** ** Settings *)

Definition LEASE_SECONDS : Z := 180.
Definition LEASE_HEARTBEAT_SECONDS : Z := Z.max (LEASE_SECONDS / 6) 1.
Definition KEPT_LEASE_SECONDS : Z := 3600.
Definition ABANDONED : string := "abandoned:".
Definition tombstone (holder : string) : string := ABANDONED +:+ holder.

(** ** The database *)

(** A row of [range_leases]. *)
Record lease := Lease { l_holder : string; l_expires : Z }.

(** A row of [ranges]: what [update_range_state] writes. *)
Record grow := Grow { g_state : string; g_error : option string; g_output : option string }.

Record world := World { w_now : Z; w_leases : gmap string lease; w_ranges : gmap string grow }.

Definition set_leases (t : gmap string lease) (w : world) : world := World w.(w_now) t w.(w_ranges).
Definition set_ranges (t : gmap string grow) (w : world) : world := World w.(w_now) w.(w_leases) t.

(** ** The lease statements *)

(** [_claim_lease]: INSERT ... ON CONFLICT DO UPDATE WHERE expired, RETURNING. *)
Definition claim_lease (range_id holder : string) (w : world) : bool * world :=
  let taken := set_leases (<[range_id := Lease holder (w.(w_now) + LEASE_SECONDS)]> w.(w_leases)) w in
  match w.(w_leases) !! range_id with
  | None => (true, taken)
  | Some l => if l.(l_expires) <? w.(w_now) then (true, taken) else (false, w)
  end.

(** [_release_lease] *)
Definition release_lease (range_id holder : string) (w : world) : world :=
  match w.(w_leases) !! range_id with
  | Some l => if bool_decide (l.(l_holder) ∈ [holder; tombstone holder])
              then set_leases (delete range_id w.(w_leases)) w else w
  | None => w
  end.

(** [_extend_lease] *)
Definition extend_lease (range_id holder : string) (seconds : Z) (w : world) : bool * world :=
  match w.(w_leases) !! range_id with
  | Some l =>
      if String.eqb l.(l_holder) holder
      then (true, set_leases (<[range_id := Lease holder (Z.max l.(l_expires) (w.(w_now) + seconds))]> w.(w_leases)) w)
      else (false, w)
  | None => (false, w)
  end.

(** [_lease_holder] *)
Definition lease_holder (range_id : string) (w : world) : option string := l_holder <$> w.(w_leases) !! range_id.

(** ** The execution's [_Lease] object *)

Record exec := Exec { x_range : string; x_holder : string; x_current : string; x_abandoned : bool; x_lost : bool }.

Definition new_exec (range_id holder : string) : exec := Exec range_id holder holder false false.

Inductive status := Held | Abandoned | Lost.
#[export] Instance status_eq_dec : EqDecision status.
Proof. solve_decision. Defined.

(** [observe] *)
Definition observe (e : exec) (holder_now : option string) : exec * status :=
  if bool_decide (holder_now = Some e.(x_holder)) && negb e.(x_abandoned) then (e, Held)
  else if bool_decide (holder_now = Some (tombstone e.(x_holder)))
       then (Exec e.(x_range) e.(x_holder) (tombstone e.(x_holder)) true e.(x_lost), Abandoned)
       else (Exec e.(x_range) e.(x_holder) e.(x_current) e.(x_abandoned) true, Lost).

(** [refresh]; [None]: the database could not be read. *)
Definition refresh (up : bool) (e : exec) (w : world) : exec * option status :=
  if up then let '(e', s) := observe e (lease_holder e.(x_range) w) in (e', Some s) else (e, None).

(** [verify]: [None] is [LeaseLost]. *)
Definition verify (e : exec) (w : world) : exec * option unit :=
  let '(e', s) := observe e (lease_holder e.(x_range) w) in
  (e', if bool_decide (s = Held) then Some tt else None).

(** One turn of [_beat] with the database up (down: nothing changes). *)
Definition beat (e : exec) (w : world) : exec * world :=
  if e.(x_lost) then (e, w)  (* the thread has returned *)
  else
    match extend_lease e.(x_range) e.(x_current) LEASE_SECONDS w with
    | (true, w') => (e, w')
    | (false, _) =>
        let '(e', s) := observe e (lease_holder e.(x_range) w) in
        if bool_decide (s = Abandoned) then (e', (extend_lease e'.(x_range) e'.(x_current) LEASE_SECONDS w).2)
        else (e', w)
    end.

(** [keep] and [release]: a database failure is logged and swallowed. *)
Definition keep (up : bool) (range_id holder : string) (w : world) : world :=
  if up then (extend_lease range_id holder KEPT_LEASE_SECONDS w).2 else w.
Definition release (up : bool) (range_id holder : string) (w : world) : world :=
  if up then release_lease range_id holder w else w.

(** ** [claim] *)

Inductive claim_result := Claimed (holder : string) | LeaseHeld | NotInState | CheckRaised.

#[export] Instance claim_result_eq_dec : EqDecision claim_result.
Proof. solve_decision. Defined.

(** [check]: what [in_state] answers, [None] when it raises. *)
Definition claim (range_id : string) (state : option string) (action token : string) (check : option bool) (w : world)
    : claim_result * world :=
  let holder := action +:+ ":" +:+ token in
  match w.(w_ranges) !! range_id with
  | None => (NotInState, w)  (* IntegrityError: the lease's foreign key *)
  | Some _ =>
      let '(leased, w1) := claim_lease range_id holder w in
      match (match state with None => Some true | Some _ => check end) with
      | None => (CheckRaised, if leased then release_lease range_id holder w1 else w1)
      | Some matches =>
          if leased && matches then (Claimed holder, w1)
          else
            let w2 := if leased then release_lease range_id holder w1 else w1 in
            (if matches then LeaseHeld else NotInState, w2)
      end
  end.

(** The [_in_state] check of the tasks, on this database. *)
Definition in_state (range_id : string) (state : option string) (w : world) : option bool :=
  match state with
  | None => Some true
  | Some s => Some (bool_decide (g_state <$> w.(w_ranges) !! range_id = Some s))
  end.

(** ** Guarded writes *)

(** [db_ops.update_range_state]: the row count, and the row written. *)
Record update := Update { u_state : string; u_error : option string; u_output : option string;
                          u_only_from : option (list string); u_clear_error : bool }.

Definition update_range_state (range_id : string) (u : update) (w : world) : Z * world :=
  match w.(w_ranges) !! range_id with
  | None => (0, w)
  | Some g =>
      let allowed := match u.(u_only_from) with Some ((_ :: _) as l) => bool_decide (g.(g_state) ∈ l) | _ => true end in
      if allowed then
        let err := match u.(u_error) with
                   | Some m => if String.eqb m "" then (if u.(u_clear_error) then None else g.(g_error)) else Some m
                   | None => if u.(u_clear_error) then None else g.(g_error) end in
        let out := match u.(u_output) with
                   | Some o => if String.eqb o "" then g.(g_output) else Some o
                   | None => g.(g_output) end in
        (1, set_ranges (<[range_id := Grow u.(u_state) err out]> w.(w_ranges)) w)
      else (0, w)
  end.

(** The outcome of a guarded call: a row count, or [LeaseLost]. *)
Inductive guarded := Rows (n : Z) | RaisedLeaseLost.

(** [guarded_range_update]; [cur]: the fenced task's lease ([_current]), if any. *)
Definition guarded_range_update (cur : option exec) (range_id : string) (u : update) (w : world)
    : option exec * guarded * world :=
  match cur with
  | Some e =>
      if String.eqb e.(x_range) range_id then
        match observe e (lease_holder range_id w) with
        | (e', Held) => let '(n, w') := update_range_state range_id u w in (Some e', Rows n, w')
        | (e', Abandoned) => (Some e', Rows 0, w)
        | (e', Lost) => (Some e', RaisedLeaseLost, w)
        end
      else let '(n, w') := update_range_state range_id u w in (cur, Rows n, w')
  | None => let '(n, w') := update_range_state range_id u w in (None, Rows n, w')
  end.

(** [ensure_held]: [None] is [LeaseLost]. *)
Definition ensure_held (cur : option exec) (range_id : string) (w : world) : option exec * option unit :=
  match cur with
  | Some e =>
      if String.eqb e.(x_range) range_id then
        let '(e', s) := observe e (lease_holder range_id w) in
        (Some e', if bool_decide (s = Held) then Some tt else None)
      else (cur, Some tt)
  | None => (None, Some tt)
  end.

(** ** The API's side: [fence_lease] *)

(** SQL LIKE. *)
Fixpoint like (p s : string) : bool :=
  match p with
  | EmptyString => match s with EmptyString => true | _ => false end
  | String "%"%char p' =>
      (fix any s := like p' s || match s with EmptyString => false | String _ s' => any s' end) s
  | String "_"%char p' => match s with EmptyString => false | String _ s' => like p' s' end
  | String c p' => match s with EmptyString => false | String c' s' => Ascii.eqb c c' && like p' s' end
  end.

Definition fence_lease (range_id action : string) (legacy : bool) (w : world) : bool * world :=
  match w.(w_leases) !! range_id with
  | Some l =>
      if like (action +:+ ":%") l.(l_holder) || (legacy && negb (like "%:%" l.(l_holder)))
      then (true, set_leases (<[range_id := Lease (ABANDONED +:+ l.(l_holder)) (w.(w_now) + LEASE_SECONDS)]> w.(w_leases)) w)
      else (false, w)
  | None => (false, w)
  end.

(** ** The decorator [fenced] *)

(** How the task's body ends; [leftover]: the result lists something it could not tear down. *)
Inductive ending := Returned (leftover : bool) | SoftTimeLimit | RaisedException | BodyLeaseLost | RaisedBase.

Inductive task_result := Skipped | Deferred | Done | LeaseLostResult | AbandonedResult | Raised.

Section Fenced.
(** The window check and the task: what they, and anybody else meanwhile, did. *)
Variable body : exec -> world -> exec * world * ending.
(** Whether the database answers the wrapper's last calls. *)
Variables up_refresh up_release : bool.
(** [record_leftover]: it does not touch the lease. *)
Variable record_leftover : world -> world.
Variable check : option bool.

Definition fenced (action token : string) (state : option string) (range_id : string) (w : world) : task_result * world :=
  match claim range_id state action token check w with
  | (NotInState, w1) => (Skipped, w1)
  | (CheckRaised, w1) => (Raised, w1)
  | (LeaseHeld, w1) => (Deferred, w1)
  | (Claimed holder, w1) =>
      match body (new_exec range_id holder) w1 with
      | (e, w2, SoftTimeLimit) => (Raised, keep up_release range_id e.(x_current) w2)
      | (e, w2, RaisedBase) => (Raised, release up_release range_id holder w2)
      | (e, w2, Returned leftover) =>
          (Done, release up_release range_id holder (if leftover then record_leftover w2 else w2))
      | (e, w2, RaisedException) =>
          if e.(x_abandoned) || e.(x_lost) then
            (if e.(x_abandoned) then AbandonedResult else LeaseLostResult, release up_release range_id holder w2)
          else
            let '(e', s) := refresh up_refresh e w2 in
            if bool_decide (s = Some Abandoned \/ s = Some Lost)
            then (if e'.(x_abandoned) then AbandonedResult else LeaseLostResult, release up_release range_id holder w2)
            else (Raised, release up_release range_id holder w2)
      | (e, w2, BodyLeaseLost) =>
          (if e.(x_abandoned) then AbandonedResult else LeaseLostResult, release up_release range_id holder w2)
      end
  end.
End Fenced.

(** ** Everybody at once *)

(** The executions started so far, by holder; [s_used] are all holders ever drawn (uuid4 tokens do
    not repeat). *)
Record sys := Sys { s_world : world; s_execs : gmap string exec; s_used : gset string }.

Definition set_world (w : world) (s : sys) : sys := Sys w s.(s_execs) s.(s_used).
Definition set_exec (h : string) (e : exec) (s : sys) : sys := Sys s.(s_world) (<[h := e]> s.(s_execs)) s.(s_used).

Inductive step : sys -> sys -> Prop :=
| step_tick s t : w_now (s_world s) <= t ->
    step s (set_world (World t (w_leases (s_world s)) (w_ranges (s_world s))) s)
| step_claim s range_id state action token check r w h :
    h = action +:+ ":" +:+ token -> h ∉ s_used s -> startswith ABANDONED h = false ->
    claim range_id state action token check (s_world s) = (r, w) ->
    step s (Sys w (if bool_decide (r = Claimed h) then <[h := new_exec range_id h]> (s_execs s) else s_execs s)
                ({[h]} ∪ s_used s))
| step_beat s h e e' w : s_execs s !! h = Some e -> beat e (s_world s) = (e', w) ->
    step s (set_world w (set_exec h e' s))
| step_observe s h e : s_execs s !! h = Some e ->
    step s (set_exec h (observe e (lease_holder e.(x_range) (s_world s))).1 s)
| step_write s h e range_id u e' g w : s_execs s !! h = Some e ->
    guarded_range_update (Some e) range_id u (s_world s) = (Some e', g, w) ->
    step s (set_world w (set_exec h e' s))
| step_keep s h e up : s_execs s !! h = Some e ->
    step s (set_world (keep up e.(x_range) e.(x_current) (s_world s)) s)
| step_release s h e up : s_execs s !! h = Some e ->
    step s (set_world (release up e.(x_range) e.(x_holder) (s_world s)) s)
| step_fence s range_id action legacy :
    step s (set_world (fence_lease range_id action legacy (s_world s)).2 s)
| step_force s range_id l : w_leases (s_world s) !! range_id = Some l -> startswith ABANDONED l.(l_holder) = true ->
    step s (set_world (set_leases (delete range_id (w_leases (s_world s))) (s_world s)) s)
| step_api s g : step s (set_world (set_ranges g (s_world s)) s).

(** ** Statement lemmas *)

Lemma startswith_app p s : startswith p (p +:+ s) = true.
Proof. induction p as [|c p IH]; simpl; [by destruct s|]. by destruct (Ascii.ascii_dec c c). Qed.

Lemma holder_set_leases r t w : lease_holder r (set_leases t w) = l_holder <$> t !! r.
Proof. done. Qed.

Lemma claim_lease_holder r r' h w :
  lease_holder r' (claim_lease r h w).2 = lease_holder r' w \/
  (r' = r /\ lease_holder r' (claim_lease r h w).2 = Some h).
Proof.
  unfold claim_lease. destruct (w_leases w !! r) as [l|] eqn:E; [destruct (_ <? _)|]; simpl; try (by left);
    (destruct (decide (r' = r)) as [->|]; [right|left]; unfold lease_holder; simpl;
     [by rewrite lookup_insert_eq|by rewrite lookup_insert_ne]).
Qed.

Lemma release_lease_holder r r' h w :
  lease_holder r' (release_lease r h w) = lease_holder r' w \/ lease_holder r' (release_lease r h w) = None.
Proof.
  unfold release_lease. destruct (w_leases w !! r) as [l|]; [|by left]. case_bool_decide; [|by left].
  rewrite holder_set_leases. destruct (decide (r' = r)) as [->|]; [right; by rewrite lookup_delete_eq|].
  left. by rewrite lookup_delete_ne.
Qed.

Lemma extend_lease_holder r r' h k w : lease_holder r' (extend_lease r h k w).2 = lease_holder r' w.
Proof.
  unfold extend_lease, lease_holder. destruct (w_leases w !! r) as [l|] eqn:E; [|done].
  destruct (String.eqb (l_holder l) h) eqn:Eh; [|done]. apply String.eqb_eq in Eh. simpl.
  destruct (decide (r' = r)) as [->|]; [|by rewrite lookup_insert_ne]. rewrite lookup_insert_eq, E. simpl. by rewrite Eh.
Qed.

Lemma claim_holder r r' state action token check w res w' :
  claim r state action token check w = (res, w') ->
  lease_holder r' w' = lease_holder r' w \/ lease_holder r' w' = None \/
  lease_holder r' w' = Some (action +:+ ":" +:+ token).
Proof.
  unfold claim. intros H. destruct (w_ranges w !! r); [|simplify_eq; by left].
  set (h := action +:+ ":" +:+ token) in *.
  pose proof (claim_lease_holder r r' h w) as Hc. destruct (claim_lease r h w) as [leased w1]. simpl in Hc.
  pose proof (release_lease_holder r r' h w1) as Hr.
  destruct (match state with Some _ => check | None => Some true end) as [matches|];
    destruct leased; try destruct matches; simplify_eq/=; intuition congruence.
Qed.

Lemma update_range_state_leases r u w : w_leases (update_range_state r u w).2 = w_leases w.
Proof. unfold update_range_state. by repeat case_match. Qed.

Lemma guarded_leases cur r u w cur' g w' :
  guarded_range_update cur r u w = (cur', g, w') -> w_leases w' = w_leases w.
Proof.
  unfold guarded_range_update. pose proof (update_range_state_leases r u w) as H.
  destruct (update_range_state r u w) as [n wu]; simpl in H.
  intros. repeat (case_match; simplify_eq); done.
Qed.

Lemma beat_holder e r w e' w' : beat e w = (e', w') -> lease_holder r w' = lease_holder r w.
Proof.
  unfold beat. intros H. destruct (x_lost e); [by simplify_eq|].
  pose proof (extend_lease_holder (x_range e) r (x_current e) LEASE_SECONDS w) as Hx.
  destruct (extend_lease _ _ _ _) as [[] w1]; [by simplify_eq/=|].
  destruct (observe e _) as [e1 s]. case_bool_decide; simplify_eq/=; [apply extend_lease_holder|done].
Qed.

(** A step gives a range's lease to nobody but a fresh claimant, and otherwise only takes it away. *)
Lemma step_holder s s' r h :
  step s s' -> h ∈ s_used s -> startswith ABANDONED h = false ->
  lease_holder r (s_world s) <> Some h -> lease_holder r (s_world s') <> Some h.
Proof.
  intros Hs Hu Hp Hn. destruct Hs; simpl; try done.
  - destruct (claim_holder _ r _ _ _ _ _ _ _ ltac:(eassumption)) as [->|[->| ->]]; [done|done|].
    by intros ?; simplify_eq.
  - erewrite beat_holder by eassumption. done.
  - unfold lease_holder. erewrite guarded_leases by eassumption. done.
  - unfold keep. destruct up; [|done]. by rewrite extend_lease_holder.
  - unfold release. destruct up; [|done].
    destruct (release_lease_holder (x_range e) r (x_holder e) (s_world s)) as [->| ->]; done.
  - unfold fence_lease. destruct (w_leases (s_world s) !! range_id) as [l|] eqn:E; [|done].
    case_match; [|done]. simpl. rewrite holder_set_leases.
    destruct (decide (r = range_id)) as [->|]; [|by rewrite lookup_insert_ne].
    rewrite lookup_insert_eq. simpl. intros [= <-]. by rewrite startswith_app in Hp.
  - rewrite holder_set_leases. destruct (decide (r = range_id)) as [->|]; [by rewrite lookup_delete_eq|].
    by rewrite lookup_delete_ne.
Qed.

Lemma step_used s s' : step s s' -> s_used s ⊆ s_used s'.
Proof. intros []; simpl; set_solver. Qed.

Lemma steps_holder s s' r h :
  rtc step s s' -> h ∈ s_used s -> startswith ABANDONED h = false ->
  lease_holder r (s_world s) <> Some h -> lease_holder r (s_world s') <> Some h.
Proof.
  induction 1 as [|s1 s2 s3 H1 _ IH]; [done|]. intros Hu Hp Hn.
  apply IH; [|done|by eapply step_holder]. apply step_used in H1. set_solver.
Qed.

Lemma observe_not_held e h : h <> Some (x_holder e) -> (observe e h).2 <> Held.
Proof. intros Hn. unfold observe. rewrite bool_decide_eq_false_2 by done. simpl. by case_bool_decide. Qed.

Lemma claim_lease_spec r h w :
  (claim_lease r h w).1 = true <->
  (forall l, w_leases w !! r = Some l -> l_expires l < w_now w).
Proof.
  unfold claim_lease. destruct (w_leases w !! r) as [l|]; [|naive_solver].
  destruct (l_expires l <? w_now w) eqn:E; simpl; reflect_bools; naive_solver lia.
Qed.

(** ** A heartbeat in time *)

(** What happens on a range after a claim: its holder's heartbeats and others' claims, each at a
    time. *)
Inductive event := EBeat (t : Z) | EClaim (t : Z) (holder : string).
Definition event_time (ev : event) : Z := match ev with EBeat t => t | EClaim t _ => t end.

Definition at_time (t : Z) (w : world) : world := World t w.(w_leases) w.(w_ranges).

Definition play (e : exec) (w : world) (ev : event) : world :=
  match ev with
  | EBeat t => (beat e (at_time t w)).2
  | EClaim t h => (claim_lease e.(x_range) h (at_time t w)).2
  end.

(** Time does not run backwards, and no more than [LEASE_SECONDS] pass after a heartbeat before the
    next event that could take the lease. *)
Fixpoint timely (now last : Z) (evs : list event) : Prop :=
  match evs with
  | [] => True
  | ev :: evs' =>
      now <= event_time ev <= last + LEASE_SECONDS /\
      timely (event_time ev) (match ev with EBeat t => t | EClaim _ _ => last end) evs'
  end.

Lemma play_keeps e w ev now last :
  e.(x_current) = e.(x_holder) -> e.(x_lost) = false ->
  now <= event_time ev <= last + LEASE_SECONDS ->
  (exists l, w.(w_leases) !! e.(x_range) = Some l /\ l.(l_holder) = e.(x_holder) /\ last + LEASE_SECONDS <= l.(l_expires)) ->
  exists l, (play e w ev).(w_leases) !! e.(x_range) = Some l /\ l.(l_holder) = e.(x_holder) /\
    match ev with EBeat t => t | EClaim _ _ => last end + LEASE_SECONDS <= l.(l_expires).
Proof.
  intros Hc Hl Ht (l & Hw & Hh & He). destruct ev as [t|t h]; simpl in *.
  - unfold beat, extend_lease. simpl. rewrite Hl, Hw, Hc, Hh, String.eqb_refl. simpl.
    rewrite lookup_insert_eq. eexists. split; [done|]. simpl. split; [done|]. lia.
  - unfold claim_lease. simpl. rewrite Hw. destruct (l_expires l <? t) eqn:E; [reflect_bools; lia|].
    simpl. by exists l.
Qed.

Lemma play_all_keeps e evs w now last :
  e.(x_current) = e.(x_holder) -> e.(x_lost) = false -> timely now last evs ->
  (exists l, w.(w_leases) !! e.(x_range) = Some l /\ l.(l_holder) = e.(x_holder) /\ last + LEASE_SECONDS <= l.(l_expires)) ->
  lease_holder e.(x_range) (fold_left (play e) evs w) = Some e.(x_holder).
Proof.
  intros Hc Hl. revert w now last. induction evs as [|ev evs IH]; intros w now last Ht Hw; simpl in *.
  - destruct Hw as (l & Hw & Hh & _). unfold lease_holder. rewrite Hw. simpl. by rewrite Hh.
  - destruct Ht as [Ht Hts]. eapply IH; [exact Hts|]. by eapply play_keeps.
Qed.

(** ** Where a finished task leaves the lease *)

Definition not_mine (r h : string) (w : world) : Prop :=
  lease_holder r w <> Some h /\ lease_holder r w <> Some (tombstone h).

Lemma release_not_mine r h w : not_mine r h (release_lease r h w).
Proof.
  unfold not_mine, release_lease, lease_holder. destruct (w_leases w !! r) as [l|] eqn:E; [|by rewrite E].
  case_bool_decide as Hin.
  - simpl. by rewrite lookup_delete_eq.
  - rewrite E. simpl. split; intros [= Hx]; apply Hin; rewrite Hx; set_solver.
Qed.

Lemma kept_expiry r h w l' :
  w_leases (keep true r h w) !! r = Some l' -> l_holder l' = h ->
  w_now w + KEPT_LEASE_SECONDS <= l_expires l'.
Proof.
  unfold keep, extend_lease. destruct (w_leases w !! r) as [l|] eqn:E; [|simpl; congruence].
  destruct (String.eqb (l_holder l) h) eqn:Eh; simpl.
  - rewrite lookup_insert_eq. intros [= <-] _. simpl. lia.
  - rewrite E. intros [= <-] Hh. by apply String.eqb_neq in Eh.
Qed.

(** ** The properties *)

(** C6: a claim takes the lease only when nobody has it or it has expired, and only while the range
    is in the requested state; then the range is the claimant's for [LEASE_SECONDS].  Otherwise
    whoever holds an unexpired lease, or its tombstone, keeps it. *)
Theorem claim_exclusive r state action token check w res w' :
  check <> None -> claim r state action token check w = (res, w') ->
  (forall h, res = Claimed h ->
     h = action +:+ ":" +:+ token /\ w_leases w' !! r = Some (Lease h (w_now w + LEASE_SECONDS)) /\
     (forall l, w_leases w !! r = Some l -> l_expires l < w_now w) /\ (state = None \/ check = Some true)) /\
  (forall l, w_leases w !! r = Some l -> w_now w <= l_expires l ->
     w' = w /\ (res = LeaseHeld \/ res = NotInState)).
Proof.
  intros Hck H. unfold claim in H. destruct (w_ranges w !! r); [|simplify_eq; split; [done|]; auto].
  set (h := action +:+ ":" +:+ token) in *. pose proof (claim_lease_spec r h w) as Hc.
  destruct (claim_lease r h w) as [leased w1] eqn:E. simpl in Hc.
  assert (Hm : exists b, (match state with Some _ => check | None => Some true end) = Some b /\
    (b = true -> state = None \/ check = Some true)).
  { destruct state; [destruct check as [b|]; [|done]; exists b; split; [done|]; intros ->; by right|].
    exists true. split; [done|by left]. }
  destruct Hm as (b & Hb & Hbt). rewrite Hb in H. split.
  - intros h' ->. destruct leased; [|by destruct b]. destruct b; simplify_eq/=.
    split; [done|]. split; [|split; [by apply Hc|by apply Hbt]].
    unfold claim_lease in E. repeat case_match; simplify_eq/=; by rewrite lookup_insert_eq.
  - intros l Hl Hle. destruct leased; [pose proof (proj1 Hc eq_refl l Hl); lia|].
    unfold claim_lease in E. rewrite Hl in E. destruct (l_expires l <? w_now w); simplify_eq/=.
    split; [done|]. destruct b; auto.
Qed.

(** C7: fenced out for good: once the range's lease is not the execution's (abandoned, taken over,
    released), then whatever claims, heartbeats, writes, abandons and releases anybody runs, in any
    order, its guarded writes never reach the range again. *)
Theorem fenced_out_forever s s' r h e u cur g w :
  rtc step s s' -> h ∈ s_used s -> startswith ABANDONED h = false ->
  lease_holder r (s_world s) <> Some h ->
  x_holder e = h -> x_range e = r ->
  guarded_range_update (Some e) r u (s_world s') = (cur, g, w) ->
  w = s_world s' /\ (g = Rows 0 \/ g = RaisedLeaseLost).
Proof.
  intros Hs Hu Hp Hn Hh Hr H. pose proof (steps_holder s s' r h Hs Hu Hp Hn) as Hn'.
  unfold guarded_range_update in H. rewrite Hr, String.eqb_refl in H. rewrite <- Hh in Hn'.
  pose proof (observe_not_held e _ Hn') as Ho.
  destruct (observe e _) as [e' []]; simplify_eq/=; auto.
Qed.

(** A worker that renews its lease in time is never taken over: as long as no event comes later
    than [LEASE_SECONDS] after its last heartbeat, every other claim on the range fails. *)
Theorem heartbeat_keeps_lease e evs w w0 :
  e = new_exec (x_range e) (x_holder e) ->
  claim_lease (x_range e) (x_holder e) w = (true, w0) -> timely (w_now w) (w_now w) evs ->
  lease_holder (x_range e) (fold_left (play e) evs w0) = Some (x_holder e).
Proof.
  intros He Hc Ht. assert (x_current e = x_holder e /\ x_lost e = false) as [H1 H2] by (rewrite He; done).
  eapply play_all_keeps; [done|done|exact Ht|].
  unfold claim_lease in Hc. repeat case_match; simplify_eq/=; rewrite lookup_insert_eq;
    (eexists; split; [done|]; simpl; split; [done|lia]).
Qed.

(** A finished task leaves nothing: however its body ended and whatever it did to the world,
    unless the soft time limit ended it the range's lease is neither the task's nor its tombstone;
    a soft time limit keeps what it still holds for [KEPT_LEASE_SECONDS]; a copy that could not
    claim an unexpired lease changes nothing. *)
Theorem fenced_leaves body up_refresh record_leftover check action token state r w res w' :
  check <> None -> (forall v l, lease_holder l (record_leftover v) = lease_holder l v) ->
  fenced body up_refresh true record_leftover check action token state r w = (res, w') ->
  match claim r state action token check w with
  | (Claimed h, w1) =>
      match body (new_exec r h) w1 with
      | (e, w2, SoftTimeLimit) =>
          res = Raised /\ forall l, w_leases w' !! r = Some l -> l_holder l = x_current e ->
            w_now w2 + KEPT_LEASE_SECONDS <= l_expires l
      | (_, _, Returned _) => res = Done /\ not_mine r h w'
      | (_, _, BodyLeaseLost) => (res = LeaseLostResult \/ res = AbandonedResult) /\ not_mine r h w'
      | _ => not_mine r h w'
      end
  | (_, w1) => w' = w1 /\ (res = Skipped \/ res = Deferred)
  end.
Proof.
  intros Hck Hrl H. unfold fenced in H. destruct (claim r state action token check w) as [cr w1] eqn:Ec.
  destruct cr as [h| | |]; [|simplify_eq; auto..|].
  - destruct (body (new_exec r h) w1) as [[e w2] en]. destruct en as [lo| | | |]; simpl in H.
    + simplify_eq. split; [done|]. apply release_not_mine.
    + simplify_eq. split; [done|]. intros l Hl Hh. by eapply kept_expiry.
    + destruct (x_abandoned e || x_lost e); [simplify_eq; apply release_not_mine|].
      destruct (refresh up_refresh e w2) as [e' st]. case_bool_decide; simplify_eq; apply release_not_mine.
    + simplify_eq. split; [destruct (x_abandoned e); auto|]. apply release_not_mine.
    + simplify_eq. apply release_not_mine.
  - exfalso. unfold claim in Ec. destruct (w_ranges w !! r); [|done].
    destruct (claim_lease r (action +:+ ":" +:+ token) w) as [lsd w1'].
    destruct state; [destruct check as [[]|]|]; destruct lsd; by simplify_eq/=.
Qed.

(** An abandon turns the task's lease into a tombstone that keeps the range blocked: for
    [LEASE_SECONDS] no claim succeeds, the task's own guarded writes do nothing, its next heartbeat
    notices and renews the tombstone, and only its release (or expiry) frees the range. *)
Theorem abandon_blocks r action token w w1 e t :
  x_holder e = action +:+ ":" +:+ token -> x_range e = r -> x_current e = x_holder e ->
  x_lost e = false -> startswith ABANDONED (x_holder e) = false ->
  lease_holder r w = Some (x_holder e) -> like (action +:+ ":%") (x_holder e) = true ->
  fence_lease r action false w = (true, w1) -> w_now w <= t <= w_now w + LEASE_SECONDS ->
  (forall h, (claim_lease r h (at_time t w1)).1 = false) /\
  (forall u, (guarded_range_update (Some e) r u (at_time t w1)).2 = at_time t w1) /\
  (exists l, w_leases (beat e (at_time t w1)).2 !! r = Some l /\ l_holder l = tombstone (x_holder e) /\
     t + LEASE_SECONDS <= l_expires l) /\
  lease_holder r (release_lease r (x_holder e) (at_time t w1)) = None.
Proof.
  intros Hh Hr Hc Hl Hp Hw Hlike Hf Ht. unfold lease_holder in Hw.
  destruct (w_leases w !! r) as [l|] eqn:El; [|done]. simpl in Hw. injection Hw as Hw.
  unfold fence_lease in Hf. rewrite El, Hw, Hlike in Hf. simpl in Hf. injection Hf as <-.
  set (w1 := set_leases _ _).
  assert (E1 : w_leases w1 !! r = Some (Lease (tombstone (x_holder e)) (w_now w + LEASE_SECONDS)))
    by (unfold w1; simpl; by rewrite lookup_insert_eq).
  assert (Hne : tombstone (x_holder e) <> x_holder e).
  { intros Heq. rewrite <- Heq in Hp. unfold tombstone in Hp. by rewrite startswith_app in Hp. }
  assert (Hhold : lease_holder r (at_time t w1) = Some (tombstone (x_holder e))) by (unfold lease_holder; simpl; by rewrite lookup_insert_eq).
  assert (Hobs : observe e (Some (tombstone (x_holder e))) =
    (Exec (x_range e) (x_holder e) (tombstone (x_holder e)) true (x_lost e), Abandoned)).
  { unfold observe. rewrite bool_decide_eq_false_2 by congruence. simpl. by rewrite bool_decide_eq_true_2. }
  split; [|split; [|split]].
  - intros h. destruct (claim_lease r h (at_time t w1)).1 eqn:E; [|done].
    pose proof (proj1 (claim_lease_spec r h (at_time t w1)) E _ E1) as Hx. simpl in Hx. lia.
  - intros u. unfold guarded_range_update. by rewrite Hr, String.eqb_refl, Hhold, Hobs.
  - unfold beat, extend_lease. rewrite Hl, Hr, Hc. change (w_leases (at_time t w1)) with (w_leases w1).
    rewrite E1. cbn [l_holder l_expires].
    assert (String.eqb (tombstone (x_holder e)) (x_holder e) = false) as -> by (by apply String.eqb_neq).
    rewrite Hhold, Hobs. simpl. rewrite Hr, lookup_insert_eq, String.eqb_refl. simpl.
    rewrite lookup_insert_eq. eexists. split; [done|]. simpl. split; [done|]. lia.
  - unfold release_lease. change (w_leases (at_time t w1)) with (w_leases w1). rewrite E1. cbn [l_holder].
    rewrite bool_decide_eq_true_2 by set_solver. unfold lease_holder. simpl. by rewrite lookup_delete_eq.
Qed.

(** ** Concrete runs *)

Definition demo_world : world :=
  World 1000 {[ "r1"%string := Lease "provision:old" 900 ]} {[ "r1"%string := Grow "provisioning" None None ]}.
Definition demo_holder : string := "provision:t1".
Definition demo_claimed : world := (claim_lease "r1" demo_holder demo_world).2.
Definition demo_exec : exec := new_exec "r1" demo_holder.

Lemma claim_exclusive_witness :
  w_leases (claim "r1" (Some "provisioning"%string) "provision" "t1" (Some true) demo_world).2 !! "r1"%string =
    Some (Lease demo_holder 1180) /\
  (claim "r1" (Some "provisioning"%string) "provision" "t2" (Some true) demo_claimed).2 = demo_claimed.
Proof.
  split.
  - apply (claim_exclusive "r1" (Some "provisioning"%string) "provision" "t1" (Some true) demo_world
      (Claimed demo_holder) _ ltac:(discriminate) eq_refl). reflexivity.
  - destruct (claim_exclusive "r1" (Some "provisioning"%string) "provision" "t2" (Some true) demo_claimed
      LeaseHeld _ ltac:(discriminate) eq_refl) as [_ H].
    apply (H (Lease demo_holder 1180)); vm_compute; [reflexivity|discriminate].
Defined.

(** The lease expired, another execution took it over: the old one wakes up and writes nothing. *)
Definition demo_sys : sys :=
  Sys demo_claimed {[ "provision:old"%string := new_exec "r1" "provision:old" ]} {[ "provision:old"; demo_holder ]}%string.
Definition demo_ready : update := Update "ready" None (Some "{}"%string) None true.

Lemma fenced_out_forever_witness :
  (guarded_range_update (Some (new_exec "r1" "provision:old")) "r1" demo_ready (s_world demo_sys)).2 = s_world demo_sys.
Proof.
  apply (fenced_out_forever demo_sys demo_sys "r1" "provision:old" (new_exec "r1" "provision:old") demo_ready
    (guarded_range_update (Some (new_exec "r1" "provision:old")) "r1" demo_ready (s_world demo_sys)).1.1
    (guarded_range_update (Some (new_exec "r1" "provision:old")) "r1" demo_ready (s_world demo_sys)).1.2).
  - apply rtc_refl.
  - apply (bool_decide_unpack _). vm_compute. exact I.
  - vm_compute. reflexivity.
  - vm_compute. discriminate.
  - reflexivity.
  - reflexivity.
  - vm_compute. reflexivity.
Defined.

Lemma heartbeat_keeps_lease_witness :
  lease_holder "r1" (fold_left (play demo_exec) [EClaim 1150 "x"; EBeat 1170; EClaim 1345 "y"; EBeat 1350] demo_claimed)%string
  = Some demo_holder.
Proof.
  apply (heartbeat_keeps_lease demo_exec _ demo_world); [reflexivity|reflexivity|].
  simpl. unfold LEASE_SECONDS. lia.
Defined.

Definition demo_body (e : exec) (w : world) : exec * world * ending :=
  let '(c, _, w') := guarded_range_update (Some e) "r1" demo_ready w in (default e c, w', Returned false).

Lemma fenced_leaves_witness :
  (fenced demo_body true true id (Some true) "provision" "t1" (Some "provisioning"%string) "r1" demo_world).1 = Done /\
  not_mine "r1" demo_holder
    (fenced demo_body true true id (Some true) "provision" "t1" (Some "provisioning"%string) "r1" demo_world).2.
Proof.
  exact (fenced_leaves demo_body true id (Some true) "provision" "t1" (Some "provisioning"%string) "r1" demo_world
    _ _ ltac:(discriminate) ltac:(reflexivity) eq_refl).
Defined.

Lemma abandon_blocks_witness :
  (claim_lease "r1" "destroy:t3" (at_time 1100 (fence_lease "r1" "provision" false demo_claimed).2)).1 = false.
Proof.
  apply (abandon_blocks "r1" "provision" "t1" demo_claimed _ demo_exec 1100); try reflexivity.
  vm_compute. split; discriminate.
Defined.
