(* ===== verification/RangeOps.v ===== *)
(** * Range operations: what was asked of a range, and its outbox

    Models [control-plane/api/app/range_ops/service.py] (acceptance, dispatch, reconciliation,
    abandonment, bypassed destroys, force-release), [range_ops/lease_status.py] and the worker's
    hold of an operation ([worker/maintenance_windows.py], [_hold_operation]).  A request row-locks
    one range, so the state is one range's: its row, its [range_operations] rows in acceptance
    order, its lease, and the facts of other tables the code reads.  A request that raises rolls
    back.  Times are integers of one unit.  The theorems: at most one operation is ever in flight;
    what an accepted operation implies, and that a replayed Idempotency-Key changes nothing;
    an operation's outcome is the range's observed state; one sender per operation; a tombstone is
    force-released only with proof that its worker stopped renewing. *)

From S2P Require Import Prelude StateMachines.
From Stdlib Require Import Ascii.

Local Open Scope Z_scope.

(** ** Data *)

Inductive action := Provision | Destroy | Stop | Start.
Inductive op_status := Pending | Dispatched | OnHold | Succeeded | Failed | Superseded.
#[export] Instance action_eq_dec : EqDecision action.
Proof. solve_decision. Defined.
#[export] Instance op_status_eq_dec : EqDecision op_status.
Proof. solve_decision. Defined.

Definition IN_FLIGHT : list op_status := [Pending; Dispatched; OnHold].

(** [ACTIONS]: the in-progress state and the outcomes. *)
Definition in_progress (a : action) : RangeState :=
  match a with Provision => provisioning | Destroy => destroying | Stop => stopping | Start => starting end.
Definition outcome (a : action) (s : RangeState) : option op_status :=
  match a, s with
  | Provision, ready | Destroy, destroyed | Stop, stopped | Start, running => Some Succeeded
  | _, failed => Some Failed
  | _, _ => None
  end.

(** The codes of an operation's [error]. *)
Inductive op_error :=
| NoOutcome | BrokerUnavailable | RangeFailed (message : string) | WasAbandoned | WasSuperseded
| Bypassed | MaintenanceWindow (why : string).

Record op := Op {
  o_id : Z; o_action : action; o_generation : Z; o_key : option string; o_hash : string;
  o_bypass : option string; o_status : op_status; o_task : option string; o_attempts : Z;
  o_error : option op_error; o_created : Z; o_dispatched : option Z; o_finished : option Z
}.

Inductive snapshot_state := SnapCreating | SnapRestoring.

(** [provisioner_output]: absent, unreadable or not an object; or its [vms]. *)
Inductive output := NoVms | Vms (names : list string).

Record rdb := Rdb {
  d_now : Z;
  d_state : RangeState;
  d_error : option string;
  d_output : output;
  d_ops : list op;
  d_lease : option (string * Z);            (* holder, expires_at *)
  d_snapshot : option snapshot_state;       (* one being taken or restored *)
  d_exercise_running : bool;
  d_reservations : list string;             (* the range's network reservations *)
  d_next : Z
}.

Definition set_range (s : RangeState) (e : option string) (d : rdb) : rdb :=
  Rdb d.(d_now) s e d.(d_output) d.(d_ops) d.(d_lease) d.(d_snapshot) d.(d_exercise_running) d.(d_reservations) d.(d_next).
Definition set_ops (l : list op) (d : rdb) : rdb :=
  Rdb d.(d_now) d.(d_state) d.(d_error) d.(d_output) l d.(d_lease) d.(d_snapshot) d.(d_exercise_running) d.(d_reservations) d.(d_next).
Definition set_lease (l : option (string * Z)) (d : rdb) : rdb :=
  Rdb d.(d_now) d.(d_state) d.(d_error) d.(d_output) d.(d_ops) l d.(d_snapshot) d.(d_exercise_running) d.(d_reservations) d.(d_next).
Definition set_reservations (l : list string) (d : rdb) : rdb :=
  Rdb d.(d_now) d.(d_state) d.(d_error) d.(d_output) d.(d_ops) d.(d_lease) d.(d_snapshot) d.(d_exercise_running) l d.(d_next).
Definition set_next (n : Z) (d : rdb) : rdb :=
  Rdb d.(d_now) d.(d_state) d.(d_error) d.(d_output) d.(d_ops) d.(d_lease) d.(d_snapshot) d.(d_exercise_running) d.(d_reservations) n.

Definition settle_op (s : op_status) (at_ : Z) (e : option op_error) (o : op) : op :=
  Op o.(o_id) o.(o_action) o.(o_generation) o.(o_key) o.(o_hash) o.(o_bypass) s o.(o_task) o.(o_attempts) e
     o.(o_created) o.(o_dispatched) (Some at_).
Definition set_op_error (e : option op_error) (o : op) : op :=
  Op o.(o_id) o.(o_action) o.(o_generation) o.(o_key) o.(o_hash) o.(o_bypass) o.(o_status) o.(o_task) o.(o_attempts) e
     o.(o_created) o.(o_dispatched) o.(o_finished).

Definition in_flight (o : op) : bool := bool_decide (o.(o_status) ∈ IN_FLIGHT).
Definition busy_ops (d : rdb) : list op := List.filter in_flight d.(d_ops).

Definition ABANDONED : string := "abandoned:".
Definition HELD_MARKER : string := "is held by the worker: a maintenance window".
Definition BYPASS_KINDS : list string := ["emergency"; "booking_ended"; "canary"].
(** Of the operations here: restore is not one. *)
Definition REFUSED_ACTIONS : list action := [Provision; Destroy].

(** [sub in s] *)
Fixpoint contains (sub s : string) : bool :=
  String.prefix sub s || match s with EmptyString => false | String _ s' => contains sub s' end.

(** The refusals.  [Conflict] is a 409, with what the message says. *)
Inductive conflict :=
| KeyReused | BadState | NoVmsRecorded | SnapshotBusy | ExerciseRunning | VmsLeft | WorkerActing (holder : string)
| OperationBusy (op_id : Z) | InWindow | PoolExhausted | AlreadySettled | NotReleasable | StillInFlight.
Inductive exn := Conflict (c : conflict) | NotFound | ValueError.

Section Settings.
(** RANGE_LEASE_SECONDS, RANGE_LEASE_HEARTBEAT_SECONDS and RANGE_OP_STALE_AFTER_SECONDS, in the unit
    of the clock; sha256 of the request's JSON. *)
Context (lease_seconds heartbeat_seconds stale_after : Z) (request_hash : action -> string).

(** ** Reconciliation *)

(** What [reconcile] does to one operation. *)
Definition reconcile_op (d : rdb) (o : op) : op :=
  if bool_decide (o.(o_status) = Dispatched) then
    match outcome o.(o_action) d.(d_state) with
    | Some Failed =>
        settle_op Failed d.(d_now) (Some (RangeFailed (match d.(d_error) with
          | Some m => if String.eqb m "" then "The worker reported a failure" else String.substring 0 500 m
          | None => "The worker reported a failure" end))) o
    | Some s => settle_op s d.(d_now) o.(o_error) o
    | None =>
        match o.(o_dispatched), o.(o_error) with
        | Some sent, None => if stale_after <? d.(d_now) - sent then set_op_error (Some NoOutcome) o else o
        | _, _ => o
        end
    end
  else o.

(** A dispatched destroy that succeeded: the range's reservations are released. *)
Definition destroy_done (d : rdb) (o : op) : bool :=
  bool_decide (o.(o_status) = Dispatched) && bool_decide (o.(o_action) = Destroy) &&
  bool_decide (outcome o.(o_action) d.(d_state) = Some Succeeded).

Definition reconcile (d : rdb) : rdb :=
  let d' := set_ops (map (reconcile_op d) d.(d_ops)) d in
  if existsb (destroy_done d) d.(d_ops) then set_reservations [] d' else d'.

(** ** Acceptance *)

(** [worker_acting]: the holder of an unexpired lease. *)
Definition worker_acting (d : rdb) : option string :=
  match d.(d_lease) with Some (h, e) => if d.(d_now) <? e then Some h else None | None => None end.

(** [parked] *)
Definition parked (d : rdb) : bool :=
  if negb (bool_decide (d.(d_state) ∈ [provisioning; destroying])) || bool_decide (is_Some (worker_acting d)) then false
  else if bool_decide (d.(d_state) = provisioning) then
    negb (bool_decide (busy_ops d = [])) &&
    forallb (fun o => bool_decide (o.(o_action) = Provision) && bool_decide (o.(o_status) ∈ [OnHold; Pending])) (busy_ops d)
  else bool_decide (busy_ops d = []) && contains HELD_MARKER (default ""%string d.(d_error)).

(** [recorded_vms] *)
Definition recorded_vms (d : rdb) : Z := match d.(d_output) with NoVms => 0 | Vms l => zlen l end.

Definition supersede (now : Z) (o : op) : op :=
  if in_flight o then settle_op Superseded now (Some WasSuperseded) o else o.

(** [_check]: the database it leaves (reconciled; a destroy supersedes what is in flight). *)
Definition check (d0 : rdb) (a : action) : result exn rdb :=
  let d := reconcile d0 in
  if negb (range_can_transition_to d.(d_state) (in_progress a)) && negb (bool_decide (a = Destroy) && parked d)
  then Err (Conflict BadState)
  else if bool_decide (a ∈ [Stop; Start]) && (recorded_vms d =? 0) then Err (Conflict NoVmsRecorded)
  else if bool_decide (a ∈ [Stop; Start]) && match d.(d_snapshot) with Some _ => true | None => false end
  then Err (Conflict SnapshotBusy)
  else if bool_decide (a = Stop) && d.(d_exercise_running) then Err (Conflict ExerciseRunning)
  else if bool_decide (a = Provision) && negb (recorded_vms d =? 0) then Err (Conflict VmsLeft)
  else
    match (if bool_decide (a = Destroy) then None else worker_acting d) with
    | Some h => Err (Conflict (WorkerActing h))
    | None =>
        if bool_decide (a = Destroy) then Ok (set_ops (map (supersede d.(d_now)) d.(d_ops)) d)
        else match busy_ops d with
             | o :: _ => Err (Conflict (OperationBusy o.(o_id)))
             | [] => Ok d
             end
    end.

(** [max(generation) or 0] *)
Definition max_generation (d : rdb) : Z := fold_right (fun o m => Z.max o.(o_generation) m) 0 d.(d_ops).

(** What the acceptance asks of other components: whether a window covers the range, and whether a
    provision's addresses could be reserved. *)
Record accept_env := AcceptEnv { window_covers : bool; pool_ok : bool }.

Definition new_op (d : rdb) (a : action) (key bypass : option string) : op :=
  Op d.(d_next) a (max_generation d + 1) key (request_hash a) bypass Pending None 0 None d.(d_now) None None.

(** [if idempotency_key:] *)
Definition given (key : option string) : bool :=
  match key with Some k => negb (String.eqb k "") | None => false end.

Definition replay_of (d : rdb) (key : option string) : option op :=
  if given key then List.find (fun o => bool_decide (o.(o_key) = key)) d.(d_ops) else None.

Definition accept (d : rdb) (a : action) (key bypass : option string) (env : accept_env)
    : result exn (op * rdb * bool) :=
  if match bypass with
     | Some b => negb (bool_decide (a = Destroy)) || negb (bool_decide (b ∈ BYPASS_KINDS))
     | None => false end
  then Err ValueError
  else
    match replay_of d key with
    | Some existing =>
        if String.eqb existing.(o_hash) (request_hash a) then Ok (existing, d, false) else Err (Conflict KeyReused)
    | None =>
        if bool_decide (a ∈ REFUSED_ACTIONS) && bool_decide (bypass = None) && env.(window_covers)
        then Err (Conflict InWindow)
        else
          d1 ← check d a;
          if bool_decide (a = Provision) && negb env.(pool_ok) then Err (Conflict PoolExhausted)
          else
            let o := new_op d1 a key bypass in
            Ok (o, set_next (d1.(d_next) + 1) (set_range (in_progress a) None (set_ops (d1.(d_ops) ++ [o]) d1)), true)
    end.

(** [refuse_while_in_flight] *)
Definition refuse_while_in_flight (d : rdb) : result exn rdb :=
  let d' := reconcile d in
  match busy_ops d' with [] => Ok d' | _ :: _ => Err (Conflict StillInFlight) end.

(** ** Dispatch *)

Definition update_op (id : Z) (f : op -> op) (d : rdb) : rdb :=
  set_ops (map (fun o => if o.(o_id) =? id then f o else o) d.(d_ops)) d.

Definition find_op (id : Z) (d : rdb) : option op := List.find (fun o => o.(o_id) =? id) d.(d_ops).

(** The status write after the send ([task_id] None: the broker was down), over [sent_from] only. *)
Definition record_send (sent_from : op_status) (task_id : option string) (now : Z) (o : op) : op :=
  if bool_decide (o.(o_status) = sent_from) then
    match task_id with
    | Some t => Op o.(o_id) o.(o_action) o.(o_generation) o.(o_key) o.(o_hash) o.(o_bypass) Dispatched (Some t)
                   (o.(o_attempts) + 1) None o.(o_created) (Some now) o.(o_finished)
    | None => Op o.(o_id) o.(o_action) o.(o_generation) o.(o_key) o.(o_hash) o.(o_bypass) o.(o_status) o.(o_task)
                 (o.(o_attempts) + 1) (Some BrokerUnavailable) o.(o_created) o.(o_dispatched) o.(o_finished)
    end
  else o.

(** [_hold_operation]: the worker found its task inside a maintenance window. *)
Definition hold_operation (id : Z) (why : string) (d : rdb) : rdb :=
  update_op id (fun o =>
    if bool_decide (o.(o_status) ∈ [Pending; Dispatched])
    then Op o.(o_id) o.(o_action) o.(o_generation) o.(o_key) o.(o_hash) o.(o_bypass) OnHold o.(o_task) o.(o_attempts)
            (Some (MaintenanceWindow (String.substring 0 500 why))) o.(o_created) None o.(o_finished)
    else o) d.

(** [dispatch]: whether it sent, the tasks handed to the broker, the database.  [broker] is the task
    id the broker answers; [meanwhile] what the worker does between the send and the status write. *)
Definition dispatch (id : Z) (broker : option string) (meanwhile : rdb -> rdb) (d : rdb) : bool * list Z * rdb :=
  match find_op id d with
  | Some o =>
      if bool_decide (o.(o_status) ∈ [Pending; OnHold]) then
        match broker with
        | Some t => (true, [id], update_op id (record_send o.(o_status) (Some t) d.(d_now)) (meanwhile d))
        | None => (false, [], update_op id (record_send o.(o_status) None d.(d_now)) d)
        end
      else (false, [], d)
  | None => (false, [], d)
  end.

(** ** Bypassed destroys *)

(** The destroy in flight with the highest generation. *)
Definition newest_destroy (d : rdb) : option op :=
  fold_left (fun best o =>
    if bool_decide (o.(o_action) = Destroy) && in_flight o then
      match best with
      | Some b => if b.(o_generation) <? o.(o_generation) then Some o else best
      | None => Some o
      end
    else best) d.(d_ops) None.

Definition run_destroy_with_bypass (d : rdb) (window_bypass : string) (force : bool) : result exn (option Z * rdb) :=
  if negb (bool_decide (window_bypass ∈ BYPASS_KINDS)) then Err ValueError
  else
    match newest_destroy d with
    | None => Ok (None, d)
    | Some o =>
        let give o :=
          let bp := if negb (given o.(o_bypass)) || force then Some window_bypass else o.(o_bypass) in
          let '(st, er) := if bool_decide (o.(o_status) = OnHold) then (Pending, Some Bypassed) else (o.(o_status), o.(o_error)) in
          Op o.(o_id) o.(o_action) o.(o_generation) o.(o_key) o.(o_hash) bp st o.(o_task) o.(o_attempts) er
             o.(o_created) o.(o_dispatched) o.(o_finished) in
        Ok (Some o.(o_id), update_op o.(o_id) give d)
    end.

(** ** Abandonment *)

Definition action_name (a : action) : string :=
  match a with Provision => "provision" | Destroy => "destroy" | Stop => "stop" | Start => "start" end.

(** [fence_lease] (Lease.v models the pattern as SQL LIKE; the actions hold no wildcard). *)
Definition fence (a : action) (legacy : bool) (d : rdb) : bool * rdb :=
  match d.(d_lease) with
  | Some (h, _) =>
      if startswith (action_name a +:+ ":") h || (legacy && negb (contains ":" h))
      then (true, set_lease (Some (ABANDONED +:+ h, d.(d_now) + lease_seconds)) d)
      else (false, d)
  | None => (false, d)
  end.

Definition abandon (d0 : rdb) (id : Z) : result exn (bool * rdb) :=
  let d := reconcile d0 in
  match find_op id d with
  | None => Err NotFound
  | Some o =>
      if negb (in_flight o) then Err (Conflict AlreadySettled)
      else
        let only_op := forallb (fun o' => o'.(o_id) =? id) (busy_ops d) in
        let '(released, d1) := fence o.(o_action) only_op d in
        let d2 := update_op id (settle_op Failed d.(d_now) (Some WasAbandoned)) d1 in
        Ok (released,
            if bool_decide (d.(d_state) = in_progress o.(o_action))
            then set_range failed (Some (action_name o.(o_action) +:+
                   " abandoned by an operator; check the hypervisor for the VMs' real state")) d2
            else d2)
  end.

(** ** Whether a lease may be force-released: lease_status.py *)

Inductive lease_kind := KNone | KTask | KTombstone.

Record lease_status := LeaseStatus { ls_kind : lease_kind; ls_blocking : bool; ls_allowed : bool }.

(** [rest.split(":", 1)[0] if ":" in rest] *)
Fixpoint before_colon (s : string) : string :=
  match s with EmptyString => "" | String c s' => if Ascii.eqb c ":"%char then "" else String c (before_colon s') end.

Definition drop_prefix (p s : string) : string := String.substring (String.length p) (String.length s) s.

Definition abandoned_of (holder : string) (o : op) : bool :=
  let rest := drop_prefix ABANDONED holder in
  bool_decide (o.(o_status) = Failed) &&
  (negb (contains ":" rest) || String.eqb (action_name o.(o_action)) (before_colon rest)).

Definition was_abandoned (o : op) : bool :=
  match o.(o_error), o.(o_finished) with Some WasAbandoned, Some _ => true | _, _ => false end.

(** [_abandoned_operation]: among the 20 that finished last, the latest abandoned one. *)
Definition finished_leb (o o' : op) : bool := default 0 o'.(o_finished) <=? default 0 o.(o_finished).
Definition abandoned_operation (d : rdb) (holder : string) : option op :=
  List.find was_abandoned (take 20 (py_sorted finished_leb (List.filter (abandoned_of holder) d.(d_ops)))).

Definition assess (d0 : rdb) : lease_status * rdb :=
  let d := reconcile d0 in
  (match d.(d_lease) with
   | None => LeaseStatus KNone false false
   | Some (holder, expires) =>
       let expired := expires <=? d.(d_now) in
       if negb (startswith ABANDONED holder) then LeaseStatus KTask (negb expired) false
       else if negb (bool_decide (busy_ops d = [])) then LeaseStatus KTombstone (negb expired) false
       else match d.(d_snapshot) with
            | Some _ => LeaseStatus KTombstone (negb expired) false
            | None =>
                match abandoned_operation d holder with
                | None => LeaseStatus KTombstone (negb expired) false
                | Some o =>
                    let abandoned_at := default 0 o.(o_finished) in
                    let written := abandoned_at + lease_seconds in
                    (* expires > written + beat / 2 *)
                    if 2 * written + heartbeat_seconds <? 2 * expires then LeaseStatus KTombstone (negb expired) false
                    else if expired then LeaseStatus KTombstone (negb expired) true
                    else if 0 <? abandoned_at + 2 * heartbeat_seconds - d.(d_now)
                    then LeaseStatus KTombstone (negb expired) false
                    else LeaseStatus KTombstone (negb expired) true
                end
            end
   end, d).

(** [force_release_tombstone] *)
Definition force_release_tombstone (d0 : rdb) : result exn (string * bool * rdb) :=
  let '(st, d) := assess d0 in
  match d.(d_lease) with
  | None => Err NotFound
  | Some (holder, expires) =>
      if negb st.(ls_allowed) then Err (Conflict NotReleasable)
      else Ok (holder, expires <=? d.(d_now), set_lease None d)
  end.

(** ** Everybody's steps on the range *)

(** The worker, the clock and other components may change anything but the operations. *)
Definition same_ops (d d' : rdb) : Prop := d'.(d_ops) = d.(d_ops) /\ d'.(d_next) = d.(d_next).

Inductive rstep : rdb -> rdb -> Prop :=
| rs_world d d' : same_ops d d' -> rstep d d'
| rs_accept d a key bypass env o d' b : accept d a key bypass env = Ok (o, d', b) -> rstep d d'
| rs_reconcile d : rstep d (reconcile d)
| rs_dispatch d id broker hold : rstep d (dispatch id broker (match hold with Some w => hold_operation id w | None => fun x => x end) d).2
| rs_hold d id why : rstep d (hold_operation id why d)
| rs_bypass d wb force r d' : run_destroy_with_bypass d wb force = Ok (r, d') -> rstep d d'
| rs_abandon d id b d' : abandon d id = Ok (b, d') -> rstep d d'
| rs_release d h b d' : force_release_tombstone d = Ok (h, b, d') -> rstep d d'.

(** What an update of an operation may do: keep its identity, and never put it back in flight. *)
Definition ident (o : op) : Z * action * Z * option string * string :=
  (o.(o_id), o.(o_action), o.(o_generation), o.(o_key), o.(o_hash)).
Definition calm (f : op -> op) : Prop :=
  forall o, ident (f o) = ident o /\ (in_flight (f o) = true -> in_flight o = true).

Lemma calm_if (p : op -> bool) f : calm f -> calm (fun o => if p o then f o else o).
Proof. intros H o. destruct (p o); [apply H|done]. Qed.
Lemma calm_settle s at_ e : s ∉ IN_FLIGHT -> calm (settle_op s at_ e).
Proof. intros Hs o. split; [done|]. unfold in_flight; simpl. by rewrite bool_decide_eq_false_2. Qed.
Lemma calm_reconcile d : calm (reconcile_op d).
Proof.
  intros o. unfold reconcile_op. case_bool_decide; [|done].
  destruct (outcome (o_action o) (d_state d)) as [s|] eqn:E.
  - assert (s = Succeeded \/ s = Failed) as [-> | ->].
    { destruct (o_action o), (d_state d); simplify_eq/=; auto. }
    + apply calm_settle. unfold IN_FLIGHT. set_solver.
    + apply calm_settle. unfold IN_FLIGHT. set_solver.
  - repeat case_match; done.
Qed.
Lemma calm_supersede now : calm (supersede now).
Proof. apply calm_if, calm_settle. unfold IN_FLIGHT. set_solver. Qed.
Lemma calm_record_send sf t now : sf ∈ IN_FLIGHT -> calm (record_send sf t now).
Proof.
  intros Hs o. unfold record_send. case_bool_decide; [|done]. subst.
  assert (in_flight o = true) by (by apply bool_decide_eq_true). by destruct t.
Qed.

Lemma map_calm_ident f l : calm f -> map ident (map f l) = map ident l.
Proof. intros H. rewrite map_map. apply map_ext. intros o. apply H. Qed.

Lemma map_calm_busy f l : calm f -> (length (List.filter in_flight (map f l)) <= length (List.filter in_flight l))%nat.
Proof.
  intros H. induction l as [|o l IH]; simpl; [done|]. destruct (H o) as [_ Ho].
  destruct (in_flight (f o)); [rewrite (Ho eq_refl); simpl; lia|]. destruct (in_flight o); simpl; lia.
Qed.

(** ** The invariant *)

Definition ident_id (i : Z * action * Z * option string * string) : Z := i.1.1.1.1.
Definition ident_gen (i : Z * action * Z * option string * string) : Z := i.1.1.2.
Definition ident_key (i : Z * action * Z * option string * string) : option string := i.1.2.

(** Ids and generations grow in acceptance order, an Idempotency-Key names one operation, and at
    most one operation is in flight. *)
Definition inv (d : rdb) : Prop :=
  (length (busy_ops d) <= 1)%nat /\
  Sorted.StronglySorted (fun i j => ident_id i < ident_id j /\ ident_gen i < ident_gen j) (map ident d.(d_ops)) /\
  Forall (fun i => ident_id i < d.(d_next)) (map ident d.(d_ops)) /\
  unique_by (fun i => if given (ident_key i) then ident_key i else None) (map ident d.(d_ops)).

Lemma inv_map f d : calm f -> inv d -> inv (set_ops (map f d.(d_ops)) d).
Proof.
  intros Hf (H1 & H2 & H3 & H4). unfold inv, busy_ops; simpl. rewrite map_calm_ident by done.
  split; [|done]. pose proof (map_calm_busy f (d_ops d) Hf). unfold busy_ops in H1. lia.
Qed.

Lemma inv_same d d' : same_ops d d' -> inv d -> inv d'.
Proof. intros [H1 H2]. unfold inv, busy_ops. by rewrite H1, H2. Qed.

Lemma inv_reconcile d : inv d -> inv (reconcile d).
Proof.
  intros H. unfold reconcile. apply (inv_map _ _ (calm_reconcile d)) in H. by case_match.
Qed.

Lemma busy_all_settled l now : List.filter in_flight (map (supersede now) l) = [].
Proof.
  induction l as [|o l IH]; simpl; [done|]. unfold supersede at 1. destruct (in_flight o) eqn:E; simpl; [done|].
  by rewrite E.
Qed.

(** What [check] leaves: the operations' identities, and none in flight. *)
Lemma check_ok d a d1 :
  check d a = Ok d1 ->
  map ident d1.(d_ops) = map ident d.(d_ops) /\ d1.(d_next) = d.(d_next) /\ busy_ops d1 = [] /\ d1.(d_now) = d.(d_now) /\
  d1.(d_state) = d.(d_state) /\
  (range_can_transition_to d.(d_state) (in_progress a) = true \/ (a = Destroy /\ parked (reconcile d) = true)) /\
  (a <> Destroy -> worker_acting d = None /\ busy_ops (reconcile d) = []) /\
  (a = Stop \/ a = Start -> 0 < recorded_vms d /\ d.(d_snapshot) = None) /\
  (a = Stop -> d.(d_exercise_running) = false) /\ (a = Provision -> recorded_vms d = 0).
Proof.
  unfold check. intros H.
  assert (Hs : d_state (reconcile d) = d_state d /\ d_now (reconcile d) = d_now d /\ d_next (reconcile d) = d_next d /\
    d_lease (reconcile d) = d_lease d /\ d_output (reconcile d) = d_output d /\ d_snapshot (reconcile d) = d_snapshot d /\
    d_exercise_running (reconcile d) = d_exercise_running d /\ map ident (d_ops (reconcile d)) = map ident (d_ops d)).
  { unfold reconcile. pose proof (map_calm_ident _ (d_ops d) (calm_reconcile d)). by destruct (existsb _ _). }
  destruct Hs as (E1 & E2 & E3 & E4 & E5 & E6 & E7 & E8). set (dr := reconcile d) in *.
  assert (Hr : recorded_vms dr = recorded_vms d) by (unfold recorded_vms; by rewrite E5).
  assert (Hw : worker_acting dr = worker_acting d) by (unfold worker_acting; by rewrite E4, E2).
  rewrite E1, E6, E7, Hr, Hw in H. pose proof (zlen_nonneg (match d_output d with Vms l => l | NoVms => [] end)) as Hz.
  assert (Hz' : 0 <= recorded_vms d) by (unfold recorded_vms; by destruct (d_output d)).
  do 5 (let C := fresh "C" in
    match type of H with (if ?b then _ else _) = _ => destruct b eqn:C; [done|] end).
  assert (Hcommon :
    (range_can_transition_to (d_state d) (in_progress a) = true \/ (a = Destroy /\ parked dr = true)) /\
    (a = Stop \/ a = Start -> 0 < recorded_vms d /\ d_snapshot d = None) /\
    (a = Stop -> d_exercise_running d = false) /\ (a = Provision -> recorded_vms d = 0)).
  { split; [|split; [|split]].
    - destruct (range_can_transition_to (d_state d) (in_progress a)); [by left|right]. simpl in C.
      apply negb_false_iff, andb_true_iff in C as [C%bool_decide_eq_true ?]. done.
    - intros Ha. assert (a ∈ [Stop; Start]) as Hin by (destruct Ha; subst; set_solver).
      rewrite (bool_decide_eq_true_2 _ Hin) in C0, C1. simpl in C0, C1. apply Z.eqb_neq in C0.
      split; [lia|]. by destruct (d_snapshot d).
    - intros ->. simpl in C2. done.
    - intros ->. simpl in C3. apply negb_false_iff, Z.eqb_eq in C3. done. }
  destruct Hcommon as (K1 & K2 & K3 & K4).
  destruct (decide (a = Destroy)) as [->|Hd].
  - rewrite !(bool_decide_eq_true_2 (Destroy = Destroy)) in H by done. simplify_eq. simpl.
    rewrite map_calm_ident by apply calm_supersede. unfold busy_ops; simpl. rewrite busy_all_settled.
    repeat split; try done; try congruence; try (by apply K2).
  - rewrite !(bool_decide_eq_false_2 (a = Destroy)) in H by done.
    destruct (worker_acting d) eqn:Ew; [done|]. destruct (busy_ops dr) as [|o l] eqn:Eb; [|done]. simplify_eq.
    repeat split; try done; try congruence; try (by apply K2).
Qed.

Lemma max_generation_ge d i : i ∈ map ident d.(d_ops) -> ident_gen i <= max_generation d.
Proof.
  unfold max_generation. induction (d_ops d) as [|o l IH]; simpl; [by rewrite elem_of_nil|].
  rewrite elem_of_cons. intros [->|H]; [unfold ident_gen, ident; simpl; lia|]. specialize (IH H). lia.
Qed.

Lemma replay_none_key d key o : replay_of d key = None -> given key = true -> o ∈ d.(d_ops) -> o.(o_key) <> key.
Proof.
  unfold replay_of. intros H Hg Ho. rewrite Hg in H. intros Hk.
  eapply List.find_none in H; [|by apply list_elem_of_In]. by apply bool_decide_eq_false in H.
Qed.

Lemma ssorted_snoc {A} (R : A -> A -> Prop) l x :
  Sorted.StronglySorted R l -> Forall (fun y => R y x) l -> Sorted.StronglySorted R (l ++ [x]).
Proof.
  induction 1 as [|y l Hs IH Hy]; intros Hf; simpl; [by repeat constructor|].
  apply Forall_cons in Hf as [Hx Hf]. constructor; [by apply IH|]. apply Forall_app. by repeat constructor.
Qed.

(** What an acceptance that is not a replay does. *)
Lemma accept_created d a key bypass env o d' :
  accept d a key bypass env = Ok (o, d', true) ->
  exists d1, check d a = Ok d1 /\ replay_of d key = None /\ o = new_op d1 a key bypass /\
    d' = set_next (d_next d1 + 1) (set_range (in_progress a) None (set_ops (d_ops d1 ++ [o]) d1)) /\
    (a = Provision \/ a = Destroy -> bypass = None -> window_covers env = false) /\
    (a = Provision -> pool_ok env = true) /\ (bypass <> None -> a = Destroy).
Proof.
  unfold accept. intros H.
  match type of H with (if ?b then _ else _) = _ => destruct b eqn:Eb; [done|] end.
  destruct (replay_of d key) as [x|]; [by case_match|].
  match type of H with (if ?b then _ else _) = _ => destruct b eqn:Ew; [done|] end.
  destruct (check d a) as [d1|] eqn:Ec; [|done]. simpl in H.
  match type of H with (if ?b then _ else _) = _ => destruct b eqn:Ep; [done|] end.
  simplify_eq. exists d1. split; [done|]. split; [done|]. split; [done|]. split; [done|]. split; [|split].
  - intros Ha ->. assert (a ∈ REFUSED_ACTIONS) as Hin by (unfold REFUSED_ACTIONS; destruct Ha; subst; set_solver).
    rewrite (bool_decide_eq_true_2 _ Hin) in Ew. simpl in Ew. by destruct (window_covers env).
  - intros ->. simpl in Ep. by destruct (pool_ok env).
  - intros Hb. destruct bypass; [|done]. apply orb_false_iff in Eb as [Eb _].
    by apply negb_false_iff, bool_decide_eq_true in Eb.
Qed.

Lemma accept_replayed d a key bypass env o d' :
  accept d a key bypass env = Ok (o, d', false) -> d' = d /\ replay_of d key = Some o /\ o.(o_hash) = request_hash a.
Proof.
  unfold accept. intros H.
  match type of H with (if ?b then _ else _) = _ => destruct b; [done|] end.
  destruct (replay_of d key) as [x|].
  - destruct (String.eqb (o_hash x) (request_hash a)) eqn:E; [|done]. simplify_eq. by apply String.eqb_eq in E.
  - match type of H with (if ?b then _ else _) = _ => destruct b; [done|] end.
    destruct (check d a); [|done]. simpl in H. by case_match.
Qed.

Lemma inv_accept d a key bypass env o d' b : inv d -> accept d a key bypass env = Ok (o, d', b) -> inv d'.
Proof.
  intros Hi H. destruct b; [|by apply accept_replayed in H as [-> _]].
  apply accept_created in H as (d1 & Hc & Hr & -> & -> & _).
  apply check_ok in Hc as (Hid & Hn & Hb & _). destruct Hi as (H1 & H2 & H3 & H4).
  unfold inv, busy_ops in *; simpl. rewrite map_app, Hid, List.filter_app, Hb. simpl.
  assert (Hgen : forall i, i ∈ map ident (d_ops d) -> ident_gen i <= max_generation d1).
  { intros i Hin. apply max_generation_ge. by rewrite Hid. }
  rewrite Forall_forall in H3. split; [done|]. split; [|split].
  - apply ssorted_snoc; [done|]. apply Forall_forall. intros i Hin. split.
    + change (ident_id i < d_next d1). rewrite Hn. by apply H3.
    + change (ident_gen i < max_generation d1 + 1). specialize (Hgen i Hin). lia.
  - apply Forall_app. split; [|repeat constructor; unfold ident_id; simpl; lia].
    apply Forall_forall. intros i Hin. specialize (H3 i Hin). lia.
  - apply unique_by_snoc; [done|]. intros i k Hin Hk Hk'. change (ident_key (ident (new_op d1 a key bypass))) with key in Hk.
    destruct (given key) eqn:Eg; [|done]. subst.
    apply list_elem_of_In, in_map_iff in Hin as (o & <- & Ho%list_elem_of_In).
    destruct (given (ident_key (ident o))); [|done]. by apply (replay_none_key d (Some k) o Hr Eg Ho).
Qed.

Lemma calm_update f d id : calm f -> inv d -> inv (update_op id f d).
Proof. intros Hf. apply inv_map. by apply (calm_if (fun o => o_id o =? id)). Qed.

Lemma calm_hold why : calm (fun o =>
    if bool_decide (o.(o_status) ∈ [Pending; Dispatched])
    then Op o.(o_id) o.(o_action) o.(o_generation) o.(o_key) o.(o_hash) o.(o_bypass) OnHold o.(o_task) o.(o_attempts)
            (Some (MaintenanceWindow (String.substring 0 500 why))) o.(o_created) None o.(o_finished)
    else o).
Proof.
  intros o. case_bool_decide as Hs; [|done]. split; [done|]. intros _. unfold in_flight.
  apply bool_decide_eq_true. unfold IN_FLIGHT. set_solver.
Qed.

Lemma inv_hold id why d : inv d -> inv (hold_operation id why d).
Proof. apply calm_update, calm_hold. Qed.

Lemma find_op_in id d o : find_op id d = Some o -> o ∈ d.(d_ops) /\ o_id o = id.
Proof. intros H. apply List.find_some in H as [H ?%Z.eqb_eq]. by rewrite <- list_elem_of_In in H. Qed.

Lemma inv_dispatch id broker hold d :
  inv d -> inv (dispatch id broker (match hold with Some w => hold_operation id w | None => fun x => x end) d).2.
Proof.
  intros Hi. unfold dispatch. destruct (find_op id d) as [o|]; [|done]. case_bool_decide as Hs; [|done].
  assert (o_status o ∈ IN_FLIGHT) by (unfold IN_FLIGHT; set_solver).
  destruct broker; simpl; (apply calm_update; [by apply calm_record_send|]); [|done].
  destruct hold; [by apply inv_hold|done].
Qed.

Lemma inv_step d d' : rstep d d' -> inv d -> inv d'.
Proof.
  intros Hs Hi. destruct Hs as [d d' Hs|d a key bypass env o d' b H|d|d id broker hold|d id why|d wb force r d' H|d id b d' H|d h b d' H].
  - by eapply inv_same.
  - by eapply inv_accept.
  - by apply inv_reconcile.
  - by apply inv_dispatch.
  - by apply inv_hold.
  - unfold run_destroy_with_bypass in H. destruct (negb _); [done|]. destruct (newest_destroy d) as [o|]; simplify_eq; [|done].
    apply calm_update; [|done]. intros x. destruct (bool_decide (o_status x = OnHold)) eqn:E; [|done].
    split; [done|]. intros _. apply bool_decide_eq_true in E. unfold in_flight. by rewrite E.
  - unfold abandon in H. apply inv_reconcile in Hi. destruct (find_op id (reconcile d)) as [o|]; [|done].
    destruct (negb _); [done|]. destruct (fence _ _ _) as [rel d1] eqn:Ef.
    assert (inv d1) as H1.
    { eapply inv_same; [|exact Hi]. unfold fence in Ef. repeat case_match; simplify_eq; done. }
    apply (calm_update (settle_op Failed (d_now (reconcile d)) (Some WasAbandoned)) d1 id) in H1.
    + simplify_eq. destruct (bool_decide (d_state (reconcile d) = _)); exact H1.
    + apply calm_settle. unfold IN_FLIGHT. set_solver.
  - unfold force_release_tombstone, assess in H. apply inv_reconcile in Hi.
    destruct (d_lease (reconcile d)) as [[h' e]|]; [|done]. case_match; [done|]. simplify_eq. exact Hi.
Qed.

Lemma inv_steps d d' : rtc rstep d d' -> inv d -> inv d'.
Proof. induction 1; eauto using inv_step. Qed.

(** Operations are never deleted and keep their identity. *)
Lemma step_prefix d d' : rstep d d' -> exists l, map ident d'.(d_ops) = map ident d.(d_ops) ++ l.
Proof.
  assert (Hrec : forall d, map ident (d_ops (reconcile d)) = map ident (d_ops d)).
  { intros x. unfold reconcile. pose proof (map_calm_ident _ (d_ops x) (calm_reconcile x)). by destruct (existsb _ _). }
  assert (Hupd : forall id f d, calm f -> map ident (d_ops (update_op id f d)) = map ident (d_ops d)).
  { intros id f x Hf. apply map_calm_ident. by apply (calm_if (fun o => o_id o =? id)). }
  assert (Hz : forall d d', map ident (d_ops d') = map ident (d_ops d) ->
    exists l, map ident (d_ops d') = map ident (d_ops d) ++ l) by (intros x y Hxy; exists []; by rewrite app_nil_r).
  intros Hs. destruct Hs as [d d' [-> _]|d a key bypass env o d' b H|d|d id broker hold|d id why|d wb force r d' H|d id b d' H|d h b d' H].
  - exists []. by rewrite app_nil_r.
  - destruct b; [|apply accept_replayed in H as [-> _]; by apply Hz].
    apply accept_created in H as (d1 & Hc & _ & -> & -> & _). apply check_ok in Hc as (Hid & _). simpl.
    rewrite map_app, Hid. by eexists.
  - by apply Hz.
  - apply Hz. unfold dispatch. destruct (find_op id d) as [o|]; [|done]. case_bool_decide as Hst; [|done].
    assert (o_status o ∈ IN_FLIGHT) by (unfold IN_FLIGHT; set_solver).
    destruct broker; cbn [snd]; rewrite Hupd by (by apply calm_record_send); [|done].
    destruct hold; [apply Hupd, calm_hold|done].
  - apply Hz, Hupd, calm_hold.
  - apply Hz. unfold run_destroy_with_bypass in H. destruct (negb _); [done|].
    destruct (newest_destroy d) as [o|]; simplify_eq; [|done]. apply Hupd. intros x.
    destruct (bool_decide (o_status x = OnHold)) eqn:E; [|done]. split; [done|]. intros _.
    apply bool_decide_eq_true in E. unfold in_flight. by rewrite E.
  - apply Hz. unfold abandon in H. destruct (find_op id (reconcile d)) as [o|]; [|done].
    destruct (negb _); [done|]. destruct (fence _ _ _) as [rel d1] eqn:Ef.
    assert (d_ops d1 = d_ops (reconcile d)) as H1 by (unfold fence in Ef; repeat case_match; simplify_eq; done).
    assert (map ident (d_ops (update_op id (settle_op Failed (d_now (reconcile d)) (Some WasAbandoned)) d1)) =
      map ident (d_ops d)) as Hx.
    { rewrite Hupd, H1 by (apply calm_settle; unfold IN_FLIGHT; set_solver). apply Hrec. }
    simplify_eq. destruct (bool_decide (d_state (reconcile d) = _)); exact Hx.
  - apply Hz. unfold force_release_tombstone, assess in H.
    destruct (d_lease (reconcile d)) as [[h' e]|]; [|done]. case_match; [done|]. simplify_eq. simpl. apply Hrec.
Qed.

(** ** The properties *)

Definition empty_ops (d : rdb) : Prop := d.(d_ops) = [].

Lemma inv_empty d : empty_ops d -> inv d.
Proof. intros H. unfold inv, busy_ops. rewrite H. simpl. repeat split; [lia|constructor..]. Qed.

(** C8: whatever requests, sends, worker holds, abandons and releases happened on a range, at most
    one operation is in flight, generations count up in acceptance order, and an Idempotency-Key
    names one operation. *)
Theorem one_in_flight d0 d o o' :
  empty_ops d0 -> rtc rstep d0 d ->
  (in_flight o = true -> in_flight o' = true -> o ∈ d_ops d -> o' ∈ d_ops d -> o = o') /\
  (forall i j, d_ops d !! i = Some o -> d_ops d !! j = Some o' -> (i < j)%nat -> o_generation o < o_generation o') /\
  (o ∈ d_ops d -> o' ∈ d_ops d -> given (o_key o) = true -> o_key o = o_key o' -> ident o = ident o').
Proof.
  intros He Hs. destruct (inv_steps _ _ Hs (inv_empty d0 He)) as (H1 & H2 & H3 & H4). split; [|split].
  - intros Ho Ho' Hin Hin'. unfold busy_ops in H1.
    assert (forall x, x ∈ d_ops d -> in_flight x = true -> x ∈ List.filter in_flight (d_ops d)) as Hf.
    { intros x Hx Hfx. apply list_elem_of_In, filter_In. by rewrite <- list_elem_of_In. }
    pose proof (Hf o Hin Ho) as G. pose proof (Hf o' Hin' Ho') as G'.
    destruct (List.filter in_flight (d_ops d)) as [|x [|y l]]; simpl in H1; [by apply elem_of_nil in G| |lia].
    apply list_elem_of_singleton in G, G'. congruence.
  - intros i j Hi Hj Hij.
    assert (map ident (d_ops d) !! i = Some (ident o)) as Hi'
      by (change ((ident <$> d_ops d) !! i = Some (ident o)); by rewrite list_lookup_fmap, Hi).
    assert (map ident (d_ops d) !! j = Some (ident o')) as Hj'
      by (change ((ident <$> d_ops d) !! j = Some (ident o')); by rewrite list_lookup_fmap, Hj).
    clear -Hi' Hj' Hij H2. revert i j Hi' Hj' Hij. induction H2 as [|x l Hs IH Hx]; intros i j Hi Hj Hij; [done|].
    destruct j as [|j]; [lia|]. destruct i as [|i]; simpl in *.
    + simplify_eq. rewrite Forall_forall in Hx. destruct (Hx (ident o')) as [_ Hg]; [by eapply list_elem_of_lookup_2|].
      exact Hg.
    + eapply IH; [exact Hi|exact Hj|lia].
  - intros Hin Hin' Hg Hk. eapply (unique_by_inj _ _ (ident o) (ident o') (default "" (o_key o))%string H4).
    + by apply list_elem_of_In, in_map, list_elem_of_In.
    + by apply list_elem_of_In, in_map, list_elem_of_In.
    + change (ident_key (ident o)) with (o_key o). rewrite Hg. by destruct (o_key o).
    + change (ident_key (ident o')) with (o_key o'). rewrite <- Hk, Hg. by destruct (o_key o).
Qed.

(** An accepted operation is the one in flight, pending, with the next generation, and the range
    is in its in-progress state; it was accepted only from a state the machine allows (or a parked
    destroy), outside a maintenance window unless it carries a bypass (destroys only), never over a
    worker's lease or an operation in flight unless it is a destroy, which supersedes them; a stop or
    a start only with VMs and no snapshot busy, a stop with no exercise running, a provision only
    over no VMs. *)
Theorem accept_spec d a key bypass env o d' :
  accept d a key bypass env = Ok (o, d', true) ->
  busy_ops d' = [o] /\ o_status o = Pending /\ o_action o = a /\ o_bypass o = bypass /\
  (forall x, x ∈ d_ops d -> o_generation x < o_generation o) /\
  d_state d' = in_progress a /\
  (range_can_transition_to (d_state d) (in_progress a) = true \/ (a = Destroy /\ parked (reconcile d) = true)) /\
  (a = Provision \/ a = Destroy -> bypass = None -> window_covers env = false) /\
  (bypass <> None -> a = Destroy) /\
  (a <> Destroy -> worker_acting d = None /\ busy_ops (reconcile d) = []) /\
  (a = Stop \/ a = Start -> 0 < recorded_vms d /\ d_snapshot d = None) /\
  (a = Stop -> d_exercise_running d = false) /\ (a = Provision -> recorded_vms d = 0).
Proof.
  intros H. apply accept_created in H as (d1 & Hc & _ & -> & -> & Hw & _ & Hb).
  apply check_ok in Hc as (Hid & _ & Hbusy & _ & _ & K1 & K2 & K3 & K4 & K5).
  split; [unfold busy_ops in *; simpl; by rewrite List.filter_app, Hbusy|].
  repeat (split; [done|]). split; [|done].
  intros x Hx. simpl. assert (ident_gen (ident x) <= max_generation d1) as Hg.
  { apply max_generation_ge. rewrite Hid. by apply list_elem_of_In, in_map, list_elem_of_In. }
  unfold ident_gen, ident in Hg. simpl in Hg. lia.
Qed.

(** A retried request is harmless for ever: however the range went on, the same Idempotency-Key
    and action return the original operation and change nothing, and another action under that key
    is refused. *)
Theorem accept_replay d0 d key a bypass env o d' d'' a' env' :
  empty_ops d0 -> rtc rstep d0 d ->
  given key = true -> accept d a key bypass env = Ok (o, d', true) -> rtc rstep d' d'' ->
  (exists o'', accept d'' a key bypass env' = Ok (o'', d'', false) /\ ident o'' = ident o) /\
  (request_hash a' <> request_hash a -> accept d'' a' key None env' = Err (Conflict KeyReused)).
Proof.
  intros He Hs0 Hg H Hs.
  assert (Hi' : inv d'').
  { eapply inv_steps; [exact Hs|]. eapply inv_accept; [|exact H]. by eapply inv_steps, inv_empty. }
  assert (Hin : ident o ∈ map ident (d_ops d')).
  { apply accept_created in H as (d1 & _ & _ & -> & -> & _). simpl. rewrite map_app, elem_of_app. right. left. }
  assert (Hin' : ident o ∈ map ident (d_ops d'')).
  { clear -Hin Hs. induction Hs as [|x y z Hxy _ IH]; [done|]. apply IH.
    destruct (step_prefix _ _ Hxy) as [l ->]. apply elem_of_app. by left. }
  assert (Hk : o_key o = key /\ o_hash o = request_hash a).
  { apply accept_created in H as (d1 & _ & _ & -> & _). done. }
  destruct Hk as [Hk Hh].
  assert (exists o'', replay_of d'' key = Some o'' /\ ident o'' = ident o) as (o'' & Hr & Hid).
  { apply list_elem_of_In, in_map_iff in Hin' as (x & Hx & Hxin).
    unfold replay_of. rewrite Hg. destruct (List.find _ (d_ops d'')) as [y|] eqn:E.
    - exists y. split; [done|]. apply List.find_some in E as [Hy Hyk%bool_decide_eq_true].
      destruct Hi' as (_ & _ & _ & H4). rewrite <- Hx.
      eapply (unique_by_inj _ _ (ident y) (ident x) (default "" key)%string H4).
      + by apply list_elem_of_In, in_map.
      + by apply list_elem_of_In, in_map.
      + change (ident_key (ident y)) with (o_key y). rewrite Hyk, Hg. by destruct key.
      + rewrite Hx. change (ident_key (ident o)) with (o_key o). rewrite Hk, Hg. by destruct key.
    - eapply List.find_none in E; [|exact Hxin]. apply bool_decide_eq_false in E. exfalso. apply E.
      change (ident_key (ident x) = key). rewrite Hx. exact Hk. }
  assert (Hh'' : o_hash o'' = request_hash a).
  { rewrite <- Hh. change ((ident o'').2 = (ident o).2). by rewrite Hid. }
  split.
  - exists o''. split; [|done]. unfold accept. rewrite Hr, Hh'', String.eqb_refl.
    unfold accept in H. by destruct (match bypass with Some _ => _ | None => false end).
  - intros Hne. unfold accept. rewrite Hr, Hh''. by rewrite (proj2 (String.eqb_neq _ _)).
Qed.

(** An operation's outcome is what the range shows: reconciling settles exactly the dispatched
    operations whose outcome state the range is in, leaves every other one as it is, frees the
    reservations of a range whose destroy succeeded, never touches the range's state, and doing it
    twice is doing it once. *)
Theorem reconcile_spec d :
  (forall o, o ∈ d_ops d -> exists o', o' ∈ d_ops (reconcile d) /\ ident o' = ident o /\
     o_status o' = (if bool_decide (o_status o = Dispatched)
                    then default Dispatched (outcome (o_action o) (d_state d)) else o_status o)) /\
  (forall o, o ∈ d_ops d -> o_status o = Dispatched -> o_action o = Destroy -> d_state d = destroyed ->
     d_reservations (reconcile d) = []) /\
  d_state (reconcile d) = d_state d /\ d_lease (reconcile d) = d_lease d /\
  reconcile (reconcile d) = reconcile d.
Proof.
  assert (E : d_state (reconcile d) = d_state d /\ d_lease (reconcile d) = d_lease d /\ d_error (reconcile d) = d_error d /\
    d_now (reconcile d) = d_now d /\ d_ops (reconcile d) = map (reconcile_op d) (d_ops d))
    by (unfold reconcile; by destruct (existsb _ _)).
  destruct E as (E1 & E2 & E3 & E4 & E5).
  split; [|split; [|split; [done|split; [done|]]]].
  - intros o Ho. exists (reconcile_op d o). split; [rewrite E5; by apply list_elem_of_fmap_2|].
    split; [by apply (calm_reconcile d o)|]. unfold reconcile_op. case_bool_decide as Hst; [|done].
    destruct (outcome (o_action o) (d_state d)) as [[]|]; try done. simpl. by repeat case_match.
  - intros o Ho H1 H2 H3. unfold reconcile. assert (existsb (destroy_done d) (d_ops d) = true) as ->; [|done].
    apply existsb_exists. exists o. split; [by apply list_elem_of_In|]. unfold destroy_done. rewrite H1, H2, H3. done.
  - assert (Hidem : forall o, reconcile_op (reconcile d) (reconcile_op d o) = reconcile_op d o).
    { intros o. unfold reconcile_op. rewrite E1, E3, E4. destruct (bool_decide (o_status o = Dispatched)) eqn:Hst.
      - assert (o_status o = Dispatched) by (by apply bool_decide_eq_true in Hst).
        destruct (outcome (o_action o) (d_state d)) as [s|] eqn:Eo.
        + assert (s = Succeeded \/ s = Failed) as [-> | ->]; [|done..].
          destruct (o_action o), (d_state d); simplify_eq/=; auto.
        + destruct (o_dispatched o) as [sent|] eqn:Es; [destruct (o_error o) as [er|] eqn:Ee; [|destruct (stale_after <? d_now d - sent) eqn:El]|];
            simpl; rewrite ?Hst, ?Eo, ?Es, ?Ee, ?El; done.
      - by rewrite Hst. }
    assert (Hmap : map (reconcile_op (reconcile d)) (d_ops (reconcile d)) = d_ops (reconcile d)).
    { rewrite E5 at 1. rewrite map_map, E5. apply map_ext. exact Hidem. }
    assert (Hdd : existsb (destroy_done (reconcile d)) (d_ops (reconcile d)) = false).
    { rewrite E5. apply not_true_iff_false. rewrite existsb_exists. intros (o & Ho & Hdo).
      apply in_map_iff in Ho as (x & <- & _). unfold destroy_done in Hdo. rewrite E1 in Hdo.
      apply andb_true_iff in Hdo as [[H1%bool_decide_eq_true H2%bool_decide_eq_true]%andb_true_iff H3%bool_decide_eq_true].
      assert (o_action (reconcile_op d x) = o_action x) as Ha.
      { destruct (calm_reconcile d x) as [Hid _]. unfold ident in Hid. congruence. }
      rewrite Ha in H3. unfold reconcile_op in H1. destruct (bool_decide (o_status x = Dispatched)) eqn:Hx.
      - by rewrite H3 in H1.
      - by apply bool_decide_eq_false in Hx. }
    unfold reconcile at 1. rewrite Hdd, Hmap. by destruct (reconcile d).
Qed.

Lemma find_update id f d o :
  find_op id d = Some o -> (forall x, o_id (f x) = o_id x) -> find_op id (update_op id f d) = Some (f o).
Proof.
  intros Hx Hfid. unfold find_op, update_op in *. simpl. induction (d_ops d) as [|z l IH]; simpl in *; [done|].
  destruct (o_id z =? id) eqn:Ez; [simplify_eq; by rewrite Hfid, Ez|]. rewrite Ez. by apply IH.
Qed.

Lemma record_send_id sf t now x : o_id (record_send sf t now x) = o_id x.
Proof. unfold record_send. case_bool_decide; [by destruct t|done]. Qed.

Lemma dispatch_settled id broker m d o :
  find_op id d = Some o -> o_status o ∉ [Pending; OnHold] -> dispatch id broker m d = (false, [], d).
Proof. intros H Hs. unfold dispatch. by rewrite H, bool_decide_eq_false_2. Qed.

(** One sender per operation: a send hands the broker exactly one task, for an operation that was
    waiting for it, and leaves it dispatched, after which sending it again does nothing; if the worker
    held the task before the status was written, the hold stands; with the broker down nothing is
    sent and the operation keeps waiting. *)
Theorem dispatch_once id broker why d o :
  find_op id d = Some o ->
  (o_status o ∉ [Pending; OnHold] -> forall m, dispatch id broker m d = (false, [], d)) /\
  (o_status o ∈ [Pending; OnHold] -> forall t, exists d' o',
     dispatch id (Some t) (fun x => x) d = (true, [id], d') /\ find_op id d' = Some o' /\
     o_status o' = Dispatched /\ o_task o' = Some t /\ o_attempts o' = o_attempts o + 1 /\
     forall b m, dispatch id b m d' = (false, [], d')) /\
  (o_status o = Pending -> forall t, exists d' o',
     dispatch id (Some t) (hold_operation id why) d = (true, [id], d') /\ find_op id d' = Some o' /\ o_status o' = OnHold) /\
  (o_status o ∈ [Pending; OnHold] -> forall m, exists d' o',
     dispatch id None m d = (false, [], d') /\ find_op id d' = Some o' /\ o_status o' = o_status o).
Proof.
  intros Hf. split; [intros Hs m; by eapply dispatch_settled|]. split; [|split].
  - intros Hs t. unfold dispatch at 1. rewrite Hf, bool_decide_eq_true_2 by done.
    pose proof (find_update id (record_send (o_status o) (Some t) (d_now d)) d o Hf (record_send_id _ _ _)) as Hu.
    eexists _, _. split; [done|]. split; [exact Hu|].
    assert (record_send (o_status o) (Some t) (d_now d) o =
      Op (o_id o) (o_action o) (o_generation o) (o_key o) (o_hash o) (o_bypass o) Dispatched (Some t)
         (o_attempts o + 1) None (o_created o) (Some (d_now d)) (o_finished o)) as Hr
      by (unfold record_send; by rewrite bool_decide_eq_true_2).
    rewrite Hr in *. repeat (split; [done|]). intros b m. eapply dispatch_settled; [exact Hu|]. simpl. set_solver.
  - intros Hs t. unfold dispatch. rewrite Hf, bool_decide_eq_true_2 by set_solver.
    assert (Hh : exists o1, find_op id (hold_operation id why d) = Some o1 /\ o_status o1 = OnHold).
    { eexists. split; [apply (find_update id _ d o Hf); intros x; by case_match|].
      rewrite bool_decide_eq_true_2 by set_solver. done. }
    destruct Hh as (o1 & Ho1 & Hst). eexists _, _. split; [done|].
    split; [apply (find_update id _ _ o1 Ho1), record_send_id|].
    unfold record_send. rewrite Hst, Hs. done.
  - intros Hs m. unfold dispatch. rewrite Hf, bool_decide_eq_true_2 by done. eexists _, _. split; [done|].
    split; [apply (find_update id _ d o Hf), record_send_id|]. unfold record_send. by case_bool_decide.
Qed.

(** A tombstone is only force-released with proof: nothing is in flight, no snapshot is busy, an
    abandoned operation says when it was written, and its expiry was not pushed on since; and unless
    it has already lapsed two heartbeats have passed.  So a worker that renewed it more than half a
    heartbeat after the abandon keeps its range. *)
Theorem force_release_proof d h was_expired d' :
  force_release_tombstone d = Ok (h, was_expired, d') ->
  exists o expires,
    d_lease d = Some (h, expires) /\ startswith ABANDONED h = true /\ busy_ops (reconcile d) = [] /\
    d_snapshot d = None /\ abandoned_operation (reconcile d) h = Some o /\
    2 * expires <= 2 * (default 0 (o_finished o) + lease_seconds) + heartbeat_seconds /\
    (expires <= d_now d \/ default 0 (o_finished o) + 2 * heartbeat_seconds <= d_now d) /\
    d_lease d' = None /\ was_expired = (expires <=? d_now d) /\
    (forall renewed, default 0 (o_finished o) * 2 + heartbeat_seconds < 2 * renewed ->
       expires <> renewed + lease_seconds).
Proof.
  intros H. assert (E : d_lease (reconcile d) = d_lease d /\ d_now (reconcile d) = d_now d /\ d_snapshot (reconcile d) = d_snapshot d)
    by (unfold reconcile; by destruct (existsb _ _)).
  destruct E as (E1 & E2 & E3). unfold force_release_tombstone, assess in H. rewrite E1, E2, E3 in H.
  destruct (d_lease d) as [[h0 e]|] eqn:El; [|done].
  destruct (startswith ABANDONED h0) eqn:Ea; simpl in H; [|done].
  case_bool_decide as Hb; simpl in H; [|done]. destruct (d_snapshot d); [done|].
  destruct (abandoned_operation (reconcile d) h0) as [o|] eqn:Eo; [|done].
  destruct (2 * (default 0 (o_finished o) + lease_seconds) + heartbeat_seconds <? 2 * e) eqn:Ew; [done|].
  apply Z.ltb_ge in Ew.
  assert (Hok : (h0, e <=? d_now d, set_lease None (reconcile d)) = (h, was_expired, d') /\
    (e <= d_now d \/ default 0 (o_finished o) + 2 * heartbeat_seconds <= d_now d)).
  { destruct (e <=? d_now d) eqn:Ee; [simpl in H; split; [congruence|left; lia]|].
    destruct (0 <? default 0 (o_finished o) + 2 * heartbeat_seconds - d_now d) eqn:E0; simpl in H; [done|].
    apply Z.ltb_ge in E0. split; [congruence|right; lia]. }
  destruct Hok as [Hok Hp]. simplify_eq. exists o, e. repeat (split; [done|]). intros r Hr ->. lia.
Qed.
End Settings.

(** ** Concrete requests *)

Definition demo_range : rdb := Rdb 1000 created None NoVms [] None None false ["10.0.0.1"]%string 0.
Definition demo_env : accept_env := AcceptEnv false true.
Definition demo_accept (d : rdb) (a : action) (key : option string) := accept 21600 action_name d a key None demo_env.
Definition demo_op (r : result exn (op * rdb * bool)) (d : rdb) : rdb := match r with Ok (_, d', _) => d' | Err _ => d end.
(** Accepted, sent, and built by the worker. *)
Definition demo1 : rdb := demo_op (demo_accept demo_range Provision (Some "k1"%string)) demo_range.
Definition demo2 : rdb := (dispatch 0 (Some "t0"%string) (fun x => x) demo1).2.
Definition demo3 : rdb := set_range ready None demo2.

Lemma demo_step1 : rstep 180 30 21600 action_name demo_range demo1.
Proof. eapply rs_accept with (a := Provision) (key := Some "k1"%string) (bypass := None) (env := demo_env). vm_compute. reflexivity. Qed.
Lemma demo_steps : rtc (rstep 180 30 21600 action_name) demo_range demo3.
Proof.
  eapply rtc_l; [exact demo_step1|].
  eapply rtc_l; [exact (rs_dispatch 180 30 21600 action_name demo1 0 (Some "t0"%string) None)|].
  apply rtc_once. apply rs_world. split; reflexivity.
Qed.

Definition demo_first : op := Op 0 Provision 1 (Some "k1"%string) "provision" None Dispatched (Some "t0"%string) 1 None 1000 (Some 1000) None.

Lemma one_in_flight_witness :
  d_ops demo3 = [demo_first] /\ (given (o_key demo_first) = true -> ident demo_first = ident demo_first).
Proof.
  split; [vm_compute; reflexivity|]. intros Hg.
  apply (one_in_flight 180 30 21600 action_name demo_range demo3 demo_first demo_first eq_refl demo_steps);
    [vm_compute; left|vm_compute; left|exact Hg|reflexivity].
Defined.

Lemma accept_spec_witness :
  busy_ops demo1 = [Op 0 Provision 1 (Some "k1"%string) "provision" None Pending None 0 None 1000 None None] /\
  d_state demo1 = provisioning.
Proof.
  destruct (accept_spec 21600 action_name demo_range Provision (Some "k1"%string) None demo_env
    (Op 0 Provision 1 (Some "k1"%string) "provision" None Pending None 0 None 1000 None None) demo1) as (H1 & _ & _ & _ & _ & H2 & _).
  - vm_compute. reflexivity.
  - split; [exact H1|exact H2].
Defined.

Lemma accept_replay_witness :
  (exists o, demo_accept demo3 Provision (Some "k1"%string) = Ok (o, demo3, false) /\ o_id o = 0) /\
  demo_accept demo3 Destroy (Some "k1"%string) = Err (Conflict KeyReused).
Proof.
  destruct (accept_replay 180 30 21600 action_name demo_range demo_range (Some "k1"%string) Provision None demo_env
    (Op 0 Provision 1 (Some "k1"%string) "provision" None Pending None 0 None 1000 None None) demo1 demo3 Destroy demo_env)
    as [(o & Ho & Hid) Hk].
  - reflexivity.
  - apply rtc_refl.
  - reflexivity.
  - vm_compute. reflexivity.
  - eapply rtc_l; [exact (rs_dispatch 180 30 21600 action_name demo1 0 (Some "t0"%string) None)|].
    apply rtc_once. apply rs_world. split; reflexivity.
  - split; [exists o; split; [exact Ho|]|apply Hk; discriminate].
    change (ident_id (ident o) = 0). rewrite Hid. reflexivity.
Defined.

Lemma reconcile_spec_witness :
  map o_status (d_ops (reconcile 21600 demo3)) = [Succeeded] /\ reconcile 21600 (reconcile 21600 demo3) = reconcile 21600 demo3.
Proof. split; [vm_compute; reflexivity|]. apply (reconcile_spec 21600 demo3). Defined.

Lemma dispatch_once_witness : dispatch 0 (Some "t1"%string) (fun x => x) demo2 = (false, [], demo2).
Proof.
  apply (dispatch_once 0 (Some "t1"%string) "window" demo2 demo_first); [vm_compute; reflexivity|].
  simpl. set_solver.
Defined.

(** Abandoned at 2000 with the worker's lease, then asked to be force-released at 2100. *)
Definition demo4 : rdb :=
  match abandon 180 21600 (Rdb 2000 provisioning None NoVms (d_ops demo2) (Some ("provision:x"%string, 2100)) None false [] 1) 0 with
  | Ok (_, d) => Rdb 2100 (d_state d) (d_error d) (d_output d) (d_ops d) (d_lease d) None false [] 1
  | Err _ => demo2 end.

Lemma force_release_proof_witness :
  exists d', force_release_tombstone 180 30 21600 demo4 = Ok ("abandoned:provision:x"%string, false, d') /\ d_lease d' = None /\
    busy_ops (reconcile 21600 demo4) = [].
Proof.
  assert (H : exists d', force_release_tombstone 180 30 21600 demo4 = Ok ("abandoned:provision:x"%string, false, d'))
    by (eexists; vm_compute; reflexivity).
  destruct H as [d' H]. exists d'. split; [exact H|].
  destruct (force_release_proof 180 30 21600 demo4 _ _ _ H) as (o & e & _ & _ & Hb & _ & _ & _ & _ & Hl & _).
  split; [exact Hl|exact Hb].
Defined.
