(* ===== verification/MaintenanceWindows.v ===== *)
(** * Maintenance windows: which ranges they cover, and what they hold

    Models [control-plane/api/app/maintenance_windows/policy.py] ([template_tags], [applies]) and the
    worker's re-check at a range task's entry, [control-plane/worker/worker/maintenance_windows.py]
    ([covering], [_operation], [decide], [at_entry]; its copies of [template_tags] and [applies] are
    these).  A YAML document enters as the value its [tags] key parses to; times are integers, a
    window is in effect on [starts_at, ends_at).  Effects go to the range row through
    [Lease.guarded_range_update] and to the operation through [RangeOps.hold_operation].  The
    theorems: exactly the windows in effect of the range's tenant and of the platform decide, the
    latest-ending one; no cleanup is ever held; and a hold never marks a range failed. *)

From S2P Require Import Prelude PyText StateMachines Lease RangeOps.
From Stdlib Require Import Ascii.

Local Open Scope Z_scope.

(** ** Tags of a template *)

(** An item of the [tags] list: [str | int] (a bool is an int), or anything else. *)
Inductive tag_value := TagStr (s : string) | TagInt (i : Z) | TagBool (b : bool) | TagOther.
(** The template: no YAML or unreadable, no list under [tags], or the list. *)
Inductive template_doc := NoTags | Tags (l : list tag_value).

Definition tag_text (t : tag_value) : option string :=
  match t with
  | TagStr s => Some s
  | TagInt i => Some (pretty i)
  | TagBool b => Some (if b then "True" else "False")
  | TagOther => None
  end.

(** [template_tags] *)
Definition template_tags (doc : template_doc) : list string :=
  match doc with
  | NoTags => []
  | Tags l => omap (fun t => match tag_text t with
                             | Some s => if String.eqb (strip s) "" then None else Some (lower (strip s))
                             | None => None end) l
  end.

(** ** Windows *)

Record window := Window {
  w_tenant : option string; w_scope : string; w_range_ids : list string; w_tags : list string;
  w_starts : Z; w_ends : Z; w_reason : string
}.

(** [applies]; [range_tenant] is None for a range without a tenant. *)
Definition applies (w : window) (range_id : option string) (range_tenant : option string) (range_tags : list string) : bool :=
  if match w.(w_tenant) with
     | Some t => negb (String.eqb t (match range_tenant with Some r => r | None => "None" end))
     | None => false end
  then false
  else if String.eqb w.(w_scope) "all" then true
  else match range_id with
       | None => false
       | Some r =>
           if String.eqb w.(w_scope) "ranges" then bool_decide (r ∈ w.(w_range_ids))
           else if String.eqb w.(w_scope) "tags"
                then existsb (fun t => bool_decide (lower (strip t) ∈ map lower range_tags)) w.(w_tags)
                else false
       end.

(** The worker's copy. *)
Definition worker_applies := applies.

(** The range's row as [covering] reads it: its tenant and its template. *)
Record range_row := RangeRow { g_tenant : option string; g_template : template_doc }.

Definition ends_later (w w' : window) : bool := w'.(w_ends) <=? w.(w_ends).
Definition in_effect (now : Z) (w : window) : bool := (w.(w_starts) <=? now) && (now <? w.(w_ends)).
Definition for_tenant (t : option string) (w : window) : bool :=
  match w.(w_tenant) with None => true | Some t' => match t with Some t => String.eqb t' t | None => false end end.

(** [covering] *)
Definition covering (windows : list window) (rng : option range_row) (range_id : string) (now : Z) : option window :=
  match rng with
  | None => None
  | Some g =>
      let rows := py_sorted ends_later (List.filter (fun w => for_tenant g.(g_tenant) w && in_effect now w) windows) in
      List.find (fun w => worker_applies w (Some range_id) g.(g_tenant) (template_tags g.(g_template))) rows
  end.

(** ** The check at a task's entry *)

Inductive task := TProvision | TDestroy | TRestore | TOther.
#[export] Instance task_eq_dec : EqDecision task.
Proof. solve_decision. Defined.
Definition GATED (t : task) : bool := negb (bool_decide (t = TOther)).
Definition task_action (t : task) : option action :=
  match t with TProvision => Some Provision | TDestroy => Some Destroy | _ => None end.

Definition what (t : task) : string :=
  match t with TProvision => "Provisioning" | TDestroy => "Destroying" | TRestore => "Restoring a snapshot" | TOther => "" end.

(** [_operation]: the range's newest operation, when it is this action and in flight. *)
Definition newest (ops : list op) : option op :=
  fold_left (fun best o => match best with
    | Some b => if b.(o_generation) <? o.(o_generation) then Some o else best
    | None => Some o end) ops None.
Definition operation (ops : list op) (t : task) : option op :=
  match newest ops with
  | Some o => if bool_decide (Some o.(o_action) = task_action t) && in_flight o then Some o else None
  | None => None
  end.

(** Everything the check reads. *)
Record entry_db := EntryDb {
  y_windows : list window; y_range : option range_row; y_ops : rdb; y_lab : bool; y_world : world
}.

(** ** Lemmas *)

Lemma ends_later_total w w' : ends_later w w' = false -> ends_later w' w = true.
Proof. unfold ends_later. rewrite Z.leb_gt, Z.leb_le. lia. Qed.
Lemma ends_later_trans a b c : ends_later a b = true -> ends_later b c = true -> ends_later a c = true.
Proof. unfold ends_later. rewrite !Z.leb_le. lia. Qed.

Lemma find_sorted (p : window -> bool) l w :
  StronglySorted (le_by ends_later) l -> List.find p l = Some w -> forall w', w' ∈ l -> p w' = true -> w_ends w' <= w_ends w.
Proof.
  induction 1 as [|x l Hs IH Hx]; simpl; [done|]. destruct (p x) eqn:E.
  - intros [= <-] w' Hw' _. apply elem_of_cons in Hw' as [->|Hw']; [lia|].
    rewrite Forall_forall in Hx. specialize (Hx w' Hw'). unfold le_by, ends_later in Hx. by apply Z.leb_le in Hx.
  - intros Hf w' Hw' Hp. apply elem_of_cons in Hw' as [->|Hw']; [congruence|]. by apply IH.
Qed.

Lemma covering_elem windows g now w :
  w ∈ py_sorted ends_later (List.filter (fun w => for_tenant (g_tenant g) w && in_effect now w) windows) <->
  w ∈ windows /\ for_tenant (g_tenant g) w = true /\ in_effect now w = true.
Proof. by rewrite elem_of_py_sorted, list_elem_of_In, filter_In, <- list_elem_of_In, andb_true_iff. Qed.

Lemma filter_filter_and {A} (p q : A -> bool) l :
  List.filter (fun x => p x && q x) (List.filter p l) = List.filter (fun x => p x && q x) l.
Proof. induction l as [|x l IH]; simpl; [done|]. destruct (p x) eqn:E; simpl; rewrite ?E, IH; done. Qed.

(** Exactly the windows in effect decide: a window is found if and only if one in effect now, of
    the platform or of the range's tenant, covers the range; it is the one that ends last; and
    another tenant's windows change nothing. *)
Theorem covering_spec windows g range_id now :
  let hit w := w ∈ windows /\ w_starts w <= now < w_ends w /\ for_tenant (g_tenant g) w = true /\
    applies w (Some range_id) (g_tenant g) (template_tags (g_template g)) = true in
  match covering windows (Some g) range_id now with
  | Some w => hit w /\ forall w', hit w' -> w_ends w' <= w_ends w
  | None => forall w, ~ hit w
  end /\
  covering windows (Some g) range_id now =
  covering (List.filter (for_tenant (g_tenant g)) windows) (Some g) range_id now.
Proof.
  intros hit. unfold covering. set (rows := py_sorted _ _).
  assert (Hin : forall w, w ∈ rows <-> w ∈ windows /\ for_tenant (g_tenant g) w = true /\ w_starts w <= now < w_ends w).
  { intros w. unfold rows. rewrite covering_elem. unfold in_effect. rewrite andb_true_iff, Z.leb_le, Z.ltb_lt. tauto. }
  split.
  - destruct (List.find _ rows) as [w|] eqn:E.
    + split.
      * apply List.find_some in E as [Hw Ha]. apply list_elem_of_In, Hin in Hw. cbv beta in Ha.
        unfold worker_applies in Ha. unfold hit. tauto.
      * intros w' (H1 & H2 & H3 & H4). eapply find_sorted; [|exact E| |exact H4].
        -- apply py_sorted_sorted; [apply ends_later_total|apply ends_later_trans].
        -- apply Hin. tauto.
    + intros w (H1 & H2 & H3 & H4). assert (w ∈ rows) as Hw by (apply Hin; done).
      pose proof (List.find_none _ _ E w (proj1 (list_elem_of_In _ _) Hw)) as Hn.
      cbv beta in Hn. unfold worker_applies in Hn. congruence.
  - unfold rows. by rewrite filter_filter_and.
Qed.

Section Check.
(** [datetime.isoformat] *)
Context (isoformat : Z -> string).

Definition message (w : window) (t : task) : string :=
  what t +:+ " " +:+ HELD_MARKER +:+ " is in effect until " +:+ isoformat w.(w_ends) +:+ ": " +:+ w.(w_reason) +:+
  ". Nothing was changed on the hypervisor; it runs after the window.".

(** [decide] *)
Definition decide_entry (d : entry_db) (t : task) (range_id : string) (now : Z) : option string * option op :=
  if negb (GATED t) then (None, None)
  else
    let o := if bool_decide (t = TRestore) then None else operation d.(y_ops).(d_ops) t in
    match covering d.(y_windows) d.(y_range) range_id now with
    | None => (None, o)
    | Some w =>
        if bool_decide (t = TDestroy) then
          match o with
          | Some o' =>
              if match o'.(o_bypass) with Some b => bool_decide (b ∈ BYPASS_KINDS) | None => false end then (None, o)
              else if o'.(o_created) <? w.(w_starts) then (None, o)
              else (Some (message w t), o)
          | None => if d.(y_lab) then (None, o) else (Some (message w t), o)
          end
        else (Some (message w t), o)
    end.

(** What [at_entry] does: run the task, or hold it. *)
Inductive entry := Run | HeldNow (why : string).

Definition unreadable (t : task) : string :=
  what t +:+ " " +:+ HELD_MARKER +:+ " could not be checked (windows unreadable).".

(** The hold's effect: on the operation, or on the range through the lease's guard ([cur]). *)
Definition hold_effect (cur : option exec) (t : task) (range_id why : string) (o : option op) (d : entry_db) : entry_db :=
  let upd s from := Update s (Some why) None (Some [from]) false in
  match t with
  | TRestore => d  (* the snapshot goes back to ready *)
  | _ =>
      match o with
      | Some o => EntryDb d.(y_windows) d.(y_range) (hold_operation o.(o_id) why d.(y_ops)) d.(y_lab) d.(y_world)
      | None =>
          let s := if bool_decide (t = TProvision) then ("created", "provisioning")%string else ("destroying", "destroying")%string in
          EntryDb d.(y_windows) d.(y_range) d.(y_ops) d.(y_lab)
            (guarded_range_update cur range_id (upd s.1 s.2) d.(y_world)).2
      end
  end.

(** [at_entry]; [readable], [ops_readable]: whether the database answers. *)
Definition at_entry (readable ops_readable : bool) (cur : option exec) (t : task) (range_id : string) (now : Z) (d : entry_db)
    : entry * entry_db :=
  if negb (GATED t) then (Run, d)
  else if readable then
    match decide_entry d t range_id now with
    | (None, _) => (Run, d)
    | (Some why, o) => (HeldNow why, hold_effect cur t range_id why o d)
    end
  else if bool_decide (t = TDestroy) then (Run, d)
  else
    let o := if ops_readable then operation d.(y_ops).(d_ops) t else None in
    (HeldNow (unreadable t), hold_effect cur t range_id (unreadable t) o d).

(** ** The properties *)

Lemma guarded_state cur r s from why w g :
  Lease.w_ranges (guarded_range_update cur r (Update s (Some why) None (Some [from]) false) w).2 !! r = Some g ->
  exists g0, Lease.w_ranges w !! r = Some g0 /\
    (g = g0 \/ (Lease.g_state g = s /\ Lease.g_state g0 = from)).
Proof.
  assert (Hu : forall g', Lease.w_ranges (update_range_state r (Update s (Some why) None (Some [from]) false) w).2 !! r = Some g' ->
    exists g0, Lease.w_ranges w !! r = Some g0 /\ (g' = g0 \/ (Lease.g_state g' = s /\ Lease.g_state g0 = from))).
  { intros g'. unfold update_range_state. destruct (Lease.w_ranges w !! r) as [g0|] eqn:E; [|simpl; congruence].
    cbn [u_only_from]. case_bool_decide as Hin.
    - simpl. rewrite lookup_insert_eq. intros [= <-]. exists g0. split; [done|]. right. simpl.
      by apply list_elem_of_singleton in Hin.
    - simpl. rewrite E. intros [= <-]. exists g0. by split; [|left]. }
  unfold guarded_range_update. destruct (update_range_state r _ w) as [n w'] eqn:Ew. simpl in Hu.
  destruct cur as [e|]; [destruct (String.eqb (x_range e) r)|]; simpl; try apply Hu.
  destruct (observe e _) as [e' []]; simpl; [apply Hu|..]; intros H; exists g; auto.
Qed.

(** At a task's entry, outside every window everything runs; inside one, every build and every
    restore is held, and a destroy is held unless its operation carries a bypass or was accepted
    before the window began, or nothing recorded it and the range is a lab's; if the windows cannot
    be read a teardown runs.  A held task leaves its range's state as it is, or (an unrecorded
    build) back at created: never failed. *)
Theorem at_entry_spec readable ops_readable cur t range_id now d res d' :
  at_entry readable ops_readable cur t range_id now d = (res, d') ->
  (res = Run -> d' = d) /\
  (readable = true -> covering (y_windows d) (y_range d) range_id now = None -> res = Run) /\
  (t = TProvision \/ t = TRestore ->
     readable = false \/ is_Some (covering (y_windows d) (y_range d) range_id now) -> res <> Run) /\
  (t = TDestroy -> res = Run <->
     readable = false \/
     match covering (y_windows d) (y_range d) range_id now with
     | None => True
     | Some w => match operation (d_ops (y_ops d)) TDestroy with
                 | Some o => (exists b, o_bypass o = Some b /\ b ∈ BYPASS_KINDS) \/ o_created o < w_starts w
                 | None => y_lab d = true
                 end
     end) /\
  (forall g, Lease.w_ranges (y_world d') !! range_id = Some g ->
     exists g0, Lease.w_ranges (y_world d) !! range_id = Some g0 /\
       (Lease.g_state g = Lease.g_state g0 \/
        (t = TProvision /\ Lease.g_state g = "created"%string /\ Lease.g_state g0 = "provisioning"%string))).
Proof.
  intros H.
  assert (Hsame : forall g, Lease.w_ranges (y_world d) !! range_id = Some g ->
     exists g0, Lease.w_ranges (y_world d) !! range_id = Some g0 /\
       (Lease.g_state g = Lease.g_state g0 \/
        (t = TProvision /\ Lease.g_state g = "created"%string /\ Lease.g_state g0 = "provisioning"%string)))
    by (intros g Hg; exists g; auto).
  assert (Hheld : forall why o g, Lease.w_ranges (y_world (hold_effect cur t range_id why o d)) !! range_id = Some g ->
     exists g0, Lease.w_ranges (y_world d) !! range_id = Some g0 /\
       (Lease.g_state g = Lease.g_state g0 \/
        (t = TProvision /\ Lease.g_state g = "created"%string /\ Lease.g_state g0 = "provisioning"%string))).
  { intros why o g Hg. unfold hold_effect in Hg.
    destruct (decide (t = TRestore)) as [->|Hne]; [by apply Hsame|].
    destruct o as [o|]; [apply Hsame; by destruct t|].
    destruct (decide (t = TProvision)) as [->|Hnp].
    - simpl in Hg. apply guarded_state in Hg as (g0 & Hg0 & [->|[H1 H2]]); exists g0; auto 6.
    - assert (exists g0, Lease.w_ranges (y_world d) !! range_id = Some g0 /\
        (g = g0 \/ Lease.g_state g = "destroying"%string /\ Lease.g_state g0 = "destroying"%string)) as (g0 & Hg0 & [->|[H1 H2]]).
      { destruct t; try done; simpl in Hg; by apply guarded_state in Hg. }
      + exists g0; auto.
      + exists g0. split; [done|]. left. congruence. }
  unfold at_entry in H. destruct (GATED t) eqn:Eg; simpl in H.
  - destruct readable; simpl in H.
    + destruct (decide_entry d t range_id now) as [[why|] o] eqn:Ed; simplify_eq.
      * split; [done|]. split; [intros _ Hc; unfold decide_entry in Ed; rewrite Eg, Hc in Ed; simplify_eq|].
        split; [done|]. split; [|by apply Hheld]. intros ->. split; [done|]. intros [?|Hr]; [done|].
        unfold decide_entry in Ed. simpl in Ed. destruct (covering _ _ _ _) as [w|]; [|done].
        destruct (operation _ _) as [o'|].
        -- destruct Hr as [(b & Hb & Hin)|Hlt].
           ++ rewrite Hb, bool_decide_eq_true_2 in Ed by done. done.
           ++ repeat case_match; simplify_eq; reflect_bools; lia.
        -- rewrite Hr in Ed. done.
      * split; [done|]. split; [done|]. split; [|split; [|exact Hsame]].
        -- intros Ht [?|[w Hw]]; [done|]. unfold decide_entry in Ed. rewrite Eg, Hw in Ed. simpl in Ed.
           rewrite (bool_decide_eq_false_2 (t = TDestroy)) in Ed by (destruct Ht; congruence). done.
        -- intros ->. split; [intros _; right|done]. unfold decide_entry in Ed. simpl in Ed.
           destruct (covering _ _ _ _) as [w|]; [|done]. destruct (operation _ _) as [o'|].
           ++ destruct (o_bypass o') as [b|].
              ** case_bool_decide; [left; eauto|]. destruct (o_created o' <? w_starts w) eqn:E; [|done].
                 right. by apply Z.ltb_lt.
              ** destruct (o_created o' <? w_starts w) eqn:E; [|done]. right. by apply Z.ltb_lt.
           ++ by destruct (y_lab _).
    + case_bool_decide as Ht; simplify_eq.
      * split; [done|]. split; [done|]. split; [by intros [? | ?]|]. split; [|exact Hsame]. intros _. split; auto.
      * split; [done|]. split; [done|]. split; [done|]. split; [done|]. by apply Hheld.
  - simplify_eq. unfold GATED in Eg. apply negb_false_iff, bool_decide_eq_true in Eg. subst.
    split; [done|]. split; [done|]. split; [by intros [? | ?]|]. split; [done|]. exact Hsame.
Qed.
End Check.

(** ** A concrete window *)

Definition demo_windows : list window :=
  [Window None "tags" [] [" SOC "]%string 100 200 "storage"; Window (Some "t2"%string) "all" [] [] 100 900 "other tenant"].
Definition demo_entry (o : list op) (now : Z) : entry_db :=
  EntryDb demo_windows (Some (RangeRow (Some "t1"%string) (Tags [TagStr "soc"; TagInt 3])))
    (Rdb now destroying None NoVms o None None false [] 5) false
    (World now ∅ {[ "r1"%string := Grow "destroying" None None ]}).
Definition demo_destroy (bypass : option string) : op :=
  Op 0 Destroy 1 None "" bypass Dispatched None 1 None 120 (Some 121) None.

Lemma covering_spec_witness :
  covering demo_windows (Some (RangeRow (Some "t1"%string) (Tags [TagStr "soc"; TagInt 3]))) "r1" 150 =
  covering [Window None "tags" [] [" SOC "]%string 100 200 "storage"] (Some (RangeRow (Some "t1"%string) (Tags [TagStr "soc"; TagInt 3]))) "r1" 150.
Proof. exact (proj2 (covering_spec demo_windows (RangeRow (Some "t1"%string) (Tags [TagStr "soc"; TagInt 3])) "r1" 150)). Defined.

Lemma at_entry_spec_witness :
  (at_entry (fun _ => ""%string) true true None TDestroy "r1" 150 (demo_entry [demo_destroy (Some "emergency"%string)] 150)).1 = Run /\
  (at_entry (fun _ => ""%string) true true None TDestroy "r1" 150 (demo_entry [demo_destroy None] 150)).1 <> Run.
Proof.
  split.
  - apply (at_entry_spec (fun _ => ""%string) true true None TDestroy "r1" 150
      (demo_entry [demo_destroy (Some "emergency"%string)] 150) _ _ (surjective_pairing _)); [reflexivity|].
    right. vm_compute. left. exists "emergency"%string. split; [reflexivity|]. left.
  - intros H. pose proof (at_entry_spec (fun _ => ""%string) true true None TDestroy "r1" 150
      (demo_entry [demo_destroy None] 150) _ _ (surjective_pairing _)) as (_ & _ & _ & Hd & _).
    apply (Hd eq_refl) in H. vm_compute in H. destruct H as [H|[(b & H & _)|H]]; discriminate.
Defined.
