(* ===== verification/CircuitBreaker.v ===== *)
(** * The circuit breaker of external service calls

    Models [control-plane/api/app/circuit_breaker.py]: [breaker] is the instance state of
    [CircuitBreaker]; the asyncio lock makes each of the three critical sections (entering a call,
    [_on_failure], [_on_success]) one step, and the awaited calls of different tasks interleave
    between them.  Times are integers of [time.monotonic]'s clock.  The theorems: it trips exactly at
    the threshold of consecutive failures and then refuses every call until the recovery timeout;
    its counters stay below their thresholds over all interleavings; and, against the comment on the
    transition, any number of calls enters while half-open. *)

From S2P Require Import Prelude.

Local Open Scope Z_scope.

Inductive CircuitState := closed | open | half_open.
#[export] Instance CircuitState_eq_dec : EqDecision CircuitState.
Proof. solve_decision. Defined.

(** [CircuitOpenError.retry_after] *)
Inductive CircuitOpenError := CircuitOpen (retry_after : Z).

Record breaker := Breaker {
  b_state : CircuitState; b_failure_count : Z; b_success_count : Z; b_last_failure : Z
}.

Section Breaker.
Context (failure_threshold recovery_timeout success_threshold : Z).

(** [__init__] *)
Definition new_breaker : breaker := Breaker closed 0 0 0.

(** [call], up to the awaited function. *)
Definition enter (now : Z) (b : breaker) : result CircuitOpenError breaker :=
  if bool_decide (b.(b_state) = open) then
    let elapsed := now - b.(b_last_failure) in
    if elapsed <? recovery_timeout then Err (CircuitOpen (recovery_timeout - elapsed))
    else Ok (Breaker half_open b.(b_failure_count) 0 b.(b_last_failure))
  else Ok b.

(** [_on_failure] *)
Definition on_failure (now : Z) (b : breaker) : breaker :=
  let n := b.(b_failure_count) + 1 in
  match b.(b_state) with
  | half_open => Breaker open n b.(b_success_count) now
  | closed => Breaker (if failure_threshold <=? n then open else closed) n b.(b_success_count) now
  | open => Breaker open n b.(b_success_count) now
  end.

(** [_on_success] *)
Definition on_success (b : breaker) : breaker :=
  match b.(b_state) with
  | half_open =>
      let n := b.(b_success_count) + 1 in
      if success_threshold <=? n then Breaker closed 0 n b.(b_last_failure)
      else Breaker half_open b.(b_failure_count) n b.(b_last_failure)
  | closed => Breaker closed 0 b.(b_success_count) b.(b_last_failure)
  | open => b
  end.

(** [reset] *)
Definition reset (b : breaker) : breaker := Breaker closed 0 0 b.(b_last_failure).

(** [call] when nothing else runs meanwhile: the call's result, or the refusal. *)
Definition call (start finish : Z) (succeeds : bool) (b : breaker) : result CircuitOpenError bool * breaker :=
  match enter start b with
  | Err e => (Err e, b)
  | Ok b1 => (Ok succeeds, if succeeds then on_success b1 else on_failure finish b1)
  end.

(** ** Interleaved calls *)

(** The breaker and the number of calls being awaited. *)
Inductive bstep : breaker * nat -> breaker * nat -> Prop :=
| b_enter b n now b' : enter now b = Ok b' -> bstep (b, n) (b', S n)
| b_refused b n now e : enter now b = Err e -> bstep (b, n) (b, n)
| b_fail b n now : bstep (b, S n) (on_failure now b, n)
| b_succeed b n : bstep (b, S n) (on_success b, n)
| b_cancel b n : bstep (b, S n) (b, n)  (* cancelled: neither handler runs *)
| b_reset b n : bstep (b, n) (reset b, n).

Definition wf (b : breaker) : Prop :=
  0 <= b_failure_count b /\ 0 <= b_success_count b /\
  (b_state b = closed -> b_failure_count b < failure_threshold) /\
  (b_state b = half_open -> b_success_count b < success_threshold).

Lemma breaker_wf_new : 0 < failure_threshold -> wf new_breaker.
Proof. intros H. unfold wf; simpl. repeat split; try lia; done. Qed.

Lemma bstep_wf s s' : 0 < failure_threshold -> 0 < success_threshold -> bstep s s' -> wf s.1 -> wf s'.1.
Proof.
  intros Hf Hs Hst (H1 & H2 & H3 & H4). unfold wf. destruct Hst as [b n now b' H|b n now e H|b n now|b n|b n|b n]; simpl in *.
  - unfold enter in H. case_bool_decide; [case_match; simplify_eq; simpl; repeat split; try lia; done|by simplify_eq].
  - done.
  - unfold on_failure. destruct (b_state b); simpl; try (repeat split; try lia; done).
    destruct (failure_threshold <=? b_failure_count b + 1) eqn:E; simpl; reflect_bools; repeat split; try lia; done.
  - unfold on_success. destruct (b_state b) eqn:Eb; simpl.
    + repeat split; try lia; done.
    + rewrite Eb. done.
    + destruct (success_threshold <=? b_success_count b + 1) eqn:E; simpl; reflect_bools; repeat split; try lia; done.
  - done.
  - repeat split; try lia; done.
Qed.

(** Failures one after the other, at these times. *)
Fixpoint failures (ts : list Z) (b : breaker) : breaker :=
  match ts with [] => b | t :: ts' => failures ts' (on_failure t b) end.

Lemma failures_closed ts b :
  b_state b = closed -> b_failure_count b + zlen ts < failure_threshold ->
  b_state (failures ts b) = closed /\ b_failure_count (failures ts b) = b_failure_count b + zlen ts.
Proof.
  revert b; induction ts as [|t ts IH]; intros b Hb Hn; simpl; [rewrite zlen_nil; split; [done|lia]|].
  rewrite zlen_cons in Hn. pose proof (zlen_nonneg ts).
  assert (Hof : on_failure t b = Breaker closed (b_failure_count b + 1) (b_success_count b) t).
  { unfold on_failure. rewrite Hb. destruct (failure_threshold <=? _) eqn:E; [reflect_bools; lia|done]. }
  rewrite Hof. destruct (IH (Breaker closed (b_failure_count b + 1) (b_success_count b) t)) as [H1 H2]; [done|simpl; lia|].
  rewrite zlen_cons. simpl in *. split; [done|lia].
Qed.

Lemma failures_app ts1 ts2 b : failures (ts1 ++ ts2) b = failures ts2 (failures ts1 b).
Proof. revert b; induction ts1 as [|t ts1 IH]; intros b; simpl; [done|apply IH]. Qed.

(** The breaker trips exactly when the failures since the last success or reset reach the
    threshold, whatever calls interleave; until then calls enter; once tripped every call is refused
    until [recovery_timeout] after the last failure, with the time left, and the first one after it
    enters as a probe; a probe that fails trips it again at once. *)
Theorem breaker_trips b ts t now :
  b_state b = closed -> b_failure_count b = 0 -> 0 <= zlen ts ->
  (zlen ts + 1 < failure_threshold -> enter now (failures (ts ++ [t]) b) = Ok (failures (ts ++ [t]) b)) /\
  (zlen ts + 1 = failure_threshold ->
     b_state (failures (ts ++ [t]) b) = open /\
     (now < t + recovery_timeout ->
        enter now (failures (ts ++ [t]) b) = Err (CircuitOpen (t + recovery_timeout - now))) /\
     (t + recovery_timeout <= now -> exists b', enter now (failures (ts ++ [t]) b) = Ok b' /\ b_state b' = half_open /\
        b_success_count b' = 0 /\ forall t', b_state (on_failure t' b') = open /\
          (0 < recovery_timeout -> exists e, enter t' (on_failure t' b') = Err e))).
Proof.
  intros Hb Hc Hz. split.
  - intros Hlt. destruct (failures_closed (ts ++ [t]) b Hb) as [H1 _].
    { unfold zlen in *. rewrite length_app. simpl. lia. }
    unfold enter. by rewrite H1.
  - intros Heq. destruct (failures_closed ts b Hb) as [H1 H2]; [lia|]. rewrite failures_app. simpl.
    set (b0 := failures ts b) in *.
    assert (Hof : on_failure t b0 = Breaker open (b_failure_count b0 + 1) (b_success_count b0) t).
    { unfold on_failure. rewrite H1. destruct (failure_threshold <=? _) eqn:E; [done|reflect_bools; lia]. }
    rewrite Hof. split; [done|]. unfold enter; simpl. split; intros Hn.
    + destruct (now - t <? recovery_timeout) eqn:E; [|reflect_bools; lia]. do 2 f_equal. lia.
    + destruct (now - t <? recovery_timeout) eqn:E; [reflect_bools; lia|]. eexists. split; [done|].
      split; [done|]. split; [done|]. intros t'. split; [done|]. intros Hr. simpl.
      destruct (t' - t' <? recovery_timeout) eqn:E'; [|reflect_bools; lia]. by eexists.
Qed.

(** While half-open every call enters: nothing counts the probes in flight. *)
Lemma half_open_unlimited b n now :
  b_state b = half_open -> enter now b = Ok b /\ rtc bstep (b, 0%nat) (b, n).
Proof.
  intros Hb. assert (He : forall t, enter t b = Ok b) by (intros t; unfold enter; by rewrite Hb).
  split; [done|]. induction n as [|n IH]; [apply rtc_refl|].
  eapply rtc_r; [exact IH|]. by eapply (b_enter b n now).
Qed.

(** Over any interleaving of calls, failures, successes, cancellations and resets, a closed
    breaker has seen fewer failures than its threshold since the last success, and a half-open one
    fewer successes than it needs to close. *)
Theorem breaker_counters b n :
  0 < failure_threshold -> 0 < success_threshold -> rtc bstep (new_breaker, 0%nat) (b, n) -> wf b.
Proof.
  intros Hf Hs H.
  assert (Hg : forall s s', rtc bstep s s' -> wf s.1 -> wf s'.1)
    by (induction 1; eauto using bstep_wf).
  apply (Hg _ _ H). by apply breaker_wf_new.
Qed.
End Breaker.

(** ** Concrete runs *)

Lemma breaker_trips_witness :
  b_state (failures 3 [1; 5; 9] new_breaker) = open /\
  enter 30 20 (failures 3 [1; 5; 9] new_breaker) = Err (CircuitOpen 19).
Proof.
  destruct (breaker_trips 3 30 new_breaker [1; 5] 9 20) as [_ H]; [reflexivity|reflexivity|vm_compute; discriminate|].
  destruct (H eq_refl) as (H1 & H2 & _). split; [exact H1|apply H2; lia].
Defined.

Lemma breaker_counters_witness : wf 3 2 (on_failure 3 7 new_breaker).
Proof.
  apply (breaker_counters 3 30 2 (on_failure 3 7 new_breaker) 0); [lia|lia|].
  eapply rtc_l; [exact (b_enter 3 30 2 new_breaker 0 5 new_breaker eq_refl)|].
  apply rtc_once. apply (b_fail 3 30 2 new_breaker 0 7).
Defined.
