(* ===== verification/RedisLock.v ===== *)
(** * The Redis lock of a periodic sweep

    Models [control-plane/worker/worker/redis_lock.py].  [server] is the key at the Redis server: the
    token set on it, if any, and when it expires (SET NX PX, and the two Lua scripts, each atomic);
    a [client] is a [RedisLock] object.  [l_until] is not in the code: it records when the client's
    last successful SET or PEXPIRE runs out, which is what a holder may rely on.  The theorem: two
    holders never rely on the lock at once, and none can be harmed by another's release or renewal. *)

From S2P Require Import Prelude.

Local Open Scope Z_scope.

Record server := Server { k_value : option (string * Z) }.

(** The key's live value. *)
Definition get (now : Z) (s : server) : option string :=
  match s.(k_value) with Some (t, e) => if now <? e then Some t else None | None => None end.

(** SET key token NX PX ttl *)
Definition set_nx (now : Z) (token : string) (ttl : Z) (s : server) : bool * server :=
  match get now s with Some _ => (false, s) | None => (true, Server (Some (token, now + ttl))) end.
(** RENEW: compare and PEXPIRE (a TTL that is not positive deletes the key; [ttl] is). *)
Definition renew_script (now : Z) (token : string) (ttl : Z) (s : server) : bool * server :=
  if bool_decide (get now s = Some token) then (true, Server (Some (token, now + ttl))) else (false, s).
(** RELEASE: compare and DEL. *)
Definition release_script (now : Z) (token : string) (s : server) : bool * server :=
  if bool_decide (get now s = Some token) then (true, Server None) else (false, s).

Record client := Client { l_held : bool; l_lost : bool; l_until : Z }.

Section Lock.
Context (ttl_ms : Z).

(** [__init__]: the token is the key of the client below. *)
Definition new_client (now : Z) : client := Client false false now.

(** What a call to Redis meets: an answer, an exception after the command ran (a timeout), or an
    exception instead of it. *)
Inductive reach := Answers | ReplyLost | Unreachable.
#[export] Instance reach_eq_dec : EqDecision reach. Proof. solve_decision. Defined.

(** [acquire] *)
Definition acquire (up : reach) (now : Z) (token : string) (c : client) (s : server) : bool * client * server :=
  let '(ok, s') := set_nx now token ttl_ms s in
  match up with
  | Answers => (ok, Client ok c.(l_lost) (if ok then now + ttl_ms else c.(l_until)), s')
  | ReplyLost => (false, Client false c.(l_lost) c.(l_until), s')
  | Unreachable => (false, Client false c.(l_lost) c.(l_until), s)
  end.

(** [renew]: an exception is a blip, the TTL still covers the next try. *)
Definition renew (up : reach) (now : Z) (token : string) (c : client) (s : server) : bool * client * server :=
  let '(ok, s') := renew_script now token ttl_ms s in
  match up with
  | Answers => (ok, if ok then Client c.(l_held) c.(l_lost) (now + ttl_ms) else Client c.(l_held) true c.(l_until), s')
  | ReplyLost => (true, c, s')
  | Unreachable => (true, c, s)
  end.

(** [release]; the client relies on nothing afterwards. *)
Definition release (up : reach) (now : Z) (token : string) (c : client) (s : server) : bool * client * server :=
  if negb c.(l_held) then (false, c, s)
  else
    let c' := Client false c.(l_lost) now in
    let '(ok, s') := release_script now token s in
    match up with Answers => (ok, c', s') | ReplyLost => (false, c', s') | Unreachable => (false, c', s) end.

(** ** Many clients *)

Record world := World { w_now : Z; w_server : server; w_clients : gmap string client }.

Inductive lstep : world -> world -> Prop :=
| l_tick w t : w_now w <= t -> lstep w (World t (w_server w) (w_clients w))
| l_new w token : w_clients w !! token = None ->
    lstep w (World (w_now w) (w_server w) (<[token := new_client (w_now w)]> (w_clients w)))
| l_acquire w token c up ok c' s' : w_clients w !! token = Some c ->
    acquire up (w_now w) token c (w_server w) = (ok, c', s') ->
    lstep w (World (w_now w) s' (<[token := c']> (w_clients w)))
| l_renew w token c up ok c' s' : w_clients w !! token = Some c ->
    renew up (w_now w) token c (w_server w) = (ok, c', s') ->
    lstep w (World (w_now w) s' (<[token := c']> (w_clients w)))
| l_release w token c up ok c' s' : w_clients w !! token = Some c ->
    release up (w_now w) token c (w_server w) = (ok, c', s') ->
    lstep w (World (w_now w) s' (<[token := c']> (w_clients w))).

(** Whoever may still rely on the lock has the key, for as long as it relies on it. *)
Definition inv (w : world) : Prop :=
  forall token c, w_clients w !! token = Some c -> w_now w < l_until c ->
    l_until c <= w_now w + ttl_ms /\
    exists e, k_value (w_server w) = Some (token, e) /\ l_until c <= e.

Lemma get_value now s t e : k_value s = Some (t, e) -> now < e -> get now s = Some t.
Proof. intros H He. unfold get. rewrite H. destruct (now <? e) eqn:E; [done|reflect_bools; lia]. Qed.

Lemma get_live w token c : inv w -> w_clients w !! token = Some c -> w_now w < l_until c ->
  get (w_now w) (w_server w) = Some token.
Proof.
  intros Hi Hc Hu. destruct (Hi _ _ Hc Hu) as (_ & e & He & Hle). apply (get_value _ _ _ e); [done|lia].
Qed.

(** What an operation may do to the key: leave it, extend the caller's own, free the caller's own, or
    take a free one. *)
Lemma acquire_effect up now token c s ok c' s' : acquire up now token c s = (ok, c', s') ->
  (s' = s \/ get now s = None /\ s' = Server (Some (token, now + ttl_ms))) /\
  (l_until c' = l_until c \/ l_until c' = now + ttl_ms /\ s' = Server (Some (token, now + ttl_ms))).
Proof.
  unfold acquire, set_nx. intros H.
  destruct (get now s) eqn:Eg, up; simplify_eq/=; naive_solver.
Qed.

Lemma renew_effect up now token c s ok c' s' : renew up now token c s = (ok, c', s') ->
  (s' = s \/ get now s = Some token /\ s' = Server (Some (token, now + ttl_ms))) /\
  (l_until c' = l_until c \/ l_until c' = now + ttl_ms /\ s' = Server (Some (token, now + ttl_ms))).
Proof.
  unfold renew, renew_script. intros H.
  case_bool_decide; destruct up; simplify_eq/=; naive_solver.
Qed.

Lemma release_effect up now token c s ok c' s' : release up now token c s = (ok, c', s') ->
  (s' = s /\ c' = c) \/ l_until c' = now /\ (s' = s \/ get now s = Some token /\ s' = Server None).
Proof.
  unfold release, release_script. intros H.
  destruct (l_held c); [|simplify_eq/=; naive_solver]. case_bool_decide; destruct up; simplify_eq/=; naive_solver.
Qed.

Lemma lstep_inv w w' : 0 < ttl_ms -> lstep w w' -> inv w -> inv w'.
Proof.
  intros Ht Hs Hi. destruct Hs as [w t Hle|w token Hn|w token c up ok c' s' Hc H|w token c up ok c' s' Hc H|w token c up ok c' s' Hc H];
    intros tk ck Hck Hu; simpl in *;
    [destruct (Hi tk ck Hck ltac:(lia)) as (? & ? & ? & ?); split; [lia|by eexists]|
     (destruct (decide (tk = token)) as [->|Hne];
      [rewrite lookup_insert_eq in Hck; simplify_eq|rewrite lookup_insert_ne in Hck by done])..];
    try (pose proof (get_live w tk ck Hi Hck Hu) as Hg).
  - simpl in Hu. lia.
  - by apply (Hi tk ck).
  - destruct (acquire_effect _ _ _ _ _ _ _ _ H) as [Hs [Hl|[Hl ->]]]; [|simpl; split; [lia|eexists; split; [done|lia]]].
    rewrite Hl in Hu |- *. destruct Hs as [->|[Hn _]]; [by apply (Hi token c)|].
    rewrite (get_live w token c Hi Hc Hu) in Hn. done.
  - destruct (acquire_effect _ _ _ _ _ _ _ _ H) as [[->|[Hn _]] _]; [by apply (Hi tk ck)|congruence].
  - destruct (renew_effect _ _ _ _ _ _ _ _ H) as [Hs [Hl|[Hl ->]]]; [|simpl; split; [lia|eexists; split; [done|lia]]].
    rewrite Hl in Hu |- *. destruct (Hi token c Hc Hu) as (Hb & e & He & Hle).
    split; [done|]. destruct Hs as [->|[_ ->]]; [by exists e|]. simpl. by eexists.
  - destruct (renew_effect _ _ _ _ _ _ _ _ H) as [[->|[Hn _]] _]; [by apply (Hi tk ck)|congruence].
  - destruct (release_effect _ _ _ _ _ _ _ _ H) as [[-> ->]|[Hl _]]; [by apply (Hi token c)|lia].
  - destruct (release_effect _ _ _ _ _ _ _ _ H) as [[-> _]|[_ [->|[Hn _]]]]; [by apply (Hi tk ck)|by apply (Hi tk ck)|congruence].
Qed.

Definition start_world (s : server) (now : Z) : world := World now s ∅.

(** Sweeps never overlap while they are entitled to run: over any interleaving of acquisitions,
    renewals and releases of any number of holders, whatever Redis answers or fails to answer, at most
    one holder is within the TTL of its last successful acquisition or renewal, and while it is,
    nobody else can acquire or renew, and nobody else's release frees the key. *)
Theorem one_holder s now w t1 c1 t2 c2 :
  0 < ttl_ms -> rtc lstep (start_world s now) w ->
  w_clients w !! t1 = Some c1 -> w_clients w !! t2 = Some c2 -> w_now w < l_until c1 ->
  (w_now w < l_until c2 -> t1 = t2) /\
  (t2 <> t1 -> forall up,
     (acquire up (w_now w) t2 c2 (w_server w)).1.1 = false /\
     (renew Answers (w_now w) t2 c2 (w_server w)).1.1 = false /\
     (acquire up (w_now w) t2 c2 (w_server w)).2 = w_server w /\
     (renew up (w_now w) t2 c2 (w_server w)).2 = w_server w /\
     (release up (w_now w) t2 c2 (w_server w)).2 = w_server w).
Proof.
  intros Ht Hs H1 H2 Hu.
  assert (inv w) as Hi.
  { assert (Hg : forall x y, rtc lstep x y -> inv x -> inv y) by (induction 1; eauto using lstep_inv).
    apply (Hg _ _ Hs). intros tk ck Hck. simpl in Hck. by rewrite lookup_empty in Hck. }
  pose proof (get_live w t1 c1 Hi H1 Hu) as Hg. split.
  - intros Hu2. pose proof (get_live w t2 c2 Hi H2 Hu2). congruence.
  - intros Hne up. unfold acquire, set_nx, renew, renew_script, release, release_script.
    rewrite Hg, bool_decide_eq_false_2 by congruence.
    repeat split; [by destruct up..|destruct (l_held c2); by destruct up].
Qed.
End Lock.

Lemma one_holder_witness :
  let w := World 10 (Server (Some ("a"%string, 110))) (<["a"%string := Client true false 110]> (<["b"%string := (new_client 10)]> ∅)) in
  rtc (lstep 100) (start_world (Server None) 10) w /\
  (acquire 100 Answers 10 "b" (new_client 10) (w_server w)).1.1 = false.
Proof.
  intros w.
  assert (Hr : rtc (lstep 100) (start_world (Server None) 10) w).
  { set (w0 := start_world (Server None) 10).
    set (w1 := World 10 (Server None) (<["b"%string := new_client 10]> ∅)).
    set (w2 := World 10 (Server None) (<["a"%string := new_client 10]> (w_clients w1))).
    apply (rtc_l _ w0 w1); [apply (l_new 100 w0 "b"%string); reflexivity|].
    apply (rtc_l _ w1 w2); [apply (l_new 100 w1 "a"%string); reflexivity|].
    apply rtc_once.
    pose proof (l_acquire 100 w2 "a"%string (new_client 10) Answers true (Client true false 110)
      (Server (Some ("a"%string, 110)))) as H.
    cbn [w_clients w2] in H. rewrite insert_insert_eq in H. apply H; reflexivity. }
  split; [exact Hr|].
  assert (Hne : "b"%string <> "a"%string) by discriminate.
  apply (proj2 (one_holder 100 (Server None) 10 w "a"%string (Client true false 110) "b"%string (new_client 10)
    eq_refl Hr eq_refl eq_refl eq_refl) Hne Answers).
Defined.
