(* ===== verification/AuditArchive.v ===== *)
(** * The audit archive: names, the write-once store, the filesystem backend

    Models [control-plane/worker/worker/audit_archive/]: the abstract class [AuditArchive] of
    base.py is the type class [AuditArchive], with what its docstrings promise as laws;
    [FilesystemArchive] of filesystem.py is its instance: a directory as a map from relative paths
    to contents (a [put] that returns has fsynced and renamed, so it is one step).  The names of an
    export's files are those of [control-plane/worker/worker/audit_export.py]. *)

From S2P Require Import Prelude PyText.
From Stdlib Require Import Ascii.

Local Open Scope Z_scope.

(** ** Text *)

(** [s.split("/")] *)
Fixpoint split_slash (cur s : string) : list string :=
  match s with
  | EmptyString => [cur]
  | String c s' => if decide (c = "/"%char) then cur :: split_slash "" s' else split_slash (cur +:+ String c EmptyString) s'
  end.

(** [check_name] *)
Definition check_name (name : string) : bool :=
  negb (String.eqb name "") && negb (startswith "/" name) &&
  forallb (fun p => negb (String.eqb p "" || String.eqb p "." || String.eqb p "..")) (split_slash "" name).

(** ** The interface *)

Inductive AuditArchiveError :=
| NotAnArchiveName (name : string)
| AlreadyExists (name : string)
| NotInArchive (name : string).

(** Names a store keeps for itself while it writes; nothing of an export is named like that. *)
Definition is_temporary (name : string) : bool := endswith ".tmp" name.

Class AuditArchive (B A : Type) := {
  put : string -> B -> A -> result AuditArchiveError A;
  get : string -> A -> result AuditArchiveError B;
  exists_ : string -> A -> bool;
  list_names : string -> A -> list string;

  get_put : forall n d a a', put n d a = Ok a' -> get n a' = Ok d;
  get_put_other : forall n d a a' n', put n d a = Ok a' -> n' <> n -> is_temporary n' = false -> get n' a' = get n' a;
  put_write_once : forall n d a a' d', get n a = Ok d' -> put n d a = Ok a' -> d = d';
  put_again : forall n d a, get n a = Ok d -> put n d a = Ok a;
  put_new : forall n d a, check_name n = true -> exists_ n a = false -> exists a', put n d a = Ok a';
  exists_get : forall n a, exists_ n a = true <-> exists d, get n a = Ok d;
  list_spec : forall n a, n ∈ list_names "" a <->
    exists_ n a = true /\ is_temporary n = false /\ startswith "quarantine/" n = false
}.

(** ** The filesystem backend *)

Section Filesystem.
Context {B : Type} `{EqDecision B}.

(** [_path]: a name is checked before it is a path under the root. *)
Definition path (name : string) : result AuditArchiveError string :=
  if check_name name then Ok name else Err (NotAnArchiveName name).

(** [put]: [name.tmp] is written, then renamed over [name]. *)
Definition fs_put (name : string) (data : B) (root : gmap string B) : result AuditArchiveError (gmap string B) :=
  p ← path name;
  match root !! p with
  | Some d => if decide (d = data) then Ok root else Err (AlreadyExists name)
  | None => Ok (<[p := data]> (delete (p +:+ ".tmp") root))
  end.

(** [get] *)
Definition fs_get (name : string) (root : gmap string B) : result AuditArchiveError B :=
  p ← path name;
  match root !! p with Some d => Ok d | None => Err (NotInArchive name) end.

(** [exists]; a name that is not one raises in the code, and is never stored. *)
Definition fs_exists (name : string) (root : gmap string B) : bool :=
  match path name with Ok p => bool_decide (is_Some (root !! p)) | Err _ => false end.

(** [list]: what is under the root, sorted; temporary files and the quarantine left out. *)
Definition fs_list (prefix : string) (root : gmap string B) : list string :=
  py_sorted string_leb (List.filter (fun rel =>
    check_name rel && negb (is_temporary rel) &&
    negb (startswith "quarantine/" rel && negb (startswith "quarantine/" prefix)) && startswith prefix rel)
    (map fst (map_to_list root))).
End Filesystem.

(** ** The names of an export ([audit_export.py]) *)

Definition year_month (day : Z) : string :=
  let '(y, m, _) := civil day in pad 4 y +:+ "/" +:+ pad 2 m.

(** [_stem] *)
Definition stem (day seq : Z) : string :=
  year_month day +:+ "/audit-" +:+ isoformat day +:+ (if seq =? 0 then "" else ".s" +:+ pretty seq).
Definition file_name (day seq : Z) : string := stem day seq +:+ ".jsonl.gz".
Definition manifest_name (day seq : Z) : string := stem day seq +:+ ".manifest.json".
Definition key_name (key_id : string) : string := "keys/" +:+ key_id +:+ ".pub.pem".

Example manifest_name_1 : manifest_name 20737 0 = "2026/10/audit-2026-10-11.manifest.json"%string.
Proof. vm_compute. reflexivity. Qed.
Example file_name_1 : file_name 20737 2 = "2026/10/audit-2026-10-11.s2.jsonl.gz"%string.
Proof. vm_compute. reflexivity. Qed.

(** ** Facts on names *)

Lemma endswith_app suf s t : (String.length suf <= String.length t)%nat -> endswith suf (s +:+ t) = endswith suf t.
Proof.
  intros Hl. induction s as [|c s IH]; [done|]. rewrite string_app_cons.
  change (endswith suf (String c (s +:+ t))) with (String.eqb (String c (s +:+ t)) suf || endswith suf (s +:+ t)).
  replace (String.eqb (String c (s +:+ t)) suf) with false; [exact IH|].
  symmetry. apply String.eqb_neq. intros <-. simpl in Hl. rewrite string_length_app in Hl. lia.
Qed.

Lemma endswith_refl suf s : endswith suf (s +:+ suf) = true.
Proof. rewrite endswith_app by done. destruct suf; simpl; by rewrite ?Ascii.eqb_refl, ?String.eqb_refl. Qed.

Lemma not_temporary s t : (4 <= String.length t)%nat -> endswith ".tmp" t = false -> is_temporary (s +:+ t) = false.
Proof. intros Hl Ht. unfold is_temporary. by rewrite endswith_app. Qed.

Lemma manifest_name_not_temporary day seq : is_temporary (manifest_name day seq) = false.
Proof. by apply not_temporary; simpl; [lia|]. Qed.
Lemma sig_name_not_temporary day seq : is_temporary (manifest_name day seq +:+ ".sig") = false.
Proof. by apply not_temporary; simpl; [lia|]. Qed.
Lemma file_name_not_temporary day seq : is_temporary (file_name day seq) = false.
Proof. by apply not_temporary; simpl; [lia|]. Qed.
Lemma key_name_not_temporary k : is_temporary (key_name k) = false.
Proof. unfold key_name. rewrite <- string_app_assoc. by apply not_temporary; simpl; [lia|]. Qed.

(** Names with different endings differ. *)
Lemma endings_ne suf s x t y : (String.length suf <= String.length x)%nat -> (String.length suf <= String.length y)%nat ->
  endswith suf x = true -> endswith suf y = false -> s +:+ x <> t +:+ y.
Proof. intros Hx Hy Ex Ey H. apply (f_equal (endswith suf)) in H. rewrite !endswith_app in H by done. congruence. Qed.

Lemma file_ne_manifest d s d' s' : file_name d s <> manifest_name d' s'.
Proof. by apply (endings_ne "gz"); simpl; try lia. Qed.
Lemma file_ne_sig d s d' s' : file_name d s <> manifest_name d' s' +:+ ".sig".
Proof. by apply (endings_ne "gz"); simpl; try lia. Qed.
Lemma manifest_ne_sig d s d' s' : manifest_name d s <> manifest_name d' s' +:+ ".sig".
Proof. by apply (endings_ne "json"); simpl; try lia. Qed.
Lemma key_ne_file k d s : key_name k <> file_name d s.
Proof. unfold key_name. rewrite <- string_app_assoc. by apply (endings_ne "pem"); simpl; try lia. Qed.
Lemma key_ne_manifest k d s : key_name k <> manifest_name d s.
Proof. unfold key_name. rewrite <- string_app_assoc. by apply (endings_ne "pem"); simpl; try lia. Qed.
Lemma key_ne_sig k d s : key_name k <> manifest_name d s +:+ ".sig".
Proof. unfold key_name. rewrite <- string_app_assoc. by apply (endings_ne "pem"); simpl; try lia. Qed.

(** ** The filesystem backend keeps the promises *)

Section Laws.
Context {B : Type} `{EqDecision B}.
Implicit Types (root : gmap string B) (d : B) (n : string).

Lemma fs_put_inv n d root root' : fs_put n d root = Ok root' ->
  check_name n = true /\
  ((root !! n = Some d /\ root' = root) \/ (root !! n = None /\ root' = <[n := d]> (delete (n +:+ ".tmp") root))).
Proof.
  unfold fs_put, path. destruct (check_name n) eqn:E; simpl; [|done]. split; [done|].
  destruct (root !! n) as [d'|] eqn:El; [|right; split; congruence].
  destruct (decide (d' = d)) as [->|]; [|done]. left. split; congruence.
Qed.

Lemma fs_get_ok n d root : fs_get n root = Ok d <-> check_name n = true /\ root !! n = Some d.
Proof.
  unfold fs_get, path. destruct (check_name n); simpl; [|naive_solver].
  destruct (root !! n); naive_solver.
Qed.

Lemma fs_exists_ok n root : fs_exists n root = true <-> check_name n = true /\ is_Some (root !! n).
Proof.
  unfold fs_exists, path. destruct (check_name n); simpl; [|naive_solver].
  rewrite bool_decide_eq_true. naive_solver.
Qed.

Lemma temporary_name n : is_temporary (n +:+ ".tmp") = true.
Proof. apply endswith_refl. Qed.
Lemma temporary_ne n : n +:+ ".tmp" <> n.
Proof. intros E. apply (f_equal String.length) in E. rewrite string_length_app in E. simpl in E. lia. Qed.

Lemma fs_get_other n d root root' n' :
  fs_put n d root = Ok root' -> n' <> n -> is_temporary n' = false -> fs_get n' root' = fs_get n' root.
Proof.
  intros [_ [[_ ->]|[_ ->]]]%fs_put_inv Hne Ht; [done|]. unfold fs_get, path.
  destruct (check_name n'); simpl; [|done].
  rewrite lookup_insert_ne, lookup_delete_ne; [done| |congruence].
  intros <-. by rewrite temporary_name in Ht.
Qed.

Lemma fs_list_spec n root : n ∈ fs_list "" root <->
  fs_exists n root = true /\ is_temporary n = false /\ startswith "quarantine/" n = false.
Proof.
  unfold fs_list. rewrite elem_of_py_sorted, list_elem_of_In, filter_In, fs_exists_ok, <- list_elem_of_In.
  assert (Hin : n ∈ map fst (map_to_list root) <-> is_Some (root !! n)).
  { change (map fst (map_to_list root)) with ((map_to_list root).*1). rewrite list_elem_of_fmap. split.
    - intros ([k d] & -> & Hd%elem_of_map_to_list). by eexists.
    - intros [d Hd]. exists (n, d). split; [done|]. by apply elem_of_map_to_list. }
  rewrite Hin, !andb_true_iff, !negb_true_iff, andb_true_r.
  assert (startswith "" n = true) by (destruct n; done). intuition.
Qed.

#[export] Instance FilesystemArchive : AuditArchive B (gmap string B).
Proof.
  refine (Build_AuditArchive B (gmap string B) fs_put fs_get fs_exists fs_list _ _ _ _ _ _ _).
  - intros n d a a' H. apply fs_get_ok. apply fs_put_inv in H as [Hc [[Hl ->]|[_ ->]]]; split; try done.
    by rewrite lookup_insert_eq.
  - intros. by eapply fs_get_other.
  - intros n d a a' d' [_ Hg]%fs_get_ok H. apply fs_put_inv in H as [Hc [[Hl _]|[Hl _]]]; congruence.
  - intros n d a [Hc Hl]%fs_get_ok. unfold fs_put, path. rewrite Hc. simpl. rewrite Hl. by rewrite decide_True.
  - intros n d a Hc He. unfold fs_exists, path in He. unfold fs_put, path. rewrite Hc in *. simpl.
    apply bool_decide_eq_false in He. destruct (a !! n) eqn:E; [exfalso; apply He; by eexists|by eexists].
  - intros n a. rewrite fs_exists_ok. split.
    + intros [Hc [d Hd]]. exists d. by apply fs_get_ok.
    + intros [d [Hc Hd]%fs_get_ok]. split; [done|by eexists].
  - intros. apply fs_list_spec.
Defined.
End Laws.
