(* ===== verification/AuditExport.v ===== *)
(** * Signed daily exports of the audit log

    Models [control-plane/worker/worker/audit_export.py] and the checking half of
    [control-plane/worker/worker/audit_signing.py]: reading a day's rows, encoding them, verifying a
    manifest, and writing an export (files, manifest, signature, then the database row).  Bytes are
    [string]s.  gzip, json, SHA-256 and Ed25519 are the parameters of the section, with the laws the
    code relies on as named hypotheses.  The archive is any instance of [AuditArchive].  Times are
    microseconds since 1970-01-01 UTC, days are day numbers. *)

From S2P Require Import Prelude PyText AuditArchive.
From Stdlib Require Import Ascii.

Local Open Scope Z_scope.

(** ** The database ([worker/tables.py]) *)

Record row := Row {
  r_id : string; r_timestamp : Z; r_user_id : option string; r_tenant_id : option string;
  r_action : string; r_resource_type : string; r_resource_id : option string; r_detail : option string }.
#[export] Instance row_eq_dec : EqDecision row.
Proof. solve_decision. Defined.
Record export := Export {
  e_day : Z; e_seq : Z; e_row_count : Z; e_first_id : option string; e_last_id : option string;
  e_file_name : string; e_file_sha256 : string; e_manifest_sha256 : string;
  e_prev : option string; e_key_id : string; e_created_at : Z }.
Record check := Check_ {
  c_day : Z; c_seq : Z; c_manifest_sha256 : string; c_row_count : Z; c_key_id : string; c_checked_at : Z }.
Record db := DB { logs : list row; exports : list export; checks : list check }.

(** ** The manifest *)

Definition SCHEMA : Z := 1.
Record manifest := Manifest {
  m_schema : Z; m_day : string; m_seq : Z; m_row_count : Z; m_first_id : option string; m_last_id : option string;
  m_file : string; m_file_sha256 : string; m_prev : option string; m_key_id : string; m_generated_at : Z }.

Inductive AuditExportError :=
| ArchiveFailed (e : AuditArchiveError)   (* raised by the archive, not wrapped *)
| Unreadable (name : string)              (* AuditArchiveError, ValueError or KeyError, wrapped *)
| NotAsRecorded (name : string)
| UnknownKey (name key_id : string)
| KeyMismatch (name : string)
| BadSignature (name : string)
| FileMismatch (name : string)
| DescribesOther (name : string)
| NotOneChain (heads : Z)
| Undecodable                             (* a data file that does not decompress or parse *)
| DuplicateExport
| PurgeMismatch (deleted live : Z).

Definition us_per_day : Z := 86400000000.
(** [day_bounds] *)
Definition day_bounds (day : Z) : Z * Z := (day * us_per_day, day * us_per_day + us_per_day).
Definition of_day (day : Z) (r : row) : bool :=
  let '(start, end_) := day_bounds day in (start <=? r.(r_timestamp)) && (r.(r_timestamp) <? end_).

(** [order_by(timestamp, id)] *)
Definition row_leb (r s : row) : bool :=
  (r.(r_timestamp) <? s.(r_timestamp)) || ((r.(r_timestamp) =? s.(r_timestamp)) && string_leb r.(r_id) s.(r_id)).

(** [day_rows], [day_count], [exports_for] *)
Definition day_rows (d : db) (day : Z) : list row := py_sorted row_leb (List.filter (of_day day) d.(logs)).
Definition day_count (d : db) (day : Z) : Z := zlen (List.filter (of_day day) d.(logs)).
Definition exports_for (d : db) (day : Z) : list export :=
  py_sorted (fun e f => e.(e_seq) <=? f.(e_seq)) (List.filter (fun e => e.(e_day) =? day) d.(exports)).

(** "if x" of an optional string. *)
Definition truthy (x : option string) : option string :=
  match x with Some s => if String.eqb s "" then None else Some s | None => None end.

(** [chain_head]: the manifest no other export points back to. *)
Definition chain_head (d : db) : result AuditExportError (option string) :=
  match d.(exports) with
  | [] => Ok None
  | rows =>
      let referenced := omap (fun e => truthy e.(e_prev)) rows in
      match List.filter (fun s => negb (bool_decide (s ∈ referenced))) (map e_manifest_sha256 rows) with
      | [h] => Ok (Some h)
      | heads => Err (NotOneChain (zlen heads))
      end
  end.

(** [bytes.splitlines]: lines end at LF, CR or CR LF. *)
Definition LF : ascii := "010"%char.
Definition CR : ascii := "013"%char.
Fixpoint splitlines (cur s : string) : list string :=
  match s with
  | EmptyString => if String.eqb cur "" then [] else [cur]
  | String c s' =>
      if decide (c = LF) then cur :: splitlines "" s'
      else if decide (c = CR) then
        match s' with
        | String c' s'' => if decide (c' = LF) then cur :: splitlines "" s'' else cur :: splitlines "" s'
        | EmptyString => [cur]
        end
      else splitlines (cur +:+ String c EmptyString) s'
  end.
Definition is_blank_char (c : ascii) : bool :=
  let n := nat_of_ascii c in ((9 <=? n) && (n <=? 13) || (n =? 32))%nat.
Fixpoint is_blank (s : string) : bool :=
  match s with EmptyString => true | String c s' => is_blank_char c && is_blank s' end.

(** ** Signing keys ([audit_signing.py]) *)
Record SigningKey := MkSigningKey { sk_key_id : string; sk_public_pem : string; sk_sign : string -> string }.

Section Exporting.
Context {A : Type} `{AuditArchive string A}.
(** hashlib, json, gzip, cryptography *)
Context (sha256 : string -> string).
Context (json_dumps : manifest -> string) (json_loads : string -> option manifest).
Context (row_json : row -> string) (json_id : string -> option string).
Context (gzip_compress : string -> string) (gzip_decompress : string -> option string).
Context {pubkey : Type} (load_pem : string -> option pubkey) (raw_public : pubkey -> option string).
Context (ed25519_verify : pubkey -> string -> string -> bool).

(** [key_id_of]: 16 hexadecimal digits of the hash of the raw public key (None: not an Ed25519 key). *)
Definition key_id_of (p : pubkey) : option string :=
  match raw_public p with Some raw => Some (String.substring 0 16 (sha256 raw)) | None => None end.

(** [verify]: [load_pem_public_key] raises, the key is of another kind, or it checks the signature. *)
Definition verify (public_pem data signature : string) : option bool :=
  match load_pem public_pem with
  | None => None
  | Some p => Some (match raw_public p with None => false | Some _ => ed25519_verify p signature data end)
  end.

(** [encode_rows], [decode_ids] *)
Definition encode_rows (rows : list row) : string :=
  gzip_compress (foldr (fun r s => row_json r +:+ String LF EmptyString +:+ s) "" rows).
Definition decode_ids (data : string) : option (list string) :=
  match gzip_decompress data with
  | None => None
  | Some text => mapM json_id (List.filter (fun l => negb (is_blank l)) (splitlines "" text))
  end.

(** [manifest_bytes] *)
Definition manifest_bytes (m : manifest) : string := json_dumps m.

(** [trusted_key_ids] *)
Definition trusted_key_ids (d : db) (key : option SigningKey) : list string :=
  match key with Some k => [k.(sk_key_id)] | None => [] end ++ map e_key_id d.(exports).

(** What a failing read inside the [try] becomes. *)
Definition wrap {T} (name : string) (r : result AuditArchiveError T) : result AuditExportError T :=
  match r with Ok x => Ok x | Err _ => Err (Unreadable name) end.
Definition wrap_option {T} (name : string) (r : option T) : result AuditExportError T :=
  match r with Some x => Ok x | None => Err (Unreadable name) end.

(** [verify_manifest] *)
Definition verify_manifest (a : A) (name : string) (key : option SigningKey) (trusted : option (list string))
    (expected_sha : option string) : result AuditExportError manifest :=
  mbytes ← wrap name (get name a);
  sig ← wrap name (get (name +:+ ".sig") a);
  m ← wrap_option name (json_loads mbytes);
  guard_or (match expected_sha with Some s => String.eqb (sha256 mbytes) s | None => true end) (NotAsRecorded name) (
  guard_or (match trusted with Some t => bool_decide (m.(m_key_id) ∈ t) | None => true end) (UnknownKey name m.(m_key_id)) (
  pem ← match key with
        | Some k => if String.eqb m.(m_key_id) k.(sk_key_id) then Ok k.(sk_public_pem) else wrap name (get (key_name m.(m_key_id)) a)
        | None => wrap name (get (key_name m.(m_key_id)) a)
        end;
  p ← wrap_option name (load_pem pem);
  id ← wrap_option name (key_id_of p);
  guard_or (String.eqb id m.(m_key_id)) (KeyMismatch name) (
  ok ← wrap_option name (verify pem mbytes sig);
  guard_or ok (BadSignature name) (
  data ← wrap name (get m.(m_file) a);
  guard_or (String.eqb (sha256 data) m.(m_file_sha256)) (FileMismatch name) (Ok m))))).

(** ** Writing: a computation on the database and the archive that may raise *)

Record store := Store { s_db : db; s_archive : A }.
Definition io (T : Type) : Type := store -> result AuditExportError T * store.
#[export] Instance io_ret : MRet io := fun T x s => (Ok x, s).
#[export] Instance io_bind : MBind io := fun S T f m s =>
  match m s with (Ok x, s') => f x s' | (Err e, s') => (Err e, s') end.
Definition raise {T} (e : AuditExportError) : io T := fun s => (Err e, s).
Definition lift {T} (r : result AuditExportError T) : io T := fun s => (r, s).
Definition ask : io store := fun s => (Ok s, s).
Definition archive_put (name data : string) : io unit := fun s =>
  match put name data s.(s_archive) with
  | Ok a' => (Ok tt, Store s.(s_db) a')
  | Err e => (Err (ArchiveFailed e), s)
  end.
Definition archive_get (name : string) : io string := fun s =>
  match get name s.(s_archive) with Ok d => (Ok d, s) | Err e => (Err (ArchiveFailed e), s) end.

Record Written := MkWritten { wr_day : Z; wr_seq : Z; wr_row_count : Z; wr_manifest_sha256 : string }.

Definition first_id (rows : list row) : option string := option_map r_id (head rows).
Definition last_id (rows : list row) : option string := option_map r_id (last rows).

(** The manifest a fresh export writes. *)
Definition new_manifest (key : SigningKey) (day seq : Z) (rows : list row) (prev : option string) (now : Z) : manifest :=
  Manifest SCHEMA (isoformat day) seq (zlen rows) (first_id rows) (last_id rows) (file_name day seq)
    (sha256 (encode_rows rows)) prev key.(sk_key_id) now.

(** [audit_exports.insert] and the commit; (day, seq) is the primary key. *)
Definition record_export (key : SigningKey) (day seq : Z) (rows : list row) (prev : option string) (now : Z) (mbytes : string) : io Written :=
  fun s =>
  let d := s.(s_db) in
  if bool_decide ((day, seq) ∈ map (fun e => (e.(e_day), e.(e_seq))) d.(exports)) then (Err DuplicateExport, s)
  else
    let e := Export day seq (zlen rows) (first_id rows) (last_id rows) (file_name day seq) (sha256 (encode_rows rows))
      (sha256 mbytes) prev key.(sk_key_id) now in
    (Ok (MkWritten day seq (zlen rows) (sha256 mbytes)), Store (DB d.(logs) (d.(exports) ++ [e]) d.(checks)) s.(s_archive)).

(** [write_export] *)
Definition write_export (key : SigningKey) (day seq : Z) (rows : list row) (prev : option string) (now : Z) : io Written :=
  let data := encode_rows rows in
  let mname := manifest_name day seq in
  _ ← archive_put (key_name key.(sk_key_id)) key.(sk_public_pem);
  s ← ask;
  mbytes ←
    (if exists_ mname s.(s_archive) then
       existing ← lift (verify_manifest s.(s_archive) mname (Some key) (Some (trusted_key_ids s.(s_db) (Some key))) None);
       if bool_decide ((existing.(m_file_sha256), existing.(m_prev), existing.(m_row_count)) = (sha256 data, prev, zlen rows))
       then archive_get mname
       else raise (DescribesOther mname)
     else
       let mbytes := manifest_bytes (new_manifest key day seq rows prev now) in
       _ ← archive_put (file_name day seq) data;
       _ ← archive_put mname mbytes;
       _ ← archive_put (mname +:+ ".sig") (key.(sk_sign) mbytes);
       s' ← ask;
       _ ← lift (verify_manifest s'.(s_archive) mname (Some key) (Some [key.(sk_key_id)]) None);
       mret mbytes);
  record_export key day seq rows prev now mbytes.

(** [exported_ids]: every row id in the verified files of the day's exports. *)
Fixpoint exported_ids_of (a : A) (trusted : list string) (key : option SigningKey) (day : Z) (es : list export) : result AuditExportError (list string) :=
  match es with
  | [] => Ok []
  | e :: es' =>
      m ← verify_manifest a (manifest_name day e.(e_seq)) key (Some trusted) (Some e.(e_manifest_sha256));
      data ← match get m.(m_file) a with Ok x => Ok x | Err err => Err (ArchiveFailed err) end;
      ids ← match decode_ids data with Some ids => Ok ids | None => Err Undecodable end;
      rest ← exported_ids_of a trusted key day es';
      Ok (ids ++ rest)
  end.
Definition exported_ids (a : A) (d : db) (day : Z) (key : option SigningKey) : result AuditExportError (list string) :=
  exported_ids_of a (trusted_key_ids d key) key day (exports_for d day).

(** ** What a verified manifest is *)

(** The key a manifest is checked with: the worker's own for its key id, else the archived one. *)
Definition checking_pem (a : A) (key : option SigningKey) (key_id pem : string) : Prop :=
  (exists k, key = Some k /\ sk_key_id k = key_id /\ pem = sk_public_pem k) \/
  ((forall k, key = Some k -> sk_key_id k <> key_id) /\ get (key_name key_id) a = Ok pem).

(** The archive holds the manifest, its signature by the key it names, and the file it describes. *)
Definition verified (a : A) (name : string) (key : option SigningKey) (m : manifest) (mbytes : string) : Prop :=
  exists sig pem p data,
    get name a = Ok mbytes /\ get (name +:+ ".sig") a = Ok sig /\ json_loads mbytes = Some m /\
    checking_pem a key (m_key_id m) pem /\ load_pem pem = Some p /\ key_id_of p = Some (m_key_id m) /\
    ed25519_verify p sig mbytes = true /\ get (m_file m) a = Ok data /\ sha256 data = m_file_sha256 m.

Lemma verify_manifest_iff a name key trusted expected m :
  verify_manifest a name key trusted expected = Ok m <->
  exists mbytes, verified a name key m mbytes /\
    (forall s, expected = Some s -> sha256 mbytes = s) /\ (forall t, trusted = Some t -> m_key_id m ∈ t).
Proof.
  unfold verify_manifest, verified, checking_pem. split.
  - intros Hv.
    destruct (get name a) as [mb|] eqn:Em; [|done].
    destruct (get (name +:+ ".sig") a) as [sig|] eqn:Es; [|done]. simpl in Hv.
    destruct (json_loads mb) as [m'|] eqn:Ej; [|done]. simpl in Hv. unfold guard_or in Hv.
    destruct (match expected with Some s => _ | None => true end) eqn:Ee; [|done].
    destruct (match trusted with Some t => _ | None => true end) eqn:Et; [|done].
    match type of Hv with (?x ≫= _) = _ => destruct x as [pem|] eqn:Ep; [|done] end. simpl in Hv.
    destruct (load_pem pem) as [p|] eqn:El; [|done]. simpl in Hv.
    destruct (key_id_of p) as [id|] eqn:Ei; [|done]. simpl in Hv.
    destruct (String.eqb id (m_key_id m')) eqn:Eid; [|done]. apply String.eqb_eq in Eid as ->.
    unfold verify in Hv. rewrite El in Hv. simpl in Hv.
    destruct (raw_public p) eqn:Er; [|done]. destruct (ed25519_verify p sig mb) eqn:Ev; [|done].
    destruct (get (m_file m') a) as [data|] eqn:Ef; [|done]. simpl in Hv.
    destruct (String.eqb (sha256 data) (m_file_sha256 m')) eqn:Esha; [|done]. apply String.eqb_eq in Esha.
    injection Hv as ->. exists mb. split; [|split].
    + exists sig, pem, p, data. repeat split; try done.
      destruct key as [k|]; [destruct (String.eqb (m_key_id m) (sk_key_id k)) eqn:Ek|].
      * left. exists k. apply String.eqb_eq in Ek. by injection Ep as <-.
      * right. apply String.eqb_neq in Ek. split; [intros ? [= <-]; congruence|].
        by destruct (get (key_name (m_key_id m)) a); [injection Ep as ->|].
      * right. split; [done|]. by destruct (get (key_name (m_key_id m)) a); [injection Ep as ->|].
    + intros s0 ->. by apply String.eqb_eq in Ee.
    + intros t ->. by apply bool_decide_eq_true in Et.
  - intros (mb & (sig & pem & p & data & Em & Es & Ej & Hp & El & Ei & Ev & Ef & Esha) & He & Ht).
    rewrite Em, Es; simpl. rewrite Ej; simpl. unfold guard_or.
    replace (match expected with Some s => String.eqb (sha256 mb) s | None => true end) with true
      by (destruct expected as [s|]; [by rewrite (He s eq_refl), String.eqb_refl|done]).
    replace (match trusted with Some t => bool_decide (m_key_id m ∈ t) | None => true end) with true
      by (destruct trusted as [t|]; [symmetry; apply bool_decide_eq_true; by apply Ht|done]).
    match goal with |- (?x ≫= _) = _ => replace x with (@Ok AuditExportError string pem) end.
    + simpl. unfold verify. rewrite El; simpl. rewrite Ei; simpl. rewrite String.eqb_refl.
      unfold key_id_of in Ei. destruct (raw_public p); [|done]. simpl. rewrite Ev, Ef; simpl.
      by rewrite Esha, String.eqb_refl.
    + destruct Hp as [(k & -> & Hk & ->)|[Hk Hg]].
      * by rewrite Hk, String.eqb_refl.
      * rewrite Hg. destruct key as [k|]; [|done].
        destruct (String.eqb (m_key_id m) (sk_key_id k)) eqn:Ek; [|done].
        apply String.eqb_eq in Ek. by destruct (Hk k eq_refl).
Qed.

(** ** The data file *)

Fixpoint one_line (s : string) : bool :=
  match s with EmptyString => true | String c s' => negb (bool_decide (c = LF)) && negb (bool_decide (c = CR)) && one_line s' end.

Lemma splitlines_line cur s rest : one_line s = true ->
  splitlines cur (s +:+ String LF rest) = (cur +:+ s) :: splitlines "" rest.
Proof.
  revert cur; induction s as [|c s IH]; intros cur Hs.
  - change (EmptyString +:+ String LF rest) with (String LF rest). cbn [splitlines]. by rewrite decide_True, string_app_nil_r.
  - rewrite string_app_cons. simpl in Hs. reflect_bools. cbn [splitlines]. rewrite !decide_False by done.
    rewrite IH by done. f_equal. by rewrite string_app_assoc.
Qed.

(** gzip and json give back what they were given; a row's JSON object is one line with its id. *)
Hypothesis gzip_roundtrip : forall s, gzip_decompress (gzip_compress s) = Some s.
Hypothesis row_json_line : forall r, one_line (row_json r) = true /\ is_blank (row_json r) = false /\ json_id (row_json r) = Some (r_id r).
Hypothesis json_roundtrip : forall m, json_loads (json_dumps m) = Some m.

Lemma decode_encode rows : decode_ids (encode_rows rows) = Some (map r_id rows).
Proof.
  unfold decode_ids, encode_rows. rewrite gzip_roundtrip. induction rows as [|r rows IH]; [done|].
  destruct (row_json_line r) as (Hl & Hb & Hi). cbn [foldr map].
  rewrite string_app_cons. rewrite splitlines_line by done.
  change (EmptyString +:+ row_json r) with (row_json r). change (EmptyString +:+ ?x) with x.
  simpl. rewrite Hb. simpl. rewrite Hi. simpl. by rewrite IH.
Qed.

(** ** The archive only grows *)

Definition grows (a a' : A) : Prop := forall n d, is_temporary n = false -> get n a = Ok d -> get n a' = Ok d.

Lemma grows_refl a : grows a a.
Proof. by intros n d. Qed.
Lemma grows_trans a b c : grows a b -> grows b c -> grows a c.
Proof. intros H1 H2 n d Ht Hg. auto. Qed.
Lemma put_grows n d a a' : put n d a = Ok a' -> grows a a'.
Proof.
  intros Hp n' d' Ht Hg. destruct (decide (n' = n)) as [->|Hne].
  - rewrite <- (put_write_once _ _ _ _ _ Hg Hp). by apply (get_put n d a).
  - by rewrite (get_put_other _ _ _ _ _ Hp Hne Ht).
Qed.

(** What [write_export] did when it returned. *)
Lemma write_export_inv key day seq rows prev now s w s' :
  write_export key day seq rows prev now s = (Ok w, s') ->
  exists mbytes m,
    grows (s_archive s) (s_archive s') /\
    verified (s_archive s') (manifest_name day seq) (Some key) m mbytes /\
    m_key_id m ∈ trusted_key_ids (s_db s) (Some key) /\
    m_file_sha256 m = sha256 (encode_rows rows) /\ m_prev m = prev /\ m_row_count m = zlen rows /\
    record_export key day seq rows prev now mbytes (Store (s_db s) (s_archive s')) = (Ok w, s').
Proof.
  destruct s as [d a]. unfold write_export, mbind, io_bind, archive_put at 1, ask at 1; simpl. intros Hw.
  destruct (put (key_name (sk_key_id key)) (sk_public_pem key) a) as [a1|] eqn:Ek; [|done]. simpl in Hw.
  destruct (exists_ (manifest_name day seq) a1) eqn:Ee.
  - unfold lift in Hw.
    destruct (verify_manifest a1 _ (Some key) _ None) as [m|] eqn:Ev; [|done].
    apply verify_manifest_iff in Ev as (mb & Hver & _ & Ht). case_bool_decide as Heq; [|done].
    destruct Hver as (sig & pem & p & data & Em & Hrest).
    unfold archive_get in Hw; simpl in Hw. rewrite Em in Hw.
    assert (s_archive s' = a1) as Ha by (unfold record_export in Hw; case_bool_decide; by simplify_eq).
    rewrite Ha. injection Heq as H1 H2 H3. exists mb, m. split; [by eapply put_grows|].
    split; [by exists sig, pem, p, data|]. split; [by apply Ht|]. done.
  - unfold archive_put, lift, ask in Hw; simpl in Hw.
    destruct (put (file_name day seq) _ a1) as [a2|] eqn:Ef; [|done]. simpl in Hw.
    destruct (put (manifest_name day seq) _ a2) as [a3|] eqn:Em; [|done]. simpl in Hw.
    destruct (put (manifest_name day seq +:+ ".sig") _ a3) as [a4|] eqn:Es; [|done]. simpl in Hw.
    destruct (verify_manifest a4 _ (Some key) _ None) as [m|] eqn:Ev; [|done]. simpl in Hw.
    apply verify_manifest_iff in Ev as (mb & Hver & _ & Ht).
    assert (s_archive s' = a4) as Ha by (unfold record_export in Hw; case_bool_decide; by simplify_eq).
    assert (mb = manifest_bytes (new_manifest key day seq rows prev now)) as ->.
    { destruct Hver as (sig & pem & p & data & Hg & _). apply get_put in Em.
      apply (put_grows _ _ _ _ Es) in Em; [congruence|apply manifest_name_not_temporary]. }
    assert (m = new_manifest key day seq rows prev now) as ->.
    { destruct Hver as (sig & pem & p & data & _ & _ & Hj & _). unfold manifest_bytes in Hj.
      rewrite json_roundtrip in Hj. congruence. }
    rewrite Ha. eexists _, _. split.
    { do 3 (eapply grows_trans; [by eapply put_grows|]). by eapply put_grows. }
    split; [exact Hver|]. split; [by apply elem_of_app; left; left|]. done.
Qed.

(** A failed export records nothing and loses nothing. *)
Lemma write_export_err key day seq rows prev now s e s' :
  write_export key day seq rows prev now s = (Err e, s') -> s_db s' = s_db s /\ grows (s_archive s) (s_archive s').
Proof.
  destruct s as [d a]. unfold write_export, mbind, io_bind, archive_put at 1, ask at 1; simpl. intros Hw.
  destruct (put (key_name (sk_key_id key)) (sk_public_pem key) a) as [a1|] eqn:Ek; simpl in Hw;
    [|by simplify_eq; split; [|apply grows_refl]].
  apply put_grows in Ek.
  destruct (exists_ (manifest_name day seq) a1) eqn:Ee.
  - unfold lift in Hw. destruct (verify_manifest a1 _ (Some key) _ None) as [m|]; [|by simplify_eq].
    case_bool_decide; [|by unfold raise in Hw; simplify_eq]. unfold archive_get in Hw; simpl in Hw.
    destruct (get _ a1); [|by simplify_eq]. unfold record_export in Hw. case_bool_decide; by simplify_eq.
  - unfold archive_put, lift, ask in Hw; simpl in Hw.
    destruct (put (file_name day seq) _ a1) as [a2|] eqn:Ef; simpl in Hw; [|by simplify_eq].
    apply put_grows in Ef. pose proof (grows_trans _ _ _ Ek Ef) as G2.
    destruct (put (manifest_name day seq) _ a2) as [a3|] eqn:Em; simpl in Hw; [|by simplify_eq].
    apply put_grows in Em. pose proof (grows_trans _ _ a3 G2 Em) as G3.
    destruct (put (manifest_name day seq +:+ ".sig") _ a3) as [a4|] eqn:Es; simpl in Hw; [|by simplify_eq].
    apply put_grows in Es. pose proof (grows_trans _ _ a4 G3 Es) as G4.
    destruct (verify_manifest a4 _ (Some key) _ None) as [m|]; simpl in Hw; [|by simplify_eq].
    unfold record_export in Hw. case_bool_decide; by simplify_eq.
Qed.

(** The database after a [write_export]. *)
Lemma export_step key day seq rows prev now s :
  match (write_export key day seq rows prev now s).1 with
  | Err _ => s_db (write_export key day seq rows prev now s).2 = s_db s
  | Ok w => exists e,
      s_db (write_export key day seq rows prev now s).2 = DB (logs (s_db s)) (exports (s_db s) ++ [e]) (checks (s_db s)) /\
      e_day e = day /\ e_seq e = seq /\ e_row_count e = zlen rows
  end.
Proof.
  destruct (write_export _ _ _ _ _ _ _) as [[w|e] s'] eqn:Hw; simpl.
  - apply write_export_inv in Hw as (mb & m & _ & _ & _ & _ & _ & _ & Hr).
    unfold record_export in Hr; simpl in Hr. case_bool_decide; [done|]. injection Hr as _ <-. by eexists.
  - by apply write_export_err in Hw as [? _].
Qed.

(** An export is all or nothing.  When it returns, the database gained exactly one row, for a
    (day, seq) it did not have, with the chain position it was given; the manifest it names verifies
    in the archive against that row and describes the rows given; and, unless another file has the
    same SHA-256, the file it points to lists exactly those rows.  When it raises, nothing was
    recorded.  Either way nothing in the archive was replaced or removed. *)
Theorem export_all_or_nothing key day seq rows prev now s :
  let out := write_export key day seq rows prev now s in
  let a' := s_archive out.2 in
  grows (s_archive s) a' /\
  match out.1 with
  | Err _ => s_db out.2 = s_db s
  | Ok w => exists m e,
      s_db out.2 = DB (logs (s_db s)) (exports (s_db s) ++ [e]) (checks (s_db s)) /\
      (e_day e, e_seq e) = (day, seq) /\ (day, seq) ∉ map (fun e => (e_day e, e_seq e)) (exports (s_db s)) /\
      e_prev e = prev /\ e_row_count e = zlen rows /\ e_manifest_sha256 e = wr_manifest_sha256 w /\
      verify_manifest a' (manifest_name day seq) (Some key) (Some (trusted_key_ids (s_db out.2) (Some key)))
        (Some (e_manifest_sha256 e)) = Ok m /\
      m_prev m = prev /\ m_row_count m = zlen rows /\ m_file_sha256 m = e_file_sha256 e /\
      ((forall x, sha256 x = sha256 (encode_rows rows) -> x = encode_rows rows) ->
       exists data, get (m_file m) a' = Ok data /\ decode_ids data = Some (map r_id rows))
  end.
Proof.
  intros out a'. unfold a'. destruct out as [[w|e] s'] eqn:Ho; unfold out in Ho; simpl.
  - apply write_export_inv in Ho as (mb & m & Hg & Hv & Ht & Hf & Hp & Hn & Hr). split; [done|].
    unfold record_export in Hr; simpl in Hr. case_bool_decide as Hin; [done|]. injection Hr as <- <-.
    eexists m, _. split; [reflexivity|]. split; [done|]. split; [done|]. repeat (split; [done|]).
    split.
    { apply verify_manifest_iff. exists mb. split; [done|]. split; [by intros ? [= <-]|].
      intros t [= <-]. unfold trusted_key_ids in *. cbn [exports]. rewrite map_app, app_assoc.
      apply elem_of_app. by left. }
    repeat (split; [done|]). intros Hc. destruct Hv as (sig & pem & p & data & _ & _ & _ & _ & _ & _ & _ & Hd & Hs).
    exists data. split; [done|]. rewrite (Hc data) by congruence. apply decode_encode.
  - apply write_export_err in Ho as [-> Hg]. done.
Qed.

(** A key whose public half is its PEM, with the key id the archive files it under. *)
Definition key_good (key : SigningKey) : Prop :=
  exists p, load_pem (sk_public_pem key) = Some p /\ key_id_of p = Some (sk_key_id key) /\
    forall data, ed25519_verify p (sk_sign key data) data = true.

Lemma exists_same n a a' : get n a' = get n a -> exists_ n a' = exists_ n a.
Proof.
  intros Hg. destruct (exists_ n a) eqn:E.
  - apply exists_get. rewrite Hg. by apply exists_get.
  - apply not_true_iff_false. intros E'%exists_get. rewrite Hg in E'. apply exists_get in E'. congruence.
Qed.

Lemma put_keeps_absent n d a a' n' : put n d a = Ok a' -> n' <> n -> is_temporary n' = false ->
  exists_ n' a = false -> exists_ n' a' = false.
Proof. intros Hp Hne Ht He. rewrite <- He. apply exists_same. by eapply get_put_other. Qed.

(** The first half of [write_export]: the key is in the archive. *)
Definition key_ready (a : A) (key : SigningKey) : Prop :=
  get (key_name (sk_key_id key)) a = Ok (sk_public_pem key) \/ exists_ (key_name (sk_key_id key)) a = false.
Definition names_free (a : A) (day seq : Z) : Prop :=
  forall n, n ∈ [file_name day seq; manifest_name day seq; manifest_name day seq +:+ ".sig"] ->
    check_name n = true /\ exists_ n a = false.

Lemma put_key a key : check_name (key_name (sk_key_id key)) = true -> key_ready a key ->
  exists a1, put (key_name (sk_key_id key)) (sk_public_pem key) a = Ok a1 /\
    get (key_name (sk_key_id key)) a1 = Ok (sk_public_pem key).
Proof.
  intros Hc [Hg|He].
  - exists a. split; [by apply put_again|done].
  - destruct (put_new _ (sk_public_pem key) a Hc He) as [a1 Hp]. exists a1. split; [done|]. by eapply get_put.
Qed.

Lemma write_files a day seq data mb sig :
  names_free a day seq ->
  exists a2 a3 a4,
    put (file_name day seq) data a = Ok a2 /\ put (manifest_name day seq) mb a2 = Ok a3 /\
    put (manifest_name day seq +:+ ".sig") sig a3 = Ok a4 /\ grows a a4 /\
    get (file_name day seq) a4 = Ok data /\ get (manifest_name day seq) a4 = Ok mb /\
    get (manifest_name day seq +:+ ".sig") a4 = Ok sig.
Proof.
  intros Hf.
  destruct (Hf (file_name day seq)) as [C1 E1]; [by left|].
  destruct (Hf (manifest_name day seq)) as [C2 E2]; [by right; left|].
  destruct (Hf (manifest_name day seq +:+ ".sig")) as [C3 E3]; [by right; right; left|].
  pose proof (manifest_name_not_temporary day seq) as T2. pose proof (sig_name_not_temporary day seq) as T3.
  pose proof (file_name_not_temporary day seq) as T1.
  pose proof (file_ne_manifest day seq day seq) as N12. pose proof (file_ne_sig day seq day seq) as N13.
  pose proof (manifest_ne_sig day seq day seq) as N23.
  destruct (put_new _ data a C1 E1) as [a2 P1]. exists a2.
  destruct (put_new _ mb a2 C2) as [a3 P2]; [by apply (put_keeps_absent _ _ _ _ _ P1)|]. exists a3.
  destruct (put_new _ sig a3 C3) as [a4 P3].
  { apply (put_keeps_absent _ _ _ _ _ P2); [done..|]. by apply (put_keeps_absent _ _ _ _ _ P1). }
  exists a4. repeat (split; [done|]). pose proof (put_grows _ _ _ _ P2) as G2. pose proof (put_grows _ _ _ _ P3) as G3.
  split; [by do 2 (eapply grows_trans; [by eapply put_grows|])|].
  split; [apply G3, G2; [done..|]; by eapply get_put|]. split; [apply G3; [done|]; by eapply get_put|by eapply get_put].
Qed.

(** A manifest of the worker's own key, with its file and signature, verifies. *)
Lemma own_manifest_verifies a key day seq rows prev now :
  key_good key ->
  get (file_name day seq) a = Ok (encode_rows rows) ->
  get (manifest_name day seq) a = Ok (manifest_bytes (new_manifest key day seq rows prev now)) ->
  get (manifest_name day seq +:+ ".sig") a = Ok (sk_sign key (manifest_bytes (new_manifest key day seq rows prev now))) ->
  verified a (manifest_name day seq) (Some key) (new_manifest key day seq rows prev now)
    (manifest_bytes (new_manifest key day seq rows prev now)).
Proof.
  intros (p & Hl & Hi & Hs) Hf Hm Hg. eexists _, (sk_public_pem key), p, _.
  split; [done|]. split; [done|]. split; [apply json_roundtrip|].
  split; [left; by exists key|]. repeat (split; [done|]). done.
Qed.

Lemma verified_trusted a name key m mb trusted :
  verified a name key m mb -> m_key_id m ∈ trusted -> verify_manifest a name key (Some trusted) None = Ok m.
Proof.
  intros Hv Hin. apply verify_manifest_iff. exists mb. split; [done|]. split; [done|].
  by intros t [= <-].
Qed.

(** With a sound key and the day's names free, an export succeeds; and if the worker dies after
    writing the files and before the database commit, any later run (at another time, so with
    another [generated_at]) adopts them: it records the same manifest and writes nothing. *)
Theorem export_resumes key day seq rows prev now s :
  key_good key -> check_name (key_name (sk_key_id key)) = true -> key_ready (s_archive s) key ->
  names_free (s_archive s) day seq ->
  (day, seq) ∉ map (fun e => (e_day e, e_seq e)) (exports (s_db s)) ->
  exists w s', write_export key day seq rows prev now s = (Ok w, s') /\
    forall now', exists s'', write_export key day seq rows prev now' (Store (s_db s) (s_archive s')) = (Ok w, s'') /\
      s_archive s'' = s_archive s' /\ map e_manifest_sha256 (exports (s_db s'')) = map e_manifest_sha256 (exports (s_db s')).
Proof.
  destruct s as [d a]; simpl. intros Hk Hc Hr Hf Hnew.
  destruct (put_key a key Hc Hr) as (a1 & P0 & G0).
  assert (Hf1 : names_free a1 day seq).
  { intros n Hn. destruct (Hf n Hn) as [Hcn He]. split; [done|]. apply (put_keeps_absent _ _ _ _ _ P0); [|..]; try done.
    all: rewrite !elem_of_cons in Hn; destruct Hn as [->|[->|[->|Hn]]]; try (by apply elem_of_nil in Hn);
      first [apply not_eq_sym; first [apply key_ne_file|apply key_ne_manifest|apply key_ne_sig]
            |apply file_name_not_temporary|apply manifest_name_not_temporary|apply sig_name_not_temporary]. }
  set (mb := manifest_bytes (new_manifest key day seq rows prev now)).
  destruct (write_files a1 day seq (encode_rows rows) mb (sk_sign key mb) Hf1)
    as (a2 & a3 & a4 & P1 & P2 & P3 & Hg & Gf & Gm & Gs).
  pose proof (own_manifest_verifies a4 key day seq rows prev now Hk Gf Gm Gs) as Hv.
  pose proof (Hg _ _ (key_name_not_temporary _) G0) as Gk.
  assert (Hrec : forall t a', exists d' w, record_export key day seq rows prev t mb (Store d a') = (Ok w, Store d' a') /\
    w = MkWritten day seq (zlen rows) (sha256 mb) /\ map e_manifest_sha256 (exports d') = map e_manifest_sha256 (exports d) ++ [sha256 mb]).
  { intros t a'. unfold record_export; simpl. rewrite bool_decide_eq_false_2 by done. eexists _, _. split; [done|].
    split; [done|]. cbn [exports]. by rewrite map_app. }
  destruct (Hrec now a4) as (d' & w & Hw & -> & Hd'). eexists _, (Store d' a4). split.
  - unfold write_export, mbind, io_bind, archive_put at 1, ask at 1; simpl. rewrite P0; simpl.
    destruct (Hf1 (manifest_name day seq)) as [_ ->]; [by right; left|].
    unfold archive_put, lift, ask; simpl. rewrite P1; simpl. fold mb. rewrite P2; simpl. rewrite P3; simpl.
    rewrite (verified_trusted _ _ _ _ _ _ Hv) by (by left). exact Hw.
  - intros now'. destruct (Hrec now' a4) as (d'' & w & Hw' & -> & Hd''). exists (Store d'' a4). split; [|split; [done|simpl; congruence]].
    unfold write_export, mbind, io_bind, archive_put at 1, ask at 1; simpl.
    rewrite (put_again _ _ _ Gk); simpl.
    assert (exists_ (manifest_name day seq) a4 = true) as -> by (apply exists_get; by eexists).
    unfold lift. rewrite (verified_trusted _ _ _ _ _ _ Hv) by (apply elem_of_app; left; by left).
    rewrite bool_decide_eq_true_2 by done. unfold archive_get; simpl. rewrite Gm. exact Hw'.
Qed.

(** An export interrupted between its manifest and its signature stays interrupted: every later
    [write_export] of that day and sequence number raises, whatever its rows, and leaves it so. *)
Theorem interrupted_before_signature key day seq rows prev now s :
  exists_ (manifest_name day seq) (s_archive s) = true ->
  exists_ (manifest_name day seq +:+ ".sig") (s_archive s) = false ->
  exists e a', write_export key day seq rows prev now s = (Err e, Store (s_db s) a') /\
    exists_ (manifest_name day seq) a' = true /\
    exists_ (manifest_name day seq +:+ ".sig") a' = false.
Proof.
  destruct s as [d a]; simpl. intros Hm Hs.
  unfold write_export, mbind, io_bind, archive_put at 1, ask at 1; simpl.
  destruct (put (key_name (sk_key_id key)) (sk_public_pem key) a) as [a1|e] eqn:Ek; simpl; [|by eexists _, a].
  assert (Hm1 : exists_ (manifest_name day seq) a1 = true).
  { apply exists_get in Hm as [x Hx]. apply exists_get. exists x.
    apply (put_grows _ _ _ _ Ek); [apply manifest_name_not_temporary|done]. }
  assert (Hs1 : exists_ (manifest_name day seq +:+ ".sig") a1 = false).
  { apply (put_keeps_absent _ _ _ _ _ Ek); [apply not_eq_sym, key_ne_sig|apply sig_name_not_temporary|done]. }
  rewrite Hm1. unfold lift.
  destruct (verify_manifest a1 _ (Some key) _ None) as [m|e] eqn:Ev; simpl; [|by eexists _, a1].
  apply verify_manifest_iff in Ev as (mb & (sig & pem & p & data & _ & Hsig & _) & _).
  assert (exists_ (manifest_name day seq +:+ ".sig") a1 = true) by (apply exists_get; by eexists). congruence.
Qed.

(** ** The chain of exports *)

(** Each export points back to the one recorded before it. *)
Fixpoint linked (prev : option string) (es : list export) : Prop :=
  match es with [] => True | e :: es' => e_prev e = prev /\ linked (Some (e_manifest_sha256 e)) es' end.

(** The archive holds the manifest an export row names. *)
Definition archived (a : A) (e : export) : Prop :=
  exists mb m, get (manifest_name (e_day e) (e_seq e)) a = Ok mb /\ sha256 mb = e_manifest_sha256 e /\
    json_loads mb = Some m /\ m_prev m = e_prev e.

Definition chain_sound (s : store) : Prop :=
  linked None (exports (s_db s)) /\ NoDup (map e_manifest_sha256 (exports (s_db s))) /\
  Forall (archived (s_archive s)) (exports (s_db s)).

(** SHA-256, idealised: a hash is not empty, and manifests with one hash are one manifest. *)
Hypothesis sha256_nonempty : forall x, sha256 x <> ""%string.
Hypothesis sha256_collision_free : forall x y, sha256 x = sha256 y -> x = y.

Lemma archived_hash a e : archived a e -> truthy (Some (e_manifest_sha256 e)) = Some (e_manifest_sha256 e).
Proof.
  intros (mb & m & _ & <- & _). simpl. destruct (String.eqb (sha256 mb) "") eqn:E; [|done].
  apply String.eqb_eq in E. by destruct (sha256_nonempty mb).
Qed.

Lemma linked_snoc prev es e :
  linked prev (es ++ [e]) <->
  linked prev es /\ e_prev e = match last (map e_manifest_sha256 es) with Some h => Some h | None => prev end.
Proof.
  clear gzip_roundtrip row_json_line json_roundtrip sha256_nonempty sha256_collision_free.
  revert prev; induction es as [|e' es IH]; intros prev; simpl; [naive_solver|].
  rewrite IH. destruct es as [|e'' es]; simpl; [naive_solver|].
  destruct (last (e_manifest_sha256 e'' :: map e_manifest_sha256 es)) eqn:E; [naive_solver|].
  by apply last_None in E.
Qed.

Lemma linked_referenced a prev es : linked prev es -> Forall (archived a) es -> es <> [] ->
  omap (fun e => truthy (e_prev e)) es = option_list (truthy prev) ++ removelast (map e_manifest_sha256 es).
Proof.
  revert prev; induction es as [|e es IH]; intros prev Hpl Ha Hne; [done|]. destruct Hpl as [Hp Hl].
  apply Forall_cons in Ha as [He Ha]. destruct es as [|e' es].
  - simpl. rewrite Hp. destruct (truthy prev); done.
  - specialize (IH _ Hl Ha ltac:(done)). rewrite (archived_hash _ _ He) in IH.
    change (omap (fun e0 => truthy (e_prev e0)) (e :: e' :: es)) with
      (match truthy (e_prev e) with Some x => x :: omap (fun e0 => truthy (e_prev e0)) (e' :: es)
       | None => omap (fun e0 => truthy (e_prev e0)) (e' :: es) end).
    rewrite IH, Hp. by destruct (truthy prev).
Qed.

Lemma filter_unreferenced (l : list string) h : NoDup (l ++ [h]) ->
  List.filter (fun s => negb (bool_decide (s ∈ l))) (l ++ [h]) = [h].
Proof.
  intros Hn. rewrite List.filter_app. apply NoDup_app in Hn as (_ & Hd & _).
  assert (forall k, (forall x, x ∈ k -> x ∈ l) -> List.filter (fun s => negb (bool_decide (s ∈ l))) k = []) as Hk.
  { induction k as [|x k IH]; intros Hin; simpl; [done|]. rewrite bool_decide_eq_true_2 by (apply Hin; left). simpl.
    apply IH. intros y Hy. apply Hin. by right. }
  rewrite (Hk l) by done. simpl. rewrite bool_decide_eq_false_2; [done|].
  intros Hin. apply (Hd h Hin). by left.
Qed.

(** A sound chain has one head: the last export recorded. *)
Lemma chain_head_sound s : chain_sound s -> chain_head (s_db s) = Ok (last (map e_manifest_sha256 (exports (s_db s)))).
Proof.
  intros (Hl & Hn & Ha). unfold chain_head. destruct (exports (s_db s)) as [|e0 es0] eqn:E; [done|].
  set (es := e0 :: es0) in *. rewrite (linked_referenced _ _ _ Hl Ha) by done.
  change (option_list (truthy None) ++ ?l) with l.
  assert (Hne : map e_manifest_sha256 es <> []) by done.
  destruct (exists_last Hne) as (l & h & Hm). rewrite Hm in Hn |- *.
  by rewrite removelast_last, filter_unreferenced, last_snoc.
Qed.

Lemma archived_grows a a' e : grows a a' -> archived a e -> archived a' e.
Proof.
  intros Hg (mb & m & Hm & Hr). exists mb, m. split; [|done]. by apply Hg; [apply manifest_name_not_temporary|].
Qed.

(** No export of a sound chain points to its head. *)
Lemma head_unreferenced s e : chain_sound s -> e ∈ exports (s_db s) ->
  e_prev e <> last (map e_manifest_sha256 (exports (s_db s))).
Proof.
  intros (Hl & Hn & Ha) He Hp.
  assert (Hne : exports (s_db s) <> []) by (intros E; rewrite E in He; by apply elem_of_nil in He).
  pose proof (linked_referenced _ _ _ Hl Ha Hne) as Href.
  assert (Hne' : map e_manifest_sha256 (exports (s_db s)) <> []) by (intros ?%map_eq_nil; done).
  destruct (exists_last Hne') as (l & h & Hm). rewrite Hm in *. rewrite last_snoc in Hp.
  rewrite removelast_last in Href. simpl in Href.
  assert (h ∈ l) as Hin.
  { change (option_list (truthy None) ++ l) with l in Href. rewrite <- Href. apply list_elem_of_omap. exists e. split; [done|]. rewrite Hp.
    assert (Hh : h ∈ map e_manifest_sha256 (exports (s_db s))) by (rewrite Hm; apply elem_of_app; right; by left).
    apply list_elem_of_fmap in Hh as (e' & -> & He'). rewrite Forall_forall in Ha.
    by apply (archived_hash (s_archive s)), Ha. }
  apply NoDup_app in Hn as (_ & Hd & _). apply (Hd h Hin). by left.
Qed.

Lemma write_export_sound key day seq rows prev now s r s' :
  chain_sound s -> chain_head (s_db s) = Ok prev ->
  write_export key day seq rows prev now s = (r, s') -> chain_sound s'.
Proof.
  clear gzip_roundtrip row_json_line.
  intros Hs Hc Hw. rewrite (chain_head_sound _ Hs) in Hc. injection Hc as Hc.
  destruct r as [w|e].
  - apply write_export_inv in Hw as (mb & m & Hg & Hv & _ & _ & Hp & _ & Hr).
    unfold record_export in Hr; simpl in Hr. case_bool_decide; [done|]. injection Hr as _ <-.
    destruct Hv as (sig & pem & p & data & Hm & _ & Hj & _).
    pose proof Hs as (Hl & Hn & Ha). unfold chain_sound; cbn [s_db exports s_archive]. split; [|split].
    + rewrite linked_snoc. split; [done|]. cbn [e_prev]. rewrite <- Hc. by destruct (last _).
    + rewrite map_app. cbn [map e_manifest_sha256]. apply NoDup_app. split; [done|]. split; [|apply NoDup_singleton].
      intros h Hh ->%list_elem_of_singleton. apply list_elem_of_fmap in Hh as (e0 & Hsha & He0).
      rewrite Forall_forall in Ha. destruct (Ha _ He0) as (mb0 & m0 & Hg0 & Hs0 & Hj0 & Hp0).
      assert (mb0 = mb) as -> by (apply sha256_collision_free; congruence).
      apply (head_unreferenced s e0 Hs He0). congruence.
    + apply Forall_app. split.
      * eapply Forall_impl; [exact Ha|]. intros e He. by eapply archived_grows.
      * constructor; [|constructor]. exists mb, m. done.
  - apply write_export_err in Hw as [Hd Hg]. unfold chain_sound. rewrite Hd. destruct Hs as (Hl & Hn & Ha).
    split; [done|]. split; [done|]. eapply Forall_impl; [exact Ha|]. intros e' He. by eapply archived_grows.
Qed.

(** What an [exported_ids] that returned read. *)
Lemma exported_ids_of_inv a trusted key day es ids i :
  exported_ids_of a trusted key day es = Ok ids -> i ∈ ids ->
  exists e m data l, e ∈ es /\
    verify_manifest a (manifest_name day (e_seq e)) key (Some trusted) (Some (e_manifest_sha256 e)) = Ok m /\
    get (m_file m) a = Ok data /\ decode_ids data = Some l /\ i ∈ l.
Proof.
  revert ids; induction es as [|e es IH]; intros ids He Hi; simpl in He; [by injection He as <-; apply elem_of_nil in Hi|].
  destruct (verify_manifest a _ key _ _) as [m|] eqn:Ev; [|done]. simpl in He.
  destruct (get (m_file m) a) as [data|] eqn:Eg; [|done]. simpl in He.
  destruct (decode_ids data) as [l|] eqn:Ed; [|done]. simpl in He.
  destruct (exported_ids_of a trusted key day es) as [rest|] eqn:Er; [|done]. injection He as <-.
  apply elem_of_app in Hi as [Hi|Hi].
  - exists e, m, data, l. by split; [left|].
  - destruct (IH _ eq_refl Hi) as (e' & m' & d' & l' & Hin & Hrest). exists e', m', d', l'. by split; [right|].
Qed.
End Exporting.

(** ** A concrete archive, key and encoding *)

(** A text form of strings, integers and options on one line, each self-delimiting, and its parser. *)
Fixpoint enc_string (s rest : string) : string :=
  match s with
  | EmptyString => String "." rest
  | String c s' =>
      if decide (c = LF) then String "n" (enc_string s' rest)
      else if decide (c = CR) then String "r" (enc_string s' rest)
      else String "-" (String c (enc_string s' rest))
  end.
Fixpoint dec_string (s : string) : option (string * string) :=
  match s with
  | String "." rest => Some (EmptyString, rest)
  | String "n" s' => '(x, rest) ← dec_string s'; Some (String LF x, rest)
  | String "r" s' => '(x, rest) ← dec_string s'; Some (String CR x, rest)
  | String "-" (String c s') => '(x, rest) ← dec_string s'; Some (String c x, rest)
  | _ => None
  end.
Fixpoint enc_pos (p : positive) (rest : string) : string :=
  match p with xH => String "." rest | xO p => String "0" (enc_pos p rest) | xI p => String "1" (enc_pos p rest) end.
Fixpoint dec_pos (s : string) : option (positive * string) :=
  match s with
  | String "." rest => Some (xH, rest)
  | String "0" s' => '(p, rest) ← dec_pos s'; Some (xO p, rest)
  | String "1" s' => '(p, rest) ← dec_pos s'; Some (xI p, rest)
  | _ => None
  end.
Definition enc_Z (z : Z) (rest : string) : string :=
  match z with Z0 => String "z" rest | Zpos p => String "p" (enc_pos p rest) | Zneg p => String "m" (enc_pos p rest) end.
Definition dec_Z (s : string) : option (Z * string) :=
  match s with
  | String "z" rest => Some (Z0, rest)
  | String "p" s' => '(p, rest) ← dec_pos s'; Some (Zpos p, rest)
  | String "m" s' => '(p, rest) ← dec_pos s'; Some (Zneg p, rest)
  | _ => None
  end.
Definition enc_option (o : option string) (rest : string) : string :=
  match o with None => String "0" rest | Some s => String "1" (enc_string s rest) end.
Definition dec_option (s : string) : option (option string * string) :=
  match s with
  | String "0" rest => Some (None, rest)
  | String "1" s' => '(x, rest) ← dec_string s'; Some (Some x, rest)
  | _ => None
  end.

Lemma dec_enc_string s rest : dec_string (enc_string s rest) = Some (s, rest).
Proof.
  induction s as [|c s IH]; [done|]. cbn [enc_string].
  destruct (decide (c = LF)) as [->|]; [simpl; by rewrite IH|].
  destruct (decide (c = CR)) as [->|]; simpl; by rewrite IH.
Qed.
Lemma dec_enc_pos p rest : dec_pos (enc_pos p rest) = Some (p, rest).
Proof. induction p as [p IH|p IH|]; simpl; rewrite ?IH; done. Qed.
Lemma dec_enc_Z z rest : dec_Z (enc_Z z rest) = Some (z, rest).
Proof. destruct z; simpl; rewrite ?dec_enc_pos; done. Qed.
Lemma dec_enc_option o rest : dec_option (enc_option o rest) = Some (o, rest).
Proof. destruct o; simpl; rewrite ?dec_enc_string; done. Qed.

Lemma enc_string_line s rest : one_line (enc_string s rest) = one_line rest.
Proof.
  induction s as [|c s IH]; [done|]. cbn [enc_string].
  destruct (decide (c = LF)) as [|H1]; [exact IH|]. destruct (decide (c = CR)) as [|H2]; [exact IH|].
  change (negb (bool_decide (c = LF)) && negb (bool_decide (c = CR)) && one_line (enc_string s rest) = one_line rest).
  by rewrite (bool_decide_eq_false_2 _ H1), (bool_decide_eq_false_2 _ H2).
Qed.
Lemma enc_pos_line p rest : one_line (enc_pos p rest) = one_line rest.
Proof. induction p as [p IH|p IH|]; [exact IH|exact IH|done]. Qed.
Lemma enc_Z_line z rest : one_line (enc_Z z rest) = one_line rest.
Proof. destruct z; [done|apply enc_pos_line|apply enc_pos_line]. Qed.
Lemma enc_option_line o rest : one_line (enc_option o rest) = one_line rest.
Proof. destruct o; [apply enc_string_line|done]. Qed.

Definition demo_dumps (m : manifest) : string :=
  enc_Z m.(m_schema) (enc_string m.(m_day) (enc_Z m.(m_seq) (enc_Z m.(m_row_count) (enc_option m.(m_first_id)
    (enc_option m.(m_last_id) (enc_string m.(m_file) (enc_string m.(m_file_sha256) (enc_option m.(m_prev)
      (enc_string m.(m_key_id) (enc_Z m.(m_generated_at) EmptyString)))))))))).
Definition demo_loads (s : string) : option manifest :=
  '(a, s) ← dec_Z s; '(b, s) ← dec_string s; '(c, s) ← dec_Z s; '(d, s) ← dec_Z s; '(e, s) ← dec_option s;
  '(f, s) ← dec_option s; '(g, s) ← dec_string s; '(h, s) ← dec_string s; '(i, s) ← dec_option s;
  '(j, s) ← dec_string s; '(k, _) ← dec_Z s; Some (Manifest a b c d e f g h i j k).
Definition demo_row_json (r : row) : string :=
  String "r" (enc_string r.(r_id) (enc_Z r.(r_timestamp) (enc_option r.(r_user_id) (enc_option r.(r_tenant_id)
    (enc_string r.(r_action) (enc_string r.(r_resource_type) (enc_option r.(r_resource_id)
      (enc_option r.(r_detail) EmptyString)))))))).
Definition demo_json_id (s : string) : option string :=
  match s with String "r" s' => '(x, _) ← dec_string s'; Some x | _ => None end.
Definition demo_sha256 (s : string) : string := String "h" s.
Definition demo_load_pem (s : string) : option string := Some s.
Definition demo_raw (p : string) : option string := Some p.
Definition demo_check (p sig data : string) : bool := String.eqb sig (p +:+ data).
Definition demo_key : SigningKey := MkSigningKey "hk" "k" (fun d => "k" +:+ d).

Lemma demo_roundtrip m : demo_loads (demo_dumps m) = Some m.
Proof.
  unfold demo_loads, demo_dumps. destruct m.
  repeat first [rewrite dec_enc_Z | rewrite dec_enc_string | rewrite dec_enc_option | progress simpl]. done.
Qed.
Lemma demo_row_line r :
  one_line (demo_row_json r) = true /\ is_blank (demo_row_json r) = false /\ demo_json_id (demo_row_json r) = Some (r_id r).
Proof.
  split; [|split; [done|unfold demo_json_id, demo_row_json; by rewrite dec_enc_string]].
  unfold demo_row_json. destruct r.
  change (one_line (String "r" ?x)) with (one_line x).
  by rewrite enc_string_line, enc_Z_line, !enc_option_line, !enc_string_line, !enc_option_line.
Qed.
Lemma demo_key_good : key_good demo_sha256 demo_load_pem demo_raw demo_check demo_key.
Proof. exists "k"%string. split; [done|]. split; [done|]. intros data. apply String.eqb_refl. Qed.

Definition demo_write := write_export (A := gmap string string) demo_sha256 demo_dumps demo_loads demo_row_json (fun s => s) demo_load_pem demo_raw demo_check.
Definition demo_rows : list row :=
  [Row "a1" (20737 * us_per_day + 5) None None "login" "user" None None;
   Row "a2" (20737 * us_per_day + 9) (Some "u"%string) None "start" "range" (Some "r"%string) None].
Definition demo_store (rows : list row) : store (A := gmap string string) := Store (DB rows [] []) ∅.

Lemma export_all_or_nothing_witness :
  let out := demo_write demo_key 20737 0 demo_rows None 7 (demo_store demo_rows) in
  grows (s_archive (demo_store demo_rows)) (s_archive out.2) /\ length (exports (s_db out.2)) = 1%nat.
Proof.
  intros out. split; [|vm_compute; reflexivity].
  exact (proj1 (export_all_or_nothing demo_sha256 demo_dumps demo_loads demo_row_json demo_json_id (fun s => s) Some
    demo_load_pem demo_raw demo_check (fun s => eq_refl) demo_row_line demo_roundtrip
    demo_key 20737 0 demo_rows None 7 (demo_store demo_rows))).
Defined.

Lemma export_resumes_witness :
  exists w s', demo_write demo_key 20737 0 demo_rows None 7 (demo_store demo_rows) = (Ok w, s').
Proof.
  assert (Hf : names_free (A := gmap string string) ∅ 20737 0).
  { intros n Hn. rewrite !elem_of_cons in Hn.
    destruct Hn as [->|[->|[->|Hn]]]; [split; vm_compute; reflexivity..|by apply elem_of_nil in Hn]. }
  destruct (export_resumes demo_sha256 demo_dumps demo_loads demo_row_json (fun s => s)
    demo_load_pem demo_raw demo_check demo_roundtrip demo_key 20737 0 demo_rows None 7 (demo_store demo_rows))
    as (w & s' & H & _).
  - exact demo_key_good.
  - vm_compute; reflexivity.
  - right. vm_compute; reflexivity.
  - exact Hf.
  - apply not_elem_of_nil.
  - by exists w, s'.
Defined.

Lemma interrupted_before_signature_witness :
  exists e a', demo_write demo_key 20737 0 demo_rows None 9
    (Store (DB demo_rows [] []) {[manifest_name 20737 0 := "written"%string]}) = (Err e, Store (DB demo_rows [] []) a').
Proof.
  destruct (interrupted_before_signature (A := gmap string string) demo_sha256 demo_dumps demo_loads demo_row_json (fun s => s)
    demo_load_pem demo_raw demo_check demo_key 20737 0 demo_rows None 9
    (Store (DB demo_rows [] []) {[manifest_name 20737 0 := "written"%string]})) as (e & a' & H & _).
  - vm_compute; reflexivity.
  - vm_compute; reflexivity.
  - by exists e, a'.
Defined.
