(* ===== verification/AuditJobs.v ===== *)
(** * The audit log's daily jobs: catch-up export, recount, retention

    Models [control-plane/worker/worker/audit_jobs.py] and the retention settings of audit_export.py:
    [run_export] (every missing day, then a supplement for rows that committed late) and
    [run_retention] (purging whole days, each only after its exports check out).  Loops over days run
    on the number of days left.  Between the check of a day and its DELETE other transactions may
    commit rows: [late day] is what they add.  The database trigger that also guards the DELETE is
    SQL and is not modelled. *)

From S2P Require Import Prelude PyText AuditArchive AuditExport.

Local Open Scope Z_scope.

Definition FLOOR_DAYS : Z := 30.
(** [hot_retention_days], of the parsed setting. *)
Definition hot_retention_days (days : Z) : Z := if days <=? 0 then 0 else Z.max days FLOOR_DAYS.

(** [_first_row_day] *)
Definition min_of (l : list Z) : option Z :=
  match l with [] => None | x :: l' => Some (fold_left Z.min l' x) end.
Definition max_of (l : list Z) : option Z :=
  match l with [] => None | x :: l' => Some (fold_left Z.max l' x) end.
Definition first_row_day (d : db) : option Z :=
  option_map (fun t => t / us_per_day) (min_of (map r_timestamp d.(logs))).

Inductive refusal :=
| NoExport
| CountsDiffer (live exported : Z)
| NotVerified (e : AuditExportError)
| RowsDiffer.

(** An entry of the list [run_retention] returns. *)
Record purge := Purge { p_day : Z; p_rows : Z; p_shas : list string }.

Definition row_count_sum (es : list export) : Z := foldr (fun e n => e.(e_row_count) + n) 0 es.

Section Jobs.
Context {A : Type} `{AuditArchive string A}.
Context (sha256 : string -> string).
Context (json_dumps : manifest -> string) (json_loads : string -> option manifest).
Context (row_json : row -> string) (json_id : string -> option string).
Context (gzip_compress : string -> string) (gzip_decompress : string -> option string).
Context {pubkey : Type} (load_pem : string -> option pubkey) (raw_public : pubkey -> option string).
Context (ed25519_verify : pubkey -> string -> string -> bool).
(** [json.dumps] of a purge's detail, and the uuid of its row. *)
Context (json_detail : Z -> list string -> string) (new_id : Z -> string).

#[local] Notation write_export := (write_export sha256 json_dumps json_loads row_json gzip_compress load_pem raw_public ed25519_verify).
#[local] Notation verify_manifest := (verify_manifest sha256 json_loads load_pem raw_public ed25519_verify).
#[local] Notation exported_ids := (exported_ids sha256 json_loads json_id gzip_decompress load_pem raw_public ed25519_verify).

(** ** Export *)

(** [recount]: rows of an exported day that are not in its files go into a supplement. *)
Definition recount (key : SigningKey) (now day : Z) : io (A := A) (option Written) :=
  s ← ask;
  let d := s.(s_db) in
  match exports_for d day with
  | [] => mret None
  | es =>
      let live := day_count d day in
      let exported := row_count_sum es in
      if live =? exported then mret None
      else if live <? exported then mret None  (* rows went missing: logged *)
      else
        have ← lift (exported_ids s.(s_archive) d day (Some key));
        let late := List.filter (fun r => negb (bool_decide (r.(r_id) ∈ have))) (day_rows d day) in
        prev ← lift (chain_head d);
        let seq := match last es with Some e => e.(e_seq) + 1 | None => 1 end in
        w ← write_export key day seq late prev now;
        mret (Some w)
  end.

(** The loop of [run_export] over the days from [day]. *)
Fixpoint export_days (n : nat) (key : SigningKey) (now day : Z) : io (A := A) (list Written) :=
  match n with
  | O => mret []
  | S n' =>
      s ← ask;
      prev ← lift (chain_head s.(s_db));
      w ← write_export key day 0 (day_rows s.(s_db) day) prev now;
      rest ← export_days n' key now (day + 1);
      mret (w :: rest)
  end.

(** The first day to export. *)
Definition export_start (d : db) : option Z :=
  match max_of (map e_day d.(exports)) with Some last => Some (last + 1) | None => first_row_day d end.

(** [run_export] *)
Definition run_export (key : SigningKey) (now today : Z) : io (A := A) (list Written) :=
  s ← ask;
  written ← match export_start s.(s_db) with
            | Some start => export_days (Z.to_nat (today - start)) key now start
            | None => mret []
            end;
  supplement ← recount key now (today - 2);
  mret (written ++ option_list supplement).

(** ** Retention *)

(** [_purge_refusal]; only an [AuditExportError] becomes a reason, other exceptions pass. *)
Definition checked (r : result AuditExportError (list string)) : result AuditExportError (refusal + list string) :=
  match r with
  | Ok ids => Ok (inr ids)
  | Err (ArchiveFailed e) => Err (ArchiveFailed e)
  | Err Undecodable => Err Undecodable
  | Err e => Ok (inl (NotVerified e))
  end.
Fixpoint verify_all (a : A) (key : SigningKey) (trusted : list string) (day : Z) (es : list export) : result AuditExportError unit :=
  match es with
  | [] => Ok tt
  | e :: es' =>
      _ ← verify_manifest a (manifest_name day e.(e_seq)) (Some key) (Some trusted) (Some e.(e_manifest_sha256));
      verify_all a key trusted day es'
  end.
Definition same_set (l k : list string) : bool :=
  forallb (fun x => bool_decide (x ∈ k)) l && forallb (fun x => bool_decide (x ∈ l)) k.
Definition purge_refusal (a : A) (d : db) (key : SigningKey) (day live : Z) : result AuditExportError (option refusal) :=
  match exports_for d day with
  | [] => Ok (Some NoExport)
  | es =>
      if negb (row_count_sum es =? live) then Ok (Some (CountsDiffer live (row_count_sum es)))
      else
        out ← checked (_ ← verify_all a key (trusted_key_ids d (Some key)) day es; exported_ids a d day (Some key));
        match out with
        | inl reason => Ok (Some reason)
        | inr ids => Ok (if same_set ids (map r_id (day_rows d day)) then None else Some RowsDiffer)
        end
  end.

(** [record_check] *)
Definition record_check (now : Z) (e : export) : check :=
  Check_ e.(e_day) e.(e_seq) e.(e_manifest_sha256) e.(e_row_count) e.(e_key_id) now.

(** [_purge_day]: [late] is what other transactions committed since the check; a rollback leaves
    the rows and drops the checks. *)
Definition purge_day (now : Z) (late : list row) (d : db) (day live : Z) : result AuditExportError purge * db :=
  let d1 := DB (d.(logs) ++ late) d.(exports) d.(checks) in
  let es := exports_for d1 day in
  let deleted := day_count d1 day in
  if negb (deleted =? live) then (Err (PurgeMismatch deleted live), d1)
  else
    let shas := map e_manifest_sha256 es in
    let r := Row (new_id day) now None None "audit.purge" "audit_logs" (Some (isoformat day)) (Some (json_detail deleted shas)) in
    (Ok (Purge day deleted shas),
     DB (List.filter (fun r => negb (of_day day r)) d1.(logs) ++ [r]) d1.(exports) (d1.(checks) ++ map (record_check now) es)).

(** The loop of [run_retention]. *)
Fixpoint purge_days (n : nat) (a : A) (key : SigningKey) (now : Z) (late : Z -> list row) (day : Z) (d : db)
    : result AuditExportError (list purge) * db :=
  match n with
  | O => (Ok [], d)
  | S n' =>
      let live := day_count d day in
      if live =? 0 then purge_days n' a key now late (day + 1) d
      else
        match purge_refusal a d key day live with
        | Err e => (Err e, d)
        | Ok (Some _) => (Ok [], d)  (* AUDIT_RETENTION_STOPPED *)
        | Ok None =>
            match purge_day now (late day) d day live with
            | (Err e, d') => (Err e, d')
            | (Ok p, d') =>
                match purge_days n' a key now late (day + 1) d' with
                | (Ok ps, d'') => (Ok (p :: ps), d'')
                | (Err e, d'') => (Err e, d'')
                end
            end
        end
  end.

(** [run_retention]; [setting]: AUDIT_HOT_RETENTION_DAYS. *)
Definition run_retention (setting : Z) (a : A) (key : SigningKey) (now : Z) (late : Z -> list row) (today : Z) (d : db)
    : result AuditExportError (list purge) * db :=
  let days := hot_retention_days setting in
  if days =? 0 then (Ok [], d)
  else
    match first_row_day d with
    | None => (Ok [], d)
    | Some day => purge_days (Z.to_nat (today - days - day)) a key now late day d
    end.

(** ** Retention deletes only what the archive holds *)

(** The archive holds [r]: an export of its day, as recorded and signed by a trusted key, lists it. *)
Definition exported_row (a : A) (es : list export) (key : SigningKey) (day : Z) (r : row) : Prop :=
  exists e m data ids, e ∈ es /\ e_day e = day /\
    verify_manifest a (manifest_name day (e_seq e)) (Some key) (Some (sk_key_id key :: map e_key_id es))
      (Some (e_manifest_sha256 e)) = Ok m /\
    get (m_file m) a = Ok data /\ decode_ids json_id gzip_decompress data = Some ids /\ r_id r ∈ ids.

Lemma elem_of_exports_for d day e : e ∈ exports_for d day <-> e ∈ exports d /\ e_day e = day.
Proof.
  unfold exports_for. rewrite elem_of_py_sorted, !list_elem_of_In, filter_In, Z.eqb_eq. done.
Qed.
Lemma elem_of_day_rows d day r : r ∈ day_rows d day <-> r ∈ logs d /\ of_day day r = true.
Proof. unfold day_rows. by rewrite elem_of_py_sorted, !list_elem_of_In, filter_In. Qed.

Lemma purge_refusal_none a d key day live : purge_refusal a d key day live = Ok None ->
  forall r, r ∈ logs d -> of_day day r = true -> exported_row a (exports d) key day r.
Proof.
  unfold purge_refusal. intros Hp r Hr Hd. destruct (exports_for d day) as [|e0 es0] eqn:Ees; [done|]. rewrite <- Ees in Hp.
  destruct (negb _); [done|]. unfold checked in Hp.
  destruct (verify_all a key _ day _) as [[]|e] eqn:Ev; simpl in Hp; [|by destruct e].
  destruct (exported_ids a d day (Some key)) as [ids|e] eqn:Ei; simpl in Hp; [|by destruct e].
  destruct (same_set ids _) eqn:Es; [|done]. unfold same_set in Es. apply andb_true_iff in Es as [_ Es].
  rewrite forallb_forall in Es.
  assert (r_id r ∈ ids) as Hin.
  { eapply (bool_decide_eq_true_1 (r_id r ∈ ids)), Es, list_elem_of_In, list_elem_of_fmap. exists r. split; [done|].
    by apply elem_of_day_rows. }
  unfold AuditExport.exported_ids in Ei.
  eapply exported_ids_of_inv in Ei as (e & m & data & l & He & Hv & Hg & Hd' & Hl); [|exact Hin].
  apply elem_of_exports_for in He as [He Hday]. exists e, m, data, l. by repeat split.
Qed.

Lemma day_count_app d late day :
  day_count (DB (logs d ++ late) (exports d) (checks d)) day = day_count d day + zlen (List.filter (of_day day) late).
Proof. unfold day_count; simpl. rewrite List.filter_app. apply zlen_app. Qed.

(** A purge that went through took exactly the rows that were there when they were checked. *)
Lemma purge_day_ok now late d day p d' : purge_day now late d day (day_count d day) = (Ok p, d') ->
  p_day p = day /\ exports d' = exports d /\
  (forall r, r ∈ logs d -> r ∈ logs d' \/ of_day day r = true) /\ (forall r, r ∈ late -> r ∈ logs d').
Proof.
  unfold purge_day. rewrite day_count_app. destruct (negb _) eqn:E; [done|]. reflect_bools.
  intros [= <- <-]. cbn [logs exports p_day]. split; [done|]. split; [done|].
  assert (List.filter (of_day day) late = []) as Hl.
  { pose proof (zlen_nonneg (List.filter (of_day day) late)) as Hz. destruct (List.filter (of_day day) late); [done|].
    rewrite zlen_cons in *. pose proof (zlen_nonneg l). lia. }
  split; intros r Hr.
  - destruct (of_day day r) eqn:Eo; [by right|]. left. apply elem_of_app; left.
    apply list_elem_of_In, filter_In. rewrite <- list_elem_of_In, elem_of_app, Eo. auto.
  - apply elem_of_app; left. apply list_elem_of_In, filter_In. rewrite <- list_elem_of_In, elem_of_app. split; [auto|].
    apply negb_true_iff, not_true_iff_false. intros Ho.
    assert (r ∈ List.filter (of_day day) late) as Hin by (by apply list_elem_of_In, filter_In; rewrite <- list_elem_of_In).
    rewrite Hl in Hin. by apply elem_of_nil in Hin.
Qed.

Lemma purge_day_err now late d day live e d' : purge_day now late d day live = (Err e, d') ->
  exports d' = exports d /\ (forall r, r ∈ logs d -> r ∈ logs d').
Proof.
  unfold purge_day. destruct (negb _); [|done]. intros [= _ <-]. split; [done|].
  intros r Hr. cbn [logs]. apply elem_of_app. by left.
Qed.

Lemma purge_days_safe n a key now late day d res d' :
  purge_days n a key now late day d = (res, d') ->
  exports d' = exports d /\
  forall r, r ∈ logs d \/ (exists ps p, res = Ok ps /\ p ∈ ps /\ r ∈ late (p_day p)) ->
    r ∈ logs d' \/ exists day', day <= day' < day + Z.of_nat n /\ of_day day' r = true /\ exported_row a (exports d) key day' r.
Proof.
  assert (Hstop : forall d r (Q : Prop), r ∈ logs d \/ (exists (ps : list purge) p, @Ok AuditExportError _ [] = Ok ps /\ p ∈ ps /\ r ∈ late (p_day p)) ->
    r ∈ logs d \/ Q).
  { intros d0 r Q [Hr|(ps & p & [= <-] & Hp & _)]; [by left|by apply elem_of_nil in Hp]. }
  revert day d res d'; induction n as [|n IH]; intros day d res d' Hd; simpl in Hd.
  - injection Hd as <- <-. split; [done|]. intros r. apply Hstop.
  - assert (Hnext : forall d1 d2 res', exports d1 = exports d -> purge_days n a key now late (day + 1) d1 = (res', d2) ->
      exports d2 = exports d /\
      forall r, r ∈ logs d1 \/ (exists ps p, res' = Ok ps /\ p ∈ ps /\ r ∈ late (p_day p)) ->
        r ∈ logs d2 \/ exists day', day <= day' < day + Z.of_nat (S n) /\ of_day day' r = true /\ exported_row a (exports d) key day' r).
    { intros d1 d2 res' He Hp. destruct (IH _ _ _ _ Hp) as [He2 Hr2]. rewrite He in *. split; [done|].
      intros r Hr. destruct (Hr2 r Hr) as [|(day' & ? & ?)]; [by left|]. right. exists day'. split; [lia|done]. }
    destruct (day_count d day =? 0); [by apply Hnext|].
    destruct (purge_refusal a d key day _) as [[reason|]|e] eqn:Er.
    + injection Hd as <- <-. split; [done|]. intros r. apply Hstop.
    + pose proof (purge_refusal_none _ _ _ _ _ Er) as Hok.
      destruct (purge_day now (late day) d day _) as [[p|e] d1] eqn:Ep.
      * apply purge_day_ok in Ep as (Hpd & He1 & Hr1 & Hl1).
        destruct (purge_days n a key now late (day + 1) d1) as [[ps|e] d2] eqn:En; injection Hd as <- <-;
          destruct (Hnext _ _ _ He1 En) as [He2 Hr2]; (split; [done|]).
        -- intros r [Hr|(ps' & p' & [= <-] & Hp' & Hr)].
           ++ destruct (Hr1 r Hr) as [Hr'|Ho]; [apply Hr2; by left|]. right. exists day. split; [lia|]. split; [done|]. by apply Hok.
           ++ apply elem_of_cons in Hp' as [->|Hp']; [rewrite Hpd in Hr; apply Hr2; left; by apply Hl1|].
              apply Hr2. right. by exists ps, p'.
        -- intros r [Hr|(ps' & p' & [=] & _)].
           destruct (Hr1 r Hr) as [Hr'|Ho]; [apply Hr2; by left|]. right. exists day. split; [lia|]. split; [done|]. by apply Hok.
      * injection Hd as <- <-. apply purge_day_err in Ep as [He1 Hr1]. split; [done|].
        intros r [Hr|(ps' & p' & [=] & _)]. left. by apply Hr1.
    + injection Hd as <- <-. split; [done|]. intros r [Hr|(ps' & p' & [=] & _)]. by left.
Qed.

(** C9: retention never destroys evidence.  A row that was in the table, or that another transaction
    committed to a day between its check and its deletion, and is gone afterwards, belongs to a whole
    day older than the configured retention and than thirty days, and is listed by an export of that
    day whose manifest is the one the database recorded, is signed by a key the database or the
    worker knows, and whose file hashes to what it says; with purging switched off nothing is gone.
    Exports are never touched. *)
Theorem purge_only_exported setting a key now late today d :
  let out := run_retention setting a key now late today d in
  exports out.2 = exports d /\
  forall r, r ∈ logs d \/ (exists ps p, out.1 = Ok ps /\ p ∈ ps /\ r ∈ late (p_day p)) ->
    r ∉ logs out.2 ->
    0 < setting /\ exists day, of_day day r = true /\ day < today - setting /\ day < today - 30 /\
      exported_row a (exports d) key day r.
Proof.
  intros out. destruct out as [res d'] eqn:Ho. unfold out, run_retention in Ho. simpl.
  assert (Hnone : (Ok [], d) = (res, d') -> exports d' = exports d /\
    forall (r : row), r ∈ logs d \/ (exists (ps : list purge) p, res = Ok ps /\ p ∈ ps /\ r ∈ late (p_day p)) -> r ∈ logs d').
  { intros [= <- <-]. split; [done|]. intros r [Hr|(ps & p & [= <-] & Hp & _)]; [done|by apply elem_of_nil in Hp]. }
  unfold hot_retention_days in Ho. destruct (setting <=? 0) eqn:Es; reflect_bools; simpl in Ho.
  { destruct (Hnone Ho) as [He Hr]. split; [done|]. intros r Hr1 Hr2. by destruct (Hr2 (Hr r Hr1)). }
  destruct (Z.max setting FLOOR_DAYS =? 0) eqn:Em; reflect_bools.
  { unfold FLOOR_DAYS in Em. lia. }
  destruct (first_row_day d) as [day|].
  - apply purge_days_safe in Ho as [He Hr]. split; [done|]. intros r Hr1 Hr2. split; [lia|].
    destruct (Hr r Hr1) as [|(day' & Hday & Hof & Hex)]; [done|]. exists day'. split; [done|].
    unfold FLOOR_DAYS in Hday. split; [lia|]. split; [lia|done].
  - destruct (Hnone Ho) as [He Hr]. split; [done|]. intros r Hr1 Hr2. by destruct (Hr2 (Hr r Hr1)).
Qed.

(** ** Exporting keeps one chain and leaves no gap *)

Hypothesis json_roundtrip : forall m, json_loads (json_dumps m) = Some m.
Hypothesis sha256_nonempty : forall x, sha256 x <> ""%string.
Hypothesis sha256_collision_free : forall x y, sha256 x = sha256 y -> x = y.

#[local] Notation chain_sound := (chain_sound sha256 json_loads).

Lemma head_ok s : chain_sound s -> chain_head (s_db s) = Ok (last (map e_manifest_sha256 (exports (s_db s)))).
Proof. intros Hs. by eapply chain_head_sound. Qed.

(** One [write_export] at the head of the chain. *)
Lemma write_at_head key day seq rows now s prev r s' :
  chain_sound s -> chain_head (s_db s) = Ok prev -> write_export key day seq rows prev now s = (r, s') ->
  chain_sound s' /\ logs (s_db s') = logs (s_db s) /\
  (forall e, e ∈ exports (s_db s) -> e ∈ exports (s_db s')) /\
  (forall w, r = Ok w -> exists e, e ∈ exports (s_db s') /\ e_day e = day /\ e_seq e = seq /\ e_row_count e = zlen rows).
Proof.
  intros Hs Hc Hw. split; [by eapply write_export_sound|].
  pose proof (export_step sha256 json_dumps json_loads row_json gzip_compress load_pem raw_public ed25519_verify json_roundtrip
    key day seq rows prev now s) as Hstep. rewrite Hw in Hstep. simpl in Hstep.
  destruct r as [w|e].
  - destruct Hstep as (e & Hd & Hday & Hseq & Hn). rewrite Hd. cbn [logs exports]. split; [done|].
    split; [intros e' He'; apply elem_of_app; by left|]. intros w' _. exists e.
    split; [apply elem_of_app; right; by left|done].
  - rewrite Hstep. split; [done|]. by split.
Qed.

Definition exported_day (s s' : store (A := A)) (day : Z) : Prop :=
  exists e, e ∈ exports (s_db s') /\ e_day e = day /\ e_seq e = 0 /\ e_row_count e = day_count (s_db s) day.

Lemma export_days_sound n key now day s r s' :
  chain_sound s -> export_days n key now day s = (r, s') ->
  chain_sound s' /\ logs (s_db s') = logs (s_db s) /\ (forall e, e ∈ exports (s_db s) -> e ∈ exports (s_db s')) /\
  (forall ws, r = Ok ws -> forall day', day <= day' < day + Z.of_nat n -> exported_day s s' day').
Proof.
  revert day s r s'; induction n as [|n IH]; intros day s r s' Hs He; simpl in He.
  - injection He as <- <-. split; [done|]. split; [done|]. split; [done|]. intros ws _ day' ?. lia.
  - unfold mbind, io_bind, ask, lift in He. rewrite (head_ok _ Hs) in He.
    destruct (write_export key day 0 _ _ now s) as [[w|e] s1] eqn:Ew.
    + destruct (write_at_head _ _ _ _ _ _ _ _ _ Hs (head_ok _ Hs) Ew) as (Hs1 & Hl1 & Hi1 & Hw1).
      destruct (export_days n key now (day + 1) s1) as [[ws|e] s2] eqn:En; injection He as <- <-;
        destruct (IH _ _ _ _ Hs1 En) as (Hs2 & Hl2 & Hi2 & Hw2);
        (split; [done|]; split; [congruence|]; split; [auto|]).
      * intros ws' _ day' Hday'. destruct (decide (day' = day)) as [->|Hne].
        -- destruct (Hw1 w eq_refl) as (e & He & Hd & Hsq & Hn). exists e. split; [by apply Hi2|]. split; [done|]. split; [done|].
           rewrite Hn. unfold day_rows, day_count, zlen. by rewrite py_sorted_perm.
        -- destruct (Hw2 ws eq_refl day') as (e & He & Hd & Hsq & Hn); [lia|]. exists e. repeat (split; [done|]).
           rewrite Hn. unfold day_count. by rewrite Hl1.
      * done.
    + injection He as <- <-.
      destruct (write_at_head _ _ _ _ _ _ _ _ _ Hs (head_ok _ Hs) Ew) as (Hs1 & Hl1 & Hi1 & _).
      split; [done|]. split; [done|]. by split.
Qed.

Lemma recount_sound key now day s r s' :
  chain_sound s -> recount key now day s = (r, s') ->
  chain_sound s' /\ logs (s_db s') = logs (s_db s) /\ (forall e, e ∈ exports (s_db s) -> e ∈ exports (s_db s')) /\
  (forall o last_e, r = Ok o -> last (exports_for (s_db s) day) = Some last_e ->
     row_count_sum (exports_for (s_db s) day) < day_count (s_db s) day ->
     exists ids e, exported_ids (s_archive s) (s_db s) day (Some key) = Ok ids /\ e ∈ exports (s_db s') /\
       e_day e = day /\ e_seq e = e_seq last_e + 1 /\
       e_row_count e = zlen (List.filter (fun r => negb (bool_decide (r_id r ∈ ids))) (day_rows (s_db s) day))).
Proof.
  intros Hs Hr. unfold recount, mbind, io_bind, ask, lift in Hr.
  assert (Hsame : forall P : Prop, s' = s -> P -> chain_sound s' /\ logs (s_db s') = logs (s_db s) /\
    (forall e, e ∈ exports (s_db s) -> e ∈ exports (s_db s')) /\ P) by (intros P -> HP; done).
  destruct (exports_for (s_db s) day) as [|e0 es0] eqn:Ees.
  { injection Hr as <- <-. by apply Hsame. }
  destruct (_ =? _) eqn:E1; [injection Hr as <- <-; apply Hsame; [done|]; intros; reflect_bools; lia|].
  destruct (day_count _ _ <? _) eqn:E2; [injection Hr as <- <-; apply Hsame; [done|]; intros; reflect_bools; lia|].
  destruct (exported_ids _ _ day _) as [ids|e] eqn:Ei; [|injection Hr as <- <-; by apply Hsame].
  rewrite (head_ok _ Hs) in Hr.
  destruct (write_export key day _ _ _ now s) as [[w|e] s1] eqn:Ew; injection Hr as <- <-;
    destruct (write_at_head _ _ _ _ _ _ _ _ _ Hs (head_ok _ Hs) Ew) as (Hs1 & Hl1 & Hi1 & Hw1);
    (split; [done|]; split; [done|]; split; [done|]).
  - intros o last_e _ Hlast _. destruct (Hw1 w eq_refl) as (e & He & Hd & Hsq & Hn). exists ids, e.
    split; [done|]. split; [done|]. split; [done|]. split; [|done]. by rewrite Hsq, Hlast.
  - done.
Qed.

(** The daily export leaves no gap and keeps one chain.  From a database whose exports form one
    chain with their manifests in the archive, whatever happens during the run, they still do
    afterwards, with exactly one head, and no log row or export is lost; and when the run returns,
    every day from the first one due up to yesterday has its export, with the number of rows the
    table has for that day. *)
Theorem run_export_complete key now today s :
  chain_sound s ->
  let out := run_export key now today s in
  chain_sound out.2 /\
  chain_head (s_db out.2) = Ok (last (map e_manifest_sha256 (exports (s_db out.2)))) /\
  logs (s_db out.2) = logs (s_db s) /\ (forall e, e ∈ exports (s_db s) -> e ∈ exports (s_db out.2)) /\
  (forall ws start, out.1 = Ok ws -> export_start (s_db s) = Some start ->
     forall day, start <= day < today -> exported_day s out.2 day).
Proof.
  intros Hs out. destruct out as [r s'] eqn:Ho. unfold out, run_export, mbind, io_bind, ask in Ho. simpl.
  assert (Hmain : chain_sound s' /\ logs (s_db s') = logs (s_db s) /\ (forall e, e ∈ exports (s_db s) -> e ∈ exports (s_db s')) /\
    (forall ws start, r = Ok ws -> export_start (s_db s) = Some start -> forall day, start <= day < today -> exported_day s s' day)).
  { match type of Ho with (let (_, _) := ?x in _) = _ => destruct x as [[ws|e] s1] eqn:Eb end.
    - assert (Hb : chain_sound s1 /\ logs (s_db s1) = logs (s_db s) /\ (forall e, e ∈ exports (s_db s) -> e ∈ exports (s_db s1)) /\
        (forall start, export_start (s_db s) = Some start -> forall day, start <= day < today -> exported_day s s1 day)).
      { destruct (export_start (s_db s)) as [start|].
        - apply export_days_sound in Eb as (H1 & H2 & H3 & H4); [|done]. repeat (split; [done|]).
          intros start' [= <-] day Hday. apply (H4 ws eq_refl). lia.
        - injection Eb as <- <-. split; [done|]. split; [done|]. split; [done|]. intros start [=]. }
      destruct Hb as (Hs1 & Hl1 & Hi1 & Hd1).
      destruct (recount key now (today - 2) s1) as [[o|e] s2] eqn:Er; injection Ho as <- <-;
        apply recount_sound in Er as (Hs2 & Hl2 & Hi2 & _); try done;
        (split; [done|]; split; [congruence|]; split; [auto|]); [|done].
      intros ws' start _ Hst day Hday. destruct (Hd1 start Hst day Hday) as (e & He & Hrest). exists e. split; [auto|done].
    - injection Ho as <- <-. destruct (export_start (s_db s)) as [start|]; [|done].
      apply export_days_sound in Eb as (H1 & H2 & H3 & _); [|done]. split; [done|]. split; [done|]. by split. }
  destruct Hmain as (H1 & H2 & H3 & H4). split; [done|]. split; [by apply head_ok|]. by split.
Qed.
End Jobs.

(** ** Concrete runs *)

Definition demo_run := run_export (A := gmap string string) demo_sha256 demo_dumps demo_loads demo_row_json demo_json_id
  (fun s => s) Some demo_load_pem demo_raw demo_check.

Lemma run_export_complete_witness :
  let out := demo_run demo_key 7 20739 (demo_store demo_rows) in
  exported_day (demo_store demo_rows) out.2 20738 /\ length (exports (s_db out.2)) = 2%nat.
Proof.
  intros out. split; [|vm_compute; reflexivity].
  destruct (run_export_complete demo_sha256 demo_dumps demo_loads demo_row_json demo_json_id (fun s => s) Some
    demo_load_pem demo_raw demo_check demo_roundtrip) with (key := demo_key) (now := 7) (today := 20739) (s := demo_store demo_rows)
    as (_ & _ & _ & _ & H).
  - intros x [=].
  - intros x y [= Hxy]. exact Hxy.
  - split; [done|]. split; [constructor|constructor].
  - destruct out as [[ws|e] s'] eqn:Eo.
    + unfold out, demo_run in Eo. rewrite Eo in H. apply (H ws 20737 eq_refl); [reflexivity|lia].
    + exfalso. assert (Hr : match out.1 with Ok _ => true | Err _ => false end = true) by (vm_compute; reflexivity).
      by rewrite Eo in Hr.
Defined.

Definition demo_after : store (A := gmap string string) := (demo_write demo_key 20737 0 demo_rows None 7 (demo_store demo_rows)).2.
Definition demo_retention := run_retention (A := gmap string string) demo_sha256 demo_loads demo_json_id Some demo_load_pem demo_raw demo_check
  (fun n l => pretty n) (fun day => pretty day).

Lemma purge_only_exported_witness :
  let out := demo_retention 30 (s_archive demo_after) demo_key (20778 * us_per_day) (fun _ => []) 20778 (s_db demo_after) in
  length (logs out.2) = 1%nat /\
  exists day, of_day day (Row "a1" (20737 * us_per_day + 5) None None "login" "user" None None) = true /\ day < 20778 - 30.
Proof.
  intros out. split; [vm_compute; reflexivity|].
  destruct (purge_only_exported demo_sha256 demo_loads demo_json_id Some demo_load_pem demo_raw demo_check
    (fun n l => pretty n) (fun day => pretty day) 30 (s_archive demo_after) demo_key (20778 * us_per_day) (fun _ => []) 20778 (s_db demo_after))
    as [_ H].
  destruct (H (Row "a1" (20737 * us_per_day + 5) None None "login" "user" None None)) as (_ & day & Hd & Hlt & _).
  - left. assert (Hl : logs (s_db demo_after) = demo_rows) by (vm_compute; reflexivity). rewrite Hl. left.
  - fold demo_retention. fold out.
    assert (Hl : bool_decide (Row "a1" (20737 * us_per_day + 5) None None "login" "user" None None ∈ logs out.2) = false)
      by (vm_compute; reflexivity).
    by apply bool_decide_eq_false in Hl.
  - exists day. split; [exact Hd|lia].
Defined.
