(* ===== verification/AuditVerify.v ===== *)
(** * The verifier of the audit archive

    Models [verify_archive] of [control-plane/worker/worker/audit_verify.py]: every manifest is
    verified, then the chain of [prev_manifest_sha256] is followed from the one manifest nothing
    points to.  The walk runs on the number of manifests, which is enough: it never visits one twice.
    The theorem characterises the archives in which it finds no problem. *)

From S2P Require Import Prelude PyText AuditArchive AuditExport.

Local Open Scope Z_scope.

(** ** A dict in insertion order *)
Fixpoint dict_set {V} (k : string) (v : V) (d : list (string * V)) : list (string * V) :=
  match d with
  | [] => [(k, v)]
  | (k', v') :: d' => if String.eqb k' k then (k', v) :: d' else (k', v') :: dict_set k v d'
  end.
Fixpoint dict_get {V} (k : string) (d : list (string * V)) : option V :=
  match d with [] => None | (k', v) :: d' => if String.eqb k' k then Some v else dict_get k d' end.
Definition keys {V} (d : list (string * V)) : list string := map fst d.

(** A manifest and the name it was read from, by the SHA-256 of its bytes. *)
Definition by_sha := list (string * (manifest * string)).

Inductive problem :=
| BadManifest (e : AuditExportError)
| MissingPrev (sha : string)
| HeadCount (n : Z)
| Loops
| NotOnChain (names : list string).

Record summary := Summary { s_manifests : Z; s_first_day : option string; s_last_day : option string; s_rows : Z; s_key_ids : list string }.

(** [referenced] *)
Definition referenced (d : by_sha) : list string := omap (fun kv => truthy (m_prev kv.2.1)) d.
(** [missing_prev] *)
Definition missing_prev (d : by_sha) : list string :=
  py_sorted string_leb (List.filter (fun s => negb (bool_decide (s ∈ keys d))) (fromkeys (referenced d))).
(** [heads] *)
Definition heads (d : by_sha) : list string := List.filter (fun s => negb (bool_decide (s ∈ referenced d))) (keys d).

(** The loop: what was visited, and the value of [sha] it stopped at. *)
Fixpoint walk (fuel : nat) (d : by_sha) (visited : list string) (sha : option string) : list string * option string :=
  match fuel with
  | O => (visited, sha)
  | S f =>
      match truthy sha with
      | None => (visited, sha)
      | Some s =>
          match dict_get s d with
          | None => (visited, sha)
          | Some (m, _) => if bool_decide (s ∈ visited) then (visited, sha) else walk f d (visited ++ [s]) (m_prev m)
          end
      end
  end.

(** The chain checks of [verify_archive], and what they visited. *)
Definition check_chain (d : by_sha) : list problem * list string :=
  let missing := map MissingPrev (missing_prev d) in
  let count := if negb (bool_decide (d = [])) && negb (zlen (heads d) =? 1) then [HeadCount (zlen (heads d))] else [] in
  match heads d with
  | [h] =>
      let '(visited, sha) := walk (S (length d)) d [] (Some h) in
      let loop := match sha with Some s => if bool_decide (s ∈ visited) then [Loops] else [] | None => [] end in
      let unvisited := map (fun kv => kv.2.2) (List.filter (fun kv => negb (bool_decide (kv.1 ∈ visited))) d) in
      let off := match unvisited with [] => [] | _ => [NotOnChain (py_sorted string_leb unvisited)] end in
      (missing ++ count ++ loop ++ off, visited)
  | _ => (missing ++ count, [])
  end.

(** [summary] *)
Definition summarise (d : by_sha) (visited : list string) : summary :=
  let chain := omap (fun s => dict_get s d) (rev visited) in
  Summary (zlen d) (option_map (fun v => m_day v.1) (head chain)) (option_map (fun v => m_day v.1) (last chain))
    (foldr (fun kv n => m_row_count kv.2.1 + n) 0 d)
    (py_sorted string_leb (fromkeys (map (fun kv => m_key_id kv.2.1) d))).

Section Verify.
Context {A : Type} `{AuditArchive string A}.
Context (sha256 : string -> string) (json_loads : string -> option manifest).
Context {pubkey : Type} (load_pem : string -> option pubkey) (raw_public : pubkey -> option string).
Context (ed25519_verify : pubkey -> string -> string -> bool).
#[local] Notation verify_manifest := (verify_manifest sha256 json_loads load_pem raw_public ed25519_verify).

(** [manifests] *)
Definition manifests (a : A) : list string :=
  List.filter (fun n => endswith ".manifest.json" n && negb (startswith "quarantine/" n)) (list_names "" a).

(** The reading loop of [verify_archive]. *)
Fixpoint read_manifests (a : A) (trusted : option (list string)) (names : list string) (d : by_sha) : list problem * by_sha :=
  match names with
  | [] => ([], d)
  | name :: rest =>
      match verify_manifest a name None trusted None with
      | Err e => let '(ps, d') := read_manifests a trusted rest d in (BadManifest e :: ps, d')
      | Ok m =>
          match get name a with
          | Ok data => read_manifests a trusted rest (dict_set (sha256 data) (m, name) d)
          | Err e => let '(ps, d') := read_manifests a trusted rest d in (BadManifest (ArchiveFailed e) :: ps, d')  (* never: it was just read *)
          end
      end
  end.

(** [verify_archive] *)
Definition verify_archive (a : A) (trusted : option (list string)) : list problem * summary :=
  let '(bad, d) := read_manifests a trusted (manifests a) [] in
  let '(broken, visited) := check_chain d in
  (bad ++ broken, summarise d visited).
End Verify.

(** ** Dicts *)

Section Dict.
Context {V : Type}.
Implicit Types (d : list (string * V)) (k : string) (v : V).

Lemma dict_get_elem k v d : NoDup (keys d) -> (k, v) ∈ d <-> dict_get k d = Some v.
Proof.
  induction d as [|[k' v'] d IH]; simpl; [intros _; split; [intros ?%elem_of_nil|]; done|].
  rewrite NoDup_cons. intros [Hk Hn]. rewrite elem_of_cons. destruct (String.eqb k' k) eqn:E.
  - apply String.eqb_eq in E as ->. split.
    + intros [[= ->]|Hin]; [done|]. destruct Hk. apply list_elem_of_fmap. by exists (k, v).
    + intros [= ->]. by left.
  - apply String.eqb_neq in E. rewrite <- IH by done. split; [intros [[= ->]|]; done|by right].
Qed.

Lemma dict_get_key k d : k ∈ keys d <-> is_Some (dict_get k d).
Proof.
  induction d as [|[k' v'] d IH]; simpl; [rewrite elem_of_nil; split; [done|by intros []]|].
  rewrite elem_of_cons. destruct (String.eqb k' k) eqn:E.
  - apply String.eqb_eq in E as ->. split; [by eexists|by left].
  - apply String.eqb_neq in E. rewrite <- IH. split; [intros [->|]; done|by right].
Qed.

Lemma keys_dict_set k v d : keys (dict_set k v d) = if bool_decide (k ∈ keys d) then keys d else keys d ++ [k].
Proof.
  induction d as [|[k' v'] d IH]; simpl; [done|]. destruct (String.eqb k' k) eqn:E; simpl.
  - apply String.eqb_eq in E as ->. rewrite bool_decide_eq_true_2; [done|]. by left.
  - apply String.eqb_neq in E. rewrite IH. repeat case_bool_decide; try done; exfalso.
    + rewrite elem_of_cons in *. tauto.
    + rewrite elem_of_cons in *. destruct H0 as [?|?]; congruence.
Qed.

Lemma NoDup_dict_set k v d : NoDup (keys d) -> NoDup (keys (dict_set k v d)).
Proof.
  intros Hn. rewrite keys_dict_set. case_bool_decide; [done|]. apply NoDup_app. split; [done|].
  split; [|apply NoDup_singleton]. by intros x Hx ->%list_elem_of_singleton.
Qed.
End Dict.

(** ** Paths *)

(** [path d x l y]: following the manifests of [d] from [x] visits [l] and arrives at [y]. *)
Fixpoint path (d : by_sha) (x : option string) (l : list string) (y : option string) : Prop :=
  match l with
  | [] => x = y
  | s :: l' => truthy x = Some s /\ exists v, dict_get s d = Some v /\ path d (m_prev v.1) l' y
  end.

Lemma truthy_some s t : truthy (Some s) = Some t -> s = t /\ s <> ""%string.
Proof. simpl. destruct (String.eqb s "") eqn:E; [done|]. apply String.eqb_neq in E. by intros [= ->]. Qed.
Lemma truthy_inv x s : truthy x = Some s -> x = Some s /\ s <> ""%string.
Proof. destruct x as [t|]; [|done]. intros [-> ?]%truthy_some. done. Qed.

(** The walk follows a path, visits nothing twice, and stops only where the code's loop does. *)
Lemma walk_spec fuel d visited sha visited' sha' :
  NoDup visited -> (forall s, s ∈ visited -> s ∈ keys d) -> (length d < length visited + fuel)%nat ->
  walk fuel d visited sha = (visited', sha') ->
  exists new, visited' = visited ++ new /\ NoDup visited' /\ (forall s, s ∈ visited' -> s ∈ keys d) /\
    path d sha new sha' /\
    forall s, truthy sha' = Some s -> s ∈ keys d -> s ∈ visited'.
Proof.
  revert visited sha; induction fuel as [|f IH]; intros visited sha Hn Hk Hf Hw; simpl in Hw.
  - exfalso. assert (length visited <= length d)%nat; [|lia]. rewrite <- (length_map fst d).
    by apply (submseteq_length visited), NoDup_submseteq.
  - assert (Hstay : visited' = visited -> sha' = sha -> (forall s, truthy sha = Some s -> s ∈ keys d -> s ∈ visited) ->
      exists new, visited' = visited ++ new /\ NoDup visited' /\ (forall s, s ∈ visited' -> s ∈ keys d) /\
        path d sha new sha' /\ forall s, truthy sha' = Some s -> s ∈ keys d -> s ∈ visited').
    { intros -> -> Hs. exists []. by rewrite app_nil_r. }
    destruct (truthy sha) as [s|] eqn:Et; [|injection Hw as <- <-; by apply Hstay].
    destruct (dict_get s d) as [[m nm]|] eqn:Eg.
    + destruct (bool_decide (s ∈ visited)) eqn:Ev.
      * injection Hw as <- <-. apply Hstay; [done..|]. intros s' [= <-] _. by apply bool_decide_eq_true in Ev.
      * apply bool_decide_eq_false in Ev. apply IH in Hw as (new & -> & H1 & H2 & H3 & H4).
        -- exists (s :: new). rewrite <- app_assoc in *. simpl in *. split; [done|]. split; [done|]. split; [done|].
           split; [|done]. split; [done|]. by exists (m, nm).
        -- apply NoDup_app. split; [done|]. split; [|apply NoDup_singleton]. by intros x Hx ->%list_elem_of_singleton.
        -- intros x [Hx| ->%list_elem_of_singleton]%elem_of_app; [by apply Hk|]. apply dict_get_key. by eexists.
        -- rewrite length_app. simpl. lia.
    + injection Hw as <- <-. apply Hstay; [done..|]. intros s' [= <-] Hin. apply dict_get_key in Hin as [v Hv]. congruence.
Qed.

(** On a path without repetition the walk visits all of it. *)
Lemma walk_path fuel d visited x l y :
  path d x l y -> truthy y = None -> NoDup (visited ++ l) -> (length l < fuel)%nat ->
  walk fuel d visited x = (visited ++ l, y).
Proof.
  revert visited x l; induction fuel as [|f IH]; intros visited x l Hp Hy Hn Hf; [lia|].
  destruct l as [|s l]; simpl in *.
  - subst y. by rewrite Hy, app_nil_r.
  - destruct Hp as (-> & [m nm] & -> & Hp). rewrite bool_decide_eq_false_2.
    + rewrite (IH _ _ l Hp Hy); [by rewrite <- app_assoc|by rewrite <- app_assoc|lia].
    + intros Hin. apply NoDup_app in Hn as (_ & Hd & _). apply (Hd s Hin). by left.
Qed.

(** What the manifests on a path point to is what comes after the first. *)
Lemma path_refs d x l y s : path d x l y -> truthy y = None ->
  (exists k v, k ∈ l /\ dict_get k d = Some v /\ truthy (m_prev v.1) = Some s) <-> s ∈ tail l.
Proof.
  intros Hp Hy. revert x Hp; induction l as [|k l IH]; intros x Hp; simpl.
  - split; [by intros (? & ? & ?%elem_of_nil & _)|by intros ?%elem_of_nil].
  - destruct Hp as (_ & v & Hv & Hp). specialize (IH _ Hp). destruct l as [|k' l].
    + simpl in Hp. split; [|by intros ?%elem_of_nil].
      intros (k0 & v0 & ->%list_elem_of_singleton & Hv0 & Ht). congruence.
    + pose proof Hp as (Hk' & _). simpl in IH. split.
      * intros (k0 & v0 & Hk0 & Hv0 & Ht). apply elem_of_cons in Hk0 as [->|Hk0].
        -- rewrite Hv in Hv0. injection Hv0 as <-. rewrite Hk' in Ht. injection Ht as ->. by left.
        -- right. apply IH. eauto.
      * intros [->|Hs]%elem_of_cons; [exists k, v; split; [by left|by split]|].
        apply IH in Hs as (k0 & v0 & Hk0 & Hrest). exists k0, v0. split; [by right|done].
Qed.

(** ** When the chain checks find nothing *)

Lemma elem_of_referenced d s : NoDup (keys d) ->
  s ∈ referenced d <-> exists k v, k ∈ keys d /\ dict_get k d = Some v /\ truthy (m_prev v.1) = Some s.
Proof.
  intros Hn. unfold referenced. rewrite list_elem_of_omap. split.
  - intros ([k v] & Hin & Ht). apply dict_get_elem in Hin; [|done]. exists k, v. split; [|done].
    apply dict_get_key. by eexists.
  - intros (k & v & _ & Hg & Ht). exists (k, v). split; [|done]. by apply dict_get_elem.
Qed.

Lemma elem_of_heads d s : s ∈ heads d <-> s ∈ keys d /\ s ∉ referenced d.
Proof.
  unfold heads. rewrite list_elem_of_In, filter_In, <- list_elem_of_In, negb_true_iff, bool_decide_eq_false. done.
Qed.

Lemma missing_prev_nil d : missing_prev d = [] <-> forall s, s ∈ referenced d -> s ∈ keys d.
Proof.
  unfold missing_prev. split.
  - intros Hm s Hs. destruct (decide (s ∈ keys d)); [done|]. exfalso.
    assert (Hin : s ∈ @nil string); [|by apply elem_of_nil in Hin]. rewrite <- Hm, elem_of_py_sorted, list_elem_of_In, filter_In, <- list_elem_of_In.
    split; [by apply elem_of_fromkeys|]. by rewrite bool_decide_eq_false_2.
  - intros Hs. assert (Hf : forall l, (forall s, s ∈ l -> s ∈ keys d) -> List.filter (fun s => negb (bool_decide (s ∈ keys d))) l = []).
    { induction l as [|x l IH]; intros Hl; simpl; [done|]. rewrite bool_decide_eq_true_2 by (apply Hl; left). apply IH.
      intros y Hy. apply Hl. by right. }
    rewrite Hf; [done|]. intros s Hin. rewrite elem_of_fromkeys in Hin. by apply Hs.
Qed.

(** One chain: from some start, following the manifests visits each one once and ends at none. *)
Definition one_chain (d : by_sha) (c : list string) : Prop :=
  c ≡ₚ keys d /\ exists start stop, path d start c stop /\ truthy stop = None.

Lemma filter_nil_forall {T} (f : T -> bool) l : List.filter f l = [] <-> forall x, x ∈ l -> f x = false.
Proof.
  induction l as [|x l IH]; simpl; [split; [by intros _ x ?%elem_of_nil|done]|]. split.
  - destruct (f x) eqn:E; [done|]. intros Hl y [->|Hy]%elem_of_cons; [done|]. by apply IH.
  - intros Hl. rewrite (Hl x) by left. apply IH. intros y Hy. apply Hl. by right.
Qed.

Lemma app_nil {T} (l k : list T) : l ++ k = [] <-> l = [] /\ k = [].
Proof. split; [apply app_eq_nil|by intros [-> ->]]. Qed.

Lemma check_chain_nil d : (check_chain d).1 = [] <->
  missing_prev d = [] /\
  (d = [] \/ exists h visited sha, heads d = [h] /\ walk (S (length d)) d [] (Some h) = (visited, sha) /\
     (forall s, sha = Some s -> s ∉ visited) /\ forall k v, (k, v) ∈ d -> k ∈ visited).
Proof.
  unfold check_chain. destruct (decide (d = [])) as [->|Hd].
  { split; [|intros _; reflexivity]. intros _. split; [reflexivity|by left]. }
  rewrite (bool_decide_eq_false_2 (d = [])) by done. cbn [negb andb].
  assert (Hmap : forall l, map MissingPrev l = [] <-> l = []) by (intros []; done).
  destruct (heads d) as [|h [|h2 hs]] eqn:Eh.
  - cbn [fst]. rewrite app_nil, Hmap. split; [by intros [_ ?]|]. intros (_ & [?|(h & v & s & ? & _)]); done.
  - destruct (walk (S (length d)) d [] (Some h)) as [visited sha] eqn:Ew. cbn [fst].
    rewrite !app_nil, Hmap. split.
    + intros (Hm & _ & Hl & Hu). split; [done|]. right. exists h, visited, sha. split; [done|]. split; [done|]. split.
      * intros s -> Hin. by rewrite bool_decide_eq_true_2 in Hl.
      * intros k v Hin. destruct (map _ _) as [|x l] eqn:Eu; [|done]. apply map_eq_nil in Eu.
        rewrite filter_nil_forall in Eu. specialize (Eu _ Hin). by reflect_bools.
    + intros (Hm & [?|(h' & v' & s' & [= <-] & Hw & Hs & Hk)]); [done|]. rewrite Ew in Hw. injection Hw as <- <-.
      split; [done|]. split; [done|]. split.
      * destruct sha as [s|]; [|done]. rewrite bool_decide_eq_false_2; [done|]. by apply Hs.
      * assert (List.filter (fun kv : string * (manifest * string) => negb (bool_decide (kv.1 ∈ visited))) d = []) as ->; [|done].
        apply filter_nil_forall. intros [k v] Hin. cbn [fst]. rewrite bool_decide_eq_true_2; [done|]. by eapply Hk.
  - cbn [fst]. rewrite app_nil, Hmap. split.
    + intros [_ Hc]. destruct (_ =? 1) eqn:E; [|done]. reflect_bools. unfold zlen in E. simpl in E. lia.
    + intros (_ & [?|(h' & v' & s' & ? & _)]); done.
Qed.

Lemma check_chain_sound d : NoDup (keys d) -> (check_chain d).1 = [] -> exists c, one_chain d c.
Proof.
  intros Hn [Hm [->|(h & visited & sha & Hh & Hw & Hs & Hk)]]%check_chain_nil.
  { exists []. split; [done|]. by exists None, None. }
  rewrite missing_prev_nil in Hm.
  assert (Hhd : h ∈ keys d /\ h ∉ referenced d) by (apply elem_of_heads; rewrite Hh; left).
  apply walk_spec in Hw as (new & -> & Hnd & Hin & Hp & Hstop); [|constructor|by intros ? ?%elem_of_nil|simpl; lia].
  simpl in *. exists new. split.
  - apply NoDup_Permutation; [done..|]. intros k. split; [apply Hin|].
    intros [v Hv]%dict_get_key. eapply Hk. by apply dict_get_elem.
  - exists (Some h), sha. split; [done|]. destruct (truthy sha) as [s|] eqn:Et; [|done]. exfalso.
    pose proof (truthy_inv _ _ Et) as [-> _]. apply (Hs s eq_refl). apply Hstop; [done|].
    destruct new as [|k0 new0] using rev_ind; [|clear IHnew0].
    + simpl in Hp. injection Hp as <-. apply Hhd.
    + apply Hm, elem_of_referenced; [done|]. exists k0.
      assert (Hlast : forall x l, path d x (l ++ [k0]) (Some s) -> exists v, dict_get k0 d = Some v /\ m_prev v.1 = Some s).
      { intros x l. revert x; induction l as [|k l IH]; intros x; simpl; [|intros (_ & v & _ & ?); by eapply IH].
        intros (_ & v & ? & ?). by exists v. }
      destruct (Hlast _ _ Hp) as (v & Hv & Hpv). exists v. split; [apply dict_get_key; by eexists|].
      split; [done|]. by rewrite Hpv.
Qed.

Lemma check_chain_complete d c : NoDup (keys d) -> one_chain d c -> (check_chain d).1 = [].
Proof.
  intros Hn [Hc (start & stop & Hp & Hy)]. apply check_chain_nil.
  assert (Hnc : NoDup c) by by rewrite Hc.
  assert (Href : forall s, s ∈ referenced d <-> s ∈ tail c).
  { intros s. rewrite elem_of_referenced, <- (path_refs d start c stop s Hp Hy) by done. by setoid_rewrite Hc. }
  split.
  { apply missing_prev_nil. intros s Hs%Href. rewrite <- Hc. destruct c; [done|by right]. }
  destruct c as [|h c]; [left; destruct d; [done|by apply Permutation_nil_l in Hc]|]. right.
  pose proof Hp as (Ht & v & Hv & Hp').
  exists h, (h :: c), stop. split.
  - assert (Hin : forall x, x ∈ heads d <-> x ∈ [h]).
    { intros x. rewrite elem_of_heads, <- Hc, Href, list_elem_of_singleton, elem_of_cons. simpl.
      apply NoDup_cons in Hnc as [Hh _]. split; [tauto|]. intros ->. auto. }
    assert (Hnh : NoDup (heads d)) by (apply NoDup_ListNoDup, List.NoDup_filter; by apply NoDup_ListNoDup).
    apply Permutation_singleton_r. apply NoDup_Permutation; [done|apply NoDup_singleton|done].
  - split.
    + apply (walk_path _ d [] (Some h) (h :: c) stop); [|done|done|].
      * split; [by apply truthy_inv in Ht as [-> ?]; destruct (String.eqb h "") eqn:E; simpl; rewrite ?E; [apply String.eqb_eq in E|]|].
        by exists v.
      * apply Permutation_length in Hc. unfold keys in Hc. rewrite length_map in Hc. lia.
    + split.
      * intros s -> Hin. simpl in Hy. destruct (String.eqb s "") eqn:E; [|done]. apply String.eqb_eq in E as ->.
        assert (Hne : forall l x, path d x l (Some ""%string) -> ""%string ∉ l).
        { induction l as [|k l IH]; intros x; [by intros _ ?%elem_of_nil|]. intros (Hk & w & _ & Hp2) [<-|Hl]%elem_of_cons.
          - by apply truthy_inv in Hk as [_ ?].
          - by apply (IH _ Hp2). }
        by apply (Hne _ _ Hp).
      * intros k w Hkw. rewrite Hc. apply list_elem_of_fmap. by exists (k, w).
Qed.

(** ** The whole archive *)

Section Archive.
Context {A : Type} `{AuditArchive string A}.
Context (sha256 : string -> string) (json_loads : string -> option manifest).
Context {pubkey : Type} (load_pem : string -> option pubkey) (raw_public : pubkey -> option string).
Context (ed25519_verify : pubkey -> string -> string -> bool).
#[local] Notation verify_manifest := (verify_manifest sha256 json_loads load_pem raw_public ed25519_verify).
#[local] Notation read_manifests := (read_manifests sha256 json_loads load_pem raw_public ed25519_verify).
#[local] Notation verify_archive := (verify_archive sha256 json_loads load_pem raw_public ed25519_verify).

(** An entry of the dict: a manifest that verifies, under the hash of its bytes. *)
Definition entry_ok (a : A) (trusted : option (list string)) (kv : string * (manifest * string)) : Prop :=
  verify_manifest a kv.2.2 None trusted None = Ok kv.2.1 /\ exists data, get kv.2.2 a = Ok data /\ sha256 data = kv.1.

Lemma elem_of_dict_set {V} k (v : V) d x : x ∈ dict_set k v d -> x = (k, v) \/ x ∈ d.
Proof.
  induction d as [|[k' v'] d IH]; simpl; [intros ->%list_elem_of_singleton; by left|].
  destruct (String.eqb k' k) eqn:E.
  - apply String.eqb_eq in E as ->. intros [->|Hx]%elem_of_cons; [by left|right; by right].
  - intros [->|Hx]%elem_of_cons; [right; by left|]. destruct (IH Hx); [by left|right; by right].
Qed.

Lemma read_manifests_spec a trusted names d ps d' :
  read_manifests a trusted names d = (ps, d') -> NoDup (keys d) -> Forall (entry_ok a trusted) d ->
  NoDup (keys d') /\ Forall (entry_ok a trusted) d' /\ (forall k, k ∈ keys d -> k ∈ keys d') /\
  (forall n m data, n ∈ names -> verify_manifest a n None trusted None = Ok m -> get n a = Ok data -> sha256 data ∈ keys d') /\
  (ps = [] <-> forall n, n ∈ names -> exists m, verify_manifest a n None trusted None = Ok m).
Proof.
  revert d ps; induction names as [|n names IH]; intros d ps Hr Hn Hf; simpl in Hr.
  - injection Hr as <- <-. split; [done|]. split; [done|]. split; [done|].
    split; [by intros n m data ?%elem_of_nil|]. split; [by intros _ n ?%elem_of_nil|done].
  - destruct (verify_manifest a n None trusted None) as [m|e] eqn:Ev.
    + destruct (get n a) as [data|e] eqn:Eg.
      * assert (Hf' : Forall (entry_ok a trusted) (dict_set (sha256 data) (m, n) d)).
        { rewrite Forall_forall in *. intros x [->|Hx]%elem_of_dict_set; [|by apply Hf]. split; [done|]. by exists data. }
        destruct (IH _ _ Hr (NoDup_dict_set _ _ _ Hn) Hf') as (H1 & H2 & H3 & H4 & H5).
        assert (Hkey : forall k, k ∈ keys d \/ k = sha256 data -> k ∈ keys (dict_set (sha256 data) (m, n) d)).
        { intros k Hk. rewrite keys_dict_set. case_bool_decide; [by destruct Hk as [ | -> ]|].
          apply elem_of_app. destruct Hk as [ | -> ]; [by left|right; by left]. }
        split; [done|]. split; [done|]. split; [auto|]. split.
        -- intros n0 m0 data0 [->|Hin]%elem_of_cons Hv Hg; [|by eapply H4]. assert (data0 = data) as -> by congruence.
           apply H3, Hkey. by right.
        -- rewrite H5. split; [intros Hall x [->|Hx]%elem_of_cons; [by exists m|auto]|].
           intros Hall x Hx. apply Hall. by right.
      * apply verify_manifest_iff in Ev as (mb & (sig & pem & p & data & Hg & _) & _). congruence.
    + destruct (read_manifests a trusted names d) as [ps1 d1] eqn:Er. injection Hr as <- <-.
      destruct (IH _ _ Er Hn Hf) as (H1 & H2 & H3 & H4 & H5). split; [done|]. split; [done|]. split; [done|]. split.
      * intros n0 m0 data0 [->|Hin]%elem_of_cons Hv Hg; [congruence|by eapply H4].
      * split; [done|]. intros Hall. destruct (Hall n) as [m Hm]; [by left|congruence].
Qed.

(** C10: the verifier reports no problem exactly when every manifest of the archive verifies (its
    signature by the key it names, of the trusted ones, and the hash of its file) and the manifests
    form one chain: following each one's back pointer from one start visits each exactly once and
    ends at one that has none.  What it checks is each manifest that verifies, by its own hash. *)
Theorem archive_verified_iff a trusted :
  let d := (read_manifests a trusted (manifests a) []).2 in
  ((verify_archive a trusted).1 = [] <->
     (forall n, n ∈ manifests a -> exists m, verify_manifest a n None trusted None = Ok m) /\ exists c, one_chain d c) /\
  Forall (entry_ok a trusted) d /\
  (forall n m data, n ∈ manifests a -> verify_manifest a n None trusted None = Ok m -> get n a = Ok data -> sha256 data ∈ keys d).
Proof.
  intros d. unfold d, AuditVerify.verify_archive. destruct (read_manifests a trusted (manifests a) []) as [bad d0] eqn:Er. cbn [snd].
  destruct (read_manifests_spec _ _ _ _ _ _ Er) as (Hn & Hf & _ & Hk & Hbad); [constructor|constructor|].
  split; [|done]. pose proof (check_chain_sound d0 Hn) as Hs. pose proof (fun c => check_chain_complete d0 c Hn) as Hc.
  destruct (check_chain d0) as [broken visited]. cbn [fst] in *. rewrite app_nil, Hbad. split.
  - intros [H1 ->]. auto.
  - intros [H1 [c Hone]]. split; [done|]. by eapply Hc.
Qed.
End Archive.

(** ** What the chain alone does not notice *)

(** Without the newest manifest (nothing points to it), a chain is a chain: its removal goes unseen. *)
Lemma newest_removed d h c : NoDup (keys d) -> one_chain d (h :: c) ->
  (check_chain (List.filter (fun kv => negb (String.eqb kv.1 h)) d)).1 = [].
Proof.
  intros Hn [Hc (start & stop & Hp & Hy)]. set (d' := List.filter _ d).
  assert (Hkeys : keys d' = List.filter (fun k => negb (String.eqb k h)) (keys d)).
  { unfold d'. clear. induction d as [|[k v] d IH]; simpl; [done|]. destruct (String.eqb k h); simpl; by rewrite IH. }
  assert (Hn' : NoDup (keys d')) by (rewrite Hkeys; apply NoDup_ListNoDup, List.NoDup_filter; by apply NoDup_ListNoDup).
  assert (Hnc : NoDup (h :: c)) by by rewrite Hc.
  apply NoDup_cons in Hnc as [Hh Hnc].
  assert (Hget : forall k v, k <> h -> dict_get k d = Some v -> dict_get k d' = Some v).
  { intros k v Hne Hg. apply dict_get_elem in Hg; [|done]. apply dict_get_elem; [done|]. unfold d'.
    apply list_elem_of_In, filter_In. rewrite <- list_elem_of_In. split; [done|]. simpl.
    by apply negb_true_iff, String.eqb_neq. }
  apply (check_chain_complete d' c Hn'). split.
  - apply NoDup_Permutation; [done..|]. intros k. rewrite Hkeys.
    rewrite (list_elem_of_In (List.filter _ _) k), filter_In, <- list_elem_of_In, <- Hc, elem_of_cons.
    rewrite negb_true_iff, String.eqb_neq. split; [|tauto]. intros Hk. split; [by right|congruence].
  - destruct Hp as (_ & v & Hv & Hp). exists (m_prev v.1), stop. split; [|done].
    clear Hc Hv Hnc. revert Hp Hh. generalize (m_prev v.1). induction c as [|k c IH]; intros x Hp Hh; [done|].
    destruct Hp as (Ht & w & Hw & Hp). rewrite elem_of_cons in Hh. split; [done|]. exists w.
    split; [apply Hget; [by intros ->; apply Hh; left|done]|]. apply IH; [done|]. tauto.
Qed.

(** ** A concrete archive *)

Definition demo_verify := verify_archive (A := gmap string string) demo_sha256 demo_loads demo_load_pem demo_raw demo_check.
Definition demo_archive : gmap string string :=
  s_archive (demo_write demo_key 20737 0 demo_rows None 7 (demo_store demo_rows)).2.

Example demo_archive_verifies : (demo_verify demo_archive (Some ["hk"%string])).1 = [].
Proof. vm_compute. reflexivity. Qed.
(** An edited data file, and a key nobody trusts. *)
Example demo_edited :
  (demo_verify (<["2026/10/audit-2026-10-11.jsonl.gz"%string := "edited"%string]> demo_archive) None).1 =
  [BadManifest (FileMismatch "2026/10/audit-2026-10-11.manifest.json")].
Proof. vm_compute. reflexivity. Qed.
Example demo_untrusted :
  (demo_verify demo_archive (Some ["other"%string])).1 =
  [BadManifest (UnknownKey "2026/10/audit-2026-10-11.manifest.json" "hk")].
Proof. vm_compute. reflexivity. Qed.

Lemma archive_verified_iff_witness :
  exists c, one_chain (read_manifests (A := gmap string string) demo_sha256 demo_loads demo_load_pem demo_raw demo_check
    demo_archive (Some ["hk"%string]) (manifests demo_archive) []).2 c.
Proof.
  exact (proj2 (proj1 (proj1 (archive_verified_iff (A := gmap string string) demo_sha256 demo_loads demo_load_pem demo_raw demo_check
    demo_archive (Some ["hk"%string]))) demo_archive_verifies)).
Defined.
