(* ===== verification/DetectionQuery.v ===== *)
(** * The detection query language

    Models [control-plane/api/app/search_backends/detection_query.py]: the closed grammar in which a
    Student submits a detection, its lexer and recursive-descent parser, the refusal of ground-truth
    labels, and the canonical Lucene text.  Text is a list of ASCII characters; the cursor into the
    query is what is left of it.  Every recursive call and loop turn of the parser takes one unit of
    fuel; [fuel_for] is proved to be enough for any query.  [fnmatchcase] is modelled on patterns of
    [*], [?] and literals; on patterns with a bracket it is a parameter. *)

From S2P Require Import Prelude.
From Stdlib Require Import Ascii.

Local Open Scope Z_scope.

Notation text := (list ascii).
Notation "'str' s" := (String.list_ascii_of_string s%string) (at level 10, s at level 9, only parsing).

Definition MAX_DETECTION_LENGTH : Z := 2000.
Definition MAX_DETECTION_TERMS : Z := 32.
Definition MAX_DEPTH : Z := 8.

Inductive QueryError :=
| DanglingEscape | NotInTheLanguage (c : ascii) | ProximityOrBoost | UnbalancedQuote | Unparseable
| TooDeep | UnbalancedParenthesis | ExpectedTerm | NoFreeText | InvalidField (f : text) | TooManyTerms
| PlatformLabel (f : text) | EmptyValue (f : text) | AfterQuoted | BadGroup | NotANumber | EmptyInGroup (f : text)
| TooLong | EmptyQuery | ControlCharacters
| RecursionError                     (* the interpreter's own, not a QueryError *)
| OutOfFuel.

Definition among (c : ascii) (s : text) : bool := existsb (Ascii.eqb c) s.
Fixpoint has_prefix (p s : text) : bool :=
  match p, s with
  | [], _ => true
  | a :: p', b :: s' => Ascii.eqb a b && has_prefix p' s'
  | _, [] => false
  end.
Definition lower_text (s : text) : text := map lower_char s.

(** ** Labels *)

Definition GROUND_TRUTH_FIELD : text := str "tn_ground_truth".
Definition _LABEL_PREFIXES : list text :=
  [GROUND_TRUTH_FIELD; str "inject_"; str "inject."; str "truenorth"; str "threat.technique"; str "threat.tactic"].
Definition _LABEL_NAMES : list text := [str "inject"; str "exercise_id"].
Definition _LABEL_MODULE : text := str "truenorth.inject".
Definition _PHRASE : ascii := "000"%char.

(** [*], [?] and literals, as [fnmatchcase] and Lucene both read them. *)
Fixpoint glob (pattern s : text) {struct pattern} : bool :=
  match pattern with
  | [] => match s with [] => true | _ => false end
  | c :: p =>
      if Ascii.eqb c "*" then
        (fix any (s : text) : bool := glob p s || match s with [] => false | _ :: s' => any s' end) s
      else match s with
           | [] => false
           | d :: s' => (Ascii.eqb c "?" || Ascii.eqb c d) && glob p s'
           end
  end.

Inductive kind := KValue | KPhrase | KExists | KRange | KAny.
Record Term := MkTerm { t_field : text; t_kind : kind; t_values : list text; t_op : text }.

Inductive nop := AND | OR | NOT | ALL.
#[export] Instance nop_eq_dec : EqDecision nop.
Proof. solve_decision. Defined.
(** [Node | Term] *)
Inductive node := Leaf (t : Term) | Node (op : nop) (children : list node).

(** ** Serialisation *)

Definition _ALWAYS_ESCAPE : text := str "\():^[]{}~/!&|<>= " ++ ["034"%char; "009"%char].

(** [_value], after the quoted case: the first character also escapes + and -. *)
Definition escape_char (first : bool) (c : ascii) : text :=
  if among c _ALWAYS_ESCAPE || (first && among c (str "+-")) then ["\"%char; c] else [c].
Definition escape (v : text) : text :=
  match v with [] => [] | c :: v' => escape_char true c ++ flat_map (escape_char false) v' end.
Definition quote : ascii := "034"%char.
Definition escape_quoted (inner : text) : text :=
  flat_map (fun c => if Ascii.eqb c "\" || Ascii.eqb c quote then ["\"%char; c] else [c]) inner.
Definition _value (v : text) : text :=
  match v with
  | c :: inner => if Ascii.eqb c _PHRASE then quote :: escape_quoted inner ++ [quote] else escape v
  | [] => []
  end.

Fixpoint join (sep : text) (parts : list text) : text :=
  match parts with [] => [] | [p] => p | p :: rest => p ++ sep ++ join sep rest end.

(** [Term.lucene], [Node.lucene] *)
Definition term_lucene (t : Term) : text :=
  let first := match t.(t_values) with v :: _ => v | [] => [] end in
  match t.(t_kind) with
  | KExists => str "_exists_:" ++ t.(t_field)
  | KRange => t.(t_field) ++ str ":" ++ t.(t_op) ++ first
  | KAny => t.(t_field) ++ str ":(" ++ join (str " OR ") (map _value t.(t_values)) ++ str ")"
  | _ => t.(t_field) ++ str ":" ++ _value first
  end.
Fixpoint lucene (n : node) : text :=
  match n with
  | Leaf t => term_lucene t
  | Node ALL _ => str "*"
  | Node NOT cs => str "NOT (" ++ match cs with c :: _ => lucene c | [] => [] end ++ str ")"
  | Node op cs =>
      join (if decide (op = AND) then str " AND " else str " OR ")
        (map (fun c => match c with Leaf t => term_lucene t | Node _ _ => str "(" ++ lucene c ++ str ")" end) cs)
  end.

(** ** Lexer *)

Definition blank (c : ascii) : bool := among c [" "%char; "009"%char].
Definition stop (c : ascii) : bool := among c [" "%char; "009"%char; "("%char; ")"%char].
Definition refused (c : ascii) : bool := among c (quote :: str "[]{}^~/").

(** [skip], [peek] *)
Fixpoint skip (q : text) : text := match q with c :: q' => if blank c then skip q' else q | [] => [] end.
Definition peek (q : text) : option ascii := head (skip q).

(** [word]; the cursor is past the white space. *)
Fixpoint bare (q : text) : result QueryError (text * text) :=
  match q with
  | [] => Ok ([], [])
  | c :: q' =>
      if stop c then Ok ([], q)
      else if Ascii.eqb c "\" then
        match q' with
        | [] => Err DanglingEscape
        | d :: q'' => '(w, r) ← bare q''; Ok (d :: w, r)
        end
      else if refused c then Err (NotInTheLanguage c)
      else '(w, r) ← bare q'; Ok (c :: w, r)
  end.
Definition word (q : text) : result QueryError (text * text) := bare (skip q).

(** [quoted], past the opening quote. *)
Definition closing (q : text) : result QueryError (text * text) :=
  match q with c :: _ => if among c (str "~^") then Err ProximityOrBoost else Ok ([], q) | [] => Ok ([], []) end.
Fixpoint quoted_body (q : text) : result QueryError (text * text) :=
  match q with
  | [] => Err UnbalancedQuote
  | c :: q' =>
      match q' with
      | d :: q'' =>
          if Ascii.eqb c "\" then '(w, r) ← quoted_body q''; Ok (d :: w, r)
          else if Ascii.eqb c quote then closing q' else '(w, r) ← quoted_body q'; Ok (c :: w, r)
      | [] => if Ascii.eqb c quote then closing q' else '(w, r) ← quoted_body q'; Ok (c :: w, r)
      end
  end.
Definition quoted (q : text) : result QueryError (text * text) :=
  '(w, r) ← quoted_body (tail q); Ok (_PHRASE :: w, r).

(** [_OPERATORS], in the dict's order. *)
Definition _OPERATORS : list (text * nop) :=
  [(str "AND", AND); (str "&&", AND); (str "OR", OR); (str "||", OR); (str "NOT", NOT); (str "!", NOT)].
Definition boundary (tok rest : text) : bool :=
  match drop (length tok) rest with
  | [] => true
  | c :: _ => among c [" "%char; "009"%char; "("%char] || bool_decide (tok = str "!")
  end.
(** [_op]: the operator at the cursor; [_take]: past it. *)
Definition _op (q : text) : option nop :=
  option_map snd (List.find (fun to => has_prefix to.1 (skip q) && boundary to.1 (skip q)) _OPERATORS).
Definition _take (op : nop) (q : text) : text :=
  match List.find (fun to => bool_decide (to.2 = op) && has_prefix to.1 (skip q)) _OPERATORS with
  | Some (tok, _) => drop (length tok) (skip q)
  | None => skip q
  end.

(** ** Parser *)

Section Parser.
(** [fnmatch.fnmatchcase(_LABEL_MODULE, v)] for a pattern [v] with a bracket. *)
Context (fnmatch_brackets : text -> bool).

Definition fnmatch_module (v : text) : bool := if among "[" v then fnmatch_brackets v else glob v _LABEL_MODULE.

(** [is_label] *)
Definition is_label (field : text) (value : text) : bool :=
  let name := lower_text field in
  if bool_decide (name ∈ _LABEL_NAMES) || existsb (fun p => has_prefix p name) _LABEL_PREFIXES then true
  else if bool_decide (name = str "event.module") then
    let v := lower_text value in
    bool_decide (v = []) || has_prefix (str "truenorth") v || fnmatch_module v
  else false.

(** [[A-Za-z@][A-Za-z0-9_.@-]{0,127}] *)
Definition is_letter (c : ascii) : bool :=
  let n := nat_of_ascii c in ((65 <=? n) && (n <=? 90) || (97 <=? n) && (n <=? 122))%nat.
Definition is_digit (c : ascii) : bool := let n := nat_of_ascii c in ((48 <=? n) && (n <=? 57))%nat.
Definition _FIELD (f : text) : bool :=
  match f with
  | c :: rest => (is_letter c || Ascii.eqb c "@") && (zlen rest <=? 127) &&
      forallb (fun c => is_letter c || is_digit c || among c (str "_.@-")) rest
  | [] => false
  end.

(** [-?\d{1,18}(?:\.\d{1,9})?] *)
Fixpoint span (p : ascii -> bool) (s : text) : text * text :=
  match s with
  | c :: s' => if p c then let '(a, b) := span p s' in (c :: a, b) else ([], s)
  | [] => ([], [])
  end.
Definition _NUMBER (s : text) : bool :=
  let s := match s with c :: s' => if Ascii.eqb c "-" then s' else s | [] => s end in
  let '(whole, rest) := span is_digit s in
  (1 <=? zlen whole) && (zlen whole <=? 18) &&
  match rest with
  | [] => true
  | c :: rest' => Ascii.eqb c "." && (1 <=? zlen rest') && (zlen rest' <=? 9) && forallb is_digit rest'
  end.

(** The cursor and the number of terms so far. *)
Definition st : Type := text * Z.

(** [_single] *)
Definition _single (field q : text) : result QueryError (text * text) :=
  if bool_decide (peek q = Some quote) then quoted (skip q)
  else '(w, r) ← word q; if bool_decide (w = []) then Err (EmptyInGroup field) else Ok (w, r).

(** The values after the first of a group. *)
Fixpoint group (fuel : nat) (field q : text) : result QueryError (list text * text) :=
  match fuel with
  | O => Err OutOfFuel
  | S f =>
      if bool_decide (_op q = Some OR) then
        '(v, r) ← _single field (_take OR q);
        '(vs, r') ← group f field r;
        Ok (v :: vs, r')
      else Ok ([], skip q)
  end.

Definition range_op (q : text) : option text :=
  List.find (fun op => has_prefix op q) [str ">="; str "<="; str ">"; str "<"].

(** [value] *)
Definition value (fuel : nat) (field : text) (s : st) : result QueryError (Term * st) :=
  let '(q, n) := s in
  match q with
  | [] => Err (EmptyValue field)
  | c :: q' =>
      if blank c then Err (EmptyValue field)
      else if Ascii.eqb c quote then
        '(phrase, r) ← quoted q;
        if match r with d :: _ => negb (stop d) | [] => false end then Err AfterQuoted
        else Ok (MkTerm field KPhrase [phrase] [], (r, n))
      else if Ascii.eqb c "(" then
        '(v, r) ← _single field q';
        '(vs, r') ← group fuel field r;
        match skip r' with
        | d :: r'' => if Ascii.eqb d ")" then Ok (MkTerm field KAny (v :: vs) [], (r'', n + zlen vs)) else Err BadGroup
        | [] => Err BadGroup
        end
      else
        match range_op q with
        | Some op =>
            '(num, r) ← word (drop (length op) q);
            if _NUMBER num then Ok (MkTerm field KRange [num] op, (r, n)) else Err NotANumber
        | None =>
            '(w, r) ← word q;
            if bool_decide (w = []) then Err (EmptyValue field)
            else if bool_decide (w = str "*") then Ok (MkTerm field KExists [] [], (r, n))
            else Ok (MkTerm field KValue [w] [], (r, n))
        end
  end.

(** [v.lstrip(_PHRASE)] *)
Fixpoint lstrip_phrase (v : text) : text :=
  match v with c :: v' => if Ascii.eqb c _PHRASE then lstrip_phrase v' else v | [] => [] end.

(** [term] *)
Definition in_field_name (c : ascii) : bool := negb (is_space c || among c [":"%char; "("%char; ")"%char; quote; "\"%char]).
Definition everything (q : text) (n : Z) : result QueryError (node * st) :=
  match q with
  | c :: q' =>
      if Ascii.eqb c "*" && match q' with [] => true | d :: _ => stop d end then Ok (Node ALL [], (q', n)) else Err NoFreeText
  | [] => Err NoFreeText
  end.
Definition term (fuel : nat) (s : st) : result QueryError (node * st) :=
  let '(q, n) := s in
  let q := skip q in
  let '(field, rest) := span in_field_name q in
  match field, rest with
  | _ :: _, c :: rest' =>
      if Ascii.eqb c ":" then
        if negb (_FIELD field) then Err (InvalidField field)
        else if MAX_DETECTION_TERMS <? n + 1 then Err TooManyTerms
        else
          '(t, s') ← value fuel field (rest', n + 1);
          if existsb (fun v => is_label field (lstrip_phrase v)) (match t.(t_values) with [] => [[]] | vs => vs end)
          then Err (PlatformLabel field)
          else Ok (Leaf t, s')
      else everything q n
  | _, _ => everything q n
  end.

Definition one_or (op : nop) (parts : list node) : node := match parts with [p] => p | _ => Node op parts end.

(** [expr], [conj], [unary] and the loops of the first two.  [frames] is what the interpreter's
    recursion limit leaves for calls of these three (the few frames of a lexer call apart): a call
    with none left raises RecursionError. *)
Fixpoint expr (fuel frames : nat) (depth : Z) (s : st) {struct fuel} : result QueryError (node * st) :=
  match fuel, frames with
  | O, _ => Err OutOfFuel
  | _, O => Err RecursionError
  | S f, S fr =>
      if MAX_DEPTH <? depth then Err TooDeep
      else '(p, s') ← conj f fr depth s; expr_loop f fr depth [p] s'
  end
with expr_loop (fuel frames : nat) (depth : Z) (parts : list node) (s : st) {struct fuel} : result QueryError (node * st) :=
  match fuel with
  | O => Err OutOfFuel
  | S f =>
      if bool_decide (_op s.1 = Some OR) then
        '(p, s') ← conj f frames depth (_take OR s.1, s.2); expr_loop f frames depth (parts ++ [p]) s'
      else Ok (one_or OR parts, (skip s.1, s.2))
  end
with conj (fuel frames : nat) (depth : Z) (s : st) {struct fuel} : result QueryError (node * st) :=
  match fuel, frames with
  | O, _ => Err OutOfFuel
  | _, O => Err RecursionError
  | S f, S fr => '(p, s') ← unary f fr depth s; conj_loop f fr depth [p] s'
  end
with conj_loop (fuel frames : nat) (depth : Z) (parts : list node) (s : st) {struct fuel} : result QueryError (node * st) :=
  match fuel with
  | O => Err OutOfFuel
  | S f =>
      match _op s.1 with
      | Some AND => '(p, s') ← unary f frames depth (_take AND s.1, s.2); conj_loop f frames depth (parts ++ [p]) s'
      | op =>
          if (bool_decide (op <> None) && bool_decide (op <> Some NOT)) || bool_decide (peek s.1 = None) || bool_decide (peek s.1 = Some ")"%char)
          then Ok (one_or AND parts, (skip s.1, s.2))
          else '(p, s') ← unary f frames depth (skip s.1, s.2); conj_loop f frames depth (parts ++ [p]) s'
      end
  end
with unary (fuel frames : nat) (depth : Z) (s : st) {struct fuel} : result QueryError (node * st) :=
  match fuel, frames with
  | O, _ => Err OutOfFuel
  | _, O => Err RecursionError
  | S f, S fr =>
      if bool_decide (_op s.1 = Some NOT) then
        '(p, s') ← unary f fr (depth + 1) (_take NOT s.1, s.2); Ok (Node NOT [p], s')
      else
        match skip s.1 with
        | [] => Err ExpectedTerm
        | c :: q' =>
            if Ascii.eqb c "(" then
              '(inner, s') ← expr f fr (depth + 1) (q', s.2);
              match skip s'.1 with
              | d :: q'' => if Ascii.eqb d ")" then Ok (inner, (q'', s'.2)) else Err UnbalancedParenthesis
              | [] => Err UnbalancedParenthesis
              end
            else if Ascii.eqb c ")" then Err ExpectedTerm
            else term f (c :: q', s.2)
        end
  end.

(** Fuel for a query of some length. *)
Definition fuel_for (q : text) : nat := (5 * length q + 10)%nat.

(** [_Parser.parse] *)
Definition parse (frames : nat) (q : text) : result QueryError node :=
  '(n, s) ← expr (fuel_for q) frames 0 (q, 0);
  match peek s.1 with None => Ok n | Some _ => Err Unparseable end.

(** [str.strip] *)
Fixpoint lstrip_text (s : text) : text := match s with c :: s' => if is_space c then lstrip_text s' else s | [] => [] end.
Definition strip_text (s : text) : text := rev (lstrip_text (rev (lstrip_text s))).

(** [parse_detection] *)
Definition parse_detection (frames : nat) (q : option text) : result QueryError node :=
  let q := strip_text (match q with Some q => q | None => [] end) in
  if MAX_DETECTION_LENGTH <? zlen q then Err TooLong
  else if bool_decide (q = []) then Err EmptyQuery
  else if existsb (fun c => (nat_of_ascii c <? 32)%nat && negb (Ascii.eqb c "009")) q then Err ControlCharacters
  else parse frames q.
End Parser.

(** ** The lexer takes characters off the front *)

(** [q'] is what is left of [q]: nothing new, and at least [k] characters fewer. *)
Definition left (k : nat) (q q' : text) : Prop := (length q' + k <= length q)%nat /\ forall c, c ∈ q' -> c ∈ q.

Lemma left_refl q : left 0 q q.
Proof. split; [lia|done]. Qed.
Lemma left_trans j k q q1 q2 : left j q q1 -> left k q1 q2 -> left (j + k) q q2.
Proof. intros [H1 H2] [H3 H4]. split; [lia|auto]. Qed.
Lemma left_weaken j k q q' : left k q q' -> (j <= k)%nat -> left j q q'.
Proof. intros [H1 H2] ?. split; [lia|done]. Qed.
Lemma left_cons c q : left 1 (c :: q) q.
Proof. split; [simpl; lia|]. intros d Hd. by right. Qed.
Lemma left_drop n q : (n <= length q)%nat -> left n q (drop n q).
Proof.
  intros Hn. split; [rewrite length_drop; lia|]. intros c Hc. rewrite <- (take_drop n q). apply elem_of_app. by right.
Qed.

Lemma skip_left q : left 0 q (skip q).
Proof.
  induction q as [|c q IH]; simpl; [apply left_refl|]. destruct (blank c); [|apply left_refl].
  apply (left_weaken 0 1); [|lia]. apply (left_trans 1 0 _ q); [apply left_cons|done].
Qed.

Lemma bare_left q w r : bare q = Ok (w, r) -> left (length w) q r /\ (forall c, c ∈ w -> c ∈ q).
Proof.
  remember (length q) as n eqn:En. revert q w r En. induction n as [n IH] using lt_wf_ind. intros q w r -> Hb.
  destruct q as [|c q]; simpl in Hb; [injection Hb as <- <-; split; [apply left_refl|done]|].
  destruct (stop c); [injection Hb as <- <-; split; [apply left_refl|]; by intros d ?%elem_of_nil|].
  destruct (Ascii.eqb c "\").
  - destruct q as [|d q]; [done|]. destruct (bare q) as [[w' r']|] eqn:E; [|done]. injection Hb as <- <-.
    destruct (IH (length q)) with (q := q) (w := w') (r := r') as [H1 H2]; [simpl; lia|done|done|]. split.
    + apply (left_weaken _ (1 + (1 + length w'))); [|simpl; lia].
      eapply left_trans; [apply left_cons|]. eapply left_trans; [apply left_cons|done].
    + intros x [->|Hx]%elem_of_cons; [right; by left|right; right; auto].
  - destruct (refused c); [done|]. destruct (bare q) as [[w' r']|] eqn:E; [|done]. injection Hb as <- <-.
    destruct (IH (length q)) with (q := q) (w := w') (r := r') as [H1 H2]; [simpl; lia|done|done|]. split.
    + apply (left_trans 1 (length w') _ q); [apply left_cons|done].
    + intros x [->|Hx]%elem_of_cons; [by left|right; auto].
Qed.

Lemma word_left q w r : word q = Ok (w, r) -> left (length w) q r /\ (forall c, c ∈ w -> c ∈ q).
Proof.
  intros Hw. apply bare_left in Hw as [H1 H2]. pose proof (skip_left q) as Hs. split.
  - eapply (left_trans 0); [exact Hs|done].
  - intros c Hc. apply Hs, H2, Hc.
Qed.

Lemma closing_left q w r : closing q = Ok (w, r) -> w = [] /\ r = q.
Proof. unfold closing. destruct q as [|c q]; [|case_match]; intros E; by simplify_eq. Qed.

Lemma quoted_body_left q w r : quoted_body q = Ok (w, r) -> left 1 q r.
Proof.
  remember (length q) as n eqn:En. revert q w r En. induction n as [n IH] using lt_wf_ind. intros q w r -> Hb.
  destruct q as [|c q]; simpl in Hb; [done|].
  assert (Hplain : (if Ascii.eqb c quote then closing q else '(w, r) ← quoted_body q; Ok (c :: w, r)) = Ok (w, r) -> left 1 (c :: q) r).
  { destruct (Ascii.eqb c quote).
    - intros [-> ->]%closing_left. apply left_cons.
    - destruct (quoted_body q) as [[w' r']|] eqn:E; [|done]. intros [= <- <-].
      apply (left_weaken _ (1 + 1)); [|lia]. eapply left_trans; [apply left_cons|].
      by apply (IH (length q) ltac:(simpl; lia) q w' r'). }
  destruct q as [|d q]; [by apply Hplain|]. destruct (Ascii.eqb c "\"); [|by apply Hplain].
  destruct (quoted_body q) as [[w' r']|] eqn:E; [|done]. injection Hb as <- <-.
  apply (left_weaken _ (1 + (1 + 1))); [|lia]. eapply left_trans; [apply left_cons|]. eapply left_trans; [apply left_cons|].
  by apply (IH (length q) ltac:(simpl; lia) q w' r').
Qed.

Lemma quoted_left c q w r : quoted (c :: q) = Ok (w, r) -> left 1 (c :: q) r /\ exists w', w = _PHRASE :: w'.
Proof.
  unfold quoted; simpl. destruct (quoted_body q) as [[w' r']|] eqn:E; [|done]. intros [= <- <-].
  apply quoted_body_left in E. split; [|by eexists]. apply (left_weaken _ (1 + 1)); [|lia].
  eapply left_trans; [apply left_cons|done].
Qed.

Lemma has_prefix_app p s : has_prefix p s = true <-> exists r, s = p ++ r.
Proof.
  revert s; induction p as [|a p IH]; intros s; simpl; [split; [by exists s|done]|].
  destruct s as [|b s]; [split; [done|by intros [r [=]]]|].
  rewrite andb_true_iff, IH, Ascii.eqb_eq. split.
  - intros [-> [r ->]]. by exists r.
  - intros [r [= -> ->]]. split; [done|by exists r].
Qed.

Lemma has_prefix_left p s : has_prefix p s = true -> left (length p) s (drop (length p) s).
Proof. intros [r ->]%has_prefix_app. apply left_drop. rewrite length_app. lia. Qed.

Lemma op_in tok o : (tok, o) ∈ _OPERATORS -> (1 <= length tok)%nat.
Proof.
  intros Hin. unfold _OPERATORS in Hin. rewrite !elem_of_cons, elem_of_nil in Hin.
  destruct Hin as [[= -> ->]|[[= -> ->]|[[= -> ->]|[[= -> ->]|[[= -> ->]|[[= -> ->]|[]]]]]]]; simpl; lia.
Qed.

(** The operator found is taken off. *)
Lemma take_left o q : _op q = Some o -> left 1 q (_take o q).
Proof.
  unfold _op, _take. intros Ho.
  destruct (List.find (fun to => has_prefix to.1 (skip q) && boundary to.1 (skip q)) _OPERATORS) as [[tok o']|] eqn:E; [|done].
  injection Ho as ->. apply find_some in E as [Hin Hp]. apply andb_true_iff in Hp as [Hp _].
  destruct (List.find _ _) as [[tok2 o2]|] eqn:E2.
  - apply find_some in E2 as [Hin2 Hp2]. apply andb_true_iff in Hp2 as [_ Hp2].
    apply list_elem_of_In, op_in in Hin2. apply (left_weaken 1 (0 + length tok2)); [|simpl; lia].
    eapply left_trans; [apply skip_left|by apply has_prefix_left].
  - apply (find_none _ _ E2) in Hin. simpl in *. rewrite Hp, bool_decide_eq_true_2 in Hin by done. done.
Qed.

Section Results.
Context (fnmatch_brackets : text -> bool).
#[local] Notation is_label := (is_label fnmatch_brackets).
#[local] Notation term := (term fnmatch_brackets).
#[local] Notation expr := (expr fnmatch_brackets).
#[local] Notation expr_loop := (expr_loop fnmatch_brackets).
#[local] Notation conj := (conj fnmatch_brackets).
#[local] Notation conj_loop := (conj_loop fnmatch_brackets).
#[local] Notation unary := (unary fnmatch_brackets).
#[local] Notation parse := (parse fnmatch_brackets).
#[local] Notation parse_detection := (parse_detection fnmatch_brackets).

(** ** Values and terms *)

Definition shaped (t : Term) : Prop :=
  match t.(t_kind) with
  | KValue => t.(t_op) = [] /\ exists w, t.(t_values) = [w] /\ w <> [] /\ w <> str "*"
  | KPhrase => t.(t_op) = [] /\ exists w, t.(t_values) = [_PHRASE :: w]
  | KExists => t.(t_op) = [] /\ t.(t_values) = []
  | KRange => t.(t_op) ∈ [str ">="; str "<="; str ">"; str "<"] /\ exists n, t.(t_values) = [n] /\ _NUMBER n = true
  | KAny => t.(t_op) = [] /\ exists v vs, t.(t_values) = v :: vs /\ Forall (fun x => x <> []) (v :: vs)
  end.
(** The characters of a bare value come from the query. *)
Definition drawn_from (q : text) (t : Term) : Prop :=
  t.(t_kind) = KValue -> forall v c, v ∈ t.(t_values) -> c ∈ v -> c ∈ q.
(** A valid field, no label. *)
Definition allowed (t : Term) : Prop :=
  _FIELD t.(t_field) = true /\
  forall v, v ∈ (match t.(t_values) with [] => [[]] | vs => vs end) -> is_label t.(t_field) (lstrip_phrase v) = false.

(** What is no QueryError: the lexer and the values never raise it, but for a group out of fuel. *)
Definition internal (e : QueryError) : Prop := e = RecursionError \/ e = OutOfFuel.
Ltac other_error He := first [done | congruence | destruct He as [-> | ->]; first [done | congruence]].

Lemma bare_fuel e q : internal e -> bare q <> Err e.
Proof.
  intros He.
  remember (length q) as n eqn:En. revert q En. induction n as [n IH] using lt_wf_ind. intros q ->.
  destruct q as [|c q]; simpl; [done|]. destruct (stop c); [done|]. destruct (Ascii.eqb c "\").
  - destruct q as [|d q]; [other_error He|]. pose proof (IH (length q) ltac:(simpl; lia) q eq_refl).
    destruct (bare q) as [[]|]; simpl; [done|congruence].
  - destruct (refused c); [other_error He|]. pose proof (IH (length q) ltac:(simpl; lia) q eq_refl).
    destruct (bare q) as [[]|]; simpl; [done|congruence].
Qed.

Lemma quoted_fuel e q : internal e -> quoted q <> Err e.
Proof.
  intros He.
  assert (Hb : forall n q, (length q <= n)%nat -> quoted_body q <> Err e).
  { induction n as [|n IH]; intros [|c p] Hn; simpl in Hn |- *; try other_error He; try lia.
    assert (Hp : (if Ascii.eqb c quote then closing p else '(w, r) ← quoted_body p; Ok (c :: w, r)) <> Err e).
    { destruct (Ascii.eqb c quote); [unfold closing; destruct p; [done|case_match; other_error He]|].
      pose proof (IH p ltac:(lia)). destruct (quoted_body p) as [[]|]; simpl; [done|congruence]. }
    destruct p as [|d p]; [exact Hp|]. destruct (Ascii.eqb c "\"); [|exact Hp]. simpl in Hn.
    pose proof (IH p ltac:(lia)). destruct (quoted_body p) as [[]|]; simpl; [done|congruence]. }
  unfold quoted. pose proof (Hb _ (tail q) (le_n _)). destruct (quoted_body _) as [[]|]; simpl; [done|congruence].
Qed.

Lemma single_spec field q : (forall e, internal e -> _single field q <> Err e) /\
  forall v r, _single field q = Ok (v, r) -> left 1 q r /\ v <> [].
Proof.
  unfold _single. case_bool_decide as Hp.
  - split; [intros e He; by apply quoted_fuel|]. intros v r Hq. unfold peek in Hp. destruct (skip q) as [|c q'] eqn:E; [done|].
    apply quoted_left in Hq as [Hl [w ->]]. split; [|done]. eapply (left_trans 0 1); [|exact Hl]. rewrite <- E. apply skip_left.
  - split.
    + intros e He. unfold word. pose proof (bare_fuel e (skip q) He). destruct (bare _) as [[]|]; simpl; [case_bool_decide; other_error He|congruence].
    + intros v r Hv. destruct (word q) as [[w r']|] eqn:E; simpl in Hv; [|done]. case_bool_decide; [done|]. injection Hv as <- <-.
      apply word_left in E as [Hl _]. split; [|done]. eapply left_weaken; [exact Hl|]. destruct w; [done|simpl; lia].
Qed.

Lemma group_spec e fuel field q : internal e -> (length q < fuel)%nat \/ e <> OutOfFuel -> group fuel field q <> Err e.
Proof.
  intros He. revert q; induction fuel as [|f IH]; intros q Hf; simpl; [destruct He as [-> | ->]; [done|destruct Hf; [lia|congruence]]|].
  case_bool_decide as Ho; [|done].
  apply take_left in Ho as [Hl _]. destruct (single_spec field (_take OR q)) as [Hs Hs']. specialize (Hs e He).
  destruct (_single field (_take OR q)) as [[v r]|]; simpl; [|congruence]. destruct (Hs' v r eq_refl) as [[Hr _] _].
  assert (Hn : group f field r <> Err e) by (apply IH; destruct Hf; [left; lia|by right]).
  destruct (group f field r) as [[]|]; simpl; [done|congruence].
Qed.

Lemma group_left fuel field q vs r : group fuel field q = Ok (vs, r) -> left 0 q r /\ Forall (fun x => x <> []) vs.
Proof.
  revert q vs; induction fuel as [|f IH]; intros q vs Hg; [done|]. simpl in Hg. case_bool_decide as Ho.
  - apply take_left in Ho. destruct (_single field (_take OR q)) as [[v r1]|] eqn:Es; simpl in Hg; [|done].
    apply single_spec in Es as [Hs Hv]. destruct (group f field r1) as [[vs' r2]|] eqn:Eg; simpl in Hg; [|done].
    injection Hg as <- <-. apply IH in Eg as [Hl Hvs]. split; [|by constructor].
    apply (left_weaken _ (1 + (1 + 0))); [|lia]. eapply left_trans; [exact Ho|]. by eapply left_trans.
  - injection Hg as <- <-. split; [apply skip_left|constructor].
Qed.

Lemma value_fuel e fuel field q n :
  internal e -> (length q < fuel)%nat \/ e <> OutOfFuel -> value fuel field (q, n) <> Err e.
Proof.
  intros He Hf. unfold value. destruct q as [|c q]; [other_error He|]. destruct (blank c); [other_error He|].
  destruct (Ascii.eqb c quote).
  { pose proof (quoted_fuel e (c :: q) He). destruct (quoted _) as [[]|]; simpl; [case_match; other_error He|congruence]. }
  destruct (Ascii.eqb c "(").
  { destruct (single_spec field q) as [Hs Hs']. specialize (Hs e He). destruct (_single field q) as [[v r]|]; simpl; [|congruence].
    destruct (Hs' v r eq_refl) as [[Hr _] _]. simpl in Hf.
    assert (Hg : group fuel field r <> Err e) by (apply group_spec; [done|]; destruct Hf; [left; lia|by right]).
    destruct (group fuel field r) as [[vs r']|]; simpl; [|congruence]. destruct (skip r'); [other_error He|case_match; other_error He]. }
  destruct (range_op _) as [op|].
  - unfold word. pose proof (bare_fuel e (skip (drop (length op) (c :: q))) He).
    destruct (bare _) as [[]|]; simpl; [case_match; other_error He|congruence].
  - unfold word. pose proof (bare_fuel e (skip (c :: q)) He).
    destruct (bare _) as [[]|]; simpl; [repeat case_bool_decide; other_error He|congruence].
Qed.

Lemma value_spec fuel field q n t r n' : value fuel field (q, n) = Ok (t, (r, n')) ->
  left 0 q r /\ n <= n' /\ t_field t = field /\ shaped t /\ drawn_from q t.
Proof.
  unfold value. destruct q as [|c q]; [done|]. destruct (blank c); [done|]. destruct (Ascii.eqb c quote).
  { destruct (quoted (c :: q)) as [[p r1]|] eqn:Eq; simpl; [|done]. case_match; [done|]. intros [= <- <- <-].
    apply quoted_left in Eq as [Hl [w ->]]. split; [eapply left_weaken; [exact Hl|lia]|]. split; [lia|]. split; [done|].
    split; [split; [done|by exists w]|done]. }
  destruct (Ascii.eqb c "(").
  { destruct (_single field q) as [[v r1]|] eqn:Es; simpl; [|done]. apply single_spec in Es as [Hs Hv].
    destruct (group fuel field r1) as [[vs r2]|] eqn:Eg; simpl; [|done]. apply group_left in Eg as [Hg Hvs].
    pose proof (skip_left r2) as Hk. destruct (skip r2) as [|d r3]; [done|]. destruct (Ascii.eqb d ")"); [|done].
    intros [= <- <- <-]. split.
    - apply (left_weaken _ (1 + (1 + (0 + (0 + 1))))); [|lia]. eapply left_trans; [apply left_cons|].
      eapply left_trans; [exact Hs|]. eapply left_trans; [exact Hg|]. eapply left_trans; [exact Hk|apply left_cons].
    - split; [pose proof (zlen_nonneg vs); lia|]. split; [done|]. split; [|done]. split; [done|]. exists v, vs. split; [done|by constructor]. }
  destruct (range_op (c :: q)) as [op|] eqn:Eo.
  - unfold range_op in Eo. apply find_some in Eo as [Hin Hp]. apply list_elem_of_In in Hin.
    destruct (word (drop (length op) (c :: q))) as [[w r1]|] eqn:Ew; simpl; [|done]. destruct (_NUMBER w) eqn:En; [|done].
    intros [= <- <- <-]. apply word_left in Ew as [Hl _]. apply has_prefix_left in Hp. split.
    + eapply (left_weaken 0); [eapply left_trans; [exact Hp|exact Hl]|lia].
    + split; [lia|]. split; [done|]. split; [|done]. split; [done|]. by exists w.
  - destruct (word (c :: q)) as [[w r1]|] eqn:Ew; simpl; [|done]. case_bool_decide as H1; [done|].
    apply word_left in Ew as [Hl Hc]. apply (left_weaken 0) in Hl; [|lia].
    case_bool_decide as H2; intros [= <- <- <-]; (split; [done|]); (split; [lia|]); (split; [done|]); split.
    + by split.
    + done.
    + split; [done|]. by exists w.
    + intros _ v d ->%list_elem_of_singleton. apply Hc.
Qed.

Lemma span_app p s a b : span p s = (a, b) -> s = a ++ b /\ Forall (fun c => p c = true) a.
Proof.
  revert a b; induction s as [|c s IH]; intros a b; simpl; [intros [= <- <-]; by split|].
  destruct (p c) eqn:E; [|intros [= <- <-]; by split]. destruct (span p s) as [a' b'] eqn:Es. intros [= <- <-].
  destruct (IH _ _ eq_refl) as [-> Hf]. split; [done|by constructor].
Qed.

(** What [term] returns. *)
Definition new_leaf (q : text) (n : Z) (nd : node) (n' : Z) : Prop :=
  (nd = Node ALL [] /\ n' = n) \/
  exists t, nd = Leaf t /\ n + 1 <= n' /\ n + 1 <= MAX_DETECTION_TERMS /\ allowed t /\ shaped t /\ drawn_from q t.

Lemma term_fuel e fuel q n :
  internal e -> (length q < fuel)%nat \/ e <> OutOfFuel -> term fuel (q, n) <> Err e.
Proof.
  intros Hi Hf. unfold DetectionQuery.term.
  assert (He : forall q, everything q n <> Err e) by (intros []; unfold everything; [|case_match]; other_error Hi).
  pose proof (skip_left q) as [Hk _].
  destruct (span in_field_name (skip q)) as [[|c0 field] rest] eqn:Es; [apply He|]. destruct rest as [|c rest']; [apply He|].
  apply span_app in Es as [Es _]. rewrite Es in Hk. simpl in Hk. rewrite length_app in Hk. simpl in Hk.
  destruct (Ascii.eqb c ":"); [|apply He]. case_match; [other_error Hi|]. case_match; [other_error Hi|].
  assert (Hv : value fuel (c0 :: field) (rest', n + 1) <> Err e) by (apply value_fuel; [done|]; destruct Hf; [left; lia|by right]).
  destruct (value _ _ _) as [[t s']|]; simpl; [case_match; other_error Hi|congruence].
Qed.

Lemma term_spec fuel q n nd r n' : term fuel (q, n) = Ok (nd, (r, n')) -> left 1 q r /\ new_leaf q n nd n'.
Proof.
  unfold DetectionQuery.term. pose proof (skip_left q) as Hk.
  assert (He : everything (skip q) n = Ok (nd, (r, n')) -> left 1 q r /\ new_leaf q n nd n').
  { unfold everything. destruct (skip q) as [|c q'] eqn:Eq; [done|]. case_match; [|done]. intros [= <- <- <-].
    split; [|by left]. eapply (left_trans 0 1); [exact Hk|apply left_cons]. }
  destruct (span in_field_name (skip q)) as [[|c0 field] rest] eqn:Es; [exact He|]. destruct rest as [|c rest']; [exact He|].
  apply span_app in Es as [Es _]. destruct (Ascii.eqb c ":"); [|exact He].
  destruct (_FIELD (c0 :: field)) eqn:Ef; [|done]. simpl negb. cbv iota.
  destruct (MAX_DETECTION_TERMS <? n + 1) eqn:En; [done|].
  destruct (value fuel (c0 :: field) (rest', n + 1)) as [[t [r1 n1]]|] eqn:Ev; simpl; [|done].
  destruct (existsb _ _) eqn:El; [done|]. intros [= <- <- <-]. apply value_spec in Ev as (Hl & Hn & Htf & Hsh & Hdr).
  assert (Hrest : left 1 q rest').
  { rewrite Es in Hk. apply (left_weaken 1 (0 + (length (c0 :: field) + 1))); [|simpl; lia].
    eapply left_trans; [exact Hk|]. split; [rewrite length_app; simpl; lia|]. intros d Hd. apply elem_of_app. right. by right. }
  split; [apply (left_trans 1 0 _ rest'); done|]. right. exists t. reflect_bools. split; [done|]. split; [lia|]. split; [lia|].
  split; [|split; [done|]].
  - split; [by rewrite Htf|]. intros v Hv. rewrite Htf. apply not_true_iff_false. intros Ht.
    assert (existsb (fun v => is_label (c0 :: field) (lstrip_phrase v)) (match t_values t with [] => [[]] | vs => vs end) = true); [|congruence].
    apply existsb_exists. exists v. split; [by apply list_elem_of_In|done].
  - intros Hkv v d Hv Hd. apply Hrest. by apply (Hdr Hkv v).
Qed.

(** ** The parser returns, and consumes what it reads *)

(** A call on [q] with enough fuel: not out of fuel, and what it leaves. *)
Definition returns (k : nat) (q : text) (r : result QueryError (node * st)) : Prop :=
  r <> Err OutOfFuel /\ forall nd s', r = Ok (nd, s') -> left k q s'.1.

Lemma returns_bind k q (r : result QueryError (node * st)) f :
  returns k q r -> (forall nd s', r = Ok (nd, s') -> returns 0 s'.1 (f (nd, s'))) -> returns k q (r ≫= f).
Proof.
  intros [Hr1 Hr2] Hf. destruct r as [[nd s']|e]; simpl; [|split; [congruence|done]].
  destruct (Hf nd s' eq_refl) as [H1 H2]. split; [done|]. intros nd2 s2 H3. specialize (H2 _ _ H3). specialize (Hr2 _ _ eq_refl).
  rewrite <- (Nat.add_0_r k). by eapply left_trans.
Qed.
Lemma returns_left j k q q' r : left j q q' -> returns k q' r -> returns (j + k) q r.
Proof. intros Hl [H1 H2]. split; [done|]. intros nd s' Hr. eapply left_trans; [exact Hl|by eapply H2]. Qed.
Lemma returns_weaken j k q r : returns k q r -> (j <= k)%nat -> returns j q r.
Proof. intros [H1 H2] Hj. split; [done|]. intros nd s' Hr. eapply left_weaken; [by eapply H2|done]. Qed.
Lemma returns_err k q e : e <> OutOfFuel -> returns k q (Err e).
Proof. intros He. split; [congruence|done]. Qed.
Lemma returns_ok k q nd s' : left k q s'.1 -> returns k q (Ok (nd, s')).
Proof. intros Hl. split; [done|]. by intros nd' s2 [= <- <-]. Qed.

Lemma parser_returns fuel : forall frames depth parts q n,
  ((5 * length q + 4 <= fuel)%nat -> returns 1 q (expr fuel frames depth (q, n))) /\
  ((5 * length q + 4 <= fuel)%nat -> returns 0 q (expr_loop fuel frames depth parts (q, n))) /\
  ((5 * length q + 3 <= fuel)%nat -> returns 1 q (conj fuel frames depth (q, n))) /\
  ((5 * length q + 3 <= fuel)%nat -> returns 0 q (conj_loop fuel frames depth parts (q, n))) /\
  ((5 * length q + 2 <= fuel)%nat -> returns 1 q (unary fuel frames depth (q, n))).
Proof.
  induction fuel as [|f IH]; intros frames depth parts q n.
  { repeat split; intros; exfalso; lia. }
  assert (Hshort : forall k nd s', returns k q (Ok (nd, s')) -> (length s'.1 + k <= length q)%nat).
  { intros k nd s' [_ Hr]. by destruct (Hr _ _ eq_refl). }
  split; [|split; [|split; [|split]]]; intros Hf; simpl.
  - destruct frames as [|fr]; [by apply returns_err|]. destruct (MAX_DEPTH <? depth); [by apply returns_err|]. destruct (IH fr depth parts q n) as (_ & _ & Hc & _).
    specialize (Hc ltac:(lia)). apply returns_bind; [done|]. intros nd [q' n'] Hr. rewrite Hr in Hc. apply Hshort in Hc.
    simpl in Hc |- *. apply IH. lia.
  - case_bool_decide as Ho; [|apply returns_ok, skip_left]. pose proof (take_left _ _ Ho) as Hl. pose proof Hl as [Hlen _].
    apply (returns_weaken _ (1 + 1)); [|lia]. apply (returns_left 1 1 _ _ _ Hl).
    destruct (IH frames depth parts (_take OR q) n) as (_ & _ & Hc & _). specialize (Hc ltac:(lia)).
    apply returns_bind; [done|]. intros nd [q' n'] Hr. destruct Hc as [_ Hc]. specialize (Hc _ _ Hr) as [Hc _].
    simpl in Hc |- *. apply IH. lia.
  - destruct frames as [|fr]; [by apply returns_err|]. destruct (IH fr depth parts q n) as (_ & _ & _ & _ & Hu). specialize (Hu ltac:(lia)). apply returns_bind; [done|].
    intros nd [q' n'] Hr. rewrite Hr in Hu. apply Hshort in Hu. simpl in Hu |- *. apply IH. lia.
  - assert (Hstep : forall j q1, left j q q1 -> returns 0 q ('(p, s') ← unary f frames depth (q1, n); conj_loop f frames depth (parts ++ [p]) s')).
    { intros j q1 Hl. pose proof Hl as [Hlen _]. apply (returns_weaken _ (j + 1)); [|lia]. apply (returns_left j 1 _ _ _ Hl).
      destruct (IH frames depth parts q1 n) as (_ & _ & _ & _ & Hu). specialize (Hu ltac:(lia)). apply returns_bind; [done|].
      intros nd [q' n'] Hr. destruct Hu as [_ Hu]. specialize (Hu _ _ Hr) as [Hu _]. simpl in Hu |- *. apply IH. lia. }
    destruct (_op q) as [[]|] eqn:Eo; cbn [fst snd]; 
      [|apply returns_ok, skip_left|case_match; [apply returns_ok, skip_left|apply (Hstep 0%nat), skip_left]
      |apply returns_ok, skip_left|case_match; [apply returns_ok, skip_left|apply (Hstep 0%nat), skip_left]].
    apply (Hstep 1%nat). by apply take_left.
  - destruct frames as [|fr]; [by apply returns_err|]. case_bool_decide as Ho.
    { pose proof (take_left _ _ Ho) as Hl. pose proof Hl as [Hlen _]. apply (returns_weaken _ (1 + 1)); [|lia].
      apply (returns_left 1 1 _ _ _ Hl). destruct (IH fr (depth + 1) parts (_take NOT q) n) as (_ & _ & _ & _ & Hu).
      specialize (Hu ltac:(lia)). apply returns_bind; [done|]. intros nd s' _. apply returns_ok, left_refl. }
    pose proof (skip_left q) as Hk. destruct (skip q) as [|c q'] eqn:Eq; [by apply returns_err|]. pose proof Hk as [Hlen _]. simpl in Hlen.
    destruct (Ascii.eqb c "(").
    + apply (returns_weaken _ (1 + 1)); [|lia]. apply (returns_left 1 1 _ q'); [eapply (left_trans 0 1); [exact Hk|apply left_cons]|].
      destruct (IH fr (depth + 1) parts q' n) as (He & _). specialize (He ltac:(lia)). apply returns_bind; [done|].
      intros nd [q2 n2] _. simpl. pose proof (skip_left q2) as Hk2. destruct (skip q2) as [|d q3]; [by apply returns_err|].
      case_match; [|by apply returns_err]. apply returns_ok. apply (left_weaken 0 (0 + 1)); [|lia].
      eapply left_trans; [exact Hk2|apply left_cons].
    + destruct (Ascii.eqb c ")"); [by apply returns_err|]. split.
      * apply (term_fuel OutOfFuel f (c :: q') n); [by right|]. left. simpl. lia.
      * intros nd [r n'] Ht. destruct (term_spec f (c :: q') n nd r n' Ht) as [Hl _]. by eapply (left_trans 0 1).
Qed.

(** ** What an accepted query holds *)

Fixpoint leaves (n : node) : list Term :=
  match n with Leaf t => [t] | Node _ cs => flat_map leaves cs end.

(** What parsing a part of [q] with [n] terms counted so far adds. *)
Definition adds (q : text) (n : Z) (ts : list Term) (n' : Z) : Prop :=
  n + zlen ts <= n' /\ (ts = [] \/ n + zlen ts <= MAX_DETECTION_TERMS) /\
  Forall (fun t => allowed t /\ shaped t /\ drawn_from q t) ts.

Lemma adds_nil q n : adds q n [] n.
Proof. split; [rewrite zlen_nil; lia|]. split; [by left|constructor]. Qed.
Lemma adds_left k q q' n ts n' : left k q q' -> adds q' n ts n' -> adds q n ts n'.
Proof.
  intros Hl (H1 & H2 & H3). split; [done|]. split; [done|]. eapply Forall_impl; [exact H3|].
  intros t (Ha & Hs & Hd). split; [done|]. split; [done|]. intros Hk v c Hv Hc. by apply Hl, (Hd Hk v).
Qed.
Lemma adds_app q n ts n1 ts' n2 : adds q n ts n1 -> adds q n1 ts' n2 -> adds q n (ts ++ ts') n2.
Proof.
  intros (H1 & H2 & H3) (H4 & H5 & H6). pose proof (zlen_nonneg ts). pose proof (zlen_nonneg ts').
  split; [rewrite zlen_app; lia|]. split; [|by apply Forall_app].
  destruct H5 as [->|H5]; [rewrite app_nil_r; done|]. right. rewrite zlen_app. lia.
Qed.

Lemma leaves_one_or op parts : leaves (one_or op parts) = flat_map leaves parts.
Proof. destruct parts as [|p [|p' ps]]; simpl; rewrite ?app_nil_r; done. Qed.
Lemma flat_map_snoc parts p : flat_map leaves (parts ++ [p]) = flat_map leaves parts ++ leaves p.
Proof. rewrite flat_map_app. simpl. by rewrite app_nil_r. Qed.

(** [step q n r pre]: if [r] returned, it read part of [q], and its terms are those of [pre] and new ones. *)
Definition gives (q : text) (n : Z) (pre : list Term) (r : result QueryError (node * st)) : Prop :=
  forall nd s', r = Ok (nd, s') -> left 0 q s'.1 /\ exists ts, leaves nd = pre ++ ts /\ adds q n ts s'.2.

Lemma gives_bind q n pre pre' (r : result QueryError (node * st)) f :
  gives q n pre r ->
  (forall nd s' ts, r = Ok (nd, s') -> leaves nd = pre ++ ts -> gives s'.1 s'.2 (pre' ++ ts) (f (nd, s'))) ->
  gives q n pre' (r ≫= f).
Proof.
  intros Hr Hf nd2 s2 H2. destruct r as [[nd s']|]; [|done]. simpl in H2.
  destruct (Hr _ _ eq_refl) as (Hl & ts & Hts & Ha). destruct (Hf _ _ ts eq_refl Hts _ _ H2) as (Hl2 & ts2 & Hts2 & Ha2).
  split; [by eapply (left_trans 0 0)|]. exists (ts ++ ts2). split; [by rewrite Hts2, app_assoc|].
  eapply adds_app; [exact Ha|]. by eapply adds_left.
Qed.
Lemma gives_left k q q' n pre r : left k q q' -> gives q' n pre r -> gives q n pre r.
Proof.
  intros Hl Hr nd s' H. destruct (Hr _ _ H) as (Hl2 & ts & Hts & Ha). split.
  - apply (left_weaken 0 (k + 0)); [by eapply left_trans|lia].
  - exists ts. split; [done|]. by eapply adds_left.
Qed.
Lemma gives_ok q n nd q' : left 0 q q' -> gives q n (leaves nd) (Ok (nd, (q', n))).
Proof. intros Hl nd2 s2 [= <- <-]. split; [done|]. exists []. rewrite app_nil_r. split; [done|apply adds_nil]. Qed.
Lemma gives_err q n pre e : gives q n pre (Err e).
Proof. by intros nd s'. Qed.

Lemma parser_gives fuel : forall frames depth parts q n,
  gives q n [] (expr fuel frames depth (q, n)) /\
  gives q n (flat_map leaves parts) (expr_loop fuel frames depth parts (q, n)) /\
  gives q n [] (conj fuel frames depth (q, n)) /\
  gives q n (flat_map leaves parts) (conj_loop fuel frames depth parts (q, n)) /\
  gives q n [] (unary fuel frames depth (q, n)).
Proof.
  induction fuel as [|f IH]; intros frames depth parts q n; [refine (Logic.conj _ (Logic.conj _ (Logic.conj _ (Logic.conj _ _)))); apply gives_err|].
  assert (Hloop : forall q1 (loop : list node -> st -> result QueryError (node * st)) r, left 0 q q1 -> gives q1 n [] r ->
    (forall ps q2 n2, gives q2 n2 (flat_map leaves ps) (loop ps (q2, n2))) -> forall ps,
    gives q n (flat_map leaves ps) ('(p, s') ← r; loop (ps ++ [p]) s')).
  { intros q1 loop r Hl Hr Hlp ps. eapply gives_left; [exact Hl|]. eapply gives_bind; [exact Hr|].
    intros nd [q2 n2] ts _ Hts. simpl in Hts |- *. rewrite <- Hts, <- flat_map_snoc. apply Hlp. }
  assert (Hel : forall fr d ps q2 n2, gives q2 n2 (flat_map leaves ps) (expr_loop f fr d ps (q2, n2))) by (intros; apply IH).
  assert (Hcl : forall fr d ps q2 n2, gives q2 n2 (flat_map leaves ps) (conj_loop f fr d ps (q2, n2))) by (intros; apply IH).
  split; [|split; [|split; [|split]]]; simpl.
  - destruct frames as [|fr]; [apply gives_err|]. destruct (MAX_DEPTH <? depth); [apply gives_err|]. apply (Hloop q (expr_loop f fr depth) _ (left_refl q)) with (ps := []); [apply (IH fr depth [])|apply Hel].
  - case_bool_decide as Ho; [|rewrite <- (leaves_one_or OR); apply gives_ok, skip_left].
    apply (Hloop (_take OR q) (expr_loop f frames depth)); [eapply left_weaken; [by apply take_left|lia]|apply (IH frames depth [])|apply Hel].
  - destruct frames as [|fr]; [apply gives_err|]. apply (Hloop q (conj_loop f fr depth) _ (left_refl q)) with (ps := []); [apply (IH fr depth [])|apply Hcl].
  - assert (Hstop : gives q n (flat_map leaves parts) (Ok (one_or AND parts, (skip q, n))))
      by (rewrite <- (leaves_one_or AND); apply gives_ok, skip_left).
    assert (Hgo : forall q1, left 0 q q1 -> gives q n (flat_map leaves parts) ('(p, s') ← unary f frames depth (q1, n); conj_loop f frames depth (parts ++ [p]) s'))
      by (intros q1 Hl; apply (Hloop q1 (conj_loop f frames depth)); [done|apply (IH frames depth [])|apply Hcl]).
    destruct (_op q) as [[]|] eqn:Eo; cbn [fst snd]; 
      [|exact Hstop|case_match; [exact Hstop|apply Hgo, skip_left]|exact Hstop|case_match; [exact Hstop|apply Hgo, skip_left]].
    apply Hgo. eapply left_weaken; [by apply take_left|lia].
  - destruct frames as [|fr]; [apply gives_err|]. case_bool_decide as Ho.
    { eapply gives_left; [by apply take_left|]. eapply gives_bind; [apply (IH fr (depth + 1) [])|].
      intros nd [q2 n2] ts _ Hts. simpl in Hts |- *. rewrite <- Hts, <- (app_nil_r (leaves nd)). apply (gives_ok _ _ (Node NOT [nd])), left_refl. }
    pose proof (skip_left q) as Hk. destruct (skip q) as [|c q'] eqn:Eq; [apply gives_err|].
    destruct (Ascii.eqb c "(").
    + eapply gives_left; [eapply (left_trans 0 1); [exact Hk|apply left_cons]|]. eapply gives_bind; [apply (IH fr (depth + 1) [])|].
      intros nd [q2 n2] ts _ Hts. simpl in Hts |- *. rewrite <- Hts. pose proof (skip_left q2) as Hk2.
      destruct (skip q2) as [|d q3]; [apply gives_err|]. case_match; [|apply gives_err]. apply gives_ok.
      apply (left_weaken 0 (0 + 1)); [|lia]. eapply left_trans; [exact Hk2|apply left_cons].
    + destruct (Ascii.eqb c ")"); [apply gives_err|]. eapply gives_left; [exact Hk|].
      intros nd [r n'] Ht. destruct (term_spec f (c :: q') n nd r n' Ht) as [Hl Hn]. split; [eapply left_weaken; [exact Hl|lia]|]. simpl.
      destruct Hn as [[-> ->]|(t & -> & H1 & H2 & H3)]; [exists []; split; [done|apply adds_nil]|].
      exists [t]. split; [done|]. unfold adds. rewrite zlen_cons, zlen_nil. split; [lia|]. split; [right; lia|].
      by constructor.
Qed.

(** ** Frames *)

(** Levels of parentheses still open to a call at some depth. *)
Definition room (depth : Z) : nat := Z.to_nat (MAX_DEPTH + 1 - depth).

Lemma gives_length {q n pre r nd s'} : gives q n pre r -> r = Ok (nd, s') -> (length s'.1 <= length q)%nat.
Proof. intros Hg Hr. destruct (Hg _ _ Hr) as [[Hl _] _]. lia. Qed.

(** A loop's turn: a call with frames enough, then the loop on what it left. *)
Lemma frames_bind q n pre (r : result QueryError (node * st)) (f : node * st -> result QueryError (node * st)) :
  gives q n pre r -> r <> Err RecursionError ->
  (forall nd s', (length s'.1 <= length q)%nat -> f (nd, s') <> Err RecursionError) -> r ≫= f <> Err RecursionError.
Proof.
  intros Hg Hr Hf. destruct r as [[nd s']|e] eqn:E; simpl; [|congruence]. apply Hf. by eapply gives_length.
Qed.

Lemma parser_frames fuel : forall frames depth parts q n,
  ((1 <= frames)%nat -> (depth <= MAX_DEPTH -> (3 * room depth + length q + 3 <= frames)%nat) ->
   expr fuel frames depth (q, n) <> Err RecursionError) /\
  ((3 * room depth + length q + 2 <= frames)%nat -> expr_loop fuel frames depth parts (q, n) <> Err RecursionError) /\
  ((3 * room depth + length q + 2 <= frames)%nat -> conj fuel frames depth (q, n) <> Err RecursionError) /\
  ((3 * room depth + length q + 1 <= frames)%nat -> conj_loop fuel frames depth parts (q, n) <> Err RecursionError) /\
  ((3 * room depth + length q + 1 <= frames)%nat -> unary fuel frames depth (q, n) <> Err RecursionError).
Proof.
  induction fuel as [|f IH]; intros frames depth parts q n; [repeat split; done|].
  split; [|split; [|split; [|split]]]; intros Hf; simpl.
  - intros Hd. destruct frames as [|fr]; [lia|]. destruct (MAX_DEPTH <? depth) eqn:E; [done|]. reflect_bools.
    specialize (Hd ltac:(lia)). eapply frames_bind; [apply (parser_gives f fr depth parts)|apply (IH fr depth parts); lia|].
    intros nd [q' n'] Hl. apply (IH fr). simpl in Hl. lia.
  - case_bool_decide as Ho; [|done]. destruct (take_left _ _ Ho) as [Hl _].
    eapply frames_bind; [apply (parser_gives f frames depth parts)|apply (IH frames depth parts); lia|].
    intros nd [q' n'] Hl'. apply (IH frames). simpl in Hl'. lia.
  - destruct frames as [|fr]; [lia|].
    eapply frames_bind; [apply (parser_gives f fr depth parts)|apply (IH fr depth parts); lia|].
    intros nd [q' n'] Hl'. apply (IH fr). simpl in Hl'. lia.
  - assert (Hstep : forall q1, (length q1 <= length q)%nat ->
      ('(p, s') ← unary f frames depth (q1, n); conj_loop f frames depth (parts ++ [p]) s') <> Err RecursionError).
    { intros q1 Hl. eapply frames_bind; [apply (parser_gives f frames depth parts)|apply (IH frames depth parts); lia|].
      intros nd [q' n'] Hl'. apply (IH frames). simpl in Hl'. lia. }
    destruct (skip_left q) as [Hk _].
    destruct (_op q) as [[]|] eqn:Eo; cbn [fst snd]; [|done|case_match; [done|apply Hstep; lia]|done|case_match; [done|apply Hstep; lia]].
    apply Hstep. destruct (take_left _ _ Eo) as [Hl _]. lia.
  - destruct frames as [|fr]; [lia|]. assert (Hroom : (room (depth + 1) <= room depth)%nat) by (unfold room; lia).
    case_bool_decide as Ho.
    { destruct (take_left _ _ Ho) as [Hl _]. eapply frames_bind; [apply (parser_gives f fr (depth + 1) parts)|apply (IH fr (depth + 1) parts); lia|done]. }
    destruct (skip_left q) as [Hk _]. destruct (skip q) as [|c q'] eqn:Eq; [done|]. simpl in Hk. destruct (Ascii.eqb c "(").
    + eapply frames_bind; [apply (parser_gives f fr (depth + 1) parts)| |].
      * apply (IH fr (depth + 1) parts); [lia|]. intros Hd. assert (S (room (depth + 1)) = room depth) by (unfold room; lia). lia.
      * intros nd [q2 n2] _. simpl. destruct (skip q2); [done|by case_match].
    + destruct (Ascii.eqb c ")"); [done|]. apply (term_fuel RecursionError f (c :: q') n); [by left|by right].
Qed.

(** C13: parsing a detection always ends, whatever is submitted; and it returns a query or raises a
    QueryError when the recursion limit leaves the parser's three mutually recursive methods thirty
    frames more than the query has characters (2030 frames are enough for every input).  With fewer
    it may raise RecursionError instead ([demo_recursion]). *)
Theorem parse_detection_returns frames q :
  parse_detection frames q <> Err OutOfFuel /\
  (Z.min (zlen (strip_text (default [] q))) MAX_DETECTION_LENGTH + 30 <= Z.of_nat frames ->
   parse_detection frames q <> Err RecursionError).
Proof.
  unfold DetectionQuery.parse_detection. change (match q with Some q => q | None => [] end) with (default [] q).
  set (text := strip_text _).
  destruct (MAX_DETECTION_LENGTH <? zlen text) eqn:El; [done|]. case_bool_decide; [done|]. destruct (existsb _ text); [done|].
  reflect_bools. unfold DetectionQuery.parse. split.
  - destruct (parser_returns (fuel_for text) frames 0 [] text 0) as (He & _).
    destruct He as [He _]; [unfold fuel_for; lia|]. destruct (expr _ _ _ _) as [[nd s']|]; simpl; [by case_match|congruence].
  - intros Hf. destruct (parser_frames (fuel_for text) frames 0 [] text 0) as (He & _). unfold zlen in *.
    change (room 0) with 9%nat in He. specialize (He ltac:(lia) ltac:(lia)).
    destruct (expr _ _ _ _) as [[nd s']|]; simpl; [by case_match|congruence].
Qed.

(** ** Labels cannot be reached *)

(** Only letters change case, and no letter becomes a bracket or a wildcard. *)
Lemma lower_char_facts c :
  (lower_char c = "["%char -> c = "["%char) /\
  (Ascii.eqb c "*" = true -> lower_char c = "*"%char) /\ (Ascii.eqb c "?" = true -> lower_char c = "?"%char) /\
  (Ascii.eqb c "*" = false -> Ascii.eqb (lower_char c) "*" = false).
Proof. destruct c as [[] [] [] [] [] [] [] []]; vm_compute; repeat split; congruence. Qed.

Lemma glob_star p s : glob ("*"%char :: p) s = true <-> exists a b, s = a ++ b /\ glob p b = true.
Proof.
  simpl. induction s as [|d s IH].
  - rewrite orb_false_r. split; [intros Hg; by exists [], []|]. intros (a & b & Hab & Hg).
    symmetry in Hab. by apply app_eq_nil in Hab as [-> ->].
  - rewrite orb_true_iff, IH. split.
    + intros [Hg|(a & b & -> & Hg)]; [by exists [], (d :: s)|by exists (d :: a), b].
    + intros ([|d' a] & b & Hab & Hg); simpl in Hab; [left; by subst|]. right. injection Hab as -> ->. by exists a, b.
Qed.

(** A pattern's literals occur in what it matches. *)
Lemma glob_literal p s c : glob p s = true -> c ∈ p -> Ascii.eqb c "*" = false -> Ascii.eqb c "?" = false -> c ∈ s.
Proof.
  revert s; induction p as [|d p IH]; intros s Hg Hc H1 H2; [by apply elem_of_nil in Hc|].
  destruct (Ascii.eqb d "*") eqn:Ed.
  - apply Ascii.eqb_eq in Ed as ->. apply glob_star in Hg as (a & b & -> & Hg). apply elem_of_cons in Hc as [->|Hc]; [done|].
    apply elem_of_app. right. auto.
  - simpl in Hg. rewrite Ed in Hg. destruct s as [|e s]; [done|]. apply andb_true_iff in Hg as [Hd Hg].
    apply elem_of_cons in Hc as [->|Hc]; [|right; auto]. rewrite H2 in Hd. simpl in Hd. apply Ascii.eqb_eq in Hd as ->. by left.
Qed.

(** What matches a text in lower case still does once lowered. *)
Lemma glob_lower p s : Forall (fun c => lower_char c = c) s -> glob p s = true -> glob (lower_text p) s = true.
Proof.
  revert s; induction p as [|d p IH]; intros s Hs Hg; [done|]. destruct (lower_char_facts d) as (_ & F1 & F2 & F3).
  destruct (Ascii.eqb d "*") eqn:Ed.
  - rewrite (Ascii.eqb_eq d "*") in Ed. subst d. apply glob_star in Hg as (a & b & -> & Hg).
    apply Forall_app in Hs as [_ Hs]. change (lower_text ("*"%char :: p)) with ("*"%char :: lower_text p).
    apply glob_star. exists a, b. auto.
  - simpl in Hg |- *. rewrite Ed in Hg. rewrite (F3 eq_refl). destruct s as [|e s]; [done|].
    apply Forall_cons in Hs as [He Hs]. apply andb_true_iff in Hg as [Hd Hg]. rewrite (IH s Hs Hg), andb_true_r.
    apply orb_true_iff in Hd as [Hd|Hd]; [by rewrite (F2 Hd)|]. apply Ascii.eqb_eq in Hd as ->. rewrite He.
    by rewrite Ascii.eqb_refl, orb_true_r.
Qed.

Lemma among_in c s : among c s = true <-> c ∈ s.
Proof.
  unfold among. rewrite existsb_exists. split.
  - intros (d & Hd & Heq). apply Ascii.eqb_eq in Heq as ->. by apply list_elem_of_In.
  - intros Hc. exists c. split; [by apply list_elem_of_In|apply Ascii.eqb_refl].
Qed.

(** A refused-label check that passes means: no pattern in the value matches the label. *)
Lemma module_not_matched field v : lower_text field = str "event.module" -> is_label field v = false ->
  v <> [] /\ glob v _LABEL_MODULE = false.
Proof.
  intros Hf Hl. unfold DetectionQuery.is_label in Hl. rewrite Hf in Hl. 
  change (bool_decide (str "event.module" ∈ _LABEL_NAMES) || existsb (fun p => has_prefix p (str "event.module")) _LABEL_PREFIXES) with false in Hl.
  cbv iota in Hl. rewrite bool_decide_eq_true_2 in Hl by done. apply orb_false_iff in Hl as [Hl Hm].
  apply orb_false_iff in Hl as [Hl _]. apply bool_decide_eq_false in Hl.
  split; [by intros ->|]. apply not_true_iff_false. intros Hg.
  unfold fnmatch_module in Hm. destruct (among "[" (lower_text v)) eqn:Eb.
  - apply among_in in Eb. apply list_elem_of_fmap in Eb as (c & Hc & Hin). symmetry in Hc. apply lower_char_facts in Hc as ->.
    apply (glob_literal v _LABEL_MODULE "[" Hg) in Hin; [|done..]. by apply among_in in Hin.
  - assert (glob (lower_text v) _LABEL_MODULE = true); [|congruence]. apply glob_lower; [|done].
    repeat (constructor; [reflexivity|]). constructor.
Qed.

(** A field name that is not a platform label. *)
Definition observed (field : text) : Prop :=
  lower_text field ∉ _LABEL_NAMES /\ forall p, p ∈ _LABEL_PREFIXES -> has_prefix p (lower_text field) = false.

Lemma not_label_observed field v : is_label field v = false -> observed field.
Proof.
  unfold DetectionQuery.is_label. intros Hl.
  destruct (bool_decide (lower_text field ∈ _LABEL_NAMES) || _) eqn:E; [done|]. apply orb_false_iff in E as [E1 E2].
  split; [by apply bool_decide_eq_false in E1|]. intros p Hp. apply not_true_iff_false. intros Ht.
  assert (existsb (fun p => has_prefix p (lower_text field)) _LABEL_PREFIXES = true); [|congruence].
  apply existsb_exists. exists p. split; [by apply list_elem_of_In|done].
Qed.

Lemma accepted_terms frames q n : parse_detection frames q = Ok n ->
  exists q', Forall (fun t => allowed t /\ shaped t /\ drawn_from q' t) (leaves n) /\ zlen (leaves n) <= MAX_DETECTION_TERMS /\
    forall c, c ∈ q' -> c <> _PHRASE.
Proof.
  unfold DetectionQuery.parse_detection. set (text := strip_text _).
  destruct (MAX_DETECTION_LENGTH <? zlen text); [done|]. case_bool_decide; [done|]. destruct (existsb _ text) eqn:Ec; [done|].
  unfold DetectionQuery.parse. destruct (expr (fuel_for text) frames 0 (text, 0)) as [[nd s']|] eqn:Ee; simpl; [|done]. case_match; [done|].
  intros [= ->]. destruct (parser_gives (fuel_for text) frames 0 [] text 0) as (Hg & _). destruct (Hg _ _ Ee) as (_ & ts & -> & H1 & H2 & H3).
  exists text. split; [done|]. split.
  - destruct H2 as [->|H2]; [vm_compute; discriminate|simpl in *; lia].
  - intros c Hc ->. assert (existsb (fun c => (nat_of_ascii c <? 32)%nat && negb (Ascii.eqb c "009")) text = true); [|congruence].
    apply existsb_exists. exists _PHRASE. split; [by apply list_elem_of_In|done].
Qed.

(** C11: no accepted detection can name ground truth.  Every term of it has a well-formed field that
    is not a platform label (in any case), and a term on [event.module] carries a value whose
    wildcard pattern, read as Lucene reads it, does not match the label [truenorth.inject]; a test
    for the field's existence is never among them.  There are at most thirty-two terms. *)
Theorem accepted_sees_no_label frames q n : parse_detection frames q = Ok n ->
  zlen (leaves n) <= MAX_DETECTION_TERMS /\
  forall t, t ∈ leaves n ->
    _FIELD (t_field t) = true /\ observed (t_field t) /\
    (lower_text (t_field t) = str "event.module" ->
       t_kind t <> KExists /\
       forall v, v ∈ t_values t -> lstrip_phrase v <> [] /\ glob (lstrip_phrase v) _LABEL_MODULE = false).
Proof.
  intros Hp. destruct (accepted_terms frames q n Hp) as (q' & Hts & Hz & _). split; [done|]. intros t Ht.
  rewrite Forall_forall in Hts. destruct (Hts _ Ht) as ((Hf & Hl) & Hs & _). split; [done|].
  assert (Hne : exists v, v ∈ match t_values t with [] => [[]] | vs => vs end) by (destruct (t_values t) as [|v vs]; [exists []|exists v]; left).
  destruct Hne as [v0 Hv0]. split; [by eapply not_label_observed, Hl|]. intros Hm. split.
  - intros Hk. unfold shaped in Hs. rewrite Hk in Hs. destruct Hs as [_ Hv]. rewrite Hv in Hl.
    destruct (module_not_matched _ _ Hm (Hl [] ltac:(by left))) as [Hx _]. done.
  - intros v Hv. apply (module_not_matched (t_field t)); [done|]. apply Hl.
    destruct (t_values t); [by apply elem_of_nil in Hv|exact Hv].
Qed.

(** ** What is sent is what was checked *)

(** What may follow a term. *)
Definition ends (rest : text) : Prop := match rest with [] => True | c :: _ => stop c = true end.

Lemma escape_facts c : among c _ALWAYS_ESCAPE = false ->
  stop c = false /\ Ascii.eqb c "\" = false /\ refused c = false /\ blank c = false /\ Ascii.eqb c quote = false /\
  Ascii.eqb c "(" = false /\ Ascii.eqb c ">" = false /\ Ascii.eqb c "<" = false.
Proof. destruct c as [[] [] [] [] [] [] [] []]; vm_compute; intros H; repeat split; congruence. Qed.

Lemma bare_escape_char b c x : bare (escape_char b c ++ x) = '(w, r) ← bare x; Ok (c :: w, r).
Proof.
  unfold escape_char. destruct (among c _ALWAYS_ESCAPE) eqn:E; [done|]. destruct (escape_facts c E) as (H1 & H2 & H3 & _).
  destruct (b && among c (str "+-")); [done|]. simpl. by rewrite H1, H2, H3.
Qed.

Lemma bare_ends rest : ends rest -> bare rest = Ok ([], rest).
Proof. destruct rest as [|c rest]; simpl; [done|]. by intros ->. Qed.

Lemma bare_escape v rest : ends rest -> bare (escape v ++ rest) = Ok (v, rest).
Proof.
  intros He. assert (Ht : forall w, bare (flat_map (escape_char false) w ++ rest) = Ok (w, rest)).
  { induction w as [|c w IH]; [by apply bare_ends|]. cbn [flat_map]. rewrite <- app_assoc, bare_escape_char, IH. done. }
  destruct v as [|c v]; [by apply bare_ends|]. cbn [escape]. by rewrite <- app_assoc, bare_escape_char, Ht.
Qed.

(** The first character of an escaped value opens nothing. *)
Lemma escape_head c v : exists d x, escape (c :: v) = d :: x /\
  blank d = false /\ Ascii.eqb d quote = false /\ Ascii.eqb d "(" = false /\ Ascii.eqb d ">" = false /\ Ascii.eqb d "<" = false.
Proof.
  cbn [escape]. unfold escape_char. destruct (among c _ALWAYS_ESCAPE) eqn:E; [by eexists _, _|].
  destruct (escape_facts c E) as (_ & _ & _ & H). destruct (true && among c (str "+-")); simpl; [by eexists _, _|]. by exists c, (flat_map (escape_char false) v).
Qed.

Lemma word_escape c v rest : ends rest -> word (escape (c :: v) ++ rest) = Ok (c :: v, rest).
Proof.
  intros He. unfold word. destruct (escape_head c v) as (d & x & Hx & Hb & _). pose proof (bare_escape (c :: v) rest He) as Hbare.
  rewrite Hx in Hbare |- *. cbn [app skip]. rewrite Hb. exact Hbare.
Qed.

Lemma quoted_body_plain c d x : Ascii.eqb c "\" = false -> Ascii.eqb c quote = false ->
  quoted_body (c :: d :: x) = '(w, r) ← quoted_body (d :: x); Ok (c :: w, r).
Proof.
  intros E1 E2.
  change (quoted_body (c :: d :: x)) with
    (if Ascii.eqb c "\" then '(w, r) ← quoted_body x; Ok (d :: w, r)
     else if Ascii.eqb c quote then closing (d :: x) else '(w, r) ← quoted_body (d :: x); Ok (c :: w, r)).
  by rewrite E1, E2.
Qed.

Lemma quoted_escape w rest : ends rest -> quoted (quote :: escape_quoted w ++ quote :: rest) = Ok (_PHRASE :: w, rest).
Proof.
  intros He. unfold quoted. cbn [tail]. assert (Hb : quoted_body (escape_quoted w ++ quote :: rest) = Ok (w, rest)); [|by rewrite Hb].
  assert (Hc : closing rest = Ok ([], rest)).
  { destruct rest as [|c rest]; [done|]. simpl in He. unfold closing.
    assert (among c (str "~^") = false) as ->; [|done]. revert He. clear. destruct c as [[] [] [] [] [] [] [] []]; vm_compute; congruence. }
  induction w as [|c w IH]; [cbn; destruct rest; exact Hc|].
  unfold escape_quoted in *. cbn [flat_map].
  destruct (Ascii.eqb c "\" || Ascii.eqb c quote) eqn:E; rewrite <- app_assoc; cbn [app].
  - simpl. by rewrite IH.
  - apply orb_false_iff in E as [E1 E2]. remember (flat_map _ w ++ quote :: rest) as x eqn:Ex.
    destruct x as [|d x]; [by destruct (flat_map _ w)|]. by rewrite (quoted_body_plain _ _ _ E1 E2), IH.
Qed.

Lemma op_char_facts c : (is_letter c || is_digit c || among c (str "_.@-") || Ascii.eqb c "@") = true ->
  in_field_name c = true /\ blank c = false.
Proof. destruct c as [[] [] [] [] [] [] [] []]; vm_compute; intros; split; congruence. Qed.
Lemma digit_facts c : (is_digit c || Ascii.eqb c "-" || Ascii.eqb c ".") = true ->
  stop c = false /\ Ascii.eqb c "\" = false /\ refused c = false /\ blank c = false /\ Ascii.eqb c "=" = false.
Proof. destruct c as [[] [] [] [] [] [] [] []]; vm_compute; intros; repeat split; congruence. Qed.

Lemma field_facts f : _FIELD f = true -> f <> [] /\ Forall (fun c => in_field_name c = true /\ blank c = false) f.
Proof.
  destruct f as [|c f]; [done|]. unfold _FIELD. intros Hf. apply andb_true_iff in Hf as [Hf Hr]. apply andb_true_iff in Hf as [Hc _].
  split; [done|]. constructor.
  - apply op_char_facts. rewrite !orb_true_iff in *. tauto.
  - rewrite forallb_forall in Hr. apply Forall_forall. intros d Hd. apply op_char_facts.
    specialize (Hr d ltac:(by apply list_elem_of_In)). by rewrite Hr.
Qed.

Lemma span_stop p a c b : Forall (fun c => p c = true) a -> p c = false -> span p (a ++ c :: b) = (a, c :: b).
Proof. intros Ha Hc. induction Ha as [|d a Hd Ha IH]; simpl; [by rewrite Hc|]. by rewrite Hd, IH. Qed.

Lemma number_facts n : _NUMBER n = true -> n <> [] /\ Forall (fun c => (is_digit c || Ascii.eqb c "-" || Ascii.eqb c ".") = true) n.
Proof.
  intros Hn. assert (Hs : forall s, (let '(whole, rest) := span is_digit s in
    (1 <=? zlen whole) && (zlen whole <=? 18) && match rest with [] => true
      | c :: rest' => Ascii.eqb c "." && (1 <=? zlen rest') && (zlen rest' <=? 9) && forallb is_digit rest' end) = true ->
    s <> [] /\ Forall (fun c => (is_digit c || Ascii.eqb c "-" || Ascii.eqb c ".") = true) s).
  { intros s. destruct (span is_digit s) as [whole rest] eqn:E. apply span_app in E as [-> Hw]. intros H.
    apply andb_true_iff in H as [H Hr]. apply andb_true_iff in H as [Hl _]. split.
    - intros [-> ->]%app_eq_nil. done.
    - apply Forall_app. split; [eapply Forall_impl; [exact Hw|]; by intros c ->|]. destruct rest as [|c rest]; [constructor|].
      rewrite !andb_true_iff in Hr. destruct Hr as [[[Hc _] _] Hd]. constructor; [by rewrite Hc, orb_true_r|].
      rewrite forallb_forall in Hd. apply Forall_forall. intros d Hin. rewrite (Hd d); [done|by apply list_elem_of_In]. }
  unfold _NUMBER in Hn. destruct n as [|c n]; [by apply Hs in Hn as []|]. destruct (Ascii.eqb c "-") eqn:E; [|by apply Hs].
  apply Hs in Hn as [_ Hn]. split; [done|]. constructor; [by rewrite E, orb_true_r|done].
Qed.

Lemma bare_number n rest : Forall (fun c => (is_digit c || Ascii.eqb c "-" || Ascii.eqb c ".") = true) n -> ends rest ->
  bare (n ++ rest) = Ok (n, rest).
Proof.
  intros Hn He. induction Hn as [|c n Hc Hn IH]; [by apply bare_ends|]. destruct (digit_facts c Hc) as (H1 & H2 & H3 & _).
  simpl. by rewrite H1, H2, H3, IH.
Qed.

(** One value, bare or quoted, reads back. *)
Lemma single_value field v rest : v <> [] -> ends rest -> _single field (_value v ++ rest) = Ok (v, rest).
Proof.
  intros Hv He. destruct v as [|c v]; [done|]. cbn [_value]. unfold _single. destruct (Ascii.eqb c _PHRASE) eqn:E.
  - apply Ascii.eqb_eq in E as ->. replace ((quote :: escape_quoted v ++ [quote]) ++ rest) with (quote :: escape_quoted v ++ quote :: rest)
      by (simpl; by rewrite <- app_assoc).
    rewrite bool_decide_eq_true_2 by done. by apply quoted_escape.
  - rewrite bool_decide_eq_false_2.
    + by rewrite word_escape.
    + destruct (escape_head c v) as (d & x & -> & Hb & Hq & _). unfold peek. cbn [app skip]. rewrite Hb. intros [= ->]. done.
Qed.

Lemma group_values fuel field vs rest : Forall (fun v => v <> []) vs -> (length vs < fuel)%nat ->
  group fuel field (flat_map (fun v => str " OR " ++ _value v) vs ++ ")"%char :: rest) = Ok (vs, ")"%char :: rest).
Proof.
  revert fuel; induction vs as [|v vs IH]; intros fuel Hv Hf; (destruct fuel as [|f]; [simpl in Hf; lia|]).
  - cbn [flat_map app group]. rewrite bool_decide_eq_false_2 by done. done.
  - apply Forall_cons in Hv as [Hv Hvs]. cbn [flat_map]. rewrite <- !app_assoc.
    set (tl := _ ++ ")"%char :: rest). cbn [group].
    change (_op (str " OR " ++ _value v ++ tl)) with (Some OR). rewrite bool_decide_eq_true_2 by done.
    change (_take OR (str " OR " ++ _value v ++ tl)) with (" "%char :: _value v ++ tl).
    change (_single field (" "%char :: _value v ++ tl)) with (_single field (_value v ++ tl)).
    assert (Htl : ends tl) by (unfold tl; destruct vs; reflexivity).
    rewrite single_value by done. cbn [mbind result_bind]. unfold tl. rewrite IH; [done|done|simpl in Hf; lia].
Qed.

Lemma join_flat_map sep v vs : join sep (map _value (v :: vs)) = _value v ++ flat_map (fun v => sep ++ _value v) vs.
Proof.
  revert v; induction vs as [|w vs IH]; intros v; [cbn; by rewrite app_nil_r|].
  change (join sep (map _value (v :: w :: vs))) with (_value v ++ sep ++ join sep (map _value (w :: vs))).
  rewrite IH. cbn [flat_map]. by rewrite <- app_assoc.
Qed.

(** How a term's text ends: after the colon. *)
Definition value_text (t : Term) : text :=
  match t.(t_kind) with
  | KRange => t.(t_op) ++ match t.(t_values) with v :: _ => v | [] => [] end
  | KAny => str "(" ++ join (str " OR ") (map _value t.(t_values)) ++ str ")"
  | _ => match t.(t_values) with v :: _ => _value v | [] => [] end
  end.
Lemma term_lucene_split t : t_kind t <> KExists -> term_lucene t = t_field t ++ ":"%char :: value_text t.
Proof. intros Hk. unfold term_lucene, value_text. destruct (t_kind t); first [done|by destruct (t_values t)]. Qed.

Definition marked (v : text) : bool := match v with c :: _ => Ascii.eqb c _PHRASE | [] => false end.
Definition counted (t : Term) : Z := match t.(t_kind) with KAny => zlen t.(t_values) - 1 | _ => 0 end.

Lemma range_op_some op q : range_op q = Some op -> exists d x, op = d :: x /\ (d = ">"%char \/ d = "<"%char) /\ has_prefix op q = true.
Proof.
  intros Hf. apply find_some in Hf as [Hin Hp]. apply list_elem_of_In in Hin. rewrite !elem_of_cons, elem_of_nil in Hin.
  destruct Hin as [->|[->|[->|[->|[]]]]]; eexists _, _; (split; [reflexivity|]); auto.
Qed.
Lemma range_op_none d x : Ascii.eqb d ">" = false -> Ascii.eqb d "<" = false -> range_op (d :: x) = None.
Proof.
  intros Hg Hl. destruct (range_op (d :: x)) as [op|] eqn:E; [|done].
  apply range_op_some in E as (c & y & -> & Hc & Hp). apply has_prefix_app in Hp as [r [= <- _]].
  by destruct Hc as [->| ->].
Qed.

Lemma value_back fuel t rest n : shaped t -> t_kind t <> KExists ->
  (t_kind t = KValue -> forall v, v ∈ t_values t -> marked v = false) ->
  ends rest -> (length (t_values t) <= fuel)%nat ->
  value fuel (t_field t) (value_text t ++ rest, n) = Ok (t, (rest, n + counted t)).
Proof.
  destruct t as [field k vs op]. unfold shaped, counted, value_text. cbn [t_kind t_values t_field t_op].
  intros Hs Hk Hm He Hf. destruct k; try done.
  - destruct Hs as (-> & w & -> & Hw & Hstar). specialize (Hm eq_refl w ltac:(by left)).
    destruct w as [|c w]; [done|]. simpl in Hm. cbn [_value]. rewrite Hm. rewrite Z.add_0_r.
    pose proof (word_escape c w rest He) as Hword. destruct (escape_head c w) as (d & x & Hx & Hb & Hq & Hp & Hg & Hl). rewrite Hx in Hword |- *.
    unfold value. cbn [app]. rewrite Hb, Hq, Hp. cbn [app] in Hword.
    rewrite (range_op_none d (x ++ rest)) by done.
    rewrite Hword. cbn [mbind result_bind]. by rewrite !bool_decide_eq_false_2.
  - destruct Hs as (-> & w & ->). rewrite Z.add_0_r. cbn [_value]. change (Ascii.eqb _PHRASE _PHRASE) with true. cbv iota.
    unfold value. cbn [app]. change (blank quote) with false. change (Ascii.eqb quote quote) with true. cbv iota.
    rewrite <- app_assoc. cbn [app]. rewrite quoted_escape by done. cbn [mbind result_bind].
    destruct rest as [|c rest]; [done|]. simpl in He. by rewrite He.
  - destruct Hs as (Hop & num & -> & Hn). rewrite Z.add_0_r. destruct (number_facts num Hn) as [Hne Hd].
    assert (Hop1 : exists d x, op = d :: x /\ blank d = false /\ Ascii.eqb d quote = false /\ Ascii.eqb d "(" = false).
    { rewrite !elem_of_cons, elem_of_nil in Hop. destruct Hop as [->|[->|[->|[->|[]]]]]; by eexists _, _. }
    assert (Hr : range_op (op ++ num ++ rest) = Some op).
    { destruct num as [|c num]; [done|]. apply Forall_cons in Hd as [Hd _]. destruct (digit_facts c Hd) as (_ & _ & _ & _ & Heq).
      rewrite !elem_of_cons, elem_of_nil in Hop. clear -Heq Hop.
      destruct Hop as [->|[->|[->|[->|[]]]]]; [reflexivity|reflexivity|revert Heq..];
        destruct c as [[] [] [] [] [] [] [] []]; vm_compute; congruence. }
    assert (Hw : word (num ++ rest) = Ok (num, rest)).
    { unfold word. pose proof (bare_number num rest Hd He) as Hb. destruct num as [|c num]; [done|]. apply Forall_cons in Hd as [Hd _].
      destruct (digit_facts c Hd) as (_ & _ & _ & Hbl & _). cbn [app skip] in *. by rewrite Hbl. }
    destruct Hop1 as (d & x & Ho & Hb & Hq & Hp). rewrite <- app_assoc. unfold value. rewrite Hr.
    rewrite Ho at 1. cbn [app]. rewrite Hb, Hq, Hp. rewrite drop_app_length, Hw. cbn [mbind result_bind]. by rewrite Hn.
  - destruct Hs as (-> & v & vs' & -> & Hv). apply Forall_cons in Hv as [Hv Hvs].
    rewrite join_flat_map, <- !app_assoc. change (str "(" ++ ?x) with ("("%char :: x). change (str ")" ++ rest) with (")"%char :: rest).
    unfold value. change (blank "(") with false. change (Ascii.eqb "(" quote) with false. change (Ascii.eqb "(" "(") with true. cbv iota.
    rewrite single_value; [|done|by destruct vs'; reflexivity]. cbn [mbind result_bind].
    rewrite group_values; [|done|simpl in Hf; lia]. cbn [mbind result_bind skip]. change (blank ")") with false. cbv iota.
    change (Ascii.eqb ")" ")") with true. cbv iota. do 3 f_equal. rewrite zlen_cons. lia.
Qed.

Lemma term_back fuel t rest n : allowed t -> shaped t -> t_kind t <> KExists ->
  (t_kind t = KValue -> forall v, v ∈ t_values t -> marked v = false) ->
  ends rest -> (length (t_values t) <= fuel)%nat -> n + 1 <= MAX_DETECTION_TERMS ->
  term fuel (term_lucene t ++ rest, n) = Ok (Leaf t, (rest, n + 1 + counted t)).
Proof.
  intros (Hf & Hl) Hs Hk Hm He Hfuel Hn. rewrite term_lucene_split by done. destruct (field_facts _ Hf) as [Hne Hff].
  unfold DetectionQuery.term. rewrite <- app_assoc. cbn [app].
  assert (Hskip : skip (t_field t ++ ":"%char :: value_text t ++ rest) = t_field t ++ ":"%char :: value_text t ++ rest).
  { destruct (t_field t) as [|c f]; [done|]. apply Forall_cons in Hff as [[_ Hb] _]. cbn [app skip]. by rewrite Hb. }
  rewrite Hskip, span_stop; [|eapply Forall_impl; [exact Hff|by intros c [? _]]|done].
  remember (t_field t) as f eqn:Ef. destruct f as [|c f]; [done|]. change (Ascii.eqb ":" ":") with true. cbv iota.
  rewrite Hf. cbn [negb]. destruct (MAX_DETECTION_TERMS <? n + 1) eqn:E; [reflect_bools; lia|].
  rewrite Ef, value_back by done. cbn [mbind result_bind].
  destruct (existsb _ _) eqn:Ex; [|done]. apply existsb_exists in Ex as (v & Hv & Hlab). rewrite <- Ef in Hlab.
  rewrite Hl in Hlab; [done|]. by apply list_elem_of_In.
Qed.

(** C12: what is sent to the search engine is what was checked.  A term of an accepted detection
    that is not an existence test, serialised and read again by the same parser, before anything
    that ends a term (the end of the text, a blank, a parenthesis), is the same term: no character
    of a value, whatever its escapes and quotes were, becomes part of the query's structure.  An
    existence test is serialised in the engine's own form, around a well-formed field name that is
    not a label's. *)
Theorem serialised_term_reads_back frames q n t : parse_detection frames q = Ok n -> t ∈ leaves n ->
  (t_kind t <> KExists -> forall rest, ends rest ->
     term (length (t_values t)) (term_lucene t ++ rest, 0) = Ok (Leaf t, (rest, 1 + counted t))) /\
  (t_kind t = KExists ->
     term_lucene t = str "_exists_:" ++ t_field t /\ _FIELD (t_field t) = true /\ is_label (t_field t) [] = false).
Proof.
  intros Hp Ht. destruct (accepted_terms frames q n Hp) as (q' & Hts & _ & Hc). rewrite Forall_forall in Hts.
  destruct (Hts _ Ht) as (Ha & Hs & Hd). split.
  - intros Hk rest He. apply (term_back _ t rest 0); [done..| |done|lia|done].
    intros Hkv v Hv. destruct v as [|c v]; [done|]. simpl. apply Ascii.eqb_neq. apply Hc. apply (Hd Hkv (c :: v)); [done|]. by left.
  - intros Hk. destruct Ha as [Hf Hl]. unfold shaped in Hs. rewrite Hk in Hs. destruct Hs as [_ Hv].
    split; [unfold term_lucene; by rewrite Hk|]. split; [done|]. apply (Hl []). rewrite Hv. by left.
Qed.
End Results.

(** ** Concrete queries *)

Definition demo (s : text) : result QueryError text :=
  match parse_detection (fun _ => true) 900 (Some s) with Ok n => Ok (lucene n) | Err e => Err e end.
Example demo_1 : demo (str "process_name:rundll32.exe AND NOT (url.domain:*north* || EventID:(4728 OR 4732))") =
  Ok (str "process_name:rundll32.exe AND (NOT (url.domain:*north* OR EventID:(4728 OR 4732)))").
Proof. vm_compute. reflexivity. Qed.
Example demo_label : demo (str "a:b AND Inject_action:x") = Err (PlatformLabel (str "Inject_action")).
Proof. vm_compute. reflexivity. Qed.
Example demo_module : demo (str "event.module:tru?north.*") = Err (PlatformLabel (str "event.module")).
Proof. vm_compute. reflexivity. Qed.

Fixpoint repeat_text (n : nat) (s : text) : text := match n with O => [] | S n' => s ++ repeat_text n' s end.

(** What the checks let through: a value group of more than [MAX_DETECTION_TERMS] values (the count is
    compared at the next field only), negations nested deeper than [MAX_DEPTH] (only parentheses
    are compared), and a range on [event.module], which compares as text in the engine. *)
Example demo_group_over_limit :
  match parse_detection (fun _ => true) 900 (Some (str "a:(v" ++ repeat_text 40 (str " OR v") ++ str ")")) with
  | Ok (Leaf t) => zlen (t_values t) = 41 | _ => False end.
Proof. vm_compute. reflexivity. Qed.
Example demo_deep_negation :
  match parse_detection (fun _ => true) 900 (Some (repeat_text 300 (str "!") ++ str "a:b")) with Ok (Node NOT _) => True | _ => False end.
Proof. vm_compute. exact I. Qed.
(** With 900 frames left (the default limit is 1000), 1000 negations raise RecursionError. *)
Example demo_recursion :
  parse_detection (fun _ => true) 900 (Some (repeat_text 1000 (str "!") ++ str "a:b")) = Err RecursionError.
Proof. vm_compute. reflexivity. Qed.
Example demo_module_range : demo (str "event.module:>0") = Ok (str "event.module:>0").
Proof. vm_compute. reflexivity. Qed.

Lemma accepted_sees_no_label_witness :
  exists n, parse_detection (fun _ => true) 900 (Some (str "event.module:edr AND host:(a OR b)")) = Ok n /\
    zlen (leaves n) <= MAX_DETECTION_TERMS /\ length (leaves n) = 2%nat.
Proof.
  destruct (parse_detection (fun _ => true) 900 (Some (str "event.module:edr AND host:(a OR b)"))) as [n|e] eqn:E.
  - exists n. split; [reflexivity|]. split; [exact (proj1 (accepted_sees_no_label _ _ _ _ E))|].
    revert E. vm_compute. intros [= <-]. reflexivity.
  - exfalso. revert E. vm_compute. discriminate.
Defined.

Lemma parse_detection_returns_witness :
  parse_detection (fun _ => true) 2030 (Some (repeat_text 1000 (str "!") ++ str "a:b")) <> Err RecursionError.
Proof. apply parse_detection_returns. unfold MAX_DETECTION_LENGTH. lia. Defined.

Lemma serialised_term_reads_back_witness :
  term (fun _ => true) 1 (term_lucene (MkTerm (str "path") KValue [str "C:\a(b"] []) ++ str " AND x:y", 0) =
    Ok (Leaf (MkTerm (str "path") KValue [str "C:\a(b"] []), (str " AND x:y", 1)) /\
  _FIELD (str "host") = true.
Proof.
  destruct (serialised_term_reads_back (fun _ => true) 900 (Some (str "path:C\:\\a\(b AND host:*"))
    (Node AND [Leaf (MkTerm (str "path") KValue [str "C:\a(b"] []); Leaf (MkTerm (str "host") KExists [] [])])
    (MkTerm (str "path") KValue [str "C:\a(b"] [])) as [H _].
  - vm_compute. reflexivity.
  - left.
  - destruct (serialised_term_reads_back (fun _ => true) 900 (Some (str "path:C\:\\a\(b AND host:*"))
      (Node AND [Leaf (MkTerm (str "path") KValue [str "C:\a(b"] []); Leaf (MkTerm (str "host") KExists [] [])])
      (MkTerm (str "host") KExists [] [])) as [_ He].
    + vm_compute. reflexivity.
    + right. left.
    + split; [apply H; [discriminate|reflexivity]|exact (proj1 (proj2 (He eq_refl)))].
Defined.
