(* ===== verification/MaintenanceQueries.v ===== *)
(** * Maintenance windows, as the API asks about them

    Models the queries of [control-plane/api/app/maintenance_windows/service.py]: which windows cover a
    range now, the ranges held out of a list, a range not created yet, the scheduler's spans, and the
    refusal of a request.  Times are microseconds (UTC), the unit of [_TICK].  The theorem: the API and
    the worker name the same window for every range, and the batch query holds exactly those ranges. *)

From S2P Require Import Prelude StateMachines Lease RangeOps MaintenanceWindows.

Local Open Scope Z_scope.

Definition TICK : Z := 1.
Definition SECOND : Z := 1000000.

(** [_candidates] *)
Definition candidates (windows : list window) (tenant : option string) (start end_ : Z) : list window :=
  py_sorted ends_later (List.filter (fun w => for_tenant tenant w && (w.(w_starts) <? end_) && (start <? w.(w_ends))) windows).

(** [_covering]; [tags] is read only for a window of that scope. *)
Definition covering_all (windows : list window) (tenant range_id : option string) (tags : list string) : list window :=
  List.filter (fun w => applies w range_id tenant (if String.eqb w.(w_scope) "tags" then tags else [])) windows.

(** [covering_range] *)
Definition covering_range (windows : list window) (g : range_row) (range_id : string) (at_ : Z) : list window :=
  covering_all (List.filter (in_effect at_) (candidates windows g.(g_tenant) at_ (at_ + TICK)))
    g.(g_tenant) (Some range_id) (template_tags g.(g_template)).

(** [held_range_ids] *)
Definition live_windows (windows : list window) (ranges : list (string * range_row)) (at_ : Z) : list window :=
  let tenants := omap (fun r => r.2.(g_tenant)) ranges in
  List.filter (fun w => match w.(w_tenant) with None => true | Some t => bool_decide (t ∈ tenants) end &&
                        (w.(w_starts) <? at_ + TICK) && (at_ <? w.(w_ends)) && in_effect at_ w) windows.
Definition held_range_ids (windows : list window) (ranges : list (string * range_row)) (at_ : Z) : list string :=
  let live := live_windows windows ranges at_ in
  map fst (List.filter (fun r => negb (Nat.eqb (length (covering_all live r.2.(g_tenant) (Some r.1) (template_tags r.2.(g_template)))) 0)) ranges).

(** [blocking_new_range] *)
Definition blocking_new_range (windows : list window) (tenant : option string) (at_ : Z) : option window :=
  hd_error (covering_all (List.filter (in_effect at_) (candidates windows tenant at_ (at_ + TICK))) tenant None []).

(** [refuse_inside]: the window of the 409 and its Retry-After, in seconds. *)
Definition refuse_inside (windows : list window) (g : range_row) (range_id : string) (now : Z) : result (window * Z) unit :=
  match covering_range windows g range_id now with
  | [] => Ok tt
  | w :: _ => Err (w, Z.max ((w.(w_ends) - now) ÷ SECOND) 1)
  end.

(** [provision_blocked]; [rng]: the booked range's row, if it has one. *)
Definition provision_blocked (windows : list window) (tenant : option string) (rng : option (string * range_row)) (at_ : Z) : option window :=
  match rng with
  | None => blocking_new_range windows tenant at_
  | Some (i, g) => hd_error (covering_range windows g i at_)
  end.

(** [booking_spans]; [tags]: of the booked range's template, or of the booking's. *)
Definition booking_spans (windows : list window) (tenant range_id : option string) (tags : list string) (start end_ : Z) : list (Z * Z) :=
  map (fun w => (w.(w_starts), w.(w_ends))) (covering_all (candidates windows tenant start end_) tenant range_id tags).

(** ** Lemmas *)

Lemma applies_tags w i t tags : applies w i t (if String.eqb (w_scope w) "tags" then tags else []) = applies w i t tags.
Proof.
  unfold applies. destruct (String.eqb (w_scope w) "tags"); done.
Qed.

Lemma covering_all_plain ws t i tags : covering_all ws t i tags = List.filter (fun w => applies w i t tags) ws.
Proof. unfold covering_all. apply filter_ext. intros w. apply applies_tags. Qed.

Lemma in_effect_tick at_ w : in_effect at_ w = (w_starts w <? at_ + TICK) && (at_ <? w_ends w).
Proof. unfold in_effect, TICK. f_equal. apply eq_true_iff_eq. rewrite Z.leb_le, Z.ltb_lt. lia. Qed.

Lemma in_effect_tick_split (b : bool) at_ w : b && in_effect at_ w = b && (w_starts w <? at_ + TICK) && (at_ <? w_ends w) && in_effect at_ w.
Proof. rewrite in_effect_tick. destruct b, (w_starts w <? at_ + TICK), (at_ <? w_ends w); done. Qed.

Lemma candidates_now windows t at_ :
  List.filter (in_effect at_) (candidates windows t at_ (at_ + TICK)) =
  py_sorted ends_later (List.filter (fun w => for_tenant t w && in_effect at_ w) windows).
Proof.
  unfold candidates.
  assert (List.filter (fun w => for_tenant t w && (w_starts w <? at_ + TICK) && (at_ <? w_ends w)) windows =
          List.filter (fun w => for_tenant t w && in_effect at_ w) windows) as ->.
  { apply filter_ext. intros w. by rewrite in_effect_tick, andb_assoc. }
  apply List.forallb_filter_id, forallb_forall. intros w Hw%list_elem_of_In.
  rewrite elem_of_py_sorted in Hw. apply list_elem_of_In, filter_In in Hw as [_ Hw]. by apply andb_true_iff in Hw as [_ Hw].
Qed.

Lemma find_hd {A} (p : A -> bool) l : List.find p l = hd_error (List.filter p l).
Proof. induction l as [|x l IH]; simpl; [done|]. by destruct (p x). Qed.

Lemma covering_range_head windows g i at_ : hd_error (covering_range windows g i at_) = covering windows (Some g) i at_.
Proof. unfold covering_range, covering. by rewrite covering_all_plain, candidates_now, find_hd. Qed.

Lemma applies_tenant w i t tags : applies w i t tags = true -> w_tenant w <> Some "None"%string -> for_tenant t w = true.
Proof.
  unfold applies, for_tenant. destruct (w_tenant w) as [t'|]; [|done]. intros Ha Hn. destruct t as [t|].
  - by destruct (String.eqb t' t).
  - destruct (String.eqb_spec t' "None"); [by subst|done].
Qed.

(** The API and the worker agree on maintenance: for every range, the window the API refuses a request with (the
    head of [covering_range]) is the window the worker holds the range's task with; the batch query holds a range
    of a list exactly when that window exists, whatever the other ranges' tenants; the refusal asks the caller
    to wait at least one second and never past the window's end by more than one; and a range not created yet is
    held by exactly the [all] windows of its tenant and the platform. *)
Theorem maintenance_agrees windows ranges at_ :
  (forall w, w ∈ windows -> w_tenant w <> Some "None"%string) ->
  (forall g i, hd_error (covering_range windows g i at_) = covering windows (Some g) i at_) /\
  (forall i, i ∈ held_range_ids windows ranges at_ <-> exists g, (i, g) ∈ ranges /\ covering windows (Some g) i at_ <> None) /\
  (forall g i w wait, refuse_inside windows g i at_ = Err (w, wait) ->
     covering windows (Some g) i at_ = Some w /\ 1 <= wait /\ at_ + (wait - 1) * SECOND <= w_ends w) /\
  (forall t w, blocking_new_range windows t at_ = Some w ->
     w ∈ windows /\ w_scope w = "all"%string /\ for_tenant t w = true /\ in_effect at_ w = true).
Proof.
  intros Hnone. split; [intros; apply covering_range_head|]. split; [|split].
  - intros i. unfold held_range_ids. rewrite list_elem_of_In, in_map_iff.
    assert (Hc : forall g, (i, g) ∈ ranges ->
      covering_all (live_windows windows ranges at_) (g_tenant g) (Some i) (template_tags (g_template g)) <> [] <->
      covering windows (Some g) i at_ <> None).
    { intros g Hg. rewrite <- covering_range_head. unfold covering_range. rewrite !covering_all_plain, candidates_now.
      assert (Hmem : forall w, In w (List.filter (fun w => applies w (Some i) (g_tenant g) (template_tags (g_template g))) (live_windows windows ranges at_)) <->
        In w (List.filter (fun w => applies w (Some i) (g_tenant g) (template_tags (g_template g)))
          (py_sorted ends_later (List.filter (fun w => for_tenant (g_tenant g) w && in_effect at_ w) windows)))).
      { intros w. unfold live_windows. rewrite !filter_In, <- (list_elem_of_In (py_sorted _ _)), elem_of_py_sorted,
          list_elem_of_In, filter_In, <- in_effect_tick_split. split.
        - intros ((Hw & He) & Ha). split; [|done]. split; [done|]. apply andb_true_iff in He as [_ He]. apply andb_true_iff. split; [|done].
          eapply applies_tenant; [exact Ha|]. apply Hnone. by apply list_elem_of_In.
        - intros ((Hw & He) & Ha). split; [|done]. split; [done|]. apply andb_true_iff in He as [Ht He]. apply andb_true_iff. split; [|done].
          unfold for_tenant in Ht. destruct (w_tenant w) as [t|]; [|done]. apply bool_decide_eq_true.
          destruct (g_tenant g) as [t'|] eqn:Eg; [|done]. apply String.eqb_eq in Ht as ->.
          apply list_elem_of_omap. by exists (i, g). }
      destruct (List.filter _ (live_windows _ _ _)) as [|x l], (List.filter _ (py_sorted _ _)) as [|y l']; simpl; [done| | |done].
      - by destruct (proj2 (Hmem y) (or_introl eq_refl)).
      - by destruct (proj1 (Hmem x) (or_introl eq_refl)). }
    split.
    + intros ([j g] & <- & Hr). apply filter_In in Hr as [Hr Hl]. cbn [fst snd] in *. apply list_elem_of_In in Hr.
      exists g. split; [done|]. apply Hc; [done|]. intros E. by rewrite E in Hl.
    + intros (g & Hg & Hcov). exists (i, g). split; [done|]. apply filter_In. split; [by apply list_elem_of_In|]. cbn [fst snd].
      apply Hc in Hcov; [|done]. by destruct (covering_all _ _ _ _).
  - intros g i w wait. unfold refuse_inside. destruct (covering_range windows g i at_) as [|x l] eqn:E; [done|].
    intros [= <- <-]. assert (Hx : covering windows (Some g) i at_ = Some x) by (by rewrite <- covering_range_head, E).
    split; [done|]. split; [lia|].
    assert (Hin : at_ < w_ends x).
    { unfold covering in Hx. apply List.find_some in Hx as [Hx _]. rewrite <- list_elem_of_In, covering_elem in Hx.
      destruct Hx as (_ & _ & Hx). unfold in_effect in Hx. apply andb_true_iff in Hx as [_ Hx]. by apply Z.ltb_lt in Hx. }
    rewrite Z.quot_div_nonneg by (unfold SECOND; lia). pose proof (Z.mul_div_le (w_ends x - at_) SECOND ltac:(unfold SECOND; lia)).
    unfold SECOND in *. lia.
  - intros t w. unfold blocking_new_range. rewrite covering_all_plain, candidates_now. intros Hh.
    assert (Hw : In w (List.filter (fun w => applies w None t []) (py_sorted ends_later (List.filter (fun w => for_tenant t w && in_effect at_ w) windows)))).
    { destruct (List.filter _ _); [done|]. injection Hh as ->. by left. }
    apply filter_In in Hw as [Hw Ha]. rewrite <- list_elem_of_In, elem_of_py_sorted, list_elem_of_In, filter_In, andb_true_iff in Hw.
    destruct Hw as (Hw & Ht & He). split; [by apply list_elem_of_In|]. split; [|done].
    unfold applies in Ha. destruct (match w_tenant w with Some _ => _ | None => false end); [done|].
    by destruct (String.eqb_spec (w_scope w) "all").
Qed.

(** ** A concrete case *)

Lemma maintenance_agrees_witness :
  "r1"%string ∈ held_range_ids demo_windows [("r1", RangeRow (Some "t1") (Tags [TagStr "soc"])); ("r2", RangeRow (Some "t2") NoTags)]%string 150 /\
  (forall w wait, refuse_inside demo_windows (RangeRow (Some "t1") (Tags [TagStr "soc"]))%string "r1" 150 = Err (w, wait) -> 1 <= wait).
Proof.
  assert (H : forall w, w ∈ demo_windows -> w_tenant w <> Some "None"%string)
    by (intros w Hw; unfold demo_windows in Hw; repeat (apply elem_of_cons in Hw as [->|Hw]; [discriminate|]); by apply elem_of_nil in Hw).
  destruct (maintenance_agrees demo_windows [("r1", RangeRow (Some "t1") (Tags [TagStr "soc"])); ("r2", RangeRow (Some "t2") NoTags)]%string 150 H)
    as (_ & Hheld & Hwait & _). split.
  - apply Hheld. exists (RangeRow (Some "t1") (Tags [TagStr "soc"]))%string. split; [left|discriminate].
  - intros w wait Hr. by apply Hwait in Hr as (_ & ? & _).
Defined.
