(* ===== verification/Capacity.v ===== *)
(** * Cluster capacity: what bookings, classes and labs hold

    Models [control-plane/api/app/scheduler/capacity.py] ([ClusterCapacity]), the class holds of
    [control-plane/api/app/classes/holds.py], [drawing_on] of
    [control-plane/api/app/lab_sessions/holdings.py], and the fit of
    [control-plane/api/app/scheduler/service.py].  Times are seconds (UTC), days are day numbers.  A
    query's rows come in the tables' order.  A template's size ([template_demand] of its YAML) and
    the labs that draw now are read from the database record. *)

From S2P Require Import Prelude StateMachines.

Local Open Scope Z_scope.

Definition DAY : Z := 86400.

Record Resources := Res { vcpu : Z; ram_mb : Z; disk_gb : Z }.
Record Committed := MkCommitted { c_resources : Resources; c_events : Z; c_ranges : Z }.
Definition zero : Resources := Res 0 0 0.
Definition plus (a b : Resources) : Resources := Res (vcpu a + vcpu b) (ram_mb a + ram_mb b) (disk_gb a + disk_gb b).
Definition scale (n : Z) (a : Resources) : Resources := Res (vcpu a * n) (ram_mb a * n) (disk_gb a * n).
Definition upper (a b : Resources) : Resources :=
  Res (Z.max (vcpu a) (vcpu b)) (Z.max (ram_mb a) (ram_mb b)) (Z.max (disk_gb a) (disk_gb b)).

(** ** Tables *)

Inductive RangeMode := individual | collective.
#[export] Instance RangeMode_eq_dec : EqDecision RangeMode.
Proof. solve_decision. Defined.
Inductive ClassRangeKind := seat | shared.
#[export] Instance ClassRangeKind_eq_dec : EqDecision ClassRangeKind.
Proof. solve_decision. Defined.

Record Event := MkEvent {
  v_id : string; v_tenant : string; v_state : EventState; v_start : Z; v_end : Z; v_range : option string;
  v_template : option string; v_instructor : option string; v_need : Resources }.
(** [ClassSession] (one per booking), [Class], [ClassRange]. *)
Record Link := MkLink { n_class : string; n_mode : RangeMode }.
Record Class_ := MkClass { q_tenant : string; q_open : bool; q_end_date : Z; q_seats : Z }.
Record ClassRange := MkClassRange { x_class : string; x_kind : ClassRangeKind; x_template : string; x_range : option string; x_gone : bool }.
(** A lab that draws on a booking's hold ([holdings._drawing]). *)
Record Lab := MkLab { l_booking : string; l_range : option string; l_size : Resources }.
Record tables := Tables {
  k_events : list Event; k_links : gmap string Link; k_classes : gmap string Class_; k_ranges : list ClassRange;
  k_sizes : gmap string Resources; k_labs : list Lab }.

(** A range running now, and the range's end if it is known. *)
Record Load := MkLoad { o_range : string; o_size : Resources }.

Section Capacity.
(** [PROVISION_LEAD], [TEARDOWN_GRACE] *)
Context (PROVISION_LEAD TEARDOWN_GRACE : Z).

(** ** Class holds ([classes/holds.py]) *)

Definition NEEDS_RANGES : list EventState := HOLDING ++ [s_completed].
Definition key : Type := string * ClassRangeKind * string.
Record Hold := MkHold { h_key : key; h_start : Z; h_end : Z; h_resources : Resources; h_ranges : list string; h_events : list string }.

Definition last_day_end (end_date : Z) : Z := (end_date + 1) * DAY.
Definition kind_of (m : RangeMode) : ClassRangeKind := match m with individual => seat | collective => shared end.

(** The joined row of a booking: its link, its class's id and its class; [own]: it uses class ranges. *)
Definition owned (d : tables) (cls rng : string) : bool :=
  existsb (fun x => String.eqb x.(x_class) cls && bool_decide (x.(x_range) = Some rng)) d.(k_ranges).
Definition uses_class_ranges (d : tables) (l : Link) (e : Event) : bool :=
  bool_decide (l.(n_mode) = individual) || match e.(v_range) with None => true | Some r => owned d l.(n_class) r end.

(** The group of a booking in [holds], when it is in one. *)
Definition group_of (d : tables) (since : Z) (e : Event) : option key :=
  match d.(k_links) !! e.(v_id), e.(v_template) with
  | Some l, Some t =>
      match d.(k_classes) !! l.(n_class) with
      | Some c =>
          if c.(q_open) && String.eqb c.(q_tenant) e.(v_tenant) && (since <=? c.(q_end_date)) &&
             bool_decide (e.(v_state) ∈ NEEDS_RANGES) && uses_class_ranges d l e
          then Some (l.(n_class), kind_of l.(n_mode), t) else None
      | None => None
      end
  | _, _ => None
  end.

(** [live]: the class's ranges of this key that are not torn down. *)
Definition live (d : tables) (k : key) : list string :=
  omap (fun x => if bool_decide ((x.(x_class), x.(x_kind), x.(x_template)) = k) && negb x.(x_gone) then x.(x_range) else None) d.(k_ranges).

Definition min_list (x : Z) (l : list Z) : Z := fold_left Z.min l x.
Definition max_list (x : Z) (l : list Z) : Z := fold_left Z.max l x.

(** The hold of a key and its bookings, if its template has a size. *)
Definition hold_of (d : tables) (k : key) (events : list Event) : option Hold :=
  match d.(k_classes) !! k.1.1, d.(k_sizes) !! k.2 with
  | Some c, Some one =>
      let approved := List.filter (fun e => bool_decide (e.(v_state) ∈ HOLDING)) events in
      let starts := map v_start (match approved with [] => events | _ => approved end) in
      let first := match starts with s :: l => min_list s l | [] => 0 end - PROVISION_LEAD in
      let last := max_list (last_day_end c.(q_end_date)) (map v_end events) + TEARDOWN_GRACE in
      let n := if bool_decide (k.1.2 = seat) then c.(q_seats) else 1 in
      Some (MkHold k first last (scale n one) (live d k) (map v_id events))
  | _, _ => None
  end.

(** [holds]: every class hold that meets [start, end). *)
Definition groups (d : tables) (since : Z) : list key := fromkeys (omap (group_of d since) d.(k_events)).
Definition events_of (d : tables) (since : Z) (k : key) : list Event :=
  List.filter (fun e => bool_decide (group_of d since e = Some k)) d.(k_events).
Definition meets (start end_ : Z) (h : Hold) : bool := (h.(h_start) <? end_) && (start <? h.(h_end)).
Definition since_of (start : Z) : Z := (start - TEARDOWN_GRACE - DAY) / DAY.
Definition holds (d : tables) (start end_ : Z) : list Hold :=
  List.filter (meets start end_)
    (omap (fun k => hold_of d k (events_of d (since_of start) k)) (groups d (since_of start))).

(** [hold_key], [class_end] *)
Definition hold_key (d : tables) (e : Event) : option key :=
  match d.(k_links) !! e.(v_id), e.(v_template) with
  | Some l, Some t =>
      match d.(k_classes) !! l.(n_class) with
      | Some c => if String.eqb c.(q_tenant) e.(v_tenant) && uses_class_ranges d l e then Some (l.(n_class), kind_of l.(n_mode), t) else None
      | None => None
      end
  | _, _ => None
  end.
Definition class_end (d : tables) (e : Event) : option Z :=
  match hold_key d e with
  | Some k => option_map (fun c => Z.max (last_day_end c.(q_end_date)) e.(v_end)) (d.(k_classes) !! k.1.1)
  | None => None
  end.

(** ** Labs ([lab_sessions/holdings.py]) *)

(** [drawing_on], of one booking. *)
Definition drawing_on (d : tables) (event : string) : list string * Resources :=
  let labs := List.filter (fun l => String.eqb l.(l_booking) event) d.(k_labs) in
  (omap l_range labs, foldr (fun l => plus l.(l_size)) zero labs).

(** ** Bookings ([scheduler/capacity.py]) *)

(** What holds capacity: from, to, size, the ranges it already counts. *)
Record Item := MkItem { i_from : Z; i_to : Z; i_need : Resources; i_uses : list string }.

Definition held_window (start end_ : Z) : Z * Z := (start - PROVISION_LEAD, end_ + TEARDOWN_GRACE).

Definition item_of_hold (h : Hold) : Item := MkItem h.(h_start) h.(h_end) h.(h_resources) h.(h_ranges).
Definition item_of_event (d : tables) (e : Event) : Item :=
  let '(ranges, size) := drawing_on d e.(v_id) in
  MkItem (e.(v_start) - PROVISION_LEAD) (e.(v_end) + TEARDOWN_GRACE) (upper e.(v_need) size) (option_list e.(v_range) ++ ranges).

(** [_held]; [exclude]: the booking being re-checked. *)
Definition held_query (start end_ : Z) (exclude : option string) (e : Event) : bool :=
  bool_decide (e.(v_state) ∈ HOLDING) && (e.(v_start) <? end_ + PROVISION_LEAD) && (start - TEARDOWN_GRACE <? e.(v_end)) &&
  bool_decide (exclude <> Some e.(v_id)).
Definition _held (d : tables) (start end_ : Z) (exclude : option string) : list Item * list string :=
  let excluded := match exclude with Some i => List.find (fun e => String.eqb e.(v_id) i) d.(k_events) | None => None end in
  let k := match excluded with Some e => hold_key d e | None => None end in
  let skip := match excluded with Some e => option_list e.(v_range) ++ (drawing_on d e.(v_id)).1 | None => [] end in
  let hs := holds d (start - TEARDOWN_GRACE) (end_ + PROVISION_LEAD) in
  let absorbed := flat_map h_events hs in
  let mine := List.filter (fun h => bool_decide (Some h.(h_key) = k)) hs in
  let others := List.filter (fun h => negb (bool_decide (Some h.(h_key) = k))) hs in
  let events := List.filter (fun e => held_query start end_ exclude e && negb (bool_decide (e.(v_id) ∈ absorbed))) d.(k_events) in
  (map item_of_hold others ++ map (item_of_event d) events, skip ++ flat_map h_ranges mine).

(** [_sum]; [now]: the clock; [running], [ends]: of the instance. *)
Definition overlaps (t0 t1 : Z) (i : Item) : bool := (i.(i_from) <? t1) && (t0 <? i.(i_to)).
Definition counts (t0 : Z) (covered skip : list string) (ends : gmap string Z) (r : Load) : bool :=
  negb (bool_decide (r.(o_range) ∈ covered)) && negb (bool_decide (r.(o_range) ∈ skip)) &&
  match ends !! r.(o_range) with Some z => negb (z <=? t0) | None => true end.
Definition _sum (now : Z) (running : list Load) (ends : gmap string Z) (held : list Item) (t0 t1 : Z) (skip : list string) : Committed :=
  let items := List.filter (overlaps t0 t1) held in
  let covered := flat_map i_uses items in
  let booked := foldr (fun i => plus i.(i_need)) zero items in
  let loads := if now <? t1 then List.filter (counts t0 covered skip ends) running else [] in
  MkCommitted (foldl (fun a r => plus a r.(o_size)) booked loads) (zlen items) (zlen loads).

Section Provider.
Context (now : Z) (running : list Load) (ends : gmap string Z) (supply : Resources).

(** [committed], [committed_series], [committed_many] *)
Definition committed (d : tables) (start end_ : Z) (exclude : option string) : Committed :=
  let '(held, skip) := _held d start end_ exclude in _sum now running ends held start end_ skip.

Fixpoint series (fuel : nat) (held : list Item) (t end_ step : Z) : list Committed :=
  match fuel with
  | O => []
  | S f => if t <? end_ then _sum now running ends held t (t + step) [] :: series f held (t + step) end_ step else []
  end.
Definition committed_series (d : tables) (start end_ step : Z) : list Committed :=
  series (Z.to_nat ((end_ - start) / step + 1)) (_held d start end_ None).1 start end_ step.

Definition committed_many (d : tables) (windows : list (Z * Z)) (exclude : option string) : list Committed :=
  match windows with
  | [] => []
  | (a0, z0) :: rest =>
      let '(held, skip) := _held d (min_list a0 (map fst rest)) (max_list z0 (map snd rest)) exclude in
      map (fun w => _sum now running ends held w.1 w.2 skip) windows
  end.

(** ** Fit ([scheduler/service.py]) *)

Definition available (sup com : Resources) : Resources :=
  Res (Z.max 0 (vcpu sup - vcpu com)) (Z.max 0 (ram_mb sup - ram_mb com)) (Z.max 0 (disk_gb sup - disk_gb com)).
Inductive resource := VCPU | RAM | Disk.
Definition shortfalls (need free : Resources) : list resource :=
  (if vcpu free <? vcpu need then [VCPU] else []) ++ (if ram_mb free <? ram_mb need then [RAM] else []) ++
  (if disk_gb free <? disk_gb need then [Disk] else []).

Definition SLOT_STEP : Z := 900.
Fixpoint slices_from (fuel : nat) (t end_ : Z) : list (Z * Z) :=
  match fuel with O => [] | S f => if t <? end_ then (t, Z.min (t + SLOT_STEP) end_) :: slices_from f (t + SLOT_STEP) end_ else [] end.
Definition _slices (start end_ : Z) : list (Z * Z) := slices_from (Z.to_nat ((end_ - start) / SLOT_STEP + 1)) start end_.
Definition _max (rows : list Committed) : Committed :=
  match rows with
  | [] => MkCommitted zero 0 0
  | c :: rest => fold_left (fun a b => MkCommitted (upper (c_resources a) (c_resources b)) (Z.max (c_events a) (c_events b)) (Z.max (c_ranges a) (c_ranges b))) rest c
  end.
Definition peak_committed (d : tables) (start end_ : Z) (exclude : option string) : Committed :=
  _max (committed_many d (_slices start end_) exclude).

Record Assessment := MkAssessment { a_committed : Committed; a_free : Resources; a_reasons : list resource }.
Definition assess (d : tables) (start end_ : Z) (need : Resources) (exclude : option string) (peak : bool) : Assessment :=
  let '(hs, he) := held_window start end_ in
  let com := if peak then peak_committed d hs he exclude else committed d hs he exclude in
  let free := available supply (c_resources com) in
  MkAssessment com free (shortfalls need free).
End Provider.

(** ** The holds of every class, whatever the window *)

Definition group0 (d : tables) (e : Event) : option key :=
  match d.(k_links) !! e.(v_id), e.(v_template) with
  | Some l, Some t =>
      match d.(k_classes) !! l.(n_class) with
      | Some c =>
          if c.(q_open) && String.eqb c.(q_tenant) e.(v_tenant) && bool_decide (e.(v_state) ∈ NEEDS_RANGES) && uses_class_ranges d l e
          then Some (l.(n_class), kind_of l.(n_mode), t) else None
      | None => None
      end
  | _, _ => None
  end.
Definition class_since (d : tables) (since : Z) (k : key) : bool :=
  match d.(k_classes) !! k.1.1 with Some c => since <=? c.(q_end_date) | None => false end.

Lemma group_of_split d since e :
  group_of d since e = match group0 d e with Some k => if class_since d since k then Some k else None | None => None end.
Proof.
  unfold group_of, group0, class_since. destruct (k_links d !! v_id e) as [l|]; [|done]. destruct (v_template e); [|done].
  destruct (k_classes d !! n_class l) as [c|] eqn:Ec; [|done].
  destruct (q_open c); simpl; [|done]. destruct (String.eqb (q_tenant c) (v_tenant e)); simpl; [|done].
  destruct (bool_decide (v_state e ∈ NEEDS_RANGES)), (uses_class_ranges d l e); simpl; rewrite ?Ec, ?andb_true_r, ?andb_false_r; done.
Qed.

Lemma group0_class d e k : group0 d e = Some k -> exists l c, k_links d !! v_id e = Some l /\ n_class l = k.1.1 /\ k_classes d !! k.1.1 = Some c.
Proof.
  unfold group0. destruct (k_links d !! v_id e) as [l|]; [|done]. destruct (v_template e); [|done].
  destruct (k_classes d !! n_class l) as [c|] eqn:Ec; [|done]. case_match; [|done]. intros [= <-]. by exists l, c.
Qed.

Definition events0 (d : tables) (k : key) : list Event := List.filter (fun e => bool_decide (group0 d e = Some k)) d.(k_events).
Definition all_holds (d : tables) : list Hold :=
  omap (fun k => hold_of d k (events0 d k)) (fromkeys (omap (group0 d) d.(k_events))).

Lemma fromkeys_from_filter {T} `{EqDecision T} (p : T -> bool) seen l :
  fromkeys_from (List.filter p seen) (List.filter p l) = List.filter p (fromkeys_from seen l).
Proof.
  revert seen; induction l as [|x l IH]; intros seen; simpl; [done|].
  assert (Hin : p x = true -> x ∈ List.filter p seen <-> x ∈ seen).
  { intros Hp. rewrite !list_elem_of_In, filter_In. tauto. }
  destruct (p x) eqn:E; simpl.
  - destruct (decide (x ∈ seen)) as [Hs|Hs].
    + rewrite decide_True by by apply Hin. apply IH.
    + rewrite decide_False by by rewrite Hin. simpl. rewrite E. f_equal. rewrite <- IH. simpl. by rewrite E.
  - destruct (decide (x ∈ seen)); [apply IH|]. simpl. rewrite E, <- IH. simpl. by rewrite E.
Qed.

Lemma omap_guard {T U} (f : T -> option U) (p : U -> bool) l :
  omap (fun x => match f x with Some y => if p y then Some y else None | None => None end) l = List.filter p (omap f l).
Proof. induction l as [|x l IH]; [done|]. cbn [omap list_omap List.filter]; destruct (f x) as [y|]; simpl; [|done]. destruct (p y); simpl; by rewrite IH. Qed.

Lemma filter_ext_in {T} (p q : T -> bool) l : (forall x, x ∈ l -> p x = q x) -> List.filter p l = List.filter q l.
Proof.
  induction l as [|x l IH]; intros Hpq; simpl; [done|]. rewrite (Hpq x) by left. rewrite IH; [done|].
  intros y Hy. apply Hpq. by right.
Qed.

Lemma omap_ext_in {T U} (f g : T -> option U) (l : list T) : (forall x, x ∈ l -> f x = g x) -> omap f l = omap g l.
Proof.
  induction l as [|x l IH]; intros Hfg; [done|]. assert (IH' : omap f l = omap g l) by (apply IH; intros y Hy; apply Hfg; by right).
  cbn [omap list_omap] in *. rewrite (Hfg x) by left. by rewrite IH'.
Qed.

(** Leaving out elements none of whose images would pass. *)
Lemma filter_omap_keep {T U} (c : T -> bool) (p : U -> bool) (f g : T -> option U) (l : list T) :
  (forall x, c x = true -> f x = g x) -> (forall x y, c x = false -> g x = Some y -> p y = false) ->
  List.filter p (omap f (List.filter c l)) = List.filter p (omap g l).
Proof.
  intros Hf Hp. induction l as [|x l IH]; [done|]. cbn [List.filter]. destruct (c x) eqn:E.
  - cbn [omap list_omap]. rewrite (Hf x E). destruct (g x) as [y|]; [|done]. cbn [List.filter].
    destruct (p y); [by f_equal|done].
  - rewrite IH. cbn [omap list_omap]. destruct (g x) as [y|] eqn:Eg; [|done]. cbn [List.filter]. by rewrite (Hp x y E Eg).
Qed.

Lemma groups_split d since : groups d since = List.filter (class_since d since) (fromkeys (omap (group0 d) (k_events d))).
Proof.
  unfold groups, fromkeys. rewrite <- (fromkeys_from_filter _ []), <- omap_guard. simpl. f_equal.
  apply omap_ext_in. intros e _. apply group_of_split.
Qed.

Lemma events_of_split d since k : class_since d since k = true -> events_of d since k = events0 d k.
Proof.
  intros Hk. unfold events_of, events0. apply filter_ext_in. intros e _. rewrite group_of_split.
  destruct (group0 d e) as [k'|]; [|done]. destruct (class_since d since k') eqn:E; [done|].
  rewrite !bool_decide_eq_false_2; [done|congruence|done].
Qed.

Lemma min_list_le x l : min_list x l <= x /\ forall y, y ∈ l -> min_list x l <= y.
Proof.
  unfold min_list. revert x; induction l as [|y l IH]; intros x; simpl; [split; [lia|by intros y ?%elem_of_nil]|].
  destruct (IH (Z.min x y)) as [H1 H2]. split; [lia|]. intros z [->|Hz]%elem_of_cons; [lia|auto].
Qed.
Lemma max_list_ge x l : x <= max_list x l /\ forall y, y ∈ l -> y <= max_list x l.
Proof.
  unfold max_list. revert x; induction l as [|y l IH]; intros x; simpl; [split; [lia|by intros y ?%elem_of_nil]|].
  destruct (IH (Z.max x y)) as [H1 H2]. split; [lia|]. intros z [->|Hz]%elem_of_cons; [lia|auto].
Qed.
Lemma max_list_le x l b : x <= b -> (forall y, y ∈ l -> y <= b) -> max_list x l <= b.
Proof.
  unfold max_list. revert x; induction l as [|y l IH]; intros x Hx Hl; simpl; [done|].
  apply IH; [specialize (Hl y ltac:(by left)); lia|]. intros z Hz. apply Hl. by right.
Qed.

(** ** Hypotheses on the tables *)

Hypothesis lead_nonneg : 0 <= PROVISION_LEAD.
Hypothesis grace_nonneg : 0 <= TEARDOWN_GRACE.
Context (d : tables).
(** Ids are primary keys. *)
Hypothesis ids_unique : forall e e', e ∈ k_events d -> e' ∈ k_events d -> v_id e = v_id e' -> e = e'.
(** No session runs past the day after its class's last day. *)
Hypothesis sessions_inside : forall e l c, e ∈ k_events d -> k_links d !! v_id e = Some l ->
  k_classes d !! n_class l = Some c -> v_end e <= last_day_end (q_end_date c) + DAY.

Lemma hold_end_bound k c h : k_classes d !! k.1.1 = Some c -> hold_of d k (events0 d k) = Some h ->
  h_end h <= last_day_end (q_end_date c) + DAY + TEARDOWN_GRACE.
Proof.
  unfold hold_of. intros Hc. rewrite Hc. destruct (k_sizes d !! k.2); [|done]. intros [= <-]. cbn [h_end].
  assert (max_list (last_day_end (q_end_date c)) (map v_end (events0 d k)) <= last_day_end (q_end_date c) + DAY); [|lia].
  apply max_list_le; [unfold DAY; lia|]. intros y Hy. apply list_elem_of_fmap in Hy as (e & -> & He).
  unfold events0 in He. apply list_elem_of_In, filter_In in He as [He Hg]. apply list_elem_of_In in He. apply bool_decide_eq_true in Hg.
  apply group0_class in Hg as (l & c' & Hl & Hn & Hc'). rewrite <- Hn in Hc. by eapply sessions_inside.
Qed.

(** Leaving out classes that ended before the window leaves out no hold that meets it. *)
Lemma holds_all start end_ : holds d start end_ = List.filter (meets start end_) (all_holds d).
Proof.
  unfold holds, all_holds. rewrite groups_split. apply filter_omap_keep.
  - intros k E. by rewrite events_of_split.
  - intros k h E Eh. unfold class_since in E.
    destruct (k_classes d !! k.1.1) as [c|] eqn:Ec; [|unfold hold_of in Eh; by rewrite Ec in Eh].
    pose proof (hold_end_bound k c h Ec Eh) as Hb. reflect_bools. unfold meets. apply andb_false_iff. right. apply Z.ltb_ge.
    unfold since_of, last_day_end, DAY in *. pose proof (Z.mul_div_le (start - TEARDOWN_GRACE - 86400) 86400 ltac:(lia)).
    pose proof (Z.mul_succ_div_gt (start - TEARDOWN_GRACE - 86400) 86400 ltac:(lia)). lia.
Qed.

(** A booking that holds capacity lies inside the hold of its group. *)
Lemma hold_spans h e : h ∈ all_holds d -> e ∈ k_events d -> v_id e ∈ h_events h -> v_state e ∈ HOLDING ->
  h_start h <= v_start e - PROVISION_LEAD /\ v_end e + TEARDOWN_GRACE <= h_end h.
Proof.
  intros Hh He Hi Hst. unfold all_holds in Hh. apply list_elem_of_omap in Hh as (k & _ & Hk).
  unfold hold_of in Hk. destruct (k_classes d !! k.1.1) as [c|]; [|done]. destruct (k_sizes d !! k.2); [|done].
  injection Hk as <-. cbn [h_start h_end h_events] in *.
  apply list_elem_of_fmap in Hi as (e' & Hid & He'). assert (e' = e) as ->.
  { apply ids_unique; [|done|done]. unfold events0 in He'. by apply list_elem_of_In, filter_In in He' as [?%list_elem_of_In _]. }
  split.
  - assert (Ha : e ∈ List.filter (fun e => bool_decide (v_state e ∈ HOLDING)) (events0 d k)).
    { apply list_elem_of_In, filter_In. split; [by apply list_elem_of_In|]. by apply bool_decide_eq_true. }
    destruct (List.filter _ (events0 d k)) as [|e0 es]; [by apply elem_of_nil in Ha|]. simpl.
    destruct (min_list_le (v_start e0) (map v_start es)) as [H1 H2].
    apply elem_of_cons in Ha as [->|Ha]; [lia|]. specialize (H2 (v_start e) ltac:(apply list_elem_of_fmap; by exists e)). lia.
  - destruct (max_list_ge (last_day_end (q_end_date c)) (map v_end (events0 d k))) as [_ H].
    specialize (H (v_end e) ltac:(apply list_elem_of_fmap; by exists e)). lia.
Qed.

(** ** What overlaps a window does not depend on the span it was read for *)

Lemma filter_map_filter {T U} (ov : U -> bool) (f : T -> U) (p q : T -> bool) l :
  (forall x, x ∈ l -> ov (f x) = true -> p x = q x) ->
  List.filter ov (map f (List.filter p l)) = List.filter ov (map f (List.filter q l)).
Proof.
  induction l as [|x l IH]; intros Hpq; simpl; [done|].
  assert (IH' : List.filter ov (map f (List.filter p l)) = List.filter ov (map f (List.filter q l)))
    by (apply IH; intros y Hy; apply Hpq; by right).
  destruct (ov (f x)) eqn:E.
  - rewrite (Hpq x) by (done || left). destruct (q x); simpl; [by rewrite E, IH'|done].
  - destruct (p x), (q x); simpl; rewrite ?E; done.
Qed.

Context (exclude : option string).
(** The booking being re-checked uses no class ranges. *)
Hypothesis plain : forall e, e ∈ k_events d -> exclude = Some (v_id e) -> hold_key d e = None.

Definition excluded_skip : list string :=
  match match exclude with Some i => List.find (fun e => String.eqb (v_id e) i) (k_events d) | None => None end with
  | Some e => option_list (v_range e) ++ (drawing_on d (v_id e)).1
  | None => []
  end.

Lemma held_plain start end_ : _held d start end_ exclude =
  (map item_of_hold (holds d (start - TEARDOWN_GRACE) (end_ + PROVISION_LEAD)) ++
   map (item_of_event d) (List.filter (fun e => held_query start end_ exclude e &&
     negb (bool_decide (v_id e ∈ flat_map h_events (holds d (start - TEARDOWN_GRACE) (end_ + PROVISION_LEAD))))) (k_events d)),
   excluded_skip).
Proof.
  unfold _held, excluded_skip. set (hs := holds _ _ _).
  assert (Hf : forall l : list Hold, List.filter (fun h => bool_decide (Some (h_key h) = None)) l = [])
    by (induction l as [|h l IH]; [done|]; cbn [List.filter]; rewrite bool_decide_eq_false_2 by done; exact IH).
  assert (Ho : forall l : list Hold, List.filter (fun h => negb (bool_decide (Some (h_key h) = None))) l = l)
    by (induction l as [|h l IH]; [done|]; cbn [List.filter]; rewrite bool_decide_eq_false_2 by done; cbn [negb]; by rewrite IH).
  destruct (match exclude with Some i => _ | None => None end) as [x|] eqn:Ex.
  - assert (hold_key d x = None) as ->.
    { destruct exclude as [i|]; [|done]. apply find_some in Ex as [Hx Heq]. apply plain; [by apply list_elem_of_In|].
      f_equal. symmetry. by apply String.eqb_eq. }
    rewrite Hf, Ho. cbn [flat_map]. by rewrite app_nil_r.
  - by rewrite Hf, Ho.
Qed.

Lemma held_window_same start end_ a z : start <= a -> z <= end_ ->
  List.filter (overlaps a z) (_held d start end_ exclude).1 = List.filter (overlaps a z) (_held d a z exclude).1.
Proof.
  intros Ha Hz. rewrite !held_plain. cbn [fst]. rewrite !List.filter_app, !holds_all. f_equal.
  - apply filter_map_filter. intros h _ Ho. unfold overlaps, item_of_hold in Ho. cbn [i_from i_to] in Ho. reflect_bools.
    unfold meets. rewrite !(proj2 (Z.ltb_lt _ _)) by lia. done.
  - apply filter_map_filter. intros e He Ho. unfold overlaps, item_of_event in Ho.
    destruct (drawing_on d (v_id e)) as [rs sz]. cbn [i_from i_to] in Ho. reflect_bools. unfold held_query.
    destruct (bool_decide (v_state e ∈ HOLDING)) eqn:Est; [|done]. apply bool_decide_eq_true in Est.
    rewrite !(proj2 (Z.ltb_lt _ _)) by lia. cbn [andb]. f_equal; apply (f_equal negb), bool_decide_ext.
    assert (Hin : forall s t, s <= a -> z <= t ->
      v_id e ∈ flat_map h_events (List.filter (meets (s - TEARDOWN_GRACE) (t + PROVISION_LEAD)) (all_holds d)) <->
      exists h, h ∈ all_holds d /\ v_id e ∈ h_events h).
    { intros s t Hs Ht. rewrite list_elem_of_In, in_flat_map. split.
      - intros (h & Hh & Hi). apply filter_In in Hh as [Hh _]. exists h. by rewrite !list_elem_of_In.
      - intros (h & Hh & Hi). exists h. rewrite filter_In, <- !list_elem_of_In. split; [|done]. split; [done|].
        destruct (hold_spans h e Hh He Hi Est). unfold meets. by rewrite !(proj2 (Z.ltb_lt _ _)) by lia. }
    rewrite !Hin by lia. done.
Qed.

Lemma sum_window now running ends held held' t0 t1 skip :
  List.filter (overlaps t0 t1) held = List.filter (overlaps t0 t1) held' ->
  _sum now running ends held t0 t1 skip = _sum now running ends held' t0 t1 skip.
Proof. unfold _sum. by intros ->. Qed.

Lemma many_agrees now running ends windows :
  committed_many now running ends d windows exclude = map (fun w => committed now running ends d w.1 w.2 exclude) windows.
Proof.
  unfold committed_many. destruct windows as [|[a0 z0] rest]; [done|].
  destruct (min_list_le a0 (map fst rest)) as [Ha Hr]. destruct (max_list_ge z0 (map snd rest)) as [Hz Hs].
  rewrite (surjective_pairing (_held d (min_list _ _) _ exclude)). apply map_ext_in. intros [a z] Hw%list_elem_of_In.
  unfold committed. rewrite (surjective_pairing (_held d _ _ exclude)), !held_plain. cbn [fst snd].
  pose proof (held_window_same (min_list a0 (map fst rest)) (max_list z0 (map snd rest)) a z) as Hsame.
  rewrite !held_plain in Hsame. apply sum_window, Hsame; clear Hsame.
  - apply elem_of_cons in Hw as [[= -> ->]|Hw]; [done|]. apply Hr, list_elem_of_fmap. by exists (a, z).
  - apply elem_of_cons in Hw as [[= -> ->]|Hw]; [done|]. apply Hs, list_elem_of_fmap. by exists (a, z).
Qed.
(** Reading every booking, class hold and lab once over the span of all the windows and summing each window
    from that answers every window as [committed] answers it alone: [next_free_slot] and the peak of a long
    booking, which probe hundreds of windows in one pass, see the same load as a check of each window would.
    The rows left out of one window's read never overlap it, and a session counted through its class's hold in the
    wide read is counted through it in the narrow one.  The booking re-checked, if any, is not a class session. *)
Theorem committed_many_agrees now running ends windows :
  committed_many now running ends d windows exclude = map (fun w => committed now running ends d w.1 w.2 exclude) windows.
Proof. apply many_agrees. Qed.
End Capacity.

(** ** Concrete cases *)

(** Lead 30, grace 15.  Booking [b1] holds day 0 hour 1; class [c1] (2 Students, its last day is day 1) has a session [s1]. *)
Definition demo_res : Resources := Res 4 8 10.
Definition demo_tables : tables := Tables
  [MkEvent "b1" "t" s_scheduled 3600 7200 (Some "r1") None None demo_res;
   MkEvent "s1" "t" s_scheduled 90000 93600 None (Some "tp") None demo_res]%string
  {[ "s1"%string := MkLink "c1" individual ]} {[ "c1"%string := MkClass "t" true 1 2 ]}
  [MkClassRange "c1" seat "tp" (Some "r9") false]%string {[ "tp"%string := demo_res ]} [].

Lemma demo_ids e e' : e ∈ k_events demo_tables -> e' ∈ k_events demo_tables -> v_id e = v_id e' -> e = e'.
Proof.
  intros He He'. cbn [k_events demo_tables] in *. repeat (apply elem_of_cons in He as [->|He]); [| |by apply elem_of_nil in He];
    repeat (apply elem_of_cons in He' as [->|He']); try (by apply elem_of_nil in He'); try done; intros [=].
Qed.
Lemma demo_inside e l c : e ∈ k_events demo_tables -> k_links demo_tables !! v_id e = Some l ->
  k_classes demo_tables !! n_class l = Some c -> v_end e <= last_day_end (q_end_date c) + DAY.
Proof.
  intros He Hl Hc. cbn [k_events demo_tables] in He. repeat (apply elem_of_cons in He as [->|He]); [discriminate Hl| |by apply elem_of_nil in He].
  injection Hl as <-. injection Hc as <-. vm_compute. discriminate.
Qed.

Lemma committed_many_agrees_witness :
  committed_many 30 15 0 [MkLoad "r9" demo_res] ∅ demo_tables [(3600, 7200); (90000, 93600)] None =
  [MkCommitted (Res 8 16 20) 1 1; MkCommitted (Res 8 16 20) 1 0] /\
  committed_many 30 15 0 [MkLoad "r9" demo_res] ∅ demo_tables [(3600, 7200); (90000, 93600)] None =
  map (fun w => committed 30 15 0 [MkLoad "r9" demo_res] ∅ demo_tables w.1 w.2 None) [(3600, 7200); (90000, 93600)].
Proof.
  split; [vm_compute; reflexivity|].
  apply (committed_many_agrees 30 15 ltac:(lia) ltac:(lia) demo_tables demo_ids demo_inside None).
  intros e _ [=].
Defined.

(** With a class's session re-checked ([exclude]), one wide read leaves the class's running range [r9] out of every
    window, the read of one window only where the class's hold meets it. *)
Example committed_many_differs :
  committed_many 30 15 0 [MkLoad "r9" demo_res] ∅ demo_tables [(3600, 7200); (90000, 93600)] (Some "s1"%string) <>
  map (fun w => committed 30 15 0 [MkLoad "r9" demo_res] ∅ demo_tables w.1 w.2 (Some "s1"%string)) [(3600, 7200); (90000, 93600)].
Proof. vm_compute. discriminate. Qed.
