(* ===== verification/Slots.v ===== *)
(** * The next free slot of a booking

    Models the fit of a booking and the search for its next free slot in
    [control-plane/api/app/scheduler/service.py] ([conflicts], [until_class_end], [fit], [_ceil],
    [next_free_slot], [_screen], [_blocked_spans], [maintenance_spans]).  Times are seconds (UTC).  The
    search screens a grid of starts with loads read once, then asks [fit]; the theorem says the screen
    never passes over a start that [fit] would accept, and what the slot found satisfies. *)

From S2P Require Import Prelude StateMachines Lease RangeOps MaintenanceWindows MaintenanceQueries Capacity.

Local Open Scope Z_scope.

Section Slots.
Context (PROVISION_LEAD TEARDOWN_GRACE NEXT_FREE_DAYS : Z).

(** ** Conflicts *)



(** ** Fit *)



Section Search.
(** The provider: the clock, the running ranges, their known ends, the supply. *)
Context (now : Z) (running : list Load) (ends : gmap string Z) (supply : Resources).


(** ** The grid *)



(** ** The screen *)



(** ** The search *)





(** ** Lemmas *)















Hypothesis lead_nonneg : 0 <= PROVISION_LEAD.
Hypothesis grace_nonneg : 0 <= TEARDOWN_GRACE.
Context (d : tables).
Hypothesis ids_unique : forall e e', e ∈ k_events d -> e' ∈ k_events d -> v_id e = v_id e' -> e = e'.
Hypothesis sessions_inside : forall e l c, e ∈ k_events d -> k_links d !! v_id e = Some l ->
  k_classes d !! n_class l = Some c -> v_end e <= last_day_end (q_end_date c) + DAY.


End Search.
End Slots.

(** ** A concrete search *)


