(* ===== verification/RangeLifecycle.v ===== *)
(** * Building and tearing down a booked range

    Models [control-plane/api/app/range_lifecycle.py], the scheduler's path to range operations, over the
    acceptance and dispatch of RangeOps.v.  A broker that is down leaves the operation pending.  The
    lemmas say when a build is accepted, and what "settled" means of a teardown. *)

From S2P Require Import Prelude StateMachines RangeOps.

Local Open Scope Z_scope.

(** A range's row with its operations; [r_lab]: a lab session's ([is_lab_range]). *)
Record range := Rng { r_deleted : bool; r_lab : bool; r_db : rdb }.
(** What the call meets: the clock, the broker's answer (a task id, or down), the maintenance windows and the pool. *)
Record site := Site { s_now : Z; s_broker : option string; s_covers : bool; s_pool : bool }.

Definition UP_STATES : list RangeState := [ready; running; stopped; provisioning].
(** [BYPASS_KINDS] *)
Inductive bypass := BYPASS_EMERGENCY | BYPASS_BOOKING_ENDED | BYPASS_CANARY.
Definition bypass_text (b : bypass) : string :=
  match b with BYPASS_EMERGENCY => "emergency" | BYPASS_BOOKING_ENDED => "booking_ended" | BYPASS_CANARY => "canary" end.

(** What happened, as the caller's audit line says it. *)
Inductive refusal := LabRange | Refused (e : exn).
Inductive note :=
| NoLongerExists | Already (s : RangeState) | CannotProvision (s : RangeState) | RefusedFor (r : refusal)
| Sent | WillBeResent | TakenOver (b : bypass) (sent : bool) | BuildStarted (s : RangeState) | Retired | Meanwhile.

Definition with_db (r : range) (d : rdb) : range := Rng r.(r_deleted) r.(r_lab) d.
Definition at_now (n : Z) (d : rdb) : rdb :=
  Rdb n d.(d_state) d.(d_error) d.(d_output) d.(d_ops) d.(d_lease) d.(d_snapshot) d.(d_exercise_running) d.(d_reservations) d.(d_next).

Section Lifecycle.
Context (stale_after : Z) (request_hash : action -> string).

(** [_begin]: the task id and the range after the commit and the send. *)
Definition _begin (st : site) (r : range) (a : action) (window_bypass : option bypass) : result refusal (option string * range) :=
  if r.(r_lab) then Err LabRange
  else
    match accept stale_after request_hash (at_now st.(s_now) r.(r_db)) a None (option_map bypass_text window_bypass)
            (AcceptEnv st.(s_covers) st.(s_pool)) with
    | Err e => Err (Refused e)
    | Ok (o, d, made) =>
        let d' := if made then (dispatch o.(o_id) st.(s_broker) (fun x => x) d).2 else d in
        Ok (match find_op o.(o_id) d' with Some o' => o'.(o_task) | None => None end, with_db r d')
    end.

Definition begin_provision (st : site) (r : range) := _begin st r Provision None.
Definition begin_destroy (st : site) (r : range) (window_bypass : option bypass) := _begin st r Destroy window_bypass.

(** [provision_for_booking]: whether it was built by the caller (then [before_build] ran in the same transaction),
    what happened, the range. *)
Definition provision_for_booking (st : site) (rng : option range) : bool * note * option range :=
  match rng with
  | None => (false, NoLongerExists, None)
  | Some r =>
      let s := r.(r_db).(d_state) in
      if r.(r_deleted) then (false, NoLongerExists, rng)
      else if bool_decide (s ∈ UP_STATES) then (false, Already s, rng)
      else if negb (range_can_transition_to s provisioning) then (false, CannotProvision s, rng)
      else
        match begin_provision st r with
        | Err e => (false, RefusedFor e, rng)
        | Ok (task, r') => (true, match task with Some _ => Sent | None => WillBeResent end, Some r')
        end
  end.

(** [discard_unbuilt]; [seen]: the state the range was loaded in. *)
Definition discard_unbuilt (seen : RangeState) (rng : option range) : bool * note * option range :=
  match rng with
  | None => (true, NoLongerExists, None)
  | Some r =>
      if r.(r_deleted) || bool_decide (seen = destroyed) then (true, NoLongerExists, rng)
      else if negb (bool_decide (seen = created)) then (false, BuildStarted seen, rng)
      else if bool_decide (r.(r_db).(d_state) = created) then (true, Retired, Some (with_db r (set_range destroyed r.(r_db).(d_error) r.(r_db))))
      else (false, Meanwhile, rng)
  end.

(** [destroy_for_booking]: whether it is settled, what happened, the range. *)
Definition destroy_plain (st : site) (r : range) (window_bypass : option bypass) : bool * note * option range :=
  let s := r.(r_db).(d_state) in
  if bool_decide (s ∈ [destroying; destroyed]) then (true, Already s, Some r)
  else
    match begin_destroy st r window_bypass with
    | Err e => (false, RefusedFor e, Some r)
    | Ok (task, r') => (true, match task with Some _ => Sent | None => WillBeResent end, Some r')
    end.
Definition destroy_for_booking (st : site) (rng : option range) (window_bypass : option bypass) : bool * note * option range :=
  match rng with
  | None => (true, NoLongerExists, None)
  | Some r =>
      if r.(r_deleted) then (true, NoLongerExists, rng)
      else
        match (if bool_decide (r.(r_db).(d_state) = destroying) then window_bypass else None) with
        | Some b =>
            match run_destroy_with_bypass (at_now st.(s_now) r.(r_db)) (bypass_text b) false with
            | Ok (Some id, d) =>
                if match find_op id d with Some o => bool_decide (o.(o_status) = Pending) | None => false end
                then let '(sent, _, d') := dispatch id st.(s_broker) (fun x => x) d in (true, TakenOver b sent, Some (with_db r d'))
                else (true, TakenOver b true, Some (with_db r d))
            | _ => destroy_plain st r window_bypass
            end
        | None => destroy_plain st r window_bypass
        end
  end.

(** ** Lemmas *)

Lemma bypass_known b : bypass_text b ∈ BYPASS_KINDS.
Proof. destruct b; unfold BYPASS_KINDS, bypass_text; set_solver. Qed.

(** A bypassed takeover never raises. *)
Lemma takeover_ok d b : exists r, run_destroy_with_bypass d (bypass_text b) false = Ok r.
Proof.
  unfold run_destroy_with_bypass. rewrite (bool_decide_eq_true_2 _ (bypass_known b)). cbn [negb].
  destruct (newest_destroy d); eauto.
Qed.

Lemma dispatch_state id broker d : d_state (dispatch id broker (fun x => x) d).2 = d_state d.
Proof.
  unfold dispatch. destruct (find_op id d) as [o|]; [|done]. destruct (bool_decide _); [|done]. by destruct broker.
Qed.

Lemma begin_ok st r a b task r' : _begin st r a b = Ok (task, r') ->
  r_lab r = false /\ d_state (r_db r') = in_progress a /\ r_deleted r' = r_deleted r /\ r_lab r' = false.
Proof.
  unfold _begin. destruct (r_lab r) eqn:El; [done|].
  destruct (accept _ _ _ _ _ _ _) as [[[o d] cr]|e] eqn:E; [|done]. intros [= <- <-]. cbn [with_db r_db r_deleted r_lab].
  destruct cr; [|by apply accept_replayed in E as (_ & Hr & _)].
  apply accept_created in E as (d1 & _ & _ & _ & -> & _). rewrite dispatch_state. done.
Qed.

Lemma begin_refused_in_window st r a : s_covers st = true -> a ∈ REFUSED_ACTIONS -> exists e, _begin st r a None = Err e.
Proof.
  intros Hc Ha. unfold _begin. destruct (r_lab r); [by eauto|]. unfold accept. cbn [option_map replay_of given window_covers].
  rewrite (bool_decide_eq_true_2 _ Ha), Hc. cbn [bool_decide andb negb]. eauto.
Qed.

(** A bypass makes the windows irrelevant. *)
Lemma begin_bypass st r a b c : _begin st r a (Some b) = _begin (Site (s_now st) (s_broker st) c (s_pool st)) r a (Some b).
Proof.
  unfold _begin. destruct (r_lab r); [done|]. unfold accept. cbn [option_map window_covers s_covers s_now s_pool pool_ok].
  rewrite (bool_decide_eq_false_2 (Some _ = None)) by done. by rewrite !andb_false_r.
Qed.

Definition left_to_tear_down (r : range) : Prop := r_deleted r = false /\ d_state (r_db r) ∉ [destroying; destroyed].

Lemma plain_settled st r b n rng : destroy_plain st r b = (true, n, rng) -> exists r', rng = Some r' /\ ~ left_to_tear_down r'.
Proof.
  unfold destroy_plain, left_to_tear_down. destruct (bool_decide (d_state (r_db r) ∈ [destroying; destroyed])) eqn:Es.
  - intros [= <- <-]. apply bool_decide_eq_true in Es. exists r. tauto.
  - destruct (begin_destroy st r b) as [[task r']|e] eqn:E; [|done]. intros [= <- <-]. exists r'. split; [done|].
    apply begin_ok in E as (_ & -> & _). cbn [in_progress]. set_solver.
Qed.

Lemma built_spec st r n rng : provision_for_booking st (Some r) = (true, n, rng) ->
  exists r', rng = Some r' /\ d_state (r_db r') = provisioning /\ r_deleted r' = false /\ r_lab r = false /\
    d_state (r_db r) ∉ UP_STATES /\ s_covers st = false.
Proof.
  unfold provision_for_booking. destruct (r_deleted r) eqn:Ed; [done|]. case_bool_decide as Hu; [done|].
  destruct (negb _); [done|]. unfold begin_provision. destruct (_begin st r Provision None) as [[task r']|e] eqn:E; [|done].
  intros [= <- <-]. exists r'. assert (Hc : s_covers st = false).
  { destruct (s_covers st) eqn:Hc; [|done]. destruct (begin_refused_in_window st r Provision Hc) as [e He]; [unfold REFUSED_ACTIONS; set_solver|congruence]. }
  apply begin_ok in E as (H1 & H2 & H3 & _). by rewrite H3, Ed.
Qed.

Lemma not_built_same st rng n rng' : provision_for_booking st rng = (false, n, rng') -> rng' = rng.
Proof.
  unfold provision_for_booking. destruct rng as [r|]; [|by intros [= _ <-]].
  destruct (r_deleted r); [by intros [= _ <-]|]. case_bool_decide; [by intros [= _ <-]|]. destruct (negb _); [by intros [= _ <-]|].
  destruct (begin_provision st r) as [[]|]; [done|by intros [= _ <-]].
Qed.

Lemma not_settled_same st rng b n rng' : destroy_for_booking st rng b = (false, n, rng') -> rng' = rng.
Proof.
  assert (Hp : forall r n rng', destroy_plain st r b = (false, n, rng') -> rng' = Some r).
  { intros r n' rng''. unfold destroy_plain. case_bool_decide; [done|]. destruct (begin_destroy st r b) as [[]|]; [done|by intros [= _ <-]]. }
  unfold destroy_for_booking. destruct rng as [r|]; [|done]. destruct (r_deleted r); [done|].
  destruct (if bool_decide _ then b else None) as [b'|]; [|apply Hp].
  destruct (run_destroy_with_bypass _ _ _) as [[[id|] d]|]; [|apply Hp..].
  destruct (match find_op id d with Some _ => _ | None => false end); [by destruct (dispatch _ _ _ _) as [[]]|done].
Qed.

Lemma takeover_state d b id d' : run_destroy_with_bypass d b false = Ok (Some id, d') -> d_state d' = d_state d.
Proof. unfold run_destroy_with_bypass. destruct (negb _); [done|]. destruct (newest_destroy d); [|done]. by intros [= <- <-]. Qed.

Lemma settled_spec st r b n rng : destroy_for_booking st (Some r) b = (true, n, rng) ->
  exists r', rng = Some r' /\ ~ left_to_tear_down r'.
Proof.
  unfold destroy_for_booking. destruct (r_deleted r) eqn:Ed.
  - intros [= <- <-]. exists r. split; [done|]. unfold left_to_tear_down. rewrite Ed. by intros [].
  - destruct (if bool_decide (d_state (r_db r) = destroying) then b else None) as [b'|] eqn:Eb; [|apply plain_settled].
    destruct (bool_decide (d_state (r_db r) = destroying)) eqn:Es; [|done]. apply bool_decide_eq_true in Es.
    destruct (run_destroy_with_bypass _ _ _) as [[[id|] d]|] eqn:Er; [|apply plain_settled..].
    apply takeover_state in Er. change (d_state d = d_state (r_db r)) in Er.
    destruct (match find_op id d with Some _ => _ | None => false end).
    + destruct (dispatch id (s_broker st) (fun x => x) d) as [[sent l] d'] eqn:Edp. intros [= <- <-].
      exists (with_db r d'). split; [done|]. unfold left_to_tear_down. cbn [with_db r_db].
      pose proof (dispatch_state id (s_broker st) d) as Hd. rewrite Edp in Hd. cbn [snd] in Hd. rewrite Hd, Er, Es. set_solver.
    + intros [= <- <-]. exists (with_db r d). split; [done|]. unfold left_to_tear_down. cbn [with_db r_db]. rewrite Er, Es. set_solver.
Qed.

(** Teardowns and maintenance windows.  A booking that ended takes its range down whether or not a window covers
    it (the answer, the range and what is sent are the same), and when it is settled nothing is left to tear down;
    a cancelled booking's teardown inside a window is refused and changes nothing, so the caller retries, unless the
    range is already going or gone; and no range is ever built for a booking inside a window. *)
Theorem teardown_windows st r :
  (forall b c, destroy_for_booking st (Some r) (Some b) =
     destroy_for_booking (Site (s_now st) (s_broker st) c (s_pool st)) (Some r) (Some b)) /\
  (forall b n rng, destroy_for_booking st (Some r) b = (true, n, rng) -> exists r', rng = Some r' /\ ~ left_to_tear_down r') /\
  (left_to_tear_down r -> s_covers st = true ->
     exists e, destroy_for_booking st (Some r) None = (false, RefusedFor e, Some r)) /\
  (forall n rng, s_covers st = true -> provision_for_booking st (Some r) = (true, n, rng) -> False).
Proof.
  split; [|split; [intros b n rng; apply settled_spec|split]].
  - intros b c.
    assert (Hp : destroy_plain st r (Some b) = destroy_plain (Site (s_now st) (s_broker st) c (s_pool st)) r (Some b))
      by (unfold destroy_plain, begin_destroy; by rewrite (begin_bypass st r Destroy b c)).
    unfold destroy_for_booking. rewrite Hp. done.
  - intros [Hd Hs] Hc. unfold destroy_for_booking, destroy_plain. rewrite Hd, (bool_decide_eq_false_2 _ Hs).
    rewrite (bool_decide_eq_false_2 (_ = destroying)) by (intros Es; apply Hs; rewrite Es; set_solver).
    destruct (begin_refused_in_window st r Destroy Hc) as [e He]; [unfold REFUSED_ACTIONS; set_solver|].
    unfold begin_destroy. rewrite He. by exists e.
  - intros n rng Hc H. apply built_spec in H as (r' & _ & _ & _ & _ & _ & H). congruence.
Qed.
End Lifecycle.

(** ** A concrete range: ready, inside a window *)

Definition demo_up : range := Rng false false (Rdb 1000 ready None (Vms ["vm1"%string]) [] None None false [] 0).

Lemma teardown_windows_witness :
  (exists n rng, destroy_for_booking 21600 action_name (Site 2000 (Some "t1"%string) true true) (Some demo_up) (Some BYPASS_BOOKING_ENDED) = (true, n, rng)) /\
  (exists e, destroy_for_booking 21600 action_name (Site 2000 (Some "t1"%string) true true) (Some demo_up) None = (false, RefusedFor e, Some demo_up)).
Proof.
  split; [eexists _, _; vm_compute; reflexivity|].
  apply (teardown_windows 21600 action_name (Site 2000 (Some "t1"%string) true true) demo_up); [|reflexivity].
  split; [reflexivity|]. vm_compute. intros H. repeat (apply elem_of_cons in H as [H|H]; [discriminate|]). by apply elem_of_nil in H.
Defined.
