(* ===== verification/SchedulerClock.v ===== *)
(** * The scheduler's clock

    Models [control-plane/api/app/scheduler/clock.py] ([tick], its steps 0 to 4), the release of a
    booking's range ([release_range], [withdraw_exercise] of [scheduler/service.py]), the exercises of
    [exercise_lifecycle.py] and the moves and edits of [scheduler/router.py] that meet the clock, over
    the booking lifecycle of StateMachines.v and the builds and teardowns of RangeLifecycle.v.  A step
    works with a version of the booking's row loaded earlier, by this replica or another, and only the
    guarded updates see the row as it is.  It is one transaction, but for the build and the teardown of a
    range, which commit what they did before they send the task: from then on other parties may commit
    before the line in the audit log, or the process may stop.  The audit log is kept newest first.
    The theorems: what the release of a finished booking's range does on every branch; every booking makes
    each move once, whatever replicas and people race ([cstep]; a tick is a run of it); and an edit of a
    booking that owns a build orphans it, so who owns a build is not an invariant of the code. *)

From S2P Require Import Prelude StateMachines RangeOps RangeLifecycle.

Local Open Scope Z_scope.

#[local] Existing Instance Exercise.ExerciseState_eq_dec.

(** ** Data *)

(** A [scheduled_events] row; [e_people]: it has an instructor or a course; [e_class]: it is a class session. *)
Record evt := Evt {
  e_state : EventState; e_start : Z; e_end : Z; e_range : option string; e_template : option string;
  e_scenario : option string; e_exercise : option string; e_auto_exercise : bool; e_auto : bool;
  e_people : bool; e_reminded : option Z; e_class : bool }.

Inductive release_note := KeptByClass (r : string) | HandedTo (r heir : string) | Torn (r : string) (settled : bool) (what : note).
(** The audit log's rows, with the range they concern. *)
Inductive entry :=
| ERangeCreated (b r : string) | EProvisioning (b : string) (r : option string) (built : bool) (what : note)
| EBuiltAfter (b r : string) (what : note) | EActive (b : string) (before : EventState)
| ECompleted (b : string) (what : option release_note) | ETeardown (b : string) (what : option release_note)
| ELapsed (b : string) | EReminder (b : string)
| EMoved (b : string) (before to : EventState) (what : option release_note).

Record world := World {
  w_evts : gmap string evt; w_ranges : gmap string range; w_class : gset string;  (* ranges a class owns now *)
  w_exercises : gmap string Exercise.ExerciseState; w_log : list entry }.

(** What a step meets: the clock, the broker, the pool, the windows over a range and over a range not created yet;
    the ids the database gives to the rows it adds. *)
Record env := Env {
  k_now : Z; k_broker : option string; k_pool : bool; k_covers : string -> bool; k_covers_new : bool;
  k_range_id : string -> string; k_exercise_id : string -> string }.

Definition set_state (s : EventState) (e : evt) : evt :=
  Evt s (e_start e) (e_end e) (e_range e) (e_template e) (e_scenario e) (e_exercise e) (e_auto_exercise e) (e_auto e) (e_people e) (e_reminded e) (e_class e).
Definition set_range_id (r : option string) (e : evt) : evt :=
  Evt (e_state e) (e_start e) (e_end e) r (e_template e) (e_scenario e) (e_exercise e) (e_auto_exercise e) (e_auto e) (e_people e) (e_reminded e) (e_class e).
Definition set_auto (a : bool) (e : evt) : evt :=
  Evt (e_state e) (e_start e) (e_end e) (e_range e) (e_template e) (e_scenario e) (e_exercise e) (e_auto_exercise e) a (e_people e) (e_reminded e) (e_class e).
Definition set_exercise (x : option string) (e : evt) : evt :=
  Evt (e_state e) (e_start e) (e_end e) (e_range e) (e_template e) (e_scenario e) x true (e_auto e) (e_people e) (e_reminded e) (e_class e).
Definition set_reminded (t : option Z) (e : evt) : evt :=
  Evt (e_state e) (e_start e) (e_end e) (e_range e) (e_template e) (e_scenario e) (e_exercise e) (e_auto_exercise e) (e_auto e) (e_people e) t (e_class e).

Definition upd (id : string) (f : evt -> evt) (w : world) : world :=
  World (alter f id (w_evts w)) (w_ranges w) (w_class w) (w_exercises w) (w_log w).
Definition put_range (r : string) (rng : option range) (w : world) : world :=
  World (w_evts w) (match rng with Some x => <[r := x]> (w_ranges w) | None => w_ranges w end) (w_class w) (w_exercises w) (w_log w).
Definition put_exercise (x : string) (s : Exercise.ExerciseState) (w : world) : world :=
  World (w_evts w) (w_ranges w) (w_class w) (<[x := s]> (w_exercises w)) (w_log w).
Definition audit (l : entry) (w : world) : world :=
  World (w_evts w) (w_ranges w) (w_class w) (w_exercises w) (l :: w_log w).

Section Clock.
(** [PROVISION_LEAD], [TEARDOWN_GRACE], [REMINDER_LEAD]; of range_ops: [RANGE_OP_STALE_AFTER_SECONDS], the request hash. *)
Context (PROVISION_LEAD TEARDOWN_GRACE REMINDER_LEAD stale_after : Z) (request_hash : action -> string).

Definition site_for (k : env) (r : string) : site := Site (k_now k) (k_broker k) (k_covers k r) (k_pool k).

(** ** Shared parts *)

(** [_claim]; [s]: the state the booking was loaded in. *)
Definition _claim (s : EventState) (id : string) (to : EventState) (w : world) : bool * world :=
  match w_evts w !! id with
  | None => (false, w)
  | Some b => match transition s to (e_state b) with
              | Ok (true, s') => (true, upd id (set_state s') w)
              | Ok (false, _) | Err _ => (false, w)
              end
  end.

(** [_held_by_window] *)
Definition _held_by_window (k : env) (e : evt) (w : world) : bool :=
  match e_range e with
  | Some r =>
      match w_ranges w !! r with
      | Some rng => if bool_decide (d_state (r_db rng) ∈ UP_STATES) then false else k_covers k r
      | None => k_covers_new k
      end
  | None => k_covers_new k
  end.

(** [release_range]; [e]: the booking as loaded, [state]: its state now. *)
Definition starts_leb (a b : string * evt) : bool := e_start a.2 <=? e_start b.2.
Definition heir_of (id r : string) (w : world) : option (string * evt) :=
  head (py_sorted starts_leb (List.filter (fun p => bool_decide (e_range p.2 = Some r) && bool_decide (p.1 <> id) &&
    bool_decide (e_state p.2 ∈ HOLDING)) (map_to_list (w_evts w)))).
Definition release_range (k : env) (id : string) (e : evt) (state : EventState) (w : world) : option release_note * world :=
  match (if e_auto e then e_range e else None) with
  | None => (None, w)
  | Some r =>
      if bool_decide (r ∈ w_class w) then (Some (KeptByClass r), upd id (set_auto false) w)
      else
        match heir_of id r w with
        | Some (h, _) => (Some (HandedTo r h), upd id (set_auto false) (upd h (set_auto true) w))
        | None =>
            let window_bypass := if bool_decide (state = s_completed) then Some BYPASS_BOOKING_ENDED else None in
            let '(settled, what, rng) := destroy_for_booking stale_after request_hash (site_for k r) (w_ranges w !! r) window_bypass in
            let w1 := put_range r rng w in
            (Some (Torn r settled what), if settled then upd id (set_auto false) w1 else w1)
        end
  end.

(** [withdraw_if_unstarted], [withdraw_exercise] *)
Definition withdraw_if_unstarted (x : string) (w : world) : world :=
  if bool_decide (w_exercises w !! x = Some Exercise.pending) then put_exercise x Exercise.cancelled w else w.
Definition withdraw_exercise (e : evt) (w : world) : world :=
  match (if e_auto_exercise e then e_exercise e else None) with Some x => withdraw_if_unstarted x w | None => w end.

(** ** The steps of a tick, one booking each *)

(** 0: the range of a booking with a template. *)
Definition crit0 (k : env) (e : evt) : bool :=
  bool_decide (e_state e = s_scheduled) && bool_decide (e_range e = None) && negb (bool_decide (e_template e = None)) &&
  (e_start e <=? k_now k + PROVISION_LEAD) && (k_now k <? e_end e) && negb (e_class e).
Definition step0 (k : env) (id : string) (w : world) : world :=
  match w_evts w !! id with
  | Some b =>
      if bool_decide (e_range b = None) && bool_decide (e_state b = s_scheduled)
      then let r := k_range_id k id in
           audit (ERangeCreated id r) (upd id (set_range_id (Some r))
             (put_range r (Some (Rng false false (Rdb (k_now k) created None NoVms [] None None false [] 0))) w))
      else w
  | None => w
  end.

(** 1: the lead is reached; says whether a window held it. *)
Definition crit1 (k : env) (e : evt) : bool :=
  bool_decide (e_state e = s_scheduled) && negb (bool_decide (e_range e = None)) &&
  (e_start e <=? k_now k + PROVISION_LEAD) && (k_now k <? e_end e).
Definition build (k : env) (id : string) (r : option string) (w : world) : bool * note * world :=
  match r with
  | None => (false, NoLongerExists, w)
  | Some r =>
      let '(built, what, rng) := provision_for_booking stale_after request_hash (site_for k r) (w_ranges w !! r) in
      let w1 := put_range r rng w in
      (built, what, if built then upd id (set_auto true) w1 else w1)
  end.
Definition book_exercise (k : env) (id : string) (w : world) : world :=
  match w_evts w !! id with
  | Some b =>
      if negb (bool_decide (e_scenario b = None)) && bool_decide (e_exercise b = None)
      then let x := k_exercise_id k id in put_exercise x Exercise.pending (upd id (set_exercise (Some x)) w)
      else w
  | None => w
  end.
Definition step1 (k : env) (id : string) (s : EventState) (e : evt) (w : world) : bool * world :=
  if _held_by_window k e w then (true, w)
  else
    match _claim s id s_provisioning w with
    | (true, w1) =>
        let r := match w_evts w1 !! id with Some b => e_range b | None => None end in   (* [db.refresh] *)
        let '(built, what, w2) := build k id r w1 in
        (false, audit (EProvisioning id r built what) (book_exercise k id w2))
    | (false, w1) => (false, w1)
    end.

(** 1b: under way, its range never built. *)
Definition crit1b (k : env) (e : evt) : bool :=
  bool_decide (e_state e = s_active) && negb (bool_decide (e_range e = None)) && (k_now k <? e_end e).
Definition step1b (k : env) (id : string) (e : evt) (w : world) : bool * world :=
  match e_range e with
  | None => (false, w)
  | Some r =>
      match w_ranges w !! r with
      | Some rng =>
          if negb (bool_decide (d_state (r_db rng) = created)) then (false, w)
          else if _held_by_window k e w then (true, w)
          else match build k id (Some r) w with
               | (true, what, w1) => (false, audit (EBuiltAfter id r what) w1)
               | (false, _, _) => (false, w)
               end
      | None => (false, w)
      end
  end.

(** 2: the session starts. *)
Definition crit2 (k : env) (e : evt) : bool :=
  bool_decide (e_state e ∈ [s_scheduled; s_provisioning]) && (e_start e <=? k_now k).
Definition step2 (k : env) (id : string) (s : EventState) (e : evt) (held : bool) (w : world) : world :=
  if held && bool_decide (s = s_scheduled) && (k_now k <? e_end e) then w
  else match _claim s id s_active w with (true, w1) => audit (EActive id s) w1 | (false, w1) => w1 end.

(** 3: it is over. *)
Definition crit3 (k : env) (e : evt) : bool := bool_decide (e_state e = s_active) && (e_end e <=? k_now k - TEARDOWN_GRACE).
Definition step3 (k : env) (id : string) (s : EventState) (e : evt) (w : world) : world :=
  match _claim s id s_completed w with
  | (true, w1) => let '(what, w2) := release_range k id e s_completed w1 in audit (ECompleted id what) w2
  | (false, w1) => w1
  end.

(** 3b: a finished booking that still owns a build. *)
Definition crit3b (e : evt) : bool :=
  bool_decide (e_state e ∈ [s_completed; s_cancelled]) && e_auto e && negb (bool_decide (e_range e = None)).
Definition step3b (k : env) (id : string) (e : evt) (w : world) : world :=
  let '(what, w1) := release_range k id e (e_state e) w in
  match what with
  | Some (Torn _ false _) => w1
  | _ => audit (ETeardown id what) w1
  end.

(** 3c: nobody approved it. *)
Definition crit3c (k : env) (e : evt) : bool := bool_decide (e_state e = s_pending_approval) && (e_end e <=? k_now k).
Definition step3c (id : string) (s : EventState) (w : world) : world :=
  match _claim s id s_cancelled w with (true, w1) => audit (ELapsed id) w1 | (false, w1) => w1 end.

(** 4: the reminder. *)
Definition crit4 (k : env) (e : evt) : bool :=
  bool_decide (e_state e ∈ [s_scheduled; s_provisioning]) && bool_decide (e_reminded e = None) && e_people e &&
  (k_now k <? e_start e) && (e_start e <=? k_now k + REMINDER_LEAD).
Definition step4 (k : env) (id : string) (w : world) : world :=
  match w_evts w !! id with
  | Some b => if bool_decide (e_reminded b = None) then audit (EReminder id) (upd id (set_reminded (Some (k_now k))) w) else w
  | None => w
  end.

(** ** A tick *)

Definition _due (crit : evt -> bool) (w : world) : list string :=
  map fst (take 500 (py_sorted starts_leb (List.filter (fun p => crit p.2) (map_to_list (w_evts w))))).

(** One step of the tick over its due bookings: the bookings a window held, the world. *)
Definition sweep (crit : evt -> bool) (f : string -> evt -> world -> bool * world) (hw : list string * world) : list string * world :=
  fold_left (fun hw id =>
    match w_evts hw.2 !! id with
    | Some e => let '(h, w') := f id e hw.2 in (if h then id :: hw.1 else hw.1, w')
    | None => hw
    end) (_due crit hw.2) hw.

Definition plain (f : string -> evt -> world -> world) (id : string) (e : evt) (w : world) : bool * world := (false, f id e w).

(** [tick], from step 0 on; the bookings deferred by a window, and the world. *)
Definition tick (k : env) (w : world) : list string * world :=
  let hw0 := sweep (crit0 k) (plain (fun id _ => step0 k id)) ([], w) in
  let hw1 := sweep (crit1 k) (fun id e => step1 k id (e_state e) e) hw0 in
  let hw1b := sweep (crit1b k) (step1b k) hw1 in
  let hw2 := sweep (crit2 k) (plain (fun id e => step2 k id (e_state e) e (bool_decide (id ∈ hw1b.1)))) hw1b in
  let hw3 := sweep (crit3 k) (plain (fun id e => step3 k id (e_state e) e)) hw2 in
  let hw3b := sweep crit3b (plain (step3b k)) hw3 in
  let hw3c := sweep (crit3c k) (plain (fun id e => step3c id (e_state e))) hw3b in
  if 0 <? REMINDER_LEAD then sweep (crit4 k) (plain (fun id _ => step4 k id)) hw3c else hw3c.

(** ** What people do (scheduler/router.py) *)

(** [_move]; the checks before it passed. *)
Definition _move (k : env) (id : string) (s : EventState) (e : evt) (to : EventState) (w : world) : result http_error world :=
  match w_evts w !! id with
  | None => Err (Http 404)
  | Some b =>
      match transition s to (e_state b) with
      | Err x => Err x
      | Ok (false, _) => Ok w
      | Ok (true, s') =>
          let w1 := upd id (set_state s') w in
          if bool_decide (to = s_cancelled)
          then let '(what, w2) := release_range k id e to w1 in Ok (audit (EMoved id s to what) (withdraw_exercise e w2))
          else Ok (audit (EMoved id s to None) w1)
      end
  end.

(** [update_event], after its checks: the fields the form sets. *)
Record edit := Edit { n_start : Z; n_end : Z; n_range : option string; n_template : option string; n_scenario : option string;
                      n_exercise : option string; n_people : bool; n_held_change : bool }.
Definition edited (n : edit) (e : evt) : evt :=
  Evt (e_state e) (n_start n) (n_end n) (n_range n) (n_template n) (n_scenario n) (n_exercise n) (e_auto_exercise e) (e_auto e)
      (n_people n) (if n_start n =? e_start e then e_reminded e else None) (e_class e).
Definition update_event (id : string) (s : EventState) (n : edit) (w : world) : result http_error world :=
  match w_evts w !! id with
  | None => Err (Http 404)
  | Some b =>
      match lock_editable s (e_state b) with
      | Err x => Err x
      | Ok _ =>
          let w1 := upd id (edited n) w in
          if e_class b && bool_decide (s = s_scheduled) && n_held_change n
          then match transition s s_pending_approval (e_state b) with
               | Ok (_, s') => Ok (upd id (set_state s') w1)
               | Err x => Err x
               end
          else Ok w1
      end
  end.

(** [attach_range] (scheduler/service.py): a class's range for its session that has none. *)
Definition attach_range (id r : string) (w : world) : world :=
  upd id (fun b => if bool_decide (e_range b = None) && bool_decide (e_state b ∈ HOLDING) then set_range_id (Some r) b else b) w.

(** ** Replicas and people racing *)

(** What a line of the audit log says of a range: built by the scheduler (true), or no longer its to tear down. *)
Definition release_of (x : entry) : option release_note :=
  match x with ECompleted _ n | ETeardown _ n | EMoved _ _ _ n => n | _ => None end.
Definition effect_of (x : entry) : option (string * bool) :=
  match x with
  | EProvisioning _ (Some r) true _ | EBuiltAfter _ r _ => Some (r, true)
  | _ => match release_of x with Some (KeptByClass r) | Some (Torn r true _) => Some (r, false) | _ => None end
  end.
Fixpoint unsettled (l : list entry) (r : string) : bool :=
  match l with
  | [] => false
  | x :: l' => match effect_of x with Some (r', b) => if String.eqb r' r then b else unsettled l' r | None => unsettled l' r end
  end.
Definition ever_built (l : list entry) (r : string) : Prop := exists x, x ∈ l /\ effect_of x = Some (r, true).
Definition torn (x : entry) (r : string) : Prop := exists b n, release_of x = Some (Torn r b n).
Definition has_owner (w : world) (r : string) : Prop :=
  exists id b, w_evts w !! id = Some b /\ e_auto b = true /\ e_range b = Some r.

(** What a transaction that committed in the middle still has to write: the lines of a build, or of a release. *)
Inductive rest :=
| RestBuild (k : env) (id : string) (r : option string) (what : note)
| RestBuiltAfter (id r : string) (what : note)
| RestRelease (id : string) (settled : bool) (line : entry)
| RestCancel (e : evt) (id : string) (settled : bool) (line : entry).
Definition line_of (x : rest) : entry :=
  match x with
  | RestBuild _ id r what => EProvisioning id r true what
  | RestBuiltAfter id r what => EBuiltAfter id r what
  | RestRelease _ _ line | RestCancel _ _ _ line => line
  end.
Definition disown_if (settled : bool) (id : string) (w : world) : world := if settled then upd id (set_auto false) w else w.
Definition write_rest (x : rest) (w : world) : world :=
  audit (line_of x) match x with
    | RestBuild k id _ _ => book_exercise k id w
    | RestBuiltAfter _ _ _ => w
    | RestRelease id settled _ => disown_if settled id w
    | RestCancel e id settled _ => withdraw_exercise e (disown_if settled id w)
    end.
(** [release_range] up to the commit of an accepted teardown. *)
Definition release_begun (k : env) (id : string) (e : evt) (state : EventState) (w : world) : option (release_note * bool * world) :=
  match release_range k id e state w with
  | (Some (Torn r settled what), _) =>
      let window_bypass := if bool_decide (state = s_completed) then Some BYPASS_BOOKING_ENDED else None in
      let '(_, _, rng) := destroy_for_booking stale_after request_hash (site_for k r) (w_ranges w !! r) window_bypass in
      Some (Torn r settled what, settled, put_range r rng w)
  | _ => None
  end.

(** The world, and what is still to be written by transactions under way. *)
Definition sys : Type := world * list rest.

(** One commit of a replica, or of a person.  Whatever version [e] of the booking's row it has in hand, loaded however
    long ago, in the state [s]. *)
Inductive cstep : sys -> sys -> Prop :=
| c_step0 k id w o : cstep (w, o) (step0 k id w, o)
| c_step1 k id s e w o : cstep (w, o) ((step1 k id s e w).2, o)
| c_step1b k id e w o : cstep (w, o) ((step1b k id e w).2, o)
| c_step2 k id s e held w o : cstep (w, o) (step2 k id s e held w, o)
| c_step3 k id s e w o : cstep (w, o) (step3 k id s e w, o)
| c_step3b k id e w o : cstep (w, o) (step3b k id e w, o)
| c_step3c id s w o : cstep (w, o) (step3c id s w, o)
| c_step4 k id w o : cstep (w, o) (step4 k id w, o)
| c_move k id s e to w w' o : _move k id s e to w = Ok w' -> cstep (w, o) (w', o)
| c_edit id s n w w' o : update_event id s n w = Ok w' -> cstep (w, o) (w', o)
| c_attach id r w o : cstep (w, o) (attach_range id r w, o)
| c_new id b w o : w_evts w !! id = None ->
    cstep (w, o) (World (<[id := b]> (w_evts w)) (w_ranges w) (w_class w) (w_exercises w) (w_log w), o)
| c_other ranges cls exercises w o :   (* workers, classes, exercises *)
    cstep (w, o) (World (w_evts w) ranges cls exercises (w_log w), o)
(* the same, up to a commit in the middle, and from it on; a crash in between never writes the rest *)
| c_begin1 k id s w w1 r what w2 o : _claim s id s_provisioning w = (true, w1) -> build k id r w1 = (true, what, w2) ->
    cstep (w, o) (w2, RestBuild k id r what :: o)
| c_begin1b k id r what w w1 o : build k id (Some r) w = (true, what, w1) -> cstep (w, o) (w1, RestBuiltAfter id r what :: o)
| c_begin3 k id s e w w1 what settled w2 o : _claim s id s_completed w = (true, w1) ->
    release_begun k id e s_completed w1 = Some (what, settled, w2) ->
    cstep (w, o) (w2, RestRelease id settled (ECompleted id (Some what)) :: o)
| c_begin3b k id e w what settled w1 o : release_begun k id e (e_state e) w = Some (what, settled, w1) ->
    cstep (w, o) (w1, RestRelease id settled (ETeardown id (Some what)) :: o)
| c_begin_cancel k id s e w b what settled w2 o : w_evts w !! id = Some b -> transition s s_cancelled (e_state b) = Ok (true, s_cancelled) ->
    release_begun k id e s_cancelled (upd id (set_state s_cancelled) w) = Some (what, settled, w2) ->
    cstep (w, o) (w2, RestCancel e id settled (EMoved id s s_cancelled (Some what)) :: o)
| c_rest x w o1 o2 : cstep (w, o1 ++ x :: o2) (write_rest x w, o1 ++ o2).

(** ** Every move once *)

(** A booking that made the move [to] can never make it again from a state of [past to]. *)
Definition past (to s : EventState) : Prop :=
  match to with
  | s_provisioning => s ∈ [s_provisioning; s_active; s_completed; s_cancelled]
  | s_active => s ∈ [s_active; s_completed; s_cancelled]
  | s_completed => s = s_completed
  | s_cancelled => s = s_cancelled
  | _ => False
  end.
Definition ONCE : list EventState := [s_provisioning; s_active; s_completed; s_cancelled].
Lemma past_moves to s s' : past to s -> moves s s' -> past to s' /\ s' <> to.
Proof. intros Hp (al & Ha & Hin). destruct to; try done; destruct s'; try discriminate Ha; injection Ha as <-; revert Hp Hin; cbn [past]; destruct s; set_solver. Qed.
Lemma past_self to : to ∈ ONCE -> past to to.
Proof. unfold ONCE. destruct to; set_solver. Qed.

Definition entry_move (x : entry) : option (string * EventState) :=
  match x with
  | EProvisioning b _ _ _ => Some (b, s_provisioning) | EActive b _ => Some (b, s_active)
  | ECompleted b _ => Some (b, s_completed) | ELapsed b => Some (b, s_cancelled) | EMoved b _ to _ => Some (b, to)
  | _ => None
  end.
Definition is_move (id : string) (to : EventState) (x : entry) : bool := bool_decide (entry_move x = Some (id, to)).
Definition times (l : list entry) (id : string) (to : EventState) : nat := length (List.filter (is_move id to) l).
Lemma times_app l k id to : times (l ++ k) id to = (times l id to + times k id to)%nat.
Proof. unfold times. by rewrite List.filter_app, length_app. Qed.
Lemma times_cons x l id to : times (x :: l) id to = ((if is_move id to x then 1 else 0) + times l id to)%nat.
Proof. unfold times. cbn. by destruct (is_move id to x). Qed.

(** The states of the rows; how a commit may change them. *)
Definition state_at (w : world) (id : string) : option EventState := e_state <$> w_evts w !! id.
Definition same_states (w w' : world) : Prop := forall id, state_at w' id = state_at w id.
(** Rows stay as they are or make a move of the lifecycle; a new row may appear. *)
Definition grows (w w' : world) : Prop :=
  forall id s, state_at w id = Some s -> exists s', state_at w' id = Some s' /\ (s' = s \/ moves s s').
Lemma same_refl w : same_states w w.
Proof. done. Qed.
Lemma same_trans w1 w2 w3 : same_states w1 w2 -> same_states w2 w3 -> same_states w1 w3.
Proof. intros H1 H2 id. by rewrite H2. Qed.
Lemma same_evts w w' : w_evts w' = w_evts w -> same_states w w'.
Proof. intros E id. unfold state_at. by rewrite E. Qed.
Lemma same_upd id f w : (forall b, e_state (f b) = e_state b) -> same_states w (upd id f w).
Proof.
  intros Hf i. unfold state_at, upd. cbn [w_evts]. destruct (decide (i = id)) as [->|Hne]; [rewrite lookup_alter_eq|by rewrite lookup_alter_ne].
  destruct (w_evts w !! id); cbn; [by rewrite Hf|done].
Qed.
Lemma same_grows w w' : same_states w w' -> grows w w'.
Proof. intros H id s Hs. exists s. rewrite H. split; [done|by left]. Qed.
Lemma moved_state id s w b : w_evts w !! id = Some b -> state_at (upd id (set_state s) w) id = Some s.
Proof. intros Hb. unfold state_at, upd. cbn [w_evts]. by rewrite lookup_alter_eq, Hb. Qed.
Lemma moved_grows id s w b : w_evts w !! id = Some b -> moves (e_state b) s -> grows w (upd id (set_state s) w).
Proof.
  intros Hb Hm i s0 Hs. destruct (decide (i = id)) as [->|Hne].
  - exists s. rewrite (moved_state _ _ _ b) by done. unfold state_at in Hs. rewrite Hb in Hs. injection Hs as <-. by split; [|right].
  - exists s0. unfold state_at, upd in *. cbn [w_evts]. rewrite lookup_alter_ne by done. by split; [|left].
Qed.

Lemma claim_true s id to w w1 : _claim s id to w = (true, w1) ->
  exists b, w_evts w !! id = Some b /\ moves (e_state b) to /\ w1 = upd id (set_state to) w.
Proof.
  unfold _claim. destruct (w_evts w !! id) as [b|]; [|done]. destruct (transition s to (e_state b)) as [[[] s']|] eqn:E; [|done..].
  intros [= <-]. apply transition_row in E as [Hm ->]. by exists b.
Qed.
Lemma claim_false s id to w w1 : _claim s id to w = (false, w1) -> w1 = w.
Proof.
  unfold _claim. destruct (w_evts w !! id) as [b|]; [|by intros [= <-]]. destruct (transition s to (e_state b)) as [[[] s']|]; by intros [= <-].
Qed.

(** What a commit does to the moves on record: it adds no line of a move, or one, of a move its row just made. *)
Inductive fine (w : world) (l : list entry) (w' : world) (l' : list entry) : Prop :=
| fine_quiet : grows w w' -> (forall id to, times l' id to = times l id to) -> fine w l w' l'
| fine_move id to s : state_at w id = Some s -> moves s to -> state_at w' id = Some to -> grows w w' ->
    (forall i t, times l' i t = ((if bool_decide (i = id /\ t = to) then 1 else 0) + times l i t)%nat) -> fine w l w' l'.
Definition once (w : world) (l : list entry) : Prop :=
  forall id to, to ∈ ONCE -> times l id to = 0%nat \/ (times l id to = 1%nat /\ exists s, state_at w id = Some s /\ past to s).
Lemma fine_once w l w' l' : fine w l w' l' -> once w l -> once w' l'.
Proof.
  assert (Hkeep : forall id to, grows w w' -> (exists s, state_at w id = Some s /\ past to s) -> exists s, state_at w' id = Some s /\ past to s).
  { intros id to Hg (s & Hs & Hp). destruct (Hg id s Hs) as (s' & Hs' & [->|Hm]); [by exists s|].
    exists s'. split; [done|]. by apply (past_moves to s s'). }
  intros [Hg Ht|id to s Hs Hm Hs' Hg Ht] Ho i t Hin; rewrite Ht; destruct (Ho i t Hin) as [E|[E Hp]]; rewrite E.
  - by left.
  - right. split; [done|by apply Hkeep].
  - case_bool_decide as Hb; [|by left]. destruct Hb as [-> ->]. right. split; [done|]. exists to. split; [done|by apply past_self].
  - case_bool_decide as Hb; [|right; split; [done|by apply Hkeep]]. destruct Hb as [-> ->]. destruct Hp as (s2 & Hs2 & Hp).
    rewrite Hs in Hs2. injection Hs2 as <-. by destruct (past_moves to s to Hp Hm).
Qed.

(** A line added to the log, or still to be written. *)
Lemma fine_line_quiet w w' l x : grows w w' -> entry_move x = None -> fine w l w' (x :: l).
Proof. intros Hg Hx. apply fine_quiet; [done|]. intros id to. rewrite times_cons. unfold is_move. by rewrite Hx. Qed.
Lemma fine_line_move w w1 w' l x id b to :
  w_evts w !! id = Some b -> moves (e_state b) to -> w1 = upd id (set_state to) w -> same_states w1 w' ->
  entry_move x = Some (id, to) -> fine w l w' (x :: l).
Proof.
  intros Hb Hm -> Hsame Hx. apply (fine_move _ _ _ _ id to (e_state b)); [unfold state_at; by rewrite Hb|done|rewrite Hsame; by eapply moved_state|..].
  - intros i s Hs. destruct (moved_grows id to w b Hb Hm i s Hs) as (s' & Hs' & H). exists s'. by rewrite Hsame.
  - intros i t. rewrite times_cons. unfold is_move. rewrite Hx. do 2 case_bool_decide; try done; naive_solver.
Qed.
Lemma fine_same w l w' : same_states w w' -> fine w l w' l.
Proof. intros H. apply fine_quiet; [by apply same_grows|done]. Qed.

(** ** What each part does to the states *)

Lemma same_put_range w r rng : same_states w (put_range r rng w). Proof. done. Qed.
Lemma same_audit w x : same_states w (audit x w). Proof. done. Qed.
Lemma build_same k id r w built what w' : build k id r w = (built, what, w') -> same_states w w' /\ w_log w' = w_log w.
Proof.
  unfold build. destruct r as [r|]; [|by intros [= <- <- <-]]. destruct (provision_for_booking _ _ _ _) as [[bl n] rng].
  intros [= <- <- <-]. destruct bl; [|done]. split; [|done]. apply (same_trans _ (put_range r rng w)); [done|]. by apply same_upd.
Qed.
Lemma exercise_same k id w : same_states w (book_exercise k id w) /\ w_log (book_exercise k id w) = w_log w.
Proof.
  unfold book_exercise. destruct (w_evts w !! id) as [b|]; [|done]. destruct (_ && _); [|done]. split; [|done].
  apply (same_trans _ (upd id (set_exercise (Some (k_exercise_id k id))) w)); [by apply same_upd|done].
Qed.
Lemma withdraw_same e w : w_evts (withdraw_exercise e w) = w_evts w /\ w_log (withdraw_exercise e w) = w_log w.
Proof. unfold withdraw_exercise, withdraw_if_unstarted. destruct (if e_auto_exercise e then e_exercise e else None); [|done]. by case_match. Qed.
Lemma disown_same settled id w : same_states w (disown_if settled id w) /\ w_log (disown_if settled id w) = w_log w.
Proof. destruct settled; [|done]. split; [by apply same_upd|done]. Qed.
Lemma release_same k id e state w what w' : release_range k id e state w = (what, w') -> same_states w w' /\ w_log w' = w_log w.
Proof.
  unfold release_range. destruct (if e_auto e then e_range e else None) as [r|]; [|by intros [= <- <-]].
  destruct (bool_decide _); [intros [= <- <-]; split; [by apply same_upd|done]|].
  destruct (heir_of id r w) as [[h hb]|].
  { intros [= <- <-]. split; [|done]. eapply same_trans; [|by apply same_upd]. first [by apply same_upd|apply same_refl]. }
  destruct (destroy_for_booking _ _ _ _ _) as [[settled n] rng]. intros [= <- <-]. destruct settled; [|done].
  split; [|done]. apply (same_trans _ (put_range r rng w)); [done|by apply same_upd].
Qed.
Lemma begun_same k id e state w what settled w' : release_begun k id e state w = Some (what, settled, w') -> same_states w w' /\ w_log w' = w_log w.
Proof.
  unfold release_begun. destruct (release_range k id e state w) as [[[|?|r st n]|] v]; try done.
  destruct (destroy_for_booking _ _ _ _ _) as [[? ?] rng]. by intros [= <- <- <-].
Qed.
Lemma rest_same x w : same_states w (write_rest x w) /\ w_log (write_rest x w) = line_of x :: w_log w.
Proof.
  unfold write_rest. cbn [audit w_log]. destruct x as [k id r what|id r what|id settled line|e id settled line].
  - destruct (exercise_same k id w) as [H ->]. by split.
  - done.
  - destruct (disown_same settled id w) as [H ->]. by split.
  - destruct (disown_same settled id w) as [H1 H2], (withdraw_same e (disown_if settled id w)) as [H3 ->]. split; [|by rewrite H2].
    eapply same_trans; [exact H1|]. by apply same_evts.
Qed.

(** The lines on record: written, or owed. *)
Definition on_record (s : sys) : list entry := (line_of <$> s.2) ++ w_log s.1.
Lemma times_record s id to : times (on_record s) id to = (times (line_of <$> s.2) id to + times (w_log s.1) id to)%nat.
Proof. apply times_app. Qed.

(** What a step does to the log, with the lines owed after it. *)
Lemma fine_log w w' k : fine w (w_log w) w' (w_log w') -> fine w (k ++ w_log w) w' (k ++ w_log w').
Proof.
  intros [Hg Ht|id to s Hs Hm Hs' Hg Ht]; [apply fine_quiet; [done|]|apply (fine_move _ _ _ _ id to s); [done..|]]; intros i t; rewrite !times_app, Ht; lia.
Qed.
Ltac quiet_step := apply fine_same, same_refl.
Lemma step0_fine k id w : fine w (w_log w) (step0 k id w) (w_log (step0 k id w)).
Proof.
  unfold step0. destruct (w_evts w !! id) as [b|]; [|quiet_step]. destruct (_ && _); [|quiet_step].
  apply fine_line_quiet; [|done]. apply same_grows. eapply same_trans; [|by apply same_audit].
  eapply same_trans; [|by apply same_upd]. done.
Qed.
Lemma step1_fine k id s e w : fine w (w_log w) (step1 k id s e w).2 (w_log (step1 k id s e w).2).
Proof.
  unfold step1. destruct (_held_by_window k e w); [quiet_step|].
  destruct (_claim s id s_provisioning w) as [[] w1] eqn:Ec; [|apply claim_false in Ec as ->; quiet_step].
  apply claim_true in Ec as (b & Hb & Hm & Hw1). set (r := match w_evts w1 !! id with Some b => e_range b | None => None end).
  destruct (build k id r w1) as [[built what] w2] eqn:Eb. destruct (build_same _ _ _ _ _ _ _ Eb) as [H2 L2], (exercise_same k id w2) as [H3 L3].
  cbn [snd audit w_log]. rewrite L3, L2, Hw1. eapply (fine_line_move w w1); [done|done|done| |done].
  eapply same_trans; [exact H2|]. eapply same_trans; [exact H3|done].
Qed.
Lemma step1b_fine k id e w : fine w (w_log w) (step1b k id e w).2 (w_log (step1b k id e w).2).
Proof.
  unfold step1b. destruct (e_range e) as [r|]; [|quiet_step]. destruct (w_ranges w !! r) as [rng|]; [|quiet_step].
  destruct (negb _); [quiet_step|]. destruct (_held_by_window k e w); [quiet_step|].
  destruct (build k id (Some r) w) as [[[] what] w1] eqn:Eb; [|quiet_step]. destruct (build_same _ _ _ _ _ _ _ Eb) as [H L].
  cbn [snd audit w_log]. rewrite L. apply fine_line_quiet; [by apply same_grows|done].
Qed.
(** A claim and its line. *)
Lemma claim_line s id to w w1 x : _claim s id to w = (true, w1) -> entry_move x = Some (id, to) -> fine w (w_log w) (audit x w1) (w_log (audit x w1)).
Proof. intros (b & Hb & Hm & ->)%claim_true Hx. by eapply (fine_line_move w _). Qed.
Lemma step2_fine k id s e held w : fine w (w_log w) (step2 k id s e held w) (w_log (step2 k id s e held w)).
Proof.
  unfold step2. destruct (held && _ && _); [quiet_step|].
  destruct (_claim s id s_active w) as [[] w1] eqn:Ec; [by eapply claim_line|apply claim_false in Ec as ->; quiet_step].
Qed.
Lemma step3c_fine id s w : fine w (w_log w) (step3c id s w) (w_log (step3c id s w)).
Proof.
  unfold step3c. destruct (_claim s id s_cancelled w) as [[] w1] eqn:Ec; [by eapply claim_line|apply claim_false in Ec as ->; quiet_step].
Qed.
Lemma step3_fine k id s e w : fine w (w_log w) (step3 k id s e w) (w_log (step3 k id s e w)).
Proof.
  unfold step3. destruct (_claim s id s_completed w) as [[] w1] eqn:Ec; [|apply claim_false in Ec as ->; quiet_step].
  apply claim_true in Ec as (b & Hb & Hm & Hw1). destruct (release_range k id e s_completed w1) as [what w2] eqn:Er.
  destruct (release_same _ _ _ _ _ _ _ Er) as [H2 L2]. cbn [audit w_log]. rewrite L2, Hw1. by eapply (fine_line_move w w1).
Qed.
Lemma step3b_fine k id e w : fine w (w_log w) (step3b k id e w) (w_log (step3b k id e w)).
Proof.
  unfold step3b. destruct (release_range k id e (e_state e) w) as [what w1] eqn:Er. destruct (release_same _ _ _ _ _ _ _ Er) as [H L].
  assert (Hline : fine w (w_log w) (audit (ETeardown id what) w1) (w_log (audit (ETeardown id what) w1))).
  { cbn [audit w_log]. rewrite L. apply fine_line_quiet; [by apply same_grows|done]. }
  destruct what as [[|r h|r [] n]|]; try exact Hline. rewrite L. by apply fine_same.
Qed.
Lemma step4_fine k id w : fine w (w_log w) (step4 k id w) (w_log (step4 k id w)).
Proof.
  unfold step4. destruct (w_evts w !! id) as [b|]; [|quiet_step]. destruct (bool_decide _); [|quiet_step].
  apply fine_line_quiet; [|done]. apply same_grows. apply (same_trans _ (upd id (set_reminded (Some (k_now k))) w)); [by apply same_upd|done].
Qed.
Lemma move_row_fine k id s e to w w' : _move k id s e to w = Ok w' -> fine w (w_log w) w' (w_log w').
Proof.
  unfold _move. destruct (w_evts w !! id) as [b|] eqn:Hb; [|done].
  destruct (transition s to (e_state b)) as [[[] s']|] eqn:Et; [|intros [= <-]; quiet_step|done].
  apply transition_row in Et as [Hm ->]. case_bool_decide as Ec.
  - destruct (release_range k id e to _) as [what w2] eqn:Er. destruct (release_same _ _ _ _ _ _ _ Er) as [H2 L2].
    destruct (withdraw_same e w2) as [E3 L3]. intros [= <-]. cbn [audit w_log]. rewrite L3, L2.
    eapply (fine_line_move w _); [done|done|done| |done]. eapply same_trans; [exact H2|]. by apply same_evts.
  - intros [= <-]. by eapply (fine_line_move w _).
Qed.
Lemma edit_fine id s n w w' : update_event id s n w = Ok w' -> fine w (w_log w) w' (w_log w').
Proof.
  unfold update_event. destruct (w_evts w !! id) as [b|] eqn:Hb; [|done]. destruct (lock_editable s (e_state b)) as [row|]; [|done].
  assert (Hs : same_states w (upd id (edited n) w)) by by apply same_upd.
  destruct (e_class b && bool_decide (s = s_scheduled) && n_held_change n); [|intros [= <-]; by apply fine_same].
  destruct (transition s s_pending_approval (e_state b)) as [[c s']|] eqn:Et; [|done]. intros [= <-].
  apply transition_row in Et. assert (Hm : s' = e_state b \/ moves (e_state b) s') by (destruct c; tauto).
  apply fine_quiet; [|done]. intros i s0 Hi. rewrite <- Hs in Hi. destruct (decide (i = id)) as [->|Hne].
  - assert (Hb' : w_evts (upd id (edited n) w) !! id = Some (edited n b)) by (unfold upd; cbn [w_evts]; by rewrite lookup_alter_eq, Hb).
    exists s'. split; [by eapply moved_state|]. unfold state_at in Hi. rewrite Hb' in Hi. by injection Hi as <-.
  - exists s0. unfold state_at, upd in *. cbn [w_evts] in *. rewrite lookup_alter_ne by done. by split; [|left].
Qed.

Lemma cstep_fine s s' : cstep s s' -> fine s.1 (on_record s) s'.1 (on_record s').
Proof.
  unfold on_record. intros []; cbn [fst snd];
    lazymatch goal with
    | |- fine _ ((_ <$> ?o) ++ _) _ ((_ <$> ?o) ++ _) => apply fine_log
    | _ => idtac
    end.
  - apply step0_fine.
  - apply step1_fine.
  - apply step1b_fine.
  - apply step2_fine.
  - apply step3_fine.
  - apply step3b_fine.
  - apply step3c_fine.
  - apply step4_fine.
  - by eapply move_row_fine.
  - by eapply edit_fine.
  - apply fine_same, same_upd. intros b. by destruct (_ && _).
  - apply fine_quiet; [|done]. intros i s0 Hi. exists s0. split; [|by left]. unfold state_at in *. cbn [w_evts].
    rewrite lookup_insert_ne; [done|]. intros <-. by rewrite H in Hi.
  - by apply fine_same.
  - apply claim_true in H as (b & Hb & Hm & Hw1). destruct (build_same _ _ _ _ _ _ _ H0) as [H2 L2]. rewrite L2, Hw1. by eapply (fine_line_move w w1).
  - destruct (build_same _ _ _ _ _ _ _ H) as [H2 L2]. rewrite L2. apply fine_line_quiet; [by apply same_grows|done].
  - apply claim_true in H as (b & Hb & Hm & Hw1). destruct (begun_same _ _ _ _ _ _ _ _ H0) as [H2 L2]. rewrite L2, Hw1. by eapply (fine_line_move w w1).
  - destruct (begun_same _ _ _ _ _ _ _ _ H) as [H2 L2]. rewrite L2. apply fine_line_quiet; [by apply same_grows|done].
  - apply transition_row in H0 as [Hm _]. destruct (begun_same _ _ _ _ _ _ _ _ H1) as [H2 L2]. rewrite L2. by eapply (fine_line_move w _).
  - destruct (rest_same x w) as [H1 ->]. apply fine_quiet; [by apply same_grows|]. intros id to.
    rewrite !fmap_app, fmap_cons, !times_app, !times_cons. lia.
Qed.

(** A start: nothing logged, nothing under way. *)
Definition fresh (s : sys) : Prop := w_log s.1 = [] /\ s.2 = [].
Lemma csteps_once s s' : rtc cstep s s' -> once s.1 (on_record s) -> once s'.1 (on_record s').
Proof. induction 1 as [|s1 s2 s3 Hst _ IH]; [done|]. intros H. apply IH. eapply fine_once; [by apply cstep_fine|done]. Qed.


(** ** Theorems *)

(** C16: each step of a booking happens once.  Replicas of the clock, people and workers commit in any order, each with
    whatever version of the booking's row it loaded, with the commits in the middle of a build and of a teardown
    between others', and a crash after one: the log shows at most one move of a booking to provisioning, one to active,
    one to completed and one to cancelled, and its row is then past that move for good. *)
Theorem moves_once s w o id to : fresh s -> rtc cstep s (w, o) -> to ∈ ONCE ->
  (times (w_log w) id to <= 1)%nat /\
  (times (w_log w) id to = 1%nat -> exists b, w_evts w !! id = Some b /\ past to (e_state b)).
Proof.
  intros [Hl Ho] Hs Hto. assert (H : once w (on_record (w, o))).
  { apply (csteps_once s (w, o) Hs). intros i t _. left. unfold on_record. by rewrite Hl, Ho. }
  specialize (H id to Hto). rewrite times_record in H. cbn [fst snd] in H. split; [destruct H as [|[? _]]; lia|].
  intros E. destruct H as [|[_ (st & Hst & Hp)]]; [lia|]. unfold state_at in Hst.
  destruct (w_evts w !! id) as [b|]; [|done]. injection Hst as <-. by exists b.
Qed.


(** ** A tick is a run of those steps *)

Definition runs (w w' : world) : Prop := forall o, rtc cstep (w, o) (w', o).
Lemma runs_then w w1 w2 : runs w w1 -> runs w1 w2 -> runs w w2.
Proof. intros H1 H2 o. etransitivity; [apply H1|apply H2]. Qed.
Lemma runs_once w w' : (forall o, cstep (w, o) (w', o)) -> runs w w'.
Proof. intros H o. by apply rtc_once. Qed.
Lemma sweep_runs crit f hw : (forall id e w o, cstep (w, o) ((f id e w).2, o)) -> runs hw.2 (sweep crit f hw).2.
Proof.
  intros Hs. unfold sweep. generalize (_due crit hw.2). intros ids. revert hw.
  induction ids as [|id ids IH]; intros hw; cbn [fold_left]; [intros o; apply rtc_refl|].
  destruct (w_evts hw.2 !! id) as [e|]; [|apply IH]. eapply runs_then; [|apply IH]. apply runs_once. intros o.
  specialize (Hs id e hw.2 o). by destruct (f id e hw.2) as [h w'].
Qed.
Lemma tick_runs k w : runs w (tick k w).2.
Proof.
  unfold tick. cbv zeta. destruct (0 <? REMINDER_LEAD); [eapply runs_then; [|apply sweep_runs; intros; apply c_step4]|];
    (eapply runs_then; [|apply sweep_runs; intros; apply c_step3c]); (eapply runs_then; [|apply sweep_runs; intros; apply c_step3b]);
    (eapply runs_then; [|apply sweep_runs; intros; apply c_step3]); (eapply runs_then; [|apply sweep_runs; intros; apply c_step2]);
    (eapply runs_then; [|apply sweep_runs; intros; apply c_step1b]); (eapply runs_then; [|apply sweep_runs; intros; apply c_step1]);
    apply (sweep_runs _ _ ([], w)); intros; apply c_step0.
Qed.
End Clock.

(** ** A concrete run *)

Definition demo_evt (start end_ : Z) (r : string) : evt := Evt s_scheduled start end_ (Some r) None None None false false true (Some 0) false.
Definition demo_rng (s : RangeState) : range := Rng false false (Rdb 0 s None NoVms [] None None false [] 0).
Definition demo_w0 : world := World {[ "A"%string := demo_evt 100 200 "R"; "B"%string := demo_evt 400 500 "R" ]}
  {[ "R"%string := demo_rng created; "R2"%string := demo_rng ready ]} ∅ ∅ [].
Definition demo_env (n : Z) : env := Env n (Some "task"%string) true (fun _ => false) false (fun b => b) (fun b => b).
Definition demo_tick (n : Z) (w : world) : world := (tick 30 15 0 21600 action_name (demo_env n) w).2.
(** The worker finished the build of [R]. *)
Definition demo_ready (r : string) (w : world) : world :=
  World (w_evts w) (alter (fun x => with_db x (RangeOps.set_range ready None (r_db x))) r (w_ranges w)) (w_class w) (w_exercises w) (w_log w).
Definition demo_state (r : string) (w : world) : option RangeState := option_map (fun x => d_state (r_db x)) (w_ranges w !! r).
Definition demo_w1 : world := demo_tick 215 (demo_tick 100 (demo_ready "R" (demo_tick 80 demo_w0))).
Definition demo_w2 : world :=
  match update_event "B" s_scheduled (Edit 400 500 (Some "R2"%string) None None None true true) demo_w1 with Ok w => w | Err _ => demo_w1 end.
Definition demo_w3 : world := demo_tick 515 (demo_tick 400 (demo_tick 370 demo_w2)).

Definition demo_start : sys := (demo_w0, []).
Lemma demo_run : rtc (cstep 21600 action_name) demo_start (demo_w1, []).
Proof.
  assert (Htick : forall n w, runs 21600 action_name w (demo_tick n w)) by (intros; apply tick_runs).
  cut (runs 21600 action_name demo_w0 demo_w1); [intros H; apply H|].
  do 2 (eapply runs_then; [|apply Htick]). eapply runs_then; [apply (Htick 80)|]. apply runs_once. intros o. apply c_other.
Qed.
(** The clock stops between the commit of the build and the audit line, and a second replica goes on: the line comes later. *)
Definition demo_stopped : world :=
  (build 21600 action_name (demo_env 80) "A" (Some "R"%string) (_claim s_scheduled "A" s_provisioning demo_w0).2).2.
Definition demo_late : world := write_rest (RestBuild (demo_env 80) "A" (Some "R"%string) Sent) (demo_tick 100 demo_stopped).
Lemma demo_late_run : rtc (cstep 21600 action_name) demo_start (demo_late, []).
Proof.
  eapply rtc_l; [apply (c_begin1 _ _ (demo_env 80) "A" s_scheduled demo_w0 (_claim s_scheduled "A" s_provisioning demo_w0).2 (Some "R"%string) Sent demo_stopped);
    vm_compute; reflexivity|].
  eapply rtc_r; [apply (tick_runs 30 15 0 21600 action_name (demo_env 100) demo_stopped [_])|]. apply (c_rest _ _ _ _ [] []).
Qed.

Lemma moves_once_witness : times (w_log demo_late) "A" s_provisioning = 1%nat /\
  exists b, w_evts demo_late !! "A"%string = Some b /\ past s_provisioning (e_state b).
Proof.
  assert (H : times (w_log demo_late) "A" s_provisioning = 1%nat) by (vm_compute; reflexivity). split; [exact H|].
  apply (moves_once 21600 action_name demo_start demo_late [] "A" s_provisioning); [by split|apply demo_late_run|unfold ONCE; left|exact H].
Defined.


(** An edit may orphan a build.  Booking [A] builds [R] and, when it ends, hands
    it to [B], still scheduled; [B] is edited to another range, which [update_event] allows, and keeps [auto_provisioned].
    From then on no booking owns [R], which stays up, and when [B] ends the scheduler tears down [R2], a range that was
    already up and that it never built. *)
Theorem edit_orphans_a_build :
  has_owner demo_w1 "R" /\ update_event "B" s_scheduled (Edit 400 500 (Some "R2"%string) None None None true true) demo_w1 = Ok demo_w2 /\
  ~ has_owner demo_w2 "R" /\ demo_state "R" demo_w3 = Some ready /\ unsettled (w_log demo_w3) "R" = true /\ ~ has_owner demo_w3 "R" /\
  demo_state "R2" demo_w3 = Some destroying /\ ~ ever_built (w_log demo_w3) "R2" /\ (exists x, x ∈ w_log demo_w3 /\ torn x "R2").
Proof.
  assert (Hno : forall w, forallb (fun p => negb (e_auto p.2 && bool_decide (e_range p.2 = Some "R"%string))) (map_to_list (w_evts w)) = true -> ~ has_owner w "R").
  { intros w Hf (id & b & Hb & Ha & Hr). rewrite forallb_forall in Hf. specialize (Hf (id, b)). cbn [snd] in Hf.
    rewrite Ha, bool_decide_eq_true_2 in Hf by done. discriminate Hf. apply list_elem_of_In. by apply elem_of_map_to_list. }
  assert (Hnb : forall l, forallb (fun x => negb (bool_decide (effect_of x = Some ("R2"%string, true)))) l = true -> ~ ever_built l "R2").
  { intros l Hn (x & Hx & He). rewrite forallb_forall in Hn. specialize (Hn x (proj1 (list_elem_of_In _ _) Hx)). by rewrite He in Hn. }
  split; [exists "B"%string; eexists; split; [vm_compute; reflexivity|done]|].
  split; [vm_compute; reflexivity|]. split; [apply Hno; vm_compute; reflexivity|]. split; [vm_compute; reflexivity|].
  split; [vm_compute; reflexivity|]. split; [apply Hno; vm_compute; reflexivity|]. split; [vm_compute; reflexivity|]. split.
  - apply Hnb. vm_compute. reflexivity.
  - exists (ECompleted "B" (Some (Torn "R2" true Sent))). split; [vm_compute; left|]. by exists true, Sent.
Qed.
