(* ===== verification/Correlator.v ===== *)
(** * Telemetry correlation: alerts from patterns of events

    Models [telemetry/pipelines/correlator.py]: the rules, the time-windowed buckets and
    [CorrelationEngine.process_event].  A time is an integer number of a unit ([time.time()] as the engine
    read it); an event is a dict of scalars.  The theorems: a counting rule alerts exactly when the
    matching events of its group in the window reach the threshold and its cooldown has passed; a distinct
    rule never alerts on too few values, but misses some it should see. *)

From S2P Require Import Prelude.
From stdpp Require Import pretty.

Local Open Scope Z_scope.

(** ** Events and rules *)

Inductive value := VNone | VStr (s : string) | VInt (z : Z) | VBool (b : bool).
Definition event : Type := gmap string value.

(** [==] of Python: True is 1. *)
Definition as_int (v : value) : option Z := match v with VInt z => Some z | VBool b => Some (if b then 1 else 0) | _ => None end.
Definition py_eq (v w : value) : bool :=
  match v, w with
  | VNone, VNone => true
  | VStr s, VStr t => String.eqb s t
  | VNone, _ | _, VNone | VStr _, _ | _, VStr _ => false
  | _, _ => bool_decide (as_int v = as_int w)
  end.
(** [str()] *)
Definition py_str (v : value) : string :=
  match v with VNone => "None" | VStr s => s | VInt z => pretty z | VBool b => if b then "True" else "False" end.

Inductive expected := One (v : value) | Many (l : list value).

Record CorrelationRule := Rule {
  r_id : string; r_name : string; r_description : string; event_filter : list (string * expected); group_by : list string;
  threshold : Z; window_seconds : Z; distinct_field : option string; severity : string; mitre_technique : string;
  mitre_tactic : string; alert_name : string; enabled : bool }.

(** [from_dict]: the keys of the document that are there; [new_id]: the id made up when there is none. *)
Record rule_doc := Doc {
  y_id : option string; y_name : option string; y_description : option string; y_filter : option (list (string * expected)); y_group_by : option (list string);
  y_threshold : option Z; y_window : option Z; y_distinct : option string; y_severity : option string; y_technique : option string;
  y_tactic : option string; y_alert_name : option string;
  y_enabled : option bool }.
Definition from_dict (new_id : string) (d : rule_doc) : option CorrelationRule :=
  match d.(y_name) with
  | None => None   (* KeyError *)
  | Some name =>
      Some (Rule (default new_id d.(y_id)) name (default ""%string d.(y_description)) (default [] d.(y_filter))
        (default [] d.(y_group_by)) (default 5 d.(y_threshold)) (default 300 d.(y_window)) d.(y_distinct)
        (default "high"%string d.(y_severity)) (default ""%string d.(y_technique)) (default ""%string d.(y_tactic))
        (default name d.(y_alert_name)) (default true d.(y_enabled)))
  end.
(** [from_rules_dir]: the files in name order, each a document or one that did not load. *)
Definition from_rules_dir (files : list (string * option rule_doc)) : list CorrelationRule :=
  List.filter enabled (omap (fun f => match f.2 with Some d => from_dict f.1 d | None => None end) files).

(** ** Buckets *)

Record _EventBucket := Bucket { events : list (Z * event); distinct_values : gset string; last_alert_time : Z }.
Definition new_bucket : _EventBucket := Bucket [] ∅ 0.

Definition add (e : event) (ts : Z) (distinct_value : option string) (b : _EventBucket) : _EventBucket :=
  Bucket (b.(events) ++ [(ts, e)])
    (match distinct_value with Some v => {[ v ]} ∪ b.(distinct_values) | None => b.(distinct_values) end) b.(last_alert_time).
Definition prune (window now : Z) (b : _EventBucket) : _EventBucket :=
  let kept := List.filter (fun te => now - window <=? te.1) b.(events) in
  Bucket kept (if (length kept <? length b.(events))%nat then ∅ else b.(distinct_values)) b.(last_alert_time).
Definition count (b : _EventBucket) : Z := zlen b.(events).
Definition distinct_count (b : _EventBucket) : Z := Z.of_nat (size b.(distinct_values)).

(** ** The engine *)

Definition _alert_cooldown : Z := 60.
Definition bucket (m : gmap (string * string) _EventBucket) (r : CorrelationRule) (key : string) : _EventBucket := default new_bucket (m !! (r.(r_id), key)).

Definition get (e : event) (f : string) : value := default VNone (e !! f).
Definition _matches_filter (e : event) (filt : list (string * expected)) : bool :=
  forallb (fun fx => match fx.2 with Many l => existsb (py_eq (get e fx.1)) l | One v => py_eq (get e fx.1) v end) filt.

Fixpoint join (sep : string) (l : list string) : string :=
  match l with [] => "" | [s] => s | s :: l' => s +:+ sep +:+ join sep l' end.
Fixpoint key_parts (e : event) (group_by : list string) : option (list string) :=
  match group_by with
  | [] => Some []
  | f :: l => match get e f with VNone => None | v => option_map (cons (py_str v)) (key_parts e l) end
  end.
Definition _extract_group_key (e : event) (group_by : list string) : option string := option_map (join "|") (key_parts e group_by).

Record alert := Alert {
  a_name : string; a_rule : string; a_severity : string; a_description : string; a_group : string; a_count : Z;
  a_source : list event; a_time : Z; a_technique : option string; a_tactic : option string; a_fields : list (string * value) }.
Definition non_empty (s : string) : option string := if String.eqb s "" then None else Some s.
Definition lastn {A} (n : nat) (l : list A) : list A := drop (length l - n) l.
Definition PROPAGATED : list string := ["range_id"; "tenant_id"; "exercise_id"].
Definition _generate_alert (r : CorrelationRule) (b : _EventBucket) (key : string) (now : Z) : alert :=
  let source := map snd (lastn 20 b.(events)) in
  let first := default ∅ (head source) in
  Alert r.(alert_name) r.(r_id) r.(severity) r.(r_description) key (count b) source now (non_empty r.(mitre_technique))
    (non_empty r.(mitre_tactic)) (omap (fun f => option_map (pair f) (first !! f)) PROPAGATED).

(** The [distinct_value] of an event; [if rule.distinct_field] is false of the empty name too. *)
Definition distinct_of (r : CorrelationRule) (e : event) : option string :=
  match r.(distinct_field) with
  | Some f => if String.eqb f "" then None else Some (match e !! f with Some v => py_str v | None => "" end)
  | None => None
  end.
Definition effective_count (r : CorrelationRule) (b : _EventBucket) : Z :=
  match r.(distinct_field) with Some f => if String.eqb f "" then count b else distinct_count b | None => count b end.

(** One rule of [process_event]. *)
Definition process_rule (now : Z) (e : event) (st : list alert * gmap (string * string) _EventBucket) (r : CorrelationRule) : list alert * gmap (string * string) _EventBucket :=
  if negb (_matches_filter e r.(event_filter)) then st
  else
    match _extract_group_key e r.(group_by) with
    | None => st
    | Some key =>
        let b := add e now (distinct_of r e) (prune r.(window_seconds) now (bucket st.2 r key)) in
        if (r.(threshold) <=? effective_count r b) && (_alert_cooldown <=? now - b.(last_alert_time))
        then (st.1 ++ [_generate_alert r b key now], <[(r.(r_id), key) := Bucket b.(events) b.(distinct_values) now]> st.2)
        else (st.1, <[(r.(r_id), key) := b]> st.2)
    end.
Definition process_event (rules : list CorrelationRule) (now : Z) (e : event) (m : gmap (string * string) _EventBucket) : list alert * gmap (string * string) _EventBucket :=
  fold_left (process_rule now e) rules ([], m).

(** The engine over a history of events with the times it read. *)
Definition history : Type := list (Z * event).
Definition run (rules : list CorrelationRule) (h : history) : gmap (string * string) _EventBucket :=
  fold_left (fun m te => (process_event rules te.1 te.2 m).2) h ∅.

(** ** What a bucket holds *)

(** The events of a history a rule counts in a group, and those of them in the window that ends now. *)
Definition matched (r : CorrelationRule) (key : string) (te : Z * event) : bool :=
  _matches_filter te.2 r.(event_filter) && bool_decide (_extract_group_key te.2 r.(group_by) = Some key).
Definition in_window (r : CorrelationRule) (key : string) (now : Z) (h : history) : history :=
  List.filter (fun te => now - r.(window_seconds) <=? te.1) (List.filter (matched r key) h).
Definition in_order (h : history) : Prop := StronglySorted (fun a b => a.1 <= b.1) h.

(** One rule, alone. *)
Definition alone (now : Z) (e : event) (m : gmap (string * string) _EventBucket) (r : CorrelationRule) : list alert * gmap (string * string) _EventBucket := process_rule now e ([], m) r.

Lemma rule_other now e st r i k : i <> r_id r -> (process_rule now e st r).2 !! (i, k) = st.2 !! (i, k).
Proof.
  intros Hi. unfold process_rule; cbv zeta. destruct (negb _); [done|]. destruct (_extract_group_key e (group_by r)) as [key|]; [|done].
  destruct (_ && _); cbn [snd]; rewrite lookup_insert_ne by congruence; done.
Qed.

Lemma rule_local now e al m m' r : (forall k, m' !! (r_id r, k) = m !! (r_id r, k)) ->
  (process_rule now e (al, m') r).1 = al ++ (alone now e m r).1 /\
  forall k, (process_rule now e (al, m') r).2 !! (r_id r, k) = (alone now e m r).2 !! (r_id r, k).
Proof.
  intros Hm. unfold alone, process_rule; cbv zeta. destruct (negb _); [by rewrite app_nil_r|].
  destruct (_extract_group_key e (group_by r)) as [key|]; [|by rewrite app_nil_r]. unfold bucket. cbn [snd fst]. rewrite !Hm.
  destruct (_ && _); cbn [fst snd]; (split; [by rewrite ?app_nil_r|]); intros k; destruct (decide (k = key)) as [->|Hk];
    rewrite ?lookup_insert_eq, ?lookup_insert_ne by congruence; done.
Qed.

Lemma process_split rules now e al m m0 : NoDup (map r_id rules) -> (forall r k, r ∈ rules -> m !! (r_id r, k) = m0 !! (r_id r, k)) ->
  let res := fold_left (process_rule now e) rules (al, m) in
  res.1 = al ++ flat_map (fun r => (alone now e m0 r).1) rules /\
  (forall r k, r ∈ rules -> res.2 !! (r_id r, k) = (alone now e m0 r).2 !! (r_id r, k)) /\
  (forall i k, i ∉ map r_id rules -> res.2 !! (i, k) = m !! (i, k)).
Proof.
  revert al m. induction rules as [|r rules IH]; intros al m Hnd Hm; cbn [fold_left flat_map map].
  - rewrite app_nil_r. split; [done|]. split; [|done]. intros r k Hr. by apply elem_of_nil in Hr.
  - apply NoDup_cons in Hnd as [Hni Hnd]. destruct (rule_local now e al m0 m r) as [H1 H2]; [intros k; apply Hm; left|].
    destruct (process_rule now e (al, m) r) as [al1 m1] eqn:E. cbn [fst snd] in *. subst al1.
    assert (Hother : forall i k, i <> r_id r -> m1 !! (i, k) = m !! (i, k)).
    { intros i k Hi. pose proof (rule_other now e (al, m) r i k Hi) as Ho. by rewrite E in Ho. }
    assert (Hne : forall r', r' ∈ rules -> r_id r' <> r_id r).
    { intros r' Hr' Heq. apply Hni. rewrite <- Heq. apply list_elem_of_fmap. by exists r'. }
    destruct (IH (al ++ (alone now e m0 r).1) m1 Hnd) as (I1 & I2 & I3).
    { intros r' k Hr'. rewrite Hother by by apply Hne. apply Hm. by right. }
    split; [by rewrite I1, app_assoc|]. split.
    + intros r' k [->|Hr']%elem_of_cons; [|by apply I2]. by rewrite I3, H2.
    + intros i k Hi. apply not_elem_of_cons in Hi as [Hi1 Hi2]. rewrite I3 by done. by apply Hother.
Qed.

Lemma process_event_split rules now e m : NoDup (map r_id rules) ->
  (process_event rules now e m).1 = flat_map (fun r => (alone now e m r).1) rules /\
  forall r k, r ∈ rules -> (process_event rules now e m).2 !! (r_id r, k) = (alone now e m r).2 !! (r_id r, k).
Proof. intros Hnd. destruct (process_split rules now e [] m m Hnd) as (H1 & H2 & _); done. Qed.

(** The bucket a rule works on, pruned and with the event added. *)
Definition touched (r : CorrelationRule) (key : string) (now : Z) (e : event) (m : gmap (string * string) _EventBucket) : _EventBucket :=
  add e now (distinct_of r e) (prune r.(window_seconds) now (bucket m r key)).

Lemma alone_spec now e m r key : let b := touched r key now e m in
  if matched r key (now, e) then
    if (threshold r <=? effective_count r b) && (_alert_cooldown <=? now - last_alert_time b)
    then (alone now e m r).1 = [_generate_alert r b key now] /\ bucket (alone now e m r).2 r key = Bucket (events b) (distinct_values b) now
    else (alone now e m r).1 = [] /\ bucket (alone now e m r).2 r key = b
  else bucket (alone now e m r).2 r key = bucket m r key.
Proof.
  intros b. unfold matched, alone, process_rule; cbv zeta. cbn [fst snd]. destruct (_matches_filter e (event_filter r)); cbn [andb negb]; [|done].
  case_bool_decide as Hk.
  - rewrite Hk. fold (touched r key now e m). fold b. destruct (_ && _); cbn [fst snd]; (split; [done|]); unfold bucket at 1; by rewrite lookup_insert_eq.
  - destruct (_extract_group_key e (group_by r)) as [key'|]; [|done]. unfold bucket at 1.
    destruct (_ && _); cbn [fst snd]; rewrite lookup_insert_ne by congruence; done.
Qed.

Lemma alone_matched now e m r a : a ∈ (alone now e m r).1 -> exists key, matched r key (now, e) = true.
Proof.
  unfold alone, process_rule, matched; cbv zeta. cbn [fst snd]. destruct (_matches_filter e (event_filter r)); cbn [negb andb]; [|by intros ?%elem_of_nil].
  destruct (_extract_group_key e (group_by r)) as [key|]; [|by intros ?%elem_of_nil]. exists key. by rewrite bool_decide_eq_true_2.
Qed.

Lemma run_snoc rules h t e : run rules (h ++ [(t, e)]) = (process_event rules t e (run rules h)).2.
Proof. unfold run. by rewrite fold_left_app. Qed.

Lemma in_order_snoc h t e : in_order (h ++ [(t, e)]) -> in_order h /\ forall te, te ∈ h -> te.1 <= t.
Proof.
  unfold in_order. induction h as [|x h IH]; cbn [app]; intros H; [split; [constructor|by intros te ?%elem_of_nil]|].
  inversion H as [|? ? Hs Hall]; subst. destruct (IH Hs) as [H1 H2]. rewrite Forall_app in Hall. destruct Hall as [Ha Hb].
  split; [by constructor|]. intros te [->|Hte]%elem_of_cons; [|by apply H2]. rewrite Forall_forall in Hb. by apply (Hb (t, e)); left.
Qed.

Lemma filter_filter_le (w a b : Z) (l : history) : a <= b ->
  List.filter (fun te => b - w <=? te.1) (List.filter (fun te => a - w <=? te.1) l) = List.filter (fun te => b - w <=? te.1) l.
Proof.
  intros Hab. induction l as [|x l IH]; cbn [List.filter]; [done|]. destruct (Z.leb_spec (a - w) x.1); cbn [List.filter].
  - by destruct (b - w <=? x.1); rewrite IH.
  - destruct (Z.leb_spec (b - w) x.1); [lia|done].
Qed.

Lemma in_window_snoc r key now h t e : in_window r key now (h ++ [(t, e)]) =
  in_window r key now h ++ (if matched r key (t, e) && (now - window_seconds r <=? t) then [(t, e)] else []).
Proof.
  unfold in_window. rewrite !List.filter_app. cbn [List.filter]. destruct (matched r key (t, e)); cbn [List.filter fst andb]; [|by rewrite app_nil_r].
  by destruct (now - window_seconds r <=? t).
Qed.

(** What the bucket of a rule's group holds after a history: in any later window the matching events of that window,
    and values of its events only. *)
Definition bucket_ok (r : CorrelationRule) (key : string) (h : history) (b : _EventBucket) : Prop :=
  (forall t, (forall te, te ∈ h -> te.1 <= t) -> List.filter (fun te => t - window_seconds r <=? te.1) (events b) = in_window r key t h) /\
  (forall v, v ∈ distinct_values b -> exists te, te ∈ events b /\ distinct_of r te.2 = Some v).

Lemma touched_ok r key h now e m : in_order (h ++ [(now, e)]) -> 0 <= window_seconds r -> matched r key (now, e) = true ->
  bucket_ok r key h (bucket m r key) ->
  events (touched r key now e m) = in_window r key now (h ++ [(now, e)]) /\ bucket_ok r key (h ++ [(now, e)]) (touched r key now e m) /\
  last_alert_time (touched r key now e m) = last_alert_time (bucket m r key).
Proof.
  intros Ho Hw Hm [He Hd]. apply in_order_snoc in Ho as [_ Hle].
  assert (Hev : events (touched r key now e m) = in_window r key now (h ++ [(now, e)])).
  { unfold touched, add, prune. cbn [events]. rewrite in_window_snoc, Hm, (proj2 (Z.leb_le _ _)) by lia. cbn [andb]. f_equal.
    by apply He. }
  split; [done|]. split; [|done]. split.
  - intros t Ht. rewrite Hev. apply filter_filter_le. apply (Ht (now, e)). apply elem_of_app. right. left.
  - intros v. unfold touched, add. cbn [distinct_values events prune].
    set (kept := List.filter _ (events (bucket m r key))).
    assert (Hold : v ∈ (if (length kept <? length (events (bucket m r key)))%nat then ∅ else distinct_values (bucket m r key)) ->
      exists te, te ∈ kept ++ [(now, e)] /\ distinct_of r te.2 = Some v).
    { destruct (Nat.ltb_spec (length kept) (length (events (bucket m r key)))) as [|Hlen]; [set_solver|]. intros Hv.
      destruct (Hd v Hv) as (te & Hte & Hval). exists te. split; [|done]. apply elem_of_app. left.
      assert (kept = events (bucket m r key)) as ->; [|done]. unfold kept in *. clear -Hlen.
      induction (events (bucket m r key)) as [|x l IH]; cbn [List.filter length] in *; [done|]. destruct (_ <=? _).
      - cbn [length] in Hlen. f_equal. apply IH. lia.
      - exfalso. pose proof (filter_length_le (fun te : Z * event => now - window_seconds r <=? te.1) l). lia. }
    destruct (distinct_of r e) as [d|] eqn:Ed; [|exact Hold]. intros [Hv|Hv]%elem_of_union; [|by apply Hold].
    apply elem_of_singleton in Hv as ->. exists (now, e). split; [apply elem_of_app; right; left|done].
Qed.

Lemma bucket_unmatched r key h t e b : matched r key (t, e) = false -> bucket_ok r key h b -> bucket_ok r key (h ++ [(t, e)]) b.
Proof.
  intros Hm [He Hd]. split; [|done]. intros t' Ht'. rewrite in_window_snoc, Hm. cbn [andb]. rewrite app_nil_r. apply He.
  intros te Hte. apply Ht', elem_of_app. by left.
Qed.

Lemma run_ok rules r key h : NoDup (map r_id rules) -> r ∈ rules -> 0 <= window_seconds r -> in_order h ->
  bucket_ok r key h (bucket (run rules h) r key).
Proof.
  intros Hnd Hr Hw. induction h as [|[t e] h IH] using rev_ind; intros Ho.
  - unfold run, bucket. cbn [fold_left]. rewrite lookup_empty. cbn [default]. split; [done|]. intros v Hv. cbn [new_bucket distinct_values] in Hv. set_solver.
  - rewrite run_snoc. destruct (process_event_split rules t e (run rules h) Hnd) as [_ H2].
    assert (Hb : bucket (process_event rules t e (run rules h)).2 r key = bucket (alone t e (run rules h) r).2 r key)
      by (unfold bucket; by rewrite H2).
    rewrite Hb. specialize (IH (proj1 (in_order_snoc _ _ _ Ho))). pose proof (alone_spec t e (run rules h) r key) as Ha.
    cbv zeta in Ha. destruct (matched r key (t, e)) eqn:Em; [|rewrite Ha; by apply bucket_unmatched].
    destruct (touched_ok r key h t e (run rules h) Ho Hw Em IH) as (_ & Hok & _).
    destruct (_ && _); destruct Ha as [_ ->]; exact Hok.
Qed.

Lemma alerts_of rules now e m r a : NoDup (map r_id rules) -> r ∈ rules -> a_rule a = r_id r ->
  a ∈ (process_event rules now e m).1 <-> a ∈ (alone now e m r).1.
Proof.
  intros Hnd Hr Ha. rewrite (proj1 (process_event_split rules now e m Hnd)), list_elem_of_In, in_flat_map. split; [|by exists r; rewrite <- !list_elem_of_In].
  intros (r' & Hr' & Hin). apply list_elem_of_In in Hin, Hr'.
  assert (Hid : a_rule a = r_id r').
  { pose proof Hin as Hk. apply alone_matched in Hk as (key & Hk). pose proof (alone_spec now e m r' key) as Hs. cbv zeta in Hs. rewrite Hk in Hs.
    destruct (_ && _); destruct Hs as [Hs _]; rewrite Hs in Hin; [|by apply elem_of_nil in Hin]. apply list_elem_of_singleton in Hin as ->. done. }
  assert (r' = r) as ->; [|done]. rewrite Ha in Hid. clear -Hnd Hr Hr' Hid. induction rules as [|x l IH]; [by apply elem_of_nil in Hr|].
  cbn [map] in Hnd. apply NoDup_cons in Hnd as [Hni Hnd].
  apply elem_of_cons in Hr as [->|Hr]; apply elem_of_cons in Hr' as [->|Hr']; [done| | |by apply IH].
  - exfalso. apply Hni. rewrite Hid. apply list_elem_of_fmap. by exists r'.
  - exfalso. apply Hni. rewrite <- Hid. apply list_elem_of_fmap. by exists r.
Qed.

(** ** Theorems *)

Definition values_in (r : CorrelationRule) (h : history) : gset string := list_to_set (omap (fun te => distinct_of r te.2) h).

Lemma touched_distinct_le r key h now e m : bucket_ok r key (h ++ [(now, e)]) (touched r key now e m) ->
  events (touched r key now e m) = in_window r key now (h ++ [(now, e)]) ->
  distinct_count (touched r key now e m) <= Z.of_nat (size (values_in r (in_window r key now (h ++ [(now, e)])))).
Proof.
  intros [_ Hd] He. unfold distinct_count. apply Nat2Z.inj_le, subseteq_size. intros v Hv. destruct (Hd v Hv) as (te & Hte & Hval).
  rewrite He in Hte. unfold values_in. apply elem_of_list_to_set, list_elem_of_omap. by exists te.
Qed.

(** C17: alerts against their definition.  Over any history of events read at times that never go back, with rules of
    distinct ids: a counting rule alerts on an event exactly when the event matches it and the matching events of its
    group within the window ending now, this one included, number at least the threshold, and at least the cooldown
    passed since the group's last alert; the alert says that number and lists the last of those events.  A rule that
    counts distinct values never alerts unless the window holds at least the threshold of them. *)
Theorem alerts_exact rules h now e r : NoDup (map r_id rules) -> in_order (h ++ [(now, e)]) -> r ∈ rules -> 0 <= window_seconds r ->
  let m := run rules h in
  let wdw key := in_window r key now (h ++ [(now, e)]) in
  let alerted a := a ∈ (process_event rules now e m).1 /\ a_rule a = r_id r in
  (forall a, alerted a -> exists key, matched r key (now, e) = true /\ a_group a = key /\ a_count a = zlen (wdw key) /\
     a_source a = map snd (lastn 20 (wdw key)) /\ _alert_cooldown <= now - last_alert_time (bucket m r key) /\
     (distinct_field r = None -> threshold r <= zlen (wdw key)) /\
     (forall f, distinct_field r = Some f -> f <> ""%string -> threshold r <= Z.of_nat (size (values_in r (wdw key)))) /\
     last_alert_time (bucket (run rules (h ++ [(now, e)])) r key) = now) /\
  (forall key, matched r key (now, e) = true -> distinct_field r = None -> threshold r <= zlen (wdw key) ->
     _alert_cooldown <= now - last_alert_time (bucket m r key) -> exists a, alerted a /\ a_group a = key).
Proof.
  intros Hnd Ho Hr Hw m wdw alerted. destruct (in_order_snoc _ _ _ Ho) as [Hoh _].
  assert (Hok : forall key, bucket_ok r key h (bucket m r key)) by (intros; by apply run_ok).
  split.
  - intros a [Hin Hid]. rewrite (alerts_of rules now e m r a Hnd Hr Hid) in Hin. destruct (alone_matched now e m r a Hin) as [key Hk].
    destruct (touched_ok r key h now e m Ho Hw Hk (Hok key)) as (Hev & Hok' & Hlast).
    pose proof (alone_spec now e m r key) as Hs. cbv zeta in Hs. rewrite Hk in Hs.
    destruct (_ && _) eqn:Ec; destruct Hs as [Hs Hb]; rewrite Hs in Hin; [|by apply elem_of_nil in Hin].
    apply list_elem_of_singleton in Hin as ->. apply andb_true_iff in Ec as [Ht Hc]. apply Z.leb_le in Ht, Hc. rewrite Hlast in Hc.
    exists key. split; [done|]. split; [done|]. unfold _generate_alert. cbn [a_count a_source]. unfold count. rewrite Hev. fold (wdw key).
    split; [done|]. split; [done|]. split; [done|]. split; [|split].
    + intros Hd. unfold effective_count, count in Ht. by rewrite Hd, Hev in Ht.
    + intros f Hd Hf. unfold effective_count in Ht. apply String.eqb_neq in Hf. rewrite Hd, Hf in Ht.
      pose proof (touched_distinct_le r key h now e m Hok' Hev). unfold wdw. lia.
    + rewrite run_snoc. destruct (process_event_split rules now e m Hnd) as [_ H2]. unfold bucket. fold m. rewrite H2 by done.
      change (last_alert_time (bucket (alone now e m r).2 r key) = now). by rewrite Hb.
  - intros key Hk Hd Ht Hc. destruct (touched_ok r key h now e m Ho Hw Hk (Hok key)) as (Hev & _ & Hlast).
    pose proof (alone_spec now e m r key) as Hs. cbv zeta in Hs. rewrite Hk in Hs. unfold effective_count, count in Hs. rewrite Hd, Hev, Hlast in Hs.
    fold (wdw key) in Hs. rewrite (proj2 (Z.leb_le _ _) Ht), (proj2 (Z.leb_le _ _) Hc) in Hs. destruct Hs as [Hs _].
    exists (_generate_alert r (touched r key now e m) key now). split; [|done]. split; [|done].
    rewrite (alerts_of rules now e m r (_generate_alert r (touched r key now e m) key now) Hnd Hr eq_refl), Hs. left.
Qed.

(** ** Concrete cases *)

Definition demo_rule (distinct : option string) : CorrelationRule :=
  Rule "scan" "Port scan" "" [("event_type", One (VStr "connection"))]%string ["source_ip"]%string 3 10 distinct "high" "" "" "Port scan" true.
Definition demo_event (port : Z) : event :=
  {[ "event_type"%string := VStr "connection"; "source_ip"%string := VStr "10.0.0.9"; "dest_port"%string := VInt port ]}.
Definition demo_history : history := [(100, demo_event 1); (109, demo_event 2); (111, demo_event 3)].

Lemma demo_order : in_order (demo_history ++ [(112, demo_event 4)]).
Proof. repeat constructor; cbn [fst]; lia. Qed.

Lemma alerts_exact_witness : exists a, a ∈ (process_event [demo_rule None] 112 (demo_event 4) (run [demo_rule None] demo_history)).1 /\ a_count a = 3.
Proof.
  pose proof (alerts_exact [demo_rule None] demo_history 112 (demo_event 4) (demo_rule None) ltac:(repeat constructor; by intros ?%elem_of_nil)
    demo_order ltac:(left) ltac:(vm_compute; discriminate)) as [Hs Hc].
  destruct (Hc "10.0.0.9"%string ltac:(vm_compute; reflexivity) eq_refl ltac:(vm_compute; discriminate) ltac:(vm_compute; discriminate)) as (a & Ha & Hg).
  exists a. split; [exact (proj1 Ha)|]. destruct (Hs a Ha) as (key & _ & Hk & Hn & _). rewrite Hn. rewrite Hg in Hk. subst key. vm_compute. reflexivity.
Defined.

(** A distinct rule misses a scan that its window holds: pruning one old event forgets the values of the events it
    keeps, so three ports within the window do not alert a rule of threshold three. *)
Theorem distinct_values_forgotten :
  let r := demo_rule (Some "dest_port"%string) in
  size (values_in r (in_window r "10.0.0.9" 112 (demo_history ++ [(112, demo_event 4)]))) = 3%nat /\
  (process_event [r] 112 (demo_event 4) (run [r] demo_history)).1 = [] /\
  distinct_count (bucket (run [r] (demo_history ++ [(112, demo_event 4)])) r "10.0.0.9") = 2.
Proof. vm_compute. done. Qed.
