(* ===== verification/ContentStaleness.v ===== *)
(** * The content clock's rules: what makes content stale

    Models [control-plane/api/app/content_review/staleness.py] (the worker runs a generated copy of it):
    the review cycle's arithmetic, and [Graph], the stale reasons over the dependency edges.  A release
    or vulnerability flag on an item flows down to everything that depends on it, by the shortest path;
    a review takes it all back; a rebuild ([repropagate]) derives the inherited reasons anew.

    A reason is a dict of five strings; what the JSON column holds may also be junk, which [Graph]
    drops.  Dicts of the code whose order does not show are maps.  Times are microseconds.

    The theorems: [dependents] is breadth-first search done right (everything reachable, once, by a
    shortest path); the inherited reasons are exactly those of the flagged items upstream, after a
    rebuild and after every operation; so a rebuild changes nothing that the operations maintain. *)

From S2P Require Import Prelude PyText.
From stdpp Require Import gmap.

Local Open Scope Z_scope.

(** ** The clock *)

Definition DEFAULT_CYCLE_DAYS : Z := 90.
Definition MIN_CYCLE_DAYS : Z := 90.
Definition MAX_CYCLE_DAYS : Z := 120.
Definition AMBER_DAYS : Z := 14.

Definition ITEM_TYPES : list (string * string) :=
  [("course", "course"); ("module", "module"); ("lab", "lab"); ("scenario", "scenario");
   ("range_template", "range template"); ("exercise_template", "exercise template");
   ("golden_template", "golden template")]%string.

Definition KIND_TIME : string := "time".
Definition KIND_RELEASE : string := "release".
Definition KIND_VULNERABILITY : string := "vulnerability".
Definition KIND_UPSTREAM : string := "upstream".
Definition FLAG_KINDS : list string := [KIND_RELEASE; KIND_VULNERABILITY].
Definition TIME_SOURCE : string := "clock".

(** [check_cycle]: an integer, which [bool] is not, within the bounds. *)
Inductive py_days := PyInt (n : Z) | PyBool (b : bool) | NotAnInt.
Inductive ValueError := BadCycle | BadKind.
Definition check_cycle (days : py_days) : result ValueError Z :=
  match days with
  | PyInt n => if (MIN_CYCLE_DAYS <=? n) && (n <=? MAX_CYCLE_DAYS) then Ok n else Err BadCycle
  | _ => Err BadCycle
  end.

Definition due_at (baseline : Z) (last_reviewed : option Z) (cycle_days : Z) : Z :=
  default baseline last_reviewed + cycle_days * DAY.

(** [late.days] rounds down, as [timedelta.days] does. *)
Definition overdue_text (due now : Z) : option string :=
  let late := now - due in
  if late <=? 0 then None
  else let days := late / DAY in
       if days =? 0 then Some "Review overdue (due today)"%string
       else Some ("Review overdue by " +:+ pretty days +:+ " day" +:+ (if (days =? 1)%Z then "" else "s"))%string.

Definition clock (due now : Z) (stale : bool) : string * Z :=
  let days := (due - now) / DAY in
  if stale || (due <=? now) then ("stale"%string, days)
  else ((if (days <=? AMBER_DAYS)%Z then "amber" else "green")%string, days).

(** ** Reasons *)

Record reason := Reason {
  r_origin : string; r_kind : string; r_text : string; r_source : option string; r_at : option string
}.
#[export] Instance reason_eq_dec : EqDecision reason.
Proof. solve_decision. Defined.

(** An element of the JSON list: a dict whose [origin], [kind] and [text] are strings, or anything else. *)
Inductive stored := SReason (r : reason) | SJunk.
#[export] Instance stored_eq_dec : EqDecision stored.
Proof. solve_decision. Defined.

(** [_valid], and what it lets through. *)
Definition _valid (s : stored) : option reason := match s with SReason r => Some r | SJunk => None end.

Notation reasons_of m k := (default [] (m !! k)).

(** [used_by]: what each item depends on, inverted. *)
Definition used_by (depends_on : gmap string (gset string)) : gmap string (gset string) :=
  map_fold (fun item deps out =>
    foldr (fun dep out => <[dep := {[item]} ∪ default ∅ (out !! dep)]> out) out (elements deps)) ∅ depends_on.

Record graph := Graph {
  g_reasons : gmap string (list reason);
  g_used_by : gmap string (list string);
  g_names : gmap string (string * string);
  g_retired : gset string
}.
Definition with_reasons (rs : gmap string (list reason)) (g : graph) : graph :=
  Graph rs g.(g_used_by) g.(g_names) g.(g_retired).

(** [Graph.__init__]: the valid reasons, and [sorted(set(v))]. *)
Definition valid_reasons (l : list stored) : list reason := omap _valid l.
Definition sorted_set (v : gset string) : list string := py_sorted string_leb (elements v).
Definition mk_graph (reasons : gmap string (list stored)) (used : gmap string (gset string))
    (names : gmap string (string * string)) (retired : gset string) : graph :=
  Graph (fmap (M := gmap string) valid_reasons reasons) (fmap (M := gmap string) sorted_set used) names retired.

Definition is_stale (g : graph) (item : string) : bool :=
  match reasons_of g.(g_reasons) item with [] => false | _ => true end.

(** ** [Graph.dependents]: breadth first over the edges *)

(** The inner loop, over [self.used_by.get(node, ())]. *)
Fixpoint visit (p : list string) (nexts : list string) (seen : gset string) (out queue : list (string * list string)) :
    gset string * list (string * list string) * list (string * list string) :=
  match nexts with
  | [] => (seen, out, queue)
  | nxt :: nexts' =>
      if bool_decide (nxt ∈ seen) then visit p nexts' seen out queue
      else visit p nexts' ({[nxt]} ∪ seen) (out ++ [(nxt, p ++ [nxt])]) (queue ++ [(nxt, p ++ [nxt])])
  end.

(** The outer loop, [while queue]. *)
Fixpoint bfs (fuel : nat) (used : gmap string (list string)) (seen : gset string) (out queue : list (string * list string)) :
    option (list (string * list string)) :=
  match queue with
  | [] => Some out
  | (node, p) :: queue' =>
      match fuel with
      | O => None
      | S fuel' =>
          let '(seen', out', queue'') := visit p (default [] (used !! node)) seen out queue' in
          bfs fuel' used seen' out' queue''
      end
  end.

(** Every node is queued at most once: the turns are the nodes edges lead to, and the start. *)
Definition targets (used : gmap string (list string)) : gset string :=
  map_fold (fun _ v s => list_to_set v ∪ s) ∅ used.
Definition bfs_fuel (used : gmap string (list string)) : nat := S (size (targets used)).

Definition dependents (g : graph) (item : string) : list (string * list string) :=
  default [] (bfs (bfs_fuel g.(g_used_by)) g.(g_used_by) {[item]} [] [(item, [item])]).

(** ** The texts *)

Definition _name (g : graph) (k : string) : string :=
  let '(label, title) := default ("item"%string, k) (g.(g_names) !! k) in label +:+ " " +:+ title.

Definition _upstream_text (g : graph) (origin : string) (p : list string) : string :=
  "Its " +:+ _name g origin +:+ " is stale" +:+
  (if (2 <? length p)%nat then " (through " +:+ _name g (default "" (p !! (length p - 2)%nat)) +:+ ")" else "").

(** ** Writing *)

Definition has_origin (origin : string) (mine : list reason) : bool :=
  existsb (fun r => String.eqb r.(r_origin) origin) mine.

(** One turn of [_push]'s loop, and the loop; [previous] is the time a reason was first seen. *)
Definition push_one (g : graph) (origin at_ : string) (previous : gmap (string * string) string)
    (st : gmap string (list reason) * gset string) (kp : string * list string) :=
  let '(rs, changed) := st in
  let '(k, p) := kp in
  let mine := reasons_of rs k in
  if has_origin origin mine then (<[k := mine]> rs, changed)
  else
    let first_seen := default at_ (previous !! (k, origin)) in
    (<[k := mine ++ [Reason origin KIND_UPSTREAM (_upstream_text g origin p) (Some origin) (Some first_seen)]]> rs,
     {[k]} ∪ changed).

Definition _push (g : graph) (origin at_ : string) (previous : gmap (string * string) string) : graph * gset string :=
  let '(rs, changed) := foldl (push_one g origin at_ previous) (g.(g_reasons), ∅) (dependents g origin) in
  (with_reasons rs g, changed).

(** [flag_stale]; [at_] is the time it is given, or the clock's. *)
Definition flag_stale (g : graph) (item text source kind : string) (at_ : Z) : result ValueError (graph * gset string) :=
  if bool_decide (kind ∈ FLAG_KINDS) then
    let when := isoformat_utc at_ in
    let mine := reasons_of g.(g_reasons) item in
    let known := existsb (fun r => String.eqb r.(r_origin) item && String.eqb r.(r_kind) kind &&
                                   bool_decide (r.(r_source) = Some source)) mine in
    let '(mine', changed) :=
      if known then (mine, ∅) else (mine ++ [Reason item kind text (Some source) (Some when)], {[item]}) in
    let g' := with_reasons (<[item := mine']> g.(g_reasons)) g in
    if bool_decide (item ∈ g.(g_retired)) then Ok (g', changed)
    else let '(g'', pushed) := _push g' item when ∅ in Ok (g'', changed ∪ pushed)
  else Err BadKind.

(** The item's own [time] reason, and [next(...)], [list.remove] and the change of its text. *)
Definition is_clock_of (item : string) (r : reason) : bool :=
  String.eqb r.(r_origin) item && String.eqb r.(r_kind) KIND_TIME.
Fixpoint remove_first (p : reason -> bool) (l : list reason) : list reason :=
  match l with [] => [] | r :: l' => if p r then l' else r :: remove_first p l' end.
Fixpoint retext_first (p : reason -> bool) (text : string) (l : list reason) : list reason :=
  match l with
  | [] => []
  | r :: l' => if p r then Reason r.(r_origin) r.(r_kind) text r.(r_source) r.(r_at) :: l' else r :: retext_first p text l'
  end.

Definition set_overdue (g : graph) (item : string) (text : option string) (at_ : Z) : graph * bool :=
  let mine := reasons_of g.(g_reasons) item in
  let put mine' := with_reasons (<[item := mine']> g.(g_reasons)) g in
  match List.find (is_clock_of item) mine, text with
  | None, None => (put mine, false)
  | Some _, None => (put (remove_first (is_clock_of item) mine), true)
  | Some current, Some t =>
      if String.eqb current.(r_text) t then (put mine, false)
      else (put (retext_first (is_clock_of item) t mine), true)
  | None, Some t => (put (mine ++ [Reason item KIND_TIME t (Some TIME_SOURCE) (Some (isoformat_utc at_))]), true)
  end.

Definition not_from (item : string) (r : reason) : bool := negb (String.eqb r.(r_origin) item).

(** [mark_reviewed]: an item changed when a reason of it went. *)
Definition mark_reviewed (g : graph) (item : string) : graph * gset string :=
  (with_reasons (fmap (M := gmap string) (List.filter (not_from item)) g.(g_reasons)) g,
   dom (filter (fun kv => existsb (fun r => negb (not_from item r)) kv.2 = true) g.(g_reasons))).

(** ** [repropagate] *)

Definition inherited (r : reason) : bool := String.eqb r.(r_kind) KIND_UPSTREAM.
Definition own (r : reason) : bool := negb (inherited r).

(** [previous]: the last of the reasons of an origin wins, as in the dict comprehension. *)
Definition previous_of (rs : gmap string (list reason)) (when : string) : gmap (string * string) string :=
  map_fold (fun k v out =>
    foldl (fun out r => if inherited r then <[(k, r.(r_origin)) := default when r.(r_at)]> out else out) out v) ∅ rs.

(** [origins]: [sorted] of the set of the flags' origins, less the retired. *)
Definition flag_origins (rs : gmap string (list reason)) : gset string :=
  map_fold (fun _ v out =>
    list_to_set (r_origin <$> List.filter (fun r => bool_decide (r.(r_kind) ∈ FLAG_KINDS)) v) ∪ out) ∅ rs.
Definition origins_of (g : graph) : list string := sorted_set (flag_origins g.(g_reasons) ∖ g.(g_retired)).

(** [norm]: the reasons as tuples, in order; [str(None)] is "None". *)
Definition norm_one (r : reason) : list string :=
  [r.(r_origin); r.(r_kind); r.(r_text); default "None" r.(r_source); default "None" r.(r_at)]%string.
Fixpoint strings_leb (a b : list string) : bool :=
  match a, b with
  | [], _ => true
  | _ :: _, [] => false
  | x :: a', y :: b' => if String.eqb x y then strings_leb a' b' else string_leb x y
  end.
Definition norm (rs : list reason) : list (list string) := py_sorted strings_leb (norm_one <$> rs).

Definition repropagate (g : graph) (at_ : Z) : graph * gset string :=
  let when := isoformat_utc at_ in
  let previous := previous_of g.(g_reasons) when in
  let g0 := with_reasons (fmap (M := gmap string) (List.filter own) g.(g_reasons)) g in
  let g' := foldl (fun g origin => (_push g origin when previous).1) g0 (origins_of g0) in
  (g', filter (fun k => norm (reasons_of g.(g_reasons) k) <> norm (reasons_of g'.(g_reasons) k))
         (dom g.(g_reasons) ∪ dom g'.(g_reasons))).

(** ** Breadth-first search *)

Section Bfs.
Context (used : gmap string (list string)) (item : string).

(** A walk along the edges from [item], and its last node. *)
Inductive walk : list string -> string -> Prop :=
| walk_start : walk [item] item
| walk_step p u v : walk p u -> v ∈ default [] (used !! u) -> walk (p ++ [v]) v.

Definition reaches (k : string) : Prop := exists p, walk p k.

Lemma visit_spec p nexts seen out queue :
  exists vs, NoDup vs /\ (forall v, v ∈ vs <-> v ∈ nexts /\ v ∉ seen) /\
    visit p nexts seen out queue =
      (list_to_set vs ∪ seen, out ++ ((fun v => (v, p ++ [v])) <$> vs), queue ++ ((fun v => (v, p ++ [v])) <$> vs)).
Proof.
  revert seen out queue. induction nexts as [|v nexts IH]; intros seen out queue; cbn [visit].
  - exists []. split; [constructor|]. split; [set_solver|].
    cbn. by rewrite !app_nil_r, (left_id_L ∅ (∪)).
  - case_bool_decide as Hv.
    + destruct (IH seen out queue) as (vs & Hn & Hin & ->). exists vs. split; [done|]. split; [|done]. set_solver.
    + destruct (IH ({[v]} ∪ seen) (out ++ [(v, p ++ [v])]) (queue ++ [(v, p ++ [v])])) as (vs & Hn & Hin & ->).
      exists (v :: vs). split; [constructor; [set_solver|done]|].
      split; [intros w; rewrite !elem_of_cons, Hin; destruct (decide (w = v)); set_solver|].
      rewrite fmap_cons, <- !(assoc_L (++)). cbn [app list_to_set]. do 2 f_equal. set_solver.
Qed.

Lemma elem_of_targets u v : v ∈ default [] (used !! u) -> v ∈ targets used.
Proof.
  unfold targets. induction used as [|k l m Hk _ IH] using map_first_key_ind.
  - by rewrite lookup_empty, elem_of_nil.
  - rewrite map_fold_insert_L; [|set_solver|done]. destruct (decide (u = k)) as [->|Hne].
    + rewrite lookup_insert_eq. set_solver.
    + rewrite lookup_insert_ne by done. set_solver.
Qed.

(** What holds at the head of the outer loop: [done_] are the nodes taken off the queue. *)
Definition shorter (a b : string * list string) : Prop := (length a.2 <= length b.2)%nat.
Record bfs_inv (seen : gset string) (out queue done_ : list (string * list string)) : Prop := {
  bi_split : (item, [item]) :: out = done_ ++ queue;
  bi_seen : forall v, v ∈ seen <-> v ∈ ((item, [item]) :: out).*1;
  bi_nodup : NoDup ((item, [item]) :: out).*1;
  bi_walk : forall k p, (k, p) ∈ (item, [item]) :: out -> walk p k;
  bi_done : forall u p v, (u, p) ∈ done_ -> v ∈ default [] (used !! u) ->
    exists q, (v, q) ∈ (item, [item]) :: out /\ (length q <= S (length p))%nat;
  bi_sorted : StronglySorted shorter ((item, [item]) :: out);
  bi_front : forall h queue', queue = h :: queue' -> forall e, e ∈ (item, [item]) :: out -> (length e.2 <= S (length h.2))%nat
}.

Lemma bfs_inv_start : bfs_inv {[item]} [] [(item, [item])] [].
Proof.
  split; cbn; [done|set_solver|apply NoDup_singleton| | | |].
  - intros k p Hk. apply list_elem_of_singleton in Hk. simplify_eq. constructor.
  - set_solver.
  - repeat constructor.
  - intros h queue' ? e He. apply list_elem_of_singleton in He. simplify_eq. cbn. lia.
Qed.

Lemma StronglySorted_app_max (l k : list (string * list string)) :
  StronglySorted shorter l -> StronglySorted shorter k -> (forall a b, a ∈ l -> b ∈ k -> shorter a b) ->
  StronglySorted shorter (l ++ k).
Proof.
  intros Hl Hk H. induction Hl as [|a l Hl IH Ha]; [done|]. cbn. constructor; [apply IH; set_solver|].
  rewrite Forall_forall in *. intros b. rewrite elem_of_app. intros [?|?]; [auto|apply H; set_solver].
Qed.

Lemma sorted_level p vs : StronglySorted shorter ((fun v => (v, p ++ [v])) <$> vs).
Proof.
  induction vs as [|v vs IH]; cbn; constructor; [done|]. apply Forall_forall. intros [w q] Hq.
  apply list_elem_of_fmap in Hq as (x & ? & _). simplify_eq. unfold shorter. cbn. rewrite !length_app. cbn. lia.
Qed.

Lemma bfs_inv_step seen out queue done_ u p vs :
  bfs_inv seen out ((u, p) :: queue) done_ -> NoDup vs -> (forall v, v ∈ vs <-> v ∈ default [] (used !! u) /\ v ∉ seen) ->
  bfs_inv (list_to_set vs ∪ seen) (out ++ ((fun v => (v, p ++ [v])) <$> vs))
    (queue ++ ((fun v => (v, p ++ [v])) <$> vs)) (done_ ++ [(u, p)]).
Proof.
  intros [Hsplit Hseen Hnd Hwalk Hdone Hsort Hfront] Hn Hvs.
  set (new := (fun v => (v, p ++ [v])) <$> vs).
  assert (Hnew : forall e, e ∈ new -> exists v, e = (v, p ++ [v]) /\ v ∈ vs) by
    (intros e He; apply list_elem_of_fmap in He as (v & -> & ?); eauto).
  assert (Hup : (u, p) ∈ (item, [item]) :: out) by (rewrite Hsplit; set_solver).
  assert (Hfst : new.*1 = vs) by (unfold new; rewrite <- list_fmap_compose; apply list_fmap_id).
  split; rewrite ?app_comm_cons, ?fmap_app, ?Hfst.
  - rewrite Hsplit, <- !(assoc_L (++)). done.
  - intros v. rewrite elem_of_app, <- Hseen. set_solver.
  - apply NoDup_app. split; [done|]. split; [|done]. intros v. rewrite <- Hseen, Hvs. tauto.
  - intros k q. rewrite elem_of_app. intros [Hq|(v & ? & Hv)%Hnew]; [by apply Hwalk|]. simplify_eq.
    apply (walk_step p u); [by apply Hwalk|]. by apply Hvs.
  - intros w q v. rewrite elem_of_app, list_elem_of_singleton. intros [Hw|?] Hv.
    + destruct (Hdone w q v Hw Hv) as (r & ? & ?). exists r. set_solver.
    + simplify_eq. destruct (decide (v ∈ seen)) as [Hs|Hs].
      * apply Hseen, list_elem_of_fmap in Hs as ([v' r] & -> & Hr). exists r. split; [set_solver|].
        exact (Hfront (u, p) queue eq_refl (v', r) Hr).
      * exists (p ++ [v]). split; [|rewrite length_app; cbn; lia].
        apply elem_of_app. right. apply list_elem_of_fmap. exists v. split; [done|]. by apply Hvs.
  - apply StronglySorted_app_max; [done|apply sorted_level|]. intros a b Ha (v & -> & _)%Hnew.
    unfold shorter. cbn. rewrite length_app. cbn. pose proof (Hfront (u, p) queue eq_refl a Ha). cbn in *. lia.
  - intros h queue' Hq e He.
    assert (h ∈ (item, [item]) :: out ++ new /\ (length p <= length h.2)%nat) as [Hh Hlen].
    { assert (h ∈ queue ++ new) as Hqn by (rewrite Hq; left).
      apply elem_of_app in Hqn as [Hh|(v & -> & Hv)%Hnew].
      - split; [rewrite app_comm_cons, Hsplit; set_solver|]. rewrite Hsplit in Hsort.
        apply StronglySorted_app in Hsort as (_ & _ & Hsort). inversion Hsort as [|? ? _ Hall]; simplify_eq.
        rewrite Forall_forall in Hall. by apply (Hall h).
      - split; [|cbn; rewrite length_app; lia]. rewrite app_comm_cons. apply elem_of_app. right.
        apply list_elem_of_fmap. eauto. }
    apply elem_of_app in He as [He|(v & -> & _)%Hnew].
    + pose proof (Hfront (u, p) queue eq_refl e He). cbn in *. lia.
    + cbn. rewrite length_app. cbn. lia.
Qed.

Lemma bfs_runs fuel seen out queue done_ :
  bfs_inv seen out queue done_ -> (size (targets used ∖ seen) + length queue <= fuel)%nat ->
  exists seen' out', bfs fuel used seen out queue = Some out' /\ bfs_inv seen' out' [] ((item, [item]) :: out').
Proof.
  revert seen out queue done_. induction fuel as [|fuel IH]; intros seen out [|[u p] queue] done_ Hinv Hfuel; cbn in *; try lia.
  1,2: exists seen, out; split; [done|]; pose proof (bi_split _ _ _ _ Hinv) as Hs; rewrite app_nil_r in Hs; by rewrite Hs at 1.
  destruct (visit_spec p (default [] (used !! u)) seen out queue) as (vs & Hn & Hvs & ->).
  eapply IH; [by eapply bfs_inv_step|].
  assert (size (targets used ∖ (list_to_set vs ∪ seen)) + length vs <= size (targets used ∖ seen))%nat.
  { rewrite <- (size_list_to_set (C := gset string) vs) by done. rewrite <- size_union by set_solver.
    apply subseteq_size. intros v. rewrite elem_of_union, !elem_of_difference, elem_of_list_to_set.
    intros [[? ?]|[? ?]%Hvs]; [set_solver|]. split; [by eapply elem_of_targets|done]. }
  rewrite length_app, length_fmap. lia.
Qed.

Lemma walk_covered seen out p k :
  bfs_inv seen out [] ((item, [item]) :: out) -> walk p k ->
  exists q, (k, q) ∈ (item, [item]) :: out /\ (length q <= length p)%nat.
Proof.
  intros Hinv. induction 1 as [|p u v _ (q & Hq & Hl) Hv]; [exists [item]; set_solver|].
  destruct (bi_done _ _ _ _ Hinv u q v Hq Hv) as (r & Hr & ?). exists r. split; [done|]. rewrite length_app. cbn. lia.
Qed.

Lemma walk_nonempty p k : walk p k -> (1 <= length p)%nat.
Proof. destruct 1; rewrite ?length_app; cbn; lia. Qed.

Lemma reaches_refl : reaches item.
Proof. exists [item]. constructor. Qed.
End Bfs.

(** What [dependents] returns, for the loop's result and for the theorem. *)
Lemma dependents_inv g item :
  exists seen, bfs_inv g.(g_used_by) item seen (dependents g item) [] ((item, [item]) :: dependents g item).
Proof.
  destruct (bfs_runs g.(g_used_by) item (bfs_fuel g.(g_used_by)) {[item]} [] [(item, [item])] []) as (seen & out & E & Hinv).
  - apply bfs_inv_start.
  - unfold bfs_fuel. cbn. pose proof (subseteq_size (targets (g_used_by g) ∖ {[item]}) (targets (g_used_by g))). set_solver by lia.
  - exists seen. unfold dependents. by rewrite E.
Qed.

Section Dependents.
Context (g : graph) (item : string).

Lemma dependents_nodup : NoDup (dependents g item).*1.
Proof. destruct (dependents_inv g item) as [seen []]. cbn in *. by apply NoDup_cons in bi_nodup0 as [_ ?]. Qed.

Lemma dependents_not_self p : (item, p) ∉ dependents g item.
Proof.
  destruct (dependents_inv g item) as [seen []]. cbn in *. apply NoDup_cons in bi_nodup0 as [Hn _].
  contradict Hn. apply list_elem_of_fmap. by exists (item, p).
Qed.

Lemma dependents_walk k p : (k, p) ∈ dependents g item -> walk g.(g_used_by) item p k.
Proof. destruct (dependents_inv g item) as [seen []]. intros. apply bi_walk0. by right. Qed.

Lemma dependents_complete k p :
  k <> item -> walk g.(g_used_by) item p k -> exists q, (k, q) ∈ dependents g item /\ (length q <= length p)%nat.
Proof.
  intros Hk Hw. destruct (dependents_inv g item) as [seen Hinv].
  destruct (walk_covered _ _ _ _ p k Hinv Hw) as (q & Hq & ?). exists q. split; [|done].
  apply elem_of_cons in Hq as [?|?]; [by simplify_eq|done].
Qed.

Lemma dependents_unique k p q : (k, p) ∈ dependents g item -> (k, q) ∈ dependents g item -> p = q.
Proof.
  intros Hp Hq. pose proof dependents_nodup as Hn.
  apply (elem_of_list_to_map_1 (M := gmap string)) in Hp, Hq; [|done..]. congruence.
Qed.

Lemma elem_of_dependents k :
  k ∈ (dependents g item).*1 <-> k <> item /\ reaches g.(g_used_by) item k.
Proof.
  rewrite list_elem_of_fmap. split.
  - intros ([k' p] & Hk & Hp). cbn in Hk. subst k'. split; [intros ->; by eapply dependents_not_self|].
    exists p. by apply dependents_walk.
  - intros [Hk [p Hp]]. destruct (dependents_complete k p Hk Hp) as (q & ? & _). by exists (k, q).
Qed.

(** [dependents] is breadth-first search done right, whatever cycles the edges have: every item the
    edges lead to from [item], and no other, is returned once; the path is a shortest walk to it; and
    nearer items come first. *)
Theorem dependents_spec :
  NoDup (dependents g item).*1 /\
  (forall k, k ∈ (dependents g item).*1 <-> k <> item /\ reaches g.(g_used_by) item k) /\
  (forall k p, (k, p) ∈ dependents g item ->
     walk g.(g_used_by) item p k /\ forall p', walk g.(g_used_by) item p' k -> (length p <= length p')%nat) /\
  StronglySorted shorter (dependents g item).
Proof.
  split; [apply dependents_nodup|]. split; [apply elem_of_dependents|]. split.
  - intros k p Hp. split; [by apply dependents_walk|]. intros p' Hw.
    assert (k <> item) as Hk by (intros ->; by eapply dependents_not_self).
    destruct (dependents_complete k p' Hk Hw) as (q & Hq & ?). by rewrite (dependents_unique k p q Hp Hq).
  - destruct (dependents_inv g item) as [seen []]. by inversion bi_sorted0.
Qed.
End Dependents.

(** ** What [_push] adds *)

Definition same_frame (g g' : graph) : Prop :=
  g'.(g_used_by) = g.(g_used_by) /\ g'.(g_names) = g.(g_names) /\ g'.(g_retired) = g.(g_retired).

(** The path [dependents] gives for an item. *)
Definition dep_path (g : graph) (origin k : string) : option (list string) :=
  (list_to_map (dependents g origin) : gmap string (list string)) !! k.

Lemma dep_path_spec g origin k p : dep_path g origin k = Some p <-> (k, p) ∈ dependents g origin.
Proof. unfold dep_path. symmetry. apply elem_of_list_to_map, dependents_nodup. Qed.

Lemma dep_path_is_Some g origin k : is_Some (dep_path g origin k) <-> k ∈ (dependents g origin).*1.
Proof.
  rewrite list_elem_of_fmap. split.
  - intros [p Hp%dep_path_spec]. by exists (k, p).
  - intros ([k' p] & Hk & Hp). cbn in Hk. subst. exists p. by apply dep_path_spec.
Qed.

Lemma dep_path_self g item : dep_path g item item = None.
Proof.
  destruct (dep_path g item item) as [p|] eqn:E; [|done]. apply dep_path_spec in E.
  by apply dependents_not_self in E.
Qed.

(** What a push from [origin] adds to an item that has the reasons [mine]. *)
Definition pushed (g : graph) (origin at_ : string) (previous : gmap (string * string) string)
    (k : string) (mine : list reason) : list reason :=
  match dep_path g origin k with
  | Some p => if has_origin origin mine then []
              else [Reason origin KIND_UPSTREAM (_upstream_text g origin p) (Some origin)
                      (Some (default at_ (previous !! (k, origin))))]
  | None => []
  end.

Lemma reasons_of_insert (rs : gmap string (list reason)) k k' l :
  reasons_of (<[k := l]> rs) k' = if decide (k' = k) then l else reasons_of rs k'.
Proof. case_decide as H; [subst; by rewrite lookup_insert_eq|by rewrite lookup_insert_ne]. Qed.

Lemma foldl_push g origin at_ previous l rs ch :
  NoDup l.*1 ->
  (forall k, reasons_of (foldl (push_one g origin at_ previous) (rs, ch) l).1 k = reasons_of rs k ++
     match (list_to_map l : gmap string (list string)) !! k with
     | Some p => if has_origin origin (reasons_of rs k) then []
                 else [Reason origin KIND_UPSTREAM (_upstream_text g origin p) (Some origin)
                         (Some (default at_ (previous !! (k, origin))))]
     | None => []
     end) /\
  (forall k, k ∈ (foldl (push_one g origin at_ previous) (rs, ch) l).2 <->
     k ∈ ch \/ (k ∈ l.*1 /\ has_origin origin (reasons_of rs k) = false)).
Proof.
  revert rs ch. induction l as [|[k0 p0] l IH]; intros rs ch Hn.
  - split; intros k; cbn; [by rewrite app_nil_r|set_solver].
  - cbn in Hn. apply NoDup_cons in Hn as [Hk0 Hn].
    assert ((list_to_map l : gmap string (list string)) !! k0 = None) as Hnone by by apply not_elem_of_list_to_map_1.
    cbn [foldl push_one]. destruct (has_origin origin (reasons_of rs k0)) eqn:Eh;
      (match goal with |- context [foldl _ (?rs', ?ch') l] => destruct (IH rs' ch' Hn) as [IH1 IH2] end); split.
    all: intros k; cbn [fmap list_fmap fst list_to_map foldr].
    + rewrite IH1, reasons_of_insert. case_decide as Hk; [subst; by rewrite Hnone, lookup_insert_eq, Eh|].
      by rewrite lookup_insert_ne.
    + rewrite IH2, reasons_of_insert, elem_of_cons. case_decide as Hk; [subst; rewrite Eh; naive_solver|naive_solver].
    + rewrite IH1, reasons_of_insert. case_decide as Hk; [subst; by rewrite Hnone, lookup_insert_eq, Eh, app_nil_r|].
      by rewrite lookup_insert_ne.
    + rewrite IH2, reasons_of_insert, elem_of_cons, elem_of_union, elem_of_singleton.
      case_decide as Hk; [subst; rewrite Eh; naive_solver|naive_solver].
Qed.

Lemma push_spec g origin at_ previous :
  same_frame g (_push g origin at_ previous).1 /\
  (forall k, reasons_of (_push g origin at_ previous).1.(g_reasons) k =
     reasons_of g.(g_reasons) k ++ pushed g origin at_ previous k (reasons_of g.(g_reasons) k)) /\
  (forall k, k ∈ (_push g origin at_ previous).2 <->
     is_Some (dep_path g origin k) /\ has_origin origin (reasons_of g.(g_reasons) k) = false).
Proof.
  unfold _push, pushed.
  destruct (foldl_push g origin at_ previous (dependents g origin) g.(g_reasons) ∅ (dependents_nodup g origin)) as [H1 H2].
  destruct (foldl _ _ _) as [rs ch]. split; [done|]. split; [exact H1|].
  intros k. rewrite (H2 k), dep_path_is_Some. set_solver.
Qed.

(** ** The invariant: inherited reasons are exactly those of the flagged items upstream *)

Lemma has_origin_spec o l : has_origin o l = true <-> exists r, r ∈ l /\ r.(r_origin) = o.
Proof.
  unfold has_origin. rewrite existsb_exists. split; intros (r & Hr & Ho).
  - exists r. split; [by apply list_elem_of_In|by apply String.eqb_eq].
  - exists r. split; [by apply list_elem_of_In|by apply String.eqb_eq].
Qed.

Lemma has_origin_false o l : has_origin o l = false <-> forall r, r ∈ l -> r.(r_origin) <> o.
Proof. rewrite <- not_true_iff_false, has_origin_spec. naive_solver. Qed.

Lemma inherited_kind r : inherited r = true <-> r.(r_kind) = KIND_UPSTREAM.
Proof. apply String.eqb_eq. Qed.
Lemma flag_is_own r : r.(r_kind) ∈ FLAG_KINDS -> own r = true.
Proof.
  intros H. unfold own. apply negb_true_iff, not_true_iff_false. rewrite inherited_kind. intros E. rewrite E in H.
  by apply (bool_decide_eq_true_2 _) in H; vm_compute in H.
Qed.
Lemma own_not_inherited r : own r = true <-> inherited r = false.
Proof. apply negb_true_iff. Qed.

(** An item is flagged by a release or vulnerability reason of its own; flagged and not retired, it
    makes stale what depends on it. *)
Definition flagged (rs : gmap string (list reason)) (o : string) : Prop :=
  exists r, r ∈ reasons_of rs o /\ r.(r_origin) = o /\ r.(r_kind) ∈ FLAG_KINDS.
Definition source_of (g : graph) (o : string) : Prop := flagged g.(g_reasons) o /\ o ∉ g.(g_retired).
Definition at_home (g : graph) : Prop :=
  forall k r, r ∈ reasons_of g.(g_reasons) k -> own r = true -> r.(r_origin) = k.

Record Settled_for (P : string -> Prop) (g : graph) : Prop := {
  st_own : at_home g;
  st_clock : forall k, (length (List.filter (is_clock_of k) (reasons_of g.(g_reasons) k)) <= 1)%nat;
  st_one : forall k, NoDup (r_origin <$> List.filter inherited (reasons_of g.(g_reasons) k));
  st_sound : forall k r, r ∈ reasons_of g.(g_reasons) k -> inherited r = true ->
    source_of g r.(r_origin) /\ exists p at_, dep_path g r.(r_origin) k = Some p /\
      r = Reason r.(r_origin) KIND_UPSTREAM (_upstream_text g r.(r_origin) p) (Some r.(r_origin)) (Some at_);
  st_complete : forall o k, P o -> source_of g o -> is_Some (dep_path g o k) ->
    exists r, r ∈ reasons_of g.(g_reasons) k /\ inherited r = true /\ r.(r_origin) = o
}.
Definition Settled : graph -> Prop := Settled_for (fun _ => True).

Lemma dep_path_frame g g' o k : same_frame g g' -> dep_path g' o k = dep_path g o k.
Proof. intros (Hu & _ & _). unfold dep_path, dependents. by rewrite Hu. Qed.
Lemma upstream_text_frame g g' o p : same_frame g g' -> _upstream_text g' o p = _upstream_text g o p.
Proof. intros (_ & Hn & _). unfold _upstream_text, _name. by rewrite Hn. Qed.

Lemma filter_nil_own (f : reason -> bool) l : (forall r, r ∈ l -> f r = false) -> List.filter f l = [].
Proof.
  intros H. destruct (List.filter f l) as [|r l'] eqn:E; [done|].
  assert (r ∈ List.filter f l) as [Hr Hf]%elem_of_lfilter by (rewrite E; left). by rewrite (H r Hr) in Hf.
Qed.

Lemma elem_of_pushed g o at_ prev k mine r :
  r ∈ pushed g o at_ prev k mine <->
  has_origin o mine = false /\ exists p, dep_path g o k = Some p /\
    r = Reason o KIND_UPSTREAM (_upstream_text g o p) (Some o) (Some (default at_ (prev !! (k, o)))).
Proof.
  unfold pushed. destruct (dep_path g o k) as [p|]; [|set_solver].
  destruct (has_origin o mine); [set_solver|]. rewrite list_elem_of_singleton. naive_solver.
Qed.

(** A push leaves every item's own reasons, hence the sources. *)
Lemma push_source g o at_ prev o' : source_of (_push g o at_ prev).1 o' <-> source_of g o'.
Proof.
  destruct (push_spec g o at_ prev) as ((_ & _ & Hret) & Hrs & _). unfold source_of, flagged. rewrite Hret.
  split; intros [(r & Hr & Ho & Hk) ?]; split; [|done| |done]; exists r; rewrite Hrs in *; [|set_solver].
  apply elem_of_app in Hr as [?|(_ & p & _ & ->)%elem_of_pushed]; [done|].
  by apply flag_is_own in Hk.
Qed.

Lemma settled_push P g o at_ prev :
  Settled_for P g -> source_of g o -> Settled_for (fun o' => P o' \/ o' = o) (_push g o at_ prev).1.
Proof.
  intros [Hown Hclock Hone Hsound Hcomp] Ho. pose proof (push_source g o at_ prev) as Hsrc.
  destruct (push_spec g o at_ prev) as (Hf & Hrs & _).
  split.
  - intros k r. rewrite Hrs, elem_of_app. intros [?|(_ & p & _ & ->)%elem_of_pushed]; [by apply Hown|done].
  - intros k. rewrite Hrs, List.filter_app, (filter_nil_own _ (pushed _ _ _ _ _ _)), app_nil_r; [done|].
    intros r (_ & p & _ & ->)%elem_of_pushed. unfold is_clock_of. cbn. by rewrite andb_false_r.
  - intros k. rewrite Hrs, List.filter_app, fmap_app. apply NoDup_app. split; [done|]. unfold pushed.
    destruct (dep_path g o k) as [p|]; [|split; [set_solver|constructor]].
    destruct (has_origin o _) eqn:E; [split; [set_solver|constructor]|]. cbn. split; [|apply NoDup_singleton].
    intros x Hx ->%list_elem_of_singleton. apply list_elem_of_fmap in Hx as (r & Hr & [Hin _]%elem_of_lfilter).
    by apply (has_origin_false _ _) with r in E.
  - intros k r. rewrite Hrs, elem_of_app. intros [Hr|(_ & p & Hp & ->)%elem_of_pushed] Hi.
    + destruct (Hsound k r Hr Hi) as (Hso & p & t & Hp & E). rewrite Hsrc. split; [done|]. exists p, t.
      by rewrite (dep_path_frame g _ _ _ Hf), (upstream_text_frame g _ _ _ Hf).
    + cbn. rewrite Hsrc. split; [done|]. eexists p, _. by rewrite (dep_path_frame g _ _ _ Hf), (upstream_text_frame g _ _ _ Hf).
  - intros o' k HP Hs Hd. rewrite Hsrc in Hs. rewrite (dep_path_frame g _ _ _ Hf) in Hd. rewrite Hrs.
    destruct HP as [HP| ->]; [destruct (Hcomp o' k HP Hs Hd) as (r & ? & ? & ?); exists r; set_solver|].
    destruct (has_origin o (reasons_of (g_reasons g) k)) eqn:E.
    + apply has_origin_spec in E as (r & Hr & Hor). exists r. split; [set_solver|]. split; [|done].
      destruct (inherited r) eqn:Ei; [done|]. apply own_not_inherited, (Hown k r Hr) in Ei.
      destruct Hd as [p Hp]. subst. by rewrite dep_path_self in Hp.
    + destruct Hd as [p Hp]. eexists. split; [apply elem_of_app; right; apply elem_of_pushed; eauto|]. done.
Qed.

(** ** Every operation keeps the invariant *)

Lemma settled_weaken (P Q : string -> Prop) g : (forall o, Q o -> P o) -> Settled_for P g -> Settled_for Q g.
Proof. intros H []. split; eauto. Qed.

(** A change of own reasons alone: the inherited ones stay right for the sources there already were. *)
Lemma settled_change_perm P g g' :
  same_frame g g' -> at_home g' ->
  (forall k, (length (List.filter (is_clock_of k) (reasons_of g'.(g_reasons) k)) <= 1)%nat) ->
  (forall k, List.filter inherited (reasons_of g'.(g_reasons) k) ≡ₚ List.filter inherited (reasons_of g.(g_reasons) k)) ->
  (forall o, source_of g o -> source_of g' o) ->
  Settled_for P g -> Settled_for (fun o => P o /\ (source_of g' o -> source_of g o)) g'.
Proof.
  intros Hf Hown Hclock Hinh Hsrc [_ _ Hone Hsound Hcomp].
  assert (forall k r, inherited r = true -> r ∈ reasons_of (g_reasons g') k <-> r ∈ reasons_of (g_reasons g) k) as Hin.
  { intros k r Hi. pose proof (elem_of_lfilter inherited r (reasons_of (g_reasons g) k)) as H1.
    pose proof (elem_of_lfilter inherited r (reasons_of (g_reasons g') k)) as H2. rewrite Hinh in H2. tauto. }
  split; [done|done|intros k; by rewrite Hinh| |].
  - intros k r Hr Hi. apply (Hin k r Hi) in Hr. destruct (Hsound k r Hr Hi) as (? & p & t & Hp & E).
    split; [by apply Hsrc|]. exists p, t. by rewrite (dep_path_frame _ _ _ _ Hf), (upstream_text_frame _ _ _ _ Hf).
  - intros o k [HP Hback] Hs Hd. rewrite (dep_path_frame _ _ _ _ Hf) in Hd.
    destruct (Hcomp o k HP (Hback Hs) Hd) as (r & Hr & Hi & ?). exists r. by rewrite (Hin k r Hi).
Qed.

Lemma settled_change P g g' :
  same_frame g g' -> at_home g' ->
  (forall k, (length (List.filter (is_clock_of k) (reasons_of g'.(g_reasons) k)) <= 1)%nat) ->
  (forall k, List.filter inherited (reasons_of g'.(g_reasons) k) = List.filter inherited (reasons_of g.(g_reasons) k)) ->
  (forall o, source_of g o -> source_of g' o) ->
  Settled_for P g -> Settled_for (fun o => P o /\ (source_of g' o -> source_of g o)) g'.
Proof. intros Hf Hown Hclock Hinh. apply settled_change_perm; [done..|]. intros k. by rewrite Hinh. Qed.

(** *** [flag_stale] *)

Definition with_item (item : string) (l : list reason) (g : graph) : graph :=
  with_reasons (<[item := l]> g.(g_reasons)) g.

Lemma with_item_frame item l g : same_frame g (with_item item l g).
Proof. done. Qed.
Lemma with_item_reasons item l g k :
  reasons_of (with_item item l g).(g_reasons) k = if decide (k = item) then l else reasons_of g.(g_reasons) k.
Proof. apply reasons_of_insert. Qed.

Lemma with_item_same item g k : reasons_of (with_item item (reasons_of g.(g_reasons) item) g).(g_reasons) k = reasons_of g.(g_reasons) k.
Proof. rewrite with_item_reasons. case_decide; by subst. Qed.

Lemma with_item_source item l g o :
  (forall r, r ∈ l -> r.(r_kind) ∈ FLAG_KINDS -> r ∈ reasons_of g.(g_reasons) item) ->
  source_of (with_item item l g) o -> source_of g o.
Proof.
  intros H [(r & Hr & Ho & Hk) ?]. split; [|done]. exists r. rewrite with_item_reasons in Hr.
  case_decide; subst; eauto.
Qed.

Lemma settled_same g item : Settled g -> Settled (with_item item (reasons_of g.(g_reasons) item) g).
Proof.
  intros Hs. eapply settled_weaken; [|apply (settled_change (fun _ => True) g); [apply with_item_frame|..|exact Hs]].
  - intros o _. split; [done|]. apply with_item_source. auto.
  - intros k r. rewrite with_item_same. apply (st_own _ _ Hs).
  - intros k. rewrite with_item_same. apply (st_clock _ _ Hs).
  - intros k. by rewrite with_item_same.
  - intros o [(r & ? & ? & ?) ?]. split; [|done]. exists r. by rewrite with_item_same.
Qed.

Lemma settled_own_reason g item r :
  Settled g -> own r = true -> r.(r_origin) = item ->
  (is_clock_of item r = true -> List.filter (is_clock_of item) (reasons_of g.(g_reasons) item) = []) ->
  Settled_for (fun o => o <> item \/ r.(r_kind) ∉ FLAG_KINDS) (with_item item (reasons_of g.(g_reasons) item ++ [r]) g).
Proof.
  intros Hs Hr Ho Hc. eapply settled_weaken; [|apply (settled_change (fun _ => True) g); [apply with_item_frame|..|exact Hs]].
  - intros o Hor. split; [done|]. intros [(x & Hx & Hxo & Hxk) ?]. split; [|done]. exists x.
    rewrite with_item_reasons in Hx. case_decide; [subst|done].
    apply elem_of_app in Hx as [?|Hx%list_elem_of_singleton]; [done|]. subst. naive_solver.
  - intros k x. rewrite with_item_reasons. case_decide; [subst|apply (st_own _ _ Hs)].
    rewrite elem_of_app, list_elem_of_singleton. intros [?|?]; [by apply (st_own _ _ Hs)|by subst].
  - intros k. rewrite with_item_reasons. case_decide; [subst k|apply (st_clock _ _ Hs)].
    rewrite List.filter_app, length_app. pose proof (st_clock _ _ Hs item). cbn.
    destruct (is_clock_of item r); [rewrite Hc by done|]; cbn; lia.
  - intros k. rewrite with_item_reasons. case_decide; [subst k|done]. rewrite List.filter_app. cbn.
    apply own_not_inherited in Hr. by rewrite Hr, app_nil_r.
  - intros o [(x & ? & ? & ?) ?]. split; [|done]. exists x. rewrite with_item_reasons. case_decide as E; [|done].
    rewrite E in *. split; [apply elem_of_app; by left|done].
Qed.

Lemma flag_not_clock item r : r.(r_kind) ∈ FLAG_KINDS -> is_clock_of item r = false.
Proof.
  intros H. unfold is_clock_of. destruct (String.eqb_spec (r_kind r) KIND_TIME) as [E|]; [|by rewrite andb_false_r].
  rewrite E in H. by apply (bool_decide_eq_true_2 _) in H; vm_compute in H.
Qed.

(** The item is flagged afterwards. *)
Lemma flagged_with g item text source kind at_ mine' :
  kind ∈ FLAG_KINDS ->
  mine' = (let mine := reasons_of g.(g_reasons) item in
           if existsb (fun r => String.eqb r.(r_origin) item && String.eqb r.(r_kind) kind &&
                                bool_decide (r.(r_source) = Some source)) mine
           then mine else mine ++ [Reason item kind text (Some source) (Some at_)]) ->
  flagged (with_item item mine' g).(g_reasons) item.
Proof.
  intros Hk ->. cbn zeta. unfold flagged.
  rewrite with_item_reasons, decide_True by done. case_match eqn:E.
  - apply existsb_exists in E as (r & Hr & E). reflect_bools. apply list_elem_of_In in Hr.
    repeat match goal with H : String.eqb _ _ = true |- _ => apply String.eqb_eq in H end. subst. eauto.
  - eexists. split; [apply elem_of_app; right; by left|]. done.
Qed.

Lemma flag_stale_settled g item text source kind at_ g' changed :
  Settled g -> flag_stale g item text source kind at_ = Ok (g', changed) -> Settled g'.
Proof.
  intros Hs. unfold flag_stale. case_bool_decide as Hk; [|done].
  set (known := existsb _ _).
  set (mine' := if known then reasons_of (g_reasons g) item else
                reasons_of (g_reasons g) item ++ [Reason item kind text (Some source) (Some (isoformat_utc at_))]).
  assert (Settled_for (fun o => o <> item) (with_item item mine' g)) as H1.
  { unfold mine'. destruct known; [eapply settled_weaken; [|by apply settled_same]; done|].
    eapply settled_weaken; [|apply settled_own_reason; [done| |done|]].
    - naive_solver.
    - by apply flag_is_own.
    - by rewrite flag_not_clock. }
  assert (flagged (with_item item mine' g).(g_reasons) item) as H2
    by (eapply (flagged_with g item text source kind (isoformat_utc at_)); [done|reflexivity]).
  assert ((if known then (reasons_of (g_reasons g) item, ∅) else
          (reasons_of (g_reasons g) item ++ [Reason item kind text (Some source) (Some (isoformat_utc at_))], {[item]})) =
          (mine', if known then ∅ else {[item]} : gset string)) as -> by (unfold mine'; by destruct known).
  fold (with_item item mine' g). case_bool_decide as Hret.
  - intros [= <- <-]. destruct H1 as [? ? ? ? Hcomp]. split; try done.
    intros o k _ Hso Hd. apply Hcomp; [|done..]. intros ->. by destruct Hso.
  - pose proof (settled_push _ _ item (isoformat_utc at_) ∅ H1 (conj H2 Hret)) as H3.
    destruct (_push _ _ _ _) as [g2 ch2]. intros [= <- <-]. eapply settled_weaken; [|exact H3]. intros o _. cbn.
    destruct (decide (o = item)); tauto.
Qed.

(** What [flag_stale] leaves: the flag on the item, unless it has it, and what is pushed from it. *)
Definition flag_mine (item text source kind : string) (at_ : Z) (mine : list reason) : list reason :=
  if existsb (fun r => String.eqb r.(r_origin) item && String.eqb r.(r_kind) kind &&
                       bool_decide (r.(r_source) = Some source)) mine
  then mine else mine ++ [Reason item kind text (Some source) (Some (isoformat_utc at_))].

Lemma flag_stale_reasons g item text source kind at_ g' changed k :
  flag_stale g item text source kind at_ = Ok (g', changed) ->
  let mine := if decide (k = item) then flag_mine item text source kind at_ (reasons_of g.(g_reasons) k)
              else reasons_of g.(g_reasons) k in
  let more := if bool_decide (item ∈ g.(g_retired)) then [] else pushed g item (isoformat_utc at_) ∅ k mine in
  same_frame g g' /\ reasons_of g'.(g_reasons) k = mine ++ more /\
  (k ∉ changed -> reasons_of g'.(g_reasons) k = reasons_of g.(g_reasons) k).
Proof.
  unfold flag_stale, flag_mine. case_bool_decide as Hk; [|done]. set (known := existsb _ (reasons_of _ item)).
  set (l := if known then reasons_of (g_reasons g) item
            else reasons_of (g_reasons g) item ++ [Reason item kind text (Some source) (Some (isoformat_utc at_))]).
  intros H. cbn zeta.
  assert ((if decide (k = item) then
      if existsb (fun r => String.eqb r.(r_origin) item && String.eqb r.(r_kind) kind && bool_decide (r.(r_source) = Some source))
           (reasons_of (g_reasons g) k) then reasons_of (g_reasons g) k
      else reasons_of (g_reasons g) k ++ [Reason item kind text (Some source) (Some (isoformat_utc at_))]
    else reasons_of (g_reasons g) k) = reasons_of (with_item item l g).(g_reasons) k) as ->
    by (rewrite with_item_reasons; destruct (decide (k = item)) as [->|]; done).
  assert (k <> item \/ known = true -> reasons_of (with_item item l g).(g_reasons) k = reasons_of g.(g_reasons) k) as Hsame.
  { rewrite with_item_reasons. intros [?|Hn]; (destruct (decide (k = item)) as [->|]; [|done]); [done|]. unfold l. by rewrite Hn. }
  assert ((if known then (reasons_of (g_reasons g) item, ∅) else
          (reasons_of (g_reasons g) item ++ [Reason item kind text (Some source) (Some (isoformat_utc at_))], {[item]})) =
          (l, if known then ∅ else {[item]} : gset string)) as E by (unfold l; by destruct known).
  rewrite E in H. fold (with_item item l g) in H. case_bool_decide.
  - injection H as <- <-. split; [done|]. rewrite app_nil_r. split; [done|]. intros Hn. apply Hsame.
    destruct known; [by right|left; set_solver].
  - destruct (push_spec (with_item item l g) item (isoformat_utc at_) ∅) as (Hf & Hrs & Hch).
    destruct (_push _ _ _ _) as [g2 ch2]. injection H as <- <-. cbn in *. split; [done|]. split; [apply Hrs|].
    intros Hn. rewrite (Hrs k). rewrite Hsame by (destruct known; [by right|left; set_solver]).
    assert (k ∉ ch2) as Hn2 by set_solver. rewrite Hch in Hn2.
    unfold pushed. change (dep_path (with_item item l g) item k) with (dep_path g item k) in *.
    destruct (dep_path g item k) as [p|] eqn:Ed; [|by rewrite app_nil_r].
    destruct (has_origin item (reasons_of (g_reasons g) k)) eqn:Eo; [by rewrite app_nil_r|]. destruct Hn2.
    split; [by eexists|]. by rewrite Hsame by (destruct known; [by right|left; set_solver]).
Qed.

(** *** [set_overdue] *)

Section FirstMatch.
Context (p : reason -> bool).

Lemma find_none_filter l : List.find p l = None -> List.filter p l = [].
Proof. intros H. apply filter_nil_own. intros r Hr%list_elem_of_In. by apply (find_none p l H). Qed.

Lemma filter_remove_first_other f l : (forall r, p r = true -> f r = false) -> List.filter f (remove_first p l) = List.filter f l.
Proof. intros H. induction l as [|r l IH]; cbn; [done|]. destruct (p r) eqn:E; cbn; [by rewrite H|by rewrite IH]. Qed.

Lemma filter_retext_first_other f text l :
  (forall r, p r = true -> f r = false) ->
  (forall r, p r = true -> f (Reason r.(r_origin) r.(r_kind) text r.(r_source) r.(r_at)) = false) ->
  List.filter f (retext_first p text l) = List.filter f l.
Proof.
  intros H1 H2. induction l as [|r l IH]; cbn [retext_first List.filter]; [done|].
  destruct (p r) eqn:E; cbn [List.filter]; [by rewrite (H1 r E), (H2 r E)|by rewrite IH].
Qed.

Lemma filter_remove_first_one l : (length (List.filter p l) <= 1)%nat -> List.filter p (remove_first p l) = [].
Proof.
  induction l as [|r l IH]; cbn; [done|]. destruct (p r) eqn:E; cbn; rewrite ?E; [|apply IH].
  intros H. apply length_zero_iff_nil. lia.
Qed.

Lemma texts_retext_first text l :
  (forall r, p r = true -> p (Reason r.(r_origin) r.(r_kind) text r.(r_source) r.(r_at)) = true) ->
  (length (List.filter p l) <= 1)%nat -> List.find p l <> None ->
  r_text <$> List.filter p (retext_first p text l) = [text].
Proof.
  intros Hp. induction l as [|r l IH]; cbn [retext_first List.filter List.find]; [done|].
  destruct (p r) eqn:E; cbn [List.filter]; rewrite ?E.
  - rewrite (Hp r E). cbn. intros H _. destruct (List.filter p l); [done|cbn in H; lia].
  - apply IH.
Qed.

Lemma texts_find l r : (length (List.filter p l) <= 1)%nat -> List.find p l = Some r -> List.filter p l = [r].
Proof.
  induction l as [|x l IH]; cbn; [done|]. destruct (p x); [|apply IH]. cbn. intros H [= ->].
  destruct (List.filter p l); [done|cbn in H; lia].
Qed.
End FirstMatch.

Lemma clock_is_own item r : is_clock_of item r = true -> own r = true.
Proof.
  unfold is_clock_of, own, inherited. intros [_ H%String.eqb_eq]%andb_true_iff. by rewrite H.
Qed.

Definition overdue_list (item : string) (text : option string) (at_ : Z) (mine : list reason) : list reason :=
  match List.find (is_clock_of item) mine, text with
  | None, None => mine
  | Some _, None => remove_first (is_clock_of item) mine
  | Some current, Some t =>
      if String.eqb current.(r_text) t then mine else retext_first (is_clock_of item) t mine
  | None, Some t => mine ++ [Reason item KIND_TIME t (Some TIME_SOURCE) (Some (isoformat_utc at_))]
  end.

Lemma set_overdue_list g item text at_ :
  (set_overdue g item text at_).1 = with_item item (overdue_list item text at_ (reasons_of g.(g_reasons) item)) g.
Proof. unfold set_overdue, overdue_list. repeat case_match; reflexivity. Qed.

Lemma overdue_list_other f item text at_ mine :
  (forall r, is_clock_of item r = true -> f r = false) -> List.filter f (overdue_list item text at_ mine) = List.filter f mine.
Proof.
  intros Hf. unfold overdue_list.
  destruct (List.find _ mine) eqn:E, text as [t|]; [case_match| | |]; try done.
  - apply filter_retext_first_other; [done|]. intros r' Hr'. apply Hf. done.
  - by apply filter_remove_first_other.
  - rewrite List.filter_app. cbn. rewrite Hf; [by rewrite app_nil_r|]. unfold is_clock_of. cbn. by rewrite String.eqb_refl.
Qed.

Lemma overdue_list_clock item text at_ mine :
  (length (List.filter (is_clock_of item) mine) <= 1)%nat ->
  r_text <$> List.filter (is_clock_of item) (overdue_list item text at_ mine) = option_list text.
Proof.
  intros H. unfold overdue_list. destruct (List.find _ mine) as [r|] eqn:E, text as [t|]; [case_match eqn:Et| | |].
  - apply String.eqb_eq in Et. subst. by rewrite (texts_find _ _ _ H E).
  - apply texts_retext_first; [done|done|by rewrite E].
  - by rewrite filter_remove_first_one.
  - rewrite List.filter_app, (find_none_filter _ _ E). cbn. unfold is_clock_of. cbn. by rewrite String.eqb_refl.
  - by rewrite (find_none_filter _ _ E).
Qed.

Lemma elem_of_overdue_list item text at_ mine r :
  r ∈ overdue_list item text at_ mine -> r ∈ mine \/ is_clock_of item r = true.
Proof.
  intros Hr. destruct (is_clock_of item r) eqn:E; [by right|left].
  assert (r ∈ List.filter (fun x => negb (is_clock_of item x)) (overdue_list item text at_ mine)) as H
    by (apply elem_of_lfilter; by rewrite E).
  rewrite overdue_list_other in H; [by apply elem_of_lfilter in H as []|]. by intros ? ->.
Qed.

Lemma elem_of_overdue_list_other item text at_ mine r :
  is_clock_of item r = false -> r ∈ mine -> r ∈ overdue_list item text at_ mine.
Proof.
  intros E Hr.
  assert (r ∈ List.filter (fun x => negb (is_clock_of item x)) mine) as H by (apply elem_of_lfilter; by rewrite E).
  rewrite <- (overdue_list_other _ item text at_) in H; [by apply elem_of_lfilter in H as []|]. by intros ? ->.
Qed.

(** Items whose clock reason alone was set keep the invariant. *)
Definition refreshed (k : string) (l l' : list reason) : Prop :=
  l' = l \/ exists text at_, l' = overdue_list k text at_ l.

Lemma settled_refreshed g g' :
  same_frame g g' -> (forall k, refreshed k (reasons_of g.(g_reasons) k) (reasons_of g'.(g_reasons) k)) ->
  Settled g -> Settled g'.
Proof.
  intros Hf H Hs.
  assert (forall k r, is_clock_of k r = false -> r ∈ reasons_of g'.(g_reasons) k <-> r ∈ reasons_of g.(g_reasons) k) as Hin.
  { intros k r Hc. destruct (H k) as [->|(text & t & ->)]; [done|]. split; [|by apply elem_of_overdue_list_other].
    intros [?|?]%elem_of_overdue_list; [done|congruence]. }
  eapply settled_weaken; [|apply (settled_change (fun _ => True) g g' Hf); [..|exact Hs]].
  - intros o _. split; [done|]. intros [(r & Hr & Ho & Hk) Hret]. destruct Hf as (_ & _ & Hf). rewrite Hf in Hret.
    split; [|done]. exists r. split; [|done]. apply (Hin o r); [by apply flag_not_clock|done].
  - intros k r. destruct (H k) as [->|(text & t & ->)]; [apply (st_own _ _ Hs)|].
    intros [?|Hc]%elem_of_overdue_list; [by apply (st_own _ _ Hs)|]. intros _.
    by apply andb_true_iff in Hc as [?%String.eqb_eq _].
  - intros k. destruct (H k) as [->|(text & t & ->)]; [apply (st_clock _ _ Hs)|].
    pose proof (overdue_list_clock k text t _ (st_clock _ _ Hs k)) as Hl.
    apply (f_equal length) in Hl. rewrite length_fmap in Hl. rewrite Hl. destruct text; cbn; lia.
  - intros k. destruct (H k) as [->|(text & t & ->)]; [done|]. apply overdue_list_other.
    intros r Hc%clock_is_own. by apply own_not_inherited.
  - intros o [(r & Hr & Ho & Hk) Hret]. destruct Hf as (_ & _ & Hf). split; [|by rewrite Hf]. exists r.
    split; [|done]. apply Hin; [by apply flag_not_clock|done].
Qed.

Lemma set_overdue_settled g item text at_ : Settled g -> Settled (set_overdue g item text at_).1.
Proof.
  rewrite set_overdue_list. apply settled_refreshed; [apply with_item_frame|]. intros k.
  rewrite with_item_reasons. case_decide; [subst; right; by eexists _, _|by left].
Qed.

Lemma set_overdue_unchanged g item text at_ :
  (set_overdue g item text at_).2 = false -> overdue_list item text at_ (reasons_of g.(g_reasons) item) = reasons_of g.(g_reasons) item.
Proof. unfold set_overdue, overdue_list. repeat case_match; done. Qed.

(** *** [mark_reviewed] *)

Lemma reasons_of_fmap (f : list reason -> list reason) (rs : gmap string (list reason)) k :
  f [] = [] -> reasons_of (f <$> rs) k = f (reasons_of rs k).
Proof. intros Hf. rewrite lookup_fmap. by destruct (rs !! k). Qed.

Lemma mark_reviewed_reasons g item k :
  reasons_of (mark_reviewed g item).1.(g_reasons) k = List.filter (not_from item) (reasons_of g.(g_reasons) k).
Proof. apply reasons_of_fmap. done. Qed.

Lemma not_from_spec item r : not_from item r = true <-> r.(r_origin) <> item.
Proof. unfold not_from. rewrite negb_true_iff. apply String.eqb_neq. Qed.

Lemma mark_reviewed_changed g item k :
  k ∈ (mark_reviewed g item).2 <-> exists r, r ∈ reasons_of g.(g_reasons) k /\ r.(r_origin) = item.
Proof.
  cbn [mark_reviewed snd]. rewrite elem_of_dom, <- has_origin_spec. unfold has_origin.
  assert (forall l, existsb (fun r => negb (not_from item r)) l = existsb (fun r => String.eqb (r_origin r) item) l) as E.
  { intros l. induction l as [|r l IH]; cbn; [done|]. unfold not_from at 1. by rewrite negb_involutive, IH. }
  split.
  - intros [l [Hl H]%map_lookup_filter_Some]. cbn in H. rewrite Hl. by rewrite E in H.
  - intros H. destruct (g_reasons g !! k) as [l|] eqn:Hl; [|done]. exists l. apply map_lookup_filter_Some. by rewrite E.
Qed.

Lemma mark_reviewed_source g item o : source_of (mark_reviewed g item).1 o <-> o <> item /\ source_of g o.
Proof.
  unfold source_of, flagged. split.
  - intros [(r & Hr & Ho & Hk) ?]. rewrite mark_reviewed_reasons in Hr.
    apply elem_of_lfilter in Hr as [Hr Hn%not_from_spec]. split; [by subst|]. split; [eauto|done].
  - intros (Hne & (r & Hr & Ho & Hk) & ?). split; [|done]. exists r. rewrite mark_reviewed_reasons. split; [|done].
    apply elem_of_lfilter. split; [done|]. apply not_from_spec. by subst.
Qed.

Lemma mark_reviewed_settled g item : Settled g -> Settled (mark_reviewed g item).1.
Proof.
  intros [Hown Hclock Hone Hsound Hcomp].
  assert (same_frame g (mark_reviewed g item).1) as Hf by done.
  split.
  - intros k r. rewrite mark_reviewed_reasons. intros [Hr _]%elem_of_lfilter. by apply Hown.
  - intros k. rewrite mark_reviewed_reasons. etrans; [apply length_filter_filter|apply Hclock].
  - intros k. rewrite mark_reviewed_reasons, filter_comm. eapply sublist_NoDup; [apply (Hone k)|].
    apply fmap_sublist, sublist_lfilter.
  - intros k r. rewrite mark_reviewed_reasons. intros [Hr Hn%not_from_spec]%elem_of_lfilter Hi.
    destruct (Hsound k r Hr Hi) as (? & p & t & Hp & E). split; [by apply mark_reviewed_source|]. by exists p, t.
  - intros o k _ [Hne Hs]%mark_reviewed_source Hd. destruct (Hcomp o k I Hs Hd) as (r & ? & ? & Ho).
    exists r. rewrite mark_reviewed_reasons. split; [|done]. apply elem_of_lfilter. split; [done|].
    apply not_from_spec. by rewrite Ho.
Qed.

(** *** [repropagate] *)

Section Previous.
Context (when : string).

Definition last_at (o : string) (acc : option string) (v : list reason) : option string :=
  foldl (fun acc r => if inherited r && String.eqb r.(r_origin) o then Some (default when r.(r_at)) else acc) acc v.

Lemma previous_inner k v out k' o :
  foldl (fun out r => if inherited r then <[(k, r.(r_origin)) := default when r.(r_at)]> out else out) out v !! (k', o) =
  if decide (k' = k) then last_at o (out !! (k', o)) v else (out : gmap (string * string) string) !! (k', o).
Proof.
  revert out. induction v as [|r v IH]; intros out; cbn [foldl last_at]; [by case_decide|]. rewrite IH.
  destruct (inherited r); cbn [andb]; [|done]. case_decide as Hk; [subst k'|].
  - unfold last_at. cbn [foldl]. f_equal. destruct (String.eqb_spec (r_origin r) o) as [->|Hne].
    + by rewrite lookup_insert_eq.
    + rewrite lookup_insert_ne; [done|congruence].
  - rewrite lookup_insert_ne; [done|congruence].
Qed.

Lemma previous_of_lookup rs k o : previous_of rs when !! (k, o) = last_at o None (reasons_of rs k).
Proof.
  revert k o. unfold previous_of.
  apply (map_fold_weak_ind (fun (out : gmap (string * string) string) (m : gmap string (list reason)) =>
    forall k o, out !! (k, o) = last_at o None (reasons_of m k))).
  - done.
  - intros i v m out Hi IH k o. rewrite previous_inner. case_decide as Hk.
    + subst. rewrite lookup_insert_eq, IH, Hi. done.
    + by rewrite lookup_insert_ne.
Qed.

Lemma last_at_none o acc v :
  (forall r, r ∈ v -> inherited r = true -> r.(r_origin) <> o) -> last_at o acc v = acc.
Proof.
  revert acc. induction v as [|r v IH]; intros acc H; [done|].
  change (last_at o (if inherited r && String.eqb r.(r_origin) o then Some (default when r.(r_at)) else acc) v = acc).
  rewrite IH; [|set_solver]. destruct (inherited r) eqn:E; [|done]. cbn.
  destruct (String.eqb_spec (r_origin r) o) as [Ho|]; [|done]. by destruct (H r (list_elem_of_here _ _) E).
Qed.

Lemma last_at_unique r v acc :
  NoDup (r_origin <$> List.filter inherited v) -> r ∈ v -> inherited r = true ->
  last_at r.(r_origin) acc v = Some (default when r.(r_at)).
Proof.
  intros Hn Hr Hi. apply list_elem_of_split in Hr as (l1 & l2 & ->).
  unfold last_at. rewrite foldl_app. cbn [foldl]. rewrite Hi, String.eqb_refl. apply last_at_none.
  intros x Hx Hxi E. rewrite List.filter_app in Hn. cbn in Hn. rewrite Hi, fmap_app in Hn.
  apply NoDup_app in Hn as (_ & _ & [Hn _]%NoDup_cons). apply Hn. rewrite <- E.
  apply list_elem_of_fmap_2. by apply elem_of_lfilter.
Qed.
End Previous.

Lemma elem_of_flag_origins rs o :
  o ∈ flag_origins rs <-> exists k r, r ∈ reasons_of rs k /\ r.(r_kind) ∈ FLAG_KINDS /\ r.(r_origin) = o.
Proof.
  unfold flag_origins. apply (map_fold_weak_ind (fun (out : gset string) (m : gmap string (list reason)) =>
    o ∈ out <-> exists k r, r ∈ reasons_of m k /\ r.(r_kind) ∈ FLAG_KINDS /\ r.(r_origin) = o)).
  - split; [set_solver|]. intros (k & r & Hr & _). by rewrite lookup_empty, elem_of_nil in Hr.
  - intros i v m out Hi IH. rewrite elem_of_union, elem_of_list_to_set, IH, list_elem_of_fmap. split.
    + intros [(r & -> & [Hr Hk%bool_decide_eq_true]%elem_of_lfilter)|(k & r & Hr & ?)].
      * exists i, r. by rewrite lookup_insert_eq.
      * exists k, r. rewrite lookup_insert_ne; [done|]. intros ->. by rewrite Hi, elem_of_nil in Hr.
    + intros (k & r & Hr & Hk & Ho). destruct (decide (k = i)) as [->|Hne].
      * rewrite lookup_insert_eq in Hr. left. exists r. split; [done|]. apply elem_of_lfilter. by rewrite bool_decide_eq_true.
      * rewrite lookup_insert_ne in Hr by done. right. eauto.
Qed.

Lemma elem_of_sorted_set x X : x ∈ sorted_set X <-> x ∈ X.
Proof. unfold sorted_set. by rewrite elem_of_py_sorted, elem_of_elements. Qed.

Lemma same_frame_trans g1 g2 g3 : same_frame g1 g2 -> same_frame g2 g3 -> same_frame g1 g3.
Proof. unfold same_frame. intuition congruence. Qed.

Section Rebuild.
Context (when : string) (prev : gmap (string * string) string).
Notation push_all := (foldl (fun g origin => (_push g origin when prev).1)).

Lemma push_all_spec l g P :
  Settled_for P g -> (forall o, o ∈ l -> source_of g o) ->
  Settled_for (fun o => P o \/ o ∈ l) (push_all g l) /\ same_frame g (push_all g l) /\
  (forall o, source_of (push_all g l) o <-> source_of g o) /\
  (forall k, List.filter own (reasons_of (push_all g l).(g_reasons) k) = List.filter own (reasons_of g.(g_reasons) k)) /\
  (forall k r, r ∈ reasons_of (push_all g l).(g_reasons) k ->
     r ∈ reasons_of g.(g_reasons) k \/ r.(r_at) = Some (default when (prev !! (k, r.(r_origin))))).
Proof.
  revert g P. induction l as [|o l IH]; intros g P Hs Hl; cbn [foldl].
  - split; [eapply settled_weaken; [|exact Hs]; by intros o [?|?%elem_of_nil]|].
    do 3 (split; [done|]). intros. by left.
  - destruct (push_spec g o when prev) as (Hf & Hrs & _). pose proof (push_source g o when prev) as Hsrc.
    destruct (IH (_push g o when prev).1 (fun o' => P o' \/ o' = o)) as (H1 & H2 & H3 & H4 & H5).
    + apply settled_push; [done|]. apply Hl. left.
    + intros o' Ho'. apply Hsrc, Hl. by right.
    + split; [eapply settled_weaken; [|exact H1]; cbn; intros o'; rewrite elem_of_cons; tauto|].
      split; [by eapply same_frame_trans|]. split; [intros o'; by rewrite H3, Hsrc|]. split.
      * intros k. rewrite H4, Hrs, List.filter_app, (filter_nil_own own (pushed _ _ _ _ _ _)), app_nil_r; [done|].
        by intros r (_ & p & _ & ->)%elem_of_pushed.
      * intros k r [Hr|]%H5; [|by right]. rewrite Hrs, elem_of_app in Hr.
        destruct Hr as [|(_ & p & _ & ->)%elem_of_pushed]; [by left|by right].
Qed.
End Rebuild.

Lemma own_at_home g k : at_home g -> forall r, r ∈ List.filter own (reasons_of g.(g_reasons) k) -> r.(r_origin) = k.
Proof. intros H r [Hr Ho]%elem_of_lfilter. by apply H. Qed.

(** Own reasons in their place: what a rebuild needs of the stored reasons. *)
Definition own_well_formed (g : graph) : Prop :=
  at_home g /\ forall k, (length (List.filter (is_clock_of k) (reasons_of g.(g_reasons) k)) <= 1)%nat.

Section Repropagate.
Context (g : graph) (at_ : Z) (Hwf : own_well_formed g).
Let g' := (repropagate g at_).1.
Let g0 := with_reasons (fmap (M := gmap string) (List.filter own) g.(g_reasons)) g.

Lemma stripped_reasons k : reasons_of g0.(g_reasons) k = List.filter own (reasons_of g.(g_reasons) k).
Proof. unfold g0. cbn [with_reasons g_reasons]. by rewrite reasons_of_fmap. Qed.

Lemma stripped_settled : Settled_for (fun _ => False) g0.
Proof.
  destruct Hwf as [Hown Hclock]. split; intros k; rewrite ?stripped_reasons.
  - intros r. intros [Hr Ho]%elem_of_lfilter _. by apply Hown.
  - etrans; [apply length_filter_filter|apply Hclock].
  - rewrite (filter_nil_own inherited); [constructor|]. intros r [_ Hr%own_not_inherited]%elem_of_lfilter. done.
  - intros r. intros [_ Hr%own_not_inherited]%elem_of_lfilter Hi. congruence.
  - done.
Qed.

Lemma stripped_origins o : o ∈ origins_of g0 <-> source_of g0 o.
Proof.
  unfold origins_of. rewrite elem_of_sorted_set, elem_of_difference, elem_of_flag_origins. unfold source_of, flagged. split.
  - intros [(k & r & Hr & Hk & Ho) ?]. split; [|done]. exists r.
    assert (r.(r_origin) = k) as E by (apply (st_own _ _ stripped_settled k r Hr); by apply flag_is_own).
    split; [|done]. by rewrite <- Ho, E.
  - intros [(r & ? & ? & ?) ?]. split; [|done]. by exists o, r.
Qed.

Lemma stripped_source o : source_of g0 o <-> source_of g o.
Proof.
  unfold source_of, flagged. split; intros [(r & Hr & Ho & Hk) ?]; (split; [|done]); exists r; rewrite stripped_reasons in *.
  - by apply elem_of_lfilter in Hr as [? _].
  - split; [|done]. apply elem_of_lfilter. split; [done|by apply flag_is_own].
Qed.

Lemma repropagate_spec :
  Settled g' /\ same_frame g g' /\ (forall o, source_of g' o <-> source_of g o) /\
  (forall k, List.filter own (reasons_of g'.(g_reasons) k) = List.filter own (reasons_of g.(g_reasons) k)) /\
  (forall k r, r ∈ reasons_of g'.(g_reasons) k -> inherited r = true ->
     r.(r_at) = Some (default (isoformat_utc at_) (previous_of g.(g_reasons) (isoformat_utc at_) !! (k, r.(r_origin))))).
Proof.
  destruct (push_all_spec (isoformat_utc at_) (previous_of g.(g_reasons) (isoformat_utc at_)) (origins_of g0) g0 _ stripped_settled)
    as (H1 & H2 & H3 & H4 & H5); [intros o; by rewrite stripped_origins|].
  change (foldl _ g0 (origins_of g0)) with g' in *.
  split; [|split; [exact H2|split; [intros o; by rewrite H3, stripped_source|split]]].
  - destruct H1 as [? ? ? ? Hcomp]. split; try done. intros o k _ Hs. apply Hcomp; [|done]. right.
    by apply stripped_origins, H3.
  - intros k. rewrite H4, stripped_reasons. induction (reasons_of (g_reasons g) k) as [|r l IH]; cbn; [done|].
    destruct (own r) eqn:E; cbn; by rewrite ?E, IH.
  - intros k r [Hr|?]%H5 Hi; [|done]. rewrite stripped_reasons in Hr.
    apply elem_of_lfilter in Hr as [_ Hr%own_not_inherited]. congruence.
Qed.
End Repropagate.

(** ** Graphs that agree item by item *)

(** Two graphs are equivalent when every item has the same reasons, over the same edges, names and retired
    items: an absent item and one without reasons are the same. *)
#[export] Instance graph_equiv : Equiv graph := fun g g' =>
  same_frame g g' /\ forall k, reasons_of g'.(g_reasons) k = reasons_of g.(g_reasons) k.
#[export] Instance graph_equivalence : Equivalence (≡@{graph}).
Proof.
  split.
  - by intros g.
  - intros g g' [(Hu & Hn & Hr) H]. by split.
  - intros g1 g2 g3 [Hf H12] [Hf' H23]. split; [by eapply same_frame_trans|]. intros k. by rewrite H23, H12.
Qed.

#[export] Instance source_of_proper : Proper ((≡) ==> (=) ==> iff) source_of.
Proof.
  intros g g' [(_ & _ & Hr) H] o ? <-. unfold source_of, flagged. rewrite Hr.
  split; intros [(r & Hin & ?) ?]; (split; [|done]); exists r; by rewrite ?H, <- ?H in *.
Qed.

Lemma settled_equiv_1 P g g' : g ≡ g' -> Settled_for P g -> Settled_for P g'.
Proof.
  intros Hg Hs. pose proof Hg as [Hf H]. eapply settled_weaken; [|apply (settled_change P g g' Hf)]; [..|exact Hs].
  - intros o Ho. split; [done|]. by rewrite Hg.
  - intros k r. rewrite H. apply (st_own _ _ Hs).
  - intros k. rewrite H. apply (st_clock _ _ Hs).
  - intros k. by rewrite H.
  - intros o. by rewrite Hg.
Qed.
#[export] Instance settled_proper : Proper ((≡) ==> iff) Settled.
Proof. intros g g' Hg. split; by apply settled_equiv_1. Qed.

(** ** A rebuild agrees with the operations *)

Lemma strings_leb_total a b : strings_leb a b = false -> strings_leb b a = true.
Proof.
  revert b. induction a as [|x a IH]; intros [|y b]; cbn; try done. rewrite (String.eqb_sym y x).
  destruct (String.eqb_spec x y) as [->|]; [apply IH|apply string_leb_total].
Qed.
Lemma strings_leb_antisym a b : strings_leb a b = true -> strings_leb b a = true -> a = b.
Proof.
  revert b. induction a as [|x a IH]; intros [|y b]; cbn; try done. rewrite (String.eqb_sym y x).
  destruct (String.eqb_spec x y) as [->|Hne]; [intros; f_equal; by apply IH|].
  intros. destruct Hne. by apply string_leb_antisym.
Qed.
Lemma strings_leb_trans a b c : strings_leb a b = true -> strings_leb b c = true -> strings_leb a c = true.
Proof.
  revert b c. induction a as [|x a IH]; intros [|y b] [|z c]; cbn; try done.
  destruct (String.eqb_spec x y) as [->|Hxy].
  - destruct (String.eqb y z); [apply IH|done].
  - intros H1. destruct (String.eqb_spec y z) as [->|Hyz].
    + intros _. by destruct (String.eqb_spec x z).
    + intros H2. destruct (String.eqb_spec x z) as [->|]; [|by eapply string_leb_trans].
      destruct Hxy. by apply string_leb_antisym.
Qed.

Lemma norm_perm l k : l ≡ₚ k -> norm l = norm k.
Proof.
  intros H. apply py_sorted_perm_eq; [apply strings_leb_total|apply strings_leb_trans|apply strings_leb_antisym|by rewrite H].
Qed.

Lemma split_own l : l ≡ₚ List.filter own l ++ List.filter inherited l.
Proof.
  induction l as [|r l IH]; cbn; [done|]. unfold own at 1. destruct (inherited r) eqn:E; cbn.
  - rewrite IH at 1. apply Permutation_middle.
  - by rewrite IH at 1.
Qed.

Lemma settled_own_well_formed g : Settled g -> own_well_formed g.
Proof. intros Hs. split; [apply (st_own _ _ Hs)|apply (st_clock _ _ Hs)]. Qed.

(** An inherited reason of a settled graph is found in any settled graph with the same sources, up to
    the time. *)
Lemma settled_same_inherited g g' k r :
  Settled g -> Settled g' -> same_frame g g' -> (forall o, source_of g' o <-> source_of g o) ->
  r ∈ reasons_of g.(g_reasons) k -> inherited r = true ->
  exists r', r' ∈ reasons_of g'.(g_reasons) k /\ inherited r' = true /\
    r' = Reason r.(r_origin) r.(r_kind) r.(r_text) r.(r_source) r'.(r_at) /\ is_Some r.(r_at).
Proof.
  intros Hs Hs' Hf Hsrc Hr Hi. destruct (st_sound _ _ Hs k r Hr Hi) as (Hso & p & t & Hp & E).
  destruct (st_complete _ _ Hs' r.(r_origin) k I) as (r' & Hr' & Hi' & Ho'); [by apply Hsrc| |].
  { rewrite (dep_path_frame _ _ _ _ Hf), Hp. by eexists. }
  destruct (st_sound _ _ Hs' k r' Hr' Hi') as (_ & p' & t' & Hp' & E').
  rewrite (dep_path_frame _ _ _ _ Hf), Ho', Hp in Hp'. injection Hp' as <-.
  exists r'. split; [done|]. split; [done|]. rewrite E, E', Ho', (upstream_text_frame _ _ _ _ Hf). cbn. split; [done|by eexists].
Qed.

Lemma nodup_origins_nodup l : NoDup (r_origin <$> List.filter inherited l) -> NoDup (List.filter inherited l).
Proof. apply NoDup_fmap_1. Qed.

Lemma rebuild_perm g at_ k :
  Settled g -> reasons_of (repropagate g at_).1.(g_reasons) k ≡ₚ reasons_of g.(g_reasons) k.
Proof.
  intros Hs. destruct (repropagate_spec g at_ (settled_own_well_formed g Hs)) as (Hs' & Hf & Hsrc & Hown & Hat).
  rewrite (split_own (reasons_of (g_reasons g) k)), (split_own (reasons_of (g_reasons (repropagate g at_).1) k)), Hown.
  f_equiv. apply NoDup_Permutation; [apply nodup_origins_nodup, (st_one _ _ Hs')|apply nodup_origins_nodup, (st_one _ _ Hs)|].
  assert (forall r, r ∈ reasons_of g.(g_reasons) k -> inherited r = true ->
    r ∈ reasons_of (repropagate g at_).1.(g_reasons) k) as Hsub.
  { intros r Hr Hi. destruct (settled_same_inherited g _ k r Hs Hs' Hf Hsrc Hr Hi) as (r' & Hr' & Hi' & E & [t Ht]).
    pose proof (Hat k r' Hr' Hi') as Hat'. assert (r_origin r' = r_origin r) as Ho by by rewrite E. rewrite Ho in Hat'.
    rewrite previous_of_lookup, (last_at_unique _ r), Ht in Hat'; [|apply (st_one _ _ Hs)|done|done]. cbn in Hat'.
    rewrite Hat', <- Ht in E. destruct r; cbn in *. by rewrite <- E. }
  intros r. rewrite !elem_of_lfilter. split; [|intros [? ?]; split; [by apply Hsub|done]]. intros [Hr Hi]. split; [|done].
  destruct (settled_same_inherited _ g k r Hs' Hs) as (r' & Hr' & Hi' & E & _).
  { by destruct Hf as (?&?&?). }
  { intros o. symmetry. apply Hsrc. }
  { done. } { done. }
  assert (r = r') as ->; [|done].
  apply (unique_by_inj (fun x => if inherited x then Some (r_origin x) else None) (reasons_of (g_reasons (repropagate g at_).1) k)
           r r' (r_origin r)); [|done|by apply Hsub|by rewrite Hi|rewrite Hi'; by rewrite E].
  unfold unique_by. pose proof (st_one _ _ Hs' k) as Hn. revert Hn. generalize (reasons_of (g_reasons (repropagate g at_).1) k).
  intros l. assert (omap (fun x => if inherited x then Some (r_origin x) else None) l = r_origin <$> List.filter inherited l) as ->; [|done].
  induction l as [|x l IH]; cbn; [done|]. destruct (inherited x); cbn; by rewrite IH.
Qed.

(** ** The theorems *)

(** What is done to a graph; a [flag_stale] refused (its kind is no flag) changes nothing. *)
Inductive op :=
| Flag (item text source kind : string) (at_ : Z)
| Overdue (item : string) (text : option string) (at_ : Z)
| Review (item : string)
| Rebuild (at_ : Z).
Definition apply_op (g : graph) (o : op) : graph :=
  match o with
  | Flag item text source kind at_ => match flag_stale g item text source kind at_ with Ok (g', _) => g' | Err _ => g end
  | Overdue item text at_ => (set_overdue g item text at_).1
  | Review item => (mark_reviewed g item).1
  | Rebuild at_ => (repropagate g at_).1
  end.

Lemma apply_op_settled g o : Settled g -> Settled (apply_op g o).
Proof.
  intros Hs. destruct o; cbn [apply_op].
  - destruct (flag_stale _ _ _ _ _ _) as [[g' ch]|] eqn:E; [by eapply flag_stale_settled|done].
  - by apply set_overdue_settled.
  - by apply mark_reviewed_settled.
  - apply (repropagate_spec g at_), settled_own_well_formed, Hs.
Qed.

Lemma apply_ops_settled ops g : Settled g -> Settled (foldl apply_op g ops).
Proof. revert g. induction ops as [|o ops IH]; intros g Hs; [done|]. by apply IH, apply_op_settled. Qed.

Lemma settled_inherited_iff g k o :
  Settled g ->
  (exists r, r ∈ reasons_of g.(g_reasons) k /\ inherited r = true /\ r.(r_origin) = o) <->
  source_of g o /\ k <> o /\ reaches g.(g_used_by) o k.
Proof.
  intros Hs. rewrite <- elem_of_dependents, <- dep_path_is_Some. split.
  - intros (r & Hr & Hi & <-). destruct (st_sound _ _ Hs k r Hr Hi) as (? & p & t & Hp & _). split; [done|by exists p].
  - intros [? ?]. by apply (st_complete _ _ Hs).
Qed.

Lemma settled_empty g : (forall k, reasons_of g.(g_reasons) k = []) -> Settled g.
Proof.
  intros H. split.
  - intros k r. by rewrite H, elem_of_nil.
  - intros k. rewrite H. cbn. lia.
  - intros k. rewrite H. constructor.
  - intros k r. by rewrite H, elem_of_nil.
  - intros o k _ [(r & Hr & _) _]. by rewrite H, elem_of_nil in Hr.
Qed.

(** C23: whatever was flagged, reviewed, made overdue and rebuilt, in whatever order, an item carries an
    inherited reason of an origin exactly when the origin has a release or vulnerability flag, is not
    retired, and the edges lead from it to the item. *)
Theorem inherited_exactly_from_flagged g ops k o :
  Settled g ->
  let h := foldl apply_op g ops in
  (exists r, r ∈ reasons_of h.(g_reasons) k /\ inherited r = true /\ r.(r_origin) = o) <->
  (exists r, r ∈ reasons_of h.(g_reasons) o /\ r.(r_origin) = o /\ r.(r_kind) ∈ FLAG_KINDS) /\
  o ∉ h.(g_retired) /\ k <> o /\ reaches h.(g_used_by) o k.
Proof. intros Hs. cbn zeta. rewrite (settled_inherited_iff _ k o (apply_ops_settled ops g Hs)). unfold source_of, flagged. tauto. Qed.

(** C24: the operations, which push and clear reasons along the edges one item at a time, agree with
    [repropagate], which derives every inherited reason anew: after any of them a rebuild reports no
    change, and every item has the reasons it had, up to their order. *)
Theorem incremental_is_rebuild g ops at_ :
  Settled g ->
  let h := foldl apply_op g ops in
  (repropagate h at_).2 = ∅ /\
  forall k, reasons_of (repropagate h at_).1.(g_reasons) k ≡ₚ reasons_of h.(g_reasons) k.
Proof.
  intros Hs. cbn zeta. pose proof (apply_ops_settled ops g Hs) as Hh.
  assert (forall k, reasons_of (repropagate (foldl apply_op g ops) at_).1.(g_reasons) k ≡ₚ
                    reasons_of (foldl apply_op g ops).(g_reasons) k) as Hp by (intros; by apply rebuild_perm).
  split; [|done]. apply set_eq. intros k. split; [|set_solver].
  cbn [repropagate snd]. rewrite elem_of_filter. intros [Hne _]. destruct Hne. symmetry. apply norm_perm, Hp.
Qed.

(** A rebuild over new edges repairs any stored reasons whose own part is in place: the inherited ones
    become those of the flagged items upstream, the own ones stay, and an inherited reason that was
    there keeps the time it was first seen. *)
Theorem repropagate_settles g at_ :
  own_well_formed g ->
  let g' := (repropagate g at_).1 in
  Settled g' /\
  (forall k, List.filter own (reasons_of g'.(g_reasons) k) = List.filter own (reasons_of g.(g_reasons) k)) /\
  (forall k r, r ∈ reasons_of g'.(g_reasons) k -> inherited r = true ->
     r.(r_at) = Some (default (isoformat_utc at_)
                        (last_at (isoformat_utc at_) r.(r_origin) None (reasons_of g.(g_reasons) k)))).
Proof.
  intros Hwf. cbn zeta. destruct (repropagate_spec g at_ Hwf) as (H1 & _ & _ & H4 & H5).
  split; [done|]. split; [done|]. intros k r Hr Hi. rewrite (H5 k r Hr Hi). by rewrite previous_of_lookup.
Qed.

(** [mark_reviewed] clears the item's own reasons and every reason it pushed to other items, and
    nothing else; [set_overdue] makes the item's clock reason say its text, and changes nothing else. *)
Theorem review_and_clock_spec g item text at_ :
  Settled g ->
  (forall k r, r ∈ reasons_of (mark_reviewed g item).1.(g_reasons) k <->
     r ∈ reasons_of g.(g_reasons) k /\ r.(r_origin) <> item) /\
  (forall k, k ∈ (mark_reviewed g item).2 <-> exists r, r ∈ reasons_of g.(g_reasons) k /\ r.(r_origin) = item) /\
  (let g' := (set_overdue g item text at_).1 in
   r_text <$> List.filter (is_clock_of item) (reasons_of g'.(g_reasons) item) = option_list text /\
   (forall k r, k <> item \/ is_clock_of item r = false ->
      r ∈ reasons_of g'.(g_reasons) k <-> r ∈ reasons_of g.(g_reasons) k)).
Proof.
  intros Hs. split; [|split; [apply mark_reviewed_changed|]].
  - intros k r. rewrite mark_reviewed_reasons, elem_of_lfilter, not_from_spec. done.
  - cbn zeta. rewrite set_overdue_list. split.
    + rewrite with_item_reasons, decide_True by done. apply overdue_list_clock, (st_clock _ _ Hs).
    + intros k r Hor. rewrite with_item_reasons. case_decide as E; [subst|done]. destruct Hor as [?|Hc]; [done|]. split.
      * intros [?|?]%elem_of_overdue_list; [done|congruence].
      * by apply elem_of_overdue_list_other.
Qed.

(** ** A concrete graph *)

Definition demo : graph :=
  mk_graph {["g" := []; "t" := []; "s" := [SJunk]; "c" := []]}
    (used_by {["t" := {["g"]}; "s" := {["t"]}; "c" := {["s"; "t"]}; "g" := {["c"]}]})
    {["g" := ("golden template", "Ubuntu"); "t" := ("range template", "Net")]}%string ∅.

Lemma demo_settled : Settled demo.
Proof.
  apply settled_empty. intros k. change (reasons_of (valid_reasons <$> ({["g" := []; "t" := []; "s" := [SJunk]; "c" := []]} :
    gmap string (list stored))) k = []). rewrite lookup_fmap.
  destruct (_ !! k) as [l|] eqn:E; [|done]. apply elem_of_map_to_list in E. vm_compute in E. cases_in E; by simplify_eq.
Qed.

Example demo_dependents : dependents demo "g" = [("t", ["g"; "t"]); ("c", ["g"; "t"; "c"]); ("s", ["g"; "t"; "s"])]%string.
Proof. vm_compute. reflexivity. Qed.

Lemma inherited_exactly_from_flagged_witness :
  (exists r, r ∈ reasons_of (foldl apply_op demo [Flag "g" "EOL" "eol:x" KIND_RELEASE 5; Overdue "t" (Some "late") 6])%string.(g_reasons) "c"%string /\
     inherited r = true /\ r.(r_origin) = "g"%string).
Proof.
  apply inherited_exactly_from_flagged; [exact demo_settled|]. split; [|split; [|split; [done|]]].
  - eexists. split; [left|]. split; [reflexivity|]. in_list.
  - in_list.
  - exists ["g"; "t"; "c"]%string. apply (walk_step _ _ ["g"; "t"]%string "t"%string); [|in_list].
    apply (walk_step _ _ ["g"]%string "g"%string); [constructor|in_list].
Defined.

Lemma incremental_is_rebuild_witness :
  (repropagate (foldl apply_op demo [Flag "g" "EOL" "eol:x" KIND_RELEASE 5; Overdue "t" (Some "late") 6; Review "t"])%string 9).2 = ∅.
Proof. apply incremental_is_rebuild. exact demo_settled. Defined.

Lemma repropagate_settles_witness : Settled (repropagate demo 9).1.
Proof. apply repropagate_settles, settled_own_well_formed, demo_settled. Defined.

Lemma review_and_clock_spec_witness :
  r_text <$> List.filter (is_clock_of "t") (reasons_of (set_overdue demo "t" (Some "late") 6).1.(g_reasons) "t") = ["late"%string].
Proof. apply (review_and_clock_spec demo "t" (Some "late"%string) 6 demo_settled). Defined.
