(* ===== verification/FeedMatching.v ===== *)
(** * Content feeds: which entries flag which content, and storing entries

    Models [control-plane/worker/worker/feed_backends/base.py] (product keys, KEV patterns, entries),
    [content_feeds/match.py] ([flags_for] with its index) and [content_feeds/store.py]
    ([upsert_entries]).  A value of an entry's [data] enters as the text [str] gives it; dates and times
    are microseconds in UTC; text is ASCII, case-folded as [lower].

    The theorems: the indexed matching flags exactly the (item, entry) pairs the rules name, each once,
    and nothing a second time; storing what is stored changes nothing, and an entry keeps every product
    it was seen for. *)

From S2P Require Import Prelude PyText.
From stdpp Require Import gmap.
From Stdlib Require Import Ascii.

Local Open Scope Z_scope.

(** ** Products and their keys ([base.py]) *)

Definition KIND_RELEASE : string := "release".
Definition KIND_VULNERABILITY : string := "vulnerability".
Definition KINDS : list string := [KIND_RELEASE; KIND_VULNERABILITY].

(** [" ".join(str(value or "").strip().lower().split())] *)
Definition _norm (value : string) : string := str_join " " (split_words (lower (strip value))).

Definition eol_key (product cycle : string) : string := "eol:" +:+ _norm product +:+ ":" +:+ _norm cycle.
Definition kev_key (vendor product : string) : string := "kev:" +:+ _norm vendor +:+ ":" +:+ _norm product.
Definition cpe_key (cpe : string) : string := "cpe:" +:+ _norm cpe.

Record FeedProduct := Product {
  p_name : string; p_eol_product : option string; p_eol_cycle : option string; p_release : option string;
  p_cpe : option string; p_kev : list (string * string)
}.

(** A string is true when it is there and not empty. *)
Definition truthy (s : option string) : option string :=
  match s with Some t => if String.eqb t "" then None else Some t | None => None end.

Definition is_pattern (kev : string * string) : bool := endswith "*" kev.2.
(** [pattern[:-1]] *)
Definition drop_last (s : string) : string := String.substring 0 (String.length s - 1) s.

Definition kev_pattern (vendor pattern : string) : string * bool :=
  if endswith "*" pattern then
    let stem := drop_last pattern in
    (kev_key vendor stem +:+ (if endswith " " stem then " " else ""), true)
  else (kev_key vendor pattern, false).

Definition kev_pattern_matches (vendor pattern key : string) : bool :=
  let '(target, prefix) := kev_pattern vendor pattern in
  if prefix then startswith target key else String.eqb key target.

Definition exact_keys (p : FeedProduct) : gset string :=
  match truthy p.(p_eol_product), truthy p.(p_eol_cycle) with Some a, Some c => {[eol_key a c]} | _, _ => ∅ end ∪
  match truthy p.(p_cpe) with Some c => {[cpe_key c]} | None => ∅ end.
Definition product_keys (p : FeedProduct) : gset string :=
  exact_keys p ∪ list_to_set ((fun k => kev_key k.1 k.2) <$> List.filter (fun k => negb (is_pattern k)) p.(p_kev)).

Definition kev_prefixes (p : FeedProduct) : list string :=
  (fun k => (kev_pattern k.1 k.2).1) <$> List.filter is_pattern p.(p_kev).

Definition covers (p : FeedProduct) (key : string) : bool :=
  bool_decide (key ∈ product_keys p) || existsb (fun pre => startswith pre key) (kev_prefixes p).

(** ** Entries *)

Record FeedEntry := Entry {
  e_key : string; e_source : string; e_kind : string; e_products : list string; e_at : Z; e_title : string;
  e_data : gmap string string
}.

(** [data.get(k) or ""] as text *)
Definition data_text (e : FeedEntry) (k : string) : string := default "" (e.(e_data) !! k).

(** ** The reasons ([match.py]) *)

Definition MAX_TEXT : nat := 240.

Record Flag := MkFlag { f_item : string; f_entry_key : string; f_kind : string; f_text : string }.
Record Tracked := MkTracked { t_products : list FeedProduct; t_since : Z }.

Definition is_digit (c : ascii) : bool := let n := nat_of_ascii c in ((48 <=? n) && (n <=? 57))%nat.

(** [re.findall(r"\d+", value)] as integers: [acc] is the number being read. *)
Fixpoint numbers_from (acc : option Z) (s : string) : list Z :=
  match s with
  | EmptyString => option_list acc
  | String c s' =>
      if is_digit c then numbers_from (Some (10 * default 0 acc + Z.of_nat (nat_of_ascii c - 48))) s'
      else option_list acc ++ numbers_from None s'
  end.
Definition _version (value : string) : option (list Z) :=
  match numbers_from None value with [] => None | l => Some l end.

(** The order of tuples. *)
Fixpoint tuple_gt (a b : list Z) : bool :=
  match a, b with
  | [], _ => false
  | _ :: _, [] => true
  | x :: a', y :: b' => if x =? y then tuple_gt a' b' else y <? x
  end.

Definition newer (latest pinned : string) : bool :=
  match _version latest, _version pinned with
  | Some a, Some b => tuple_gt a b
  | _, _ => negb (String.eqb (lower (strip latest)) (lower (strip pinned)))
  end.

Definition _clip (text : string) : string :=
  let t := str_join " " (split_words text) in
  if (String.length t <=? MAX_TEXT)%nat then t else String.substring 0 (MAX_TEXT - 1) t +:+ "…".

(** [s.split(":")], and the part after the first colon ([s.split(":", 1)[-1]]). *)
Fixpoint split_colon (cur s : string) : list string :=
  match s with
  | EmptyString => [cur]
  | String c s' => if Ascii.eqb c ":" then cur :: split_colon "" s' else split_colon (cur +:+ String c EmptyString) s'
  end.
Fixpoint after_colon (s : string) : option string :=
  match s with EmptyString => None | String c s' => if Ascii.eqb c ":" then Some s' else after_colon s' end.

(** [str.title]: a letter after another is in lower case, any other in upper case. *)
Definition is_letter (c : ascii) : bool :=
  let n := nat_of_ascii c in ((65 <=? n) && (n <=? 90) || (97 <=? n) && (n <=? 122))%nat.
Definition upper_char (c : ascii) : ascii :=
  let n := nat_of_ascii c in if ((97 <=? n) && (n <=? 122))%nat then ascii_of_nat (n - 32) else c.
Fixpoint title_from (after_letter : bool) (s : string) : string :=
  match s with
  | EmptyString => EmptyString
  | String c s' => String (if after_letter then lower_char c else upper_char c) (title_from (is_letter c) s')
  end.

Definition _kev_name (e : FeedEntry) (product_key : string) : string :=
  let vendor := strip (data_text e "vendor") in
  let name := strip (data_text e "product") in
  if negb (String.eqb vendor "") && negb (String.eqb name "") then vendor +:+ " " +:+ name
  else title_from false (str_join " " (tail (split_colon "" product_key))).

Definition text_for (e : FeedEntry) (p : FeedProduct) (product_key : string) : option string :=
  let key := e.(e_key) in
  let name := p.(p_name) in
  if startswith "eol:" key then
    Some (name +:+ " reached EOL " +:+ default (isoformat (date_of e.(e_at))) (truthy (e.(e_data) !! "eol"%string)))%string
  else if startswith "release:" key then
    let latest := data_text e "latest" in
    match truthy p.(p_release) with
    | Some release =>
        if String.eqb latest "" || negb (newer latest release) then None
        else Some (name +:+ ": " +:+ latest +:+ " released (the template is built from " +:+ release +:+ ")")%string
    | None => None
    end
  else
    let cve := default (default key (after_colon key)) (truthy (e.(e_data) !! "cve"%string)) in
    if startswith "kev:" key then
      Some (_clip (cve +:+ ": a " +:+ _kev_name e product_key +:+ " KEV entry (may affect " +:+ name +:+ ")"))%string
    else if startswith "nvd:" key then
      Some (_clip (match e.(e_data) !! "cvss"%string with
                   | Some cvss => cve +:+ " in NVD, CVSS " +:+ cvss +:+ " (" +:+ name +:+ ")"
                   | None => cve +:+ " in NVD (" +:+ name +:+ ")"
                   end))%string
    else None.

(** ** [flags_for] *)

(** A dict of items is the list of its pairs, in order. *)
Definition candidate : Type := string * FeedProduct * Z.
Definition by_product (items : list (string * Tracked)) : gmap string (list candidate) :=
  foldl (fun out it => foldl (fun out p =>
      set_fold (fun k out => <[k := default [] (out !! k) ++ [(it.1, p, t_since it.2)]]> out) out (product_keys p))
    out (t_products it.2)) ∅ items.
Definition by_prefix (items : list (string * Tracked)) : list (string * candidate) :=
  it ← items; p ← t_products it.2; pre ← kev_prefixes p; [(pre, (it.1, p, t_since it.2))].

Definition candidates (items : list (string * Tracked)) (pk : string) : list candidate :=
  default [] (by_product items !! pk) ++
  (snd <$> List.filter (fun x : string * candidate => startswith x.1 pk) (by_prefix items)).

(** The innermost loop's body: [continue]s leave [out]. *)
Definition consider (raised : gset (string * string)) (e : FeedEntry) (pk : string)
    (out : gmap (string * string) Flag) (c : candidate) : gmap (string * string) Flag :=
  let '(item, p, since) := c in
  let k := (item, e.(e_key)) in
  if bool_decide (k ∈ raised) || bool_decide (is_Some (out !! k)) then out
  else if String.eqb e.(e_kind) KIND_VULNERABILITY && (date_of e.(e_at) <? date_of since) then out
  else match truthy (text_for e p pk) with
       | Some text => <[k := MkFlag item e.(e_key) e.(e_kind) text]> out
       | None => out
       end.

Definition consider_entry (items : list (string * Tracked)) (raised : gset (string * string)) (now : Z)
    (out : gmap (string * string) Flag) (e : FeedEntry) : gmap (string * string) Flag :=
  if negb (bool_decide (e.(e_kind) ∈ KINDS)) then out
  else if now <? e.(e_at) then out
  else foldl (fun out pk => foldl (consider raised e pk) out (candidates items pk)) out
         (py_sorted string_leb (elements (list_to_set e.(e_products) : gset string))).

Definition entry_leb (a b : FeedEntry) : bool := string_leb a.(e_key) b.(e_key).
Definition flag_leb (a b : Flag) : bool :=
  if String.eqb a.(f_item) b.(f_item) then string_leb a.(f_entry_key) b.(f_entry_key)
  else string_leb a.(f_item) b.(f_item).

Definition flags_for (items : list (string * Tracked)) (entries : list FeedEntry) (raised : gset (string * string))
    (now : Z) : list Flag :=
  py_sorted flag_leb (snd <$> map_to_list (foldl (consider_entry items raised now) ∅ (py_sorted entry_leb entries))).

(** ** Storing ([store.py]) *)

(** A row of [content_feed_entries], under its key; its id does not matter here. *)
Record stored_entry := StoredEntry {
  s_source : string; s_kind : string; s_products : list string; s_at : Z; s_title : string; s_data : gmap string string;
  s_origin : string; s_first_seen_at : Z; s_updated_at : Z
}.

Definition title_500 (e : FeedEntry) : string := String.substring 0 500 e.(e_title).
Definition merged_products (row : stored_entry) (e : FeedEntry) : list string :=
  py_sorted string_leb (elements (list_to_set (s_products row ++ e.(e_products)) : gset string)).

(** [wanted]: of two entries with one key the last wins. *)
Definition wanted (found : list FeedEntry) : gmap string FeedEntry :=
  foldl (fun m e => <[e.(e_key) := e]> m) ∅ found.

Definition upsert_one (origin : string) (now : Z) (row : option stored_entry) (e : FeedEntry) : stored_entry * (bool * bool) :=
  match row with
  | None => (StoredEntry e.(e_source) e.(e_kind) (py_sorted string_leb e.(e_products)) e.(e_at) (title_500 e) e.(e_data)
               origin now now, (true, false))
  | Some r =>
      let products := merged_products r e in
      if bool_decide (products <> py_sorted string_leb (s_products r)) || negb (s_at r =? e.(e_at)) ||
         negb (String.eqb (s_title r) (title_500 e)) || negb (bool_decide (s_data r = e.(e_data)))
      then (StoredEntry (s_source r) (s_kind r) products e.(e_at) (title_500 e) e.(e_data) (s_origin r)
              (s_first_seen_at r) now, (false, true))
      else (r, (false, false))
  end.

(** [upsert_entries]: the table afterwards, and the keys that were new and updated. *)
Definition upsert_entries (found : list FeedEntry) (origin : string) (now : Z) (table : gmap string stored_entry) :
    gmap string stored_entry * (gset string * gset string) :=
  map_fold (fun key e st =>
    let '(t, (new, updated)) := st in
    let '(row, (n, u)) := upsert_one origin now (table !! key) e in
    (<[key := row]> t, (if n then {[key]} ∪ new else new, if u then {[key]} ∪ updated else updated)))
    (table, (∅, ∅)) (wanted found).

(** ** What covers a product *)

Lemma covers_patterns p key :
  covers p key =
    bool_decide (key ∈ exact_keys p) || existsb (fun k => kev_pattern_matches k.1 k.2 key) p.(p_kev).
Proof.
  unfold covers, product_keys.
  rewrite (bool_decide_ext _ (key ∈ exact_keys p \/ key ∈ ((fun k => kev_key k.1 k.2) <$> List.filter (fun k => negb (is_pattern k)) (p_kev p))))
    by (rewrite elem_of_union, elem_of_list_to_set; done).
  rewrite bool_decide_or, <- orb_assoc. f_equal. unfold kev_prefixes.
  induction (p_kev p) as [|[v q] l IH]; cbn; [by rewrite bool_decide_eq_false_2 by set_solver|].
  unfold kev_pattern_matches, kev_pattern, is_pattern in *. cbn in *.
  destruct (endswith "*" q) eqn:E; cbn; rewrite <- IH.
  - unfold kev_pattern. rewrite E. cbn. rewrite !orb_assoc. f_equal. apply orb_comm.
  - rewrite orb_assoc. f_equal.
    rewrite (bool_decide_ext _ (key = kev_key v q \/ key ∈ ((fun k => kev_key k.1 k.2) <$> List.filter (fun k => negb (endswith "*" k.2)) l)))
      by apply elem_of_cons.
    rewrite bool_decide_or. f_equal.
    by destruct (String.eqb_spec key (kev_key v q)); [apply bool_decide_eq_true_2|apply bool_decide_eq_false_2].
Qed.

(** ** The index *)

Definition add_key (c : candidate) (k : string) (out : gmap string (list candidate)) := <[k := default [] (out !! k) ++ [c]]> out.

Lemma add_keys_lookup c (X : gset string) out pk :
  default [] (set_fold (add_key c) out X !! pk) = default [] (out !! pk) ++ (if bool_decide (pk ∈ X) then [c] else []).
Proof.
  unfold set_fold. cbn. rewrite (bool_decide_ext _ (pk ∈ elements X)) by (by rewrite elem_of_elements).
  pose proof (NoDup_elements X) as Hn. induction (elements X) as [|k l IH]; cbn; [by rewrite app_nil_r|].
  apply NoDup_cons in Hn as [Hk Hn]. unfold add_key at 1. destruct (decide (pk = k)) as [->|Hne].
  - rewrite lookup_insert_eq. cbn. rewrite IH by done. rewrite bool_decide_eq_false_2, app_nil_r by done.
    by rewrite bool_decide_eq_true_2 by left.
  - rewrite lookup_insert_ne, IH by done. f_equal. rewrite (bool_decide_ext _ (pk ∈ k :: l)); [done|]. set_solver.
Qed.

Lemma elem_of_by_product items pk c :
  c ∈ default [] (by_product items !! pk) <->
  exists it p, it ∈ items /\ p ∈ t_products it.2 /\ pk ∈ product_keys p /\ c = (it.1, p, t_since it.2).
Proof.
  unfold by_product.
  assert (forall ps it out, c ∈ default [] (foldl (fun out p => set_fold (add_key (it.1, p, t_since it.2)) out (product_keys p)) out ps !! pk) <->
    c ∈ default [] (out !! pk) \/ exists p, p ∈ ps /\ pk ∈ product_keys p /\ c = (it.1, p, t_since it.2)) as Hin.
  { intros ps it. induction ps as [|p ps IH]; intros out; cbn.
    - split; [by left|]. intros [?|(p & Hp & _)]; [done|by apply elem_of_nil in Hp].
    - rewrite IH, add_keys_lookup, elem_of_app. setoid_rewrite elem_of_cons.
      case_bool_decide; rewrite ?list_elem_of_singleton, ?elem_of_nil; naive_solver. }
  assert (forall out, c ∈ default [] (foldl (fun out it => foldl (fun out p => set_fold (add_key (it.1, p, t_since it.2)) out (product_keys p)) out (t_products it.2)) out items !! pk) <->
    c ∈ default [] (out !! pk) \/ exists it p, it ∈ items /\ p ∈ t_products it.2 /\ pk ∈ product_keys p /\ c = (it.1, p, t_since it.2)) as H.
  { induction items as [|it items IH]; intros out; cbn.
    - split; [by left|]. intros [?|(it & p & Hp & _)]; [done|by apply elem_of_nil in Hp].
    - rewrite IH, Hin. setoid_rewrite elem_of_cons. naive_solver. }
  rewrite (H ∅), lookup_empty, elem_of_nil. tauto.
Qed.

Lemma elem_of_by_prefix items pre c :
  (pre, c) ∈ by_prefix items <->
  exists it p, it ∈ items /\ p ∈ t_products it.2 /\ pre ∈ kev_prefixes p /\ c = (it.1, p, t_since it.2).
Proof. unfold by_prefix. set_unfold. naive_solver. Qed.

(** The candidates of a product key are the products it covers. *)
Lemma candidates_spec items pk c :
  c ∈ candidates items pk <->
  exists it p, it ∈ items /\ p ∈ t_products it.2 /\ covers p pk = true /\ c = (it.1, p, t_since it.2).
Proof.
  unfold candidates, covers. rewrite elem_of_app, elem_of_by_product, list_elem_of_fmap. split.
  - intros [(it & p & ? & ? & ? & ->)|([pre c'] & -> & Hc)].
    + exists it, p. by rewrite bool_decide_eq_true_2.
    + apply elem_of_lfilter in Hc as [(it & p & ? & ? & ? & ->)%elem_of_by_prefix Hs]. cbn in Hs. exists it, p.
      do 2 (split; [done|]). split; [|done]. apply orb_true_iff. right. apply existsb_exists. exists pre.
      by rewrite <- list_elem_of_In.
  - intros (it & p & ? & ? & Hc & ->). apply orb_true_iff in Hc as [Hc%bool_decide_eq_true|Hc].
    + left. by exists it, p.
    + right. apply existsb_exists in Hc as (pre & Hpre%list_elem_of_In & Hs).
      exists (pre, (it.1, p, t_since it.2)). split; [done|]. apply elem_of_lfilter. split; [|done].
      apply elem_of_by_prefix. by exists it, p.
Qed.

(** ** The loop: the first reason offered for an (item, entry) is kept *)

Definition offer (raised : gset (string * string)) (e : FeedEntry) (pk : string) (c : candidate) :
    option ((string * string) * Flag) :=
  let '(item, p, since) := c in
  if bool_decide ((item, e.(e_key)) ∈ raised) then None
  else if String.eqb e.(e_kind) KIND_VULNERABILITY && (date_of e.(e_at) <? date_of since) then None
  else (fun text => ((item, e.(e_key)), MkFlag item e.(e_key) e.(e_kind) text)) <$> truthy (text_for e p pk).

Definition keep_first (out : gmap (string * string) Flag) (x : (string * string) * Flag) :=
  if bool_decide (is_Some (out !! x.1)) then out else <[x.1 := x.2]> out.

Definition sorted_products (e : FeedEntry) : list string :=
  py_sorted string_leb (elements (list_to_set e.(e_products) : gset string)).
Definition offers_of (items : list (string * Tracked)) (raised : gset (string * string)) (now : Z) (e : FeedEntry) :
    list ((string * string) * Flag) :=
  if bool_decide (e.(e_kind) ∈ KINDS) && (e.(e_at) <=? now)
  then pk ← sorted_products e; omap (offer raised e pk) (candidates items pk) else [].

Lemma consider_offer raised e pk out c :
  consider raised e pk out c = match offer raised e pk c with Some x => keep_first out x | None => out end.
Proof.
  destruct c as [[item p] since]. unfold consider, offer, keep_first.
  destruct (bool_decide (_ ∈ raised)); cbn [orb]; [done|].
  destruct (String.eqb _ _ && _); [by case_bool_decide|].
  destruct (truthy _); cbn; by case_bool_decide.
Qed.

Lemma foldl_consider raised e pk cs out :
  foldl (consider raised e pk) out cs = foldl keep_first out (omap (offer raised e pk) cs).
Proof.
  revert out. induction cs as [|c cs IH]; intros out; cbn; [done|]. rewrite consider_offer, IH.
  by destruct (offer raised e pk c).
Qed.

Lemma foldl_bind {A B C} (f : C -> B -> C) (h : A -> list B) l z :
  foldl (fun z x => foldl f z (h x)) z l = foldl f z (x ← l; h x).
Proof. revert z. induction l as [|x l IH]; intros z; cbn; [done|]. by rewrite foldl_app, IH. Qed.

Lemma foldl_ext_fun {A B} (f h : A -> B -> A) l z : (forall z x, f z x = h z x) -> foldl f z l = foldl h z l.
Proof. intros H. revert z. induction l as [|x l IH]; intros z; cbn; [done|]. by rewrite H, IH. Qed.

Lemma consider_entry_offers items raised now out e :
  consider_entry items raised now out e = foldl keep_first out (offers_of items raised now e).
Proof.
  unfold consider_entry, offers_of. destruct (bool_decide _); cbn [negb andb]; [|done].
  destruct (Z.ltb_spec now (e_at e)), (Z.leb_spec (e_at e) now); try lia; [done|].
  rewrite <- foldl_bind. apply foldl_ext_fun. intros. apply foldl_consider.
Qed.

Lemma keep_first_spec l out k f :
  (foldl keep_first out l !! k = Some f -> out !! k = Some f \/ (k, f) ∈ l) /\
  (is_Some (out !! k) \/ (k, f) ∈ l -> is_Some (foldl keep_first out l !! k)).
Proof.
  revert out. induction l as [|[k' f'] l IH]; intros out; cbn; [split; [by left|set_solver]|].
  destruct (IH (keep_first out (k', f'))) as [IH1 IH2]. split.
  - intros H%IH1. unfold keep_first in H. cbn in H. case_bool_decide; [set_solver|].
    destruct H as [H|]; [|set_solver]. destruct (decide (k = k')) as [->|Hne].
    + rewrite lookup_insert_eq in H. simplify_eq. set_solver.
    + rewrite lookup_insert_ne in H by done. by left.
  - intros H. apply IH2. unfold keep_first. cbn. case_bool_decide as Hs.
    + destruct H as [?|[?|?]%elem_of_cons]; [by left| |by right]. simplify_eq. by left.
    + destruct (decide (k = k')) as [->|Hne]; [rewrite lookup_insert_eq; by left; eexists|].
      rewrite lookup_insert_ne by done. destruct H as [?|[?|?]%elem_of_cons]; [by left|congruence|by right].
Qed.

(** What the rules of the module say, for an entry and an item. *)
Definition gives_reason (items : list (string * Tracked)) (now : Z) (e : FeedEntry) (item text : string) : Prop :=
  e.(e_kind) ∈ KINDS /\ e.(e_at) <= now /\
  exists t p pk, (item, t) ∈ items /\ p ∈ t_products t /\ pk ∈ e.(e_products) /\ covers p pk = true /\
    (e.(e_kind) = KIND_VULNERABILITY -> date_of (t_since t) <= date_of e.(e_at)) /\
    truthy (text_for e p pk) = Some text.

Lemma elem_of_offers items raised now e k f :
  (k, f) ∈ offers_of items raised now e <->
  k = (f.(f_item), e.(e_key)) /\ k ∉ raised /\ f = MkFlag f.(f_item) e.(e_key) e.(e_kind) f.(f_text) /\
  gives_reason items now e f.(f_item) f.(f_text).
Proof.
  unfold offers_of, gives_reason. case_bool_decide as Hk; cbn [andb]; [|split; [set_solver|tauto]].
  destruct (Z.leb_spec (e_at e) now) as [Hn|Hn]; [|split; [set_solver|intros (_ & _ & _ & _ & ? & _); lia]].
  rewrite list_elem_of_bind. split.
  - intros (pk & Ho & Hpk). apply list_elem_of_omap in Ho as ([[item p] since] & Hc & Ho).
    apply candidates_spec in Hc as ([i t] & p' & Hit & Hp & Hcov & E). cbn in E. simplify_eq.
    unfold sorted_products in Hpk. rewrite elem_of_py_sorted, elem_of_elements, elem_of_list_to_set in Hpk.
    unfold offer in Ho. case_bool_decide; [done|]. destruct (String.eqb _ _ && _) eqn:Ev; [done|].
    apply fmap_Some in Ho as (text & Ht & E). simplify_eq. cbn. split; [done|]. split; [done|]. split; [done|].
    split; [done|]. split; [done|]. exists t, p', pk. do 4 (split; [done|]). split; [|done]. intros Hv.
    rewrite Hv in Ev. apply andb_false_iff in Ev as [Ev|Ev]; [by rewrite String.eqb_refl in Ev|]. by apply Z.ltb_ge in Ev.
  - intros (-> & Hr & -> & _ & _ & t & p & pk & Hit & Hp & Hpk & Hcov & Hv & Ht). exists pk. split.
    + apply list_elem_of_omap. exists (f_item f, p, t_since t). split.
      * apply candidates_spec. by exists (f_item f, t), p.
      * unfold offer. rewrite bool_decide_eq_false_2 by done. cbn in Ht.
        destruct (String.eqb_spec (e_kind e) KIND_VULNERABILITY) as [E|]; cbn [andb]; [|by rewrite Ht].
        destruct (Z.ltb_spec (date_of (e_at e)) (date_of (t_since t))) as [Hlt|]; [|by rewrite Ht].
        specialize (Hv E). lia.
    + unfold sorted_products. by rewrite elem_of_py_sorted, elem_of_elements, elem_of_list_to_set.
Qed.

Section FlagsFor.
Context (items : list (string * Tracked)) (entries : list FeedEntry) (raised : gset (string * string)) (now : Z).
Let out := foldl (consider_entry items raised now) ∅ (py_sorted entry_leb entries).

Lemma out_offers : out = foldl keep_first ∅ (e ← py_sorted entry_leb entries; offers_of items raised now e).
Proof. unfold out. rewrite <- foldl_bind. apply foldl_ext_fun. intros. apply consider_entry_offers. Qed.

Lemma out_sound k f :
  out !! k = Some f -> exists e, e ∈ entries /\ k = (f.(f_item), e.(e_key)) /\ k ∉ raised /\
    f = MkFlag f.(f_item) e.(e_key) e.(e_kind) f.(f_text) /\ gives_reason items now e f.(f_item) f.(f_text).
Proof.
  rewrite out_offers. intros H. apply keep_first_spec in H as [H|H]; [by rewrite lookup_empty in H|].
  apply list_elem_of_bind in H as (e & H & He). rewrite elem_of_py_sorted in He.
  apply elem_of_offers in H. exists e. tauto.
Qed.

Lemma out_complete e item text :
  e ∈ entries -> (item, e.(e_key)) ∉ raised -> gives_reason items now e item text -> is_Some (out !! (item, e.(e_key))).
Proof.
  intros He Hr Hg. rewrite out_offers. eapply (proj2 (keep_first_spec _ _ _ (MkFlag item (e_key e) (e_kind e) text))).
  right. apply list_elem_of_bind. exists e. rewrite elem_of_py_sorted. split; [|done]. by apply elem_of_offers.
Qed.

Lemma elem_of_flags_for f : f ∈ flags_for items entries raised now <-> out !! (f.(f_item), f.(f_entry_key)) = Some f.
Proof.
  unfold flags_for. fold out. rewrite elem_of_py_sorted, list_elem_of_fmap. split.
  - intros ([k f'] & -> & Hk%elem_of_map_to_list). cbn. destruct (out_sound k f' Hk) as (e & _ & Ek & _ & Ef & _).
    assert (f_entry_key f' = e_key e) as -> by by rewrite Ef. by rewrite <- Ek.
  - intros H. eexists (_, f). split; [done|]. by apply elem_of_map_to_list.
Qed.

Lemma flags_for_nodup : NoDup ((fun f => (f.(f_item), f.(f_entry_key))) <$> flags_for items entries raised now).
Proof.
  unfold flags_for. fold out. rewrite py_sorted_perm, <- list_fmap_compose.
  assert (forall l, (forall k f, (k, f) ∈ l -> k = (f_item f, f_entry_key f)) ->
    ((fun f => (f_item f, f_entry_key f)) ∘ snd) <$> l = l.*1) as E.
  { intros l H. apply list_fmap_ext. intros i [k f] Hi. cbn. symmetry. apply H. by eapply list_elem_of_lookup_2. }
  rewrite E; [apply NoDup_fst_map_to_list|]. intros k f Hk%elem_of_map_to_list.
  destruct (out_sound k f Hk) as (e & _ & -> & _ & Ef & _). by rewrite Ef.
Qed.
End FlagsFor.

Lemma flag_leb_total a b : flag_leb a b = false -> flag_leb b a = true.
Proof.
  unfold flag_leb. rewrite (String.eqb_sym (f_item b)). destruct (String.eqb _ _); apply string_leb_total.
Qed.
Lemma flag_leb_trans a b c : flag_leb a b = true -> flag_leb b c = true -> flag_leb a c = true.
Proof.
  unfold flag_leb.
  destruct (String.eqb_spec (f_item a) (f_item b)) as [->|Hab].
  - destruct (String.eqb (f_item b) (f_item c)); [apply string_leb_trans|done].
  - intros H1. destruct (String.eqb_spec (f_item b) (f_item c)) as [E|Hbc].
    + rewrite <- E. by destruct (String.eqb_spec (f_item a) (f_item b)).
    + intros H2. destruct (String.eqb_spec (f_item a) (f_item c)) as [E|]; [|by eapply string_leb_trans].
      rewrite E in *. destruct Hab. by apply string_leb_antisym.
Qed.

(** The indexed matching flags exactly what the rules say: an (item, entry) not raised before is
    flagged when the entry is of a known kind and has taken effect, names one of the item's products
    (directly or by a KEV pattern), is not a vulnerability older than the item, and gives a reason; each
    once, with such a reason, in order of item and entry; and a run after these are recorded raises
    nothing. *)
Theorem flags_for_exact items entries raised now :
  let flags := flags_for items entries raised now in
  (forall item key,
     (exists f, f ∈ flags /\ f.(f_item) = item /\ f.(f_entry_key) = key) <->
     (item, key) ∉ raised /\
     exists e text, e ∈ entries /\ e.(e_key) = key /\ gives_reason items now e item text) /\
  (forall f, f ∈ flags -> exists e, e ∈ entries /\ e.(e_key) = f.(f_entry_key) /\ e.(e_kind) = f.(f_kind) /\
     gives_reason items now e f.(f_item) f.(f_text)) /\
  NoDup ((fun f => (f.(f_item), f.(f_entry_key))) <$> flags) /\
  StronglySorted (le_by flag_leb) flags /\
  flags_for items entries (raised ∪ list_to_set ((fun f => (f.(f_item), f.(f_entry_key))) <$> flags)) now = [].
Proof.
  cbn zeta.
  assert (forall item key,
     (exists f, f ∈ flags_for items entries raised now /\ f.(f_item) = item /\ f.(f_entry_key) = key) <->
     (item, key) ∉ raised /\ exists e text, e ∈ entries /\ e.(e_key) = key /\ gives_reason items now e item text) as Hiff.
  { intros item key. split.
    - intros (f & Hf & <- & <-). apply elem_of_flags_for, out_sound in Hf as (e & He & E & Hr & Ef & Hg).
      injection E as E. split; [done|]. by exists e, (f_text f).
    - intros (Hr & e & text & He & <- & Hg). destruct (out_complete items entries raised now e item text He Hr Hg) as [f Hf].
      pose proof (out_sound _ _ _ _ _ _ Hf) as (e' & _ & E & _ & Ef & _). injection E as -> E.
      assert (f_entry_key f = e_key e) as Ek by by rewrite Ef, E.
      exists f. split; [apply elem_of_flags_for; by rewrite Ek|done]. }
  split; [done|]. split; [|split; [apply flags_for_nodup|split; [apply py_sorted_sorted; [apply flag_leb_total|apply flag_leb_trans]|]]].
  - intros f Hf. apply elem_of_flags_for, out_sound in Hf as (e & He & E & _ & Ef & Hg). injection E as E.
    exists e. rewrite Ef. done.
  - destruct (flags_for items entries (raised ∪ _) now) as [|f l] eqn:E; [done|].
    assert (f ∈ f :: l) as Hf by left. rewrite <- E in Hf. apply elem_of_flags_for, out_sound in Hf as (e & He & Ek & Hr & _ & Hg).
    injection Ek as Ek. exfalso. apply not_elem_of_union in Hr as [Hr Hn]. apply Hn, elem_of_list_to_set, list_elem_of_fmap.
    destruct (proj2 (Hiff (f_item f) (f_entry_key f))) as (f' & Hf' & <- & <-); [split; [done|by exists e, (f_text f)]|].
    by exists f'.
Qed.

(** ** Storing *)

Lemma sort_strings_eq (l k : list string) : l ≡ₚ k -> py_sorted string_leb l = py_sorted string_leb k.
Proof. apply py_sorted_perm_eq; [apply string_leb_total|apply string_leb_trans|apply string_leb_antisym]. Qed.

Lemma sort_set_id (l : list string) : NoDup l -> py_sorted string_leb (elements (list_to_set l : gset string)) = py_sorted string_leb l.
Proof. intros Hn. apply sort_strings_eq, elements_list_to_set, Hn. Qed.

Lemma elem_of_merged_products r e p : p ∈ merged_products r e <-> p ∈ s_products r \/ p ∈ e.(e_products).
Proof. unfold merged_products. by rewrite elem_of_py_sorted, elem_of_elements, elem_of_list_to_set, elem_of_app. Qed.

Lemma NoDup_merged_products r e : NoDup (merged_products r e).
Proof. apply NoDup_py_sorted, NoDup_elements. Qed.

(** The row of an entry: what it says, and every product it was ever seen for. *)
Lemma upsert_one_row origin now row e :
  let r := (upsert_one origin now row e).1 in
  s_at r = e.(e_at) /\ s_title r = title_500 e /\ s_data r = e.(e_data) /\
  (forall p, p ∈ s_products r <-> p ∈ (match row with Some old => s_products old | None => [] end) \/ p ∈ e.(e_products)).
Proof.
  cbn zeta. unfold upsert_one. destruct row as [r|]; cbn.
  - case_match eqn:E; cbn; [repeat split; intros; by apply elem_of_merged_products|].
    apply orb_false_iff in E as [[[E1 E2]%orb_false_iff E3]%orb_false_iff E4]. reflect_bools.
    apply String.eqb_eq in E3. split; [done|]. split; [done|]. split; [done|]. intros p.
    rewrite <- elem_of_merged_products, <- (elem_of_py_sorted string_leb p (s_products r)). apply dec_stable in E1. by rewrite E1.
  - repeat split; rewrite ?elem_of_py_sorted; set_solver.
Qed.

(** Stored again, it stays as it is. *)
Lemma upsert_one_again origin now origin' now' row e :
  NoDup e.(e_products) ->
  let r := (upsert_one origin now row e).1 in upsert_one origin' now' (Some r) e = (r, (false, false)).
Proof.
  intros Hn. cbn zeta. destruct (upsert_one_row origin now row e) as (Hat & Htitle & Hdata & Hp).
  set (r := (upsert_one origin now row e).1) in *.
  assert (merged_products r e = py_sorted string_leb (s_products r)) as Hm.
  { unfold merged_products. destruct (decide (NoDup (s_products r))) as [Hnr|Hnr].
    - apply sort_strings_eq, NoDup_Permutation; [apply NoDup_elements|done|]. intros p.
      rewrite elem_of_elements, elem_of_list_to_set, elem_of_app, Hp. tauto.
    - (* stored with repetitions, and left alone: its sorted form has none *)
      destruct row as [old|]; [|exfalso; by apply Hnr, NoDup_py_sorted].
      revert Hnr. unfold r, upsert_one. case_match eqn:E; cbn; [intros H; destruct H; apply NoDup_merged_products|].
      intros _. apply orb_false_iff in E as [[[E1 _]%orb_false_iff _]%orb_false_iff _]. reflect_bools.
      by apply dec_stable in E1. }
  unfold upsert_one. rewrite Hm, Hat, Htitle, Hdata, Z.eqb_refl, String.eqb_refl, bool_decide_eq_false_2 by tauto.
  rewrite bool_decide_eq_true_2 by done. done.
Qed.

Lemma upsert_entries_spec found origin now table :
  let '(t, (new, updated)) := upsert_entries found origin now table in
  forall key,
    t !! key = match wanted found !! key with
               | Some e => Some (upsert_one origin now (table !! key) e).1
               | None => table !! key
               end /\
    (key ∈ new <-> exists e, wanted found !! key = Some e /\ (upsert_one origin now (table !! key) e).2.1 = true) /\
    (key ∈ updated <-> exists e, wanted found !! key = Some e /\ (upsert_one origin now (table !! key) e).2.2 = true).
Proof.
  unfold upsert_entries. apply (map_fold_weak_ind (fun (st : gmap string stored_entry * (gset string * gset string)) (m : gmap string FeedEntry) =>
    let '(t, (new, updated)) := st in forall key,
    t !! key = match m !! key with Some e => Some (upsert_one origin now (table !! key) e).1 | None => table !! key end /\
    (key ∈ new <-> exists e, m !! key = Some e /\ (upsert_one origin now (table !! key) e).2.1 = true) /\
    (key ∈ updated <-> exists e, m !! key = Some e /\ (upsert_one origin now (table !! key) e).2.2 = true))).
  - intros key. rewrite lookup_empty. set_solver.
  - intros k e m [t [new updated]] Hk IH. destruct (upsert_one origin now (table !! k) e) as [row [n u]] eqn:E.
    assert (forall (b : bool) (X : gset string) key, key ∈ (if b then {[k]} ∪ X else X) <-> (b = true /\ key = k) \/ key ∈ X) as Hin
      by (intros [] X key; rewrite ?elem_of_union, ?elem_of_singleton; intuition congruence).
    intros key. rewrite !Hin. destruct (IH key) as (IH1 & IH2 & IH3). rewrite IH2, IH3. destruct (decide (key = k)) as [->|Hne].
    + rewrite !lookup_insert_eq, E, Hk. cbn. split; [done|]. split; split.
      * intros [[-> _]|(? & [=] & _)]. exists e. by rewrite E.
      * intros (e' & [= <-] & H). rewrite E in H. by left.
      * intros [[-> _]|(? & [=] & _)]. exists e. by rewrite E.
      * intros (e' & [= <-] & H). rewrite E in H. by left.
    + rewrite !lookup_insert_ne by done. split; [done|]. split; tauto.
Qed.

Lemma wanted_elem found key e : wanted found !! key = Some e -> e ∈ found /\ e.(e_key) = key.
Proof.
  unfold wanted. assert (forall m : gmap string FeedEntry, foldl (fun m e => <[e_key e := e]> m) m found !! key = Some e ->
    m !! key = Some e \/ (e ∈ found /\ e_key e = key)) as H.
  { induction found as [|x found IH]; intros m; cbn; [by left|]. intros [H|?]%IH; [|set_solver].
    destruct (decide (e_key x = key)) as [<-|Hne]; [rewrite lookup_insert_eq in H; simplify_eq; set_solver|].
    rewrite lookup_insert_ne in H by done. by left. }
  intros Hw. apply H in Hw as [Hw|?]; [by rewrite lookup_empty in Hw|done].
Qed.

Lemma wanted_is_Some found key : is_Some (wanted found !! key) <-> exists e, e ∈ found /\ e.(e_key) = key.
Proof.
  split; [intros [e He%wanted_elem]; eauto|]. unfold wanted. intros (e & He & Hk).
  assert (forall m : gmap string FeedEntry, is_Some (m !! key) \/ (exists e, e ∈ found /\ e_key e = key) ->
    is_Some (foldl (fun m e => <[e_key e := e]> m) m found !! key)) as H; [|apply H; eauto].
  clear e He Hk. induction found as [|x found IH]; intros m Hm; cbn; [destruct Hm as [?|(e & He & _)]; [done|by apply elem_of_nil in He]|].
  apply IH. destruct (decide (e_key x = key)) as [<-|Hne]; [left; rewrite lookup_insert_eq; by eexists|].
  rewrite lookup_insert_ne by done. set_solver.
Qed.

(** After a pull is stored every entry pulled has its row, which says what the entry says and names every
    product it was seen for before or now; no other row changed; and storing the same pull again, at any
    time and from any origin, adds, updates and changes nothing. *)
Theorem upsert_entries_correct found origin now table origin' now' :
  (forall e, e ∈ found -> NoDup e.(e_products)) ->
  let t := (upsert_entries found origin now table).1 in
  (forall key, (~ exists e, e ∈ found /\ e.(e_key) = key) -> t !! key = table !! key) /\
  (forall e, e ∈ found -> exists r e', t !! e.(e_key) = Some r /\ e' ∈ found /\ e'.(e_key) = e.(e_key) /\
     s_at r = e'.(e_at) /\ s_title r = title_500 e' /\ s_data r = e'.(e_data) /\
     forall p, p ∈ s_products r <->
       (exists old, table !! e.(e_key) = Some old /\ p ∈ s_products old) \/ p ∈ e'.(e_products)) /\
  upsert_entries found origin' now' t = (t, (∅, ∅)).
Proof.
  intros Hn. pose proof (upsert_entries_spec found origin now table) as Hs.
  destruct (upsert_entries found origin now table) as [t [new updated]]. cbn [fst]. split; [|split].
  - intros key Hk. destruct (Hs key) as [-> _]. destruct (wanted found !! key) as [e|] eqn:E; [|done].
    destruct Hk. apply wanted_elem in E. eauto.
  - intros e He. destruct (proj2 (wanted_is_Some found e.(e_key))) as [e' Hw]; [eauto|].
    destruct (Hs e.(e_key)) as [Ht _]. rewrite Hw in Ht. destruct (wanted_elem _ _ _ Hw) as [He' Hk].
    destruct (upsert_one_row origin now (table !! e.(e_key)) e') as (H1 & H2 & H3 & H4).
    eexists _, e'. do 6 (split; [done|]). intros p. rewrite H4.
    destruct (table !! e.(e_key)) as [old|]; (split; [intros [Ho|?]; [left|by right]|intros [(o & Eo & Ho)|?]; [left|by right]]).
    + by exists old.
    + by injection Eo as ->.
    + by apply elem_of_nil in Ho.
    + done.
  - pose proof (upsert_entries_spec found origin' now' t) as Hs'.
    destruct (upsert_entries found origin' now' t) as [t' [new' updated']].
    assert (forall key e, wanted found !! key = Some e -> exists r, t !! key = Some r /\ upsert_one origin' now' (t !! key) e = (r, (false, false))) as Hag.
    { intros key e Hw. destruct (Hs key) as [Ht _]. rewrite Hw in Ht. eexists. split; [done|]. rewrite Ht.
      apply upsert_one_again, Hn. by apply wanted_elem in Hw as []. }
    f_equal; [|f_equal].
    + apply map_eq. intros key. destruct (Hs' key) as [-> _]. destruct (wanted found !! key) as [e|] eqn:Hw; [|done].
      destruct (Hag key e Hw) as (r & -> & E). by rewrite E.
    + apply set_eq. intros key. split; [|set_solver]. intros (e & Hw & H)%Hs'.
      destruct (Hag key e Hw) as (r & _ & E). by rewrite E in H.
    + apply set_eq. intros key. split; [|set_solver]. intros (e & Hw & H)%Hs'.
      destruct (Hag key e Hw) as (r & _ & E). by rewrite E in H.
Qed.

(** ** A concrete run *)

Definition windows : FeedProduct :=
  Product "Windows Server 2022" (Some "windows-server") (Some "2022") (Some "21H2 20348.1") (Some "cpe:2.3:o:microsoft:windows_server_2022")
    [("Microsoft", "Windows"); ("Microsoft", "Windows *")].
Definition kev_entry : FeedEntry :=
  Entry "kev:CVE-2026-1" "cisa_kev" KIND_VULNERABILITY [kev_key "Microsoft" "Windows  CNG Key"] (20 * DAY) "CNG"
    {["cve" := "CVE-2026-1"; "vendor" := "Microsoft"; "product" := "Windows CNG Key"]}.
Definition eol_entry : FeedEntry :=
  Entry "eol:windows-server:2022" "endoflife" KIND_RELEASE [eol_key "Windows-Server" "2022"] (30 * DAY) "EOL" ∅.

Example covers_1 : covers windows "kev:microsoft:windows cng key" = true /\ covers windows "kev:microsoft:windowsxyz" = false.
Proof. vm_compute. done. Qed.
Example newer_1 : newer "24.04.10" "24.04.9" = true /\ newer "24.04" "24.04.1" = false /\ newer "Focal " "focal" = false.
Proof. vm_compute. done. Qed.
Example flags_for_1 :
  flags_for [("i1", MkTracked [windows] (19 * DAY + 5)); ("i2", MkTracked [windows] (21 * DAY))] [kev_entry; eol_entry] ∅ (25 * DAY) =
  [MkFlag "i1" "kev:CVE-2026-1" KIND_VULNERABILITY
     "CVE-2026-1: a Microsoft Windows CNG Key KEV entry (may affect Windows Server 2022)"]%string.
Proof. vm_compute. reflexivity. Qed.

Lemma upsert_entries_correct_witness :
  let t := (upsert_entries [kev_entry; eol_entry] "online" 5 ∅).1 in
  upsert_entries [kev_entry; eol_entry] "bundle" 6 t = (t, (∅, ∅)).
Proof.
  apply (upsert_entries_correct [kev_entry; eol_entry] "online" 5 ∅ "bundle" 6).
  intros e He; cases_in He; subst; apply NoDup_singleton.
Defined.
