(* ===== verification/ContentReview.v ===== *)
(** * The content clock's service: reviews, flags, retirement, themes and cycles

    Models [control-plane/api/app/content_review/service.py] over the tables of
    [content_review/models.py].  An operation works on rows it locked and read in one transaction ([set_cycle] and
    [delete_theme] read without a lock, and are taken one request at a time), so it is a function of the database; a refusal is an HTTP status.  The rules it applies are
    ContentStaleness.v's.  Rows come and go by the worker's sync (ContentSync.v).

    The theorems: the service works on the item and what is downstream of it only, and that is as good
    as working on the whole graph; so the inherited reasons stay exactly those of the flagged items;
    what is stale is marked stale; and nobody changes another tenant's or, without being a platform
    administrator, the shared catalogue's content, beyond the reasons it inherits. *)

From S2P Require Import Prelude PyText ContentStaleness.

Local Open Scope Z_scope.

(** ** The tables *)

Record row := Row {
  v_tenant : option string; v_item_type : string; v_item_id : string; v_title : string;
  v_owner : option string; v_reviewer : option string; v_theme_ids : list string; v_cycle_days : option Z;
  v_last_reviewed_at : option Z; v_last_reviewed_by : option string; v_due_at : Z; v_stale : bool;
  v_stale_reasons : list stored; v_retired : bool; v_retired_at : option Z; v_retired_by : option string;
  v_missing : bool; v_revision : Z; v_created_at : option Z
}.

(** [item_id] depends on [depends_on_id]; [derived]: the sync found it. *)
Record edge := Edge { g_item : string; g_on : string; g_derived : bool }.
#[export] Instance edge_eq_dec : EqDecision edge.
Proof. solve_decision. Defined.

Record theme := Theme { h_tenant : option string; h_name : string; h_colour : string; h_ordinal : Z }.
(** A user of some tenant, and whether an administrator or instructor. *)
Record person := Person { p_tenant : string; p_deleted : bool; p_staff : bool }.

(** The caller: its id (none where it is no uuid), its tenant, what it may do. *)
Record user := User {
  u_id : option string; u_tenant : string; u_admin : bool; u_own : bool; u_platform_admin : bool
}.

Inductive detail :=
| Reviewed (cleared : list string) (downstream : nat) (note : string)
| Assigned (before after : option string)
| Retired (reason : string) (downstream : nat)
| Updated (owner : option string) (themes : list string) (cycle : option Z)
| ThemeCreated | ThemeUpdated | ThemeDeleted
| CycleSet (before : option Z) (days : Z).
Record audit := AuditLog { a_user : user; a_resource : string; a_detail : detail }.

Record db := Db {
  d_items : gmap string row; d_edges : list edge; d_cycles : gmap (option string * string) Z;
  d_people : gmap string person; d_themes : gmap string theme; d_audit : list audit
}.

Inductive refused := Http (status : Z).

Definition set_items (items : gmap string row) (d : db) : db :=
  Db items d.(d_edges) d.(d_cycles) d.(d_people) d.(d_themes) d.(d_audit).
Definition put_row (id : string) (w : row) (d : db) : db := set_items (<[id := w]> d.(d_items)) d.
Definition add_audit (a : audit) (d : db) : db :=
  Db d.(d_items) d.(d_edges) d.(d_cycles) d.(d_people) d.(d_themes) (d.(d_audit) ++ [a]).
Definition set_themes (t : gmap string theme) (d : db) : db :=
  Db d.(d_items) d.(d_edges) d.(d_cycles) d.(d_people) t d.(d_audit).

(** Assignments to columns of a row. *)
Definition with_clock (reasons : list stored) (stale : bool) (due revision : Z) (w : row) : row :=
  Row w.(v_tenant) w.(v_item_type) w.(v_item_id) w.(v_title) w.(v_owner) w.(v_reviewer) w.(v_theme_ids) w.(v_cycle_days)
    w.(v_last_reviewed_at) w.(v_last_reviewed_by) due stale reasons w.(v_retired) w.(v_retired_at) w.(v_retired_by)
    w.(v_missing) revision w.(v_created_at).
Definition with_review (at_ : Z) (by_ : option string) (w : row) : row :=
  Row w.(v_tenant) w.(v_item_type) w.(v_item_id) w.(v_title) w.(v_owner) w.(v_reviewer) w.(v_theme_ids) w.(v_cycle_days)
    (Some at_) by_ w.(v_due_at) w.(v_stale) w.(v_stale_reasons) w.(v_retired) w.(v_retired_at) w.(v_retired_by)
    w.(v_missing) w.(v_revision) w.(v_created_at).
Definition with_people (owner reviewer : option string) (w : row) : row :=
  Row w.(v_tenant) w.(v_item_type) w.(v_item_id) w.(v_title) owner reviewer w.(v_theme_ids) w.(v_cycle_days)
    w.(v_last_reviewed_at) w.(v_last_reviewed_by) w.(v_due_at) w.(v_stale) w.(v_stale_reasons) w.(v_retired)
    w.(v_retired_at) w.(v_retired_by) w.(v_missing) w.(v_revision) w.(v_created_at).
Definition with_retired (at_ : Z) (by_ : option string) (w : row) : row :=
  Row w.(v_tenant) w.(v_item_type) w.(v_item_id) w.(v_title) w.(v_owner) w.(v_reviewer) w.(v_theme_ids) w.(v_cycle_days)
    w.(v_last_reviewed_at) w.(v_last_reviewed_by) w.(v_due_at) w.(v_stale) w.(v_stale_reasons) true (Some at_) by_
    w.(v_missing) w.(v_revision) w.(v_created_at).
Definition with_themes_cycle (themes : list string) (cycle : option Z) (w : row) : row :=
  Row w.(v_tenant) w.(v_item_type) w.(v_item_id) w.(v_title) w.(v_owner) w.(v_reviewer) themes cycle
    w.(v_last_reviewed_at) w.(v_last_reviewed_by) w.(v_due_at) w.(v_stale) w.(v_stale_reasons) w.(v_retired)
    w.(v_retired_at) w.(v_retired_by) w.(v_missing) w.(v_revision) w.(v_created_at).
Definition bump (w : row) : row := with_clock w.(v_stale_reasons) w.(v_stale) w.(v_due_at) (w.(v_revision) + 1) w.

(** ** Visibility and permission *)

(** [visible]: a row of the caller's tenant or the shared catalogue, not gone. *)
Definition visible (u : user) (w : row) : bool :=
  (bool_decide (w.(v_tenant) = Some u.(u_tenant)) || bool_decide (w.(v_tenant) = None)) && negb w.(v_missing).
Definition get_visible (d : db) (u : user) (id : string) : result refused row :=
  match d.(d_items) !! id with
  | Some w => if visible u w then Ok w else Err (Http 404)
  | None => Err (Http 404)
  end.

Definition can_admin (u : user) (w : row) : bool :=
  if negb u.(u_admin) then false
  else match w.(v_tenant) with
       | None => u.(u_platform_admin)
       | Some t => bool_decide (t = u.(u_tenant))
       end.
Definition owns (u : user) (w : row) : bool :=
  match u.(u_id) with
  | Some me => bool_decide (w.(v_owner) = Some me) || bool_decide (w.(v_reviewer) = Some me)
  | None => false
  end.
Definition can_review (u : user) (w : row) : bool :=
  can_admin u w || (u.(u_own) && bool_decide (w.(v_tenant) = Some u.(u_tenant)) && owns u w).
Definition can_assign (u : user) (w : row) : bool :=
  can_admin u w || (u.(u_own) && bool_decide (w.(v_tenant) = Some u.(u_tenant)) &&
    match u.(u_id) with Some me => bool_decide (w.(v_owner) = Some me) | None => false end).

(** [require_review], [require_admin]: both refusals are a 403. *)
Definition require_review (u : user) (w : row) : result refused unit := guard_or (can_review u w) (Http 403) (Ok tt).
Definition require_admin (u : user) (w : row) : result refused unit := guard_or (can_admin u w) (Http 403) (Ok tt).

(** ** Cycles *)

Definition cycles_get (cycles : gmap (option string * string) Z) (tenant : option string) (item_type : string) : Z * string :=
  match (match tenant with Some t => cycles !! (Some t, item_type) | None => None end) with
  | Some days => (days, "tenant"%string)
  | None => match cycles !! (None, item_type) with
            | Some days => (days, "platform"%string)
            | None => (DEFAULT_CYCLE_DAYS, "default"%string)
            end
  end.
(** [row.cycle_days or ...]: a cycle of 0 counts as none. *)
Definition for_row (cycles : gmap (option string * string) Z) (w : row) : Z :=
  match w.(v_cycle_days) with
  | Some n => if n =? 0 then (cycles_get cycles w.(v_tenant) w.(v_item_type)).1 else n
  | None => (cycles_get cycles w.(v_tenant) w.(v_item_type)).1
  end.

Definition nonempty {A} (l : list A) : bool := match l with [] => false | _ => true end.

(** [refresh_clock]: the row, and whether it changed.  A reason that only gets a new text is changed here as in the
    object; the code edits the loaded dictionary in place, so the column is not written and only the revision is. *)
Definition refresh_clock (id : string) (cycle_days at_ : Z) (w : row) : row * bool :=
  let due := due_at (default at_ w.(v_created_at)) w.(v_last_reviewed_at) cycle_days in
  let g := mk_graph {[id := w.(v_stale_reasons)]} ∅ ∅ ∅ in
  let '(g', changed) := set_overdue g id (overdue_text due at_) at_ in
  let reasons := if changed then SReason <$> reasons_of g'.(g_reasons) id else w.(v_stale_reasons) in
  let stale := if changed then nonempty reasons else w.(v_stale) in
  let changed' := changed || negb (w.(v_due_at) =? due) in
  (with_clock reasons stale due (if changed' then w.(v_revision) + 1 else w.(v_revision)) w, changed').

(** ** The dependency graph *)

(** [depends], over every edge. *)
Definition depends_of (edges : list edge) : gmap string (gset string) :=
  foldl (fun m e => <[e.(g_item) := {[e.(g_on)]} ∪ default ∅ (m !! e.(g_item))]> m) ∅ edges.

(** The items a change at [key] can rewrite. *)
Definition reach_of (used : gmap string (gset string)) (key : string) : gset string :=
  {[key]} ∪ list_to_set ((dependents (mk_graph ∅ used ∅ ∅) key).*1).

(** [lock_rows]: those of them that are not missing. *)
Definition lock_rows (d : db) (ids : gset string) : gmap string row :=
  filter (fun kw => kw.1 ∈ ids /\ v_missing kw.2 = false) d.(d_items).

Definition type_name (item_type : string) : string :=
  default item_type ((list_to_map ITEM_TYPES : gmap string string) !! item_type).

(** The graph over some rows. *)
Definition graph_of (rows : gmap string row) (used : gmap string (gset string)) : graph :=
  mk_graph (fmap (M := gmap string) v_stale_reasons rows) used
    (fmap (M := gmap string) (fun w => (type_name (v_item_type w), v_title w)) rows)
    (dom (filter (fun kw => v_retired kw.2 = true) rows)).

Definition load_graph (d : db) (key : string) : graph * gmap string row :=
  let used := used_by (depends_of d.(d_edges)) in
  let rows := lock_rows d (reach_of used key) in
  (graph_of rows used, rows).

(** [_write_back], for the rows that changed and were loaded. *)
Definition write_row (g : graph) (k : string) (w : row) : row :=
  let reasons := SReason <$> reasons_of g.(g_reasons) k in
  with_clock reasons (nonempty reasons) w.(v_due_at) (w.(v_revision) + 1) w.
Definition _write_back (g : graph) (rows : gmap string row) (changed : gset string) (d : db) : db :=
  set_items (map_imap (fun k w =>
    Some (if bool_decide (k ∈ changed) && bool_decide (is_Some (rows !! k)) then write_row g k w else w)) d.(d_items)) d.

(** [flag_stale]; an unknown item is a [KeyError]. *)
Inductive flag_error := NoReviewItem | NotAFlag.
Definition flag_item (d : db) (key text source kind : string) (at_ : Z) : result flag_error (db * gset string) :=
  let '(g, rows) := load_graph d key in
  if bool_decide (is_Some (rows !! key)) then
    match flag_stale g key text source kind at_ with
    | Ok (g', changed) => Ok (_write_back g' rows changed d, changed)
    | Err _ => Err NotAFlag
    end
  else Err NoReviewItem.

(** ** The writes *)

Definition own_texts (key : string) (l : list reason) : list string :=
  r_text <$> List.filter (fun r => String.eqb r.(r_origin) key) l.

(** [mark_reviewed], of an item the caller sees. *)
Definition review_item (d : db) (u : user) (key note : string) (at_ : Z) : result refused (db * gset string) :=
  w ← get_visible d u key;
  _ ← require_review u w;
  guard_or (negb w.(v_retired)) (Http 409)
    (let '(g, rows) := load_graph d key in
     let cleared := own_texts key (reasons_of g.(g_reasons) key) in
     let '(g', changed) := mark_reviewed g key in
     let d1 := _write_back g' rows changed d in
     let d2 := match d1.(d_items) !! key with
               | Some w1 => let w2 := with_review at_ u.(u_id) w1 in
                            put_row key (refresh_clock key (for_row d.(d_cycles) w2) at_ w2).1 d1
               | None => d1
               end in
     Ok (add_audit (AuditLog u key (Reviewed cleared (size (changed ∖ {[key]})) note)) d2, changed)).

(** [_staff]: an administrator or instructor of the item's tenant (the caller's, for shared content). *)
Definition _staff (d : db) (u : user) (w : row) (id : string) : result refused string :=
  match d.(d_people) !! id with
  | Some p => if bool_decide (p_tenant p = default u.(u_tenant) w.(v_tenant)) && negb (p_deleted p)
              then guard_or (p_staff p) (Http 422) (Ok id) else Err (Http 404)
  | None => Err (Http 404)
  end.

Definition assign_reviewer (d : db) (u : user) (key : string) (reviewer : option string) : result refused db :=
  w ← get_visible d u key;
  guard_or (can_assign u w) (Http 403)
    (guard_or (negb w.(v_retired)) (Http 409)
       (_ ← match reviewer with Some id => _staff d u w id | None => Ok ""%string end;
        Ok (add_audit (AuditLog u key (Assigned w.(v_reviewer) reviewer))
              (put_row key (bump (with_people w.(v_owner) reviewer w)) d)))).

Definition retire (d : db) (u : user) (key reason : string) (at_ : Z) : result refused db :=
  w ← get_visible d u key;
  _ ← require_admin u w;
  guard_or (negb w.(v_retired)) (Http 409)
    (let '(g, rows) := load_graph d key in
     let '(g', changed) := mark_reviewed g key in
     let d1 := _write_back g' rows (changed ∖ {[key]}) d in
     Ok (add_audit (AuditLog u key (Retired reason (size (changed ∖ {[key]}))))
           (put_row key (bump (with_retired at_ u.(u_id) w)) d1))).

(** [visible_themes], as the ids; those a shared item may carry are the platform's. *)
Definition visible_theme (u : user) (t : theme) : bool :=
  bool_decide (h_tenant t = Some u.(u_tenant)) || bool_decide (h_tenant t = None).
Definition known_theme (d : db) (u : user) (w : row) (id : string) : bool :=
  match d.(d_themes) !! id with
  | Some t => visible_theme u t && (bool_decide (w.(v_tenant) <> None) || bool_decide (h_tenant t = None))
  | None => false
  end.

(** The body of an update: what to clear, what to set. *)
Record update := Update {
  b_clear_owner : bool; b_owner : option string; b_themes : option (list string); b_clear_cycle : bool; b_cycle : option Z
}.

Definition update_item (d : db) (u : user) (key : string) (b : update) (at_ : Z) : result refused db :=
  w ← get_visible d u key;
  _ ← require_admin u w;
  owner ← (if b.(b_clear_owner) then Ok None
           else match b.(b_owner) with Some id => (x ← _staff d u w id; Ok (Some x)) | None => Ok w.(v_owner) end);
  themes ← match b.(b_themes) with
           | Some ids => guard_or (forallb (known_theme d u w) ids) (Http 422) (Ok (fromkeys ids))
           | None => Ok w.(v_theme_ids)
           end;
  let cycle := if b.(b_clear_cycle) then None else match b.(b_cycle) with Some n => Some n | None => w.(v_cycle_days) end in
  let w1 := bump (with_themes_cycle themes cycle (with_people owner w.(v_reviewer) w)) in
  Ok (add_audit (AuditLog u key (Updated owner themes cycle))
        (put_row key (refresh_clock key (for_row d.(d_cycles) w1) at_ w1).1 d)).

(** ** Themes and cycles *)

(** [_theme_scope]: platform-wide for a platform administrator only. *)
Definition _theme_scope (u : user) (platform_wide : bool) : result refused (option string) :=
  if platform_wide then guard_or u.(u_platform_admin) (Http 403) (Ok None) else Ok (Some u.(u_tenant)).

(** [_unique_theme_name]: no theme of that name in the scope. *)
Definition _unique_theme_name (d : db) (tenant : option string) (name : string) : result refused unit :=
  guard_or (forallb (fun t => negb (bool_decide (h_tenant t = tenant) && String.eqb (lower (h_name t)) (lower (strip name))))
              (snd <$> map_to_list d.(d_themes))) (Http 409) (Ok tt).

Fixpoint upper (s : string) : string :=
  match s with
  | EmptyString => EmptyString
  | String c s' => let n := Ascii.nat_of_ascii c in
                   String (if ((97 <=? n) && (n <=? 122))%nat then Ascii.ascii_of_nat (n - 32) else c) (upper s')
  end.

Definition create_theme (d : db) (u : user) (id name colour : string) (ordinal : Z) (platform_wide : bool) : result refused db :=
  tenant ← _theme_scope u platform_wide;
  _ ← _unique_theme_name d tenant name;
  Ok (add_audit (AuditLog u id ThemeCreated)
        (set_themes (<[id := Theme tenant (strip name) (upper colour) ordinal]> d.(d_themes)) d)).

Definition editable_theme (d : db) (u : user) (id : string) : result refused theme :=
  match d.(d_themes) !! id with
  | Some t => if visible_theme u t then _ ← _theme_scope u (bool_decide (h_tenant t = None)); Ok t else Err (Http 404)
  | None => Err (Http 404)
  end.

Definition update_theme (d : db) (u : user) (id name colour : string) (ordinal : Z) (platform_wide : bool) : result refused db :=
  t ← editable_theme d u id;
  guard_or (Bool.eqb platform_wide (bool_decide (h_tenant t = None))) (Http 422)
    (_ ← (if String.eqb (lower (strip name)) (lower (h_name t)) then Ok tt else _unique_theme_name d (h_tenant t) name);
     Ok (add_audit (AuditLog u id ThemeUpdated)
           (set_themes (<[id := Theme (h_tenant t) (strip name) (upper colour) ordinal]> d.(d_themes)) d))).

(** [delete_theme] untags it from the rows of its scope. *)
Definition untag (scope : option string) (id : string) (w : row) : row :=
  if (bool_decide (scope = None) || bool_decide (v_tenant w = scope)) && bool_decide (id ∈ w.(v_theme_ids))
  then bump (with_themes_cycle (List.filter (fun x => negb (String.eqb x id)) w.(v_theme_ids)) w.(v_cycle_days) w) else w.
Definition delete_theme (d : db) (u : user) (id : string) : result refused db :=
  t ← editable_theme d u id;
  let d1 := set_items (fmap (M := gmap string) (untag (h_tenant t) id) d.(d_items)) d in
  Ok (add_audit (AuditLog u id ThemeDeleted) (set_themes (delete id d.(d_themes)) d1)).

(** [set_cycle]: the due dates of the rows it rules move at once. *)
Definition ruled_by (tenant : option string) (item_type : string) (w : row) : bool :=
  String.eqb w.(v_item_type) item_type && bool_decide (w.(v_cycle_days) = None) &&
  (bool_decide (tenant = None) || bool_decide (w.(v_tenant) = tenant)).
Definition set_cycle (d : db) (u : user) (item_type : string) (days : Z) (platform_wide : bool) (at_ : Z) : result refused db :=
  guard_or (existsb (String.eqb item_type) (map fst ITEM_TYPES)) (Http 404)
    (guard_or u.(u_admin) (Http 403)
       (tenant ← _theme_scope u platform_wide;
        let cycles := <[(tenant, item_type) := days]> d.(d_cycles) in
        let items := map_imap (fun k w =>
          Some (if ruled_by tenant item_type w then (refresh_clock k (for_row cycles w) at_ w).1 else w)) d.(d_items) in
        Ok (add_audit (AuditLog u item_type (CycleSet (d.(d_cycles) !! (tenant, item_type)) days))
              (Db items d.(d_edges) cycles d.(d_people) d.(d_themes) d.(d_audit))))).

(** ** Edges *)

Lemma elem_of_depends_of edges item on :
  on ∈ default ∅ (depends_of edges !! item) <-> exists e, e ∈ edges /\ e.(g_item) = item /\ e.(g_on) = on.
Proof.
  unfold depends_of.
  assert (forall m : gmap string (gset string),
    on ∈ default ∅ (foldl (fun m e => <[g_item e := {[g_on e]} ∪ default ∅ (m !! g_item e)]> m) m edges !! item) <->
    on ∈ default ∅ (m !! item) \/ exists e, e ∈ edges /\ g_item e = item /\ g_on e = on) as H.
  { induction edges as [|e edges IH]; intros m; cbn.
    - split; [by left|]. intros [?|(e & He & _)]; [done|by apply elem_of_nil in He].
    - rewrite IH. setoid_rewrite elem_of_cons. destruct (decide (g_item e = item)) as [<-|Hne].
      + rewrite lookup_insert_eq. cbn. rewrite elem_of_union, elem_of_singleton. naive_solver.
      + rewrite lookup_insert_ne by done. naive_solver. }
  rewrite H, lookup_empty. set_solver.
Qed.

Lemma elem_of_used_by depends on item :
  item ∈ default ∅ (used_by depends !! on) <-> on ∈ default ∅ (depends !! item).
Proof.
  unfold used_by.
  assert (forall it l (m : gmap string (gset string)),
    item ∈ default ∅ (foldr (fun dep out => <[dep := {[it]} ∪ default ∅ (out !! dep)]> out) m l !! on) <->
    item ∈ default ∅ (m !! on) \/ (item = it /\ on ∈ l)) as Hin.
  { intros it l m. induction l as [|x l IH]; cbn; [rewrite elem_of_nil; tauto|].
    rewrite elem_of_cons. destruct (decide (x = on)) as [<-|Hne].
    - rewrite lookup_insert_eq. cbn. rewrite elem_of_union, elem_of_singleton, IH. tauto.
    - rewrite lookup_insert_ne by done. rewrite IH. naive_solver. }
  apply (map_fold_weak_ind (fun (out : gmap string (gset string)) (m : gmap string (gset string)) =>
    item ∈ default ∅ (out !! on) <-> on ∈ default ∅ (m !! item))).
  - by rewrite !lookup_empty.
  - intros i deps m out Hi IH. rewrite Hin, elem_of_elements, IH. destruct (decide (i = item)) as [->|Hne].
    + rewrite lookup_insert_eq, Hi. cbn. set_solver.
    + rewrite lookup_insert_ne by done. naive_solver.
Qed.

Lemma elem_of_graph_used rs used names retired (u v : string) :
  v ∈ default [] ((mk_graph rs used names retired).(g_used_by) !! u) <-> v ∈ default ∅ (used !! u).
Proof.
  cbn [mk_graph g_used_by]. rewrite lookup_fmap. destruct (used !! u) as [s|]; cbn; [apply elem_of_sorted_set|].
  by rewrite elem_of_nil, elem_of_empty.
Qed.

Definition used_of (d : db) : gmap string (gset string) := used_by (depends_of d.(d_edges)).

(** Both ends of every edge are rows that are not missing: what the sync leaves. *)
Definition live (d : db) (k : string) : Prop := exists w, d.(d_items) !! k = Some w /\ w.(v_missing) = false.
Definition edges_live (d : db) : Prop := forall e, e ∈ d.(d_edges) -> live d e.(g_item) /\ live d e.(g_on).

Lemma elem_of_reach used key k :
  k ∈ reach_of used key <-> k = key \/ k ∈ (dependents (mk_graph ∅ used ∅ ∅) key).*1.
Proof. unfold reach_of. by rewrite elem_of_union, elem_of_singleton, elem_of_list_to_set. Qed.

Lemma walk_live d key p k :
  edges_live d -> live d key -> walk (mk_graph ∅ (used_of d) ∅ ∅).(g_used_by) key p k -> live d k.
Proof.
  intros He Hk. induction 1 as [|p u v _ IH Hv]; [done|].
  apply elem_of_graph_used, elem_of_used_by, elem_of_depends_of in Hv as (e & Hin & <- & _). by apply He in Hin as [].
Qed.

Lemma reach_live d key k : edges_live d -> live d key -> k ∈ reach_of (used_of d) key -> live d k.
Proof.
  intros He Hk. rewrite elem_of_reach. intros [->|Hd]; [done|].
  apply elem_of_dependents in Hd as (_ & p & Hw). by eapply walk_live.
Qed.

(** ** The whole graph, and the part an operation loads *)

Definition live_rows (d : db) : gmap string row := filter (fun kw => v_missing kw.2 = false) d.(d_items).
Definition full (d : db) : graph := graph_of (live_rows d) (used_of d).

Lemma live_rows_lookup d k w : live_rows d !! k = Some w <-> d.(d_items) !! k = Some w /\ w.(v_missing) = false.
Proof. unfold live_rows. apply map_lookup_filter_Some. Qed.

(** The valid reasons of a row that is not missing. *)
Definition row_reasons (d : db) (k : string) : list reason :=
  match d.(d_items) !! k with
  | Some w => if w.(v_missing) then [] else valid_reasons w.(v_stale_reasons)
  | None => []
  end.

Lemma graph_of_reasons rows used k :
  reasons_of (graph_of rows used).(g_reasons) k = match rows !! k with Some w => valid_reasons w.(v_stale_reasons) | None => [] end.
Proof. unfold graph_of. cbn [mk_graph g_reasons]. rewrite !lookup_fmap. by destruct (rows !! k). Qed.

Lemma full_reasons d k : reasons_of (full d).(g_reasons) k = row_reasons d k.
Proof.
  unfold full, row_reasons. rewrite graph_of_reasons. destruct (live_rows d !! k) as [w|] eqn:E.
  - apply live_rows_lookup in E as [-> ->]. done.
  - destruct (d_items d !! k) as [w|] eqn:Ew; [|done]. destruct (v_missing w) eqn:Em; [done|].
    assert (live_rows d !! k = Some w) as H by by apply live_rows_lookup. congruence.
Qed.

Lemma full_retired d k : k ∈ (full d).(g_retired) <-> exists w, d.(d_items) !! k = Some w /\ w.(v_missing) = false /\ w.(v_retired) = true.
Proof.
  unfold full, graph_of. cbn [mk_graph g_retired]. rewrite elem_of_dom. split.
  - intros [w [H1 H2]%map_lookup_filter_Some]. apply live_rows_lookup in H1 as [? ?]. by exists w.
  - intros (w & ? & ? & ?). exists w. apply map_lookup_filter_Some. split; [by apply live_rows_lookup|done].
Qed.

(** What the graph takes of a row besides its reasons. *)
Definition same_identity (w w' : row) : Prop :=
  v_item_type w' = v_item_type w /\ v_title w' = v_title w /\ v_missing w' = v_missing w /\ v_retired w' = v_retired w.

Lemma full_frame d d' :
  (forall k, option_relation same_identity (fun _ => False) (fun _ => False) (d.(d_items) !! k) (d'.(d_items) !! k)) ->
  d'.(d_edges) = d.(d_edges) -> same_frame (full d) (full d').
Proof.
  intros H He.
  assert (forall k, option_relation same_identity (fun _ => False) (fun _ => False) (live_rows d !! k) (live_rows d' !! k)) as Hl.
  { intros k. specialize (H k). unfold live_rows. rewrite !map_lookup_filter.
    destruct (d_items d !! k) as [w|], (d_items d' !! k) as [w'|]; cbn in *; try done.
    destruct H as (? & ? & Hm & ?). rewrite Hm. case_guard; cbn; done. }
  unfold full, graph_of, used_of. rewrite He. split; [done|]. split; cbn [mk_graph g_names g_retired].
  - apply map_eq. intros k. rewrite !lookup_fmap. specialize (Hl k).
    destruct (live_rows d !! k), (live_rows d' !! k); cbn in *; try done. destruct Hl as (-> & -> & _). done.
  - apply set_eq. intros k. rewrite !elem_of_dom. unfold is_Some. setoid_rewrite map_lookup_filter_Some. specialize (Hl k).
    destruct (live_rows d !! k) as [w|], (live_rows d' !! k) as [w'|]; cbn in *; try done.
    + destruct Hl as (_ & _ & _ & Hr). split; intros (x & E & Hx); injection E as <-; eexists; (split; [done|]); cbn in *; congruence.
Qed.

Section Load.
Context (d : db) (key : string) (He : edges_live d) (Hkey : live d key).
Let reach := reach_of (used_of d) key.
Let lg := (load_graph d key).1.
Let rows := (load_graph d key).2.

Lemma load_rows k : is_Some (rows !! k) <-> k ∈ reach.
Proof.
  unfold rows, load_graph, lock_rows. cbn [snd]. split.
  - intros [w [_ [H _]]%map_lookup_filter_Some]. done.
  - intros H. destruct (reach_live d key k He Hkey H) as (w & Hw & Hm). exists w. by apply map_lookup_filter_Some.
Qed.

Lemma load_row k w : rows !! k = Some w <-> live_rows d !! k = Some w /\ k ∈ reach.
Proof.
  unfold rows, load_graph, lock_rows. cbn [snd]. rewrite map_lookup_filter_Some, live_rows_lookup. cbn. tauto.
Qed.

Lemma load_reasons k : k ∈ reach -> reasons_of lg.(g_reasons) k = row_reasons d k.
Proof.
  intros Hk. rewrite <- full_reasons. change lg with (graph_of rows (used_of d)). unfold full. rewrite !graph_of_reasons.
  destruct (rows !! k) as [w|] eqn:E.
  - apply load_row in E as [-> _]. done.
  - destruct (live_rows d !! k) as [w|] eqn:El; [|done]. assert (rows !! k = Some w) as H by by apply load_row. congruence.
Qed.

Lemma load_reasons_out k : k ∉ reach -> reasons_of lg.(g_reasons) k = [].
Proof.
  intros Hk. change lg with (graph_of rows (used_of d)). rewrite graph_of_reasons.
  destruct (rows !! k) as [w|] eqn:E; [|done]. by apply load_row in E as [_ ?].
Qed.

Lemma load_name k : k ∈ reach -> _name lg k = _name (full d) k.
Proof.
  intros Hk. unfold _name. change lg with (graph_of rows (used_of d)). unfold full, graph_of. cbn [mk_graph g_names].
  rewrite !lookup_fmap. destruct (rows !! k) as [w|] eqn:E.
  - by apply load_row in E as [-> _].
  - destruct (live_rows d !! k) as [w|] eqn:El; [|done]. assert (rows !! k = Some w) as H by by apply load_row. congruence.
Qed.

Lemma load_dependents o : dependents lg o = dependents (full d) o.
Proof. done. Qed.

Lemma load_retired : key ∈ lg.(g_retired) <-> key ∈ (full d).(g_retired).
Proof.
  rewrite full_retired. change lg with (graph_of rows (used_of d)). unfold graph_of. cbn [mk_graph g_retired].
  rewrite elem_of_dom. unfold is_Some. setoid_rewrite map_lookup_filter_Some. setoid_rewrite load_row.
  setoid_rewrite live_rows_lookup. assert (key ∈ reach) as Hin by (apply elem_of_reach; by left). cbn.
  split; intros (w & Hw); exists w; tauto.
Qed.

Lemma dependents_in_reach k p : (k, p) ∈ dependents (full d) key -> k ∈ reach.
Proof.
  intros Hp. unfold reach. apply elem_of_reach. right. apply list_elem_of_fmap. by exists (k, p).
Qed.

Lemma last_but_one_in_reach k p :
  (k, p) ∈ dependents (full d) key -> (2 < length p)%nat -> default ""%string (p !! (length p - 2)%nat) ∈ reach.
Proof.
  intros Hp Hl. apply dependents_walk in Hp. inversion Hp as [|p' u v Hw Hv]; subst; [cbn in Hl; lia|].
  rewrite length_app in *. cbn in *. replace (length p' + 1 - 2)%nat with (length p' - 1)%nat by lia.
  rewrite lookup_app_l by lia.
  assert (p' !! (length p' - 1)%nat = Some u) as ->.
  { inversion Hw; subst; [done|]. rewrite length_app. cbn. rewrite lookup_app_r by lia.
    by replace (length p + 1 - 1 - length p)%nat with 0%nat by lia. }
  cbn. destruct (decide (u = key)) as [->|Hne]; [unfold reach; apply elem_of_reach; by left|].
  unfold reach. apply elem_of_reach. right. apply elem_of_dependents. split; [done|]. by exists p'.
Qed.

Lemma load_text k p :
  (k, p) ∈ dependents (full d) key -> _upstream_text lg key p = _upstream_text (full d) key p.
Proof.
  intros Hp. unfold _upstream_text. rewrite load_name by (unfold reach; apply elem_of_reach; by left).
  destruct (Nat.ltb_spec 2 (length p)) as [Hl|]; [|done]. by rewrite load_name by by eapply last_but_one_in_reach.
Qed.
End Load.

(** ** Working on the part is working on the whole *)

Lemma valid_reasons_stored l : valid_reasons (SReason <$> l) = l.
Proof. induction l as [|r l IH]; cbn; [done|]. unfold valid_reasons in IH. by rewrite IH. Qed.

Lemma nonempty_stored l : nonempty (SReason <$> l) = nonempty l.
Proof. by destruct l. Qed.

Lemma put_row_reasons k w d k' :
  row_reasons (put_row k w d) k' =
    if decide (k' = k) then (if w.(v_missing) then [] else valid_reasons w.(v_stale_reasons)) else row_reasons d k'.
Proof.
  unfold row_reasons, put_row, set_items. cbn [d_items]. case_decide as E; [subst; by rewrite lookup_insert_eq|by rewrite lookup_insert_ne].
Qed.

Lemma write_back_lookup g rows changed d k :
  (_write_back g rows changed d).(d_items) !! k =
    (fun w => if bool_decide (k ∈ changed) && bool_decide (is_Some (rows !! k)) then write_row g k w else w) <$> d.(d_items) !! k.
Proof. unfold _write_back, set_items. cbn [d_items]. rewrite map_lookup_imap. by destruct (d_items d !! k). Qed.

Lemma write_row_identity g k w : same_identity w (write_row g k w).
Proof. done. Qed.

Lemma same_identity_refl w : same_identity w w.
Proof. done. Qed.

Lemma same_identity_trans w1 w2 w3 : same_identity w1 w2 -> same_identity w2 w3 -> same_identity w1 w3.
Proof. unfold same_identity. intuition congruence. Qed.

(** Two databases with the same rows, up to what changes of a row. *)
Definition same_rows (R : row -> row -> Prop) (d d' : db) : Prop :=
  forall k, option_relation R (fun _ => False) (fun _ => False) (d.(d_items) !! k) (d'.(d_items) !! k).

Lemma same_rows_refl (R : row -> row -> Prop) d : (forall w, R w w) -> same_rows R d d.
Proof. intros H k. destruct (d_items d !! k); cbn; auto. Qed.

Lemma same_rows_trans (R : row -> row -> Prop) d1 d2 d3 :
  (forall w1 w2 w3, R w1 w2 -> R w2 w3 -> R w1 w3) -> same_rows R d1 d2 -> same_rows R d2 d3 -> same_rows R d1 d3.
Proof.
  intros H H1 H2 k. specialize (H1 k). specialize (H2 k).
  destruct (d_items d1 !! k), (d_items d2 !! k), (d_items d3 !! k); cbn in *; naive_solver.
Qed.

Lemma same_rows_put (R : row -> row -> Prop) d k w w' :
  (forall w, R w w) -> d.(d_items) !! k = Some w -> R w w' -> same_rows R d (put_row k w' d).
Proof.
  intros Hr Hw H k'. unfold put_row, set_items. cbn [d_items]. destruct (decide (k' = k)) as [->|Hne].
  - by rewrite Hw, lookup_insert_eq.
  - rewrite lookup_insert_ne by done. by apply same_rows_refl.
Qed.

Lemma write_back_same_rows (R : row -> row -> Prop) g rows changed d :
  (forall w, R w w) -> (forall k w, d.(d_items) !! k = Some w -> k ∈ changed -> R w (write_row g k w)) ->
  same_rows R d (_write_back g rows changed d).
Proof.
  intros Hr H k. rewrite write_back_lookup. destruct (d_items d !! k) as [w|] eqn:E; cbn; [|done].
  case_bool_decide; cbn; [|apply Hr]. case_match; [by apply H|apply Hr].
Qed.

Lemma write_back_reasons g d key changed k :
  edges_live d -> live d key ->
  row_reasons (_write_back g (load_graph d key).2 changed d) k =
    if decide (k ∈ changed /\ k ∈ reach_of (used_of d) key) then reasons_of g.(g_reasons) k else row_reasons d k.
Proof.
  intros He Hk. unfold row_reasons at 1. rewrite write_back_lookup. pose proof (load_rows d key He Hk k) as Hr.
  case_decide as H.
  - destruct H as [H1 H2]. destruct (reach_live d key k He Hk H2) as (w & Hw & Hm). rewrite Hw. cbn.
    rewrite !bool_decide_eq_true_2 by (done || by apply Hr). cbn [andb write_row with_clock v_missing v_stale_reasons].
    by rewrite Hm, valid_reasons_stored.
  - unfold row_reasons. destruct (d_items d !! k) as [w|]; cbn; [|done].
    case_bool_decide; cbn; [|done]. case_bool_decide; [|done]. destruct H. split; [done|by apply Hr].
Qed.

Section Local.
Context (d : db) (key : string) (He : edges_live d) (Hk : live d key) (Hs : Settled (full d)).
Let g := (load_graph d key).1.
Let rows := (load_graph d key).2.

Lemma key_in_reach : key ∈ reach_of (used_of d) key.
Proof. apply elem_of_reach. by left. Qed.

(** Every reason that started at [key] is within reach. *)
Lemma origin_in_reach k r : r ∈ row_reasons d k -> r.(r_origin) = key -> k ∈ reach_of (used_of d) key.
Proof.
  rewrite <- full_reasons. intros Hr Ho. destruct (inherited r) eqn:Ei.
  - destruct (st_sound _ _ Hs k r Hr Ei) as (_ & p & t & Hp & _). rewrite Ho in Hp. apply dep_path_spec in Hp.
    by eapply dependents_in_reach.
  - apply own_not_inherited in Ei. rewrite <- (st_own _ _ Hs k r Hr Ei), Ho. apply key_in_reach.
Qed.

Lemma filter_not_from_id l : (forall r, r ∈ l -> r.(r_origin) <> key) -> List.filter (not_from key) l = l.
Proof.
  intros H. induction l as [|r l IH]; cbn; [done|]. rewrite (proj2 (not_from_spec key r)) by (apply H; left).
  rewrite IH; [done|]. intros x Hx. apply H. by right.
Qed.

(** The review of the part clears what the review of the whole graph clears; [changed'] may leave the
    item itself out. *)
Lemma local_review changed' k :
  (k ∈ changed' -> k ∈ (mark_reviewed g key).2) -> (k <> key \/ key ∈ changed' -> k ∈ (mark_reviewed g key).2 -> k ∈ changed') ->
  row_reasons (_write_back (mark_reviewed g key).1 rows changed' d) k =
    if decide (k = key /\ key ∉ changed') then row_reasons d k else List.filter (not_from key) (row_reasons d k).
Proof.
  intros Hin Hout. unfold rows. rewrite write_back_reasons by done. rewrite mark_reviewed_changed in Hin, Hout.
  assert (k ∉ reach_of (used_of d) key -> List.filter (not_from key) (row_reasons d k) = row_reasons d k) as Houtside.
  { intros Hn. apply filter_not_from_id. intros r Hr Ho. by apply Hn, (origin_in_reach k r). }
  destruct (decide (k ∈ changed' /\ _)) as [[Hc Hr]|Hnot]; case_decide as Hkey.
  - destruct Hkey as [-> ?]. done.
  - rewrite mark_reviewed_reasons. unfold g. by rewrite load_reasons.
  - done.
  - symmetry. destruct (decide (k ∈ reach_of (used_of d) key)) as [Hr|]; [|by apply Houtside].
    apply filter_not_from_id. intros r Hin' Ho. apply Hnot. split; [|done]. apply Hout.
    + destruct (decide (k = key)) as [->|]; [right|by left]. destruct (decide (key ∈ changed')); [done|]. by destruct Hkey.
    + exists r. unfold g. by rewrite load_reasons.
Qed.

(** The flag pushed over the part is the flag pushed over the whole graph. *)
Lemma local_flag text source kind at_ g' changed :
  flag_stale g key text source kind at_ = Ok (g', changed) ->
  exists h ch, flag_stale (full d) key text source kind at_ = Ok (h, ch) /\
    forall k, row_reasons (_write_back g' rows changed d) k = reasons_of h.(g_reasons) k.
Proof.
  intros H.
  assert (exists h ch, flag_stale (full d) key text source kind at_ = Ok (h, ch)) as (h & ch & Hh).
  { revert H. unfold flag_stale. case_bool_decide; [|done]. intros _.
    match goal with |- context [let '(_, _) := ?x in _] => destruct x as [m c] end.
    case_bool_decide; [by eexists _, _|]. destruct (_push _ _ _ _). by eexists _, _. }
  exists h, ch. split; [done|]. intros k. unfold rows. rewrite write_back_reasons by done.
  destruct (flag_stale_reasons _ _ _ _ _ _ _ _ k H) as (_ & Hr & Hun).
  destruct (flag_stale_reasons _ _ _ _ _ _ _ _ k Hh) as (_ & Hr' & _).
  destruct (decide (k ∈ reach_of (used_of d) key)) as [Hin|Hout].
  - assert (reasons_of g'.(g_reasons) k = reasons_of h.(g_reasons) k) as Heq.
    { rewrite Hr, Hr'. unfold g. rewrite load_reasons, full_reasons by done.
      rewrite (bool_decide_ext _ _ (load_retired d key)). f_equal. case_bool_decide; [done|].
      unfold pushed. change (dep_path (load_graph d key).1 key k) with (dep_path (full d) key k).
      destruct (dep_path (full d) key k) as [p|] eqn:Ep; [|done]. apply dep_path_spec in Ep.
      by rewrite (load_text d key Hk k p Ep). }
    destruct (decide (k ∈ changed /\ k ∈ reach_of (used_of d) key)) as [_|Hc]; [exact Heq|].
    assert (k ∉ changed) as Hn by tauto. rewrite <- Heq, (Hun Hn).
    unfold g. by rewrite load_reasons.
  - rewrite decide_False by tauto. rewrite Hr', full_reasons.
    assert (k <> key) as Hne by (intros ->; apply Hout, key_in_reach). rewrite decide_False by done.
    case_bool_decide; [by rewrite app_nil_r|]. unfold pushed.
    destruct (dep_path (full d) key k) as [p|] eqn:Ep; [|by rewrite app_nil_r].
    apply dep_path_spec, dependents_in_reach in Ep. done.
Qed.
End Local.

(** ** What the service does *)

Lemma refresh_reasons_exact id days at_ w :
  valid_reasons (v_stale_reasons (refresh_clock id days at_ w).1) =
  overdue_list id (overdue_text (due_at (default at_ w.(v_created_at)) w.(v_last_reviewed_at) days) at_) at_
    (valid_reasons w.(v_stale_reasons)).
Proof.
  unfold refresh_clock. set (text := overdue_text _ _). set (g := mk_graph _ _ _ _).
  assert (reasons_of g.(g_reasons) id = valid_reasons w.(v_stale_reasons)) as Hg
    by (unfold g; cbn [mk_graph g_reasons]; by rewrite lookup_fmap, lookup_singleton_eq).
  pose proof (set_overdue_list g id text at_) as H1. pose proof (set_overdue_unchanged g id text at_) as H2.
  destruct (set_overdue g id text at_) as [g' [|]]; cbn in *; rewrite <- Hg.
  - by rewrite valid_reasons_stored, H1, with_item_reasons, decide_True.
  - by rewrite H2.
Qed.

Lemma refresh_reasons id days at_ w :
  refreshed id (valid_reasons w.(v_stale_reasons)) (valid_reasons (v_stale_reasons (refresh_clock id days at_ w).1)).
Proof. right. rewrite refresh_reasons_exact. by eexists _, _. Qed.

Lemma refresh_identity id days at_ w : same_identity w (refresh_clock id days at_ w).1.
Proof. unfold refresh_clock. destruct (set_overdue _ _ _ _). done. Qed.

Lemma refresh_marked id days at_ w :
  w.(v_stale) = nonempty w.(v_stale_reasons) ->
  v_stale (refresh_clock id days at_ w).1 = nonempty (v_stale_reasons (refresh_clock id days at_ w).1).
Proof. intros H. unfold refresh_clock. destruct (set_overdue _ _ _ _) as [g' [|]]; cbn; [done|done]. Qed.

Inductive service_op :=
| OpReview (u : user) (key note : string) (at_ : Z)
| OpAssign (u : user) (key : string) (reviewer : option string)
| OpRetire (u : user) (key reason : string) (at_ : Z)
| OpUpdate (u : user) (key : string) (b : update) (at_ : Z)
| OpFlag (key text source kind : string) (at_ : Z)   (* other services, on their content *)
| OpSetCycle (u : user) (item_type : string) (days : Z) (platform_wide : bool) (at_ : Z)
| OpCreateTheme (u : user) (id name colour : string) (ordinal : Z) (platform_wide : bool)
| OpUpdateTheme (u : user) (id name colour : string) (ordinal : Z) (platform_wide : bool)
| OpDeleteTheme (u : user) (id : string).

(** A refused request rolls back. *)
Definition committed {E} (d : db) (r : result E db) : db := match r with Ok d' => d' | Err _ => d end.
Definition serve (d : db) (o : service_op) : db :=
  match o with
  | OpReview u key note at_ => match review_item d u key note at_ with Ok (d', _) => d' | Err _ => d end
  | OpAssign u key reviewer => committed d (assign_reviewer d u key reviewer)
  | OpRetire u key reason at_ => committed d (retire d u key reason at_)
  | OpUpdate u key b at_ => committed d (update_item d u key b at_)
  | OpFlag key text source kind at_ => match flag_item d key text source kind at_ with Ok (d', _) => d' | Err _ => d end
  | OpSetCycle u item_type days pw at_ => committed d (set_cycle d u item_type days pw at_)
  | OpCreateTheme u id name colour ordinal pw => committed d (create_theme d u id name colour ordinal pw)
  | OpUpdateTheme u id name colour ordinal pw => committed d (update_theme d u id name colour ordinal pw)
  | OpDeleteTheme u id => committed d (delete_theme d u id)
  end.

(** The permission each route asks for ([router.py]); other services' flags come by no route. *)
Definition route_allows (o : service_op) : bool :=
  match o with
  | OpReview u _ _ _ | OpAssign u _ _ => u.(u_own) || u.(u_admin)
  | OpRetire u _ _ _ | OpUpdate u _ _ _ | OpSetCycle u _ _ _ _ | OpCreateTheme u _ _ _ _ _ | OpUpdateTheme u _ _ _ _ _
  | OpDeleteTheme u _ => u.(u_admin)
  | OpFlag _ _ _ _ _ => true
  end.
Definition run_op (d : db) (o : service_op) : db := if route_allows o then serve d o else d.

(** Taking apart the outcome of a request. *)
Lemma get_visible_ok d u key w :
  get_visible d u key = Ok w -> d.(d_items) !! key = Some w /\ visible u w = true /\ w.(v_missing) = false /\ live d key.
Proof.
  unfold get_visible. destruct (d_items d !! key) as [x|] eqn:E; [|done]. destruct (visible u x) eqn:Ev; [|done].
  intros [= ->]. split; [done|]. split; [done|]. unfold visible in Ev. reflect_bools. split; [done|by exists w].
Qed.

(** What a committed request did, in terms of the whole graph. *)
Lemma review_item_ok d u key note at_ d' changed :
  review_item d u key note at_ = Ok (d', changed) ->
  exists w w1, get_visible d u key = Ok w /\ can_review u w = true /\ w.(v_retired) = false /\
    let d1 := _write_back (mark_reviewed (load_graph d key).1 key).1 (load_graph d key).2 (mark_reviewed (load_graph d key).1 key).2 d in
    d1.(d_items) !! key = Some w1 /\
    d'.(d_items) = (put_row key (refresh_clock key (for_row d.(d_cycles) (with_review at_ u.(u_id) w1)) at_
                                   (with_review at_ u.(u_id) w1)).1 d1).(d_items) /\
    d'.(d_edges) = d.(d_edges).
Proof.
  intros H. unfold review_item in H. ok_steps H. unfold require_review in Hx0. ok_steps Hx0.
  destruct (load_graph d key) as [g rows] eqn:El. destruct (mark_reviewed g key) as [g' ch] eqn:Em.
  destruct (get_visible_ok _ _ _ _ Hx) as (Hw & _ & _ & _). cbn [fst snd]. rewrite Em. cbn [fst snd] in *.
  destruct (d_items (_write_back g' rows ch d) !! key) as [w1|] eqn:E1; [|by rewrite write_back_lookup, Hw in E1].
  cbn zeta in H. injection H as <- <-.
  exists x, w1. split; [done|]. split; [done|]. split; [by apply negb_true_iff|]. split; [done|]. split; reflexivity.
Qed.

(** *** What is stale is marked stale *)

Definition marked (d : db) : Prop := forall k w, d.(d_items) !! k = Some w -> w.(v_stale) = nonempty w.(v_stale_reasons).

Lemma marked_put d k w : marked d -> w.(v_stale) = nonempty w.(v_stale_reasons) -> marked (put_row k w d).
Proof.
  intros H Hw k' w'. unfold put_row, set_items. cbn [d_items]. destruct (decide (k' = k)) as [->|Hne].
  - rewrite lookup_insert_eq. by intros [= <-].
  - rewrite lookup_insert_ne by done. apply H.
Qed.
Lemma marked_write_back g rows changed d : marked d -> marked (_write_back g rows changed d).
Proof.
  intros H k w. rewrite write_back_lookup. destruct (d_items d !! k) as [x|] eqn:E; [|done]. cbn.
  intros [= <-]. case_match; [done|by apply (H k)].
Qed.
Lemma marked_items d d' : d'.(d_items) = d.(d_items) -> marked d -> marked d'.
Proof. intros E H k w. rewrite E. apply H. Qed.

(** The other requests, the same way. *)
Lemma assign_ok d u key reviewer d' :
  assign_reviewer d u key reviewer = Ok d' ->
  exists w, get_visible d u key = Ok w /\ can_assign u w = true /\ w.(v_retired) = false /\
    d'.(d_items) = (put_row key (bump (with_people w.(v_owner) reviewer w)) d).(d_items) /\ d'.(d_edges) = d.(d_edges).
Proof.
  intros H. unfold assign_reviewer in H. ok_steps H. injection H as <-. exists x.
  do 2 (split; [done|]). split; [by apply negb_true_iff|]. by split.
Qed.

Lemma retire_ok d u key reason at_ d' :
  retire d u key reason at_ = Ok d' ->
  exists w, get_visible d u key = Ok w /\ can_admin u w = true /\ w.(v_retired) = false /\
    let m := mark_reviewed (load_graph d key).1 key in
    d'.(d_items) = (put_row key (bump (with_retired at_ u.(u_id) w))
                      (_write_back m.1 (load_graph d key).2 (m.2 ∖ {[key]}) d)).(d_items) /\
    d'.(d_edges) = d.(d_edges).
Proof.
  intros H. unfold retire in H. ok_steps H. unfold require_admin in Hx0. ok_steps Hx0.
  destruct (load_graph d key) as [g rows]. destruct (mark_reviewed g key) as [g' ch] eqn:Em. cbn zeta in H.
  injection H as <-. exists x. do 2 (split; [done|]). split; [by apply negb_true_iff|]. cbn [fst snd]. rewrite Em. by split.
Qed.

Lemma update_ok d u key b at_ d' :
  update_item d u key b at_ = Ok d' ->
  exists w owner themes cycle days, get_visible d u key = Ok w /\ can_admin u w = true /\
    d'.(d_items) = (put_row key (refresh_clock key days at_
                      (bump (with_themes_cycle themes cycle (with_people owner w.(v_reviewer) w)))).1 d).(d_items) /\
    d'.(d_edges) = d.(d_edges).
Proof.
  intros H. unfold update_item in H. ok_steps H. unfold require_admin in Hx0. ok_steps Hx0. injection H as <-.
  eexists x, _, _, _, _. do 2 (split; [done|]). split; reflexivity.
Qed.

Lemma set_cycle_ok d u item_type days pw at_ d' :
  set_cycle d u item_type days pw at_ = Ok d' ->
  exists tenant cycles, _theme_scope u pw = Ok tenant /\ u.(u_admin) = true /\
    d'.(d_items) = map_imap (fun k w =>
      Some (if ruled_by tenant item_type w then (refresh_clock k (for_row cycles w) at_ w).1 else w)) d.(d_items) /\
    d'.(d_edges) = d.(d_edges).
Proof.
  intros H. unfold set_cycle in H. ok_steps H. injection H as <-. eexists x, _. do 2 (split; [done|]). split; reflexivity.
Qed.

Lemma create_theme_ok d u id name colour ordinal pw d' :
  create_theme d u id name colour ordinal pw = Ok d' -> d'.(d_items) = d.(d_items) /\ d'.(d_edges) = d.(d_edges).
Proof. intros H. unfold create_theme in H. ok_steps H. injection H as <-. done. Qed.

Lemma update_theme_ok d u id name colour ordinal pw d' :
  update_theme d u id name colour ordinal pw = Ok d' -> d'.(d_items) = d.(d_items) /\ d'.(d_edges) = d.(d_edges).
Proof. intros H. unfold update_theme in H. ok_steps H. injection H as <-. done. Qed.

Lemma delete_theme_ok d u id d' :
  delete_theme d u id = Ok d' ->
  exists t, editable_theme d u id = Ok t /\ d'.(d_items) = fmap (M := gmap string) (untag (h_tenant t) id) d.(d_items) /\
    d'.(d_edges) = d.(d_edges).
Proof. intros H. unfold delete_theme in H. ok_steps H. injection H as <-. by exists x. Qed.

Lemma flag_item_ok d key text source kind at_ d' changed :
  flag_item d key text source kind at_ = Ok (d', changed) ->
  is_Some ((load_graph d key).2 !! key) /\ exists g',
    flag_stale (load_graph d key).1 key text source kind at_ = Ok (g', changed) /\
    d' = _write_back g' (load_graph d key).2 changed d.
Proof.
  intros H. unfold flag_item in H. destruct (load_graph d key) as [g rows]. case_bool_decide; [|done].
  destruct (flag_stale _ _ _ _ _ _) as [[g' ch]|] eqn:E; [|done]. injection H as <- <-. split; [done|]. by exists g'.
Qed.

Lemma load_key_live d key : is_Some ((load_graph d key).2 !! key) -> live d key.
Proof.
  intros [w H]. unfold load_graph, lock_rows in H. cbn [snd] in H. apply map_lookup_filter_Some in H as [? [_ ?]]. by exists w.
Qed.

(** [serve] by cases: nothing, or what the request did. *)
Ltac by_op o :=
  destruct o as [u key note at_|u key reviewer|u key reason at_|u key b at_|key text source kind at_|u ty days pw at_|
                 u id name colour ordinal pw|u id name colour ordinal pw|u id]; cbn [serve committed].

Lemma untag_marked scope id w : w.(v_stale) = nonempty w.(v_stale_reasons) -> v_stale (untag scope id w) = nonempty (v_stale_reasons (untag scope id w)).
Proof. unfold untag. by case_match. Qed.

Lemma serve_marked d o : marked d -> marked (serve d o).
Proof.
  intros Hm. by_op o.
  - destruct (review_item _ _ _ _ _) as [[d' ch]|] eqn:E; [|done].
    apply review_item_ok in E as (w & w1 & _ & _ & _ & Hw1 & Hi & _).
    eapply marked_items; [exact Hi|]. apply marked_put; [by apply marked_write_back|].
    apply refresh_marked. exact (marked_write_back _ _ _ _ Hm key w1 Hw1).
  - destruct (assign_reviewer _ _ _ _) as [d'|] eqn:E; [|done].
    apply assign_ok in E as (w & Hv & _ & _ & Hi & _). destruct (get_visible_ok _ _ _ _ Hv) as (Hw & _).
    eapply marked_items; [exact Hi|]. apply marked_put; [done|]. exact (Hm key w Hw).
  - destruct (retire _ _ _ _ _) as [d'|] eqn:E; [|done].
    apply retire_ok in E as (w & Hv & _ & _ & Hi & _). destruct (get_visible_ok _ _ _ _ Hv) as (Hw & _).
    eapply marked_items; [exact Hi|]. apply marked_put; [by apply marked_write_back|]. exact (Hm key w Hw).
  - destruct (update_item _ _ _ _ _) as [d'|] eqn:E; [|done].
    apply update_ok in E as (w & owner & themes & cycle & days & Hv & _ & Hi & _). destruct (get_visible_ok _ _ _ _ Hv) as (Hw & _).
    eapply marked_items; [exact Hi|]. apply marked_put; [done|]. apply refresh_marked. exact (Hm key w Hw).
  - destruct (flag_item _ _ _ _ _ _) as [[d' ch]|] eqn:E; [|done].
    apply flag_item_ok in E as (_ & g' & _ & ->). by apply marked_write_back.
  - destruct (set_cycle _ _ _ _ _ _) as [d'|] eqn:E; [|done].
    apply set_cycle_ok in E as (tenant & cycles & _ & _ & Hi & _). intros k w. cbn [committed]. rewrite Hi, map_lookup_imap.
    destruct (d_items d !! k) as [x|] eqn:Ex; [|done]. intros [= <-].
    case_match; [apply refresh_marked; exact (Hm k x Ex)|exact (Hm k x Ex)].
  - destruct (create_theme _ _ _ _ _ _ _) as [d'|] eqn:E; [|done]. apply create_theme_ok in E as [Hi _]. by eapply marked_items.
  - destruct (update_theme _ _ _ _ _ _ _) as [d'|] eqn:E; [|done]. apply update_theme_ok in E as [Hi _]. by eapply marked_items.
  - destruct (delete_theme _ _ _) as [d'|] eqn:E; [|done]. apply delete_theme_ok in E as (t & _ & Hi & _).
    intros k w. cbn [committed]. rewrite Hi, lookup_fmap. destruct (d_items d !! k) as [x|] eqn:Ex; [|done]. intros [= <-].
    apply untag_marked. exact (Hm k x Ex).
Qed.

(** *** The inherited reasons stay right *)

Lemma settled_rows d d' :
  same_rows same_identity d d' -> d'.(d_edges) = d.(d_edges) ->
  (forall k, refreshed k (row_reasons d k) (row_reasons d' k)) -> Settled (full d) -> Settled (full d').
Proof.
  intros Hr He H. apply settled_refreshed; [by apply full_frame|]. intros k. by rewrite !full_reasons.
Qed.

Lemma edges_live_rows d d' :
  same_rows (fun w w' => v_missing w' = v_missing w) d d' -> d'.(d_edges) = d.(d_edges) -> edges_live d -> edges_live d'.
Proof.
  intros Hr He Hl e. rewrite He. assert (forall k, live d k -> live d' k) as H.
  { intros k (w & Hw & Hm). specialize (Hr k). rewrite Hw in Hr. destruct (d_items d' !! k) as [w'|] eqn:E; [|done].
    exists w'. split; [done|]. cbn in Hr. congruence. }
  intros [? ?]%Hl. split; by apply H.
Qed.

Lemma same_identity_rows d d' :
  same_rows same_identity d d' -> same_rows (fun w w' => v_missing w' = v_missing w) d d'.
Proof. intros H k. specialize (H k). destruct (d_items d !! k), (d_items d' !! k); cbn in *; try done. by destruct H as (_ & _ & ? & _). Qed.

Lemma same_rows_items R d d' d'' : d''.(d_items) = d'.(d_items) -> same_rows R d d' -> same_rows R d d''.
Proof. intros E H k. rewrite E. apply H. Qed.
Lemma row_reasons_items d d' k : d'.(d_items) = d.(d_items) -> row_reasons d' k = row_reasons d k.
Proof. unfold row_reasons. by intros ->. Qed.
Lemma row_reasons_at d k w : d.(d_items) !! k = Some w -> w.(v_missing) = false -> row_reasons d k = valid_reasons w.(v_stale_reasons).
Proof. unfold row_reasons. by intros -> ->. Qed.

(** A put of one row, whose clock reason alone may differ. *)
Lemma put_refreshed d d' key w w' :
  d.(d_items) !! key = Some w -> d'.(d_items) = (put_row key w' d).(d_items) -> d'.(d_edges) = d.(d_edges) ->
  same_identity w w' -> refreshed key (valid_reasons w.(v_stale_reasons)) (valid_reasons w'.(v_stale_reasons)) ->
  same_rows same_identity d d' /\ (Settled (full d) -> Settled (full d')).
Proof.
  intros Hw Hi He Hid Hr.
  assert (same_rows same_identity d d') as Hrows.
  { eapply same_rows_items; [exact Hi|]. by eapply same_rows_put. }
  split; [done|]. apply settled_rows; [done|done|]. intros k. rewrite (row_reasons_items (put_row key w' d) d' k) by done.
  rewrite put_row_reasons. case_decide as E; [subst k|by left].
  destruct Hid as (_ & _ & Hm & _). unfold row_reasons. rewrite Hw, Hm. destruct (v_missing w); [by left|done].
Qed.

Lemma review_graph d key :
  edges_live d -> live d key -> Settled (full d) ->
  mark_reviewed (full d) key = ((mark_reviewed (full d) key).1, (mark_reviewed (full d) key).2) /\
  (mark_reviewed (full d) key).1 ≡
    full (_write_back (mark_reviewed (load_graph d key).1 key).1 (load_graph d key).2 (mark_reviewed (load_graph d key).1 key).2 d).
Proof.
  intros He Hk Hs. split; [done|]. split.
  - apply (full_frame d); [|done]. by apply write_back_same_rows.
  - intros k. rewrite full_reasons, (local_review d key He Hk Hs) by tauto. rewrite mark_reviewed_reasons, full_reasons.
    case_decide as H; [|done]. destruct H as [-> Hn]. symmetry. apply filter_not_from_id. intros r Hr Ho. apply Hn.
    rewrite mark_reviewed_changed. exists r. split; [|done]. rewrite load_reasons; [done|apply key_in_reach].
Qed.

(** Retirement: what the item pushed is gone, and it is a source no more. *)
Lemma retired_settled g g' key :
  g'.(g_used_by) = g.(g_used_by) -> g'.(g_names) = g.(g_names) ->
  (forall k, k ∈ g'.(g_retired) <-> k = key \/ k ∈ g.(g_retired)) ->
  (forall k, reasons_of g'.(g_reasons) k =
     if decide (k = key) then reasons_of g.(g_reasons) k else List.filter (not_from key) (reasons_of g.(g_reasons) k)) ->
  Settled g -> Settled g'.
Proof.
  intros Hu Hn Hret Hrs [Hown Hclock Hone Hsound Hcomp].
  assert (forall o k, dep_path g' o k = dep_path g o k) as Hdep by (intros; unfold dep_path, dependents; by rewrite Hu).
  assert (forall o p, _upstream_text g' o p = _upstream_text g o p) as Htext by (intros; unfold _upstream_text, _name; by rewrite Hn).
  assert (forall k r, r ∈ reasons_of g'.(g_reasons) k <-> r ∈ reasons_of g.(g_reasons) k /\ (k = key \/ r.(r_origin) <> key)) as Hin.
  { intros k r. rewrite Hrs. case_decide; [tauto|]. rewrite elem_of_lfilter, not_from_spec. tauto. }
  assert (forall o, source_of g' o <-> o <> key /\ source_of g o) as Hsrc.
  { intros o. unfold source_of, flagged. setoid_rewrite Hret. setoid_rewrite Hin. naive_solver. }
  split.
  - intros k r [Hr _]%Hin. by apply Hown.
  - intros k. rewrite Hrs. case_decide; [apply Hclock|]. etrans; [apply length_filter_filter|apply Hclock].
  - intros k. rewrite Hrs. case_decide; [apply Hone|]. rewrite filter_comm. eapply sublist_NoDup; [apply (Hone k)|].
    apply fmap_sublist, sublist_lfilter.
  - intros k r [Hr Hor]%Hin Hi. destruct (Hsound k r Hr Hi) as (Hs & p & t & Hp & E). split.
    + apply Hsrc. split; [|done]. destruct Hor as [->|?]; [|done]. intros Ho. by rewrite Ho, dep_path_self in Hp.
    + exists p, t. by rewrite Hdep, Htext.
  - intros o k _ [Hne Hs]%Hsrc Hd. rewrite Hdep in Hd. destruct (Hcomp o k I Hs Hd) as (r & Hr & Hi & Ho).
    exists r. rewrite Hin. split; [|done]. split; [done|]. right. by rewrite Ho.
Qed.

Definition same_title (w w' : row) : Prop :=
  v_item_type w' = v_item_type w /\ v_title w' = v_title w /\ v_missing w' = v_missing w.

Lemma full_names d d' : same_rows same_title d d' -> (full d').(g_names) = (full d).(g_names).
Proof.
  intros H. unfold full, graph_of. cbn [mk_graph g_names]. apply map_eq. intros k. rewrite !lookup_fmap. unfold live_rows.
  rewrite !map_lookup_filter. specialize (H k). destruct (d_items d !! k) as [w|], (d_items d' !! k) as [w'|]; cbn in *; try done.
  destruct H as (Ht & Hn & Hm). rewrite Hm. case_guard; cbn; [|done]. by rewrite Ht, Hn.
Qed.

Lemma retire_graph d key w w' d' :
  edges_live d -> d.(d_items) !! key = Some w -> w.(v_missing) = false -> Settled (full d) ->
  let m := mark_reviewed (load_graph d key).1 key in
  let d1 := _write_back m.1 (load_graph d key).2 (m.2 ∖ {[key]}) d in
  same_title w w' -> v_stale_reasons w' = v_stale_reasons w -> v_retired w' = true ->
  d'.(d_items) = (put_row key w' d1).(d_items) -> d'.(d_edges) = d.(d_edges) ->
  same_rows same_title d d' /\ Settled (full d').
Proof.
  intros He Hw Hm Hs m d1 Ht Hsr Hret Hi Hed. assert (live d key) as Hk by by exists w.
  assert (d1.(d_items) !! key = Some w) as Hw1.
  { unfold d1. rewrite write_back_lookup, Hw. cbn. by rewrite bool_decide_eq_false_2 by set_solver. }
  assert (same_rows same_title d d') as Hrows.
  { eapply same_rows_items; [exact Hi|]. eapply same_rows_trans; [unfold same_title; intuition congruence| |].
    - by apply (write_back_same_rows same_title).
    - by eapply same_rows_put. }
  split; [done|]. eapply (retired_settled (full d) _ key); [by unfold full, used_of; rewrite Hed|by apply full_names| | |done].
  - intros k. rewrite !full_retired, Hi. unfold put_row, set_items. cbn [d_items]. destruct (decide (k = key)) as [->|Hne].
    + rewrite lookup_insert_eq. destruct Ht as (_ & _ & Hm'). split; [by left|]. intros _. exists w'. by rewrite Hm', Hm.
    + rewrite lookup_insert_ne by done. unfold d1. rewrite write_back_lookup.
      destruct (d_items d !! k) as [x|]; cbn; [|naive_solver].
      split; [intros (y & [= <-] & H)|intros [?|(y & [= <-] & H)]; [done|]].
      * right. exists x. split; [done|]. by case_match.
      * eexists. split; [done|]. by case_match.
  - intros k. rewrite !full_reasons, (row_reasons_items (put_row key w' d1) d' k) by done. rewrite put_row_reasons.
    case_decide as E.
    + subst k. destruct Ht as (_ & _ & Hm'). by rewrite Hm', Hm, Hsr, (row_reasons_at d key w).
    + unfold d1, m. rewrite (local_review d key He Hk Hs); [by rewrite decide_False by tauto|set_solver|].
      intros _ Hin. set_solver.
Qed.

(** The state the theorems keep: edges between rows that are there, and settled reasons. *)
Definition clock_ok (d : db) : Prop := edges_live d /\ Settled (full d).

Lemma clock_ok_identity d d' :
  same_rows same_identity d d' -> d'.(d_edges) = d.(d_edges) -> (edges_live d -> Settled (full d) -> Settled (full d')) ->
  clock_ok d -> clock_ok d'.
Proof. intros Hr He H [Hl Hs]. split; [by eapply edges_live_rows; [apply same_identity_rows|..]|by apply H]. Qed.

Lemma clock_ok_items d d' : d'.(d_items) = d.(d_items) -> d'.(d_edges) = d.(d_edges) -> clock_ok d -> clock_ok d'.
Proof.
  intros Hi He. apply clock_ok_identity; [|done|].
  - intros k. rewrite Hi. by apply same_rows_refl.
  - intros _. unfold full, live_rows, used_of. by rewrite Hi, He.
Qed.

Lemma clock_ok_review d key :
  live d key -> clock_ok d ->
  clock_ok (_write_back (mark_reviewed (load_graph d key).1 key).1 (load_graph d key).2 (mark_reviewed (load_graph d key).1 key).2 d).
Proof.
  intros Hk. apply clock_ok_identity; [by apply write_back_same_rows|done|]. intros He Hs.
  destruct (review_graph d key He Hk Hs) as [_ H]. eapply settled_proper; [symmetry; exact H|]. by apply mark_reviewed_settled.
Qed.

Lemma serve_clock_ok d o : clock_ok d -> clock_ok (serve d o).
Proof.
  intros Hc. by_op o.
  - destruct (review_item _ _ _ _ _) as [[d' ch]|] eqn:E; [|done].
    apply review_item_ok in E as (w & w1 & Hv & _ & _ & Hw1 & Hi & He).
    destruct (get_visible_ok _ _ _ _ Hv) as (_ & _ & _ & Hk). pose proof (clock_ok_review d key Hk Hc) as H1.
    set (d1 := _write_back _ _ _ _) in *.
    destruct (put_refreshed d1 d' key w1 _ Hw1 Hi He) as [Hr Hs]; [exact (refresh_identity key _ at_ (with_review at_ (u_id u) w1))
      |exact (refresh_reasons key _ at_ (with_review at_ (u_id u) w1))|].
    by apply (clock_ok_identity d1).
  - destruct (assign_reviewer _ _ _ _) as [d'|] eqn:E; [|done].
    apply assign_ok in E as (w & Hv & _ & _ & Hi & He). destruct (get_visible_ok _ _ _ _ Hv) as (Hw & _).
    destruct (put_refreshed d d' key w _ Hw Hi He) as [Hr Hs]; [done|by left|]. by apply (clock_ok_identity d).
  - destruct (retire _ _ _ _ _) as [d'|] eqn:E; [|done].
    apply retire_ok in E as (w & Hv & _ & _ & Hi & He). destruct (get_visible_ok _ _ _ _ Hv) as (Hw & _ & Hm & _).
    destruct Hc as [Hl Hs]. destruct (retire_graph d key w (bump (with_retired at_ (u_id u) w)) d' Hl Hw Hm Hs) as [Hr H]; [done..|].
    split; [|done]. eapply edges_live_rows; [|exact He|exact Hl]. intros k. specialize (Hr k). cbn [committed].
    destruct (d_items d !! k), (d_items d' !! k); cbn in *; try done. by destruct Hr as (_ & _ & ?).
  - destruct (update_item _ _ _ _ _) as [d'|] eqn:E; [|done].
    apply update_ok in E as (w & owner & themes & cycle & days & Hv & _ & Hi & He). destruct (get_visible_ok _ _ _ _ Hv) as (Hw & _).
    destruct (put_refreshed d d' key w _ Hw Hi He) as [Hr Hs]; [| |].
    { exact (refresh_identity key days at_ (bump (with_themes_cycle themes cycle (with_people owner (v_reviewer w) w)))). }
    { exact (refresh_reasons key days at_ (bump (with_themes_cycle themes cycle (with_people owner (v_reviewer w) w)))). }
    by apply (clock_ok_identity d).
  - destruct (flag_item _ _ _ _ _ _) as [[d' ch]|] eqn:E; [|done].
    apply flag_item_ok in E as (Hin & g' & Hg & ->). apply load_key_live in Hin.
    revert Hc. apply clock_ok_identity; [by apply write_back_same_rows|done|]. intros He Hs.
    destruct (local_flag d key He Hin text source kind at_ g' ch Hg) as (h & c & Hh & Hr).
    pose proof (flag_stale_settled _ _ _ _ _ _ _ _ Hs Hh) as Hsh. eapply settled_proper; [|exact Hsh].
    destruct (flag_stale_reasons _ _ _ _ _ _ _ _ key Hh) as (Hf & _). split.
    + destruct (full_frame d (_write_back g' (load_graph d key).2 ch d)) as (Hu & Hn & Hret); [by apply write_back_same_rows|done|].
      destruct Hf as (Hu' & Hn' & Hret'). split; [congruence|]. split; congruence.
    + intros k. rewrite full_reasons. symmetry. apply Hr.
  - destruct (set_cycle _ _ _ _ _ _) as [d'|] eqn:E; [|done].
    apply set_cycle_ok in E as (tenant & cycles & _ & _ & Hi & He). cbn [committed].
    assert (same_rows same_identity d d') as Hr.
    { intros k. rewrite Hi, map_lookup_imap. destruct (d_items d !! k) as [x|]; cbn; [|done]. case_match; [apply refresh_identity|done]. }
    revert Hc. apply clock_ok_identity; [done|done|]. intros _. apply settled_rows; [done|done|].
    intros k. unfold row_reasons. rewrite Hi, map_lookup_imap. destruct (d_items d !! k) as [x|]; cbn; [|by left].
    destruct (ruled_by tenant ty x); [|by left]. destruct (refresh_identity k (for_row cycles x) at_ x) as (_ & _ & -> & _).
    destruct (v_missing x); [by left|apply refresh_reasons].
  - destruct (create_theme _ _ _ _ _ _ _) as [d'|] eqn:E; [|done]. apply create_theme_ok in E as [Hi He]. by apply (clock_ok_items d).
  - destruct (update_theme _ _ _ _ _ _ _) as [d'|] eqn:E; [|done]. apply update_theme_ok in E as [Hi He]. by apply (clock_ok_items d).
  - destruct (delete_theme _ _ _) as [d'|] eqn:E; [|done]. apply delete_theme_ok in E as (t & _ & Hi & He). cbn [committed].
    assert (forall w, same_identity w (untag (h_tenant t) id w) /\ v_stale_reasons (untag (h_tenant t) id w) = v_stale_reasons w) as Hu
      by (intros w; unfold untag; by case_match).
    revert Hc. apply clock_ok_identity; [|done|].
    + intros k. rewrite Hi, lookup_fmap. destruct (d_items d !! k) as [x|]; cbn; [apply Hu|done].
    + intros _. apply settled_rows; [|done|].
      * intros k. rewrite Hi, lookup_fmap. destruct (d_items d !! k) as [x|]; cbn; [apply Hu|done].
      * intros k. left. unfold row_reasons. rewrite Hi, lookup_fmap. destruct (d_items d !! k) as [x|]; cbn; [|done].
        destruct (Hu x) as [(_ & _ & -> & _) ->]. done.
Qed.

(** ** The theorems *)

Lemma run_op_marked d o : marked d -> marked (run_op d o).
Proof. unfold run_op. case_match; [apply serve_marked|done]. Qed.
Lemma run_op_clock_ok d o : clock_ok d -> clock_ok (run_op d o).
Proof. unfold run_op. case_match; [apply serve_clock_ok|done]. Qed.
Lemma run_ops_ok ops d : clock_ok d -> marked d -> clock_ok (foldl run_op d ops) /\ marked (foldl run_op d ops).
Proof.
  revert d. induction ops as [|o ops IH]; intros d Hc Hm; [done|]. apply IH; [by apply run_op_clock_ok|by apply run_op_marked].
Qed.

(** C25: whatever requests are served, in whatever order, a row is marked stale exactly when it has reasons,
    and a row that is there carries an inherited reason of an origin exactly when the origin is there,
    flagged and not retired, and the edges lead from it to the row. *)
Theorem stale_rows_right d ops :
  edges_live d -> Settled (full d) -> marked d ->
  let d' := foldl run_op d ops in
  (forall k w, d'.(d_items) !! k = Some w -> w.(v_stale) = nonempty w.(v_stale_reasons)) /\
  (forall k o, (exists r, r ∈ row_reasons d' k /\ inherited r = true /\ r.(r_origin) = o) <->
     (exists r, r ∈ row_reasons d' o /\ r.(r_origin) = o /\ r.(r_kind) ∈ FLAG_KINDS) /\
     (forall w, d'.(d_items) !! o = Some w -> w.(v_missing) = false -> w.(v_retired) = false) /\
     k <> o /\ reaches (full d').(g_used_by) o k).
Proof.
  intros He Hs Hm. destruct (run_ops_ok ops d (conj He Hs) Hm) as [[He' Hs'] Hm']. cbn zeta. split; [exact Hm'|].
  intros k o. pose proof (settled_inherited_iff _ k o Hs') as H. rewrite full_reasons in H. rewrite H.
  unfold source_of, flagged. rewrite full_reasons.
  assert (o ∉ (full (foldl run_op d ops)).(g_retired) <->
          (forall w, (foldl run_op d ops).(d_items) !! o = Some w -> w.(v_missing) = false -> w.(v_retired) = false)) as Hret.
  { rewrite full_retired. split.
    - intros Hn w Hw Hmi. destruct (v_retired w) eqn:E; [|done]. destruct Hn. by exists w.
    - intros Hall (w & Hw & Hmi & Hr). rewrite (Hall w Hw Hmi) in Hr. done. }
  rewrite Hret. tauto.
Qed.

(** C26: the service, which locks and loads the item and what is downstream of it, refines the rules on the
    whole graph: a flag is [flag_stale] of the whole, a review is [mark_reviewed] of the whole and then the
    item's clock set anew. *)
Theorem service_refines_graph d :
  edges_live d -> Settled (full d) ->
  (forall key text source kind at_ d' changed,
     flag_item d key text source kind at_ = Ok (d', changed) ->
     full d' ≡ apply_op (full d) (Flag key text source kind at_)) /\
  (forall u key note at_ d' changed,
     review_item d u key note at_ = Ok (d', changed) ->
     exists w, d.(d_items) !! key = Some w /\
       full d' ≡ foldl apply_op (full d)
                   [Review key; Overdue key (overdue_text (due_at at_ (Some at_) (for_row d.(d_cycles) w)) at_) at_]).
Proof.
  intros He Hs. split.
  - intros key text source kind at_ d' ch E. apply flag_item_ok in E as (Hin & g' & Hg & ->). apply load_key_live in Hin.
    destruct (local_flag d key He Hin text source kind at_ g' ch Hg) as (h & c & Hh & Hr). cbn [apply_op]. rewrite Hh. symmetry.
    destruct (flag_stale_reasons _ _ _ _ _ _ _ _ key Hh) as (Hf & _). split.
    + destruct (full_frame d (_write_back g' (load_graph d key).2 ch d)) as (Hu & Hn & Hret); [by apply write_back_same_rows|done|].
      destruct Hf as (Hu' & Hn' & Hret'). split; [congruence|]. split; congruence.
    + intros k. rewrite full_reasons. apply Hr.
  - intros u key note at_ d' ch E. apply review_item_ok in E as (w & w1 & Hv & _ & _ & Hw1 & Hi & He').
    destruct (get_visible_ok _ _ _ _ Hv) as (Hw & _ & Hm & Hk). exists w. split; [done|]. symmetry. cbn [foldl apply_op].
    destruct (review_graph d key He Hk Hs) as [_ [Hf1 Hg]]. set (d1 := _write_back _ _ _ _) in *.
    assert (w1 = (if bool_decide (key ∈ (mark_reviewed (load_graph d key).1 key).2) && bool_decide (is_Some ((load_graph d key).2 !! key))
                  then write_row (mark_reviewed (load_graph d key).1 key).1 key w else w)) as Ew1
      by (unfold d1 in Hw1; rewrite write_back_lookup, Hw in Hw1; by injection Hw1).
    assert (for_row d.(d_cycles) (with_review at_ (u_id u) w1) = for_row d.(d_cycles) w) as Hdays by (rewrite Ew1; by case_match).
    assert (v_missing w1 = false) as Hm1 by (rewrite Ew1; by case_match).
    assert (same_rows same_identity d1 d') as Hrows.
    { eapply same_rows_items; [exact Hi|]. eapply same_rows_put; [done|exact Hw1|].
      exact (refresh_identity key _ at_ (with_review at_ (u_id u) w1)). }
    rewrite set_overdue_list. split.
    + eapply same_frame_trans; [|apply (full_frame d1 d' Hrows); by rewrite He'].
      destruct Hf1 as (?&?&?). split; [done|]. by split.
    + intros k. rewrite with_item_reasons, full_reasons, (row_reasons_items (put_row key _ d1) d' k Hi), put_row_reasons.
      destruct (decide (k = key)) as [->|Hne]; [|by rewrite <- full_reasons, Hg].
      destruct (refresh_identity key (for_row (d_cycles d) (with_review at_ (u_id u) w1)) at_ (with_review at_ (u_id u) w1)) as (_ & _ & -> & _).
      cbn [with_review v_missing]. rewrite Hm1, refresh_reasons_exact, Hdays. cbn [with_review v_last_reviewed_at v_stale_reasons].
      unfold due_at. cbn [default]. f_equal. rewrite <- Hg, full_reasons. symmetry. by apply row_reasons_at.
Qed.

Definition op_user (o : service_op) : option user :=
  match o with
  | OpReview u _ _ _ | OpAssign u _ _ | OpRetire u _ _ _ | OpUpdate u _ _ _ | OpSetCycle u _ _ _ _
  | OpCreateTheme u _ _ _ _ _ | OpUpdateTheme u _ _ _ _ _ | OpDeleteTheme u _ => Some u
  | OpFlag _ _ _ _ _ => None
  end.

(** All a row may lose to a change elsewhere: reasons that started at another item. *)
Definition only_cleared (w w' : row) : Prop :=
  exists reasons stale revision, w' = with_clock reasons stale w.(v_due_at) revision w /\
    forall r, r ∈ valid_reasons reasons -> r ∈ valid_reasons w.(v_stale_reasons).

Lemma only_cleared_refl w : only_cleared w w.
Proof. exists w.(v_stale_reasons), w.(v_stale), w.(v_revision). split; [by destruct w|done]. Qed.

Lemma load_row_reasons d key k w :
  d.(d_items) !! k = Some w -> is_Some ((load_graph d key).2 !! k) ->
  reasons_of (load_graph d key).1.(g_reasons) k = valid_reasons w.(v_stale_reasons).
Proof.
  intros Hw [x Hx]. unfold load_graph in *. cbn [fst snd] in *. rewrite graph_of_reasons, Hx.
  apply map_lookup_filter_Some in Hx as [Hx _]. congruence.
Qed.

Lemma write_back_cleared d key changed k w :
  d.(d_items) !! k = Some w ->
  exists w', (_write_back (mark_reviewed (load_graph d key).1 key).1 (load_graph d key).2 changed d).(d_items) !! k = Some w' /\
    only_cleared w w'.
Proof.
  intros Hw. rewrite write_back_lookup, Hw. cbn [fmap option_fmap option_map]. eexists. split; [done|].
  case_match eqn:E; [|apply only_cleared_refl]. apply andb_true_iff in E as [_ Hin%bool_decide_eq_true].
  eexists _, _, _. split; [reflexivity|]. intros r. rewrite valid_reasons_stored, mark_reviewed_reasons.
  rewrite (load_row_reasons d key k w Hw Hin). by intros [? _]%elem_of_lfilter.
Qed.

Lemma can_assign_review u w : can_assign u w = true -> can_review u w = true.
Proof.
  unfold can_assign, can_review, owns. destruct (can_admin u w); [done|]. cbn.
  destruct (u_own u), (bool_decide _), (u_id u); cbn; try done. by intros ->.
Qed.
Lemma can_admin_review u w : can_admin u w = true -> can_review u w = true.
Proof. unfold can_review. by intros ->. Qed.

Lemma put_other d k w k' x : k' <> k -> (put_row k w d).(d_items) !! k' = Some x <-> d.(d_items) !! k' = Some x.
Proof. intros H. unfold put_row, set_items. cbn [d_items]. by rewrite lookup_insert_ne. Qed.

Lemma not_the_row d u key k w x :
  get_visible d u key = Ok x -> can_review u x = true -> d.(d_items) !! k = Some w -> can_review u w = false -> k <> key.
Proof. intros (Hx & _)%get_visible_ok Hc Hw Hn ->. congruence. Qed.

Lemma tenant_scope u pw t : _theme_scope u pw = Ok t -> u.(u_platform_admin) = false -> t = Some u.(u_tenant).
Proof. unfold _theme_scope. destruct pw; [|by intros [= <-]]. intros [? _]%guard_or_ok ?. congruence. Qed.

(** No request of a user who is not a platform administrator changes a row it may not review (another
    tenant's, the shared catalogue's, or a colleague's), beyond clearing reasons the row inherited: no new
    reason, no other column. *)
Theorem others_untouched d u o k w :
  op_user o = Some u -> u.(u_platform_admin) = false ->
  d.(d_items) !! k = Some w -> can_review u w = false ->
  exists w', (run_op d o).(d_items) !! k = Some w' /\ only_cleared w w'.
Proof.
  intros Hu Hp Hw Hn.
  assert (exists w', d.(d_items) !! k = Some w' /\ only_cleared w w') as Hsame by (exists w; split; [done|apply only_cleared_refl]).
  assert (exists w', Some w = Some w' /\ only_cleared w w') as Hself by (exists w; split; [done|apply only_cleared_refl]).
  unfold run_op. destruct (route_allows o) eqn:Hroute; [|done].
  destruct o as [u' key note at_|u' key reviewer|u' key reason at_|u' key b at_|key text source kind at_|u' ty days pw at_|
                 u' id name colour ordinal pw|u' id name colour ordinal pw|u' id]; cbn [op_user] in Hu; simplify_eq; cbn [serve].
  - destruct (review_item _ _ _ _ _) as [[d' ch]|] eqn:E; [|done].
    apply review_item_ok in E as (x & w1 & Hv & Hc & _ & _ & Hi & _). pose proof (not_the_row d u key k w x Hv Hc Hw Hn) as Hne.
    rewrite Hi. setoid_rewrite put_other; [|done]. by apply write_back_cleared.
  - destruct (assign_reviewer _ _ _ _) as [d'|] eqn:E; [|done]. cbn [committed].
    apply assign_ok in E as (x & Hv & Hc & _ & Hi & _).
    pose proof (not_the_row d u key k w x Hv (can_assign_review _ _ Hc) Hw Hn) as Hne.
    rewrite Hi. by setoid_rewrite put_other.
  - destruct (retire _ _ _ _ _) as [d'|] eqn:E; [|done]. cbn [committed].
    apply retire_ok in E as (x & Hv & Hc & _ & Hi & _).
    pose proof (not_the_row d u key k w x Hv (can_admin_review _ _ Hc) Hw Hn) as Hne.
    rewrite Hi. setoid_rewrite put_other; [|done]. by apply write_back_cleared.
  - destruct (update_item _ _ _ _ _) as [d'|] eqn:E; [|done]. cbn [committed].
    apply update_ok in E as (x & owner & themes & cycle & days & Hv & Hc & Hi & _).
    pose proof (not_the_row d u key k w x Hv (can_admin_review _ _ Hc) Hw Hn) as Hne.
    rewrite Hi. by setoid_rewrite put_other.
  - destruct (set_cycle _ _ _ _ _ _) as [d'|] eqn:E; [|done]. cbn [committed].
    apply set_cycle_ok in E as (tenant & cycles & Ht & Ha & Hi & _). apply tenant_scope in Ht as ->; [|done].
    rewrite Hi, map_lookup_imap, Hw. cbn. destruct (ruled_by (Some (u_tenant u)) ty w) eqn:Er; [|done].
    unfold ruled_by in Er. apply andb_true_iff in Er as [_ Er]. cbn in Er. reflect_bools.
    assert (can_review u w = true); [|congruence]. apply can_admin_review. unfold can_admin. rewrite Ha, Er. cbn.
    by apply bool_decide_eq_true.
  - destruct (create_theme _ _ _ _ _ _ _) as [d'|] eqn:E; [|done]. apply create_theme_ok in E as [Hi _]. cbn [committed]. by rewrite Hi.
  - destruct (update_theme _ _ _ _ _ _ _) as [d'|] eqn:E; [|done]. apply update_theme_ok in E as [Hi _]. cbn [committed]. by rewrite Hi.
  - destruct (delete_theme _ _ _) as [d'|] eqn:E; [|done]. cbn [committed].
    apply delete_theme_ok in E as (t & Ht & Hi & _). rewrite Hi, lookup_fmap, Hw. cbn. unfold editable_theme in Ht.
    destruct (d_themes d !! id) as [t'|]; [|done]. destruct (visible_theme u t') eqn:Ev; [|done]. ok_steps Ht. injection Ht as <-.
    unfold visible_theme in Ev. unfold untag.
    destruct (bool_decide (h_tenant t' = None)) eqn:En; [|].
    + unfold _theme_scope in Hx. by rewrite Hp in Hx.
    + destruct (bool_decide (v_tenant w = h_tenant t')) eqn:Ew; [|exact Hself]. rewrite orb_false_r in Ev. reflect_bools.
      assert (can_review u w = true); [|congruence]. apply can_admin_review. unfold can_admin.
      cbn [route_allows] in Hroute. rewrite Hroute, Ew, Ev. cbn. by apply bool_decide_eq_true.
Qed.

(** ** A concrete install *)

Definition demo_row (tenant : option string) (ty id title : string) (owner : option string) : row :=
  Row tenant ty id title owner None [] None None None (90 * DAY) false [] false None None false 0 (Some 0).
Definition demo_db : db :=
  Db {["g" := demo_row None "golden_template" "g1" "Ubuntu 24.04" None;
       "t" := demo_row (Some "acme") "range_template" "t1" "Net" (Some "ann");
       "c" := demo_row (Some "acme") "course" "c1" "Forensics" (Some "bob")]}
    [Edge "t" "g" true; Edge "c" "t" true] ∅ ∅ ∅ [].
Definition ann : user := User (Some "ann") "acme" false true false.
Definition admin : user := User (Some "eve") "acme" true true false.

Lemma demo_rows k w : demo_db.(d_items) !! k = Some w -> v_stale_reasons w = [] /\ v_stale w = false.
Proof. intros H. apply elem_of_map_to_list in H. vm_compute in H. cases_in H; simplify_eq; done. Qed.
Lemma clock_demo_live : edges_live demo_db.
Proof.
  intros e He. assert (forall k, k ∈ ["g"; "t"; "c"] -> live demo_db k) as H.
  { intros k Hk. cases_in Hk; subst; eexists; split; reflexivity. }
  cases_in He; subst; split; apply H; in_list.
Qed.
Lemma demo_full_settled : Settled (full demo_db).
Proof.
  apply settled_empty. intros k. rewrite full_reasons. unfold row_reasons. destruct (d_items demo_db !! k) as [w|] eqn:E; [|done].
  apply demo_rows in E as [-> _]. by destruct (v_missing w).
Qed.
Lemma demo_marked : marked demo_db.
Proof. intros k w [E1 E2]%demo_rows. by rewrite E1, E2. Qed.

Example demo_flag :
  let d := run_op demo_db (OpFlag "g" "EOL" "eol:x" KIND_RELEASE 5) in
  r_text <$> row_reasons d "c" = ["Its golden template Ubuntu 24.04 is stale (through range template Net)"%string] /\
  row_reasons (run_op d (OpReview admin "g" "" 7)) "c" = row_reasons d "c" /\   (* shared: refused *)
  v_stale <$> d_items (run_op d (OpReview ann "t" "" 7)) !! "t"%string = Some true.
Proof. vm_compute. done. Qed.

Definition demo_ops : list service_op :=
  [OpFlag "g" "EOL" "eol:x" KIND_RELEASE 5; OpReview ann "t" "" 7; OpRetire admin "t" "old" 8].

Lemma stale_rows_right_witness : marked (foldl run_op demo_db demo_ops).
Proof. exact (proj1 (stale_rows_right demo_db demo_ops clock_demo_live demo_full_settled demo_marked)). Defined.

Lemma service_refines_graph_witness :
  match flag_item demo_db "g" "EOL" "eol:x" KIND_RELEASE 5 with
  | Ok (d', _) => full d' ≡ apply_op (full demo_db) (Flag "g" "EOL" "eol:x" KIND_RELEASE 5)
  | Err _ => False
  end.
Proof.
  destruct (flag_item demo_db "g" "EOL" "eol:x" KIND_RELEASE 5) as [[d' ch]|e] eqn:E.
  - exact (proj1 (service_refines_graph demo_db clock_demo_live demo_full_settled) _ _ _ _ _ _ _ E).
  - apply (f_equal (fun r => match r with Ok _ => true | Err _ => false end)) in E. vm_compute in E. discriminate.
Defined.

Lemma others_untouched_witness :
  exists w w', demo_db.(d_items) !! "c"%string = Some w /\
    (run_op demo_db (OpReview ann "t" "" 7)).(d_items) !! "c"%string = Some w' /\ only_cleared w w'.
Proof.
  destruct (demo_db.(d_items) !! "c"%string) as [w|] eqn:E; [|discriminate].
  destruct (others_untouched demo_db ann (OpReview ann "t" "" 7) "c" w) as (w' & Hw & Hc).
  - reflexivity.
  - reflexivity.
  - exact E.
  - vm_compute in E. injection E as <-. reflexivity.
  - exists w, w'. split; [reflexivity|]. split; [exact Hw|exact Hc].
Defined.
