(* ===== verification/ContentSync.v ===== *)
(** * The content clock's periodic sync

    Models [control-plane/worker/worker/content_review_sync.py], with the feeds' step
    [worker/content_feeds/apply.py] and the OS names of [worker/render.py]: reading what content exists
    and what it depends on, and bringing the review rows, the edges, the due dates and the stale reasons
    up to date.  The tables are ContentReview.v's; a YAML document enters as the tags, nodes and references
    it holds.

    A run reads without locks, computes, and only then locks the rows it writes, each of which it writes if
    its revision is still the one it read.  So a run is two steps, [plan] and [write], between which
    requests commit.  The objects it computes with are shared: [set_overdue] changes the text of a dict
    that is also the row's, which [Shared] follows in a store, and the run's comparison in [seen_after].

    The theorems: an item depends only on content it may use; a run that nothing interrupts leaves the
    tables as the service's theorems (ContentReview.v) assume them, and they stay so; a run that requests
    interrupt overwrites nothing they changed, and counts a feed's flag as raised only where the row
    carries it; and, against its purpose, a run never updates how overdue a review is. *)

From S2P Require Import Prelude PyText ContentStaleness FeedMatching ContentReview.
From Stdlib Require Import Ascii.

Local Open Scope Z_scope.

(** ** OS names ([render.py]) *)

Definition DEPRECATED_OS_ALIASES : list (string * string) :=
  [("ubuntu-2204", "ubuntu-2404"); ("ubuntu2204", "ubuntu-2404"); ("ubuntu-22.04", "ubuntu-24.04")]%string.
Definition EQUIVALENT_OS_ALIASES : list (list string) :=
  [["ubuntu-2404"; "ubuntu-24.04"; "ubuntu-2204"; "ubuntu-22.04"; "ubuntu2204"]]%string.
Definition DEFAULT_OS : string := "ubuntu-2404".

Definition canonical_os (os_alias : string) : string :=
  let alias := strip os_alias in
  default alias ((list_to_map DEPRECATED_OS_ALIASES : gmap string string) !! alias).
Definition os_alias_candidates (os_alias : string) : list string :=
  let alias := strip os_alias in
  let out := [canonical_os alias; alias] ++
             (group ← EQUIVALENT_OS_ALIASES; if bool_decide (alias ∈ group) then group else []) in
  fromkeys (List.filter (fun a => negb (String.eqb a "")) out).

(** A node of a template: not a dict, or its [type], [os] and [os_template]. *)
Inductive node := NotANode | Node (ty os os_template : option string).
Definition _DESIGNER_NON_VM_TYPES : list string := ["switch"; "cloud"; "subnet"; "dmz"]%string.
Definition _node_os (os os_template ty : option string) : string :=
  match truthy os, truthy os_template, truthy ty with
  | Some s, _, _ => s
  | None, Some s, _ => s
  | None, None, Some s => s
  | None, None, None => DEFAULT_OS
  end.
Definition template_os_names (nodes : list node) : list string :=
  fromkeys (omap (fun n =>
    match n with
    | NotANode => None
    | Node ty os os_template =>
        if bool_decide (lower (default "" ty) ∈ _DESIGNER_NON_VM_TYPES) then None else Some (_node_os os os_template ty)
    end) nodes).

(** ** What content exists *)

Notation ckey := (string * string)%type (only parsing).

Record info := Info { i_tenant : option string; i_title : string; i_tags : list string; i_owner : option string }.
Record content := Content { c_found : gmap ckey info; c_depends : gmap ckey (gset ckey) }.

(** [title or key[1]], cut at 255. *)
Definition add (key : ckey) (tenant : option string) (title : string) (tags : list string) (owner : option string)
    (c : content) : content :=
  Content (<[key := Info tenant (String.substring 0 255 (if String.eqb title "" then key.2 else title)) tags owner]> c.(c_found))
    c.(c_depends).

(** [dep]: only content of the item's tenant or the shared catalogue, and never itself. *)
Definition dep (item on : ckey) (c : content) : content * bool :=
  match c.(c_found) !! item, c.(c_found) !! on with
  | Some a, Some b =>
      if bool_decide (item = on) then (c, false)
      else if bool_decide (i_tenant b = None) || bool_decide (i_tenant b = i_tenant a)
           then (Content c.(c_found) (<[item := {[on]} ∪ default ∅ (c.(c_depends) !! item)]> c.(c_depends)), true)
           else (c, false)
  | _, _ => (c, false)
  end.

(** The tables the sync reads, without what is deleted. *)
Record golden_row := GoldenRow { gr_id : string; gr_catalogue : string; gr_role : string; gr_aliases : list string; gr_tenant : option string }.
Record template_row := TemplateRow { tr_id : string; tr_name : string; tr_tenant : option string; tr_tags : list string; tr_nodes : list node }.
Record scenario_row := ScenarioRow { sr_id : string; sr_name : string; sr_tenant : option string; sr_tags : list string; sr_range_template : string }.
Record exercise_row := ExerciseRow { er_id : string; er_name : string; er_tenant : option string; er_tags : list string;
  er_scenario : option string; er_range_template : option string }.
Record booking_row := BookingRow { br_course : string; br_template : option string; br_instructor : option string; br_state : string }.
Record course_row := CourseRow { cr_id : string; cr_name : string; cr_tenant : option string; cr_tags : list string }.
Record module_row := ModuleRow { mr_id : string; mr_title : string; mr_course : string; mr_scenario : option string }.
Record tables := Tables {
  t_golden : list golden_row; t_templates : list template_row; t_scenarios : list scenario_row;
  t_exercises : list exercise_row; t_bookings : list booking_row;   (* in order of their start *)
  t_courses : list course_row; t_modules : list module_row; t_module_content : list (string * string)
}.

Definition golden_key (g : golden_row) : ckey := ("golden_template"%string, gr_id g).
Definition add_golden (c : content) (g : golden_row) : content :=
  add (golden_key g) (gr_tenant g) (gr_catalogue g +:+ (if String.eqb (gr_role g) "" then "" else " (" +:+ gr_role g +:+ ")")) [] None c.
(** [golden_by_name]: the golden templates a name may stand for. *)
Definition golden_by_name (gs : list golden_row) (name : string) : list string :=
  gr_id <$> List.filter (fun g => bool_decide (name ∈ gr_catalogue g :: gr_aliases g)) gs.

(** The first spelling with a golden template this template may use. *)
Fixpoint dep_first (key : ckey) (gs : list golden_row) (aliases : list string) (c : content) : content :=
  match aliases with
  | [] => c
  | alias :: aliases' =>
      let '(c', taken) := foldl (fun st gid => let '(c, any) := st in
          let '(c', ok) := dep key ("golden_template"%string, gid) c in (c', any || ok)) (c, false) (golden_by_name gs alias) in
      if taken then c' else dep_first key gs aliases' c'
  end.
Definition add_template (gs : list golden_row) (c : content) (t : template_row) : content :=
  let key := ("range_template"%string, tr_id t) in
  foldl (fun c os => dep_first key gs (os_alias_candidates os) c)
    (add key (tr_tenant t) (tr_name t) (tr_tags t) None c) (template_os_names (tr_nodes t)).

(** By id, else by name: the scenario's tenant first, then shared; the first id of those. *)
Definition pick_template (ts : list template_row) (tenant : option string) (ref : string) : option string :=
  if existsb (fun t => String.eqb (tr_id t) ref) ts then Some ref
  else
    let named := List.filter (fun t => String.eqb (tr_name t) ref) ts in
    let mine := tr_id <$> List.filter (fun t => bool_decide (tr_tenant t = tenant)) named in
    let shared := tr_id <$> List.filter (fun t => bool_decide (tr_tenant t = None)) named in
    head (py_sorted string_leb (match mine with [] => shared | _ => mine end)).
Definition add_scenario (ts : list template_row) (c : content) (s : scenario_row) : content :=
  let key := ("scenario"%string, sr_id s) in
  let c1 := add key (sr_tenant s) (sr_name s) (sr_tags s) None c in
  let ref := strip (sr_range_template s) in
  if String.eqb ref "" then c1
  else match pick_template ts (sr_tenant s) ref with
       | Some id => (dep key ("range_template"%string, id) c1).1
       | None => c1
       end.

Definition dep_opt (key : ckey) (ty : string) (id : option string) (c : content) : content :=
  match id with Some i => (dep key (ty, i) c).1 | None => c end.
Definition add_exercise (c : content) (e : exercise_row) : content :=
  let key := ("exercise_template"%string, er_id e) in
  dep_opt key "range_template" (er_range_template e)
    (dep_opt key "scenario" (er_scenario e) (add key (er_tenant e) (er_name e) (er_tags e) None c)).

(** Bookings that are neither cancelled nor rejected: the latest with an instructor gives the course its
    owner, and each its template. *)
Definition counted (b : booking_row) : bool := negb (bool_decide (br_state b ∈ ["cancelled"; "rejected"]%string)).
Definition owners_of (bs : list booking_row) : gmap string string :=
  foldl (fun m b => match br_instructor b with Some i => <[br_course b := i]> m | None => m end) ∅ (List.filter counted bs).
Definition booked_of (bs : list booking_row) : list (string * string) :=
  omap (fun b => (fun t => (br_course b, t)) <$> br_template b) (List.filter counted bs).
Definition add_course (owners : gmap string string) (c : content) (co : course_row) : content :=
  add ("course"%string, cr_id co) (cr_tenant co) (cr_name co) (cr_tags co)
    (if bool_decide (cr_tenant co = None) then None else owners !! cr_id co) c.
Definition add_module (c : content) (m : module_row) : content :=
  match c.(c_found) !! ("course"%string, mr_course m) with
  | Some course =>
      let key := ("module"%string, mr_id m) in
      let c1 := add key (i_tenant course) (mr_title m) [] (i_owner course) c in
      dep_opt key "scenario" (truthy (mr_scenario m)) (dep ("course"%string, mr_course m) key c1).1
  | None => c
  end.

Definition read_content (t : tables) : content :=
  let c1 := foldl add_golden (Content ∅ ∅) t.(t_golden) in
  let c2 := foldl (add_template t.(t_golden)) c1 t.(t_templates) in
  let c3 := foldl (add_scenario t.(t_templates)) c2 t.(t_scenarios) in
  let c4 := foldl add_exercise c3 t.(t_exercises) in
  let c5 := foldl (add_course (owners_of t.(t_bookings))) c4 t.(t_courses) in
  let c6 := foldl (fun c ct => (dep ("course"%string, ct.1) ("range_template"%string, ct.2) c).1) c5 (booked_of t.(t_bookings)) in
  let c7 := foldl add_module c6 t.(t_modules) in
  foldl (fun c ms => (dep ("module"%string, ms.1) ("scenario"%string, ms.2) c).1) c7 t.(t_module_content).

(** ** The feeds' step ([content_feeds/settings.py], [content_feeds/apply.py]) *)

Definition MODES : list string := ["off"; "online"; "bundle"]%string.
(** [mode], of [TN_FEEDS_MODE]. *)
Definition mode (env : option string) : string :=
  let value := default "off"%string (truthy (Some (lower (strip (default "" env))))) in
  if bool_decide (value ∈ MODES) then value else "off"%string.

(** What the step reads and keeps: the tables of the feeds, and the product map (empty when it does not
    load).  [fd_golden] are the golden images' ids and catalogue ids. *)
Record feeds := Feeds {
  fd_mode : option string; fd_enabled : option Z; fd_entries : list FeedEntry; fd_flags : list (string * string);
  fd_golden : list (string * string); fd_products : gmap string (list FeedProduct)
}.

Definition with_enabled (enabled : option Z) (fd : feeds) : feeds :=
  Feeds fd.(fd_mode) enabled fd.(fd_entries) fd.(fd_flags) fd.(fd_golden) fd.(fd_products).

(** [enabled_at]: recorded now if never. *)
Definition enabled_at (fd : feeds) (now : Z) : Z := default now fd.(fd_enabled).

(** [tracked]: the live golden templates the product map names, and since when. *)
Definition golden_of (live : gmap string row) : gmap string string :=
  list_to_map ((fun kw => (v_item_id kw.2, kw.1)) <$>
    List.filter (fun kw => String.eqb (v_item_type kw.2) "golden_template" && negb (v_retired kw.2)) (map_to_list live)).
Definition tracked_of (fd : feeds) (live : gmap string row) (enabled now : Z) : list (string * Tracked) :=
  omap (fun g : string * string =>
    match golden_of live !! g.1, fd.(fd_products) !! g.2 with
    | Some rid, Some (p :: ps) =>
        let first := default now (w ← live !! rid; v_created_at w) in
        Some (rid, MkTracked (p :: ps) (Z.max first enabled))
    | _, _ => None
    end) fd.(fd_golden).

(** [flags], and whether feeds count as enabled from now on. *)
Definition flags (fd : feeds) (live : gmap string row) (now : Z) : list FeedMatching.Flag * feeds :=
  if String.eqb (mode fd.(fd_mode)) "off" then ([], fd)
  else
    let enabled := enabled_at fd now in
    let fd' := with_enabled (Some enabled) fd in
    let tracked := tracked_of fd live enabled now in
    if bool_decide (golden_of live = ∅) || negb (nonempty fd.(fd_entries)) || bool_decide (fd.(fd_products) = ∅) ||
       negb (nonempty tracked)
    then ([], fd')
    else (flags_for tracked fd.(fd_entries) (list_to_set fd.(fd_flags)) now, fd').

Definition record (raised : list FeedMatching.Flag) (fd : feeds) : feeds :=
  Feeds fd.(fd_mode) fd.(fd_enabled) fd.(fd_entries) (fd.(fd_flags) ++ ((fun f => (f_item f, f_entry_key f)) <$> raised))
    fd.(fd_golden) fd.(fd_products).

(** ** Items *)

Definition key_of (w : row) : ckey := (v_item_type w, v_item_id w).

(** [_norm] of a name: its letters and digits, without case. *)
Fixpoint alnum (s : string) : string :=
  match s with
  | EmptyString => EmptyString
  | String c s' => let n := nat_of_ascii c in
      if ((48 <=? n) && (n <=? 57) || (97 <=? n) && (n <=? 122))%nat then String c (alnum s') else alnum s'
  end.
Definition _norm (name : string) : string := alnum (lower name).

Definition _themes_by_name (themes : gmap string theme) : gmap (option string * string) string :=
  list_to_map ((fun t => ((h_tenant t.2, _norm (h_name t.2)), t.1)) <$> map_to_list themes).
Definition _auto_themes (themes : gmap (option string * string) string) (tenant : option string) (tags : list string) : list string :=
  fromkeys (omap (fun tag =>
    match themes !! (tenant, _norm tag) with Some id => Some id | None => themes !! (None, _norm tag) end) tags).

(** [_cycles(db)(tenant, item_type)] is the service's lookup. *)
Definition cycle (cycles : gmap (option string * string) Z) (tenant : option string) (item_type : string) : Z :=
  (cycles_get cycles tenant item_type).1.

Definition new_row (cycles : gmap (option string * string) Z) (themes : gmap (option string * string) string) (now : Z)
    (key : ckey) (i : info) : row :=
  Row (i_tenant i) key.1 key.2 (i_title i) (i_owner i) None (_auto_themes themes (i_tenant i) (i_tags i)) None
    None None (due_at now None (cycle cycles (i_tenant i) key.1)) false [] false None None false 0 (Some now).

(** Column changes of a row, collected before any is written ([pending]). *)
Record change := Change {
  ch_missing : option bool; ch_title : option (string * option string); ch_due : option Z; ch_reasons : option (list reason)
}.
#[export] Instance change_eq_dec : EqDecision change.
Proof. solve_decision. Defined.
Definition no_change : change := Change None None None None.

Definition with_title (title : string) (tenant : option string) (w : row) : row :=
  Row tenant w.(v_item_type) w.(v_item_id) title w.(v_owner) w.(v_reviewer) w.(v_theme_ids) w.(v_cycle_days)
    w.(v_last_reviewed_at) w.(v_last_reviewed_by) w.(v_due_at) w.(v_stale) w.(v_stale_reasons) w.(v_retired)
    w.(v_retired_at) w.(v_retired_by) w.(v_missing) w.(v_revision) w.(v_created_at).
Definition with_missing (missing : bool) (w : row) : row :=
  Row w.(v_tenant) w.(v_item_type) w.(v_item_id) w.(v_title) w.(v_owner) w.(v_reviewer) w.(v_theme_ids) w.(v_cycle_days)
    w.(v_last_reviewed_at) w.(v_last_reviewed_by) w.(v_due_at) w.(v_stale) w.(v_stale_reasons) w.(v_retired)
    w.(v_retired_at) w.(v_retired_by) missing w.(v_revision) w.(v_created_at).

(** The [values] of an update: the pending changes. *)
Definition apply_change (ch : change) (w : row) : row :=
  let w1 := match ch.(ch_missing) with Some m => with_missing m w | None => w end in
  let w2 := match ch.(ch_title) with Some (title, tenant) => with_title title tenant w1 | None => w1 end in
  let due := default w2.(v_due_at) ch.(ch_due) in
  match ch.(ch_reasons) with
  | Some rs => with_clock (SReason <$> rs) (nonempty rs) due w2.(v_revision) w2
  | None => with_clock w2.(v_stale_reasons) w2.(v_stale) due w2.(v_revision) w2
  end.

(** Step 1, of a row that is there: what changes, and the row as it will be unless it is missing.  A lab
    has no record of its own. *)
Definition item_change (c : content) (w : row) : change :=
  match c.(c_found) !! key_of w with
  | None => if v_missing w || String.eqb (v_item_type w) "lab" then no_change else Change (Some true) None None None
  | Some i =>
      if negb (String.eqb (v_title w) (i_title i)) || bool_decide (v_tenant w <> i_tenant i) || v_missing w
      then Change (Some false) (Some (i_title i, i_tenant i)) None None else no_change
  end.
Definition live_row (c : content) (w : row) : option row :=
  match c.(c_found) !! key_of w with
  | None => if negb (v_missing w) && String.eqb (v_item_type w) "lab" then Some w else None
  | Some i => Some (apply_change (item_change c w) w)
  end.

(** ** The reasons a row and the graph share

    [_reasons] hands the graph the row's own list, and [Graph] keeps its dicts in a list of its own:
    what [set_overdue] appends or removes the row does not see, but the text it changes in a dict is
    the row's too. *)

(** The row's list as it reads once [set_overdue] ran with [text]. *)
Fixpoint retext_stored (item text : string) (l : list stored) : list stored :=
  match l with
  | [] => []
  | SReason r :: l' =>
      if is_clock_of item r then SReason (Reason r.(r_origin) r.(r_kind) text r.(r_source) r.(r_at)) :: l'
      else SReason r :: retext_stored item text l'
  | SJunk :: l' => SJunk :: retext_stored item text l'
  end.
Definition seen_after (item : string) (text : option string) (l : list stored) : list stored :=
  match text with Some t => retext_stored item t l | None => l end.

(** The same with the dicts in a store and the lists of references to them. *)
Module Shared.

Notation store := (gmap nat reason).
Inductive cell := Ref (x : nat) | Other.
Definition read_cell (h : store) (c : cell) : stored :=
  match c with Ref x => match h !! x with Some r => SReason r | None => SJunk end | Other => SJunk end.
Definition read_cells (h : store) (l : list cell) : list stored := read_cell h <$> l.
Definition read (h : store) (l : list nat) : list reason := omap (fun x => h !! x) l.
(** [[r for r in v if _valid(r)]]: the same dicts. *)
Definition valid_cells (l : list cell) : list nat := omap (fun c => match c with Ref x => Some x | Other => None end) l.

Definition clock_at (h : store) (item : string) (x : nat) : bool :=
  match h !! x with Some r => is_clock_of item r | None => false end.
Fixpoint drop_ref (x : nat) (l : list nat) : list nat :=
  match l with [] => [] | y :: l' => if Nat.eqb x y then l' else y :: drop_ref x l' end.

(** [set_overdue] on references; [x'] is where a new dict goes. *)
Definition set_overdue (h : store) (item : string) (text : option string) (at_ : Z) (mine : list nat) (x' : nat) : store * list nat :=
  match List.find (clock_at h item) mine, text with
  | None, None => (h, mine)
  | Some x, None => (h, drop_ref x mine)
  | Some x, Some t =>
      (match h !! x with Some r => <[x := Reason r.(r_origin) r.(r_kind) t r.(r_source) r.(r_at)]> h | None => h end, mine)
  | None, Some t => (<[x' := Reason item KIND_TIME t (Some TIME_SOURCE) (Some (isoformat_utc at_))]> h, mine ++ [x'])
  end.

Definition in_store (h : store) (l : list cell) : Prop := forall x, x ∈ valid_cells l -> is_Some (h !! x).

Lemma read_insert h x r l : x ∉ l -> read (<[x := r]> h) l = read h l.
Proof.
  unfold read. induction l as [|y l IH]; [done|]. cbn [omap list_omap]. intros [Hne Hl]%not_elem_of_cons.
  rewrite lookup_insert_ne by done. by rewrite IH.
Qed.
Lemma read_cells_insert h x r l : x ∉ valid_cells l -> read_cells (<[x := r]> h) l = read_cells h l.
Proof.
  intros Hx. apply list_fmap_ext. intros i c Hc%list_elem_of_lookup_2. destruct c as [y|]; cbn [read_cell]; [|done].
  rewrite lookup_insert_ne; [done|]. intros <-. apply Hx, list_elem_of_omap. by exists (Ref x).
Qed.

Lemma read_valid h l : in_store h l -> valid_reasons (read_cells h l) = read h (valid_cells l).
Proof.
  unfold in_store, valid_reasons, read_cells, read, valid_cells. induction l as [|[y|] l IH]; cbn; intros H; [done| |by apply IH].
  destruct (H y) as [r Hr]; [left|]. rewrite Hr. cbn. f_equal. apply IH. intros x Hx. apply H. by right.
Qed.

(** A change of the first clock reason's text, in the graph's list and in the row's. *)
Lemma read_retext h item t x r mine :
  NoDup mine -> List.find (clock_at h item) mine = Some x -> h !! x = Some r ->
  read (<[x := Reason r.(r_origin) r.(r_kind) t r.(r_source) r.(r_at)]> h) mine =
    retext_first (is_clock_of item) t (read h mine).
Proof.
  intros Hn Hf Hr. induction mine as [|y mine IH]; [done|]. apply NoDup_cons in Hn as [Hy Hn].
  unfold read in *. cbn [List.find] in Hf. cbn [omap list_omap]. destruct (clock_at h item y) eqn:Ec.
  - injection Hf as ->. rewrite lookup_insert_eq, Hr. cbn. unfold clock_at in Ec. rewrite Hr in Ec. rewrite Ec. f_equal.
    by apply read_insert.
  - destruct (decide (y = x)) as [->|Hne]; [apply find_some in Hf as [? ?]; congruence|]. rewrite lookup_insert_ne by done.
    rewrite IH by done. unfold clock_at in Ec. destruct (h !! y) as [r'|]; cbn; [|done]. by rewrite Ec.
Qed.
Lemma read_cells_retext h item t x r l :
  NoDup (valid_cells l) -> in_store h l -> List.find (clock_at h item) (valid_cells l) = Some x -> h !! x = Some r ->
  read_cells (<[x := Reason r.(r_origin) r.(r_kind) t r.(r_source) r.(r_at)]> h) l = retext_stored item t (read_cells h l).
Proof.
  intros Hn Hin Hf Hr. induction l as [|[y|] l IH]; [done| |]; unfold read_cells, valid_cells in *; cbn [omap list_omap fmap list_fmap read_cell List.find retext_stored] in *.
  - apply NoDup_cons in Hn as [Hy Hn]. assert (in_store h l) as Hin' by (intros z Hz; apply Hin; by right).
    destruct (clock_at h item y) eqn:Ec.
    + injection Hf as ->. rewrite lookup_insert_eq, Hr. unfold clock_at in Ec. rewrite Hr in Ec. rewrite Ec. f_equal.
      by apply read_cells_insert.
    + destruct (decide (y = x)) as [->|Hne]; [apply find_some in Hf as [? ?]; congruence|]. rewrite lookup_insert_ne by done.
      rewrite IH by done. destruct (Hin y) as [r' Hr']; [left|]. unfold clock_at in Ec. rewrite Hr' in *. by rewrite Ec.
  - f_equal. by apply IH.
Qed.

Lemma find_read h item mine :
  (forall x, x ∈ mine -> is_Some (h !! x)) ->
  List.find (is_clock_of item) (read h mine) = (x ← List.find (clock_at h item) mine; h !! x).
Proof.
  unfold read. induction mine as [|x mine IH]; cbn; intros Hm; [done|]. destruct (Hm x) as [r Hr]; [left|].
  unfold clock_at at 1. rewrite Hr. cbn. destruct (is_clock_of item r); [by cbn|]. apply IH. intros y Hy. apply Hm. by right.
Qed.
Lemma read_drop h item x mine :
  (forall y, y ∈ mine -> is_Some (h !! y)) -> List.find (clock_at h item) mine = Some x ->
  read h (drop_ref x mine) = remove_first (is_clock_of item) (read h mine).
Proof.
  unfold read. induction mine as [|y mine IH]; [done|]. intros Hm. cbn. destruct (Hm y) as [r Hr]; [left|]. unfold clock_at at 1.
  rewrite Hr. cbn. destruct (is_clock_of item r) eqn:Ec.
  - intros [= ->]. by rewrite Nat.eqb_refl.
  - intros Hf. destruct (Nat.eqb_spec x y) as [->|].
    + apply find_some in Hf as [_ Hc]. unfold clock_at in Hc. rewrite Hr in Hc. congruence.
    + cbn. rewrite Hr. f_equal. apply IH; [|done]. intros z Hz. apply Hm. by right.
Qed.

Lemma retext_same item t l r :
  List.find (is_clock_of item) (valid_reasons l) = Some r -> r.(r_text) = t -> retext_stored item t l = l.
Proof.
  unfold valid_reasons. induction l as [|[r'|] l IH]; cbn; intros Hf Ht; [done| |f_equal; by apply IH].
  destruct (is_clock_of item r'); [|f_equal; by apply IH]. injection Hf as ->. rewrite <- Ht. by destruct r.
Qed.
Lemma retext_none item t l : List.find (is_clock_of item) (valid_reasons l) = None -> retext_stored item t l = l.
Proof.
  unfold valid_reasons. induction l as [|[r'|] l IH]; cbn; intros Hf; [done| |f_equal; by apply IH].
  destruct (is_clock_of item r'); [done|]. f_equal. by apply IH.
Qed.
Lemma retext_first_same item t l r : List.find (is_clock_of item) l = Some r -> r.(r_text) = t -> retext_first (is_clock_of item) t l = l.
Proof.
  induction l as [|r' l IH]; cbn; intros Hf Ht; [done|].
  destruct (is_clock_of item r'); [|f_equal; by apply IH]. injection Hf as ->. rewrite <- Ht. by destruct r.
Qed.

(** What the graph then has is what [overdue_list] gives, and the row's list reads [seen_after]. *)
Lemma shared_views h item text at_ l x' :
  NoDup (valid_cells l) -> in_store h l -> h !! x' = None ->
  let st := set_overdue h item text at_ (valid_cells l) x' in
  read st.1 st.2 = overdue_list item text at_ (valid_reasons (read_cells h l)) /\
  read_cells st.1 l = seen_after item text (read_cells h l).
Proof.
  intros Hn Hin Hx'. cbn zeta. assert (x' ∉ valid_cells l) as Hnx by (intros [r Hr]%Hin; congruence).
  pose proof (find_read h item (valid_cells l) Hin) as Hfind. rewrite <- read_valid in Hfind by done.
  unfold overdue_list, set_overdue, seen_after. rewrite Hfind.
  destruct (List.find (clock_at h item) (valid_cells l)) as [x|] eqn:Ef; cbn [mbind option_bind] in *.
  - pose proof Ef as [Hx%list_elem_of_In _]%find_some. destruct (Hin x Hx) as [r Hr]. rewrite Hr in *.
    destruct text as [t|]; cbn [fst snd].
    + rewrite (read_retext h item t x r), (read_cells_retext h item t x r), read_valid by done. split; [|done].
      destruct (String.eqb_spec (r_text r) t); [|done]. rewrite <- read_valid by done. by eapply retext_first_same.
    + rewrite read_valid by done. split; [by apply read_drop|done].
  - destruct text as [t|]; cbn [fst snd]; [|by rewrite read_valid].
    rewrite read_cells_insert, retext_none, read_valid by done. split; [|done].
    unfold read. rewrite omap_app. cbn. rewrite lookup_insert_eq. f_equal. by apply read_insert.
Qed.
End Shared.

(** ** A run: what it reads, plans and writes *)

(** What the run reads, in several statements of one transaction: requests may commit between them. *)
Record reads := Reads {
  q_tables : tables; q_cycles : gmap (option string * string) Z; q_themes : gmap string theme;
  q_items : gmap string row; q_edges : list edge; q_feeds : feeds
}.

Definition pair_of (e : edge) : string * string := (e.(g_item), e.(g_on)).
Definition pair_leb (a b : string * string) : bool := if String.eqb a.1 b.1 then string_leb a.2 b.2 else string_leb a.1 b.1.

Record summary := Summary {
  n_created : nat; n_updated : nat; n_missing : nat; n_edges : nat; n_skipped : nat; n_feed_flags : nat
}.

(** Step 1. Items.  [new_id] is [str(uuid.uuid4())] for the row of a content. *)
Definition tracked_keys (items : gmap string row) : gset ckey := list_to_set ((fun kw => key_of kw.2) <$> map_to_list items).
Definition new_rows (new_id : ckey -> string) (q : reads) (now : Z) (c : content) : gmap string row :=
  let known := tracked_keys q.(q_items) in
  let themes := _themes_by_name q.(q_themes) in
  list_to_map (omap (fun ki : ckey * info =>
    if bool_decide (ki.1 ∈ known) then None else Some (new_id ki.1, new_row q.(q_cycles) themes now ki.1 ki.2))
    (map_to_list c.(c_found))).
Definition live_items (q : reads) (c : content) (news : gmap string row) : gmap string row :=
  omap (live_row c) q.(q_items) ∪ news.
Definition key_to_id (live : gmap string row) : gmap ckey string :=
  list_to_map ((fun kw => (key_of kw.2, kw.1)) <$> map_to_list live).

(** Step 2. Edges: the difference from those stored. *)
Definition pairs_on (ids : gmap ckey string) (ad : ckey * gset ckey) : list (string * string) :=
  omap (fun b => x ← ids !! ad.1; (fun y => (x, y)) <$> ids !! b) (elements ad.2).
Definition wanted_pairs (ids : gmap ckey string) (c : content) : gset (string * string) :=
  list_to_set (List.concat (pairs_on ids <$> map_to_list c.(c_depends))).
Definition pairs_where (f : edge -> bool) (edges : list edge) : gset (string * string) :=
  list_to_set (pair_of <$> List.filter f edges).
Definition manual (e : edge) : bool := negb (g_derived e).
Definition gone_edges (q : reads) (wanted : gset (string * string)) : list edge :=
  List.filter (fun e => g_derived e && negb (bool_decide (pair_of e ∈ wanted))) q.(q_edges).
Definition edge_on (p : string * string) : edge := Edge p.1 p.2 true.
Definition added_edges (q : reads) (wanted : gset (string * string)) : list edge :=
  edge_on <$> py_sorted pair_leb (elements (wanted ∖ pairs_where g_derived q.(q_edges) ∖ pairs_where manual q.(q_edges))).

(** Step 3. The clock, over the edges between live items. *)
Definition live_pairs (q : reads) (live : gmap string row) (wanted : gset (string * string)) : list (string * string) :=
  List.filter (fun p => bool_decide (is_Some (live !! p.1)) && bool_decide (is_Some (live !! p.2)))
    (elements (wanted ∪ pairs_where manual q.(q_edges))).
Definition run_graph (q : reads) (live : gmap string row) (wanted : gset (string * string)) : graph :=
  graph_of live (used_by (depends_of (edge_on <$> live_pairs q live wanted))).

Definition run_due (q : reads) (now : Z) (w : row) : Z :=
  due_at (default now (v_created_at w)) (v_last_reviewed_at w) (for_row q.(q_cycles) w).
Definition run_text (q : reads) (now : Z) (w : row) : option string := overdue_text (run_due q now w) now.
Definition set_overdues (q : reads) (now : Z) (live : gmap string row) (g : graph) : graph :=
  foldl (fun g kw => (set_overdue g kw.1 (run_text q now kw.2) now).1) g (map_to_list live).
(** A feed's flag is of a flag's kind: [flag_stale] takes it. *)
Definition flag_one (now : Z) (g : graph) (f : FeedMatching.Flag) : graph :=
  match flag_stale g (f_item f) (f_text f) (f_entry_key f) (f_kind f) now with Ok (g', _) => g' | Err _ => g end.
Definition final_graph (q : reads) (now : Z) (live : gmap string row) (wanted : gset (string * string))
    (raised : list FeedMatching.Flag) : graph :=
  (repropagate (foldl (flag_one now) (set_overdues q now live (run_graph q live wanted)) raised) now).1.

(** [_norm_reasons(reasons) != _norm_reasons(_reasons(r["stale_reasons"]))]: as bags of dicts; the row's
    dicts are those [set_overdue] worked on. *)
Definition reasons_differ (k : string) (text : option string) (rs : list reason) (w : row) : bool :=
  negb (bool_decide ((SReason <$> rs) ≡ₚ seen_after k text (v_stale_reasons w))).
Definition live_change (q : reads) (now : Z) (g : graph) (k : string) (w : row) (ch : change) : change :=
  let rs := reasons_of g.(g_reasons) k in
  Change ch.(ch_missing) ch.(ch_title) (if v_due_at w =? run_due q now w then None else Some (run_due q now w))
    (if reasons_differ k (run_text q now w) rs w || negb (Bool.eqb (v_stale w) (nonempty rs)) then Some rs else None).

(** [pending], of a row and of a new row. *)
Definition change_of (q : reads) (now : Z) (c : content) (live : gmap string row) (g : graph) (k : string) (w : row) : change :=
  match live !! k with Some w' => live_change q now g k w' (item_change c w) | None => item_change c w end.
Definition change_new (q : reads) (now : Z) (g : graph) (k : string) (w : row) : change := live_change q now g k w no_change.

(** All a run computed before it locks a row: the new rows as they will be, the changes of the others with
    the revisions read, the edges, and the feeds' flags. *)
Record plan := Plan {
  p_new : gmap string row; p_changes : gmap string (Z * change); p_gone : list edge; p_added : list edge;
  p_edges : nat; p_flags : list FeedMatching.Flag; p_enabled : option Z
}.
Definition make_plan (new_id : ckey -> string) (q : reads) (now : Z) : plan :=
  let c := read_content q.(q_tables) in
  let news := new_rows new_id q now c in
  let live := live_items q c news in
  let wanted := wanted_pairs (key_to_id live) c in
  let '(raised, fd) := flags q.(q_feeds) live now in
  let g := final_graph q now live wanted raised in
  Plan (map_imap (fun k w => Some (apply_change (change_new q now g k w) w)) news)
    (map_imap (fun k w => let ch := change_of q now c live g k w in
       if bool_decide (ch = no_change) then None else Some (v_revision w, ch)) q.(q_items))
    (gone_edges q wanted) (added_edges q wanted) (size wanted) raised fd.(fd_enabled).

(** Step 4. Writing: the new rows, and those of the others that are still at the revision read. *)
Definition bumped (w : row) : row := with_clock (v_stale_reasons w) (v_stale w) (v_due_at w) (v_revision w + 1) w.
Definition write_old (pl : plan) (k : string) (cur : row) : row :=
  match pl.(p_changes) !! k with
  | Some (revision, ch) => if v_revision cur =? revision then bumped (apply_change ch cur) else cur
  | None => cur
  end.
Definition skipped (pl : plan) (cur : gmap string row) : gset string :=
  dom (filter (fun kc => bool_decide (v_revision <$> cur !! kc.1 = Some kc.2.1) = false) pl.(p_changes)).
Definition write_edges (pl : plan) (cur : list edge) : list edge :=
  List.filter (fun e => negb (bool_decide (e ∈ pl.(p_gone)))) cur ++ pl.(p_added).

(** A state of the install: the review tables, and what the feeds keep. *)
Record site := Site { s_db : db; s_feeds : feeds }.

Definition write (pl : plan) (s : site) : site * summary :=
  let d := s.(s_db) in
  let skip := skipped pl d.(d_items) in
  let recorded := List.filter (fun f => negb (bool_decide (f_item f ∈ skip))) pl.(p_flags) in
  let only_missing ch := bool_decide (ch = Change (Some true) None None None) in
  (Site (Db (map_imap (fun k w => Some (write_old pl k w)) d.(d_items) ∪ pl.(p_new)) (write_edges pl d.(d_edges))
           d.(d_cycles) d.(d_people) d.(d_themes) d.(d_audit))
        (record recorded (with_enabled pl.(p_enabled) s.(s_feeds))),
   Summary (size pl.(p_new)) (size (filter (fun kc => kc.1 ∉ skip /\ only_missing kc.2.2 = false) pl.(p_changes)))
     (size (filter (fun kc => ch_missing kc.2.2 = Some true) pl.(p_changes)))
     pl.(p_edges) (size skip) (length recorded)).

(** A lost Redis lock is seen by the last [_check], if by no earlier one: nothing of the run is kept. *)
Inductive sync_error := LockLost.
Definition sync (new_id : ckey -> string) (q : reads) (now : Z) (lost : bool) (s : site) : result sync_error (site * summary) :=
  if lost then Err LockLost else Ok (write (make_plan new_id q now) s).

(** The whole state read at one point. *)
Definition reads_of (t : tables) (s : site) : reads :=
  Reads t s.(s_db).(d_cycles) s.(s_db).(d_themes) s.(s_db).(d_items) s.(s_db).(d_edges) s.(s_feeds).

(** ** The dependencies stay within the tenant and the shared catalogue *)

Definition scoped (c : content) : Prop := forall item on, on ∈ default ∅ (c.(c_depends) !! item) ->
  item <> on /\ exists a b, c.(c_found) !! item = Some a /\ c.(c_found) !! on = Some b /\
    (i_tenant b = None \/ i_tenant b = i_tenant a).

Lemma scoped_add key tenant title tags owner c :
  c.(c_found) !! key = None -> scoped c -> scoped (add key tenant title tags owner c).
Proof.
  intros Hk H item on Hin. destruct (H item on Hin) as (? & a & b & Ha & Hb & ?). split; [done|]. exists a, b.
  unfold add. cbn [c_found]. rewrite !lookup_insert_ne by congruence. done.
Qed.
Lemma dep_found item on c : c_found (dep item on c).1 = c.(c_found).
Proof. unfold dep. repeat case_match; done. Qed.
Lemma scoped_dep item on c : scoped c -> scoped (dep item on c).1.
Proof.
  intros H. unfold dep. destruct (c_found c !! item) as [a|] eqn:Ea, (c_found c !! on) as [b|] eqn:Eb; try done.
  case_bool_decide as Hne; [done|]. destruct (bool_decide (i_tenant b = None) || bool_decide (i_tenant b = i_tenant a)) eqn:Et; [|done].
  intros i o. cbn [fst c_depends c_found]. destruct (decide (i = item)) as [->|Hi]; [|rewrite lookup_insert_ne by done; apply H].
  rewrite lookup_insert_eq. cbn [from_option]. unfold id. intros [->%elem_of_singleton|Ho]%elem_of_union; [|by apply H].
  split; [done|]. exists a, b. split; [done|]. split; [done|]. apply orb_true_iff in Et as [Et|Et]; reflect_bools; auto.
Qed.

(** What a row of a table adds besides its key: edges only. *)
Definition grows (key : ckey) (c c' : content) : Prop :=
  (scoped c -> c.(c_found) !! key = None -> scoped c') /\
  forall k, is_Some (c'.(c_found) !! k) -> k = key \/ is_Some (c.(c_found) !! k).
Definition edges_only (c c' : content) : Prop := c'.(c_found) = c.(c_found) /\ (scoped c -> scoped c').

Lemma edges_only_refl c : edges_only c c.
Proof. done. Qed.
Lemma edges_only_trans c1 c2 c3 : edges_only c1 c2 -> edges_only c2 c3 -> edges_only c1 c3.
Proof. intros [E1 H1] [E2 H2]. split; [congruence|auto]. Qed.
Lemma edges_only_dep item on c : edges_only c (dep item on c).1.
Proof. split; [apply dep_found|apply scoped_dep]. Qed.
Lemma edges_only_dep_opt key ty id c : edges_only c (dep_opt key ty id c).
Proof. destruct id; [apply edges_only_dep|done]. Qed.
Lemma edges_only_foldl {A} (f : content -> A -> content) l c : (forall c x, edges_only c (f c x)) -> edges_only c (foldl f c l).
Proof. intros H. revert c. induction l as [|x l IH]; intros c; cbn; [done|]. eapply edges_only_trans; [apply H|apply IH]. Qed.
Lemma edges_only_dep_first key gs aliases c : edges_only c (dep_first key gs aliases c).
Proof.
  revert c. induction aliases as [|alias aliases IH]; intros c; cbn [dep_first]; [done|].
  assert (forall l st, edges_only st.1 (foldl (fun st gid => let '(c, any) := st in
            let '(c', ok) := dep key ("golden_template"%string, gid) c in (c', any || ok)) st l).1) as H.
  { induction l as [|gid l IHl]; intros [c1 any]; cbn [foldl]; [done|]. eapply edges_only_trans; [|apply IHl].
    pose proof (edges_only_dep key ("golden_template"%string, gid) c1) as Hd. by destruct (dep _ _ c1). }
  specialize (H (golden_by_name gs alias) (c, false)). destruct (foldl _ _ _) as [c' taken]. cbn [fst] in H.
  destruct taken; [done|]. eapply edges_only_trans; [exact H|apply IH].
Qed.

Lemma grows_add key tenant title tags owner c : grows key c (add key tenant title tags owner c).
Proof.
  split; [intros; by apply scoped_add|]. intros k. unfold add. cbn [c_found].
  destruct (decide (k = key)) as [->|Hne]; [by left|]. rewrite lookup_insert_ne by done. by right.
Qed.
Lemma grows_edges key c c' c'' : grows key c c' -> edges_only c' c'' -> grows key c c''.
Proof. intros [H1 H2] [E H3]. split; [auto|]. intros k. rewrite E. apply H2. Qed.

Lemma stage {A} (step : content -> A -> content) (ty : string) (id : A -> string) (l : list A) c :
  (forall c x, grows (ty, id x) c (step c x)) ->
  NoDup (id <$> l) -> scoped c -> (forall k, is_Some (c.(c_found) !! k) -> k.1 <> ty) ->
  scoped (foldl step c l) /\
  forall k, is_Some (c_found (foldl step c l) !! k) -> k.1 = ty \/ is_Some (c.(c_found) !! k).
Proof.
  intros Hstep Hn Hs Hty.
  assert (forall l c, NoDup (id <$> l) -> scoped c -> (forall x, x ∈ l -> c.(c_found) !! (ty, id x) = None) ->
    scoped (foldl step c l) /\ forall k, is_Some (c_found (foldl step c l) !! k) -> k.1 = ty \/ is_Some (c.(c_found) !! k)) as H.
  { clear Hn Hs Hty l c. induction l as [|x l IH]; intros c Hn Hs Hf; cbn; [split; [done|by right]|].
    cbn in Hn. apply NoDup_cons in Hn as [Hx Hn]. destruct (Hstep c x) as [H1 H2].
    destruct (IH (step c x) Hn) as [H3 H4].
    - apply H1; [done|]. apply Hf. left.
    - intros y Hy. destruct (c_found (step c x) !! (ty, id y)) eqn:E; [|done].
      destruct (H2 (ty, id y)) as [[= Eid]|Hc]; [by rewrite E| |].
      + destruct Hx. rewrite <- Eid. by apply list_elem_of_fmap_2.
      + rewrite Hf in Hc by (by right). by destruct Hc.
    - split; [done|]. intros k Hk. destruct (H4 k Hk) as [?|Hc]; [by left|]. destruct (H2 k Hc) as [->|?]; [by left|by right]. }
  apply H; [done|done|]. intros x _. destruct (c_found c !! (ty, id x)) eqn:E; [|done].
  destruct (Hty (ty, id x)); [by rewrite E|done].
Qed.

(** The ids are the tables' keys. *)
Definition ids_unique (t : tables) : Prop :=
  NoDup (gr_id <$> t.(t_golden)) /\ NoDup (tr_id <$> t.(t_templates)) /\ NoDup (sr_id <$> t.(t_scenarios)) /\
  NoDup (er_id <$> t.(t_exercises)) /\ NoDup (cr_id <$> t.(t_courses)) /\ NoDup (mr_id <$> t.(t_modules)).

(** Whatever templates, scenarios, courses, bookings and modules name, an item depends only on other
    content that exists, and on content of its own tenant or of the shared catalogue alone. *)
Theorem depends_in_scope t item on :
  ids_unique t -> on ∈ default ∅ (c_depends (read_content t) !! item) ->
  item <> on /\ exists a b, c_found (read_content t) !! item = Some a /\ c_found (read_content t) !! on = Some b /\
    (i_tenant b = None \/ i_tenant b = i_tenant a).
Proof.
  intros (Ng & Nt & Nsc & Ne & Nc & Nm). cut (scoped (read_content t)); [intros H; apply H|]. unfold read_content.
  destruct (stage add_golden "golden_template" gr_id t.(t_golden) (Content ∅ ∅)) as [S1 F1]; [intros; apply grows_add|done| | |].
  { intros i o. cbn. rewrite lookup_empty. set_solver. }
  { intros k [? H]. cbn in H. by rewrite lookup_empty in H. }
  set (c1 := foldl add_golden _ _) in *.
  destruct (stage (add_template t.(t_golden)) "range_template" tr_id t.(t_templates) c1) as [S2 F2]; [|done|done| |].
  { intros c x. eapply grows_edges; [apply grows_add|]. apply edges_only_foldl. intros. apply edges_only_dep_first. }
  { intros k [->|[? H]]%F1; [done|]. cbn in H. by rewrite lookup_empty in H. }
  set (c2 := foldl (add_template _) _ _) in *.
  assert (forall k, is_Some (c2.(c_found) !! k) -> k.1 = "range_template" \/ k.1 = "golden_template")%string as T2.
  { intros k [?|[?|[? H]]%F1]%F2; [by left|by right|]. cbn in H. by rewrite lookup_empty in H. }
  destruct (stage (add_scenario t.(t_templates)) "scenario" sr_id t.(t_scenarios) c2) as [S3 F3]; [|done|done| |].
  { intros c x. unfold add_scenario. case_match; [apply grows_add|]. case_match; [|apply grows_add].
    eapply grows_edges; [apply grows_add|apply edges_only_dep]. }
  { by intros k [->| ->]%T2. }
  set (c3 := foldl (add_scenario _) _ _) in *.
  destruct (stage add_exercise "exercise_template" er_id t.(t_exercises) c3) as [S4 F4]; [|done|done| |].
  { intros c x. eapply grows_edges; [apply grows_add|].
    eapply edges_only_trans; [apply edges_only_dep_opt|apply edges_only_dep_opt]. }
  { by intros k [->|[-> | ->]%T2]%F3. }
  set (c4 := foldl add_exercise _ _) in *.
  destruct (stage (add_course (owners_of t.(t_bookings))) "course" cr_id t.(t_courses) c4) as [S5 F5]; [|done|done| |].
  { intros. apply grows_add. }
  { by intros k [->|[->|[-> | ->]%T2]%F3]%F4. }
  set (c5 := foldl (add_course _) _ _) in *.
  destruct (edges_only_foldl (fun c ct => (dep ("course"%string, ct.1) ("range_template"%string, ct.2) c).1)
    (booked_of t.(t_bookings)) c5) as [F6 S6]; [intros; apply edges_only_dep|].
  set (c6 := foldl _ c5 _) in *.
  destruct (stage add_module "module" mr_id t.(t_modules) c6) as [S7 F7]; [|done|by apply S6| |].
  { intros c x. unfold add_module. case_match; [|by split; [|auto]].
    eapply grows_edges; [apply grows_add|]. eapply edges_only_trans; [apply edges_only_dep|apply edges_only_dep_opt]. }
  { intros k. rewrite F6. by intros [->|[->|[->|[-> | ->]%T2]%F3]%F4]%F5. }
  apply edges_only_foldl; [intros; apply edges_only_dep|done].
Qed.

(** ** No update is lost *)

(** The columns the sync writes. *)
Definition synced (w : row) := (v_tenant w, v_title w, v_missing w, v_due_at w, v_stale w, v_stale_reasons w).
(** The columns only requests write. *)
Definition requested (w : row) :=
  (v_item_type w, v_item_id w, v_owner w, v_reviewer w, v_theme_ids w, v_cycle_days w,
   (v_last_reviewed_at w, v_last_reviewed_by w, v_retired w, v_retired_at w, v_retired_by w, v_created_at w)).
Definition rises (w w' : row) : Prop := v_revision w < v_revision w' \/ (synced w' = synced w /\ v_revision w' = v_revision w).

Lemma rises_refl w : rises w w.
Proof. by right. Qed.
Lemma rises_trans w1 w2 w3 : rises w1 w2 -> rises w2 w3 -> rises w1 w3.
Proof. unfold rises. intros [H1|[H1 E1]] [H2|[H2 E2]]; [left; lia|left; lia|left; lia|right; split; congruence]. Qed.
Lemma rises_bump w w' : v_revision w' = v_revision w -> rises w (bump w').
Proof. intros E. left. unfold bump. cbn. lia. Qed.
Lemma rises_refresh id days at_ w w' :
  synced w' = synced w -> v_revision w <= v_revision w' -> rises w (refresh_clock id days at_ w').1.
Proof.
  intros E Hr. unfold refresh_clock. set (due := due_at _ _ _). destruct (set_overdue _ _ _ _) as [g' [|]]; cbn [fst orb].
  - left. cbn. lia.
  - destruct (Z.eqb_spec (v_due_at w') due) as [Ed|]; cbn [negb]; [|left; cbn; lia].
    destruct (decide (v_revision w' = v_revision w)) as [Er|]; [|left; cbn; lia]. right. split; [|exact Er].
    rewrite <- E. unfold synced. cbn. by rewrite <- Ed.
Qed.

Lemma rises_put d k w w' : d.(d_items) !! k = Some w -> rises w w' -> same_rows rises d (put_row k w' d).
Proof. apply same_rows_put, rises_refl. Qed.
Lemma rises_write_back g rows changed d : same_rows rises d (_write_back g rows changed d).
Proof. apply write_back_same_rows; [apply rises_refl|]. intros k w _ _. left. cbn. lia. Qed.
Lemma rises_rows d d1 d2 : same_rows rises d d1 -> same_rows rises d1 d2 -> same_rows rises d d2.
Proof. apply same_rows_trans, rises_trans. Qed.

(** Whatever a request changes of what the sync writes, the row's revision rises. *)
Lemma serve_rises d o : same_rows rises d (serve d o).
Proof.
  pose proof (same_rows_refl rises d rises_refl) as Hr. by_op o.
  - destruct (review_item _ _ _ _ _) as [[d' ch]|] eqn:E; [|done].
    apply review_item_ok in E as (w & w1 & _ & _ & _ & Hw1 & Hi & _).
    eapply same_rows_items; [exact Hi|]. eapply rises_rows; [apply rises_write_back|].
    eapply rises_put; [exact Hw1|]. apply (rises_refresh key); [done|]. cbn. lia.
  - destruct (assign_reviewer _ _ _ _) as [d'|] eqn:E; [|done].
    apply assign_ok in E as (w & (Hw & _)%get_visible_ok & _ & _ & Hi & _).
    eapply same_rows_items; [exact Hi|]. eapply rises_put; [exact Hw|]. by apply rises_bump.
  - destruct (retire _ _ _ _ _) as [d'|] eqn:E; [|done].
    apply retire_ok in E as (w & (Hw & _)%get_visible_ok & _ & _ & Hi & _). cbn zeta in Hi.
    set (d1 := _write_back _ _ _ _) in *. pose proof (rises_write_back _ _ _ d : same_rows rises d d1) as Hd.
    eapply same_rows_items; [exact Hi|].
    assert (d_items d1 !! key = Some w) as Hw1.
    { unfold d1. rewrite write_back_lookup, Hw. cbn. by rewrite bool_decide_eq_false_2 by set_solver. }
    eapply rises_rows; [exact Hd|]. eapply rises_put; [exact Hw1|]. by apply rises_bump.
  - destruct (update_item _ _ _ _ _) as [d'|] eqn:E; [|done].
    apply update_ok in E as (w & owner & themes & cyc & days & (Hw & _)%get_visible_ok & _ & Hi & _).
    eapply same_rows_items; [exact Hi|]. eapply rises_put; [exact Hw|]. apply rises_refresh; [done|]. cbn. lia.
  - destruct (flag_item _ _ _ _ _ _) as [[d' ch]|] eqn:E; [|done].
    apply flag_item_ok in E as (_ & g' & _ & ->). apply rises_write_back.
  - destruct (set_cycle _ _ _ _ _ _) as [d'|] eqn:E; [|done].
    apply set_cycle_ok in E as (tenant & cycles & _ & _ & Hi & _). intros k. cbn [committed]. rewrite Hi, map_lookup_imap.
    destruct (d_items d !! k) as [x|]; cbn; [|done]. case_match; [|apply rises_refl]. apply rises_refresh; [done|lia].
  - destruct (create_theme _ _ _ _ _ _ _) as [d'|] eqn:E; [|done]. apply create_theme_ok in E as [Hi _]. by eapply same_rows_items.
  - destruct (update_theme _ _ _ _ _ _ _) as [d'|] eqn:E; [|done]. apply update_theme_ok in E as [Hi _]. by eapply same_rows_items.
  - destruct (delete_theme _ _ _) as [d'|] eqn:E; [|done]. apply delete_theme_ok in E as (t & _ & Hi & _).
    intros k. cbn [committed]. rewrite Hi, lookup_fmap. destruct (d_items d !! k) as [x|]; cbn; [|done].
    unfold untag. case_match; [by apply rises_bump|apply rises_refl].
Qed.
Lemma run_ops_rise ops d : same_rows rises d (foldl run_op d ops).
Proof.
  revert d. induction ops as [|o ops IH]; intros d; cbn; [apply same_rows_refl, rises_refl|].
  eapply rises_rows; [|apply IH]. unfold run_op. case_match; [apply serve_rises|apply same_rows_refl, rises_refl].
Qed.

Lemma write_lookup pl s k w :
  s.(s_db).(d_items) !! k = Some w -> (write pl s).1.(s_db).(d_items) !! k = Some (write_old pl k w).
Proof. intros H. unfold write. cbn [fst s_db d_items]. apply lookup_union_Some_l. by rewrite map_lookup_imap, H. Qed.

Lemma apply_change_requested ch w : requested (apply_change ch w) = requested w.
Proof. destruct ch as [[m|] [[? ?]|] du [rs|]]; done. Qed.
Lemma apply_change_revision ch w : v_revision (apply_change ch w) = v_revision w.
Proof. destruct ch as [[m|] [[? ?]|] du [rs|]]; done. Qed.

Lemma plan_change new_id q now k revision ch :
  (make_plan new_id q now).(p_changes) !! k = Some (revision, ch) ->
  exists w, q.(q_items) !! k = Some w /\ revision = v_revision w.
Proof.
  unfold make_plan. destruct (flags _ _ _) as [raised fd]. cbn [p_changes]. rewrite map_lookup_imap.
  destruct (q_items q !! k) as [w|]; cbn; [|done]. case_bool_decide; [done|]. intros [= <- _]. by exists w.
Qed.

(** C27: a run never overwrites what was committed while it was computing.  Of a row that requests changed
    since the run read it, in any column the run writes, nothing is written; any row the run does write has
    the columns it writes as it read them, and keeps all the others. *)
Theorem no_lost_update new_id q now d ops fd k w :
  d.(d_items) = q.(q_items) -> q.(q_items) !! k = Some w ->
  let s := Site (foldl run_op d ops) fd in
  exists cur after,
    s.(s_db).(d_items) !! k = Some cur /\ (write (make_plan new_id q now) s).1.(s_db).(d_items) !! k = Some after /\
    requested after = requested cur /\
    (after = cur \/ (synced cur = synced w /\ v_revision cur = v_revision w /\ v_revision after = v_revision cur + 1)).
Proof.
  intros Hi Hw. cbn zeta. pose proof (run_ops_rise ops d k) as Hr. rewrite Hi, Hw in Hr.
  destruct (d_items (foldl run_op d ops) !! k) as [cur|] eqn:Ec; cbn in Hr; [|done].
  exists cur. eexists. split; [done|]. split; [by apply write_lookup|]. unfold write_old.
  destruct (p_changes (make_plan new_id q now) !! k) as [[revision ch]|] eqn:Ep; [|split; [done|by left]].
  destruct (plan_change _ _ _ _ _ _ Ep) as (w' & Hw' & ->). simplify_eq.
  destruct (Z.eqb_spec (v_revision cur) (v_revision w)) as [Er|]; [|split; [done|by left]].
  split; [apply apply_change_requested|]. right. destruct Hr as [Hr|[Hr _]]; [lia|]. split; [done|]. split; [done|].
  unfold bumped. cbn. by rewrite apply_change_revision.
Qed.

(** ** The graph a run computes *)

(** The reasons of its own a row stores are in place: its own, and one for the clock. *)
Definition own_in_place (k : string) (w : row) : Prop :=
  (forall r, r ∈ valid_reasons w.(v_stale_reasons) -> own r = true -> r.(r_origin) = k) /\
  (length (List.filter (is_clock_of k) (valid_reasons w.(v_stale_reasons))) <= 1)%nat.

Lemma set_overdues_spec q now l g :
  NoDup l.*1 ->
  let g' := foldl (fun g kw => (set_overdue g kw.1 (run_text q now kw.2) now).1) g l in
  same_frame g g' /\ forall k, reasons_of g'.(g_reasons) k =
    match (list_to_map l : gmap string row) !! k with
    | Some w => overdue_list k (run_text q now w) now (reasons_of g.(g_reasons) k)
    | None => reasons_of g.(g_reasons) k
    end.
Proof.
  cbn zeta. revert g. induction l as [|[k0 w0] l IH]; intros g Hn; [done|]. cbn in Hn. apply NoDup_cons in Hn as [Hk0 Hn].
  destruct (IH (set_overdue g k0 (run_text q now w0) now).1 Hn) as [Hf Hr].
  cbn [foldl fst snd]. rewrite set_overdue_list in *. split; [exact (same_frame_trans _ _ _ (with_item_frame _ _ _) Hf)|].
  intros k. rewrite Hr, with_item_reasons. cbn [list_to_map foldr fst snd].
  destruct (decide (k = k0)) as [->|Hne]; [|by rewrite lookup_insert_ne].
  rewrite lookup_insert_eq. change (foldr _ _ l) with (list_to_map l : gmap string row).
  by rewrite (not_elem_of_list_to_map_1 (M := gmap string)).
Qed.

Lemma own_of_pushed (P : reason -> bool) g o at_ prev k mine :
  (forall r, inherited r = true -> P r = false) -> List.filter P (pushed g o at_ prev k mine) = [].
Proof. intros H. apply filter_nil_own. intros r (_ & p & _ & ->)%elem_of_pushed. by apply H. Qed.
Lemma inherited_not_own r : inherited r = true -> own r = false.
Proof. unfold own. by intros ->. Qed.
Lemma inherited_not_clock k r : inherited r = true -> is_clock_of k r = false.
Proof. intros H. destruct (is_clock_of k r) eqn:E; [|done]. apply clock_is_own in E. unfold own in E. by rewrite H in E. Qed.
Lemma flag_kind_not_clock k r : r.(r_kind) ∈ FLAG_KINDS -> is_clock_of k r = false.
Proof.
  intros H. unfold is_clock_of. apply andb_false_iff. right. apply String.eqb_neq. intros E. rewrite E in H.
  apply (bool_decide_eq_true_2 _) in H. by vm_compute in H.
Qed.

(** What a flag leaves of the reasons that were there, and what it adds. *)
Lemma flag_one_spec now g f :
  let g' := flag_one now g f in
  same_frame g g' /\
  (forall k r, r ∈ reasons_of g.(g_reasons) k -> r ∈ reasons_of g'.(g_reasons) k) /\
  (forall k r, r ∈ reasons_of g'.(g_reasons) k -> own r = true ->
     r ∈ reasons_of g.(g_reasons) k \/ (k = f_item f /\ r.(r_origin) = k)) /\
  (forall k, List.filter (is_clock_of k) (reasons_of g'.(g_reasons) k) = List.filter (is_clock_of k) (reasons_of g.(g_reasons) k)) /\
  (f_kind f ∈ FLAG_KINDS -> exists r, r ∈ reasons_of g'.(g_reasons) (f_item f) /\
     r.(r_origin) = f_item f /\ r.(r_kind) = f_kind f /\ r.(r_source) = Some (f_entry_key f)).
Proof.
  cbn zeta. unfold flag_one. destruct (flag_stale g (f_item f) (f_text f) (f_entry_key f) (f_kind f) now) as [[g' ch]|e] eqn:E.
  2: { unfold flag_stale in E. case_bool_decide as Hk; [by repeat case_match|]. split; [done|]. split; [done|]. split; [by left|].
       split; [done|]. by intros ?. }
  assert (f_kind f ∈ FLAG_KINDS) as Hk by (unfold flag_stale in E; by case_bool_decide).
  assert (forall k, reasons_of g'.(g_reasons) k =
    (if decide (k = f_item f) then flag_mine (f_item f) (f_text f) (f_entry_key f) (f_kind f) now (reasons_of g.(g_reasons) k)
     else reasons_of g.(g_reasons) k) ++
    (if bool_decide (f_item f ∈ g.(g_retired)) then [] else pushed g (f_item f) (isoformat_utc now) ∅ k
       (if decide (k = f_item f) then flag_mine (f_item f) (f_text f) (f_entry_key f) (f_kind f) now (reasons_of g.(g_reasons) k)
        else reasons_of g.(g_reasons) k))) as Hr.
  { intros k. by destruct (flag_stale_reasons _ _ _ _ _ _ _ _ k E) as (_ & -> & _). }
  destruct (flag_stale_reasons _ _ _ _ _ _ _ _ "" E) as [Hf _]. split; [done|].
  set (fr := Reason (f_item f) (f_kind f) (f_text f) (Some (f_entry_key f)) (Some (isoformat_utc now))).
  assert (forall mine, flag_mine (f_item f) (f_text f) (f_entry_key f) (f_kind f) now mine = mine \/
                       flag_mine (f_item f) (f_text f) (f_entry_key f) (f_kind f) now mine = mine ++ [fr]) as Hm
    by (intros mine; unfold flag_mine, fr; destruct (existsb _ mine); [by left|by right]).
  assert (forall k (P : reason -> bool) mine, (forall r, inherited r = true -> P r = false) ->
    List.filter P (if bool_decide (f_item f ∈ g.(g_retired)) then [] else pushed g (f_item f) (isoformat_utc now) ∅ k mine) = []) as Hp
    by (intros; case_match; [done|by apply own_of_pushed]).
  split; [|split; [|split]].
  - intros k r Hin. rewrite Hr. apply elem_of_app. left. destruct (decide (k = f_item f)); [|done]. destruct (Hm (reasons_of g.(g_reasons) k)) as [-> | ->]; set_solver.
  - intros k r Hin Ho. assert (r ∈ List.filter own (reasons_of g'.(g_reasons) k)) as H by by apply elem_of_lfilter.
    rewrite Hr, List.filter_app, Hp, app_nil_r in H by apply inherited_not_own. apply elem_of_lfilter in H as [H _].
    destruct (decide (k = f_item f)) as [Ek|]; [|by left]. destruct (Hm (reasons_of g.(g_reasons) k)) as [E'|E']; rewrite E' in H; [by left|].
    apply elem_of_app in H as [?| ->%list_elem_of_singleton]; [by left|right; by split].
  - intros k. rewrite Hr, List.filter_app, Hp, app_nil_r by apply inherited_not_clock. destruct (decide (k = f_item f)); [|done].
    destruct (Hm (reasons_of g.(g_reasons) k)) as [-> | ->]; [done|]. rewrite List.filter_app. cbn [List.filter].
    by rewrite (flag_kind_not_clock k fr Hk), app_nil_r.
  - intros _. setoid_rewrite Hr. setoid_rewrite elem_of_app. rewrite decide_True by done. unfold flag_mine. destruct (existsb _ _) eqn:Ex.
    + apply existsb_exists in Ex as (r & Hin%list_elem_of_In & Hx). apply andb_true_iff in Hx as [[H1 H2]%andb_true_iff H3].
      apply String.eqb_eq in H1, H2. apply bool_decide_eq_true in H3. exists r. split; [by left|done].
    + exists fr. split; [left; apply elem_of_app; right; by left|done].
Qed.

Lemma flags_spec now l g :
  let g' := foldl (flag_one now) g l in
  same_frame g g' /\
  (forall k r, r ∈ reasons_of g.(g_reasons) k -> r ∈ reasons_of g'.(g_reasons) k) /\
  (forall k r, r ∈ reasons_of g'.(g_reasons) k -> own r = true ->
     r ∈ reasons_of g.(g_reasons) k \/ (k ∈ f_item <$> l /\ r.(r_origin) = k)) /\
  (forall k, List.filter (is_clock_of k) (reasons_of g'.(g_reasons) k) = List.filter (is_clock_of k) (reasons_of g.(g_reasons) k)) /\
  (forall f, f ∈ l -> f_kind f ∈ FLAG_KINDS -> exists r, r ∈ reasons_of g'.(g_reasons) (f_item f) /\
     r.(r_origin) = f_item f /\ r.(r_kind) = f_kind f /\ r.(r_source) = Some (f_entry_key f)).
Proof.
  cbn zeta. revert g. induction l as [|f l IH]; intros g; cbn [foldl].
  - split; [done|]. split; [done|]. split; [by left|]. split; [done|]. by intros f ?%elem_of_nil.
  - destruct (flag_one_spec now g f) as (A1 & A2 & A3 & A4 & A5).
    destruct (IH (flag_one now g f)) as (B1 & B2 & B3 & B4 & B5).
    split; [by eapply same_frame_trans|]. split; [auto|]. split; [|split; [intros; by rewrite B4, A4|]].
    + intros k r Hr Ho. rewrite fmap_cons, elem_of_cons. destruct (B3 k r Hr Ho) as [H|[? ?]]; [|tauto].
      destruct (A3 k r H Ho) as [?|[? ?]]; [by left|tauto].
    + intros f' [->|Hf']%elem_of_cons Hk; [|by apply B5]. destruct (A5 Hk) as (r & Hr & ?). exists r. split; [by apply B2|done].
Qed.

Lemma live_pairs_elem q live wanted p :
  p ∈ live_pairs q live wanted <->
  (p ∈ wanted \/ p ∈ pairs_where manual q.(q_edges)) /\ is_Some (live !! p.1) /\ is_Some (live !! p.2).
Proof.
  unfold live_pairs. rewrite elem_of_lfilter, elem_of_elements, elem_of_union, andb_true_iff, !bool_decide_eq_true. tauto.
Qed.

Lemma run_graph_edge q live wanted u v :
  v ∈ default [] ((run_graph q live wanted).(g_used_by) !! u) <-> (v, u) ∈ live_pairs q live wanted.
Proof.
  unfold run_graph, graph_of. rewrite elem_of_graph_used, elem_of_used_by, elem_of_depends_of. split.
  - intros (e & ([x y] & -> & He)%list_elem_of_fmap & <- & <-). done.
  - intros H. exists (edge_on (v, u)). split; [by apply list_elem_of_fmap_2|done].
Qed.

Section FinalGraph.
Context (q : reads) (now : Z) (live : gmap string row) (wanted : gset (string * string)) (raised : list FeedMatching.Flag).
Context (Hplace : forall k w, live !! k = Some w -> own_in_place k w).
Context (Hraised : forall f, f ∈ raised -> is_Some (live !! f_item f)).
Let g0 := run_graph q live wanted.
Let g1 := set_overdues q now live g0.
Let g2 := foldl (flag_one now) g1 raised.
Let g := final_graph q now live wanted raised.

Lemma g0_reasons k : reasons_of g0.(g_reasons) k = match live !! k with Some w => valid_reasons w.(v_stale_reasons) | None => [] end.
Proof. apply graph_of_reasons. Qed.

Lemma g1_reasons k :
  reasons_of g1.(g_reasons) k = match live !! k with Some w => overdue_list k (run_text q now w) now (valid_reasons w.(v_stale_reasons)) | None => [] end.
Proof.
  destruct (set_overdues_spec q now (map_to_list live) g0 (NoDup_fst_map_to_list live)) as [_ H]. unfold g1, set_overdues.
  rewrite H, list_to_map_to_list, g0_reasons. by destruct (live !! k).
Qed.

Lemma g1_clock k w : live !! k = Some w ->
  r_text <$> List.filter (is_clock_of k) (reasons_of g1.(g_reasons) k) = option_list (run_text q now w).
Proof. intros Hw. rewrite g1_reasons, Hw. apply overdue_list_clock, (Hplace k w Hw). Qed.

Lemma g1_own k r : r ∈ reasons_of g1.(g_reasons) k -> own r = true -> r.(r_origin) = k.
Proof.
  rewrite g1_reasons. destruct (live !! k) as [w|] eqn:Hw; [|by intros ?%elem_of_nil].
  intros [Hr|Hc]%elem_of_overdue_list Ho; [by apply (Hplace k w Hw)|]. by apply andb_true_iff in Hc as [?%String.eqb_eq _].
Qed.

Lemma g2_well_formed : own_well_formed g2.
Proof.
  destruct (flags_spec now raised g1) as (_ & _ & Hown & Hclock & _). split.
  - intros k r Hr Ho. destruct (Hown k r Hr Ho) as [H|[_ H]]; [by apply g1_own|done].
  - intros k. unfold g2. rewrite Hclock. destruct (live !! k) as [w|] eqn:Hw.
    + pose proof (g1_clock k w Hw) as H. apply (f_equal length) in H. rewrite length_fmap in H. rewrite H.
      destruct (run_text q now w); cbn; lia.
    + rewrite g1_reasons, Hw. cbn. lia.
Qed.

Lemma final_settled : Settled g.
Proof. apply (repropagate_spec g2 now g2_well_formed). Qed.

Lemma final_frame : same_frame g0 g.
Proof.
  destruct (repropagate_spec g2 now g2_well_formed) as (_ & H & _). destruct (flags_spec now raised g1) as (H2 & _).
  destruct (set_overdues_spec q now (map_to_list live) g0 (NoDup_fst_map_to_list live)) as [H1 _].
  eapply same_frame_trans; [exact H1|]. by eapply same_frame_trans.
Qed.

Lemma final_own k : List.filter own (reasons_of g.(g_reasons) k) = List.filter own (reasons_of g2.(g_reasons) k).
Proof. by destruct (repropagate_spec g2 now g2_well_formed) as (_ & _ & _ & H & _). Qed.
Lemma final_own_elem k r : own r = true -> r ∈ reasons_of g.(g_reasons) k <-> r ∈ reasons_of g2.(g_reasons) k.
Proof.
  intros Ho. pose proof (elem_of_lfilter own r (reasons_of g.(g_reasons) k)) as H1.
  pose proof (elem_of_lfilter own r (reasons_of g2.(g_reasons) k)) as H2. rewrite final_own in H1. tauto.
Qed.

(** Reasons are on live items only. *)
Lemma final_gone k : live !! k = None -> reasons_of g.(g_reasons) k = [].
Proof.
  intros Hk. destruct (reasons_of g.(g_reasons) k) as [|r l] eqn:E; [done|]. exfalso.
  assert (r ∈ reasons_of g.(g_reasons) k) as Hr by (rewrite E; left). clear E.
  destruct (inherited r) eqn:Ei.
  - destruct (st_sound _ _ final_settled k r Hr Ei) as (_ & p & t & Hp & _). apply dep_path_spec, dependents_walk in Hp.
    destruct final_frame as (Hu & _ & _). rewrite Hu in Hp.
    assert (k <> r_origin r) as Hne.
    { intros E. destruct (st_sound _ _ final_settled k r Hr Ei) as (_ & p' & _ & Hp' & _). rewrite <- E in Hp'.
      by rewrite dep_path_self in Hp'. }
    inversion Hp as [|p0 u v _ Hv]; subst; [done|]. apply run_graph_edge, live_pairs_elem in Hv as (_ & [w Hw] & _).
    cbn in Hw. congruence.
  - apply own_not_inherited in Ei. apply (final_own_elem k r Ei) in Hr. destruct (flags_spec now raised g1) as (_ & _ & Hown & _ & _).
    destruct (Hown k r Hr Ei) as [H|[H _]]; [rewrite g1_reasons, Hk in H; by apply elem_of_nil in H|].
    apply list_elem_of_fmap in H as (f & -> & Hf). destruct (Hraised f Hf). congruence.
Qed.

(** The clock's reason says what the dates say. *)
Lemma final_clock k w : live !! k = Some w ->
  r_text <$> List.filter (is_clock_of k) (reasons_of g.(g_reasons) k) = option_list (run_text q now w).
Proof.
  intros Hw. rewrite <- (g1_clock k w Hw). destruct (flags_spec now raised g1) as (_ & _ & _ & Hclock & _).
  rewrite <- Hclock. fold g2. f_equal. assert (forall l, List.filter (is_clock_of k) l = List.filter (is_clock_of k) (List.filter own l)) as Hl.
  { intros l. induction l as [|r l IH]; cbn; [done|]. destruct (is_clock_of k r) eqn:E.
    - rewrite (clock_is_own k r E). cbn. by rewrite E, IH.
    - destruct (own r); cbn; rewrite ?E; done. }
  by rewrite Hl, final_own, <- Hl.
Qed.

(** An own reason that is not the clock's stays, and every flag is there. *)
Lemma final_keeps k w r :
  live !! k = Some w -> r ∈ valid_reasons w.(v_stale_reasons) -> own r = true -> is_clock_of k r = false ->
  r ∈ reasons_of g.(g_reasons) k.
Proof.
  intros Hw Hr Ho Hc. apply final_own_elem; [done|]. destruct (flags_spec now raised g1) as (_ & Hkeep & _). apply Hkeep.
  rewrite g1_reasons, Hw. by apply elem_of_overdue_list_other.
Qed.
Lemma final_flags f : f ∈ raised -> f_kind f ∈ FLAG_KINDS -> exists r, r ∈ reasons_of g.(g_reasons) (f_item f) /\
  r.(r_origin) = f_item f /\ r.(r_kind) = f_kind f /\ r.(r_source) = Some (f_entry_key f).
Proof.
  intros Hf Hk. destruct (flags_spec now raised g1) as (_ & _ & _ & _ & H). destruct (H f Hf Hk) as (r & Hr & Ho & Hkr & Hs).
  exists r. split; [|done]. apply final_own_elem; [|done]. apply flag_is_own. by rewrite Hkr.
Qed.
End FinalGraph.

(** *** Items that agree up to the order of their reasons and the clock's text *)

Definition similar (k : string) (l l' : list reason) : Prop :=
  l' ≡ₚ l \/ exists t, retext_first (is_clock_of k) t l' ≡ₚ l.

Lemma retext_other k t l r : is_clock_of k r = false -> r ∈ retext_first (is_clock_of k) t l <-> r ∈ l.
Proof.
  intros E. pose proof (elem_of_lfilter (fun x => negb (is_clock_of k x)) r (retext_first (is_clock_of k) t l)) as H1.
  pose proof (elem_of_lfilter (fun x => negb (is_clock_of k x)) r l) as H2. rewrite filter_retext_first_other in H1.
  - cbn beta in H1, H2. rewrite E in H1, H2. cbn [negb] in H1, H2. tauto.
  - by intros x ->.
  - intros x Hx. unfold is_clock_of in *. cbn. by rewrite Hx.
Qed.
Lemma retext_clock_length k t l :
  length (List.filter (is_clock_of k) (retext_first (is_clock_of k) t l)) = length (List.filter (is_clock_of k) l).
Proof.
  induction l as [|r l IH]; [done|]. cbn [retext_first]. destruct (is_clock_of k r) eqn:E; cbn [List.filter]; [|by rewrite E, IH].
  assert (is_clock_of k (Reason (r_origin r) (r_kind r) t (r_source r) (r_at r)) = is_clock_of k r) as -> by done.
  by rewrite E.
Qed.

Lemma filter_perm (f : reason -> bool) l l' : l ≡ₚ l' -> List.filter f l ≡ₚ List.filter f l'.
Proof. induction 1; cbn; repeat case_match; try constructor; try done; by etrans. Qed.

Lemma settled_similar g g' :
  same_frame g g' -> (forall k, similar k (reasons_of g.(g_reasons) k) (reasons_of g'.(g_reasons) k)) -> Settled g -> Settled g'.
Proof.
  intros Hf H Hs.
  assert (forall k r, is_clock_of k r = false -> r ∈ reasons_of g'.(g_reasons) k <-> r ∈ reasons_of g.(g_reasons) k) as Hin.
  { intros k r Hc. destruct (H k) as [Hp|[t Hp]]; [by rewrite Hp|]. by rewrite <- Hp, retext_other. }
  eapply settled_weaken; [|apply (settled_change_perm (fun _ => True) g g' Hf); [..|exact Hs]].
  - intros o _. split; [done|]. intros [(r & Hr & Ho & Hk) Hret]. destruct Hf as (_ & _ & Hf). rewrite Hf in Hret.
    split; [|done]. exists r. split; [|done]. apply (Hin o r); [by apply flag_not_clock|done].
  - intros k r Hr Ho. destruct (is_clock_of k r) eqn:E.
    + by apply andb_true_iff in E as [?%String.eqb_eq _].
    + apply (st_own _ _ Hs k r); [by apply Hin|done].
  - intros k. pose proof (st_clock _ _ Hs k) as Hc. destruct (H k) as [Hp|[t Hp]].
    + by rewrite (filter_perm _ _ _ Hp).
    + by rewrite <- (retext_clock_length k t), (filter_perm _ _ _ Hp).
  - intros k. destruct (H k) as [Hp|[t Hp]]; [by apply filter_perm|]. rewrite <- (filter_perm _ _ _ Hp).
    rewrite filter_retext_first_other; [done|intros r Hr%clock_is_own; by apply own_not_inherited|].
    intros r Hr%clock_is_own. unfold own, inherited in *. cbn. by apply negb_true_iff.
  - intros o [(r & Hr & Ho & Hk) Hret]. destruct Hf as (_ & _ & Hf). split; [|by rewrite Hf]. exists r.
    split; [|done]. apply Hin; [by apply flag_not_clock|done].
Qed.

(** ** What a plan holds *)

Lemma flags_live fd live now f : f ∈ (flags fd live now).1 -> is_Some (live !! f_item f) /\ f_kind f ∈ FLAG_KINDS.
Proof.
  unfold flags. destruct (String.eqb _ _); [by intros ?%elem_of_nil|]. destruct (bool_decide (golden_of live = ∅) || _ || _ || _); [by intros ?%elem_of_nil|].
  cbn [fst]. intros Hf. apply elem_of_flags_for, out_sound in Hf as (e & _ & _ & _ & Ef & Hk & _ & tr & p & pk & Hin & _).
  split; [|by rewrite Ef]. unfold tracked_of in Hin. apply list_elem_of_omap in Hin as ([gid cat] & _ & Hin). cbn [fst snd] in Hin.
  destruct (golden_of live !! gid) as [rid|] eqn:Eg; [|done]. destruct (fd_products fd !! cat) as [[|p' ps]|]; [done| |done].
  injection Hin as <- _. unfold golden_of in Eg. apply elem_of_list_to_map_2, list_elem_of_fmap in Eg as ([k w] & [= _ ->] & Hw).
  apply elem_of_lfilter in Hw as [Hw%elem_of_map_to_list _]. by exists w.
Qed.

Lemma apply_no_change w : apply_change no_change w = w.
Proof. by destruct w. Qed.
Lemma live_row_spec c w :
  match live_row c w with
  | Some lw => lw = apply_change (item_change c w) w /\ v_missing lw = false
  | None => v_missing (apply_change (item_change c w) w) = true /\ ch_reasons (item_change c w) = None
  end.
Proof.
  unfold live_row, item_change. destruct (c_found c !! key_of w) as [i|].
  - split; [done|]. destruct (negb _ || _ || _) eqn:E; [done|]. apply orb_false_iff in E as [_ E]. by rewrite apply_no_change.
  - destruct (v_missing w) eqn:Em; cbn [orb negb andb]; [by rewrite apply_no_change|].
    destruct (String.eqb _ _); [by rewrite apply_no_change|done].
Qed.
Lemma item_change_plain c w : ch_due (item_change c w) = None /\ ch_reasons (item_change c w) = None.
Proof. unfold item_change. repeat case_match; done. Qed.

(** A row with what the clock changes of it. *)
Lemma apply_live_change q now g k w ch :
  ch_due ch = None -> ch_reasons ch = None ->
  apply_change (live_change q now g k (apply_change ch w) ch) w =
  apply_change (live_change q now g k (apply_change ch w) no_change) (apply_change ch w).
Proof. destruct ch as [m t du rs]. cbn. intros -> ->. destruct m, t as [[? ?]|]; done. Qed.

Section PlanRows.
Context (new_id : ckey -> string) (q : reads) (now : Z).
Let c := read_content q.(q_tables).
Let news := new_rows new_id q now c.
Let live := live_items q c news.
Let wanted := wanted_pairs (key_to_id live) c.
Let raised := (flags q.(q_feeds) live now).1.
Let g := final_graph q now live wanted raised.
Let pl := make_plan new_id q now.

Lemma plan_new k : pl.(p_new) !! k = (fun w => apply_change (change_new q now g k w) w) <$> news !! k.
Proof.
  unfold pl, make_plan. fold c. fold news. fold live. fold wanted. unfold g, raised. destruct (flags (q_feeds q) live now) as [rd fd].
  cbn [p_new fst]. rewrite map_lookup_imap. by destruct (news !! k).
Qed.
Lemma plan_changes k : pl.(p_changes) !! k =
  (w ← q.(q_items) !! k; let ch := change_of q now c live g k w in if bool_decide (ch = no_change) then None else Some (v_revision w, ch)).
Proof.
  unfold pl, make_plan. fold c. fold news. fold live. fold wanted. unfold g, raised. destruct (flags (q_feeds q) live now) as [rd fd].
  cbn [p_changes fst]. rewrite map_lookup_imap. by destruct (q_items q !! k).
Qed.
Lemma plan_flags : pl.(p_flags) = raised.
Proof.
  unfold pl, make_plan. fold c. fold news. fold live. fold wanted. unfold raised. by destruct (flags (q_feeds q) live now).
Qed.
Lemma plan_edges : pl.(p_gone) = gone_edges q wanted /\ pl.(p_added) = added_edges q wanted.
Proof.
  unfold pl, make_plan. fold c. fold news. fold live. fold wanted. by destruct (flags (q_feeds q) live now).
Qed.

Lemma new_rows_elem k w : news !! k = Some w ->
  exists key i, k = new_id key /\ c.(c_found) !! key = Some i /\ key ∉ tracked_keys q.(q_items) /\
    w = new_row q.(q_cycles) (_themes_by_name q.(q_themes)) now key i.
Proof.
  intros H. apply elem_of_list_to_map_2, list_elem_of_omap in H as ([key i] & Hin%elem_of_map_to_list & H). cbn [fst snd] in H.
  case_bool_decide; [done|]. injection H as <- <-. by exists key, i.
Qed.

Lemma live_elem k lw : live !! k = Some lw ->
  (exists w, q.(q_items) !! k = Some w /\ live_row c w = Some lw) \/ (q.(q_items) !! k ≫= live_row c = None /\ news !! k = Some lw).
Proof.
  unfold live, live_items. intros H. apply lookup_union_Some_raw in H as [H|[Hn H]].
  - left. rewrite lookup_omap in H. destruct (q_items q !! k) as [w|]; [|done]. by exists w.
  - right. by rewrite <- lookup_omap.
Qed.

Lemma live_not_missing k lw : live !! k = Some lw -> v_missing lw = false.
Proof.
  intros [(w & _ & H)|[_ H]]%live_elem.
  - pose proof (live_row_spec c w) as Hs. rewrite H in Hs. apply Hs.
  - by apply new_rows_elem in H as (key & i & _ & _ & _ & ->).
Qed.

Lemma live_in_place :
  (forall k w, q.(q_items) !! k = Some w -> own_in_place k w) -> forall k w, live !! k = Some w -> own_in_place k w.
Proof.
  intros H k lw [(w & Hw & E)|[_ E]]%live_elem.
  - pose proof (live_row_spec c w) as Hs. rewrite E in Hs. destruct Hs as [-> _]. pose proof (item_change_plain c w) as [_ Hr].
    unfold own_in_place. assert (v_stale_reasons (apply_change (item_change c w) w) = v_stale_reasons w) as ->; [|by apply H].
    destruct (item_change c w) as [[m|] [[? ?]|] du [rs|]]; done.
  - apply new_rows_elem in E as (key & i & _ & _ & _ & ->). split; cbn; [by intros r ?%elem_of_nil|lia].
Qed.
Lemma raised_live f : f ∈ raised -> is_Some (live !! f_item f).
Proof. intros H. by apply flags_live in H as []. Qed.

(** A live row as the run leaves it, where nobody changed it meanwhile. *)
Definition left_as (k : string) (lw w' : row) : Prop :=
  let rs := reasons_of g.(g_reasons) k in
  requested w' = requested lw /\ v_tenant w' = v_tenant lw /\ v_title w' = v_title lw /\ v_missing w' = false /\
  v_due_at w' = run_due q now lw /\
  ((v_stale_reasons w' = SReason <$> rs /\ v_stale w' = nonempty rs) \/
   (v_stale_reasons w' = v_stale_reasons lw /\ v_stale w' = v_stale lw /\ v_stale lw = nonempty rs /\
    reasons_differ k (run_text q now lw) rs lw = false)).

Lemma left_as_change k lw : v_missing lw = false -> left_as k lw (apply_change (live_change q now g k lw no_change) lw).
Proof.
  intros Hm. unfold left_as, live_change. cbn [ch_missing ch_title no_change].
  set (rs := reasons_of (g_reasons g) k). set (due := if _ =? _ then None else _).
  assert (default (v_due_at lw) due = run_due q now lw) as Hdue by (unfold due; by destruct (Z.eqb_spec (v_due_at lw) (run_due q now lw))).
  destruct (reasons_differ k (run_text q now lw) rs lw || negb (Bool.eqb (v_stale lw) (nonempty rs))) eqn:E;
    cbn [apply_change ch_missing ch_title ch_due ch_reasons with_clock v_tenant v_title v_missing v_due_at v_stale v_stale_reasons].
  - do 3 (split; [done|]). split; [done|]. split; [done|]. by left.
  - do 3 (split; [done|]). split; [done|]. split; [done|]. right. apply orb_false_iff in E as [E1 E2].
    apply negb_false_iff, eqb_prop in E2. done.
Qed.
Lemma left_as_bumped k lw w' : left_as k lw w' -> left_as k lw (bumped w').
Proof. done. Qed.

(** The row of a content that was there, and of one that was not. *)
Lemma old_row_left k w cur :
  (forall key, q.(q_items) !! new_id key = None) -> q.(q_items) !! k = Some w -> cur = w ->
  match live_row c w with
  | Some lw => left_as k lw (write_old pl k cur)
  | None => v_missing (write_old pl k cur) = true /\ v_stale (write_old pl k cur) = v_stale w /\
            v_stale_reasons (write_old pl k cur) = v_stale_reasons w
  end.
Proof.
  intros Hfresh Hw ->. unfold write_old. rewrite plan_changes, Hw. cbn [mbind option_bind]. cbv zeta.
  assert (forall ch : change, match (if bool_decide (ch = no_change) then None else Some (v_revision w, ch)) with
    | Some (revision, ch0) => if v_revision w =? revision then bumped (apply_change ch0 w) else w | None => w end =
    if bool_decide (ch = no_change) then apply_change ch w else bumped (apply_change ch w)) as E.
  { intros ch. case_bool_decide as Hc; [by rewrite Hc, apply_no_change|]. by rewrite Z.eqb_refl. }
  rewrite E. clear E. unfold change_of. pose proof (live_row_spec c w) as Hs. destruct (live_row c w) as [lw|] eqn:El.
  - assert (live !! k = Some lw) as ->.
    { unfold live, live_items. apply lookup_union_Some_l. by rewrite lookup_omap, Hw. }
    destruct Hs as [-> Hm]. destruct (item_change_plain c w) as [H1 H2].
    rewrite apply_live_change by done. case_bool_decide; [|apply left_as_bumped]; by apply left_as_change.
  - destruct (live !! k) as [lw|] eqn:Hl.
    + apply live_elem in Hl as [(w' & Hw' & H)|[_ H]]; [congruence|].
      apply new_rows_elem in H as (key & i & -> & _). rewrite Hfresh in Hw. done.
    + destruct Hs as [Hm Hr]. destruct (item_change_plain c w) as [Hd _].
      destruct (item_change c w) as [m t du rs]. cbn in Hd, Hr. subst du rs.
      case_bool_decide; destruct m as [m|], t as [[? ?]|]; done.
Qed.

Lemma new_row_left k lw :
  news !! k = Some lw -> exists w', pl.(p_new) !! k = Some w' /\ left_as k lw w'.
Proof.
  intros H. eexists. split; [by rewrite plan_new, H|]. apply left_as_change.
  by apply new_rows_elem in H as (key & i & _ & _ & _ & ->).
Qed.
End PlanRows.

(** ** The feeds' flags *)

(** Ids made by [uuid4] are new. *)
Definition ids_fresh (new_id : ckey -> string) (d : db) : Prop :=
  Inj (=) (=) new_id /\ forall key, d.(d_items) !! new_id key = None.

Definition carries (item key : string) (w : row) : Prop :=
  exists r, r ∈ valid_reasons w.(v_stale_reasons) /\ r.(r_origin) = item /\ r.(r_kind) ∈ FLAG_KINDS /\ r.(r_source) = Some key.

Lemma seen_after_flag k text l r :
  r.(r_kind) ∈ FLAG_KINDS -> SReason r ∈ seen_after k text l -> SReason r ∈ l.
Proof.
  intros Hk. destruct text as [t|]; [|done]. cbn [seen_after]. induction l as [|[x|] l IH]; [done| |].
  - cbn [retext_stored]. destruct (is_clock_of k x) eqn:E; [|rewrite !elem_of_cons; naive_solver].
    intros [[= ->]|?]%elem_of_cons; [|by right]. apply (flag_kind_not_clock k) in Hk. unfold is_clock_of in *. cbn in Hk. congruence.
  - cbn [retext_stored]. rewrite !elem_of_cons. naive_solver.
Qed.
Lemma valid_stored l r : r ∈ valid_reasons l <-> SReason r ∈ l.
Proof.
  unfold valid_reasons. rewrite list_elem_of_omap. split; [intros ([x|] & Hin & E); [|done]; by injection E as ->|].
  intros H. by exists (SReason r).
Qed.

(** A row left as the plan says carries the graph's flags, or its row carried them. *)
Lemma left_carries new_id q now k lw w' r key :
  left_as new_id q now k lw w' ->
  let c := read_content q.(q_tables) in
  let live := live_items q c (new_rows new_id q now c) in
  r ∈ reasons_of (final_graph q now live (wanted_pairs (key_to_id live) c) (flags q.(q_feeds) live now).1).(g_reasons) k ->
  r.(r_origin) = k -> r.(r_kind) ∈ FLAG_KINDS -> r.(r_source) = Some key ->
  carries k key w'.
Proof.
  intros (_ & _ & _ & _ & _ & Hrs). cbn zeta. intros Hr Ho Hk Hs. exists r. split; [|done].
  destruct Hrs as [[-> _]|(-> & _ & _ & Hd)]; [by rewrite valid_reasons_stored|].
  unfold reasons_differ in Hd. apply negb_false_iff, bool_decide_eq_true in Hd. apply valid_stored, (seen_after_flag k (run_text q now lw) _ r Hk).
  rewrite <- Hd. apply list_elem_of_fmap_2. exact Hr.
Qed.

(** C28: a feed flag is recorded as raised only with a row that carries it, whatever requests committed while
    the run computed.  Where the run creates or changes the item's row, the row as it writes it carries the
    flag.  Where the run has nothing to change, the row carried the flag when the run read it, and still does
    unless a request has changed the row since (the flag stays recorded although that request, a review,
    may have cleared it).  Of an item whose row the run had to leave alone nothing is recorded, and the next
    run raises it again. *)
Theorem recorded_flags_carried new_id q now d ops fd :
  d.(d_items) = q.(q_items) -> ids_fresh new_id d -> (forall k w, d.(d_items) !! k = Some w -> own_in_place k w) ->
  let s := Site (foldl run_op d ops) fd in
  let pl := make_plan new_id q now in
  let s' := (write pl s).1 in
  (forall item key, (item, key) ∈ s'.(s_feeds).(fd_flags) -> (item, key) ∉ fd.(fd_flags) ->
     match pl.(p_changes) !! item, q.(q_items) !! item with
     | None, Some w => carries item key w /\
         forall cur, s'.(s_db).(d_items) !! item = Some cur -> v_revision cur = v_revision w -> carries item key cur
     | _, _ => exists w, s'.(s_db).(d_items) !! item = Some w /\ carries item key w
     end) /\
  (forall f, f ∈ pl.(p_flags) -> f_item f ∈ skipped pl s.(s_db).(d_items) ->
     s'.(s_db).(d_items) !! f_item f = s.(s_db).(d_items) !! f_item f /\
     ((f_item f, f_entry_key f) ∈ s'.(s_feeds).(fd_flags) -> (f_item f, f_entry_key f) ∈ fd.(fd_flags))).
Proof.
  intros Hi [Hinj Hfresh] Hplace. cbn zeta. set (s := Site _ fd). set (pl := make_plan new_id q now).
  assert (forall k, is_Some (s.(s_db).(d_items) !! k) <-> is_Some (q.(q_items) !! k)) as Hsame.
  { intros k. pose proof (run_ops_rise ops d k) as H. rewrite Hi in H. unfold s. cbn [s_db].
    destruct (q_items q !! k), (d_items (foldl run_op d ops) !! k); cbn in H; try done; split; intros []; done. }
  assert (forall item key, (item, key) ∈ fd_flags (s_feeds (write pl s).1) <->
    (item, key) ∈ fd.(fd_flags) \/ exists f, f ∈ pl.(p_flags) /\ f_item f ∉ skipped pl s.(s_db).(d_items) /\
      item = f_item f /\ key = f_entry_key f) as Hflags.
  { intros item key. unfold write. cbn [fst s_feeds record fd_flags with_enabled]. rewrite elem_of_app, list_elem_of_fmap.
    setoid_rewrite elem_of_lfilter. split.
    - intros [?|(f & E & Hf & Hs)]; [by left|]. injection E as -> ->. right. exists f. reflect_bools. done.
    - intros [?|(f & Hf & Hs & -> & ->)]; [by left|]. right. exists f. split; [done|]. split; [done|].
      by rewrite bool_decide_eq_false_2. }
  assert (forall key, q.(q_items) !! new_id key = None) as Hfq by (intros key; by rewrite <- Hi).
  split.
  - intros item key [?|(f & Hf & Hs & -> & ->)]%Hflags Hn; [done|]. clear Hn.
    unfold pl in Hf. rewrite plan_flags in Hf.
    destruct (flags_live _ _ _ _ Hf) as [[lw Hl] Hk].
    destruct (final_flags q now _ (wanted_pairs (key_to_id (live_items q (read_content (q_tables q)) (new_rows new_id q now (read_content (q_tables q)))))
        (read_content (q_tables q))) _ (live_in_place new_id q now ltac:(intros; apply Hplace; by rewrite Hi)) f Hf Hk)
      as (r & Hr & Ho & Hkr & Hsr).
    rewrite <- Hkr in Hk. apply live_elem in Hl as [(w & Hw & El)|[_ Hl]].
    + pose proof (old_row_left new_id q now (f_item f) w w Hfq Hw eq_refl) as H. rewrite El in H.
      pose proof (left_carries _ _ _ _ _ _ r (f_entry_key f) H Hr Ho Hk Hsr) as Hc. rewrite Hw.
      assert (Hsync : forall cur, d_items (s_db s) !! f_item f = Some cur -> v_revision cur = v_revision w -> v_stale_reasons cur = v_stale_reasons w).
      { intros cur Hcur Hrev. pose proof (run_ops_rise ops d (f_item f)) as Hrise. rewrite Hi, Hw in Hrise. unfold s in Hcur. cbn [s_db] in Hcur.
        rewrite Hcur in Hrise. cbn in Hrise. destruct Hrise as [?|[Hsy _]]; [lia|]. by injection Hsy. }
      destruct (p_changes pl !! (f_item f)) as [[revision ch]|] eqn:Ep.
      * assert (exists cur, d_items (s_db s) !! (f_item f) = Some cur) as [cur Hcur] by (apply Hsame; by eexists).
        destruct (plan_change _ _ _ _ _ _ Ep) as (w0 & Hw0 & ->). simplify_eq.
        assert (v_revision cur = v_revision w) as Hrev.
        { apply dec_stable. intros Hne. apply Hs. unfold skipped. apply elem_of_dom. exists (v_revision w, ch).
          apply map_lookup_filter_Some. split; [done|]. cbn [fst snd]. rewrite Hcur. cbn. apply bool_decide_eq_false_2. congruence. }
        exists (write_old pl (f_item f) cur). split; [by apply write_lookup|]. destruct Hc as (x & Hx & ?). exists x. split; [|done].
        revert Hx. unfold write_old. fold pl. rewrite Ep, Hrev, Z.eqb_refl.
        assert (v_stale_reasons (bumped (apply_change ch cur)) = v_stale_reasons (bumped (apply_change ch w))) as ->; [|done].
        pose proof (Hsync cur Hcur Hrev) as Hsr'. destruct ch as [[m|] [[? ?]|] du [rs|]]; cbn; done.
      * assert (Hcw : carries (f_item f) (f_entry_key f) w) by (revert Hc; unfold write_old; fold pl; by rewrite Ep).
        split; [done|]. intros cur Hcur Hrev. destruct (proj2 (Hsame (f_item f))) as [cur0 Hcur0]; [by eexists|].
        rewrite (write_lookup pl s _ cur0 Hcur0) in Hcur. injection Hcur as <-. revert Hrev. unfold write_old. rewrite Ep. intros Hrev.
        destruct Hcw as (x & Hx & ?). exists x. split; [|done]. by rewrite (Hsync cur0 Hcur0 Hrev).
    + destruct (new_row_left new_id q now (f_item f) lw Hl) as (w' & Hw' & Hleft). 
      assert (Hgoal : exists w1, d_items (s_db (write pl s).1) !! f_item f = Some w1 /\ carries (f_item f) (f_entry_key f) w1).
      2: { apply new_rows_elem in Hl as (ky & i & Ek & _). 
           assert (q_items q !! f_item f = None) as -> by (rewrite Ek; apply Hfq). by destruct (p_changes pl !! _). }
      exists w'. split.
      * unfold write. cbn [fst s_db d_items]. apply lookup_union_Some_raw. right. split; [|exact Hw'].
        rewrite map_lookup_imap. destruct (d_items (s_db s) !! (f_item f)) eqn:E; [|done].
        apply new_rows_elem in Hl as (ky & i & Ek & _). destruct (proj1 (Hsame (f_item f))) as [x Hx]; [by rewrite E|]. by rewrite Ek, Hfq in Hx.
      * by eapply left_carries.
  - intros f Hf Hs. split.
    + pose proof Hs as Hs'. unfold skipped in Hs'. apply elem_of_dom in Hs' as [[revision ch] [Hp Hne]%map_lookup_filter_Some].
      destruct (plan_change _ _ _ _ _ _ Hp) as (w & Hw & ->). destruct (proj2 (Hsame (f_item f))) as [cur Hcur]; [by eexists|].
      rewrite (write_lookup pl s _ cur Hcur), Hcur. f_equal. unfold write_old. rewrite Hp. cbn [fst snd] in Hne. rewrite Hcur in Hne. cbn in Hne.
      apply bool_decide_eq_false in Hne. destruct (Z.eqb_spec (v_revision cur) (v_revision w)); [|done]. congruence.
    + intros [?|(f' & _ & Hs' & E1 & _)]%Hflags; [done|]. rewrite E1 in Hs. done.
Qed.

(** ** A run that nothing interrupts *)

Lemma depends_of_nonempty es item X : depends_of es !! item = Some X -> X <> ∅.
Proof.
  unfold depends_of. assert (forall m : gmap string (gset string), (forall i Y, m !! i = Some Y -> Y <> ∅) ->
    forall i Y, foldl (fun m e => <[g_item e := {[g_on e]} ∪ default ∅ (m !! g_item e)]> m) m es !! i = Some Y -> Y <> ∅) as H.
  { induction es as [|e es IH]; intros m Hm; cbn [foldl]; [done|]. apply IH. intros i Y.
    destruct (decide (i = g_item e)) as [->|Hne]; [rewrite lookup_insert_eq; intros [= <-]; set_solver|].
    rewrite lookup_insert_ne by done. apply Hm. }
  apply H. intros i Y. by rewrite lookup_empty.
Qed.
Lemma depends_of_ext es es' :
  (forall item on, (exists e, e ∈ es /\ e.(g_item) = item /\ e.(g_on) = on) <->
                   (exists e, e ∈ es' /\ e.(g_item) = item /\ e.(g_on) = on)) ->
  depends_of es = depends_of es'.
Proof.
  intros H. apply map_eq. intros item.
  assert (default ∅ (depends_of es !! item) = default ∅ (depends_of es' !! item)) as E.
  { apply set_eq. intros on. by rewrite !elem_of_depends_of. }
  destruct (depends_of es !! item) as [X|] eqn:E1, (depends_of es' !! item) as [Y|] eqn:E2; cbn in E; unfold id in E; subst; try done.
  - by apply depends_of_nonempty in E1.
  - by apply depends_of_nonempty in E2.
Qed.

Lemma elem_of_wanted ids c x y :
  (x, y) ∈ wanted_pairs ids c <->
  exists a b, b ∈ default ∅ (c.(c_depends) !! a) /\ ids !! a = Some x /\ ids !! b = Some y.
Proof.
  unfold wanted_pairs. rewrite elem_of_list_to_set, list_elem_of_In, in_concat. setoid_rewrite <- list_elem_of_In.
  setoid_rewrite list_elem_of_fmap. split.
  - intros (l & ([a X] & -> & Ha%elem_of_map_to_list) & Hp). unfold pairs_on in Hp. cbn [fst snd] in Hp.
    apply list_elem_of_omap in Hp as (b & Hb%elem_of_elements & Hp). destruct (ids !! a) as [x'|] eqn:E1; [|done]. cbn in Hp.
    destruct (ids !! b) as [y'|] eqn:E2; [|done]. injection Hp as -> ->. exists a, b. by rewrite Ha.
  - intros (a & b & Hb & Ha & Hi). destruct (c_depends c !! a) as [X|] eqn:E; [|by apply elem_of_empty in Hb].
    eexists. split; [exists (a, X); split; [done|by apply elem_of_map_to_list]|]. unfold pairs_on. cbn [fst snd].
    apply list_elem_of_omap. exists b. split; [by apply elem_of_elements|]. rewrite Ha. cbn. by rewrite Hi.
Qed.

Lemma key_to_id_live live key k : key_to_id live !! key = Some k -> exists lw, live !! k = Some lw /\ key_of lw = key.
Proof.
  intros H. apply elem_of_list_to_map_2, list_elem_of_fmap in H as ([k' lw] & [= -> ->] & Hin%elem_of_map_to_list). by exists lw.
Qed.
Lemma key_to_id_unique live k lw :
  (forall k k' w w', live !! k = Some w -> live !! k' = Some w' -> key_of w = key_of w' -> k = k') ->
  live !! k = Some lw -> key_to_id live !! key_of lw = Some k.
Proof.
  intros Hu Hk. unfold key_to_id. apply elem_of_list_to_map_1'.
  - intros k' Hin. apply list_elem_of_fmap in Hin as ([k2 w2] & Heq & H2%elem_of_map_to_list). injection Heq as E1 E2 ->.
    apply (Hu k k2 lw w2 Hk H2). unfold key_of. congruence.
  - apply list_elem_of_fmap. exists (k, lw). split; [done|]. by apply elem_of_map_to_list.
Qed.

Lemma valid_retext k t l : valid_reasons (retext_stored k t l) = retext_first (is_clock_of k) t (valid_reasons l).
Proof.
  unfold valid_reasons. induction l as [|[r|] l IH]; cbn; [done| |done]. destruct (is_clock_of k r) eqn:E; cbn; [done|]. by rewrite IH.
Qed.
Lemma seen_after_length k text l : length (seen_after k text l) = length l.
Proof.
  destruct text as [t|]; [|done]. cbn. induction l as [|[r|] l IH]; cbn; [done| |by rewrite IH].
  destruct (is_clock_of k r); cbn; [done|by rewrite IH].
Qed.

(** A row whose reasons the run does not rewrite has the graph's, up to order and the clock's text. *)
Lemma unchanged_similar k text rs w :
  reasons_differ k text rs w = false ->
  similar k rs (valid_reasons w.(v_stale_reasons)) /\ nonempty (v_stale_reasons w) = nonempty rs.
Proof.
  unfold reasons_differ. rewrite negb_false_iff, bool_decide_eq_true. intros H. split.
  - assert (valid_reasons (SReason <$> rs) ≡ₚ valid_reasons (seen_after k text (v_stale_reasons w))) as Hp by (unfold valid_reasons; by rewrite H).
    rewrite valid_reasons_stored in Hp. destruct text as [t|]; cbn [seen_after] in Hp; [|by left].
    rewrite valid_retext in Hp. right. by exists t.
  - apply Permutation_length in H. rewrite length_fmap, seen_after_length in H.
    destruct rs, (v_stale_reasons w); cbn in H; done.
Qed.

Lemma apply_change_key ch w : key_of (apply_change ch w) = key_of w.
Proof. destruct ch as [[m|] [[? ?]|] du [rs|]]; done. Qed.

Section Alone.
Context (new_id : ckey -> string) (t : tables) (now : Z) (s : site).
Let d := s.(s_db).
Let q := reads_of t s.
Let c := read_content t.
Let news := new_rows new_id q now c.
Let live := live_items q c news.
Let wanted := wanted_pairs (key_to_id live) c.
Let raised := (flags q.(q_feeds) live now).1.
Let g := final_graph q now live wanted raised.
Let pl := make_plan new_id q now.
Let d' := (write pl s).1.(s_db).
Context (Hfresh : ids_fresh new_id d) (Hplace : forall k w, d.(d_items) !! k = Some w -> own_in_place k w).
Context (Hder : forall e, e ∈ d.(d_edges) -> e.(g_derived) = true) (Hmarked : marked d).
Context (Hrow : forall k k' w w', d.(d_items) !! k = Some w -> d.(d_items) !! k' = Some w' -> key_of w = key_of w' -> k = k').

(** Every row of the result is a live row, as the plan leaves it, or the row of a content that is gone. *)
Lemma alone_row k w' : d'.(d_items) !! k = Some w' ->
  (exists lw, live !! k = Some lw /\ left_as new_id q now k lw w') \/
  (live !! k = None /\ v_missing w' = true /\ v_stale w' = nonempty (v_stale_reasons w')).
Proof.
  destruct Hfresh as [_ Hf]. unfold d', write. cbn [fst s_db d_items]. fold d. intros H.
  apply lookup_union_Some_raw in H as [H|[Hn H]].
  - rewrite map_lookup_imap in H. destruct (d_items d !! k) as [w|] eqn:Hw; [|done]. cbn in H. injection H as <-.
    pose proof (old_row_left new_id q now k w w Hf Hw eq_refl) as Ho. fold pl in Ho.
    change (read_content (q_tables q)) with c in Ho.
    destruct (live_row c w) as [lw|] eqn:El.
    + left. exists lw. split; [|done]. apply lookup_union_Some_l. rewrite lookup_omap; change (q_items q !! k) with (d_items d !! k); by rewrite Hw.
    + right. split; [|destruct Ho as (? & -> & ->); split; [done|by apply (Hmarked k)]].
      unfold live, live_items. apply lookup_union_None. split; [rewrite lookup_omap; change (q_items q !! k) with (d_items d !! k); by rewrite Hw|].
      destruct (news !! k) as [x|] eqn:Hx; [|done]. apply new_rows_elem in Hx as (key & i & -> & _). rewrite Hf in Hw. done.
  - assert (d_items d !! k = None) as Hw by (rewrite map_lookup_imap in Hn; by destruct (d_items d !! k)).
    unfold pl in H. rewrite plan_new in H. apply fmap_Some in H as (lw & Hl & ->). left. exists lw. split.
    + unfold live, live_items. apply lookup_union_Some_raw. right. split; [|done]. rewrite lookup_omap; change (q_items q !! k) with (d_items d !! k); by rewrite Hw.
    + apply left_as_change. by apply new_rows_elem in Hl as (key & i & _ & _ & _ & ->).
Qed.
Lemma alone_live k lw : live !! k = Some lw -> exists w', d'.(d_items) !! k = Some w' /\ left_as new_id q now k lw w'.
Proof.
  intros Hl. destruct (d_items d' !! k) as [w'|] eqn:E.
  - exists w'. split; [done|]. destruct (alone_row k w' E) as [(lw' & Hl' & ?)|[Hn _]]; congruence.
  - exfalso. unfold d', write in E. cbn [fst s_db d_items] in E. fold d in E. apply lookup_union_None in E as [E1 E2].
    rewrite map_lookup_imap in E1. unfold pl in E2. rewrite plan_new in E2. apply fmap_None in E2.
    apply live_elem in Hl as [(w & Hw & _)|[_ Hl]]; [|congruence]. change (q_items q) with (d_items d) in Hw. by rewrite Hw in E1.
Qed.

Lemma alone_wanted x y : (x, y) ∈ wanted -> is_Some (live !! x) /\ is_Some (live !! y).
Proof.
  intros (a & b & _ & (lw & ? & _)%key_to_id_live & (lw' & ? & _)%key_to_id_live)%elem_of_wanted. split; by eexists.
Qed.

(** The edges afterwards are the wanted ones. *)
Lemma alone_edge x y : (exists e, e ∈ d'.(d_edges) /\ e.(g_item) = x /\ e.(g_on) = y) <-> (x, y) ∈ wanted.
Proof.
  unfold d', write. cbn [fst s_db d_edges]. fold d. unfold write_edges.
  destruct (plan_edges new_id q now) as [Eg Ea]. fold pl in Eg, Ea. change (read_content (q_tables q)) with c in Eg, Ea.
  fold news in Eg, Ea. fold live in Eg, Ea. fold wanted in Eg, Ea. rewrite Eg, Ea.
  assert (forall e, e ∈ d.(d_edges) -> e ∈ gone_edges q wanted <-> pair_of e ∉ wanted) as Hgone.
  { intros e He. unfold gone_edges. rewrite elem_of_lfilter, andb_true_iff, negb_true_iff, bool_decide_eq_false.
    split; [by intros [_ [_ ?]]|]. intros Hn. split; [done|]. split; [by apply Hder|done]. }
  assert (forall p, p ∈ pairs_where g_derived q.(q_edges) <-> exists e, e ∈ d.(d_edges) /\ pair_of e = p) as Hd.
  { intros p. unfold pairs_where. rewrite elem_of_list_to_set, list_elem_of_fmap. split.
    - intros (e & -> & [He _]%elem_of_lfilter). by exists e.
    - intros (e & He & <-). exists e. split; [done|]. apply elem_of_lfilter. split; [done|by apply Hder]. }
  split.
  - intros (e & [[He Hn]%elem_of_lfilter|He]%elem_of_app & <- & <-).
    + apply negb_true_iff, bool_decide_eq_false in Hn. apply dec_stable. intros Hw. apply Hn, Hgone; done.
    + unfold added_edges in He. apply list_elem_of_fmap in He as ([x' y'] & -> & Hp).
      rewrite elem_of_py_sorted, elem_of_elements in Hp. cbn. set_solver.
  - intros Hw. destruct (decide ((x, y) ∈ pairs_where g_derived q.(q_edges))) as [Hin|Hn].
    + apply Hd in Hin as (e & He & E). exists e. injection E as <- <-. split; [|done]. apply elem_of_app. left. apply elem_of_lfilter.
      split; [done|]. apply negb_true_iff, bool_decide_eq_false. rewrite Hgone by done. tauto.
    + exists (edge_on (x, y)). split; [|done]. apply elem_of_app. right. apply list_elem_of_fmap_2.
      rewrite elem_of_py_sorted, elem_of_elements. apply elem_of_difference. split; [set_solver|].
      unfold pairs_where. rewrite elem_of_list_to_set, list_elem_of_fmap. intros (e & _ & [He Hm]%elem_of_lfilter).
      unfold manual in Hm. by rewrite (Hder e He) in Hm.
Qed.

Lemma alone_used : used_of d' = used_by (depends_of (edge_on <$> live_pairs q live wanted)).
Proof.
  unfold used_of. f_equal. apply depends_of_ext. intros x y. rewrite alone_edge. split.
  - intros Hw. exists (edge_on (x, y)). split; [|done]. apply list_elem_of_fmap_2, live_pairs_elem. split; [by left|]. by apply alone_wanted.
  - intros (e & ([x' y'] & -> & [[Hw|Hm] _]%live_pairs_elem)%list_elem_of_fmap & <- & <-); [done|]. exfalso.
    unfold pairs_where in Hm. apply elem_of_list_to_set, list_elem_of_fmap in Hm as (e & _ & [He Hm]%elem_of_lfilter).
    unfold manual in Hm. by rewrite (Hder e He) in Hm.
Qed.

Lemma alone_live_rows k w' : live_rows d' !! k = Some w' <-> exists lw, live !! k = Some lw /\ d'.(d_items) !! k = Some w'.
Proof.
  rewrite live_rows_lookup. split.
  - intros [Hw Hm]. destruct (alone_row k w' Hw) as [(lw & Hl & _)|(_ & Hm' & _)]; [by exists lw|congruence].
  - intros (lw & Hl & Hw). split; [done|]. destruct (alone_live k lw Hl) as (x & Hx & Hleft). rewrite Hx in Hw. injection Hw as <-. apply Hleft.
Qed.

Lemma alone_frame : same_frame (run_graph q live wanted) (full d').
Proof.
  assert (forall k lw w', live !! k = Some lw -> d'.(d_items) !! k = Some w' -> left_as new_id q now k lw w') as Hleft.
  { intros k lw w' Hl Hw. destruct (alone_live k lw Hl) as (x & Hx & H). congruence. }
  unfold full, run_graph, graph_of. rewrite alone_used. split; [done|]. split; cbn [mk_graph g_names g_retired].
  - apply map_eq. intros k. rewrite !lookup_fmap. destruct (live_rows d' !! k) as [w'|] eqn:Ew; cbn.
    + apply alone_live_rows in Ew as (lw & Hl & Hw). rewrite Hl. cbn. destruct (Hleft k lw w' Hl Hw) as (Hr & _ & Ht & _).
      assert (v_item_type w' = v_item_type lw) as Hty by (unfold requested in Hr; congruence). by rewrite Hty, Ht.
    + destruct (live !! k) as [lw|] eqn:Hl; cbn; [|done]. destruct (alone_live k lw Hl) as (x & Hx & _).
      rewrite (proj2 (alone_live_rows k x)) in Ew by by exists lw. done.
  - apply set_eq. intros k. rewrite !elem_of_dom. unfold is_Some. setoid_rewrite map_lookup_filter_Some. setoid_rewrite alone_live_rows. split.
    + intros (w' & (lw & Hl & Hw) & Hr). exists lw. split; [done|]. cbn in *. destruct (Hleft k lw w' Hl Hw) as (Hq & _). unfold requested in Hq. congruence.
    + intros (lw & Hl & Hr). destruct (alone_live k lw Hl) as (w' & Hw & H). exists w'. split; [by exists lw|]. cbn in *.
      destruct H as (Hq & _). unfold requested in Hq. congruence.
Qed.

Lemma alone_similar k : similar k (reasons_of g.(g_reasons) k) (row_reasons d' k).
Proof.
  unfold row_reasons. destruct (d_items d' !! k) as [w'|] eqn:Ew.
  - destruct (alone_row k w' Ew) as [(lw & Hl & Hleft)|(Hn & -> & _)].
    + destruct Hleft as (_ & _ & _ & -> & _ & [[-> _]|(-> & _ & _ & Hd)]); [rewrite valid_reasons_stored; by left|].
      by apply unchanged_similar in Hd as [? _].
    + left. unfold g. rewrite (final_gone q now live wanted raised); [done|apply live_in_place, Hplace| |done].
      intros f. apply (raised_live new_id q now).
  - left. unfold g. rewrite (final_gone q now live wanted raised); [done|apply live_in_place, Hplace| |].
    + intros f. apply (raised_live new_id q now).
    + destruct (live !! k) as [lw|] eqn:Hl; [|done]. destruct (alone_live k lw Hl) as (x & Hx & _). congruence.
Qed.

Lemma alone_clock_ok : clock_ok d'.
Proof.
  split.
  - intros e He. assert ((g_item e, g_on e) ∈ wanted) as [[lw Hl] [lw' Hl']]%alone_wanted by (apply alone_edge; by exists e).
    split; [destruct (alone_live _ _ Hl) as (w & Hw & H)|destruct (alone_live _ _ Hl') as (w & Hw & H)]; exists w; (split; [done|]); apply H.
  - eapply settled_similar; [| |apply (final_settled q now live wanted raised)].
    + eapply same_frame_trans; [|exact alone_frame].
      destruct (final_frame q now live wanted raised) as (?&?&?); [apply live_in_place, Hplace|]. by split.
    + intros k. rewrite full_reasons. apply alone_similar.
    + apply live_in_place, Hplace.
Qed.

Lemma alone_marked : marked d'.
Proof.
  intros k w' Hw. destruct (alone_row k w' Hw) as [(lw & Hl & Hleft)|(_ & _ & ?)]; [|done].
  destruct Hleft as (_ & _ & _ & _ & _ & [[-> ->]|(-> & -> & -> & Hd)]); [by rewrite nonempty_stored|].
  by apply unchanged_similar in Hd as [_ ->].
Qed.

Lemma live_key k lw : live !! k = Some lw ->
  (exists w, d.(d_items) !! k = Some w /\ key_of lw = key_of w) \/
  (k = new_id (key_of lw) /\ key_of lw ∉ tracked_keys d.(d_items) /\ is_Some (c.(c_found) !! key_of lw)).
Proof.
  intros [(w & Hw & E)|[_ E]]%live_elem.
  - left. exists w. split; [done|]. pose proof (live_row_spec (read_content (q_tables q)) w) as Hs. rewrite E in Hs. destruct Hs as [-> _].
    apply apply_change_key.
  - right. apply new_rows_elem in E as ([ty id] & i & -> & Hf & Hn & ->). split; [done|]. split; [done|by eexists].
Qed.
Lemma tracked_elem k w : d.(d_items) !! k = Some w -> key_of w ∈ tracked_keys d.(d_items).
Proof.
  intros H. unfold tracked_keys. apply elem_of_list_to_set, list_elem_of_fmap. exists (k, w). split; [done|by apply elem_of_map_to_list].
Qed.
Lemma alone_unique k k' w w' : live !! k = Some w -> live !! k' = Some w' -> key_of w = key_of w' -> k = k'.
Proof.
  intros H1 H2 E. destruct (live_key k w H1) as [(x & Hx & E1)|(E1 & Hn & _)], (live_key k' w' H2) as [(x' & Hx' & E2)|(E2 & Hn' & _)].
  - apply (Hrow k k' x x' Hx Hx'). congruence.
  - destruct Hn'. rewrite <- E, E1. by eapply tracked_elem.
  - destruct Hn. rewrite E, E2. by eapply tracked_elem.
  - congruence.
Qed.

(** A content that exists has its live row. *)
Lemma alone_found key : is_Some (c.(c_found) !! key) -> exists k lw, live !! k = Some lw /\ key_of lw = key.
Proof.
  intros [i Hi]. destruct (decide (key ∈ tracked_keys d.(d_items))) as [Hin|Hn].
  - unfold tracked_keys in Hin. apply elem_of_list_to_set, list_elem_of_fmap in Hin as ([k w] & -> & Hw%elem_of_map_to_list). cbn [snd] in *.
    exists k. eexists. split; [|apply (apply_change_key (item_change c w))]. apply lookup_union_Some_l. rewrite lookup_omap.
    change (q_items q !! k) with (d_items d !! k). rewrite Hw. cbn. unfold live_row. by rewrite Hi.
  - destruct Hfresh as [Hinj Hf]. exists (new_id key). eexists. split.
    + apply lookup_union_Some_raw. right. split.
      * rewrite lookup_omap. change (q_items q !! new_id key) with (d_items d !! new_id key). by rewrite Hf.
      * unfold news, new_rows. apply elem_of_list_to_map_1'.
        2: { apply list_elem_of_omap. exists (key, i). split; [by apply elem_of_map_to_list|]. cbn [fst snd].
             rewrite bool_decide_eq_false_2; [reflexivity|exact Hn]. }
        intros w Hin. apply list_elem_of_omap in Hin as ([key' i'] & Hin%elem_of_map_to_list & E). cbn [fst snd] in E.
        case_bool_decide; [done|]. injection E as Ek <-. apply Hinj in Ek as ->. by simplify_eq.
    + by destruct key.
Qed.

Lemma alone_due k w' : d'.(d_items) !! k = Some w' -> v_missing w' = false ->
  v_due_at w' = due_at (default now (v_created_at w')) (v_last_reviewed_at w') (for_row d.(d_cycles) w').
Proof.
  intros Hw Hm. destruct (alone_row k w' Hw) as [(lw & _ & Hr & Hte & _ & _ & -> & _)|(_ & ? & _)]; [|congruence].
  unfold run_due. change (q_cycles q) with (d_cycles d). unfold requested in Hr.
  assert (v_created_at w' = v_created_at lw) as -> by congruence. assert (v_last_reviewed_at w' = v_last_reviewed_at lw) as -> by congruence.
  f_equal. unfold for_row. assert (v_cycle_days w' = v_cycle_days lw) as -> by congruence.
  assert (v_item_type w' = v_item_type lw) as -> by congruence. by rewrite Hte.
Qed.
Lemma alone_title k w' : d'.(d_items) !! k = Some w' -> v_missing w' = false ->
  v_item_type w' = "lab"%string \/ exists i, c.(c_found) !! key_of w' = Some i /\ v_title w' = i_title i /\ v_tenant w' = i_tenant i.
Proof.
  intros Hw Hm. destruct (alone_row k w' Hw) as [(lw & Hl & Hr & Hte & Hti & _)|(_ & ? & _)]; [|congruence].
  assert (key_of w' = key_of lw) as Hk by (unfold key_of, requested in *; congruence). rewrite Hti, Hte, Hk.
  assert (v_item_type w' = v_item_type lw) as Hty by (unfold requested in Hr; congruence). rewrite Hty.
  apply live_elem in Hl as [(w & Hx & E)|[_ E]].
  - change (read_content (q_tables q)) with c in E. unfold live_row in E. destruct (c_found c !! key_of w) as [i|] eqn:Ef.
    + injection E as <-. right. exists i. rewrite apply_change_key. split; [done|]. unfold item_change. rewrite Ef.
      destruct (negb _ || _ || _) eqn:Ec; [done|]. rewrite apply_no_change. apply orb_false_iff in Ec as [[E1 E2]%orb_false_iff _].
      apply negb_false_iff, String.eqb_eq in E1. apply bool_decide_eq_false, dec_stable in E2. done.
    + destruct (negb _ && _) eqn:Ec; [|done]. injection E as <-. left. apply andb_true_iff in Ec as [_ Ec]. by apply String.eqb_eq in Ec.
  - right. apply new_rows_elem in E as ([ty id] & i & _ & Hf & _ & ->). exists i. done.
Qed.
Lemma alone_edges k k' w w' :
  d'.(d_items) !! k = Some w -> v_missing w = false -> d'.(d_items) !! k' = Some w' -> v_missing w' = false ->
  (exists e, e ∈ d'.(d_edges) /\ e.(g_item) = k /\ e.(g_on) = k') <-> key_of w' ∈ default ∅ (c.(c_depends) !! key_of w).
Proof.
  intros H1 M1 H2 M2. rewrite alone_edge. unfold wanted. rewrite elem_of_wanted.
  destruct (alone_row k w H1) as [(lw & Hl & Hr & _)|(_ & ? & _)]; [|congruence].
  destruct (alone_row k' w' H2) as [(lw' & Hl' & Hr' & _)|(_ & ? & _)]; [|congruence].
  assert (key_of w = key_of lw) as -> by (unfold key_of, requested in *; congruence).
  assert (key_of w' = key_of lw') as -> by (unfold key_of, requested in *; congruence). split.
  - intros (a & b & Hb & (x & Hx & <-)%key_to_id_live & (x' & Hx' & <-)%key_to_id_live). by simplify_eq.
  - intros Hb. exists (key_of lw), (key_of lw'). split; [done|].
    split; apply key_to_id_unique; try done; exact alone_unique.
Qed.
End Alone.

(** A run that nothing interrupts brings the clock's tables in order: every content has its row, with its
    title and tenant; the rows of content that is gone are marked missing; the edges are exactly what the
    content depends on; every due date is the last review, else the first day, and the cycle; and the stale
    reasons are settled, as the requests that follow then keep them. *)
Theorem sync_settles new_id t now s ops :
  let d := s.(s_db) in
  ids_fresh new_id d -> (forall k w, d.(d_items) !! k = Some w -> own_in_place k w) ->
  (forall e, e ∈ d.(d_edges) -> e.(g_derived) = true) -> marked d ->
  (forall k k' w w', d.(d_items) !! k = Some w -> d.(d_items) !! k' = Some w' -> key_of w = key_of w' -> k = k') ->
  let d' := (write (make_plan new_id (reads_of t s) now) s).1.(s_db) in
  let c := read_content t in
  let there k w := d'.(d_items) !! k = Some w /\ v_missing w = false in
  (clock_ok (foldl run_op d' ops) /\ marked (foldl run_op d' ops)) /\
  (forall key, is_Some (c.(c_found) !! key) -> exists k w, there k w /\ key_of w = key) /\
  (forall k w, there k w ->
     v_due_at w = due_at (default now (v_created_at w)) (v_last_reviewed_at w) (for_row d.(d_cycles) w) /\
     (v_item_type w = "lab"%string \/
      exists i, c.(c_found) !! key_of w = Some i /\ v_title w = i_title i /\ v_tenant w = i_tenant i)) /\
  (forall k k' w w', there k w -> there k' w' ->
     (exists e, e ∈ d'.(d_edges) /\ e.(g_item) = k /\ e.(g_on) = k') <->
     key_of w' ∈ default ∅ (c.(c_depends) !! key_of w)).
Proof.
  cbn zeta. intros Hf Hp Hd Hm Hr. split; [|split; [|split]].
  - apply run_ops_ok; [by apply alone_clock_ok|by apply alone_marked].
  - intros key Hk. destruct (alone_found new_id t now s Hf key Hk) as (k & lw & Hl & E).
    destruct (alone_live new_id t now s Hf Hm k lw Hl) as (w & Hw & Hq & _ & _ & Hmi & _). exists k, w. split; [done|].
    rewrite <- E. unfold key_of, requested in *. congruence.
  - intros k w [Hw Hmi]. split; [by apply (alone_due new_id t now s Hf Hm k)|by apply (alone_title new_id t now s Hf Hm k)].
  - intros k k' w w' [? ?] [? ?]. by apply alone_edges.
Qed.

(** ** A concrete install *)

Definition demo_tables : tables := Tables
  [GoldenRow "g1" "ubuntu-24.04" "" [] None; GoldenRow "g2" "ubuntu-2404" "" [] (Some "rival")]
  [TemplateRow "t1" "Net" (Some "acme") ["Linux"] [Node (Some "vm") (Some "ubuntu-2204") None; NotANode; Node (Some "Switch") None None]]
  [ScenarioRow "s1" "Breach" (Some "acme") [] "Net"] []
  [BookingRow "c1" (Some "t1") (Some "ann") "approved"; BookingRow "c1" None (Some "bob") "cancelled"]
  [CourseRow "c1" "Forensics" (Some "acme") []] [ModuleRow "m1" "Week 1" "c1" (Some "s1")] [].
(** An id for a content that no other has: the length of its type, in unary, then the type and its id. *)
Fixpoint tally (n : nat) (s : string) : string := match n with O => String ":" s | S n' => String "|" (tally n' s) end.
Definition demo_id (key : ckey) : string := tally (String.length key.1) (key.1 +:+ key.2).
Definition demo_feeds : feeds :=
  Feeds (Some "online"%string) (Some 0) [eol_entry] [] [("g1", "ubuntu-24.04"); ("g2", "ubuntu-2404")]%string
    {["ubuntu-24.04"%string := [windows]]}.
Definition demo_site : site := Site (Db ∅ [] ∅ ∅ ∅ []) demo_feeds.
Definition sync_alone (t : tables) (now : Z) (s : site) : site := (write (make_plan demo_id (reads_of t s) now) s).1.

Definition days (n : Z) : Z := n * DAY.
Definition site_1 : site := sync_alone demo_tables (days 40) demo_site.

(** What the first run makes of it: the shared golden template's end of life reaches the course by way of
    the template it is booked with; the rival's golden template, under the name asked for, is passed over. *)
Example demo_first :
  (fun kw => (key_of kw.2, r_text <$> valid_reasons (v_stale_reasons kw.2))) <$> map_to_list (filter (fun kw => v_stale kw.2 = true) site_1.(s_db).(d_items)) =
  [("course", "c1", ["Its golden template ubuntu-24.04 is stale (through range template Net)"]);
   ("module", "m1", ["Its golden template ubuntu-24.04 is stale (through scenario Breach)"]);
   ("scenario", "s1", ["Its golden template ubuntu-24.04 is stale (through range template Net)"]);
   ("range_template", "t1", ["Its golden template ubuntu-24.04 is stale"]);
   ("golden_template", "g1", ["Windows Server 2022 reached EOL 1970-01-31"])]%string /\
  site_1.(s_feeds).(fd_flags) = [(demo_id ("golden_template", "g1"), "eol:windows-server:2022")]%string /\
  (write (make_plan demo_id (reads_of demo_tables site_1) (days 40)) site_1).2 = Summary 0 0 0 5 0 0.
Proof. vm_compute. done. Qed.

(** ** The text of an overdue review

    The run compares the row's reasons with the graph's to see whether to write them.  But where the row
    holds a clock reason already, [set_overdue] changed its text in the dict the two share. *)
Lemma overdue_text_unseen k t now w r :
  List.find (is_clock_of k) (valid_reasons w.(v_stale_reasons)) = Some r -> SJunk ∉ w.(v_stale_reasons) ->
  reasons_differ k (Some t) (overdue_list k (Some t) now (valid_reasons w.(v_stale_reasons))) w = false.
Proof.
  intros Hf Hj. unfold reasons_differ. rewrite negb_false_iff, bool_decide_eq_true. cbn [seen_after].
  assert (SReason <$> valid_reasons (retext_stored k t w.(v_stale_reasons)) = retext_stored k t w.(v_stale_reasons)) as <-.
  { revert Hj. generalize (v_stale_reasons w). unfold valid_reasons. induction l as [|[x|] l IH]; [done| |]; intros Hj.
    - apply not_elem_of_cons in Hj as [_ Hj]. cbn [retext_stored]. destruct (is_clock_of k x); cbn; [|by rewrite IH].
      f_equal. clear - Hj. induction l as [|[y|] l IHl]; [done| |].
      + apply not_elem_of_cons in Hj as [_ Hj]. cbn. by rewrite IHl.
      + destruct Hj. left.
    - destruct Hj. left. }
  apply fmap_Permutation. rewrite valid_retext. unfold overdue_list. rewrite Hf.
  destruct (String.eqb_spec (r_text r) t) as [E|]; [|done]. by rewrite (Shared.retext_first_same k t _ r).
Qed.

Definition course_texts (s : site) : list string :=
  r_text <$> valid_reasons (default [] (v_stale_reasons <$> s.(s_db).(d_items) !! demo_id ("course", "c1")%string)).

(** So once a row says how overdue its review is, no later run corrects it: 91 days after the course was
    first seen its review is overdue by 1 day, and so it still says on the 95th, though the run set out to
    write 5 days. *)
Theorem overdue_text_stays :
  let s0 := sync_alone demo_tables 0 (Site (Db ∅ [] ∅ ∅ ∅ []) (Feeds None None [] [] [] ∅)) in
  let s1 := sync_alone demo_tables (days 91) s0 in
  let s2 := sync_alone demo_tables (days 95) s1 in
  course_texts s1 = ["Review overdue by 1 day"%string] /\ course_texts s2 = ["Review overdue by 1 day"%string] /\
  (run_text (reads_of demo_tables s1) (days 95) <$> s1.(s_db).(d_items) !! demo_id ("course", "c1")%string) =
    Some (Some "Review overdue by 5 days"%string).
Proof. vm_compute. done. Qed.

(** ** Witnesses *)

Lemma tally_inj n m s s' : tally n s = tally m s' -> n = m /\ s = s'.
Proof.
  revert m. induction n as [|n IH]; intros [|m]; cbn; try done; [by intros [= ->]|]. intros [= H]. apply IH in H as [-> ->]. done.
Qed.
Lemma append_inj a b s s' : String.length a = String.length b -> a +:+ s = b +:+ s' -> a = b /\ s = s'.
Proof.
  revert b. induction a as [|x a IH]; intros [|y b]; cbn; try done. intros [= Hl] [= -> H]. apply IH in H as [-> ->]; done.
Qed.
Lemma demo_id_inj : Inj (=) (=) demo_id.
Proof. intros [a s] [b s'] [Hl H]%tally_inj. cbn in *. apply append_inj in H as [-> ->]; done. Qed.

Definition demo_reads : reads := reads_of demo_tables demo_site.
Lemma demo_empty k w : demo_site.(s_db).(d_items) !! k = Some w -> False.
Proof. done. Qed.
Lemma sync_demo_fresh : ids_fresh demo_id demo_site.(s_db).
Proof. split; [exact demo_id_inj|done]. Qed.

Lemma depends_in_scope_witness :
  ("range_template", "t1")%string ∈ default ∅ (c_depends (read_content demo_tables) !! ("course", "c1")%string) /\
  ("course", "c1")%string <> ("range_template", "t1")%string.
Proof.
  assert (ids_unique demo_tables) as Hu.
  { unfold ids_unique. cbn. repeat apply conj; try apply NoDup_nil_2; try apply NoDup_singleton.
    apply NoDup_cons_2; [|apply NoDup_singleton]. intros H%list_elem_of_singleton. discriminate. }
  assert (("range_template", "t1")%string ∈ default ∅ (c_depends (read_content demo_tables) !! ("course", "c1")%string)) as Hin
    by (apply (bool_decide_eq_true_1 _); vm_compute; reflexivity).
  split; [exact Hin|]. exact (proj1 (depends_in_scope demo_tables ("course", "c1")%string ("range_template", "t1")%string Hu Hin)).
Defined.

(** The course's row of the first run is retired by an administrator while the second computes. *)
Definition late : Z := days 91.
Definition meanwhile : list service_op := [OpRetire admin (demo_id ("course", "c1"))%string "old" late].

Lemma no_lost_update_witness :
  exists w cur after,
    site_1.(s_db).(d_items) !! demo_id ("course", "c1")%string = Some w /\
    (foldl run_op site_1.(s_db) meanwhile).(d_items) !! demo_id ("course", "c1")%string = Some cur /\ v_retired cur = true /\
    (write (make_plan demo_id (reads_of demo_tables site_1) late) (Site (foldl run_op site_1.(s_db) meanwhile) site_1.(s_feeds))).1.(s_db).(d_items)
      !! demo_id ("course", "c1")%string = Some after /\ requested after = requested cur.
Proof.
  destruct (site_1.(s_db).(d_items) !! demo_id ("course", "c1")%string) as [w|] eqn:E; [|vm_compute in E; discriminate].
  destruct (no_lost_update demo_id (reads_of demo_tables site_1) late site_1.(s_db) meanwhile site_1.(s_feeds) _ w eq_refl E)
    as (cur & after & Hc & Ha & Hr & _).
  exists w, cur, after. split; [reflexivity|]. split; [exact Hc|]. split; [|split; [exact Ha|exact Hr]].
  cbn [s_db] in Hc. apply (f_equal (fmap v_retired)) in Hc. vm_compute in Hc. injection Hc as Hc. symmetry. exact Hc.
Defined.

Lemma recorded_flags_carried_witness :
  exists w, (write (make_plan demo_id demo_reads (days 40)) demo_site).1.(s_db).(d_items) !! demo_id ("golden_template", "g1")%string = Some w /\
    carries (demo_id ("golden_template", "g1")%string) "eol:windows-server:2022" w.
Proof.
  pose proof (recorded_flags_carried demo_id demo_reads (days 40) demo_site.(s_db) [] demo_site.(s_feeds) eq_refl sync_demo_fresh) as H.
  cbv zeta in H. destruct H as [H _]; [intros k w H; destruct (demo_empty k w H)|].
  specialize (H (demo_id ("golden_template", "g1")%string) "eol:windows-server:2022"%string).
  assert (E : q_items demo_reads !! demo_id ("golden_template", "g1")%string = None) by (vm_compute; reflexivity).
  rewrite E in H.
  assert (H' : exists w, (write (make_plan demo_id demo_reads (days 40)) demo_site).1.(s_db).(d_items) !! demo_id ("golden_template", "g1")%string = Some w /\
    carries (demo_id ("golden_template", "g1")%string) "eol:windows-server:2022" w).
  { destruct (p_changes _ !! _) in H; apply H.
    1, 3: apply (bool_decide_eq_true_1 _); vm_compute; reflexivity.
    all: intros Hn; vm_compute in Hn; apply elem_of_nil in Hn; exact Hn. }
  exact H'.
Defined.

Lemma sync_settles_witness :
  clock_ok (foldl run_op (write (make_plan demo_id (reads_of demo_tables demo_site) (days 40)) demo_site).1.(s_db) meanwhile).
Proof.
  refine (proj1 (proj1 (sync_settles demo_id demo_tables (days 40) demo_site meanwhile sync_demo_fresh _ _ _ _))).
  - intros k w H. destruct (demo_empty k w H).
  - intros e H. apply elem_of_nil in H. destruct H.
  - intros k w H. destruct (demo_empty k w H).
  - intros k k' w w' H. destruct (demo_empty k w H).
Defined.
