(* ===== verification/Cmi5Structure.v ===== *)
(** * cmi5 course structures

    Models [control-plane/api/app/cmi5/structure.py]: reading a release's cmi5.xml into its assignable units
    (AUs) and blocks, numbered in document order, and the ids TrueNorth gives them at run time.  The document
    enters as the tree the XML library returns; every refusal is a [StructureError], whose text is not
    modelled, and a mastery score is an exact decimal.

    The theorem: what is parsed is the document's tree, unit by unit and block by block in document order,
    each listed once, a block's number smaller than those below it, which is what the walks over it
    (Cmi5Lms.v) rely on.  Not modelled: the interpreter's recursion limit, which a few hundred nested blocks
    exceed, and the rounding of a mastery score to a double. *)

From S2P Require Import Prelude PyText.
From Stdlib Require Import Ascii QArith.

Local Open Scope Z_scope.

(** ** XML, as the parser returns it *)

Inductive xml := Elem (tag : string) (attrs : list (string * string)) (text : option string) (kids : list xml).
Definition x_tag (e : xml) : string := let (t, _, _, _) := e in t.
Definition x_kids (e : xml) : list xml := let (_, _, _, k) := e in k.
(** [el.get(name)]; [el.get(name) or d]. *)
Fixpoint attr_in (name : string) (l : list (string * string)) : option string :=
  match l with [] => None | (k, v) :: l' => if String.eqb k name then Some v else attr_in name l' end.
Definition x_get (e : xml) (name : string) : option string := let (_, a, _, _) := e in attr_in name a.
Definition or_text (s : option string) (d : string) : string :=
  match s with Some t => if String.eqb t "" then d else t | None => d end.
(** [el.find(tag)]: the first child with the tag. *)
Definition x_find (e : xml) (tag : string) : option xml := List.find (fun k => String.eqb (x_tag k) tag) (x_kids e).

Definition NS : string := "https://w3id.org/xapi/profiles/cmi5/v1/CourseStructure.xsd".
Definition Qtag (name : string) : string := "{" +:+ NS +:+ "}" +:+ name.
Definition MOVE_ON : list string := ["NotApplicable"; "Passed"; "Completed"; "CompletedAndPassed"; "CompletedOrPassed"]%string.

(** ** The course structure *)

Notation langs := (list (string * string)).
Inductive child := CAu (i : nat) | CBlock (i : nat).
#[export] Instance child_eq_dec : EqDecision child.
Proof. solve_decision. Defined.
Record AU := MkAU {
  au_index : nat; au_publisher_id : string; au_title : langs; au_description : langs; au_url_text : string;
  au_move_on : string; au_mastery : option Q; au_launch_method : string; au_launch_parameters : option string;
  au_entitlement_key : option string; au_blocks : list nat
}.
Record Block := MkBlock { b_index : nat; b_publisher_id : string; b_title : langs; b_children : list child }.
Record CourseStructure := MkCourse {
  c_publisher_id : string; c_title : langs; c_description : langs; c_children : list child;
  c_aus : list AU; c_blocks : list Block
}.

(** [out[k] = v] in a dict in insertion order. *)
Fixpoint dict_set (k v : string) (d : langs) : langs :=
  match d with [] => [(k, v)] | (k', v') :: d' => if String.eqb k' k then (k, v) :: d' else (k', v') :: dict_set k v d' end.
Definition x_text (e : xml) : option string := let (_, _, t, _) := e in t.
Definition _langstrings (e : option xml) : langs :=
  match e with
  | None => []
  | Some e => foldl (fun out ls => dict_set (strip (or_text (x_get ls "lang") "und")) (strip (default "" (x_text ls))) out)
                    [] (List.filter (fun k => String.eqb (x_tag k) (Qtag "langstring")) (x_kids e))
  end.
Definition _text (e : option xml) : option string := x ← e; t ← x_text x; Some (strip t).

(** ** [float(s)], of a finite decimal *)

Definition digit_of (c : ascii) : option Z :=
  let n := Z.of_nat (nat_of_ascii c) in if (48 <=? n) && (n <=? 57) then Some (n - 48) else None.
(** An underscore stands between two digits. *)
Fixpoint no_underscores (after_digit : bool) (s : string) : option string :=
  match s with
  | EmptyString => Some EmptyString
  | String c s' =>
      if Ascii.eqb c "_" then
        match after_digit, s' with
        | true, String d _ => if bool_decide (is_Some (digit_of d)) then no_underscores false s' else None
        | _, _ => None
        end
      else t ← no_underscores (bool_decide (is_Some (digit_of c))) s'; Some (String c t)
  end.
(** The value of the digits read on to [acc], how many they are, and what follows. *)
Fixpoint digits (acc : Z) (n : nat) (s : string) : Z * nat * string :=
  match s with
  | EmptyString => (acc, n, s)
  | String c s' => match digit_of c with Some d => digits (10 * acc + d) (S n) s' | None => (acc, n, s) end
  end.
Definition signed (s : string) : bool * string :=
  match s with
  | String c s' => if Ascii.eqb c "-" then (true, s') else if Ascii.eqb c "+" then (false, s') else (false, s)
  | EmptyString => (false, s)
  end.
Definition scaled_by (m e : Z) : Q :=
  if 0 <=? e then inject_Z (m * 10 ^ e) else m # Z.to_pos (10 ^ (- e)).
Definition float_text (s : string) : option Q :=
  t ← no_underscores false (rstrip_if number_space (lstrip_if number_space s));
  let (neg, t) := signed t in
  let '(whole, n1, t) := digits 0 0 t in
  let '(m, n2, t) := match t with
                     | String c t' => if Ascii.eqb c "." then digits whole 0 t' else (whole, O, t)
                     | EmptyString => (whole, O, t)
                     end in
  let m := if neg then - m else m in
  if Nat.eqb (n1 + n2) 0 then None
  else match t with
       | EmptyString => Some (scaled_by m (- Z.of_nat n2))
       | String c t' =>
           if Ascii.eqb c "e" || Ascii.eqb c "E" then
             let (eneg, t') := signed t' in
             let '(e, n3, t') := digits 0 0 t' in
             if Nat.eqb n3 0 || negb (String.eqb t' "") then None
             else Some (scaled_by m ((if eneg then - e else e) - Z.of_nat n2))
           else None
       end.

(** ** [parse] *)

Inductive structure_error := StructureError.
Notation R A := (result structure_error A).

(** [float(mastery) if mastery not in (None, "") else None], within 0..1. *)
Definition mastery_of (s : option string) : R (option Q) :=
  match s with
  | None => Ok None
  | Some t =>
      if String.eqb t "" then Ok None
      else match float_text t with
           | Some q => guard_or (Qle_bool 0 q && Qle_bool q 1) StructureError (Ok (Some q))
           | None => Err StructureError
           end
  end.

(** The unit an element describes, as number [index] within the blocks of [path]. *)
Definition read_au (el : xml) (index : nat) (path : list nat) : R AU :=
  let move_on := strip (or_text (x_get el "moveOn") "NotApplicable") in
  guard_or (bool_decide (move_on ∈ MOVE_ON)) StructureError (
  mastery ← mastery_of (x_get el "masteryScore");
  let url := default "" (_text (x_find el (Qtag "url"))) in
  let id := strip (default "" (x_get el "id")) in
  guard_or (negb (String.eqb id "") && negb (String.eqb url "")) StructureError (
  Ok (MkAU index id (_langstrings (x_find el (Qtag "title"))) (_langstrings (x_find el (Qtag "description"))) url move_on mastery
        (strip (or_text (x_get el "launchMethod") "AnyWindow")) (_text (x_find el (Qtag "launchParameters")))
        (_text (x_find el (Qtag "entitlementKey"))) path))).

(** One element of [walk]'s loop: the children it adds, and the lists so far. *)
Fixpoint visit (el : xml) (path : list nat) (aus : list AU) (blocks : list Block) {struct el} : R (list child * list AU * list Block) :=
  match el with
  | Elem tag _ _ kids =>
      if String.eqb tag (Qtag "au") then
        au ← read_au el (length aus) path;
        Ok ([CAu (length aus)], aus ++ [au], blocks)
      else if String.eqb tag (Qtag "block") then
        let id := strip (default "" (x_get el "id")) in
        guard_or (negb (String.eqb id "")) StructureError (
        let index := length blocks in
        let title := _langstrings (x_find el (Qtag "title")) in
        r ← (fix walk (els : list xml) (path : list nat) (aus : list AU) (blocks : list Block) : R (list child * list AU * list Block) :=
               match els with
               | [] => Ok ([], aus, blocks)
               | e :: els' =>
                   r ← visit e path aus blocks;
                   let '(c, aus, blocks) := r in
                   r ← walk els' path aus blocks;
                   let '(cs, aus, blocks) := r in Ok (c ++ cs, aus, blocks)
               end) kids (path ++ [index]) aus (blocks ++ [MkBlock index id title []]);
        let '(children, aus, blocks) := r in
        guard_or (negb (bool_decide (children = []))) StructureError (
        Ok ([CBlock index], aus, <[index := MkBlock index id title children]> blocks)))
      else Ok ([], aus, blocks)
  end.
Fixpoint walk (els : list xml) (path : list nat) (aus : list AU) (blocks : list Block) : R (list child * list AU * list Block) :=
  match els with
  | [] => Ok ([], aus, blocks)
  | e :: els' =>
      r ← visit e path aus blocks;
      let '(c, aus, blocks) := r in
      r ← walk els' path aus blocks;
      let '(cs, aus, blocks) := r in Ok (c ++ cs, aus, blocks)
  end.

Definition parse (root : xml) : R CourseStructure :=
  guard_or (String.eqb (x_tag root) (Qtag "courseStructure")) StructureError (
  match x_find root (Qtag "course") with
  | None => Err StructureError
  | Some course =>
      let id := strip (default "" (x_get course "id")) in
      guard_or (negb (String.eqb id "")) StructureError (
      r ← walk (x_kids root) [] [] [];
      let '(top, aus, blocks) := r in
      guard_or (negb (bool_decide (aus = []))) StructureError (
      let ids := (au_publisher_id <$> aus) ++ (b_publisher_id <$> blocks) ++ [id] in
      guard_or (bool_decide (NoDup ids)) StructureError (
      Ok (MkCourse id (_langstrings (x_find course (Qtag "title"))) (_langstrings (x_find course (Qtag "description"))) top aus blocks))))
  end).

(** ** What a walk adds *)

Section XmlInduction.
Context (P : xml -> Prop) (step : forall tag attrs text kids, Forall P kids -> P (Elem tag attrs text kids)).
Fixpoint xml_rect' (e : xml) : P e :=
  match e with
  | Elem tag attrs text kids =>
      step tag attrs text kids
        ((fix all (l : list xml) : Forall P l :=
            match l with [] => List.Forall_nil _ | x :: l' => List.Forall_cons _ x l' (xml_rect' x) (all l') end) kids)
  end.
End XmlInduction.

Lemma visit_block attrs text kids path aus blocks :
  visit (Elem (Qtag "block") attrs text kids) path aus blocks =
    (let el := Elem (Qtag "block") attrs text kids in
     let id := strip (default "" (x_get el "id")) in
     guard_or (negb (String.eqb id "")) StructureError (
     r ← walk kids (path ++ [length blocks]) aus (blocks ++ [MkBlock (length blocks) id (_langstrings (x_find el (Qtag "title"))) []]);
     let '(children, aus', blocks') := r in
     guard_or (negb (bool_decide (children = []))) StructureError (
     Ok ([CBlock (length blocks)], aus', <[length blocks := MkBlock (length blocks) id (_langstrings (x_find el (Qtag "title"))) children]> blocks')))).
Proof. reflexivity. Qed.

(** A unit as [read_au] makes it, a block as [visit] leaves it. *)
Definition au_ok (a : AU) : Prop :=
  au_move_on a ∈ MOVE_ON /\ au_publisher_id a <> "" /\ au_url_text a <> "" /\
  forall q, au_mastery a = Some q -> (0 <= q /\ q <= 1)%Q.
Definition block_ok (b : Block) : Prop :=
  b_children b <> [] /\ b_publisher_id b <> "" /\ forall k, CBlock k ∈ b_children b -> (b_index b < k)%nat.

Definition numbered (aus : list AU) (blocks : list Block) (na : list AU) (nb : list Block) : list child :=
  (CAu <$> seq (length aus) (length na)) ++ (CBlock <$> seq (length blocks) (length nb)).
(** From [aus] and [blocks] the walk went to [aus'] and [blocks'], and gave the children [c]. *)
Definition grown (aus : list AU) (blocks : list Block) (c : list child) (aus' : list AU) (blocks' : list Block) : Prop :=
  exists na nb, aus' = aus ++ na /\ blocks' = blocks ++ nb /\
    au_index <$> na = seq (length aus) (length na) /\ b_index <$> nb = seq (length blocks) (length nb) /\
    c ++ concat (b_children <$> nb) ≡ₚ numbered aus blocks na nb /\ Forall au_ok na /\ Forall block_ok nb.

Lemma grown_nil aus blocks : grown aus blocks [] aus blocks.
Proof. exists [], []. rewrite !app_nil_r. repeat split; done. Qed.

Lemma grown_app aus blocks c aus1 blocks1 c' aus2 blocks2 :
  grown aus blocks c aus1 blocks1 -> grown aus1 blocks1 c' aus2 blocks2 -> grown aus blocks (c ++ c') aus2 blocks2.
Proof.
  intros (na & nb & -> & -> & Ha & Hb & Hp & Hoa & Hob) (na' & nb' & -> & -> & Ha' & Hb' & Hp' & Hoa' & Hob').
  exists (na ++ na'), (nb ++ nb'). rewrite <- !app_assoc. do 2 (split; [done|]).
  rewrite !length_app in Ha', Hb'. unfold numbered in *. rewrite !length_app in Hp'.
  rewrite !fmap_app, !length_app, !seq_app, Ha, Hb, Ha', Hb', concat_app, !fmap_app. do 2 (split; [done|]).
  split; [|by rewrite !Forall_app].
  transitivity ((c ++ concat (b_children <$> nb)) ++ (c' ++ concat (b_children <$> nb'))); [solve_Permutation|].
  rewrite Hp, Hp'. solve_Permutation.
Qed.

Lemma read_au_ok el i path a : read_au el i path = Ok a -> au_index a = i /\ au_ok a.
Proof.
  unfold read_au. intros H. ok_steps H. injection H as <-. reflect_bools. cbn. split; [done|].
  repeat match goal with H : String.eqb _ _ = false |- _ => apply String.eqb_neq in H end.
  split; [done|]. split; [done|]. split; [done|]. cbn. intros q ->. unfold mastery_of in Hx.
  destruct (x_get el "masteryScore") as [t|]; [|done]. destruct (String.eqb t ""); [done|].
  destruct (float_text t) as [q'|]; [|done]. ok_steps Hx. injection Hx as ->. reflect_bools. by split; apply Qle_bool_iff.
Qed.

(** The numbers of the blocks among a walk's children are above those it started from. *)
Lemma grown_above aus blocks c aus' blocks' k : grown aus blocks c aus' blocks' -> CBlock k ∈ c -> (length blocks <= k)%nat.
Proof.
  intros (na & nb & _ & _ & _ & _ & Hp & _) Hk.
  assert (Hin : CBlock k ∈ numbered aus blocks na nb) by (rewrite <- Hp; set_solver).
  unfold numbered in Hin. rewrite elem_of_app, !list_elem_of_fmap in Hin.
  destruct Hin as [(y & Hy & _)|(y & [= ->] & Hy)]; [done|]. apply elem_of_seq in Hy. lia.
Qed.

Lemma grown_au aus blocks a :
  au_index a = length aus -> au_ok a -> grown aus blocks [CAu (length aus)] (aus ++ [a]) blocks.
Proof. intros Hi Ho. exists [a], []. rewrite app_nil_r. unfold numbered. cbn. rewrite Hi. repeat split; auto. Qed.

Lemma grown_block aus blocks b c aus' blocks' :
  b_index b = length blocks -> b_publisher_id b <> "" -> c <> [] ->
  grown aus (blocks ++ [b]) c aus' blocks' ->
  grown aus blocks [CBlock (length blocks)] aus'
    (<[length blocks := MkBlock (length blocks) (b_publisher_id b) (b_title b) c]> blocks').
Proof.
  intros Hi Hid Hc Hg. pose proof (fun k => grown_above _ _ _ _ _ k Hg) as Hk.
  destruct Hg as (na & nb & -> & -> & Ha & Hb & Hp & Hoa & Hob).
  set (b' := MkBlock (length blocks) (b_publisher_id b) (b_title b) c).
  exists na, (b' :: nb). rewrite <- app_assoc. unfold numbered in *. rewrite length_app in *. cbn [length] in *.
  replace (length blocks + 1)%nat with (S (length blocks)) in * by lia.
  split; [done|]. split; [by rewrite insert_app_r_alt, Nat.sub_diag by done|]. split; [done|].
  split; [by rewrite fmap_cons, Hb|]. split; [|split; [done|constructor; [|done]]].
  - rewrite fmap_cons. cbn [concat b_children b']. change (seq (length blocks) (S (length nb))) with (length blocks :: seq (S (length blocks)) (length nb)).
    rewrite fmap_cons. transitivity (CBlock (length blocks) :: c ++ concat (b_children <$> nb)); [done|].
    rewrite Hp. solve_Permutation.
  - split; [done|]. split; [done|]. intros k Hin. cbn. specialize (Hk k Hin). lia.
Qed.

Lemma walk_grown_from kids :
  Forall (fun e => forall path aus blocks c aus' blocks', visit e path aus blocks = Ok (c, aus', blocks') -> grown aus blocks c aus' blocks') kids ->
  forall path aus blocks c aus' blocks', walk kids path aus blocks = Ok (c, aus', blocks') -> grown aus blocks c aus' blocks'.
Proof.
  induction 1 as [|e kids He _ IH]; intros path aus blocks c aus' blocks' H; cbn [walk] in H.
  - injection H as <- <- <-. apply grown_nil.
  - ok_steps H. destruct x as [[c1 aus1] blocks1]. ok_steps H. destruct x as [[c2 aus2] blocks2]. injection H as <- <- <-.
    eapply grown_app; [by eapply He|by eapply IH].
Qed.

Lemma visit_grown e : forall path aus blocks c aus' blocks', visit e path aus blocks = Ok (c, aus', blocks') -> grown aus blocks c aus' blocks'.
Proof.
  induction e as [tag attrs text kids IH] using xml_rect'. intros path aus blocks c aus' blocks' H.
  destruct (String.eqb tag (Qtag "au")) eqn:Ea.
  - unfold visit in H. rewrite Ea in H. ok_steps H. injection H as <- <- <-. destruct (read_au_ok _ _ _ _ Hx). by apply grown_au.
  - destruct (String.eqb tag (Qtag "block")) eqn:Eb.
    + apply String.eqb_eq in Eb as ->. rewrite visit_block in H. cbv zeta in H. ok_steps H. destruct x as [[c1 aus1] blocks1].
      ok_steps H. injection H as <- <- <-. reflect_bools.
      match goal with H : walk _ _ _ (_ ++ [?b]) = _ |- _ => apply (walk_grown_from _ IH) in H; apply (grown_block _ _ b) in H end; cbn.
      all: try done. by apply String.eqb_neq.
    + cbn [visit] in H. rewrite Ea, Eb in H. injection H as <- <- <-. apply grown_nil.
Qed.

(** ** The document *)

Definition is_au (e : xml) : bool := String.eqb (x_tag e) (Qtag "au").
Definition is_block (e : xml) : bool := String.eqb (x_tag e) (Qtag "block").
Definition id_of (e : xml) : string := strip (default "" (x_get e "id")).
(** The unit and block elements of the document below an element, in document order; only blocks are entered. *)
Fixpoint units (e : xml) : list xml :=
  match e with Elem _ _ _ kids => if is_au e then [e] else if is_block e then flat_map units kids else [] end.
Fixpoint blocks_in (e : xml) : list xml :=
  match e with Elem _ _ _ kids => if is_au e then [] else if is_block e then e :: flat_map blocks_in kids else [] end.
(** The units and blocks directly under an element. *)
Definition nodes (els : list xml) : list xml := List.filter (fun e => is_au e || is_block e) els.

(** What [blocks] says of a block but its children. *)
Definition head_of (b : Block) : string * langs := (b_publisher_id b, b_title b).
(** The child [ch] of a node under the blocks [path] is the element [e]. *)
Definition shows (path : list nat) (aus : list AU) (heads : list (string * langs)) (e : xml) (ch : child) : Prop :=
  match ch with
  | CAu i => is_au e = true /\ exists a, aus !! i = Some a /\ read_au e i path = Ok a
  | CBlock i => is_block e = true /\ heads !! i = Some (id_of e, _langstrings (x_find e (Qtag "title")))
  end.
Definition unit_of (e : xml) (a : AU) : Prop := exists path, read_au e (au_index a) path = Ok a.
Definition block_of (aus : list AU) (heads : list (string * langs)) (e : xml) (b : Block) : Prop :=
  head_of b = (id_of e, _langstrings (x_find e (Qtag "title"))) /\
  exists path, Forall2 (shows (path ++ [b_index b]) aus heads) (nodes (x_kids e)) (b_children b).

(** The walk of [els] under [path], from [aus] and [blocks]. *)
Definition documented (path : list nat) (els : list xml) (aus : list AU) (blocks : list Block) (c : list child)
    (aus' : list AU) (blocks' : list Block) : Prop :=
  exists na nb, aus' = aus ++ na /\ blocks' = blocks ++ nb /\ Forall2 unit_of (flat_map units els) na /\
    Forall2 (block_of aus' (head_of <$> blocks')) (flat_map blocks_in els) nb /\
    Forall2 (shows path aus' (head_of <$> blocks')) (nodes els) c.

Lemma shows_app path aus heads na nh e ch : shows path aus heads e ch -> shows path (aus ++ na) (heads ++ nh) e ch.
Proof.
  destruct ch as [i|i]; cbn; intros [He H]; (split; [done|]).
  - destruct H as (a & Ha & Hr). exists a. split; [by apply lookup_app_l_Some|done].
  - by apply lookup_app_l_Some.
Qed.
Lemma block_of_app aus heads na nh e b : block_of aus heads e b -> block_of (aus ++ na) (heads ++ nh) e b.
Proof.
  intros (Hh & path & H). split; [done|]. exists path. eapply Forall2_impl; [exact H|]. intros. by apply shows_app.
Qed.

Lemma documented_nil path aus blocks : documented path [] aus blocks [] aus blocks.
Proof. exists [], []. rewrite !app_nil_r. repeat split; constructor. Qed.

Lemma documented_cons path e els aus blocks c aus1 blocks1 c' aus2 blocks2 :
  documented path [e] aus blocks c aus1 blocks1 -> documented path els aus1 blocks1 c' aus2 blocks2 ->
  documented path (e :: els) aus blocks (c ++ c') aus2 blocks2.
Proof.
  intros (na & nb & -> & -> & Hu & Hb & Hs) (na' & nb' & -> & -> & Hu' & Hb' & Hs').
  exists (na ++ na'), (nb ++ nb'). rewrite !app_assoc. do 2 (split; [done|]). cbn [flat_map] in *. rewrite app_nil_r in Hu, Hb.
  rewrite (fmap_app head_of (blocks ++ nb)) in *. split; [by apply Forall2_app|]. split.
  - apply Forall2_app; [|exact Hb']. eapply Forall2_impl; [exact Hb|]. intros. by apply block_of_app.
  - change (e :: els) with ([e] ++ els). unfold nodes in *. rewrite List.filter_app. apply Forall2_app; [|exact Hs'].
    eapply Forall2_impl; [exact Hs|]. intros. by apply shows_app.
Qed.

Lemma walk_documented_from kids :
  Forall (fun e => forall path aus blocks c aus' blocks', visit e path aus blocks = Ok (c, aus', blocks') -> documented path [e] aus blocks c aus' blocks') kids ->
  forall path aus blocks c aus' blocks', walk kids path aus blocks = Ok (c, aus', blocks') -> documented path kids aus blocks c aus' blocks'.
Proof.
  induction 1 as [|e kids He _ IH]; intros path aus blocks c aus' blocks' H; cbn [walk] in H.
  - injection H as <- <- <-. apply documented_nil.
  - ok_steps H. destruct x as [[c1 aus1] blocks1]. ok_steps H. destruct x as [[c2 aus2] blocks2]. injection H as <- <- <-.
    eapply documented_cons; [by eapply He|by eapply IH].
Qed.

Lemma visit_documented e : forall path aus blocks c aus' blocks',
  visit e path aus blocks = Ok (c, aus', blocks') -> documented path [e] aus blocks c aus' blocks'.
Proof.
  induction e as [tag attrs text kids IH] using xml_rect'. intros path aus blocks c aus' blocks' H.
  destruct (String.eqb tag (Qtag "au")) eqn:Ea.
  - unfold visit in H. rewrite Ea in H. ok_steps H. injection H as <- <- <-. destruct (read_au_ok _ _ _ _ Hx) as [Hi _].
    exists [x], []. rewrite app_nil_r. do 2 (split; [done|]). unfold nodes. cbn. unfold is_au, is_block. cbn. rewrite Ea. cbn.
    split; [constructor; [|done]; exists path; by rewrite Hi|]. split; [done|]. constructor; [|done].
    cbn. unfold is_au. cbn. split; [done|]. exists x. split; [|done]. by rewrite list_lookup_middle.
  - destruct (String.eqb tag (Qtag "block")) eqn:Eb.
    + apply String.eqb_eq in Eb as ->. rewrite visit_block in H. cbv zeta in H. ok_steps H. destruct x as [[c1 aus1] blocks1].
      ok_steps H. injection H as <- <- <-. apply (walk_documented_from _ IH) in Hx as (na & nb & -> & -> & Hu & Hb & Hs).
      set (e := Elem (Qtag "block") attrs text kids) in *.
      assert (Hn : is_au e = false /\ is_block e = true) by (split; [exact Ea|reflexivity]). destruct Hn as [Hna Hnb].
      set (b1 := MkBlock (length blocks) (strip (default "" (x_get e "id"))) (_langstrings (x_find e (Qtag "title"))) c1).
      rewrite <- (app_assoc blocks) in *. cbn [app] in *.
      assert (Hins : <[length blocks := b1]> (blocks ++ MkBlock (length blocks) (strip (default "" (x_get e "id"))) (_langstrings (x_find e (Qtag "title"))) [] :: nb)
        = blocks ++ b1 :: nb) by (by rewrite insert_app_r_alt, Nat.sub_diag by done).
      change (attr_in "id" attrs) with (x_get e "id"). fold b1. rewrite Hins. exists na, (b1 :: nb).
      assert (Hheads : head_of <$> blocks ++ MkBlock (length blocks) (strip (default "" (x_get e "id"))) (_langstrings (x_find e (Qtag "title"))) [] :: nb
        = head_of <$> blocks ++ b1 :: nb) by (by rewrite !fmap_app).
      rewrite Hheads in Hb, Hs. do 2 (split; [done|]).
      cbn [flat_map units blocks_in e]. fold e. rewrite Hna, Hnb, !app_nil_r. split; [done|]. split.
      * constructor; [|exact Hb]. split; [done|]. by exists path.
      * unfold nodes. cbn [List.filter]. rewrite Hna, Hnb. cbn [orb]. constructor; [|done]. cbn [shows]. split; [done|].
        rewrite fmap_app. rewrite lookup_app_r by (by rewrite length_fmap). by rewrite length_fmap, Nat.sub_diag.
    + cbn [visit] in H. rewrite Ea, Eb in H. injection H as <- <- <-. exists [], []. rewrite !app_nil_r. do 2 (split; [done|]).
      unfold nodes. cbn. unfold is_au, is_block. cbn. rewrite Ea, Eb. done.
Qed.
Lemma walk_documented kids path aus blocks c aus' blocks' :
  walk kids path aus blocks = Ok (c, aus', blocks') -> documented path kids aus blocks c aus' blocks'.
Proof. apply walk_documented_from, Forall_true. intros e. apply visit_documented. Qed.

(** A structure that is the document's: unit by unit, block by block, and child by child. *)
Record of_document (root : xml) (cs : CourseStructure) : Prop := {
  od_course : exists course, x_find root (Qtag "course") = Some course /\ c_publisher_id cs = id_of course /\
    c_title cs = _langstrings (x_find course (Qtag "title")) /\ c_description cs = _langstrings (x_find course (Qtag "description"));
  od_aus : Forall2 unit_of (flat_map units (x_kids root)) (c_aus cs);
  od_blocks : Forall2 (block_of (c_aus cs) (head_of <$> c_blocks cs)) (flat_map blocks_in (x_kids root)) (c_blocks cs);
  od_children : Forall2 (shows [] (c_aus cs) (head_of <$> c_blocks cs)) (nodes (x_kids root)) (c_children cs)
}.

(** ** What a structure is *)

(** Every unit and block, numbered by its position, is the child of exactly one node, of a block with a smaller
    number or the course; no block is empty; publisher ids are distinct. *)
Record wf_structure (cs : CourseStructure) : Prop := {
  wf_aus : au_index <$> c_aus cs = seq 0 (length (c_aus cs));
  wf_blocks : b_index <$> c_blocks cs = seq 0 (length (c_blocks cs));
  wf_tree : c_children cs ++ concat (b_children <$> c_blocks cs) ≡ₚ
    (CAu <$> seq 0 (length (c_aus cs))) ++ (CBlock <$> seq 0 (length (c_blocks cs)));
  wf_au_ok : Forall au_ok (c_aus cs);
  wf_block_ok : Forall block_ok (c_blocks cs);
  wf_some : c_aus cs <> [];
  wf_ids : NoDup ((au_publisher_id <$> c_aus cs) ++ (b_publisher_id <$> c_blocks cs) ++ [c_publisher_id cs])
}.

Lemma walk_grown kids path aus blocks c aus' blocks' :
  walk kids path aus blocks = Ok (c, aus', blocks') -> grown aus blocks c aus' blocks'.
Proof. apply walk_grown_from, Forall_true. intros e. apply visit_grown. Qed.

(** C31: what is parsed is the document: its units and its blocks, those inside blocks included, are listed each
    once in document order, every unit with what its element says, every block with its id, title and, as its
    children, the units and blocks directly under its element in their order; likewise the course.  The result
    is a tree: each number is the child of exactly one node, a block's number is smaller than those of the
    blocks in it, no block is empty, every mastery score is within 0 and 1, every moveOn is one of cmi5's, and
    no publisher id is used twice. *)
Theorem parse_tree root cs : parse root = Ok cs -> of_document root cs /\ wf_structure cs.
Proof.
  unfold parse. intros H. ok_steps H. destruct (x_find root (Qtag "course")) as [course|] eqn:Ec; [|done].
  ok_steps H. destruct x as [[top aus] blocks]. ok_steps H. injection H as <-. split.
  - apply walk_documented in Hx as (na & nb & -> & -> & Hu & Hb & Hs). split; cbn; [by exists course|done..].
  - apply walk_grown in Hx as (na & nb & -> & -> & Ha & Hb & Hp & Hoa & Hob). reflect_bools. by split.
Qed.

(** The children of a node, and what numbers they have. *)
Lemma wf_child_bounds cs ch :
  wf_structure cs -> ch ∈ c_children cs ++ concat (b_children <$> c_blocks cs) ->
  match ch with CAu i => i < length (c_aus cs) | CBlock i => i < length (c_blocks cs) end%nat.
Proof.
  intros Hwf Hin. rewrite (wf_tree _ Hwf), elem_of_app, !list_elem_of_fmap in Hin.
  destruct Hin as [(y & -> & Hy)|(y & -> & Hy)]; apply elem_of_seq in Hy; lia.
Qed.
Lemma wf_block_children cs i b ch :
  wf_structure cs -> c_blocks cs !! i = Some b -> ch ∈ b_children b ->
  match ch with CAu k => k < length (c_aus cs) | CBlock k => i < k /\ k < length (c_blocks cs) end%nat.
Proof.
  intros Hwf Hb Hin.
  assert (Hall : ch ∈ c_children cs ++ concat (b_children <$> c_blocks cs)).
  { apply elem_of_app; right. apply list_elem_of_In, in_concat. exists (b_children b).
    rewrite <- !list_elem_of_In. split; [|done]. apply list_elem_of_fmap. exists b. split; [done|]. by eapply list_elem_of_lookup_2. }
  pose proof (wf_child_bounds _ _ Hwf Hall) as Hbound. destruct ch as [k|k]; [done|]. split; [|done].
  pose proof (wf_block_ok _ Hwf) as Hok. rewrite Forall_lookup in Hok. destruct (Hok _ _ Hb) as (_ & _ & Hlt).
  assert (b_index b = i) as <-; [|by apply Hlt].
  pose proof (f_equal (lookup i) (wf_blocks _ Hwf)) as Hi. rewrite list_lookup_fmap, Hb in Hi. cbn in Hi.
  symmetry in Hi. apply lookup_seq in Hi as [Hi _]. lia.
Qed.

(** ** The ids at run time *)

Section Runtime.
Context (iri_base : string).
Definition course_runtime_id (release_id : string) : string := iri_base +:+ "/cmi5/releases/" +:+ release_id.
Definition au_runtime_id (release_id : string) (index : nat) : string := course_runtime_id release_id +:+ "/au/" +:+ pretty index.
Definition block_runtime_id (release_id : string) (index : nat) : string := course_runtime_id release_id +:+ "/block/" +:+ pretty index.
End Runtime.
Section Served.
Context (web_base : string).
Definition au_url (release_id : string) (index : nat) : string := web_base +:+ "/au/releases/" +:+ release_id +:+ "/" +:+ pretty index.
End Served.

Definition el (name : string) (attrs : list (string * string)) (text : string) (kids : list xml) : xml :=
  Elem (Qtag name) attrs (Some text) kids.
Definition demo_au (id move : string) : xml :=
  el "au" [("id", id); ("moveOn", move); ("masteryScore", " 8e-1 ")]%string "" [el "url" [] " mod/index.html " []].
Definition demo_course : xml :=
  el "courseStructure" [] "" [el "course" [("id", "c")]%string "" []; demo_au "a0" "Passed";
    el "block" [("id", "b0")]%string "" [demo_au "a1" "Completed"; el "block" [("id", "b1")]%string "" [demo_au "a2" "CompletedOrPassed"]]].

Lemma parse_tree_witness : exists cs, parse demo_course = Ok cs /\ length (c_aus cs) = 3%nat /\ of_document demo_course cs /\ wf_structure cs.
Proof.
  destruct (parse demo_course) as [cs|] eqn:E; [|by vm_compute in E].
  exists cs. split; [done|]. split; [|by apply (parse_tree demo_course)]. vm_compute in E. by injection E as <-.
Defined.
