(* ===== verification/Cmi5Rules.v ===== *)
(** * What an assignable unit may send: the cmi5 rules of TrueNorth's LMS

    Models [control-plane/api/app/cmi5/rules.py]: the check of one xAPI statement against its session.  A
    statement is JSON, whatever the unit sends; a refusal names the requirement and the HTTP status, and
    where the code would take a value that is no object for one it raises (a 500): [Crash].  Numbers are
    exact: the rounding of a double is not modelled, and a float that is no finite number is [JNaN].

    The theorems: what an accepted statement is, clause by clause; that [check] never raises on a
    statement whose objects are objects; and what a batch of accepted verbs does to a session. *)

From S2P Require Import Prelude PyText.
From Stdlib Require Import Ascii QArith Qabs.

Local Open Scope Z_scope.

(** ** JSON *)

(** A decoded object has each key once. *)
Inductive json :=
| JNull | JBool (b : bool) | JInt (n : Z) | JFloat (q : Q) | JNaN | JStr (s : string) | JList (l : list json)
| JObj (l : list (string * json)).

Fixpoint assoc {A} (k : string) (l : list (string * A)) : option A :=
  match l with [] => None | (k', v) :: l' => if String.eqb k k' then Some v else assoc k l' end.
(** [k in o], [o.get(k)] and [o.get(k, default)]. *)
Definition field (k : string) (o : json) : option json := match o with JObj l => assoc k l | _ => None end.
Definition has (k : string) (o : json) : bool := bool_decide (is_Some (assoc k match o with JObj l => l | _ => [] end)).
Definition get (k : string) (o : json) : json := default JNull (field k o).
Definition is_obj (j : json) : bool := match j with JObj _ => true | _ => false end.

(** The value of a number; [True] is 1. *)
Definition num (j : json) : option Q :=
  match j with JInt n => Some (inject_Z n) | JFloat q => Some q | JBool b => Some (if b then 1 else 0)%Q | _ => None end.
(** [isinstance(j, int | float)] *)
Definition is_number (j : json) : bool := match j with JInt _ | JFloat _ | JBool _ | JNaN => true | _ => false end.

Definition truthy (j : json) : bool :=
  match j with
  | JNull => false | JBool b => b | JInt n => negb (n =? 0) | JFloat q => negb (Qeq_bool q 0) | JNaN => true
  | JStr s => negb (String.eqb s "") | JList l => match l with [] => false | _ => true end
  | JObj l => match l with [] => false | _ => true end
  end.

(** [==] *)
Fixpoint json_eqb (a b : json) : bool :=
  match a, b with
  | JNull, JNull => true
  | JStr s, JStr t => String.eqb s t
  | JList l, JList m =>
      (fix all2 l m := match l, m with [], [] => true | x :: l', y :: m' => json_eqb x y && all2 l' m' | _, _ => false end) l m
  | JObj l, JObj m =>
      Nat.eqb (length l) (length m) &&
      forallb (fun kv : string * json => let (k, v) := kv in match assoc k m with Some w => json_eqb v w | None => false end) l
  | _, _ => match num a, num b with Some x, Some y => Qeq_bool x y | _, _ => false end
  end.

(** [j == s] for a string. *)
Definition is_str (s : string) (j : json) : bool := match j with JStr t => String.eqb t s | _ => false end.
Definition is_none (j : json) : bool := match j with JNull => true | _ => false end.
Definition is_bool (b : bool) (j : json) : bool := match j with JBool c => eqb c b | _ => false end.

Inductive refusal := Rule (req : string) (status : Z) | Crash.
Notation R A := (result refusal A).
Definition refuse (req : string) : refusal := Rule req 400.
Definition forbid (req : string) : refusal := Rule req 403.

(** [(j or {})], which is then asked for a key. *)
Definition or_dict (j : json) : R json := if truthy j then guard_or (is_obj j) Crash (Ok j) else Ok (JObj []).

(** ** The constants *)

Definition CAT_CMI5 : string := "https://w3id.org/xapi/cmi5/context/categories/cmi5".
Definition CAT_MOVEON : string := "https://w3id.org/xapi/cmi5/context/categories/moveon".
Definition EXT : string := "https://w3id.org/xapi/cmi5/context/extensions/".
Definition EXT_SESSION : string := EXT +:+ "sessionid".
Definition EXT_MASTERY : string := EXT +:+ "masteryscore".
Definition ADL : string := "http://adlnet.gov/expapi/verbs/".
Definition LAUNCHED : string := ADL +:+ "launched".
Definition INITIALIZED : string := ADL +:+ "initialized".
Definition COMPLETED : string := ADL +:+ "completed".
Definition PASSED : string := ADL +:+ "passed".
Definition FAILED : string := ADL +:+ "failed".
Definition TERMINATED : string := ADL +:+ "terminated".
Definition VOIDED : string := ADL +:+ "voided".
Definition ABANDONED : string := "https://w3id.org/xapi/adl/verbs/abandoned".
Definition WAIVED : string := "https://w3id.org/xapi/adl/verbs/waived".
Definition SATISFIED : string := "https://w3id.org/xapi/adl/verbs/satisfied".
Definition AU_DEFINED : list string := [INITIALIZED; COMPLETED; PASSED; FAILED; TERMINATED].
Definition JUDGED : list string := [COMPLETED; PASSED; FAILED].
Definition LMS_VERBS : list string := [LAUNCHED; ABANDONED; WAIVED; SATISFIED].

(** ** The session, as the rules see it *)

(** The launch actor's account. *)
Record account := Account { a_home : string; a_name : string }.
Record SessionView := View {
  w_actor : account; w_registration : string; w_session_id : string; w_au_runtime_id : string;
  w_template : list (string * json); w_launch_mode : string; w_mastery : option Q;
  w_initialized : bool; w_terminated : bool; w_prefs_fetched : bool; w_sent : list string;
  w_au_completed : bool; w_au_passed : bool; w_tn_roots : list string; w_require_graded : bool; w_graded : option Q
}.

(** ** Ids, scope, verbs, numbers *)

Fixpoint remove_char (d : ascii) (s : string) : string :=
  match s with EmptyString => EmptyString | String c s' => if Ascii.eqb c d then remove_char d s' else String c (remove_char d s') end.
(** [s.replace(t, "")] for a non-empty [t]; [skip] characters of an occurrence are still to be dropped. *)
Fixpoint remove_text (t : string) (skip : nat) (s : string) : string :=
  match s with
  | EmptyString => EmptyString
  | String c s' => match skip with
                   | S n => remove_text t n s'
                   | O => if startswith t s then remove_text t (String.length t - 1) s' else String c (remove_text t O s')
                   end
  end.
Definition is_brace (c : ascii) : bool := Ascii.eqb c "{" || Ascii.eqb c "}".
Fixpoint drop_chars (n : nat) (s : string) : string :=
  match n, s with S n', String _ s' => drop_chars n' s' | _, _ => s end.

(** [int(s, 16)]: white space around, a sign, [0x], and single underscores between the digits. *)
Definition hex_of (c : ascii) : option Z :=
  let n := Z.of_nat (nat_of_ascii c) in
  if (48 <=? n) && (n <=? 57) then Some (n - 48)
  else if (97 <=? n) && (n <=? 102) then Some (n - 87)
  else if (65 <=? n) && (n <=? 70) then Some (n - 55) else None.
Fixpoint hex_run (after_underscore : bool) (acc : Z) (s : string) : option Z :=
  match s with
  | EmptyString => if after_underscore then None else Some acc
  | String c s' =>
      match hex_of c with
      | Some d => hex_run false (16 * acc + d) s'
      | None => if Ascii.eqb c "_" && negb after_underscore then hex_run true acc s' else None
      end
  end.
Definition is_plus (c : ascii) : bool := Ascii.eqb c "+".
Definition hex_value (s : string) : option Z :=
  let t := rstrip_if number_space (lstrip_if number_space s) in
  let t := match t with String c t' => if is_plus c then t' else t | _ => t end in
  if startswith "0x" t || startswith "0X" t
  then let u := drop_chars 2 t in if startswith "_" u then hex_run true 0 (drop_chars 1 u) else hex_run true 0 u
  else hex_run true 0 t.
(** [uuid.UUID(s)], as its 128-bit integer; a minus sign is dropped with the dashes. *)
Definition uuid_of (s : string) : option Z :=
  let t := remove_char "-" (rstrip_if is_brace (lstrip_if is_brace (remove_text "uuid:" 0 (remove_text "urn:" 0 s)))) in
  if Nat.eqb (String.length t) 32 then hex_value t else None.
(** [.version], of an RFC 4122 UUID. *)
Definition uuid_version (n : Z) : option Z :=
  if Z.testbit n 63 && negb (Z.testbit n 62) then Some (Z.land (Z.shiftr n 76) 15) else None.
(** The only values whose [str] can be a UUID's. *)
Definition id_text (j : json) : option string :=
  match j with JStr s => Some s | JInt n => Some (pretty n) | _ => None end.
Definition is_reserved_id (j : json) : bool :=
  match id_text j with
  | Some s => match uuid_of s with
              | Some n => match uuid_version n with Some v => v =? 8 | None => false end
              | None => false
              end
  | None => false
  end.

(** [s.split("/")] *)
Fixpoint split_slash (cur s : string) : list string :=
  match s with
  | EmptyString => [cur]
  | String c s' => if Ascii.eqb c "/" then cur :: split_slash "" s' else split_slash (cur +:+ String c EmptyString) s'
  end.
Fixpoint any_char (p : ascii -> bool) (s : string) : bool :=
  match s with EmptyString => false | String c s' => p c || any_char p s' end.
(** One of [%], [\], [?] and [#]. *)
Definition bad_char (c : ascii) : bool := bool_decide (nat_of_ascii c ∈ [37; 92; 63; 35]%nat).
Definition plain_segment (seg : string) : bool := negb (bool_decide (seg ∈ [""; "."; ".."]%string)).
Definition in_scope (object_id : json) (runtime : string) : bool :=
  match object_id with
  | JStr s =>
      if String.eqb s runtime then true
      else if negb (startswith (runtime +:+ "/") s) then false
      else let rest := drop_chars (String.length runtime + 1) s in
           if any_char bad_char rest then false else forallb plain_segment (split_slash "" rest)
  | _ => false
  end.

Definition is_slash (c : ascii) : bool := Ascii.eqb c "/".
Definition _norm_verb (verb : string) : string :=
  let v := rstrip_if is_slash (lower (strip verb)) in
  if startswith "https://" v then "http://" +:+ drop_chars 8 v else v.
Definition _CANONICAL : gmap string string :=
  list_to_map ((fun v => (_norm_verb v, v)) <$> AU_DEFINED ++ [LAUNCHED; ABANDONED; WAIVED; SATISFIED; VOIDED]).

(** An integer whose [float] overflows. *)
Definition too_large (n : Z) : bool := 2 ^ 1024 - 2 ^ 970 <=? Z.abs n.
Fixpoint finite (j : json) : bool :=
  match j with
  | JNaN => false
  | JInt n => negb (too_large n)
  | JList l => forallb finite l
  | JObj l => forallb (fun kv : string * json => let (_, v) := kv in finite v) l
  | _ => true
  end.

(** [_ids]: of a list, the ids of its objects; any other value that can be iterated has none. *)
Definition _ids (items : json) : R (list json) :=
  if truthy items then
    match items with
    | JList l => Ok (omap (fun a => if is_obj a then Some (get "id" a) else None) l)
    | JStr _ | JObj _ => Ok []
    | _ => Err Crash
    end
  else Ok [].
Definition mem (s : string) (l : list json) : bool := existsb (is_str s) l.

Definition same_actor (given : json) (want : account) : R bool :=
  if negb (is_obj given) then Ok false
  else if negb (is_str "Agent" (default (JStr "Agent") (field "objectType" given))) then Ok false
  else
    acct ← or_dict (get "account" given);
    Ok (is_str (a_home want) (get "homePage" acct) && is_str (a_name want) (get "name" acct) &&
        negb (has "mbox" given || has "mbox_sha1sum" given || has "openid" given)).

(** The [Z] or [+00] at the end of a time in UTC; [$] also matches before a last newline. *)
Definition utc_end (s : string) : bool :=
  endswith "Z" s || endswith "+00" s || endswith "+00:" s || endswith "+0000" s || endswith "+00:00" s.
Definition newline : ascii := ascii_of_nat 10.
Definition last_newline (s : string) : bool := endswith (String newline EmptyString) s.
Definition is_utc (s : string) : bool :=
  utc_end s || (last_newline s && utc_end (String.substring 0 (String.length s - 1) s)).

(** ** The check of one statement *)

(** [if b: raise e], then [k]. *)
Notation "'when' b 'raise' e ';' k" := (if b then Err e else k) (at level 200, b at level 100, e at level 9, right associativity).

Definition items_of (j : json) : list (string * json) := match j with JObj l => l | _ => [] end.
Definition elements (j : json) : list json := match j with JList l => l | _ => [] end.

(** Whether the [wanted] activities stand first in the given ids, in order. *)
Fixpoint follows (wanted have : list json) : bool :=
  match wanted, have with
  | [], _ => true
  | act :: ws, id :: hs => json_eqb id (get "id" act) && follows ws hs
  | _ :: _, [] => false
  end.
Fixpoint template_activities (given : json) (keys : list (string * json)) : R unit :=
  match keys with
  | [] => Ok tt
  | (key, wanted) :: keys' =>
      have ← _ids (get key given);
      when negb (follows (elements wanted) have) raise (refuse "10.2.1.0-6");
      template_activities given keys'
  end.
Fixpoint _matches_template (context : json) (template : list (string * json)) : R unit :=
  match template with
  | [] => Ok tt
  | (prop, expected) :: template' =>
      let given := get prop context in
      _ ← (if String.eqb prop "contextActivities"
           then g ← or_dict given; template_activities g (items_of expected)
           else if is_obj expected
           then when negb (is_obj given) raise (refuse "10.2.1.0-6");
                when negb (forallb (fun kv : string * json => json_eqb (get kv.1 given) kv.2) (items_of expected))
                  raise (refuse "10.2.1.0-7"); Ok tt
           else when negb (json_eqb given expected) raise (refuse "10.2.1.0-7"); Ok tt);
      _matches_template context template'
  end.

(** A context activity of TrueNorth's own must be under this unit. *)
Definition outside (view : SessionView) (act_id : json) : bool :=
  match act_id with
  | JStr s => existsb (fun root => startswith root s) (w_tn_roots view) && negb (in_scope act_id (w_au_runtime_id view))
  | _ => false
  end.
Fixpoint context_scope (view : SessionView) (activities : json) (keys : list string) : R unit :=
  match keys with
  | [] => Ok tt
  | key :: keys' =>
      ids ← _ids (get key activities);
      when existsb (outside view) ids raise (forbid "TN-SCOPE"); context_scope view activities keys'
  end.

Definition one_of (v : string) (l : list string) : bool := bool_decide (v ∈ l).
Definition pf (verb : string) : bool := one_of verb [PASSED; FAILED].

(** [missing] and [durations]: the requirement that a result, or its duration, be there. *)
Definition missing_result (verb : string) : option string :=
  if String.eqb verb COMPLETED then Some "9.5.3.0-1"%string else if String.eqb verb PASSED then Some "9.5.2.0-1"%string
  else if String.eqb verb FAILED then Some "9.5.2.0-2"%string else if String.eqb verb TERMINATED then Some "9.5.4.1-1"%string else None.
Definition missing_duration (verb : string) : option string :=
  if String.eqb verb TERMINATED then Some "9.5.4.1-1"%string else if String.eqb verb COMPLETED then Some "9.5.4.1-2"%string
  else if String.eqb verb PASSED then Some "9.5.4.1-3"%string else if String.eqb verb FAILED then Some "9.5.4.1-4"%string else None.

Definition Qltb (x y : Q) : bool := negb (Qle_bool y x).
(** [float(j) == q] *)
Definition is_num (q : Q) (j : json) : bool := match num j with Some x => Qeq_bool x q | None => false end.
Definition near_mark (scaled mark : Q) : bool := Qle_bool (Qabs (scaled - mark)) (1 # 10000).
Definition bad_scores (score : json) : bool :=
  existsb (fun k => has k score && negb (is_number (get k score))) ["scaled"; "raw"; "min"; "max"]%string.

(** The score of a result: its form, and the mastery score it is judged against. *)
Definition check_score (context score : json) (verb : string) (view : SessionView) : R unit :=
  match score with
  | JNull => Ok tt
  | _ =>
      when negb (is_obj score) || bad_scores score raise (refuse "4.1.0.0-1");
      when negb (pf verb) raise (refuse "9.5.1.0-2");
      when has "raw" score && (negb (has "min" score) || negb (has "max" score)) raise (refuse "9.5.1.0-3");
      match w_mastery view with
      | None => Ok tt
      | Some m =>
          ext ← or_dict (get "extensions" context);
          let given := get EXT_MASTERY ext in
          when negb (is_number given) || negb (is_num m given) raise (refuse "9.6.3.2-2"); Ok tt
      end
  end.

Definition check_result (context result : json) (verb : string) (view : SessionView) : R unit :=
  when has "completion" result && negb (String.eqb verb COMPLETED) raise (refuse "9.5.3.0-2");
  when String.eqb verb COMPLETED && negb (is_bool true (get "completion" result)) raise (refuse "9.5.3.0-1");
  when has "success" result && negb (pf verb) raise (refuse "9.5.2.0-3");
  when String.eqb verb PASSED && negb (is_bool true (get "success" result)) raise (refuse "9.5.2.0-1");
  when String.eqb verb FAILED && negb (is_bool false (get "success" result)) raise (refuse "9.5.2.0-2");
  categories ← _ids (get "category" (get "contextActivities" context));
  when (has "completion" result || has "success" result) && negb (mem CAT_MOVEON categories) raise (refuse "9.6.2.2-1");
  _ ← check_score context (get "score" result) verb view;
  match missing_duration verb with
  | Some req => when negb (has "duration" result) raise (refuse req); Ok tt
  | None => Ok tt
  end.

(** [passed] and [failed] report the mark TrueNorth gave. *)
Definition check_mark (scaled : json) (view : SessionView) : R unit :=
  when bool_decide (is_Some (w_mastery view)) && is_none scaled raise (refuse "TN-SCORE");
  when w_require_graded view && negb (bool_decide (is_Some (w_graded view))) raise (forbid "TN-GRADE");
  match w_require_graded view, w_graded view with
  | true, Some g =>
      when negb (match num scaled with Some s => near_mark s g | None => false end) raise (forbid "TN-GRADE"); Ok tt
  | _, _ => Ok tt
  end.

(** The scaled score against the mastery score, where there are both. *)
Definition judged_by (p : Q -> Q -> bool) (scaled : json) (view : SessionView) : bool :=
  match w_mastery view, num scaled with Some m, Some s => p s m | _, _ => false end.

(** Each verb once in a session, and no second judgement in the registration. *)
Definition check_order (verb : string) (scaled : json) (view : SessionView) (earlier : list string) : R unit :=
  let sent := w_sent view ++ earlier in
  when one_of verb [INITIALIZED; TERMINATED] && one_of verb sent raise (refuse "9.3.0.0-2");
  if String.eqb verb COMPLETED then
    when one_of COMPLETED sent raise (refuse "9.3.0.0-2");
    when w_au_completed view raise (refuse "9.3.0.0-6"); Ok tt
  else if String.eqb verb PASSED then
    when judged_by Qltb scaled view raise (refuse "9.3.4.0-2");
    when one_of PASSED sent raise (refuse "9.3.0.0-2");
    when one_of FAILED sent raise (refuse "9.3.0.0-3");
    when w_au_passed view raise (refuse "9.3.0.0-7"); Ok tt
  else if String.eqb verb FAILED then
    when judged_by (fun s m => Qle_bool m s) scaled view raise (refuse "9.3.6.0-1");
    when one_of FAILED sent raise (refuse "9.3.0.0-2");
    when one_of PASSED sent raise (refuse "9.3.0.0-3");
    when w_au_passed view raise (refuse "9.3.0.0-8"); Ok tt
  else Ok tt.

(** [((result or {}).get("score") or {}).get("scaled")]; past [check_score] a score is an object. *)
Definition scaled_of (result : json) : json := get "scaled" (get "score" result).

Definition _check_defined (st : json) (verb : string) (view : SessionView) (earlier : list string) : R string :=
  when negb (is_str "Agent" (default (JStr "Agent") (field "objectType" (get "actor" st)))) raise (refuse "9.2.0.0-2");
  when negb (one_of verb AU_DEFINED) raise (refuse "9.3.0.0-1");
  let obj := get "object" st in
  when negb (is_obj obj) || negb (truthy (get "id" obj)) raise (refuse "9.4.0.0-1");
  when negb (is_str (w_au_runtime_id view) (get "id" obj)) raise (refuse "8.1.5.0-6");
  when String.eqb (w_launch_mode view) "Browse" && one_of verb JUDGED raise (refuse "10.2.2.0-2");
  when String.eqb (w_launch_mode view) "Review" && one_of verb JUDGED raise (refuse "10.2.2.0-3");
  let result := get "result" st in
  _ ← (if is_obj result then check_result (get "context" st) result verb view
       else match missing_result verb with Some req => Err (refuse req) | None => Ok tt end);
  let scaled := scaled_of result in
  _ ← (if pf verb then check_mark scaled view else Ok tt);
  _ ← check_order verb scaled view earlier;
  Ok verb.

Definition check (st : json) (view : SessionView) (earlier : list string) : R (option string) :=
  when negb (w_prefs_fetched view) raise (refuse "11.0.0.0-3");
  when negb (is_obj st) raise (refuse "4.1.0.0-1");
  when negb (has "actor" st && has "verb" st && has "object" st) raise (refuse "4.1.0.0-1");
  v ← or_dict (get "verb" st);
  match get "id" v with
  | JStr verb =>
      when String.eqb verb "" raise (refuse "4.1.0.0-1");
      when negb (finite st) raise (refuse "TN-NUMBER");
      when match _CANONICAL !! _norm_verb verb with Some c => negb (String.eqb c verb) | None => false end
        raise (forbid "TN-VERB");
      when negb (truthy (get "id" st)) raise (refuse "9.1.0.0-1");
      when is_reserved_id (get "id" st) raise (forbid "TN-ID");
      when String.eqb verb VOIDED raise (forbid "6.3.0.0-1");
      when one_of verb LMS_VERBS raise (forbid "9.3.0.0-1");
      when negb (truthy (get "timestamp" st)) raise (refuse "9.7.0.0-1");
      when match get "timestamp" st with JStr ts => negb (is_utc ts) | _ => true end raise (refuse "9.7.0.0-2");
      same ← same_actor (get "actor" st) (w_actor view);
      when negb same raise (refuse "8.1.3.0-3");
      let context := get "context" st in
      when negb (is_obj context) raise (refuse "9.6.0.0-1");
      let activities := get "contextActivities" context in
      when negb (is_obj activities) raise (refuse "10.2.1.0-6");
      _ ← _matches_template context (w_template view);
      _ ← context_scope view activities ["parent"; "grouping"; "other"; "category"];
      categories ← _ids (get "category" activities);
      let defined := mem CAT_CMI5 categories in
      when mem CAT_MOVEON categories && (negb defined || negb (one_of verb JUDGED)) raise (refuse "9.6.2.2-2");
      when negb (is_str (w_registration view) (get "registration" context)) raise (refuse "9.6.1.0-1");
      ext ← or_dict (get "extensions" context);
      when negb (is_str (w_session_id view) (get EXT_SESSION ext)) raise (refuse "9.6.3.1-4");
      when negb (w_initialized view) && negb (String.eqb verb INITIALIZED) && negb (one_of INITIALIZED earlier)
        raise (refuse "9.3.0.0-4");
      when w_terminated view || one_of TERMINATED earlier raise (forbid "9.3.0.0-5");
      let obj := get "object" st in
      when negb (is_obj obj) || negb (is_str "Activity" (default (JStr "Activity") (field "objectType" obj)))
        raise (forbid "TN-SCOPE");
      when negb (in_scope (get "id" obj) (w_au_runtime_id view)) raise (forbid "TN-SCOPE");
      if defined then said ← _check_defined st verb view earlier; Ok (Some said)
      else
        when one_of verb AU_DEFINED raise (forbid "TN-DEFINED");
        when is_obj (get "result" st) && (has "success" (get "result" st) || has "completion" (get "result" st) || has "score" (get "result" st))
          raise (forbid "TN-RESULT");
        Ok None
  | _ => Err (refuse "4.1.0.0-1")
  end.

(** ** What a path in scope is *)

Lemma drop_chars_app p s : drop_chars (String.length p) (p +:+ s) = s.
Proof. induction p as [|c p IH]; [done|]. rewrite string_app_cons. apply IH. Qed.

Lemma split_slash_cons cur s : exists x l, split_slash cur s = x :: l.
Proof. revert cur; induction s as [|c s IH]; intros cur; cbn [split_slash]; [by eexists _, _|]. case_match; [by eexists _, _|apply IH]. Qed.

Lemma split_join s cur : str_join "/" (split_slash cur s) = cur +:+ s.
Proof.
  revert cur; induction s as [|c s IH]; intros cur; cbn [split_slash]; [by rewrite string_app_nil_r|].
  destruct (Ascii.eqb c "/") eqn:E.
  - apply Ascii.eqb_eq in E as ->. destruct (split_slash_cons "" s) as (x & l & Hx).
    specialize (IH ""). rewrite Hx in *.
    change (cur +:+ "/" +:+ str_join "/" (x :: l) = cur +:+ String "/" s). by rewrite IH.
  - rewrite IH. by rewrite string_app_assoc.
Qed.

(** The unit's activity itself, or a path of plain segments under it. *)
Definition within (runtime s : string) : Prop :=
  s = runtime \/
  exists segs, segs <> [] /\ s = runtime +:+ "/" +:+ str_join "/" segs /\
    Forall (fun seg => seg ∉ [""; "."; ".."]%string /\ any_char bad_char seg = false) segs.

Lemma any_char_app p s t : any_char p (s +:+ t) = any_char p s || any_char p t.
Proof. induction s as [|c s IH]; [done|]. rewrite string_app_cons. cbn [any_char]. by rewrite IH, orb_assoc. Qed.
Lemma any_char_join p s l : any_char p (str_join s l) = false -> Forall (fun x => any_char p x = false) l.
Proof.
  induction l as [|x l IH]; [done|]. destruct l as [|y l]; [by constructor|].
  change (str_join s (x :: y :: l)) with (x +:+ s +:+ str_join s (y :: l)). rewrite !any_char_app.
  intros H. reflect_bools. constructor; [done|by apply IH].
Qed.

Lemma in_scope_within j runtime : in_scope j runtime = true -> exists s, j = JStr s /\ within runtime s.
Proof.
  destruct j as [| | | | |s| |]; cbn [in_scope]; try done. intros H. exists s. split; [done|].
  destruct (String.eqb s runtime) eqn:E; [left; by apply String.eqb_eq|].
  destruct (startswith (runtime +:+ "/") s) eqn:Ep; [|done]. cbn [negb] in H.
  apply startswith_inv in Ep as [rest ->]. right.
  replace (String.length runtime + 1)%nat with (String.length (runtime +:+ "/")) in H by apply string_length_app.
  rewrite drop_chars_app in H. destruct (any_char bad_char rest) eqn:Eb; [done|].
  assert (Hj : str_join "/" (split_slash "" rest) = rest) by apply (split_join rest ""). exists (split_slash "" rest). split.
  { destruct (split_slash_cons "" rest) as (x & l & ->). done. }
  split; [rewrite Hj, string_app_assoc; done|]. rewrite <- Hj in Eb. apply any_char_join in Eb.
  rewrite Forall_forall in *. intros seg Hs. split; [|by apply Eb].
  rewrite forallb_forall in H. specialize (H seg (proj1 (list_elem_of_In _ _) Hs)). unfold plain_segment in H. by reflect_bools.
Qed.

(** ** What an accepted statement is *)

(** The values inside a value. *)
Inductive inside : json -> json -> Prop :=
| inside_self j : inside j j
| inside_list l y x : y ∈ l -> inside y x -> inside (JList l) x
| inside_obj l k y x : (k, y) ∈ l -> inside y x -> inside (JObj l) x.
(** A number a double holds. *)
Definition plain_number (x : json) : Prop := x <> JNaN /\ forall n, x = JInt n -> Z.abs n < 2 ^ 1024 - 2 ^ 970.

Lemma finite_inside j x : inside j x -> finite j = true -> plain_number x.
Proof.
  induction 1 as [j|l y x Hy _ IH|l k y x Hy _ IH]; intros Hf.
  - split; [by intros ->|]. intros n ->. cbn [finite] in Hf. unfold too_large in Hf. reflect_bools. done.
  - apply IH. cbn [finite] in Hf. rewrite forallb_forall in Hf. by apply Hf, list_elem_of_In.
  - apply IH. cbn [finite] in Hf. rewrite forallb_forall in Hf. by apply (Hf (k, y)), list_elem_of_In.
Qed.

Lemma canonical_of w : w ∈ AU_DEFINED ++ VOIDED :: LMS_VERBS -> _CANONICAL !! _norm_verb w = Some w.
Proof. intros H. cases_in H; subst; vm_compute; reflexivity. Qed.

Lemma one_of_true v l : one_of v l = true <-> v ∈ l.
Proof. apply bool_decide_eq_true. Qed.
Lemma one_of_false v l : one_of v l = false <-> v ∉ l.
Proof. apply bool_decide_eq_false. Qed.
Lemma is_str_eq s j : is_str s j = true -> j = JStr s.
Proof. destruct j; try done. cbn [is_str]. by intros ->%String.eqb_eq. Qed.
Lemma is_obj_eq j : is_obj j = true -> exists l, j = JObj l.
Proof. destruct j; try done. by eexists. Qed.

(** The unit's own verbs are taken in one spelling, the LMS's in none. *)
Definition own_verb (verb : string) : Prop :=
  (forall w, w ∈ VOIDED :: LMS_VERBS -> _norm_verb verb <> _norm_verb w) /\
  (forall w, w ∈ AU_DEFINED -> _norm_verb verb = _norm_verb w -> verb = w).
Lemma own_verb_intro verb :
  match _CANONICAL !! _norm_verb verb with Some c => negb (String.eqb c verb) | None => false end = false ->
  String.eqb verb VOIDED = false -> one_of verb LMS_VERBS = false -> own_verb verb.
Proof.
  intros Hc Hv Hl. rewrite one_of_false in Hl. apply String.eqb_neq in Hv.
  assert (Hw : forall w, w ∈ AU_DEFINED ++ VOIDED :: LMS_VERBS -> _norm_verb verb = _norm_verb w -> verb = w).
  { intros w Hw He. rewrite He, (canonical_of w Hw) in Hc. reflect_bools. by apply String.eqb_eq in Hc. }
  clear Hc. split; intros w Hin; [|apply Hw; rewrite elem_of_app; by left].
  intros He. apply Hw in He as ->; [|rewrite elem_of_app; by right].
  apply elem_of_cons in Hin as [->|Hin]; [done|by apply Hl].
Qed.

Lemma same_actor_account j want :
  same_actor j want = Ok true ->
  get "homePage" (get "account" j) = JStr (a_home want) /\ get "name" (get "account" j) = JStr (a_name want) /\
  has "mbox" j = false /\ has "mbox_sha1sum" j = false /\ has "openid" j = false.
Proof.
  unfold same_actor. destruct (is_obj j); [|done]. cbn [negb]. case_match; [done|]. unfold or_dict, guard_or.
  destruct (truthy (get "account" j)); [destruct (is_obj (get "account" j)); [|done]|done].
  cbn. intros [= Hx]. reflect_bools. by repeat split; try apply is_str_eq.
Qed.

Lemma or_dict_str j v k s : or_dict j = Ok v -> get k v = JStr s -> get k j = JStr s.
Proof.
  unfold or_dict. destruct (truthy j); [|by intros [= <-]]. unfold guard_or.
  destruct (is_obj j); [by intros [= <-]|done].
Qed.

(** The context: whatever of TrueNorth's it names is under the unit's activity. *)
Lemma context_scope_ok view activities keys :
  context_scope view activities keys = Ok tt ->
  forall key, key ∈ keys -> forall a s root,
    a ∈ elements (get key activities) -> get "id" a = JStr s -> root ∈ w_tn_roots view -> startswith root s = true ->
    within (w_au_runtime_id view) s.
Proof.
  induction keys as [|k keys IH]; cbn [context_scope]; intros H key Hkey a s root Ha Hs Hr Hp; [by apply elem_of_nil in Hkey|].
  ok_steps H. apply elem_of_cons in Hkey as [->|Hkey]; [|by eapply IH]. clear IH H.
  unfold _ids in Hx. destruct (get k activities) as [| | | | | |l|]; cbn [elements] in Ha; try by apply elem_of_nil in Ha.
  destruct (truthy (JList l)) eqn:Et; [|destruct l; [by apply elem_of_nil in Ha|done]]. injection Hx as <-.
  assert (Hin : JStr s ∈ omap (fun a => if is_obj a then Some (get "id" a) else None) l).
  { apply list_elem_of_omap. exists a. split; [done|]. rewrite Hs. destruct (is_obj a) eqn:E; [done|]. by destruct a. }
  destruct (outside view (JStr s)) eqn:Eo.
  { exfalso. apply not_true_iff_false in Hg. apply Hg, existsb_exists. exists (JStr s). split; [by apply list_elem_of_In|done]. }
  cbn [outside] in Eo. apply andb_false_iff in Eo as [Eo|Eo].
  - exfalso. apply not_true_iff_false in Eo. apply Eo, existsb_exists. exists root. split; [by apply list_elem_of_In|done].
  - apply negb_false_iff in Eo. apply in_scope_within in Eo as (s' & [= <-] & Hw). done.
Qed.

Lemma defined_verb st verb view earlier said : _check_defined st verb view earlier = Ok said -> said = verb.
Proof. unfold _check_defined. intros H. ok_steps H. by injection H as <-. Qed.

(** What holds of every statement taken, whatever its verb. *)
Record taken (st : json) (view : SessionView) (earlier : list string) (verb : string) : Prop := {
  tk_prefs : w_prefs_fetched view = true;
  tk_verb : get "id" (get "verb" st) = JStr verb;
  tk_own : own_verb verb;
  tk_numbers : forall x, inside st x -> plain_number x;
  tk_id : truthy (get "id" st) = true /\ is_reserved_id (get "id" st) = false;
  tk_actor : same_actor (get "actor" st) (w_actor view) = Ok true;
  tk_registration : get "registration" (get "context" st) = JStr (w_registration view);
  tk_session : get EXT_SESSION (get "extensions" (get "context" st)) = JStr (w_session_id view);
  tk_object : exists s, get "id" (get "object" st) = JStr s /\ within (w_au_runtime_id view) s;
  tk_context : forall key a s root, key ∈ ["parent"; "grouping"; "other"; "category"]%string ->
    a ∈ elements (get key (get "contextActivities" (get "context" st))) -> get "id" a = JStr s ->
    root ∈ w_tn_roots view -> startswith root s = true -> within (w_au_runtime_id view) s;
  tk_started : w_initialized view = true \/ verb = INITIALIZED \/ INITIALIZED ∈ earlier;
  tk_open : w_terminated view = false /\ TERMINATED ∉ earlier
}.

Lemma check_taken st view earlier v :
  check st view earlier = Ok v ->
  exists verb, taken st view earlier verb /\
    match v with
    | Some said => said = verb /\ _check_defined st verb view earlier = Ok verb
    | None => verb ∉ AU_DEFINED /\
              (is_obj (get "result" st) = true ->
               has "success" (get "result" st) = false /\ has "completion" (get "result" st) = false /\
               has "score" (get "result" st) = false)
    end.
Proof.
  unfold check. intros H. ok_steps H. destruct (get "id" x) as [| | | | |verb| |] eqn:Ev; try done. ok_steps H.
  match goal with H : match _CANONICAL !! _ with _ => _ end = false |- _ => apply own_verb_intro in H; [|assumption..] end.
  exists verb. reflect_bools. subst. repeat match goal with u : () |- _ => destruct u end. split.
  - split; eauto using own_verb_intro, finite_inside, or_dict_str, in_scope_within, is_str_eq.
    + intros key a s root. eauto using context_scope_ok.
    + match goal with H : (negb (w_initialized view) && _ && _) = false |- _ =>
        apply andb_false_iff in H as [[H|H]%andb_false_iff|H]; apply negb_false_iff in H end;
        [by left|right; left; by apply String.eqb_eq|right; right; by apply one_of_true].
    + split; [done|]. by apply one_of_false.
  - destruct (mem CAT_CMI5 _); ok_steps H; injection H as <-; reflect_bools.
    + match goal with H : _check_defined _ _ _ _ = Ok ?s |- _ => pose proof (defined_verb _ _ _ _ _ H) as ->; done end.
    + split; [by apply one_of_false|]. intros Ho.
      match goal with H : (is_obj (get "result" st) && _) = false |- _ => rewrite Ho in H; cbn [andb] in H end.
      by reflect_bools.
Qed.

(** A cmi5-defined statement among those sent in its session and recorded in its registration. *)
Record in_order (verb : string) (view : SessionView) (earlier : list string) : Prop := {
  io_once : verb ∉ w_sent view ++ earlier;
  io_one_judgement : (verb = PASSED -> FAILED ∉ w_sent view ++ earlier) /\ (verb = FAILED -> PASSED ∉ w_sent view ++ earlier);
  io_completed : verb = COMPLETED -> w_au_completed view = false;
  io_passed : pf verb = true -> w_au_passed view = false
}.

Lemma check_order_ok verb scaled view earlier :
  verb ∈ AU_DEFINED -> check_order verb scaled view earlier = Ok tt ->
  in_order verb view earlier /\
  (verb = PASSED -> judged_by Qltb scaled view = false) /\
  (verb = FAILED -> judged_by (fun s m => Qle_bool m s) scaled view = false).
Proof.
  intros Hv H. unfold AU_DEFINED in Hv.
  assert (forall b, one_of verb [INITIALIZED; TERMINATED] && b = false -> (verb = INITIALIZED \/ verb = TERMINATED) -> b = false) as Hit.
  { intros b Hb [->| ->]; exact Hb. }
  cases_in Hv; subst verb; unfold check_order in H; cbn [String.eqb] in H; vm_compute (String.eqb _ _) in H; ok_steps H.
  all: try (apply Hit in Hg; [|by (left + right)]); clear Hit.
  all: split; [split|]; rewrite ?one_of_false in *; repeat split; intros; by try discriminate.
Qed.

(** What holds of a cmi5-defined statement; of a judgement, the mark it reports. *)
Record defined_ok (st : json) (view : SessionView) (earlier : list string) (verb : string) : Prop := {
  df_verb : verb ∈ AU_DEFINED;
  df_object : get "id" (get "object" st) = JStr (w_au_runtime_id view);
  df_mode : verb ∈ JUDGED -> w_launch_mode view <> "Browse"%string /\ w_launch_mode view <> "Review"%string;
  df_order : in_order verb view earlier;
  df_mark : pf verb = true -> w_require_graded view = true ->
    exists g s, w_graded view = Some g /\ num (scaled_of (get "result" st)) = Some s /\ (Qabs (s - g) <= 1 # 10000)%Q /\
      forall m, w_mastery view = Some m -> (verb = PASSED -> m <= s)%Q /\ (verb = FAILED -> s < m)%Q
}.

Lemma check_mark_ok scaled view :
  check_mark scaled view = Ok tt -> w_require_graded view = true ->
  exists g s, w_graded view = Some g /\ num scaled = Some s /\ (Qabs (s - g) <= 1 # 10000)%Q.
Proof.
  unfold check_mark. intros H Hr. ok_steps H. rewrite Hr in *. destruct (w_graded view) as [g|]; [|done].
  ok_steps H. destruct (num scaled) as [s|]; [|done]. reflect_bools. exists g, s. repeat split. by apply Qle_bool_iff.
Qed.

Lemma defined_facts st view earlier verb : _check_defined st verb view earlier = Ok verb -> defined_ok st view earlier verb.
Proof.
  unfold _check_defined. intros H. ok_steps H. clear H. repeat match goal with u : () |- _ => destruct u end.
  reflect_bools. match goal with H : one_of _ AU_DEFINED = true |- _ => apply one_of_true in H as Hv end.
  match goal with H : check_order _ _ _ _ = _ |- _ => destruct (check_order_ok _ _ _ _ Hv H) as (Ho & Hp & Hf) end.
  split; [done|by apply is_str_eq| |done|].
  - intros Hj%one_of_true. rewrite Hj, !andb_true_r in *. by split; apply String.eqb_neq.
  - intros Hpf Hr. rewrite Hpf in *.
    match goal with H : check_mark _ _ = _ |- _ => destruct (check_mark_ok _ _ H Hr) as (g & s & Hg' & Hs & Hd) end.
    exists g, s. do 3 (split; [done|]). intros m Hm. unfold judged_by in *. rewrite Hm, Hs in *. split.
    + intros Hv'. specialize (Hp Hv'). unfold Qltb in Hp. apply negb_false_iff in Hp. by apply Qle_bool_iff.
    + intros Hv'. specialize (Hf Hv'). apply Qnot_le_lt. intros Hle%Qle_bool_iff. congruence.
Qed.

(** ** What a conforming unit sends *)

(** The context template a launch gives, for a unit published under [publisher]. *)
Definition launch_template (publisher session : string) : list (string * json) :=
  [("contextActivities"%string, JObj [("grouping"%string, JList [JObj [("objectType"%string, JStr "Activity"); ("id"%string, JStr publisher)]])]);
   ("extensions"%string, JObj [(EXT_SESSION, JStr session)])].
Definition category (id : string) : json := JObj [("id"%string, JStr id)].
(** The result of a verb, with the mark [g] for a judgement. *)
Definition au_result (verb : string) (g : Q) : list (string * json) :=
  let duration := ("duration"%string, JStr "PT5M") in
  let score := ("score"%string, JObj [("scaled"%string, JFloat g)]) in
  if String.eqb verb COMPLETED then [("completion"%string, JBool true); duration]
  else if String.eqb verb PASSED then [("success"%string, JBool true); score; duration]
  else if String.eqb verb FAILED then [("success"%string, JBool false); score; duration]
  else [duration].
Definition au_statement (view : SessionView) (publisher id ts verb : string) (g : Q) : json :=
  JObj
    [("id"%string, JStr id); ("timestamp"%string, JStr ts);
     ("actor"%string, JObj [("account"%string, JObj [("homePage"%string, JStr (a_home (w_actor view))); ("name"%string, JStr (a_name (w_actor view)))])]);
     ("verb"%string, JObj [("id"%string, JStr verb)]);
     ("object"%string, JObj [("id"%string, JStr (w_au_runtime_id view))]);
     ("result"%string, JObj (au_result verb g));
     ("context"%string, JObj
        [("registration"%string, JStr (w_registration view));
         ("contextActivities"%string, JObj
            [("grouping"%string, JList [JObj [("objectType"%string, JStr "Activity"); ("id"%string, JStr publisher)]]);
             ("category"%string, JList (category CAT_CMI5 :: if one_of verb JUDGED then [category CAT_MOVEON] else []))]);
         ("extensions"%string, JObj
            ((EXT_SESSION, JStr (w_session_id view)) ::
             match w_mastery view with Some m => [(EXT_MASTERY, JFloat m)] | None => [] end))])].

(** ** The properties *)

(** C29: whatever an assignable unit sends, a statement the LMS takes is by the launch actor, in the launch
    registration and session, about the unit's own activity or a plain path under it; the lists of its
    contextActivities name no activity of TrueNorth's outside that (an activity given on its own where xAPI
    has a list is not looked at, [demo_single_other]); its id is none of the LMS's reserved ones; its verb is not one of the LMS's own in
    any spelling; it holds no number that is not one; the session has been initialized, or is by it, and is not
    over.  If it is cmi5-defined it is one of the unit's five verbs; if it is not it claims no result. *)
Theorem accepted_statement st view earlier v :
  check st view earlier = Ok v ->
  exists verb, taken st view earlier verb /\
    match v with
    | Some said => said = verb /\ defined_ok st view earlier verb
    | None => verb ∉ AU_DEFINED /\ (is_obj (get "result" st) = true ->
        has "success" (get "result" st) = false /\ has "completion" (get "result" st) = false /\ has "score" (get "result" st) = false)
    end.
Proof.
  intros H. destruct (check_taken _ _ _ _ H) as (verb & Ht & Hv). exists verb. split; [done|].
  destruct v as [said|]; [|done]. destruct Hv as [-> Hd]. split; [done|]. by apply defined_facts.
Qed.

Section Conforming.
Context (view : SessionView) (publisher id ts verb : string) (g : Q) (earlier : list string).
Context (Htemplate : w_template view = launch_template publisher (w_session_id view)).
Context (Hprefs : w_prefs_fetched view = true) (Hopen : w_terminated view = false /\ TERMINATED ∉ earlier).
Context (Hid : id <> "" /\ is_reserved_id (JStr id) = false) (Hts : ts <> "" /\ is_utc ts = true).
Context (Hruntime : w_au_runtime_id view <> "").
Context (Hroots : forall s root, s ∈ [publisher; CAT_CMI5; CAT_MOVEON] -> root ∈ w_tn_roots view -> startswith root s = false).
Context (Hstarted : w_initialized view = true \/ verb = INITIALIZED \/ INITIALIZED ∈ earlier).
Context (Hverb : verb ∈ AU_DEFINED) (Horder : in_order verb view earlier).
Context (Hmode : verb ∈ JUDGED -> w_launch_mode view = "Normal"%string).
Context (Hmark : pf verb = true -> w_graded view = Some g).
Context (Hmastery : forall m, w_mastery view = Some m -> (verb = PASSED -> m <= g)%Q /\ (verb = FAILED -> g < m)%Q).

#[local] Notation St := (au_statement view publisher id ts verb g).
#[local] Notation Ctx := (get "context" St).

Lemma au_verb_plain : String.eqb verb "" = false /\ String.eqb verb VOIDED = false /\ one_of verb LMS_VERBS = false.
Proof. unfold AU_DEFINED in Hverb. clear - Hverb. cases_in Hverb; subst; vm_compute; done. Qed.
Lemma au_finite : finite St = true.
Proof.
  unfold au_statement. clear - Hverb. unfold AU_DEFINED in Hverb. destruct (w_mastery view); cases_in Hverb; subst; reflexivity.
Qed.
Lemma au_actor : same_actor (get "actor" St) (w_actor view) = Ok true.
Proof.
  unfold same_actor. cbn. rewrite !String.eqb_refl. reflexivity.
Qed.
Lemma au_template : _matches_template Ctx (w_template view) = Ok tt.
Proof.
  rewrite Htemplate. cbn. rewrite !String.eqb_refl. cbn. rewrite !String.eqb_refl. reflexivity.
Qed.
Lemma au_outside s : s ∈ [publisher; CAT_CMI5; CAT_MOVEON] -> outside view (JStr s) = false.
Proof.
  intros Hs. cbn [outside]. destruct (existsb _ _) eqn:E; [|done]. exfalso.
  apply existsb_exists in E as (root & Hr%list_elem_of_In & Hp). by rewrite (Hroots s root) in Hp.
Qed.
Lemma au_categories :
  _ids (get "category" (get "contextActivities" Ctx)) =
    Ok (JStr CAT_CMI5 :: if one_of verb JUDGED then [JStr CAT_MOVEON] else []).
Proof. unfold au_statement. destruct (one_of verb JUDGED); reflexivity. Qed.
Lemma au_context :
  context_scope view (get "contextActivities" Ctx) ["parent"; "grouping"; "other"; "category"]%string = Ok tt.
Proof.
  cbn [context_scope]. rewrite au_categories.
  change (_ids (get "parent" (get "contextActivities" Ctx))) with (Ok (E := refusal) (@nil json)).
  change (_ids (get "other" (get "contextActivities" Ctx))) with (Ok (E := refusal) (@nil json)).
  change (_ids (get "grouping" (get "contextActivities" Ctx))) with (Ok (E := refusal) [JStr publisher]).
  cbn [mbind result_bind existsb]. rewrite !au_outside by set_solver.
  destruct (one_of verb JUDGED); cbn [existsb]; rewrite ?au_outside by set_solver; reflexivity.
Qed.

Lemma au_started : negb (w_initialized view) && negb (String.eqb verb INITIALIZED) && negb (one_of INITIALIZED earlier) = false.
Proof.
  destruct Hstarted as [H|[H|H]]; [by rewrite H| |].
  - rewrite H, String.eqb_refl. cbn. by rewrite andb_false_r.
  - apply one_of_true in H. rewrite H. by rewrite andb_false_r.
Qed.
Lemma au_open : w_terminated view || one_of TERMINATED earlier = false.
Proof. destruct Hopen as [-> H]. by apply one_of_false in H as ->. Qed.

Lemma au_score : pf verb = true -> check_score Ctx (JObj [("scaled"%string, JFloat g)]) verb view = Ok tt.
Proof.
  intros Hpf. unfold check_score. rewrite Hpf. destruct (w_mastery view) as [m|] eqn:Em; [|reflexivity].
  replace (or_dict (get "extensions" Ctx)) with
    (Ok (E := refusal) (JObj [(EXT_SESSION, JStr (w_session_id view)); (EXT_MASTERY, JFloat m)]))
    by (unfold au_statement; rewrite Em; reflexivity).
  assert (Hq : Qeq_bool m m = true) by (apply Qeq_bool_iff; reflexivity).
  cbn [mbind result_bind].
  change (get EXT_MASTERY (JObj [(EXT_SESSION, JStr (w_session_id view)); (EXT_MASTERY, JFloat m)])) with (JFloat m).
  cbn [is_num num]. rewrite Hq. reflexivity.
Qed.
(** A condition that computes to false. *)
Ltac pass := lazymatch goal with |- (if ?b then Err _ else _) = _ => change b with false; cbv iota end.
Lemma au_result_ok : check_result Ctx (JObj (au_result verb g)) verb view = Ok tt.
Proof.
  unfold check_result. rewrite au_categories. pose proof au_score as Hs. clear - Hverb Hs. unfold AU_DEFINED in Hverb.
  cases_in Hverb; subst; repeat pass; cbn [mbind result_bind]; pass.
  3, 4: change (get "score" (JObj (au_result _ g))) with (JObj [("scaled"%string, JFloat g)]); rewrite Hs by reflexivity.
  all: reflexivity.
Qed.
Lemma au_mark : pf verb = true -> check_mark (scaled_of (JObj (au_result verb g))) view = Ok tt.
Proof.
  intros Hpf. replace (scaled_of (JObj (au_result verb g))) with (JFloat g).
  - unfold check_mark. rewrite (Hmark Hpf). cbn -[near_mark]. rewrite andb_false_r, andb_false_r.
    assert (near_mark g g = true) as ->; [|by destruct (w_require_graded view)].
    unfold near_mark. apply Qle_bool_iff. assert (H : (g - g == 0)%Q) by ring. rewrite H. by vm_compute.
  - apply one_of_true in Hpf. cases_in Hpf; subst; reflexivity.
Qed.
Lemma au_order : check_order verb (scaled_of (JObj (au_result verb g))) view earlier = Ok tt.
Proof.
  destruct Horder as [Ho [Hj1 Hj2] Hc Hp]. unfold check_order. apply one_of_false in Ho. rewrite Ho, andb_false_r.
  unfold judged_by. clear - Hverb Ho Hj1 Hj2 Hc Hp Hmastery. unfold AU_DEFINED in Hverb.
  cases_in Hverb; subst; try reflexivity.
  - change (String.eqb COMPLETED COMPLETED) with true. cbv iota. by rewrite Ho, Hc.
  - change (String.eqb PASSED COMPLETED) with false. change (String.eqb PASSED PASSED) with true. cbv iota.
    rewrite Ho, (proj2 (one_of_false _ _) (Hj1 eq_refl)), Hp by reflexivity.
    change (num _) with (Some g). destruct (w_mastery view) as [m|]; [|done].
    destruct (Hmastery m eq_refl) as [Hm _]. specialize (Hm eq_refl). apply Qle_bool_iff in Hm. unfold Qltb. by rewrite Hm.
  - change (String.eqb FAILED COMPLETED) with false. change (String.eqb FAILED PASSED) with false.
    change (String.eqb FAILED FAILED) with true. cbv iota.
    rewrite Ho, (proj2 (one_of_false _ _) (Hj2 eq_refl)), Hp by reflexivity.
    change (num _) with (Some g). destruct (w_mastery view) as [m|]; [|done].
    destruct (Hmastery m eq_refl) as [_ Hm]. specialize (Hm eq_refl).
    destruct (Qle_bool m g) eqn:E; [|done]. apply Qle_bool_iff in E. by apply Qlt_not_le in Hm.
Qed.

Lemma au_defined : _check_defined St verb view earlier = Ok verb.
Proof.
  unfold _check_defined. pass. rewrite (proj2 (one_of_true verb AU_DEFINED) Hverb). cbn [negb]. cbv iota.
  change (get "object" St) with (JObj [("id"%string, JStr (w_au_runtime_id view))]).
  change (get "result" St) with (JObj (au_result verb g)). cbn [is_obj].
  change (get "id" (JObj [("id"%string, JStr (w_au_runtime_id view))])) with (JStr (w_au_runtime_id view)).
  cbn [truthy is_str]. rewrite String.eqb_refl, (proj2 (String.eqb_neq _ _) Hruntime). cbn [negb orb]. cbv iota.
  assert (Hm : forall mode, mode <> "Normal"%string -> String.eqb (w_launch_mode view) mode && one_of verb JUDGED = false).
  { intros mode Hne. destruct (one_of verb JUDGED) eqn:E; [|apply andb_false_r]. apply one_of_true in E.
    rewrite (Hmode E), andb_true_r. apply String.eqb_neq. congruence. }
  rewrite !Hm by done. rewrite au_result_ok. cbn [mbind result_bind]. rewrite au_order.
  pose proof au_mark as Hk. destruct (pf verb); [rewrite Hk by done|]; reflexivity.
Qed.

(** C30: what a conforming unit sends is taken: a statement of one of the unit's verbs made from the launch data,
    in its place in the session, with the mark TrueNorth gave where it judges, is accepted as that verb. *)
Theorem conforming_accepted : check (au_statement view publisher id ts verb g) view earlier = Ok (Some verb).
Proof.
  destruct au_verb_plain as (He & Hv & Hl), Hid as [Hid1 Hid2], Hts as [Hts1 Hts2]. unfold check. rewrite Hprefs, au_finite.
  repeat pass. change (or_dict (get "verb" St)) with (Ok (E := refusal) (JObj [("id"%string, JStr verb)])). cbn [mbind result_bind].
  change (get "id" (JObj [("id"%string, JStr verb)])) with (JStr verb). cbv iota.
  rewrite He, canonical_of, String.eqb_refl by (rewrite elem_of_app; by left). cbn [negb]. cbv iota.
  change (get "id" St) with (JStr id). rewrite Hid2, Hv, Hl. change (get "timestamp" St) with (JStr ts). cbv beta iota. rewrite Hts2.
  cbn [truthy]. apply String.eqb_neq in Hid1 as ->, Hts1 as ->. repeat pass. rewrite au_actor. cbn [mbind result_bind].
  repeat pass. rewrite au_template, au_context, au_categories. cbn [mbind result_bind].
  change (or_dict (get "extensions" Ctx)) with
    (Ok (E := refusal) (JObj ((EXT_SESSION, JStr (w_session_id view)) ::
      match w_mastery view with Some m => [(EXT_MASTERY, JFloat m)] | None => [] end))).
  change (get "registration" Ctx) with (JStr (w_registration view)). change (get "object" St) with (JObj [("id"%string, JStr (w_au_runtime_id view))]).
  cbn [mbind result_bind]. 
  change (get EXT_SESSION (JObj ((EXT_SESSION, _) :: _))) with (JStr (w_session_id view)).
  rewrite au_started, au_open. cbn [is_str]. rewrite !String.eqb_refl.
  change (get "id" (JObj [("id"%string, JStr (w_au_runtime_id view))])) with (JStr (w_au_runtime_id view)).
  cbn [in_scope]. rewrite String.eqb_refl, au_defined. destruct (one_of verb JUDGED); reflexivity.
Qed.
End Conforming.

(** ** Examples *)

Definition demo_view : SessionView :=
  View (Account "https://tn.example" "u1") "r1" "s1" "https://tn.example/xapi/cmi5/releases/c1/au/0"
    (launch_template "https://course.example/mod1" "s1") "Normal" (Some (7 # 10)) true false true [INITIALIZED] false false
    ["https://tn.example/xapi/"; "http://truenorthrange.local/"]%string true (Some (8 # 10)).
Definition demo_passed : json :=
  au_statement demo_view "https://course.example/mod1" "6f1c3a52-0c5e-4b7e-9a55-0d2f6f7a1b2c" "2026-01-05T10:00:00Z" PASSED (8 # 10).

Example demo_reserved : is_reserved_id (JStr "{6f1c3a52-0c5e-8b7e-9a55-0d2f6f7a1b2c}") = true /\
  is_reserved_id (JStr "urn:uuid:6f1c3a520c5e8b7e9a550d2f6f7a1b2c") = true /\
  is_reserved_id (JStr "6f1c3a52-0c5e-4b7e-9a55-0d2f6f7a1b2c") = false.
Proof. by vm_compute. Qed.
Example demo_spelled : _norm_verb " HTTPS://adlnet.gov/expapi/verbs/Passed/ " = PASSED.
Proof. by vm_compute. Qed.
Example demo_scope :
  in_scope (JStr "a/b/c") "a" = true /\ in_scope (JStr "a/../b") "a" = false /\ in_scope (JStr "a/%2e%2e/b") "a" = false.
Proof. by vm_compute. Qed.

(** An activity of another unit under contextActivities.other: refused in a list, and not seen on its own, which
    older xAPI allows and an LRS reads as a list of one. *)
Definition at_key (k : string) (f : json -> json) (j : json) : json :=
  match j with JObj l => JObj (map (fun p => if String.eqb p.1 k then (p.1, f p.2) else p) l) | _ => j end.
Definition with_other (o : json) : json -> json :=
  at_key "context" (at_key "contextActivities" (fun j => match j with JObj l => JObj (l ++ [("other"%string, o)]) | _ => j end)).
Definition demo_foreign : json := JObj [("id"%string, JStr "https://tn.example/xapi/cmi5/releases/c1/au/1")].
Example demo_single_other :
  check (with_other (JList [demo_foreign]) demo_passed) demo_view [] = Err (forbid "TN-SCOPE") /\
  check (with_other demo_foreign demo_passed) demo_view [] = Ok (Some PASSED).
Proof. by vm_compute. Qed.

Lemma accepted_statement_witness :
  check demo_passed demo_view [] = Ok (Some PASSED) /\
  exists verb, taken demo_passed demo_view [] verb /\ PASSED = verb /\ defined_ok demo_passed demo_view [] verb.
Proof. split; [by vm_compute|]. apply (accepted_statement demo_passed demo_view [] (Some PASSED)). by vm_compute. Defined.

Lemma conforming_accepted_witness : check demo_passed demo_view [] = Ok (Some PASSED).
Proof.
  apply (conforming_accepted demo_view "https://course.example/mod1").
  all: try done; try by vm_compute.
  all: try (by split; vm_compute); try (by left).
  - split; [done|]. by apply one_of_false.
  - intros s root Hs Hr. unfold demo_view in Hr. cbn [w_tn_roots] in Hr. cases_in Hs; cases_in Hr; subst; by vm_compute.
  - in_list.
  - split; [by apply one_of_false|split; [intros _; by apply one_of_false|done]|done|done].
  - intros m [= <-]. split; [by intros _|done].
Defined.
