(* ===== verification/Cmi5Ids.v ===== *)
(** * The ids of the cmi5 LMS's own statements

    Models [lms_statement_id] of [control-plane/api/app/cmi5/lms.py]: an HMAC digest shaped as a UUID of
    version 8, and its text.  The theorem: the rules (Cmi5Rules.v) reserve every such id. *)

From S2P Require Import Prelude PyText Cmi5Rules.
From Stdlib Require Import Ascii.

Local Open Scope Z_scope.

(** ** The LMS's own statement ids *)

Definition hex_char (d : Z) : ascii := ascii_of_nat (Z.to_nat (if d <? 10 then 48 + d else 87 + d)).
(** The last [w] hexadecimal digits of [n]. *)
Fixpoint hex_text (w : nat) (n : Z) : string :=
  match w with O => EmptyString | S w' => hex_text w' (n / 16) +:+ String (hex_char (n mod 16)) EmptyString end.
(** [str(uuid.UUID(int=n))] *)
Definition uuid_str (n : Z) : string :=
  hex_text 8 (n / 2 ^ 96) +:+ "-" +:+ hex_text 4 (n / 2 ^ 80) +:+ "-" +:+ hex_text 4 (n / 2 ^ 64) +:+ "-" +:+
  hex_text 4 (n / 2 ^ 48) +:+ "-" +:+ hex_text 12 n.
Definition int_from_bytes (l : list Z) : Z := foldl (fun acc b => 256 * acc + b) 0 l.

(** The version and variant bits the LMS sets in a digest. *)
Definition version_bits (d : Z) : Z := Z.lor (Z.land d 15) 128.
Definition variant_bits (d : Z) : Z := Z.lor (Z.land d 63) 128.

Section Ids.
(** HMAC-SHA256 under the server's secret. *)
Context (mac : string -> list Z).
Definition lms_statement_id (parts : list string) : string :=
  let digest := take 16 (mac (str_join ":" parts)) in
  let digest := <[6%nat := version_bits (nth 6 digest 0)]> digest in
  let digest := <[8%nat := variant_bits (nth 8 digest 0)]> digest in
  uuid_str (int_from_bytes digest).
End Ids.

(** ** Reading such an id back *)

Definition is_hex (c : ascii) : bool := bool_decide (is_Some (hex_of c)).
Definition all_hex (s : string) : Prop := any_char (fun c => negb (is_hex c)) s = false.

Lemma hex_char_of d : 0 <= d < 16 -> hex_of (hex_char d) = Some d.
Proof.
  intros Hd. assert (Hin : d ∈ Z.of_nat <$> seq 0 16).
  { apply list_elem_of_fmap. exists (Z.to_nat d). split; [lia|]. apply elem_of_seq. lia. }
  cbn in Hin. cases_in Hin; subst; reflexivity.
Qed.
Lemma all_hex_app s t : all_hex (s +:+ t) <-> all_hex s /\ all_hex t.
Proof. unfold all_hex. rewrite any_char_app. apply orb_false_iff. Qed.
Lemma all_hex_text w n : all_hex (hex_text w n).
Proof.
  revert n; induction w as [|w IH]; intros n; [done|]. cbn [hex_text]. apply all_hex_app. split; [apply IH|].
  unfold all_hex, is_hex. cbn [any_char]. rewrite hex_char_of by (apply Z.mod_pos_bound; lia). done.
Qed.
Lemma hex_text_length w n : String.length (hex_text w n) = w.
Proof. revert n; induction w as [|w IH]; intros n; [done|]. cbn [hex_text]. rewrite string_length_app, IH. cbn. lia. Qed.

Definition push_digits (acc : Z) (w : nat) (n : Z) : Z := acc * 16 ^ Z.of_nat w + n mod 16 ^ Z.of_nat w.
Lemma hex_run_text w n us acc t :
  hex_run us acc (hex_text w n +:+ t) = hex_run (us && Nat.eqb w 0) (push_digits acc w n) t.
Proof.
  revert n us acc t; induction w as [|w IH]; intros n us acc t; cbn [hex_text].
  - rewrite andb_true_r. f_equal. unfold push_digits. rewrite Z.mod_1_r. lia.
  - rewrite string_app_assoc, IH, andb_false_r. change (String ?c "" +:+ t) with (String c t). cbn [hex_run].
    rewrite hex_char_of by (apply Z.mod_pos_bound; lia). f_equal. unfold push_digits.
    rewrite Nat2Z.inj_succ, Z.pow_succ_r by lia. set (p := 16 ^ Z.of_nat w). assert (0 < p) by (apply Z.pow_pos_nonneg; lia).
    rewrite Z.rem_mul_r by lia. lia.
Qed.

(** Characters a hexadecimal string does not hold. *)
Lemma all_hex_cons c s : all_hex (String c s) <-> is_hex c = true /\ all_hex s.
Proof. unfold all_hex. cbn [any_char]. by rewrite orb_false_iff, negb_false_iff. Qed.
Lemma is_hex_ne c d : is_hex c = true -> is_hex d = false -> Ascii.eqb c d = false.
Proof. intros Hc Hd. apply Ascii.eqb_neq. congruence. Qed.

Definition hex_or_dash (c : ascii) : bool := is_hex c || Ascii.eqb c "-".
Definition plain_id (s : string) : Prop := any_char (fun c => negb (hex_or_dash c)) s = false.
Lemma plain_id_app s t : plain_id (s +:+ t) <-> plain_id s /\ plain_id t.
Proof. unfold plain_id. rewrite any_char_app. apply orb_false_iff. Qed.
Lemma plain_id_cons c s : plain_id (String c s) <-> hex_or_dash c = true /\ plain_id s.
Proof. unfold plain_id. cbn [any_char]. by rewrite orb_false_iff, negb_false_iff. Qed.
Lemma plain_id_hex s : all_hex s -> plain_id s.
Proof.
  induction s as [|c s IH]; [done|]. rewrite all_hex_cons, plain_id_cons. intros [Hc Hs].
  split; [by unfold hex_or_dash; rewrite Hc|by apply IH].
Qed.

Lemma remove_text_plain c t s : hex_or_dash c = false -> plain_id s -> remove_text (String c t) 0 s = s.
Proof.
  intros Hc. induction s as [|d s IH]; [done|]. rewrite plain_id_cons. intros [Hd Hs]. cbn [remove_text].
  unfold startswith. cbn [String.prefix]. destruct (ascii_dec c d) as [->|]; [congruence|]. by rewrite IH.
Qed.
Lemma lstrip_plain p s : (forall c, p c = true -> hex_or_dash c = false) -> plain_id s -> lstrip_if p s = s.
Proof.
  intros Hp. destruct s as [|c s]; [done|]. rewrite plain_id_cons. intros [Hc _]. cbn [lstrip_if].
  destruct (p c) eqn:E; [|done]. apply Hp in E. congruence.
Qed.
Lemma rstrip_plain p s : (forall c, p c = true -> hex_or_dash c = false) -> plain_id s -> rstrip_if p s = s.
Proof.
  intros Hp. induction s as [|c s IH]; [done|]. rewrite plain_id_cons. intros [Hc Hs]. cbn [rstrip_if]. rewrite IH by done.
  destruct s; [|done]. destruct (p c) eqn:E; [|done]. apply Hp in E. congruence.
Qed.
Lemma remove_char_app d s t : remove_char d (s +:+ t) = remove_char d s +:+ remove_char d t.
Proof.
  induction s as [|c s IH]; [done|]. rewrite string_app_cons. cbn [remove_char]. rewrite IH. by destruct (Ascii.eqb c d).
Qed.
Lemma remove_char_hex d s : is_hex d = false -> all_hex s -> remove_char d s = s.
Proof.
  intros Hd. induction s as [|c s IH]; [done|]. rewrite all_hex_cons. intros [Hc Hs]. cbn [remove_char].
  rewrite is_hex_ne by done. by rewrite IH.
Qed.

Lemma not_hex_chars c : c ∈ ["{"; "}"; " "; "+"; "x"; "X"; "_"; "u"]%char -> hex_or_dash c = false.
Proof. intros H. cases_in H; subst; by vm_compute. Qed.
Lemma brace_not_plain c : is_brace c = true -> hex_or_dash c = false.
Proof. unfold is_brace. intros [->%Ascii.eqb_eq| ->%Ascii.eqb_eq]%orb_true_iff; by vm_compute. Qed.
Lemma space_not_plain c : number_space c = true -> hex_or_dash c = false.
Proof.
  unfold number_space, hex_or_dash, is_hex, hex_of. intros H.
  destruct (Ascii.eqb c "-") eqn:Ed; [apply Ascii.eqb_eq in Ed as ->; by vm_compute in H|]. rewrite orb_false_r.
  apply bool_decide_eq_false. intros [x Hx]. revert H Hx. generalize (nat_of_ascii c). intros n H Hx.
  apply orb_true_iff in H. rewrite andb_true_iff, !Nat.leb_le, Nat.eqb_eq in H.
  repeat case_match; reflect_bools; try done; lia.
Qed.

(** The 32 digits of an id, without its dashes. *)
Definition id_digits (n : Z) : string :=
  hex_text 8 (n / 2 ^ 96) +:+ hex_text 4 (n / 2 ^ 80) +:+ hex_text 4 (n / 2 ^ 64) +:+ hex_text 4 (n / 2 ^ 48) +:+ hex_text 12 n.
Lemma id_digits_hex n : all_hex (id_digits n).
Proof. unfold id_digits. rewrite !all_hex_app. repeat split; apply all_hex_text. Qed.
Lemma uuid_str_plain n : plain_id (uuid_str n).
Proof. unfold uuid_str. rewrite !plain_id_app. repeat split; try apply plain_id_hex, all_hex_text; by vm_compute. Qed.
Lemma uuid_str_digits n : remove_char "-" (uuid_str n) = id_digits n.
Proof.
  assert (H : forall w k, remove_char "-" (hex_text w k) = hex_text w k) by (intros; apply remove_char_hex; [done|apply all_hex_text]).
  unfold uuid_str, id_digits. rewrite !remove_char_app, !H. reflexivity.
Qed.
Lemma id_digits_value n : 0 <= n < 2 ^ 128 -> hex_run true 0 (id_digits n) = Some n.
Proof.
  intros Hn. unfold id_digits. rewrite <- (string_app_nil_r (hex_text 12 n)), !hex_run_text. cbn [andb Nat.eqb hex_run]. f_equal.
  unfold push_digits. change (Z.of_nat 8) with 8; change (Z.of_nat 4) with 4; change (Z.of_nat 12) with 12.
  change (16 ^ 8) with (2 ^ 32); change (16 ^ 4) with (2 ^ 16); change (16 ^ 12) with (2 ^ 48).
  rewrite (Z.mod_small (n / 2 ^ 96)) by (split; [apply Z.div_pos; lia|apply Z.div_lt_upper_bound; lia]).
  assert (H : forall k m, 0 <= k -> 0 <= m -> (n / 2 ^ (k + m)) * 2 ^ m + (n / 2 ^ k) mod 2 ^ m = n / 2 ^ k).
  { intros k m Hk Hm. rewrite Z.pow_add_r, <- Zdiv_Zdiv by lia. rewrite Z.mul_comm. symmetry. apply Z.div_mod. lia. }
  pose proof (H 80 16 ltac:(lia) ltac:(lia)) as H1. pose proof (H 64 16 ltac:(lia) ltac:(lia)) as H2.
  pose proof (H 48 16 ltac:(lia) ltac:(lia)) as H3. pose proof (H 0 48 ltac:(lia) ltac:(lia)) as H4.
  change (80 + 16) with 96 in H1. change (64 + 16) with 80 in H2. change (48 + 16) with 64 in H3.
  rewrite Z.mul_0_l, Z.add_0_l, H1, H2, H3. rewrite Z.add_0_l, Z.pow_0_r, Z.div_1_r in H4. exact H4.
Qed.

Lemma hex_start s : all_hex s ->
  match s with String c t' => if is_plus c then t' else s | _ => s end = s /\ startswith "0x" s = false /\ startswith "0X" s = false.
Proof.
  unfold is_plus. destruct s as [|c s]; [done|]. rewrite all_hex_cons. intros [Hc Hs]. rewrite is_hex_ne by done. split; [done|].
  assert (H : forall x, x ∈ ["x"; "X"]%char -> startswith (String "0" (String x "")) (String c s) = false).
  { intros x Hx. unfold startswith. cbn [String.prefix]. destruct (ascii_dec "0" c); [|done]. destruct s as [|d s]; [done|].
    apply all_hex_cons in Hs as [Hd _]. cbn [String.prefix]. destruct (ascii_dec x d) as [<-|]; [|done]. cases_in Hx; subst; by vm_compute in Hd. }
  split; apply H; in_list.
Qed.

Lemma uuid_of_str n : 0 <= n < 2 ^ 128 -> uuid_of (uuid_str n) = Some n.
Proof.
  intros Hn. unfold uuid_of. pose proof (uuid_str_plain n) as Hp.
  rewrite !(remove_text_plain _ _ (uuid_str n)) by (done || by vm_compute).
  rewrite (lstrip_plain _ _ brace_not_plain Hp), (rstrip_plain _ _ brace_not_plain Hp).
  rewrite uuid_str_digits. pose proof (id_digits_hex n) as Hh.
  assert (Hl : String.length (id_digits n) = 32%nat) by (unfold id_digits; by rewrite !string_length_app, !hex_text_length).
  rewrite Hl. cbn [Nat.eqb]. unfold hex_value. pose proof (plain_id_hex _ Hh) as Hp'.
  rewrite (lstrip_plain _ _ space_not_plain Hp'), (rstrip_plain _ _ space_not_plain Hp').
  destruct (hex_start _ Hh) as (-> & -> & ->). cbn [orb]. by apply id_digits_value.
Qed.

Lemma bits_set d : 0 <= d < 256 -> 128 <= version_bits d < 144 /\ 128 <= variant_bits d < 192.
Proof.
  intros Hd. assert (H : forallb (fun d => (128 <=? version_bits d) && (version_bits d <? 144) && (128 <=? variant_bits d) && (variant_bits d <? 192))
    (Z.of_nat <$> seq 0 256) = true) by (vm_compute; reflexivity).
  rewrite forallb_forall in H. specialize (H d). rewrite <- list_elem_of_In in H.
  assert (Hin : d ∈ Z.of_nat <$> seq 0 256) by (apply list_elem_of_fmap; exists (Z.to_nat d); split; [lia|apply elem_of_seq; lia]).
  apply H in Hin. reflect_bools. lia.
Qed.

Lemma bytes_bound l : Forall (fun b => 0 <= b < 256) l -> forall acc, 0 <= acc ->
  acc * 256 ^ zlen l <= foldl (fun a b => 256 * a + b) acc l < (acc + 1) * 256 ^ zlen l.
Proof.
  induction 1 as [|b l Hb _ IH]; intros acc Hacc; [rewrite zlen_nil, Z.pow_0_r; cbn [foldl]; lia|]. cbn [foldl]. specialize (IH (256 * acc + b) ltac:(lia)).
  assert (Hz : 256 ^ zlen (b :: l) = 256 * 256 ^ zlen l).
  { rewrite zlen_cons. rewrite <- Z.pow_succ_r by apply zlen_nonneg. f_equal. lia. }
  rewrite Hz. nia.
Qed.

(** A number whose tenth byte from the end is a version byte and eighth a variant byte. *)
Lemma version_eight a b6 b7 b8 r :
  0 <= a -> 128 <= b6 < 144 -> 0 <= b7 < 256 -> 128 <= b8 < 192 -> 0 <= r < 2 ^ 56 ->
  uuid_version ((((a * 256 + b6) * 256 + b7) * 256 + b8) * 2 ^ 56 + r) = Some 8.
Proof.
  intros Ha H6 H7 H8 Hr. set (n := _ + r). unfold uuid_version.
  assert (H63 : n / 2 ^ 63 = 2 * ((a * 256 + b6) * 256 + b7) + 1) by (symmetry; apply (Z.div_unique _ _ _ ((b8 - 128) * 2 ^ 56 + r)); lia).
  assert (H62 : n / 2 ^ 62 = 2 * (2 * ((a * 256 + b6) * 256 + b7) + 1)) by (symmetry; apply (Z.div_unique _ _ _ ((b8 - 128) * 2 ^ 56 + r)); lia).
  assert (H76 : n / 2 ^ 76 = 16 * a + 8).
  { symmetry; apply (Z.div_unique _ _ _ ((((b6 - 128) * 256 + b7) * 256 + b8) * 2 ^ 56 + r)); lia. }
  rewrite (proj2 (Z.testbit_true n 63 ltac:(lia))), (proj2 (Z.testbit_false n 62 ltac:(lia))).
  - cbn [andb negb]. rewrite Z.shiftr_div_pow2, H76 by lia. change 15 with (Z.ones 4). rewrite Z.land_ones by lia.
    f_equal. change (2 ^ 4) with 16. symmetry. apply (Z.mod_unique _ _ a); lia.
  - rewrite H62. symmetry. apply (Z.mod_unique _ _ (2 * ((a * 256 + b6) * 256 + b7) + 1)); lia.
  - rewrite H63. symmetry. apply (Z.mod_unique _ _ ((a * 256 + b6) * 256 + b7)); lia.
Qed.

Lemma ids_reserved mac parts :
  (16 <= length (mac (str_join ":" parts)))%nat -> Forall (fun b => 0 <= b < 256) (mac (str_join ":" parts)) ->
  exists n, uuid_of (lms_statement_id mac parts) = Some n /\ uuid_version n = Some 8.
Proof.
  intros Hlen Hb. unfold lms_statement_id. set (bytes := mac (str_join ":" parts)) in *.
  assert (Ht : length (take 16 bytes) = 16%nat) by (rewrite length_take; lia).
  apply (Forall_take _ 16) in Hb. destruct (take 16 bytes) as [|d0 [|d1 [|d2 [|d3 [|d4 [|d5 [|d6 [|d7 [|d8 [|d9 [|d10 [|d11 [|d12 [|d13 [|d14 [|d15 [|? ?]]]]]]]]]]]]]]]]]; try done.
  cbn [nth]. repeat match goal with H : Forall _ (_ :: _) |- _ => apply Forall_cons in H as [? H] end.
  destruct (bits_set d6) as [Hb6 _]; [done|]. destruct (bits_set d8) as [_ Hb8]; [done|].
  set (b6 := version_bits d6) in *. set (b8 := variant_bits d8) in *.
  match goal with |- context [int_from_bytes ?l] =>
    change l with [d0; d1; d2; d3; d4; d5; b6; d7; b8; d9; d10; d11; d12; d13; d14; d15] end.
  set (a := int_from_bytes [d0; d1; d2; d3; d4; d5]). set (r := int_from_bytes [d9; d10; d11; d12; d13; d14; d15]).
  assert (Ha : 0 <= a < 2 ^ 48).
  { pose proof (bytes_bound [d0; d1; d2; d3; d4; d5] ltac:(repeat (apply List.Forall_cons; [done|]); apply List.Forall_nil) 0 ltac:(lia)) as Hx. exact Hx. }
  assert (Hr : 0 <= r < 2 ^ 56).
  { pose proof (bytes_bound [d9; d10; d11; d12; d13; d14; d15] ltac:(repeat (apply List.Forall_cons; [done|]); apply List.Forall_nil) 0 ltac:(lia)) as Hx. exact Hx. }
  assert (Hn : int_from_bytes [d0; d1; d2; d3; d4; d5; b6; d7; b8; d9; d10; d11; d12; d13; d14; d15] =
               (((a * 256 + b6) * 256 + d7) * 256 + b8) * 2 ^ 56 + r).
  { subst a r. unfold int_from_bytes. cbn [foldl]. change (2 ^ 56) with 72057594037927936. lia. }
  rewrite Hn. eexists. split; [apply uuid_of_str|apply version_eight]; try lia.
Qed.

(** No unit can squat or forge the id of a statement the LMS itself makes: every id the LMS derives, whatever
    the secret's digest, is one the rules reserve, so a statement whose id is the same UUID in any spelling is
    refused. *)
Theorem lms_ids_reserved mac parts st view earlier v :
  (16 <= length (mac (str_join ":" parts)))%nat -> Forall (fun b => 0 <= b < 256) (mac (str_join ":" parts)) ->
  check st view earlier = Ok v ->
  is_reserved_id (JStr (lms_statement_id mac parts)) = true /\
  forall s n, get "id" st = JStr s -> uuid_of s = Some n -> uuid_of (lms_statement_id mac parts) <> Some n.
Proof.
  intros Hlen Hb Hc. destruct (ids_reserved mac parts Hlen Hb) as (n & Hn & Hv).
  apply check_taken in Hc as (verb & Ht & _). pose proof (proj2 (tk_id _ _ _ _ Ht)) as Hid. split.
  - unfold is_reserved_id. cbn [id_text]. by rewrite Hn, Hv.
  - intros s m Hs Hm. rewrite Hn. intros [= ->]. unfold is_reserved_id in Hid. rewrite Hs in Hid.
    cbn [id_text] in Hid. by rewrite Hm, Hv in Hid.
Qed.

(** A stand-in for the digest. *)
Definition demo_mac (s : string) : list Z := (fun i => (Z.of_nat i * 37 + Z.of_nat (String.length s)) mod 256) <$> seq 0 32.
Example demo_id : lms_statement_id demo_mac ["r1"; "satisfied"] = "0c31567b-a0c5-8a0f-b459-7ea3c8ed1237"%string.
Proof. vm_compute. reflexivity. Qed.

Lemma lms_ids_reserved_witness :
  check demo_passed demo_view [] = Ok (Some PASSED) /\
  is_reserved_id (JStr (lms_statement_id demo_mac ["r1"; "satisfied"])) = true.
Proof.
  split; [by vm_compute|].
  apply (lms_ids_reserved demo_mac ["r1"; "satisfied"]%string demo_passed demo_view [] (Some PASSED)).
  - apply Nat.leb_le. vm_compute. reflexivity.
  - apply (bool_decide_eq_true_1 _). vm_compute. reflexivity.
  - by vm_compute.
Defined.
