(* ===== verification/Cmi5Lms.v ===== *)
(** * TrueNorth as a cmi5 LMS: moveOn, launches, and what a unit may ask

    Models [control-plane/api/app/cmi5/lms.py] and the transactions of [router.py] around it, over the rules
    (Cmi5Rules.v), the statement ids (Cmi5Ids.v) and the course structure (Cmi5Structure.v).

    The LRS is another service: what it answers to each request is part of the state, a list no theorem
    constrains, and what was sent with what status is a log; an exchange that fails is [Unavailable].  A bearer's
    token and a request's body enter decoded.  Every operation is a computation over the tables and the LRS that
    returns or raises, and keeps what it did up to there: the route commits it or rolls it back. *)

From S2P Require Import Prelude PyText Cmi5Structure Cmi5Rules Cmi5Ids.
From Stdlib Require Import Ascii QArith.

Local Open Scope Z_scope.

(** ** The tables *)

Inductive sstate := Launched | Initialized | Terminated | Abandoned.
#[export] Instance sstate_eq_dec : EqDecision sstate.
Proof. solve_decision. Defined.
Definition OPEN_STATES : list sstate := [Launched; Initialized].

(** A unit's entry in [progress]; the registration's [progress]. *)
Record au_state := AuState { p_completed : bool; p_passed : bool; p_failed : bool; p_waived : option string; p_score : option Q }.
Definition no_state : au_state := AuState false false false None None.
Record progress := Progress { p_aus : gmap nat au_state; p_satisfied : list string }.

Record registration := Reg { r_id : string; r_user : string; r_release : string; r_progress : progress }.
Record session := Session {
  s_id : string; s_reg : string; s_user : string; s_au : nat; s_mode : string; s_move_on : string; s_mastery : option Q;
  s_template : list (string * json); s_fetch_hash : string; s_fetched_at : option Z; s_token_hash : option string;
  s_state : sstate; s_sent : list string; s_launch_data : bool; s_prefs : bool;
  s_launched_at : Z; s_initialized_at : option Z; s_ended_at : option Z; s_expires_at : Z
}.
Record grade := Grade { g_user : string; g_release : string; g_au : nat; g_scaled : Q; g_at : Z }.
(** A result handed to [ags.enqueue] in the same transaction. *)
Record au_result_row := Result { q_reg : string; q_release : string; q_au : nat; q_state : au_state }.

Record db := Db { d_regs : gmap string registration; d_sessions : list session; d_grades : list grade; d_results : list au_result_row }.

(** What the rest of the platform holds, at the time of a request. *)
Record release := Release { rel_id : string; rel_course : string }.
Record enrolment := Enrolment { e_id : string; e_user : string; e_course : string; e_withdrawn : bool }.
Record platform := Platform {
  o_enrolments : list enrolment; o_pinned : string -> option string; o_published : string -> option bool;
  o_author : string -> bool; o_credential : bool
}.

(** ** The LRS, and computations over it *)

(** A request's body: none, text that is not JSON (or holds NaN or an infinity), or a JSON value. *)
Inductive body := NoBody | Text (text : string) (bad_number : bool) | Payload (j : json).
(** An answer: its status, the statement it carries if it is one. *)
Inductive answer := Unavailable | Answer (status : Z) (body : option json).
(** A request the LRS answered: whether with the unit's credential, the status, and the statement it answered. *)
Record request := Request {
  q_from_au : bool; q_method : string; q_resource : string; q_params : list (string * json); q_body : body; q_status : Z;
  q_stored : option json
}.
Record lrs := Lrs { l_answers : list answer; l_log : list request }.

Inductive cerr := Cmi5Error (status : Z) | ContentError | Refused (r : refusal).
Record st := St { t_db : db; t_lrs : lrs }.
Definition M (A : Type) : Type := st -> result cerr A * st.
Definition ret {A} (a : A) : M A := fun s => (Ok a, s).
Definition raise_ {A} (e : cerr) : M A := fun s => (Err e, s).
Definition bind {A B} (m : M A) (f : A -> M B) : M B :=
  fun s => match m s with (Ok a, s') => f a s' | (Err e, s') => (Err e, s') end.
Notation "x <- m ;; k" := (bind m (fun x => k)) (at level 100, m at next level, right associativity).
Definition need (b : bool) (e : cerr) : M unit := if b then ret tt else raise_ e.
Definition get_db : M db := fun s => (Ok (t_db s), s).
Definition on_db (f : db -> db) : M unit := fun s => (Ok tt, St (f (t_db s)) (t_lrs s)).
Definition of_rules {A} (r : result refusal A) : M A :=
  match r with Ok a => ret a | Err e => raise_ (Refused e) end.

Definition _lrs (from_au : bool) (method resource : string) (params : list (string * json)) (content : body) : M (Z * option json) :=
  fun s =>
    let l := t_lrs s in
    match l_answers l with
    | Answer status stored :: rest =>
        (Ok (status, stored), St (t_db s) (Lrs rest (l_log l ++ [Request from_au method resource params content status stored])))
    | Unavailable :: rest => (Err (Cmi5Error 503), St (t_db s) (Lrs rest (l_log l)))
    | [] => (Err (Cmi5Error 503), s)
    end.
Definition success (status : Z) : bool := (status =? 200) || (status =? 204).

(** The same verb, account and object; what the LRS returns is a statement. *)
Definition same_statement (have stmt : json) : bool :=
  is_obj have &&
  json_eqb (get "id" (get "verb" have)) (get "id" (get "verb" stmt)) &&
  json_eqb (get "account" (get "actor" have)) (get "account" (get "actor" stmt)) &&
  json_eqb (get "id" (get "object" have)) (get "id" (get "object" stmt)).
Definition put_statement (stmt : json) : M unit :=
  let by_id := [("statementId"%string, get "id" stmt)] in
  a <- _lrs false "PUT" "statements" by_id (Payload stmt) ;;
  if a.1 =? 409 then
    b <- _lrs false "GET" "statements" by_id NoBody ;;
    need ((b.1 =? 200) && match b.2 with Some have => same_statement have stmt | None => false end) (Cmi5Error 502)
  else need (success a.1) (Cmi5Error 502).
Definition put_document (resource : string) (params : list (string * json)) (doc : json) : M unit :=
  a <- _lrs false "GET" resource params NoBody ;;
  _ <- need ((a.1 =? 200) || (a.1 =? 404)) (Cmi5Error 502) ;;
  b <- _lrs false "PUT" resource params (Payload doc) ;;
  need (success b.1) (Cmi5Error 502).

(** ** Statements of the LMS *)

(** The platform the LMS runs on: its digests and addresses, the structure of each release ([package], none when it
    is not usable) and its quizzes as the questions' ids and answers, and its settings. *)
Class Config := {
  sha256 : string -> string; mac : string -> list Z;
  home : string; iri_base : string; web_base : string;
  package : string -> option CourseStructure; quiz : string -> nat -> option (list (string * string));
  session_time : Z; fetch_time : Z; attempts : nat
}.

Section Lms.
Context {cfg : Config}.

#[local] Notation "k ~> v" := (k%string, v) (at level 60).

Definition actor_account (user : string) : account := Account home (strip user).
Definition actor (user : string) : json :=
  JObj ["objectType" ~> JStr "Agent"; "account" ~> JObj ["homePage" ~> JStr home; "name" ~> JStr (strip user)]].

(** [_stamp]: milliseconds, and a [Z]. *)
Definition _stamp (t : Z) : string :=
  let s := t mod DAY / SECOND in
  isoformat (date_of t) +:+ "T" +:+ pad 2 (s / 3600) +:+ ":" +:+ pad 2 (s / 60 mod 60) +:+ ":" +:+ pad 2 (s mod 60) +:+
  "." +:+ pad 3 (t mod SECOND / 1000) +:+ "Z".
(** [round(x / y)]: half to even. *)
Definition round_div (x y : Z) : Z :=
  let q := x / y in
  if 2 * (x mod y) <? y then q else if y <? 2 * (x mod y) then q + 1 else if Z.even q then q else q + 1.
Definition iso_duration (span : Z) : string :=
  let centis := Z.max 0 (round_div span 10000) in
  "PT" +:+ pretty (centis / 100) +:+ "." +:+ pad 2 (centis mod 100) +:+ "S".

Definition lms_statement (id user verb display : string) (result : list (string * json)) (object_ : list (string * json))
    (registration_id : string) (categories : list string) (publisher : string) (extensions : list (string * json)) (now : Z) : json :=
  JObj (["id" ~> JStr id; "actor" ~> actor user; "verb" ~> JObj ["id" ~> JStr verb; "display" ~> JObj ["en" ~> JStr display]];
         "object" ~> JObj ("objectType" ~> JStr "Activity" :: object_)] ++ result ++
        ["context" ~> JObj
           ["registration" ~> JStr registration_id;
            "contextActivities" ~> JObj ["category" ~> JList (category <$> categories); "grouping" ~> JList [category publisher]];
            "extensions" ~> JObj extensions];
         "timestamp" ~> JStr (_stamp now)]).

(** ** moveOn *)

Definition au_satisfied (move_on : string) (s : au_state) : bool :=
  if bool_decide (is_Some (p_waived s)) then true
  else let done := p_completed s in let passed := p_passed s in
       if String.eqb move_on "NotApplicable" then true
       else if String.eqb move_on "Passed" then passed
       else if String.eqb move_on "Completed" then done
       else if String.eqb move_on "CompletedAndPassed" then done && passed
       else if String.eqb move_on "CompletedOrPassed" then done || passed else false.
Definition state_of (aus : gmap nat au_state) (i : nat) : au_state := default no_state (aus !! i).
Definition unit_satisfied (cs : CourseStructure) (aus : gmap nat au_state) (i : nat) : bool :=
  match c_aus cs !! i with Some au => au_satisfied (au_move_on au) (state_of aus i) | None => false end.

Definition TYPE_BLOCK : string := "https://w3id.org/xapi/cmi5/activitytype/block".
Definition TYPE_COURSE : string := "https://w3id.org/xapi/cmi5/activitytype/course".
Definition _satisfied_statement (r : registration) (runtime publisher type sid : string) (now : Z) : json :=
  lms_statement (lms_statement_id mac [r_id r; "satisfied"%string; runtime]) (r_user r) SATISFIED "satisfied" []
    ["id" ~> JStr runtime; "definition" ~> JObj ["type" ~> JStr type]] (r_id r) [CAT_CMI5] publisher [(EXT_SESSION, JStr sid)] now.
(** A statement the LRS does not take is not recorded; only [put_statement]'s own errors are raised here. *)
Definition _send_satisfied (stmt : json) (l : lrs) : bool * lrs :=
  match put_statement stmt (St (Db ∅ [] [] []) l) with (Ok _, s) => (true, t_lrs s) | (Err _, s) => (false, t_lrs s) end.

Definition block_key (i : nat) : string := "block:" +:+ pretty i.
(** What the walk carries: the keys satisfied so far, those newly so, and the LRS. *)
Record walk_state := Walk { k_done : list string; k_newly : list string; k_lrs : lrs }.
Definition record_key (key : string) (stmt : json) (w : walk_state) : walk_state :=
  if bool_decide (key ∈ k_done w) then w
  else let (sent, l) := _send_satisfied stmt (k_lrs w) in
       if sent then Walk (k_done w ++ [key]) (k_newly w ++ [key]) l else Walk (k_done w) (k_newly w) l.

Section Evaluate.
Context (cs : CourseStructure) (aus : gmap nat au_state) (r : registration) (sid : string) (now : Z).

(** [all(node_ok(k, i) for k, i in children)] stops at the first child that is not. *)
Fixpoint all_ok (node_ok : child -> walk_state -> bool * walk_state) (l : list child) (w : walk_state) : bool * walk_state :=
  match l with
  | [] => (true, w)
  | ch :: l' => let (ok, w) := node_ok ch w in if ok then all_ok node_ok l' w else (false, w)
  end.
Definition block_statement (i : nat) (b : Block) : json :=
  _satisfied_statement r (block_runtime_id iri_base (r_release r) i) (b_publisher_id b) TYPE_BLOCK sid now.
Definition course_statement : json :=
  _satisfied_statement r (course_runtime_id iri_base (r_release r)) (c_publisher_id cs) TYPE_COURSE sid now.
Fixpoint node_ok (fuel : nat) (ch : child) (w : walk_state) : bool * walk_state :=
  match ch with
  | CAu i => (unit_satisfied cs aus i, w)
  | CBlock i =>
      match fuel, c_blocks cs !! i with
      | S fuel', Some b =>
          let (ok, w) := all_ok (node_ok fuel') (b_children b) w in
          (ok, if ok then record_key (block_key i) (block_statement i b) w else w)
      | _, _ => (false, w)
      end
  end.
(** [all([...])]: every child, even after one that is not. *)
Fixpoint each_ok (fuel : nat) (l : list child) (w : walk_state) : bool * walk_state :=
  match l with
  | [] => (true, w)
  | ch :: l' => let (ok, w) := node_ok fuel ch w in let (rest, w) := each_ok fuel l' w in (ok && rest, w)
  end.
(** Blocks nest no deeper than there are blocks. *)
Definition evaluate_walk (satisfied : list string) (l : lrs) : walk_state :=
  let (ok, w) := each_ok (length (c_blocks cs)) (c_children cs) (Walk (fromkeys satisfied) [] l) in
  if ok then record_key "course" course_statement w else w.
End Evaluate.

Definition with_progress (p : progress) (r : registration) : registration := Reg (r_id r) (r_user r) (r_release r) p.
(** The registration object is written back whole when the session is flushed. *)
Definition put_reg (r : registration) (d : db) : db := Db (<[r_id r := r]> (d_regs d)) (d_sessions d) (d_grades d) (d_results d).
Definition _save (r : registration) : M unit := on_db (put_reg r).
Definition get_package (release_id : string) : M CourseStructure :=
  match package release_id with Some cs => ret cs | None => raise_ ContentError end.
Definition evaluate (r : registration) (sid : string) (now : Z) : M (list string * registration) :=
  cs <- get_package (r_release r) ;;
  fun s =>
    let p := r_progress r in
    let w := evaluate_walk cs (p_aus p) r sid now (p_satisfied p) (t_lrs s) in
    let r' := with_progress (Progress (p_aus p) (py_sorted string_leb (k_done w))) r in
    (_ <- _save r' ;; ret (k_newly w, r')) (St (t_db s) (k_lrs w)).

(** ** Registrations and launches *)

Definition enrolment_for (o : platform) (user_id : string) (rel : release) : M enrolment :=
  match List.find (fun e => String.eqb (e_user e) user_id && String.eqb (e_course e) (rel_course rel)) (o_enrolments o) with
  | None => raise_ (Cmi5Error 403)
  | Some e => _ <- need (bool_decide (o_pinned o (e_id e) = Some (rel_id rel))) (Cmi5Error 409) ;; ret e
  end.

Definition empty_progress : progress := Progress ∅ [].
Definition registration_of (e : enrolment) (rel : release) (sid : string) (now : Z) : M registration :=
  d <- get_db ;;
  match d_regs d !! e_id e with
  | Some r => if String.eqb (r_user r) (e_user e)
              then _ <- need (String.eqb (r_release r) (rel_id rel)) (Cmi5Error 409) ;; ret r
              else raise_ (Refused Crash)
  | None =>
      let r := Reg (e_id e) (e_user e) (rel_id rel) empty_progress in
      _ <- _save r ;; x <- evaluate r sid now ;; ret x.2
  end.

Definition is_open (x : session) : bool := bool_decide (s_state x ∈ OPEN_STATES).
Definition with_state (state : sstate) (ended : Z) (x : session) : session :=
  Session (s_id x) (s_reg x) (s_user x) (s_au x) (s_mode x) (s_move_on x) (s_mastery x) (s_template x) (s_fetch_hash x)
    (s_fetched_at x) (s_token_hash x) state (s_sent x) (s_launch_data x) (s_prefs x) (s_launched_at x) (s_initialized_at x)
    (Some ended) (s_expires_at x).
(** An UPDATE of the row with the id. *)
Definition set_session (id : string) (f : session -> session) (d : db) : db :=
  Db (d_regs d) ((fun x => if String.eqb (s_id x) id then f x else x) <$> d_sessions d) (d_grades d) (d_results d).

Definition abandoned_statement (rel : release) (x : session) (publisher : string) (now : Z) : json :=
  lms_statement (lms_statement_id mac [s_id x; "abandoned"%string]) (s_user x) ABANDONED "abandoned"
    ["result" ~> JObj ["duration" ~> JStr (iso_duration (now - default (s_launched_at x) (s_initialized_at x)))]]
    ["id" ~> JStr (au_runtime_id iri_base (rel_id rel) (s_au x))] (s_reg x) [CAT_CMI5] publisher [(EXT_SESSION, JStr (s_id x))] now.
Definition publisher_of (cs : CourseStructure) (i : nat) : string :=
  match c_aus cs !! i with Some au => au_publisher_id au | None => "" end.
(** [x] is the row as it was read. *)
Definition abandon (x : session) (rel : release) (now : Z) : M unit :=
  if is_open x then
    cs <- get_package (rel_id rel) ;;
    _ <- put_statement (abandoned_statement rel x (publisher_of cs (s_au x)) now) ;;
    on_db (set_session (s_id x) (with_state Abandoned now))
  else ret tt.
Fixpoint abandon_all (l : list session) (rel : release) (now : Z) : M unit :=
  match l with [] => ret tt | x :: l' => _ <- abandon x rel now ;; abandon_all l' rel now end.

Definition LAUNCH_MODES : list string := ["Normal"; "Browse"; "Review"]%string.
Definition EXT_LAUNCHMODE : string := EXT +:+ "launchmode".
Definition EXT_LAUNCHURL : string := EXT +:+ "launchurl".
Definition EXT_MOVEON : string := EXT +:+ "moveon".
Definition EXT_LAUNCHPARAMS : string := EXT +:+ "launchparameters".
Definition opt_key {A} (k : string) (f : A -> json) (v : option A) : list (string * json) :=
  match v with Some x => [(k, f x)] | None => [] end.
(** A text that is there and not empty. *)
Definition nonempty_text (v : option string) : option string :=
  match v with Some t => if String.eqb t "" then None else Some t | None => None end.
Definition _context_template (au : AU) (sid : string) : list (string * json) := launch_template (au_publisher_id au) sid.
Definition launch_data (rel : release) (au : AU) (mode sid : string) : json :=
  JObj (["contextTemplate" ~> JObj (_context_template au sid); "launchMode" ~> JStr mode; "moveOn" ~> JStr (au_move_on au);
         "returnURL" ~> JStr (web_base +:+ "/au/releases/" +:+ rel_id rel)] ++
        opt_key "masteryScore" JFloat (au_mastery au) ++
        opt_key "launchParameters" JStr (nonempty_text (au_launch_parameters au)) ++
        opt_key "entitlementKey" (fun k => JObj ["courseStructure" ~> JStr k]) (nonempty_text (au_entitlement_key au))).
Definition launched_statement (rel : release) (user reg_id : string) (au : AU) (i : nat) (mode sid : string) (now : Z) : json :=
  lms_statement (lms_statement_id mac [sid; "launched"%string]) user LAUNCHED "launched" [] ["id" ~> JStr (au_runtime_id iri_base (rel_id rel) i)]
    reg_id [CAT_CMI5] (au_publisher_id au)
    ([(EXT_SESSION, JStr sid); (EXT_LAUNCHMODE, JStr mode); (EXT_LAUNCHURL, JStr (au_url web_base (rel_id rel) i)); (EXT_MOVEON, JStr (au_move_on au))] ++
     opt_key EXT_LAUNCHPARAMS JStr (nonempty_text (au_launch_parameters au)) ++ opt_key EXT_MASTERY JFloat (au_mastery au)) now.

Definition au_credential (o : platform) : M unit := need (o_credential o) (Cmi5Error 503).
Definition add_session (x : session) (d : db) : db := Db (d_regs d) (d_sessions d ++ [x]) (d_grades d) (d_results d).
(** [sid] and [secret] are fresh; [e1] and [e2] the ids the evaluations' statements carry. *)
Definition launch (o : platform) (now : Z) (user_id : string) (rel : release) (au_index : nat) (launch_mode : option string)
    (sid secret e1 e2 : string) : M session :=
  _ <- au_credential o ;;
  enrolled <- enrolment_for o user_id rel ;;
  cs <- get_package (rel_id rel) ;;
  match c_aus cs !! au_index with
  | None => raise_ (Cmi5Error 404)
  | Some au =>
      reg <- registration_of enrolled rel e1 now ;;
      x <- evaluate reg e2 now ;;
      let reg := x.2 in
      _ <- need match launch_mode with Some m => one_of m LAUNCH_MODES | None => true end (Cmi5Error 422) ;;
      let by_progress := if unit_satisfied cs (p_aus (r_progress reg)) au_index && negb (String.eqb (au_move_on au) "NotApplicable")
                         then "Review"%string else "Normal"%string in
      let mode := default by_progress (nonempty_text launch_mode) in
      d <- get_db ;;
      _ <- abandon_all (List.filter (fun x => String.eqb (s_reg x) (r_id reg) && is_open x) (d_sessions d)) rel now ;;
      let runtime := au_runtime_id iri_base (rel_id rel) au_index in
      _ <- put_document "activities/state"
             ["stateId" ~> JStr "LMS.LaunchData"; "activityId" ~> JStr runtime; "agent" ~> actor user_id; "registration" ~> JStr (r_id reg)]
             (launch_data rel au mode sid) ;;
      _ <- put_statement (launched_statement rel user_id (r_id reg) au au_index mode sid now) ;;
      let x := Session sid (r_id reg) user_id au_index mode (au_move_on au) (au_mastery au) (_context_template au sid) (sha256 secret)
                 None None Launched [] false false now None None (now + session_time) in
      _ <- on_db (add_session x) ;; ret x
  end.

Definition WAIVE_REASONS : list string := ["Tested Out"; "Equivalent AU"; "Equivalent Outside Activity"; "Administrative"]%string.
Definition EXT_REASON : string := "https://w3id.org/xapi/cmi5/result/extensions/reason".
Definition waived_statement (rel : release) (r : registration) (i : nat) (publisher reason sid : string) (now : Z) : json :=
  lms_statement (lms_statement_id mac [r_id r; "waived"%string; pretty i]) (r_user r) WAIVED "waived"
    ["result" ~> JObj ["success" ~> JBool true; "completion" ~> JBool true; "extensions" ~> JObj [(EXT_REASON, JStr reason)]]]
    ["id" ~> JStr (au_runtime_id iri_base (rel_id rel) i)] (r_id r) [CAT_CMI5; CAT_MOVEON] publisher [(EXT_SESSION, JStr sid)] now.
Definition with_waived (reason : string) (s : au_state) : au_state :=
  AuState (p_completed s) (p_passed s) (p_failed s) (Some reason) (p_score s).
(** [r] is the registration as it was read. *)
Definition waive (r : registration) (rel : release) (i : nat) (reason sid : string) (now : Z) : M (list string) :=
  _ <- need (one_of reason WAIVE_REASONS) (Cmi5Error 422) ;;
  cs <- get_package (rel_id rel) ;;
  _ <- need (bool_decide (i < length (c_aus cs))%nat) (Cmi5Error 404) ;;
  let state := state_of (p_aus (r_progress r)) i in
  _ <- need (negb (bool_decide (is_Some (p_waived state)))) (Cmi5Error 409) ;;
  _ <- put_statement (waived_statement rel r i (publisher_of cs i) reason sid now) ;;
  let r := with_progress (Progress (<[i := with_waived reason state]> (p_aus (r_progress r))) (p_satisfied (r_progress r))) r in
  _ <- _save r ;; x <- evaluate r sid now ;; ret x.1.

(** ** Fetching the token, and using it *)

Definition with_token (hash : string) (now : Z) (x : session) : session :=
  Session (s_id x) (s_reg x) (s_user x) (s_au x) (s_mode x) (s_move_on x) (s_mastery x) (s_template x) (s_fetch_hash x)
    (Some now) (Some hash) (s_state x) (s_sent x) (s_launch_data x) (s_prefs x) (s_launched_at x) (s_initialized_at x)
    (s_ended_at x) (s_expires_at x).
(** The body of the answer: a token, or an error code. *)
Inductive fetched := AuthToken (sid token : string) | ErrorCode (code : Z).
(** [token] is fresh. *)
Definition fetch (secret token : string) (now : Z) : M fetched :=
  d <- get_db ;;
  match List.find (fun x => String.eqb (s_fetch_hash x) (sha256 secret)) (d_sessions d) with
  | None => ret (ErrorCode 2)
  | Some x =>
      if bool_decide (is_Some (s_fetched_at x)) then ret (ErrorCode 1)
      else if negb (is_open x) || (s_launched_at x + fetch_time <? now) then ret (ErrorCode 1)
      else _ <- on_db (set_session (s_id x) (with_token (sha256 token) now)) ;; ret (AuthToken (s_id x) token)
  end.

(** The decoded bearer: a session id and its token. *)
Definition authenticate (bearer : option (string * string)) (now : Z) : M session :=
  match bearer with
  | None => raise_ (Cmi5Error 401)
  | Some (sid, token) =>
      d <- get_db ;;
      match List.find (fun x => String.eqb (s_id x) sid) (d_sessions d) with
      | None => raise_ (Cmi5Error 401)
      | Some x =>
          _ <- need (bool_decide (s_token_hash x = Some (sha256 token))) (Cmi5Error 401) ;;
          _ <- need (negb (bool_decide (s_state x = Abandoned))) (Cmi5Error 403) ;;
          _ <- need (negb (bool_decide (s_state x = Terminated))) (Cmi5Error 403) ;;
          _ <- need (now <=? s_expires_at x) (Cmi5Error 403) ;;
          ret x
      end
  end.

Definition _still_entitled (o : platform) (r : registration) (rel : release) : M unit :=
  match List.find (fun e => String.eqb (e_id e) (r_id r)) (o_enrolments o) with
  | None => raise_ (Cmi5Error 403)
  | Some e =>
      _ <- need (negb (e_withdrawn e)) (Cmi5Error 403) ;;
      _ <- need (bool_decide (o_pinned o (e_id e) = Some (rel_id rel))) (Cmi5Error 403) ;;
      match o_published o (rel_course rel) with
      | Some true => ret tt
      | Some false => need (o_author o (e_user e)) (Cmi5Error 403)
      | None => raise_ (Cmi5Error 403)
      end
  end.

(** ** A unit's request *)

(** The [agent] parameter: the JSON it reads as, or text that is none.  The other parameters are texts. *)
Inductive agent_text := AgentJson (agent : json) | AgentText (text : string).
Record au_request := AuRequest {
  a_method : string; a_resource : string; a_params : list (string * string); a_agent : option agent_text; a_body : body
}.
(** The parameters as they are forwarded. *)
Definition sent_params (q : au_request) : list (string * json) :=
  match a_agent q with
  | Some (AgentJson agent) => [("agent"%string, agent)] | Some (AgentText t) => [("agent"%string, JStr t)] | None => []
  end ++ ((fun kv : string * string => (kv.1, JStr kv.2)) <$> a_params q).
Definition _agent_param (q : au_request) (user : string) : M unit :=
  match a_agent q with
  | None => raise_ (Refused (refuse "11.0.0.0-1"))
  | Some (AgentText _) => raise_ (Refused (refuse "8.1.3.0-3"))
  | Some (AgentJson agent) =>
      same <- of_rules (same_actor agent (actor_account user)) ;; need same (Refused (forbid "8.1.3.0-3"))
  end.
Definition param_is (q : au_request) (k v : string) : bool :=
  match assoc k (a_params q) with Some t => String.eqb t v | None => false end.
Definition has_param (q : au_request) (k : string) : bool :=
  match assoc k (a_params q) with Some t => negb (String.eqb t "") | None => false end.

(** The latest mark since the launch. *)
Definition latest_leb (g h : grade) : bool := g_at h <=? g_at g.
Definition _graded (d : db) (x : session) (release_id : string) : option Q :=
  match py_sorted latest_leb (List.filter (fun g =>
      String.eqb (g_user g) (s_user x) && String.eqb (g_release g) release_id && Nat.eqb (g_au g) (s_au x) && (s_launched_at x <=? g_at g))
      (d_grades d)) with
  | g :: _ => Some (g_scaled g)
  | [] => None
  end.
Definition _view (x : session) (r : registration) (runtime : string) (graded : option Q) : SessionView :=
  let s := state_of (p_aus (r_progress r)) (s_au x) in
  View (actor_account (s_user x)) (r_id r) (s_id x) runtime (s_template x) (s_mode x) (s_mastery x)
    (negb (bool_decide (s_state x = Launched))) (bool_decide (s_state x = Terminated)) (s_prefs x) (s_sent x)
    (p_completed s) (p_passed s) [iri_base +:+ "/"; "http://truenorthrange.local/"]%string true graded.

Fixpoint drop_key (k : string) (l : list (string * json)) : list (string * json) :=
  match l with [] => [] | (k', v) :: l' => if String.eqb k k' then drop_key k l' else (k', v) :: drop_key k l' end.
Definition drop_server_set (j : json) : json :=
  match j with JObj l => JObj (drop_key "stored" (drop_key "authority" l)) | _ => j end.
(** Each statement against the rules, with the verbs accepted before it in the request. *)
Fixpoint check_all (view : SessionView) (statements : list json) (accepted : list string) : result refusal (list string) :=
  match statements with
  | [] => Ok accepted
  | s :: statements' =>
      v ← check s view accepted;
      check_all view statements' (accepted ++ match v with Some verb => [verb] | None => [] end)
  end.
Definition put_by_id (q : au_request) (statements : list json) : result refusal unit :=
  if String.eqb (a_method q) "PUT" then
    guard_or (Nat.eqb (length statements) 1) (refuse "4.1.0.0-1") (
    first ← or_dict (match statements with s :: _ => s | [] => JNull end);
    guard_or (match assoc "statementId" (a_params q) with Some t => is_str t (get "id" first) | None => is_none (get "id" first) end)
      (refuse "4.1.0.0-1") (Ok tt))
  else Ok tt.
Definition _check_statements (q : au_request) (view : SessionView) : result refusal (list string * json) :=
  match a_body q with
  | Text _ bad_number => Err (refuse (if bad_number then "TN-NUMBER" else "4.1.0.0-1"))
  | other =>
      let payload := match other with Payload j => j | _ => JNull end in
      let statements := match payload with JList l => l | _ => [payload] end in
      guard_or (negb (bool_decide (statements = []))) (refuse "4.1.0.0-1") (
      _ ← put_by_id q statements;
      accepted ← check_all view statements [];
      Ok (accepted, match payload with JList l => JList (drop_server_set <$> l) | _ => drop_server_set payload end))
  end.

(** ** What accepted statements change *)

Definition qmax (x y : Q) : Q := if Qle_bool x y then y else x.
Definition with_score (graded : Q) (s : au_state) : au_state :=
  AuState (p_completed s) (p_passed s) (p_failed s) (p_waived s)
    (Some match p_score s with Some best => qmax best graded | None => graded end).
Definition said (verb : string) (s : au_state) : au_state :=
  if String.eqb verb COMPLETED then AuState true (p_passed s) (p_failed s) (p_waived s) (p_score s)
  else if String.eqb verb PASSED then AuState (p_completed s) true (p_failed s) (p_waived s) (p_score s)
  else if String.eqb verb FAILED then AuState (p_completed s) (p_passed s) true (p_waived s) (p_score s) else s.
Definition with_said (state : sstate) (initialized_at ended_at : option Z) (sent : list string) (x : session) : session :=
  Session (s_id x) (s_reg x) (s_user x) (s_au x) (s_mode x) (s_move_on x) (s_mastery x) (s_template x) (s_fetch_hash x)
    (s_fetched_at x) (s_token_hash x) state sent (s_launch_data x) (s_prefs x) (s_launched_at x) initialized_at ended_at (s_expires_at x).
Definition hears (now : Z) (verb : string) (x : session) : session :=
  let sent := s_sent x ++ [verb] in
  if String.eqb verb INITIALIZED then with_said Initialized (Some now) (s_ended_at x) sent x
  else if String.eqb verb TERMINATED then with_said Terminated (s_initialized_at x) (Some now) sent x
  else with_said (s_state x) (s_initialized_at x) (s_ended_at x) sent x.
Definition session_after (now : Z) (accepted : list string) (x : session) : session := foldl (fun x verb => hears now verb x) x accepted.
Definition state_after (accepted : list string) (graded : option Q) (s : au_state) : au_state :=
  let scored := match graded with
                | Some g => if one_of PASSED accepted || one_of FAILED accepted then with_score g s else s
                | None => s
                end in
  foldl (fun s verb => said verb s) scored accepted.
Definition enqueue_result (r : registration) (i : nat) (s : au_state) (d : db) : db :=
  Db (d_regs d) (d_sessions d) (d_grades d) (d_results d ++ [Result (r_id r) (r_release r) i s]).
Definition _after_statements (x : session) (r : registration) (accepted : list string) (graded : option Q) (now : Z) : M unit :=
  let state := state_after accepted graded (state_of (p_aus (r_progress r)) (s_au x)) in
  let r := with_progress (Progress (<[s_au x := state]> (p_aus (r_progress r))) (p_satisfied (r_progress r))) r in
  _ <- on_db (set_session (s_id x) (session_after now accepted)) ;;
  _ <- _save r ;;
  _ <- (if one_of COMPLETED accepted || one_of PASSED accepted then _ <- evaluate r (s_id x) now ;; ret tt else ret tt) ;;
  if existsb (fun v => one_of v JUDGED) accepted then on_db (enqueue_result r (s_au x) state) else ret tt.

(** ** One request of a unit, checked, forwarded and recorded *)

Definition with_marks (launch_data prefs : bool) (x : session) : session :=
  Session (s_id x) (s_reg x) (s_user x) (s_au x) (s_mode x) (s_move_on x) (s_mastery x) (s_template x) (s_fetch_hash x)
    (s_fetched_at x) (s_token_hash x) (s_state x) (s_sent x) (s_launch_data x || launch_data) (s_prefs x || prefs)
    (s_launched_at x) (s_initialized_at x) (s_ended_at x) (s_expires_at x).
(** What the checks of a request come to: the verbs it says, the body to forward, what reading it marks. *)
Record allowed := Allowed { w_accepted : list string; w_body : body; w_launch_data : bool; w_prefs : bool }.
Definition plain (q : au_request) : allowed := Allowed [] (a_body q) false false.
Definition is_get (q : au_request) : bool := String.eqb (a_method q) "GET".
Definition allow (q : au_request) (x : session) (r : registration) (runtime : string) (graded : option Q) : M allowed :=
  let resource := rstrip_if is_slash (lstrip_if is_slash (a_resource q)) in
  if String.eqb resource "about" && is_get q then ret (plain q)
  else if String.eqb resource "statements" then
    _ <- need (one_of (a_method q) ["POST"; "PUT"]%string) (Cmi5Error 403) ;;
    c <- of_rules (_check_statements q (_view x r runtime graded)) ;;
    ret (Allowed c.1 (Payload c.2) false false)
  else if String.eqb resource "activities/state" then
    _ <- _agent_param q (s_user x) ;;
    _ <- need (param_is q "activityId" runtime) (Refused (forbid "10.1.0.0-3")) ;;
    _ <- need (param_is q "registration" (r_id r)) (Refused (forbid "8.1.4.0-3")) ;;
    _ <- need (has_param q "stateId" || is_get q) (Cmi5Error 403) ;;
    if param_is q "stateId" "LMS.LaunchData" then
      _ <- need (is_get q) (Refused (forbid "10.2.1.0-5")) ;; ret (Allowed [] (a_body q) true false)
    else ret (plain q)
  else if String.eqb resource "agents/profile" then
    _ <- _agent_param q (s_user x) ;;
    _ <- need (is_get q) (Cmi5Error 403) ;;
    ret (Allowed [] (a_body q) false (param_is q "profileId" "cmi5LearnerPreferences"))
  else if String.eqb resource "agents" && is_get q then
    _ <- _agent_param q (s_user x) ;; ret (plain q)
  else if one_of resource ["activities"; "activities/profile"]%string then
    _ <- need (param_is q "activityId" runtime) (Refused (forbid "10.1.0.0-3")) ;;
    _ <- need (is_get q) (Cmi5Error 403) ;; ret (plain q)
  else raise_ (Cmi5Error 404).

Definition proxy (o : platform) (x : session) (q : au_request) (rel : release) (now : Z) : M Z :=
  d <- get_db ;;
  match d_regs d !! s_reg x with
  | None => raise_ (Refused Crash)
  | Some r =>
      _ <- _still_entitled o r rel ;;
      let graded := if String.eqb (rstrip_if is_slash (lstrip_if is_slash (a_resource q))) "statements" then _graded d x (rel_id rel) else None in
      a <- allow q x r (au_runtime_id iri_base (rel_id rel) (s_au x)) graded ;;
      _ <- au_credential o ;;
      resp <- _lrs true (a_method q) (rstrip_if is_slash (lstrip_if is_slash (a_resource q))) (sent_params q) (w_body a) ;;
      _ <- (if success resp.1 then
              _ <- on_db (set_session (s_id x) (with_marks (w_launch_data a) false)) ;;
              if bool_decide (w_accepted a = []) then ret tt else _after_statements x r (w_accepted a) graded now
            else ret tt) ;;
      _ <- (if w_prefs a && ((resp.1 =? 200) || (resp.1 =? 404))
            then on_db (set_session (s_id x) (with_marks false true)) else ret tt) ;;
      ret resp.1
  end.

(** ** The routes: what is committed *)

(** An error after which what was done is committed, and one after which it is rolled back; the LRS keeps it all. *)
Definition commit {A} (m : M A) (s : st) : st := (m s).2.
Definition commit_ok {A} (m : M A) (s : st) : st :=
  match m s with (Ok _, s') => s' | (Err _, s') => St (t_db s) (t_lrs s') end.
(** The release of a session's registration; releases are immutable. *)
Definition release_of (courses : string -> string) (r : registration) : release := Release (r_release r) (courses (r_release r)).
Definition au_request_route (o : platform) (courses : string -> string) (bearer : option (string * string)) (q : au_request) (now : Z) : M Z :=
  x <- authenticate bearer now ;;
  d <- get_db ;;
  match d_regs d !! s_reg x with
  | Some r => proxy o x q (release_of courses r) now
  | None => raise_ (Refused Crash)
  end.

(** ** Marking a quiz *)

Definition upper_char (c : ascii) : ascii :=
  let n := nat_of_ascii c in if ((97 <=? n) && (n <=? 122))%nat then ascii_of_nat (n - 32) else c.
Fixpoint upper (s : string) : string :=
  match s with EmptyString => EmptyString | String c s' => String (upper_char c) (upper s') end.
Definition answered_right (answers : list (string * string)) (question : string * string) : bool :=
  String.eqb (upper (strip (default "" (assoc question.1 answers)))) (upper question.2).
Definition mark (questions answers : list (string * string)) : Q :=
  round_div (10000 * Z.of_nat (length (List.filter (answered_right answers) questions))) (Z.of_nat (length questions)) # 10000.
Definition HOURS_24 : Z := 24 * 3600 * SECOND.
Definition used_attempts (d : db) (user rel : string) (i : nat) (now : Z) : nat :=
  length (List.filter (fun g => String.eqb (g_user g) user && String.eqb (g_release g) rel && Nat.eqb (g_au g) i && (now - HOURS_24 <=? g_at g)) (d_grades d)).
(** [now] is read before the enrolment's row is locked. *)
Definition grade_quiz (o : platform) (user : string) (rel : release) (i : nat) (answers : list (string * string)) (now : Z) : M Q :=
  _ <- (if o_author o user then ret tt
        else e <- enrolment_for o user rel ;;
             d <- get_db ;;
             need (negb (Nat.leb (Nat.max attempts 1) (used_attempts d user (rel_id rel) i now))) (Cmi5Error 429)) ;;
  cs <- get_package (rel_id rel) ;;
  _ <- need (bool_decide (i < length (c_aus cs))%nat) (Cmi5Error 404) ;;
  match quiz (rel_id rel) i with
  | Some ((_ :: _) as questions) =>
      let scaled := mark questions answers in
      _ <- on_db (fun d => Db (d_regs d) (d_sessions d) (d_grades d ++ [Grade user (rel_id rel) i scaled now]) (d_results d)) ;;
      ret scaled
  | _ => raise_ (Cmi5Error 404)
  end.

(** ** Reasoning about computations *)

(** From a database in [P], [m] returns in [Q] or raises in [E], whatever the LRS answers. *)
Definition spec {A} (P : db -> Prop) (m : M A) (Q : A -> db -> Prop) (E : db -> Prop) : Prop :=
  forall s, P (t_db s) -> match m s with (Ok a, s') => Q a (t_db s') | (Err _, s') => E (t_db s') end.

Lemma spec_bind {A B} P (m : M A) (f : A -> M B) R Q E :
  spec P m R E -> (forall a, spec (R a) (f a) Q E) -> spec P (bind m f) Q E.
Proof.
  intros Hm Hf s Hs. specialize (Hm s Hs). unfold bind. destruct (m s) as [[a|e] s']; [by apply (Hf a)|done].
Qed.
Lemma spec_ret {A} (P : db -> Prop) (a : A) (Q : A -> db -> Prop) E : (forall d, P d -> Q a d) -> spec P (ret a) Q E.
Proof. intros H s Hs. by apply H. Qed.
Lemma spec_raise {A} (P : db -> Prop) e (Q : A -> db -> Prop) (E : db -> Prop) : (forall d, P d -> E d) -> spec P (raise_ e) Q E.
Proof. intros H s Hs. by apply H. Qed.
Lemma spec_need (P : db -> Prop) b e (Q : unit -> db -> Prop) (E : db -> Prop) :
  (b = true -> forall d, P d -> Q tt d) -> (forall d, P d -> E d) -> spec P (need b e) Q E.
Proof. intros H He. destruct b; [by apply spec_ret, H|by apply spec_raise]. Qed.
Lemma spec_get_db (P : db -> Prop) (Q : db -> db -> Prop) E : (forall d, P d -> Q d d) -> spec P get_db Q E.
Proof. intros H s Hs. by apply H. Qed.
Lemma spec_on_db (P : db -> Prop) f (Q : unit -> db -> Prop) E : (forall d, P d -> Q tt (f d)) -> spec P (on_db f) Q E.
Proof. intros H s Hs. by apply H. Qed.
Lemma spec_weaken {A} (P P' : db -> Prop) (m : M A) (Q Q' : A -> db -> Prop) (E E' : db -> Prop) :
  spec P m Q E -> (forall d, P' d -> P d) -> (forall a d, Q a d -> Q' a d) -> (forall d, E d -> E' d) -> spec P' m Q' E'.
Proof.
  intros H HP HQ HE s Hs. specialize (H s (HP _ Hs)). destruct (m s) as [[a|e] s']; [by apply HQ|by apply HE].
Qed.

(** A computation that leaves the database as it is. *)
Definition quiet {A} (m : M A) : Prop := forall s, t_db (m s).2 = t_db s.
Lemma quiet_bind {A B} (m : M A) (f : A -> M B) : quiet m -> (forall a, quiet (f a)) -> quiet (bind m f).
Proof.
  intros Hm Hf s. unfold bind. specialize (Hm s). destruct (m s) as [[a|e] s']; [|done]. by rewrite (Hf a).
Qed.
Lemma quiet_ret {A} (a : A) : quiet (ret a). Proof. by intros s. Qed.
Lemma quiet_raise {A} e : quiet (raise_ (A := A) e). Proof. by intros s. Qed.
Lemma quiet_need b e : quiet (need b e). Proof. destruct b; by intros s. Qed.
Lemma quiet_get_db : quiet get_db. Proof. by intros s. Qed.
Lemma quiet_rules {A} (r : result refusal A) : quiet (of_rules r). Proof. destruct r; by intros s. Qed.
Lemma quiet_lrs au m0 r p b : quiet (_lrs au m0 r p b).
Proof. intros s. unfold _lrs. by destruct (l_answers (t_lrs s)) as [|[|status stored] rest]. Qed.
Create HintDb quiet discriminated.
Hint Resolve quiet_ret quiet_raise quiet_need quiet_get_db quiet_rules quiet_lrs : quiet.
Ltac quiet := repeat first [solve [eauto with quiet] | apply quiet_bind; [|intros ?] | case_match].
Lemma quiet_put stmt : quiet (put_statement stmt). Proof. unfold put_statement. quiet. Qed.
Lemma quiet_document resource params doc : quiet (put_document resource params doc). Proof. unfold put_document. quiet. Qed.
Lemma quiet_package rel : quiet (get_package rel). Proof. unfold get_package. quiet. Qed.
Lemma quiet_credential o : quiet (au_credential o). Proof. unfold au_credential. quiet. Qed.
Lemma quiet_enrolment o u rel : quiet (enrolment_for o u rel). Proof. unfold enrolment_for. quiet. Qed.
Lemma quiet_entitled o r rel : quiet (_still_entitled o r rel). Proof. unfold _still_entitled. quiet. Qed.
Lemma quiet_agent q u : quiet (_agent_param q u). Proof. unfold _agent_param. quiet. Qed.
Hint Resolve quiet_put quiet_document quiet_package quiet_credential quiet_enrolment quiet_entitled quiet_agent : quiet.
Lemma quiet_allow q x r runtime g : quiet (allow q x r runtime g). Proof. unfold allow. quiet. Qed.
Lemma quiet_authenticate bearer now : quiet (authenticate bearer now). Proof. unfold authenticate. quiet. Qed.
Hint Resolve quiet_allow quiet_authenticate : quiet.
Lemma spec_quiet {A} (P : db -> Prop) (m : M A) : quiet m -> spec P m (fun _ => P) P.
Proof. intros Hm s Hs. specialize (Hm s). destruct (m s) as [[a|e] s']; cbn in *; by rewrite Hm. Qed.
End Lms.
