(* ===== verification/Cmi5MoveOn.v ===== *)
(** * moveOn: which blocks, and whether the course, are satisfied

    The walk of [evaluate] (Cmi5Lms.v) against what satisfied means: a unit by its moveOn, a block or the course
    when every child is.  Over a structure as it is parsed ([wf_structure]). *)

From S2P Require Import Prelude PyText Cmi5Structure Cmi5Rules Cmi5Ids Cmi5Lms.
From Stdlib Require Import QArith.

Local Open Scope Z_scope.

Section MoveOn.
Context {cfg : Config} (cs : CourseStructure) (aus : gmap nat au_state) (r : registration) (sid : string) (now : Z).
Context (Hwf : wf_structure cs).

(** ** What satisfied means *)

Inductive sat : child -> Prop :=
| sat_au i : unit_satisfied cs aus i = true -> sat (CAu i)
| sat_block i b : c_blocks cs !! i = Some b -> Forall sat (b_children b) -> sat (CBlock i).
Definition course_sat : Prop := Forall sat (c_children cs).

(** A block in the part of the tree under a child. *)
Inductive under : child -> nat -> Prop :=
| under_self i b : c_blocks cs !! i = Some b -> under (CBlock i) i
| under_child i b ch k : c_blocks cs !! i = Some b -> ch ∈ b_children b -> under ch k -> under (CBlock i) k.
(** A block the walk from a child looks at: in each block on the way, the children before are satisfied. *)
Inductive visited : child -> nat -> Prop :=
| visited_self i b : c_blocks cs !! i = Some b -> visited (CBlock i) i
| visited_child i b before ch after k : c_blocks cs !! i = Some b -> b_children b = before ++ ch :: after ->
    Forall sat before -> visited ch k -> visited (CBlock i) k.
(** Below a satisfied child everything is satisfied, and looked at. *)
Lemma under_visited ch k : under ch k -> sat ch -> visited ch k /\ sat (CBlock k).
Proof.
  induction 1 as [i b Hb|i b ch k Hb Hch _ IH]; intros Hs; [split; [by econstructor|done]|].
  inversion Hs as [|? b' Hb' Hall]; subst. simplify_eq. apply list_elem_of_split in Hch as (before & after & He).
  pose proof Hall as H. rewrite He in H. apply Forall_app in H as [H1 [H2 _]%Forall_cons]. destruct (IH H2) as [Hv Hk].
  split; [|done]. by eapply visited_child.
Qed.

(** Enough fuel for a child: the blocks from it on. *)
Definition enough (fuel : nat) (ch : child) : Prop :=
  match ch with CAu _ => True | CBlock i => (i < length (c_blocks cs))%nat /\ (length (c_blocks cs) - i <= fuel)%nat end.
Lemma enough_children fuel i b : c_blocks cs !! i = Some b -> enough (S fuel) (CBlock i) -> Forall (enough fuel) (b_children b).
Proof.
  intros Hb [_ Hf]. apply Forall_forall. intros ch Hch. pose proof (wf_block_children _ _ _ _ Hwf Hb Hch) as Hlt.
  destruct ch as [k|k]; [done|]. cbn. lia.
Qed.
Lemma enough_top : Forall (enough (length (c_blocks cs))) (c_children cs).
Proof.
  apply Forall_forall. intros ch Hch. assert (Hin : ch ∈ c_children cs ++ concat (b_children <$> c_blocks cs)) by set_solver.
  pose proof (wf_child_bounds _ _ Hwf Hin) as Hlt. destruct ch; [done|]. cbn. lia.
Qed.

(** ** The walk's answer is whether the child is satisfied *)

Lemma all_ok_sat f l w :
  Forall (fun ch => forall w, (f ch w).1 = true <-> sat ch) l -> (all_ok f l w).1 = true <-> Forall sat l.
Proof.
  intros Hl. revert w; induction Hl as [|ch l Hch _ IH]; intros w; cbn [all_ok]; [by split|].
  specialize (Hch w). destruct (f ch w) as [ok w1]. cbn in Hch. rewrite Forall_cons, <- Hch. destruct ok.
  - rewrite IH. tauto.
  - cbn. naive_solver.
Qed.

Lemma node_ok_sat fuel : forall ch w, enough fuel ch -> (node_ok cs aus r sid now fuel ch w).1 = true <-> sat ch.
Proof.
  induction fuel as [|fuel IH]; intros [i|i] w He; cbn [node_ok].
  1, 3: split; [intros H; by constructor|by inversion 1].
  - destruct He. lia.
  - pose proof He as [Hi _]. apply lookup_lt_is_Some in Hi as [b Hb]. rewrite Hb.
    assert (Hall : (all_ok (node_ok cs aus r sid now fuel) (b_children b) w).1 = true <-> Forall sat (b_children b)).
    { apply all_ok_sat. eapply Forall_impl; [by eapply enough_children|]. intros ch Hch w'. by apply IH. }
    destruct (all_ok _ _ w) as [ok w1]. cbn in *. rewrite Hall. split; [intros H; by econstructor|].
    inversion 1; subst. by simplify_eq.
Qed.

(** ** What the walk records *)

(** A request of the LMS about the statement, by its id. *)
Definition about_statement (stmt : json) (q : request) : Prop :=
  q_from_au q = false /\ q_resource q = "statements"%string /\ q_params q = [("statementId"%string, get "id" stmt)].
(** The LRS holds the statement: it took the PUT, or it refused the PUT as a conflict and then answered the stored
    statement of that id, which says the same. *)
Definition put_in (rs : list request) (stmt : json) : Prop :=
  exists q, q ∈ rs /\ about_statement stmt q /\ q_method q = "PUT"%string /\ q_body q = Payload stmt /\
    (success (q_status q) = true \/
     q_status q = 409 /\ exists g have, g ∈ rs /\ about_statement stmt g /\ q_method g = "GET"%string /\ q_status g = 200 /\
       q_stored g = Some have /\ same_statement have stmt = true).
Lemma put_in_mono rs rs' stmt : put_in rs stmt -> (forall q, q ∈ rs -> q ∈ rs') -> put_in rs' stmt.
Proof.
  intros (q & Hq & Ha & Hm & Hb & H) Hs. exists q. split; [by apply Hs|]. do 3 (split; [done|]).
  destruct H as [H|(H & g & have & Hg & H')]; [by left|]. right. split; [done|]. exists g, have. split; [by apply Hs|done].
Qed.

Lemma lrs_log au m res p b s : exists rs, l_log (t_lrs (_lrs au m res p b s).2) = l_log (t_lrs s) ++ rs /\
  match (_lrs au m res p b s).1 with Ok a => Request au m res p b a.1 a.2 ∈ rs | Err _ => True end.
Proof.
  unfold _lrs. destruct (l_answers (t_lrs s)) as [|[|status stored] rest]; cbn.
  - exists []. by rewrite app_nil_r.
  - exists []. by rewrite app_nil_r.
  - eexists. split; [done|]. set_solver.
Qed.

Lemma need_state b e s : (need b e s).2 = s /\ ((need b e s).1 = Ok tt <-> b = true).
Proof. destruct b; by split. Qed.

Lemma put_statement_log stmt s :
  exists rs, l_log (t_lrs (put_statement stmt s).2) = l_log (t_lrs s) ++ rs /\
    ((put_statement stmt s).1 = Ok tt -> put_in rs stmt).
Proof.
  unfold put_statement, bind. destruct (lrs_log false "PUT" "statements" [("statementId"%string, get "id" stmt)] (Payload stmt) s) as (rs & Hl & Hin).
  destruct (_lrs _ _ _ _ _ s) as [[[status stored]|e] s1]; cbn in *; [|by exists rs].
  destruct (Z.eqb_spec status 409) as [->|Hne].
  - destruct (lrs_log false "GET" "statements" [("statementId"%string, get "id" stmt)] NoBody s1) as (rs1 & Hl1 & Hin1).
    destruct (_lrs _ _ _ _ _ s1) as [[b|e] s2]; cbn in Hl1, Hin1.
    + exists (rs ++ rs1). match goal with |- context [need ?c ?e s2] => destruct (need_state c e s2) as [-> Hn] end.
      rewrite Hl1, Hl, app_assoc. split; [done|]. rewrite Hn. intros [H200 Hsame]%andb_true_iff.
      destruct b.2 as [have|] eqn:Eb; [|done]. eexists. split; [apply elem_of_app; by left|]. do 3 (split; [done|]). right. split; [done|].
      eexists _, have. split; [apply elem_of_app; by right|]. repeat split; [by apply Z.eqb_eq in H200|done..].
    + exists (rs ++ rs1). cbn. rewrite Hl1, Hl, app_assoc. by split.
  - exists rs. destruct (need_state (success status) (Cmi5Error 502) s1) as [-> Hn]. split; [done|]. rewrite Hn. intros Hs.
    eexists. split; [done|]. do 3 (split; [done|]). by left.
Qed.

Lemma send_log stmt l : exists rs, l_log (_send_satisfied stmt l).2 = l_log l ++ rs /\ ((_send_satisfied stmt l).1 = true -> put_in rs stmt).
Proof.
  unfold _send_satisfied. destruct (put_statement_log stmt (St (Db ∅ [] [] []) l)) as (rs & Hl & Hp).
  destruct (put_statement _ _) as [[[]|e] s']; cbn in *; exists rs; split; try done. intros _. by apply Hp.
Qed.

(** What a recorded key stands for. *)
Inductive stands_for : string -> json -> Prop :=
| stands_block i b : c_blocks cs !! i = Some b -> sat (CBlock i) -> stands_for (block_key i) (block_statement r sid now i b)
| stands_course : course_sat -> stands_for "course" (course_statement cs r sid now).
Definition extends (w w' : walk_state) : Prop :=
  exists ks rs, k_done w' = k_done w ++ ks /\ k_newly w' = k_newly w ++ ks /\ l_log (k_lrs w') = l_log (k_lrs w) ++ rs /\
    NoDup ks /\ forall k, k ∈ ks -> k ∉ k_done w /\ exists stmt, stands_for k stmt /\ put_in rs stmt.

Lemma extends_refl w : extends w w.
Proof. exists [], []. rewrite !app_nil_r. repeat split; [constructor|..]; by apply elem_of_nil in H. Qed.
Lemma extends_trans w1 w2 w3 : extends w1 w2 -> extends w2 w3 -> extends w1 w3.
Proof.
  intros (ks & rs & Hd & Hn & Hl & Hk & Hin) (ks' & rs' & Hd' & Hn' & Hl' & Hk' & Hin').
  exists (ks ++ ks'), (rs ++ rs'). rewrite Hd', Hn', Hl', Hd, Hn, Hl, <- !app_assoc. do 3 (split; [done|]). split.
  - apply NoDup_app. split; [done|]. split; [|done]. intros k H1 H2. destruct (Hin' _ H2) as [Hnot _]. rewrite Hd in Hnot. set_solver.
  - intros k [H|H]%elem_of_app.
    + destruct (Hin _ H) as (Hnot & stmt & Hs & Hp). split; [done|]. exists stmt. split; [done|]. eapply put_in_mono; [done|set_solver].
    + destruct (Hin' _ H) as (Hnot & stmt & Hs & Hp). rewrite Hd in Hnot. split; [set_solver|].
      exists stmt. split; [done|]. eapply put_in_mono; [done|set_solver].
Qed.
Lemma extends_record key stmt w : stands_for key stmt -> extends w (record_key key stmt w).
Proof.
  intros Hs. unfold record_key. case_bool_decide; [apply extends_refl|]. destruct (send_log stmt (k_lrs w)) as (rs & Hl & Hp).
  destruct (_send_satisfied stmt (k_lrs w)) as [[] l]; cbn in *.
  - exists [key], rs. do 3 (split; [done|]). split; [apply NoDup_singleton|].
    intros k ->%list_elem_of_singleton. split; [done|]. exists stmt. by split; [|apply Hp].
  - exists [], rs. rewrite !app_nil_r. do 3 (split; [done|]). split; [constructor|]. by intros k ?%elem_of_nil.
Qed.

Lemma all_ok_extends f l w : Forall (fun ch => forall w, extends w (f ch w).2) l -> extends w (all_ok f l w).2.
Proof.
  intros Hl. revert w; induction Hl as [|ch l Hch _ IH]; intros w; cbn [all_ok]; [apply extends_refl|].
  specialize (Hch w). destruct (f ch w) as [[] w1]; cbn in *; [|done]. by eapply extends_trans.
Qed.
Lemma node_ok_extends fuel : forall ch w, enough fuel ch -> extends w (node_ok cs aus r sid now fuel ch w).2.
Proof.
  induction fuel as [|fuel IH]; intros [i|i] w He; cbn [node_ok]; try apply extends_refl.
  pose proof He as [Hi _]. apply lookup_lt_is_Some in Hi as [b Hb]. rewrite Hb. pose proof (enough_children _ _ _ Hb He) as Hc.
  assert (Hx : extends w (all_ok (node_ok cs aus r sid now fuel) (b_children b) w).2).
  { apply all_ok_extends. eapply Forall_impl; [exact Hc|]. intros ch Hch w'. by apply IH. }
  assert (Hs : (all_ok (node_ok cs aus r sid now fuel) (b_children b) w).1 = true -> sat (CBlock i)).
  { intros H. econstructor; [done|]. apply all_ok_sat in H; [done|]. eapply Forall_impl; [exact Hc|].
    intros ch Hch w'. by apply node_ok_sat. }
  destruct (all_ok _ _ w) as [[] w1]; cbn in *; [|done]. eapply extends_trans; [done|]. apply extends_record. constructor; [done|by apply Hs].
Qed.
Lemma each_ok_extends fuel l w :
  Forall (enough fuel) l -> extends w (each_ok cs aus r sid now fuel l w).2 /\ ((each_ok cs aus r sid now fuel l w).1 = true <-> Forall sat l).
Proof.
  intros Hl. revert w; induction Hl as [|ch l Hch _ IH]; intros w; cbn [each_ok]; [split; [apply extends_refl|by split]|].
  pose proof (node_ok_extends fuel ch w Hch) as Hx. pose proof (node_ok_sat fuel ch w Hch) as Hs.
  destruct (node_ok _ _ _ _ _ fuel ch w) as [ok w1]. destruct (IH w1) as [Hx1 Hs1].
  destruct (each_ok _ _ _ _ _ fuel l w1) as [rest w2]. cbn in *. split; [by eapply extends_trans|].
  rewrite Forall_cons, <- Hs, <- Hs1. apply andb_true_iff.
Qed.
Lemma evaluate_walk_extends satisfied l : extends (Walk (fromkeys satisfied) [] l) (evaluate_walk cs aus r sid now satisfied l).
Proof.
  unfold evaluate_walk. destruct (each_ok_extends _ _ (Walk (fromkeys satisfied) [] l) enough_top) as [Hx Hs].
  destruct (each_ok _ _ _ _ _ _ _ _) as [[] w]; cbn in *; [|done]. eapply extends_trans; [done|].
  apply extends_record. constructor. by apply Hs.
Qed.

(** ** When the LRS takes what it is sent *)

Definition willing (n : nat) (l : lrs) : Prop := exists rest, l_answers l = replicate n (Answer 200 None) ++ rest.
Lemma send_willing n stmt l : willing (S n) l -> (_send_satisfied stmt l).1 = true /\ willing n (_send_satisfied stmt l).2.
Proof. intros [rest Hr]. unfold _send_satisfied, put_statement, bind, _lrs. cbn. rewrite Hr. cbn. split; [done|]. by exists rest. Qed.

Definition keys : list string := "course"%string :: (block_key <$> seq 0 (length (c_blocks cs))).
Definition ready (w : walk_state) : Prop :=
  NoDup (k_newly w) /\ k_newly w ⊆ keys /\ k_newly w ⊆ k_done w /\ willing (length keys - length (k_newly w)) (k_lrs w).
Lemma ready_record key stmt w : key ∈ keys -> ready w -> ready (record_key key stmt w) /\ key ∈ k_done (record_key key stmt w).
Proof.
  intros Hk (Hn & Hs & Hd & Hw). unfold record_key. case_bool_decide as Hin; [done|].
  assert (Hlt : (length (k_newly w) < length keys)%nat).
  { assert (Hle : (length (key :: k_newly w) <= length keys)%nat); [|change (S (length (k_newly w)) <= length keys)%nat in Hle; lia].
    apply submseteq_length, NoDup_submseteq; [constructor; [set_solver|done]|]. intros k. rewrite elem_of_cons. intros [->|H]; [done|by apply Hs]. }
  replace (length keys - length (k_newly w))%nat with (S (length keys - length (k_newly w) - 1)) in Hw by lia.
  destruct (send_willing _ stmt _ Hw) as [Hok Hw']. destruct (_send_satisfied stmt (k_lrs w)) as [ok l]. cbn in Hok, Hw'. subst ok.
  split; [|cbn; set_solver]. unfold ready. cbn [k_newly k_done k_lrs]. rewrite length_app. cbn [length].
  split; [apply NoDup_app; split; [done|]; split; [set_solver|apply NoDup_singleton]|]. split; [set_solver|]. split; [set_solver|].
  replace (length keys - (length (k_newly w) + 1))%nat with (length keys - length (k_newly w) - 1)%nat by lia. done.
Qed.
Lemma block_in_keys i b : c_blocks cs !! i = Some b -> block_key i ∈ keys.
Proof.
  intros Hb. unfold keys. apply elem_of_cons; right. apply list_elem_of_fmap. exists i. split; [done|].
  apply elem_of_seq. apply lookup_lt_Some in Hb. lia.
Qed.

(** The satisfied blocks the walk looks at from a child are among the keys done. *)
Definition done_under (w : walk_state) (ch : child) : Prop := forall k, visited ch k -> sat (CBlock k) -> block_key k ∈ k_done w.
Lemma done_extends w w' ch : extends w w' -> done_under w ch -> done_under w' ch.
Proof. intros (ks & rs & Hd & _) H k Hk Hs. rewrite Hd. apply elem_of_app. left. by apply H. Qed.

Lemma all_ok_done f l w :
  Forall (fun ch => forall w, ((f ch w).1 = true <-> sat ch) /\ extends w (f ch w).2 /\
    (ready w -> ready (f ch w).2 /\ done_under (f ch w).2 ch)) l ->
  extends w (all_ok f l w).2 /\
  (ready w -> ready (all_ok f l w).2 /\
    forall before ch after, l = before ++ ch :: after -> Forall sat before -> done_under (all_ok f l w).2 ch).
Proof.
  intros Hl. revert w; induction Hl as [|ch l Hch Hl IH]; intros w; cbn [all_ok].
  { split; [apply extends_refl|]. intros Hw. split; [done|]. by intros [] ? ? ?. }
  destruct (Hch w) as (Hs & Hx & Hr). destruct (f ch w) as [ok w1]; cbn in *.
  assert (Hw1 : extends w1 (if ok then all_ok f l w1 else (false, w1)).2) by (destruct ok; [apply IH|apply extends_refl]).
  split; [by destruct ok; cbn in *; [eapply extends_trans|]|]. intros Hw. destruct (Hr Hw) as [Hr1 Hd].
  split; [destruct ok; cbn; [by apply IH|done]|]. intros before ch' after He Hb. destruct before as [|b before].
  - injection He as <- <-. by eapply done_extends.
  - injection He as <- ->. apply Forall_cons in Hb as [Hb Hbs]. rewrite <- Hs in Hb. rewrite Hb in *. by eapply IH.
Qed.
Lemma done_record key stmt w ch : done_under w ch -> done_under (record_key key stmt w) ch.
Proof.
  intros H k Hk Hs. unfold record_key. case_bool_decide; [by apply H|]. specialize (H k Hk Hs).
  destruct (_send_satisfied _ _) as [[] l]; cbn; set_solver.
Qed.
Lemma node_ok_done fuel : forall ch w, enough fuel ch ->
  ready w -> ready (node_ok cs aus r sid now fuel ch w).2 /\ done_under (node_ok cs aus r sid now fuel ch w).2 ch.
Proof.
  induction fuel as [|fuel IH]; intros [i|i] w He Hw; pose proof (node_ok_sat _ _ w He) as Hsat; cbn [node_ok] in *.
  1, 3: by split; [|intros k Hk; inversion Hk].
  { destruct He. lia. }
  pose proof He as [Hi _]. apply lookup_lt_is_Some in Hi as [b Hb]. rewrite Hb in *. pose proof (enough_children _ _ _ Hb He) as Hc.
  destruct (all_ok_done (node_ok cs aus r sid now fuel) (b_children b) w) as [Hx Hr].
  { eapply Forall_impl; [exact Hc|]. intros ch Hch w'. split; [by apply node_ok_sat|]. split; [by apply node_ok_extends|by apply IH]. }
  destruct (Hr Hw) as [Hw1 Hd]. destruct (all_ok _ _ w) as [ok w1]; cbn in *.
  destruct (ready_record (block_key i) (block_statement r sid now i b) w1 (block_in_keys _ _ Hb) Hw1) as [Hw2 Hin].
  split; [by destruct ok|]. intros k Hk Hs. inversion Hk as [? ? ? |? b' before ch after ? Hb' Hch Hbs Hv]; subst.
  - apply Hsat in Hs. by rewrite Hs.
  - simplify_eq. pose proof (Hd _ _ _ Hch Hbs) as Hdu. destruct ok; [by apply (done_record _ _ _ _ Hdu)|by apply Hdu].
Qed.
Lemma each_ok_done fuel l w : Forall (enough fuel) l -> ready w ->
  ready (each_ok cs aus r sid now fuel l w).2 /\ Forall (done_under (each_ok cs aus r sid now fuel l w).2) l.
Proof.
  intros Hl. revert w; induction Hl as [|ch l Hch Hl IH]; intros w Hw; cbn [each_ok]; [by split|].
  destruct (node_ok_done fuel ch w Hch Hw) as [Hw1 Hd].
  destruct (node_ok _ _ _ _ _ fuel ch w) as [ok w1]. cbn in *. destruct (IH w1 Hw1) as [Hw2 Hd2].
  destruct (each_ok_extends fuel l w1 Hl) as [Hx _]. destruct (each_ok _ _ _ _ _ fuel l w1) as [rest w2]. cbn in *.
  split; [done|]. constructor; [|done]. by eapply done_extends.
Qed.

Lemma evaluate_walk_done satisfied l :
  willing (length keys) l ->
  let w := evaluate_walk cs aus r sid now satisfied l in
  Forall (done_under w) (c_children cs) /\ (course_sat -> "course"%string ∈ k_done w).
Proof.
  intros Hl w. subst w. unfold evaluate_walk. set (w0 := Walk (fromkeys satisfied) [] l).
  assert (Hw0 : ready w0) by (split; [apply NoDup_nil_2|split; [set_solver|split; [set_solver|exact Hl]]]).
  destruct (each_ok_done _ _ w0 enough_top Hw0) as [Hw Hd]. destruct (each_ok_extends _ _ w0 enough_top) as [_ Hs].
  destruct (each_ok _ _ _ _ _ _ _ w0) as [ok w]. cbn in *. fold course_sat in Hs. destruct ok.
  - destruct (ready_record "course" (course_statement cs r sid now) w) as [Hw' Hin]; [by apply elem_of_cons; left|done|].
    split; [|done]. eapply Forall_impl; [exact Hd|]. intros ch. apply done_record.
  - split; [done|]. intros Hc. by apply Hs in Hc.
Qed.

(** Every block is under a child of the course. *)
Lemma blocks_under i : (i < length (c_blocks cs))%nat -> exists ch, ch ∈ c_children cs /\ under ch i.
Proof.
  induction i as [i IH] using lt_wf_ind. intros Hi.
  assert (Hin : CBlock i ∈ c_children cs ++ concat (b_children <$> c_blocks cs)).
  { rewrite (wf_tree _ Hwf). apply elem_of_app; right. apply list_elem_of_fmap. exists i. split; [done|]. apply elem_of_seq. lia. }
  pose proof Hi as Hb. apply lookup_lt_is_Some in Hb as [b Hb]. apply elem_of_app in Hin as [Hin|Hin]; [exists (CBlock i); split; [done|by econstructor]|].
  apply list_elem_of_In, in_concat in Hin as (cl & Hcl & Hin). apply list_elem_of_In in Hcl; apply list_elem_of_In in Hin.
  apply list_elem_of_fmap in Hcl as (b' & -> & Hb'). apply list_elem_of_lookup in Hb' as [j Hj].
  destruct (wf_block_children _ _ _ _ Hwf Hj Hin) as [Hlt _]. destruct (IH j Hlt) as (ch & Hch & Hu); [by eapply lookup_lt_Some|].
  exists ch. split; [done|]. clear IH Hch. induction Hu as [j b'' Hb''|j b'' ch' k Hb'' Hch' _ IHu].
  - simplify_eq. eapply under_child; [done..|]. by econstructor.
  - eapply under_child; [done..|]. by apply IHu.
Qed.
End MoveOn.

(** ** The property *)

(** C32: [evaluate] records as satisfied only what is, once, and only with its statement in the LRS: what is newly
    recorded is a block or the course whose every unit meets its moveOn, was not recorded before, and had its
    [satisfied] statement taken, or stored already under the same id and saying the same; nothing recorded is
    forgotten, no unit's entry changes, and the registration is saved.  When the LRS takes what it is sent, every
    satisfied block is recorded that the walk looks at, where in each block on the way down every earlier child is
    satisfied (not every satisfied block of the course: [nested_block_missed] is one that is not); so every block
    below a satisfied child of the course is, and when the course is satisfied all blocks and the course are. *)
Theorem evaluate_records {cfg : Config} cs r sid now s :
  package (r_release r) = Some cs -> wf_structure cs ->
  let aus := p_aus (r_progress r) in
  exists newly r' s' rs, evaluate r sid now s = (Ok (newly, r'), s') /\
    d_regs (t_db s') = <[r_id r := r']> (d_regs (t_db s)) /\ l_log (t_lrs s') = l_log (t_lrs s) ++ rs /\
    p_aus (r_progress r') = aus /\ NoDup newly /\
    (forall k, k ∈ p_satisfied (r_progress r') <-> k ∈ p_satisfied (r_progress r) \/ k ∈ newly) /\
    (forall k, k ∈ newly -> k ∉ p_satisfied (r_progress r) /\ exists stmt, stands_for cs aus r sid now k stmt /\ put_in rs stmt) /\
    (willing (S (length (c_blocks cs))) (t_lrs s) ->
      (forall ch i, ch ∈ c_children cs -> visited cs aus ch i -> sat cs aus (CBlock i) -> block_key i ∈ p_satisfied (r_progress r')) /\
      (forall ch i, ch ∈ c_children cs -> sat cs aus ch -> under cs ch i -> block_key i ∈ p_satisfied (r_progress r')) /\
      (course_sat cs aus -> "course"%string ∈ p_satisfied (r_progress r') /\
         forall i, (i < length (c_blocks cs))%nat -> block_key i ∈ p_satisfied (r_progress r'))).
Proof.
  intros Hpkg Hwf aus. unfold evaluate, bind, get_package. rewrite Hpkg. cbn.
  destruct (evaluate_walk_extends cs aus r sid now Hwf (p_satisfied (r_progress r)) (t_lrs s)) as (ks & rs & Hd & Hn & Hl & Hnd & Hk).
  pose proof (evaluate_walk_done cs aus r sid now Hwf (p_satisfied (r_progress r)) (t_lrs s)) as Hdone.
  fold aus. set (w := evaluate_walk cs aus r sid now (p_satisfied (r_progress r)) (t_lrs s)) in *. cbn in Hd, Hn, Hl.
  assert (Hin : forall k, k ∈ py_sorted string_leb (k_done w) <-> k ∈ p_satisfied (r_progress r) \/ k ∈ k_newly w).
  { intros k. rewrite elem_of_py_sorted, Hd, Hn, elem_of_app, elem_of_fromkeys. done. }
  eexists (k_newly w), _, _, rs. split; [reflexivity|]. cbn. do 3 (split; [done|]). split; [by rewrite Hn|]. split; [exact Hin|]. split.
  - intros k Hkn. rewrite Hn in Hkn. destruct (Hk k Hkn) as [H1 H2]. cbn in H1. rewrite elem_of_fromkeys in H1. done.
  - intros Hw. destruct Hdone as [Hu Hc]. { unfold keys. rewrite length_cons, length_fmap, length_seq. exact Hw. }
    rewrite Forall_forall in Hu. setoid_rewrite elem_of_py_sorted.
    assert (Hunder : forall ch i, ch ∈ c_children cs -> sat cs aus ch -> under cs ch i -> block_key i ∈ k_done w).
    { intros ch i Hch Hs Hi. destruct (under_visited cs aus ch i Hi Hs) as [Hv Hb]. by apply (Hu ch). }
    split; [intros ch i Hch Hv Hs; by apply (Hu ch)|]. split; [exact Hunder|].
    intros Hsat. split; [by apply Hc|]. intros i Hi. destruct (blocks_under cs Hwf i Hi) as (ch & Hch & Hui).
    apply (Hunder ch); [done| |done]. unfold course_sat in Hsat. rewrite Forall_forall in Hsat. by apply Hsat.
Qed.

(** ** A demonstration, and a block that is missed *)

Definition demo_structure : option CourseStructure := match parse demo_course with Ok cs => Some cs | Err _ => None end.
Definition demo_config : Config :=
  {| sha256 s := "hash of " +:+ s; mac := demo_mac; home := "https://tn.example"; iri_base := "https://tn.example/xapi";
     web_base := "https://tn.example"; package _ := demo_structure; quiz _ _ := Some [("q1", "A"); ("q2", "b")]%string;
     session_time := 12 * 3600 * SECOND; fetch_time := 900 * SECOND; attempts := 3 |}.
Definition demo_reg (l : list (nat * au_state)) : registration := Reg "r1" "u1" "c1" (Progress (list_to_map l) []).
Definition passed_state : au_state := AuState false true false None None.
Definition demo_st : st := St (Db ∅ [] [] []) (Lrs (replicate 8 (Answer 200 None)) []).

Lemma evaluate_records_witness :
  exists cs newly r', package (Config := demo_config) "c1" = Some cs /\
    (evaluate (cfg := demo_config) (demo_reg [(0%nat, passed_state); (1%nat, AuState true false false None None); (2%nat, passed_state)]) "s1" 0 demo_st).1
      = Ok (newly, r') /\ "course"%string ∈ p_satisfied (r_progress r').
Proof.
  destruct demo_structure as [cs|] eqn:Ecs; [|by vm_compute in Ecs].
  assert (Hwf : wf_structure cs).
  { vm_compute in Ecs. injection Ecs as <-. split; cbn; try done.
    1: apply NoDup_Permutation; [..|set_solver].
    all: repeat constructor; cbn; try done; try (match goal with H : _ = Some _ |- _ => by injection H as <- end).
    all: (set_solver || lia). }
  destruct (evaluate_records (cfg := demo_config) cs
    (demo_reg [(0%nat, passed_state); (1%nat, AuState true false false None None); (2%nat, passed_state)]) "s1" 0 demo_st Ecs Hwf)
    as (newly & r' & s' & rs & He & _ & _ & _ & _ & _ & _ & Hw).
  exists cs, newly, r'. split; [exact Ecs|]. rewrite He. split; [done|].
  vm_compute in Ecs. injection Ecs as <-. destruct Hw as (_ & _ & Hc); [by exists (replicate 5 (Answer 200 None))|]. apply Hc.
  apply Forall_forall. intros ch Hch. cases_in Hch; subst.
  - by constructor.
  - econstructor; [reflexivity|]. repeat constructor. econstructor; [reflexivity|]. by repeat constructor.
Defined.

(** A block after an unsatisfied sibling of the same block is not looked at: here block 1's only unit is passed,
    and nothing is recorded, though the LRS takes everything. *)
Lemma nested_block_missed :
  exists cs, package (Config := demo_config) "c1" = Some cs /\
    sat cs (p_aus (r_progress (demo_reg [(2%nat, passed_state)]))) (CBlock 1) /\
    exists r', (evaluate (cfg := demo_config) (demo_reg [(2%nat, passed_state)]) "s1" 0 demo_st).1 = Ok ([], r') /\ p_satisfied (r_progress r') = [].
Proof.
  eexists. split; [vm_compute; reflexivity|]. split; [|eexists; vm_compute; split; reflexivity].
  econstructor; [reflexivity|]. repeat constructor.
Qed.
