(* ===== verification/Cmi5Runs.v ===== *)
(** * The cmi5 LMS at work: sessions in order, verdicts once, marks earned

    The operations of Cmi5Lms.v as steps, one transaction each: what they do under the registration's row lock.
    [waive] and the route that abandons a session take no lock; here each reads and writes in one step, and
    [waive_race] shows what an overlap does. *)

From S2P Require Import Prelude PyText Cmi5Structure Cmi5Rules Cmi5Ids Cmi5Lms Cmi5MoveOn.
From Stdlib Require Import QArith Qabs Lqa.

Local Open Scope Z_scope.

Section Runs.
Context {cfg : Config}.

(** ** A session's verbs *)

(** The cmi5-defined verbs of a session: initialized first, terminated last, each once, one judgement; and the
    state they put the session in. *)
Record legal (state : sstate) (sent : list string) : Prop := {
  lg_verbs : sent ⊆ AU_DEFINED;
  lg_once : NoDup sent;
  lg_judged : ~ (PASSED ∈ sent /\ FAILED ∈ sent);
  lg_first : sent = [] \/ exists l, sent = INITIALIZED :: l;
  lg_last : exists l, (sent = l \/ sent = l ++ [TERMINATED]) /\ TERMINATED ∉ l;
  lg_state : match state with
             | Launched => sent = []
             | Initialized => sent <> [] /\ TERMINATED ∉ sent
             | Terminated => TERMINATED ∈ sent
             | Abandoned => TERMINATED ∉ sent
             end
}.
Lemma legal_new : legal Launched [].
Proof. split; [set_solver|constructor|set_solver|by left|exists []; split; [by left|set_solver]|done]. Qed.
Lemma legal_open x : legal (s_state x) (s_sent x) -> is_open x = true -> TERMINATED ∉ s_sent x /\ (s_state x <> Launched -> s_sent x <> []).
Proof.
  intros Hl Ho. pose proof (lg_state _ _ Hl) as Hs. unfold is_open in Ho. reflect_bools. destruct (s_state x).
  - rewrite Hs. split; [set_solver|done].
  - naive_solver.
  - by cases_in Ho.
  - by cases_in Ho.
Qed.
Lemma legal_abandoned state sent : legal state sent -> TERMINATED ∉ sent -> legal Abandoned sent.
Proof. intros [] H. by split. Qed.

Lemma legal_hears now x verb :
  legal (s_state x) (s_sent x) -> s_state x <> Abandoned -> TERMINATED ∉ s_sent x -> verb ∈ AU_DEFINED -> verb ∉ s_sent x ->
  (verb = PASSED -> FAILED ∉ s_sent x) -> (verb = FAILED -> PASSED ∉ s_sent x) -> (s_sent x = [] -> verb = INITIALIZED) ->
  legal (s_state (hears now verb x)) (s_sent x ++ [verb]) /\ s_sent (hears now verb x) = s_sent x ++ [verb] /\ s_state (hears now verb x) <> Abandoned.
Proof.
  intros [Hv Ho Hj Hf _ Hs] Ha Ht Hin Hnot Hp Hq Hi.
  assert (Hsent : s_sent (hears now verb x) = s_sent x ++ [verb]) by (unfold hears; repeat case_match; done).
  assert (Hst : s_state (hears now verb x) = if String.eqb verb INITIALIZED then Initialized else if String.eqb verb TERMINATED then Terminated else s_state x)
    by (unfold hears; repeat case_match; done).
  split; [|split; [done|rewrite Hst; repeat case_match; congruence]]. rewrite Hst. split.
  - set_solver.
  - apply NoDup_app. split; [done|]. split; [set_solver|apply NoDup_singleton].
  - intros [H1 H2]. apply elem_of_app in H1 as [H1|H1%list_elem_of_singleton], H2 as [H2|H2%list_elem_of_singleton].
    + by apply Hj.
    + by apply Hq.
    + by apply Hp.
    + rewrite <- H1 in H2. by vm_compute in H2.
  - right. destruct Hf as [He|[l He]]; rewrite He; [rewrite (Hi He); by exists []|by exists (l ++ [verb])].
  - destruct (decide (verb = TERMINATED)) as [->|Hne]; [exists (s_sent x); split; [by right|done]|].
    exists (s_sent x ++ [verb]). split; [by left|]. set_solver.
  - destruct (String.eqb_spec verb INITIALIZED) as [->|Hni]; [split; [by destruct (s_sent x)|]|].
    { intros [H|H%list_elem_of_singleton]%elem_of_app; [done|]. by vm_compute in H. }
    destruct (String.eqb_spec verb TERMINATED) as [->|Hnt]; [set_solver|].
    destruct (s_state x); [|split; [by destruct (s_sent x)|set_solver]|set_solver|done]. by apply Hi in Hs.
Qed.

(** ** The invariant of the tables *)

Definition state_in (r : registration) (i : nat) : au_state := state_of (p_aus (r_progress r)) i.
(** A mark of the registration's unit, and no lower than the unit's mastery score but for the rules' tolerance. *)
Definition earned (d : db) (r : registration) (i : nat) : Prop :=
  exists g, g ∈ d_grades d /\ g_user g = r_user r /\ g_release g = r_release r /\ g_au g = i /\
    forall cs au m, package (r_release r) = Some cs -> c_aus cs !! i = Some au -> au_mastery au = Some m -> (m - (1 # 10000) <= g_scaled g)%Q.
(** A mark of the registration's unit, with this score. *)
Definition scored (d : db) (r : registration) (i : nat) (q : Q) : Prop :=
  exists g, g ∈ d_grades d /\ g_user g = r_user r /\ g_release g = r_release r /\ g_au g = i /\ g_scaled g = q.
(** A session's registration, and the unit it launched. *)
Definition placed (d : db) (x : session) (r : registration) : Prop :=
  d_regs d !! s_reg x = Some r /\ s_user x = r_user r /\
  exists cs au, package (r_release r) = Some cs /\ c_aus cs !! s_au x = Some au /\ s_mastery x = au_mastery au.

Record inv (d : db) : Prop := {
  iv_ids : NoDup (s_id <$> d_sessions d);
  iv_keys : forall k r, d_regs d !! k = Some r -> r_id r = k;
  iv_placed : forall x, x ∈ d_sessions d -> exists r, placed d x r;
  iv_legal : forall x, x ∈ d_sessions d -> legal (s_state x) (s_sent x);
  iv_recorded : forall x r, x ∈ d_sessions d -> d_regs d !! s_reg x = Some r ->
    (COMPLETED ∈ s_sent x -> p_completed (state_in r (s_au x)) = true) /\ (PASSED ∈ s_sent x -> p_passed (state_in r (s_au x)) = true);
  iv_once : forall x y verb, x ∈ d_sessions d -> y ∈ d_sessions d -> s_reg x = s_reg y -> s_au x = s_au y ->
    verb ∈ [COMPLETED; PASSED] -> verb ∈ s_sent x -> verb ∈ s_sent y -> x = y;
  iv_open : forall x y, x ∈ d_sessions d -> y ∈ d_sessions d -> s_reg x = s_reg y -> is_open x = true -> is_open y = true -> x = y;
  iv_earned : forall k r i, d_regs d !! k = Some r -> p_passed (state_in r i) = true -> earned d r i;
  iv_scored : forall k r i q, d_regs d !! k = Some r -> p_score (state_in r i) = Some q -> scored d r i q;
  iv_results : forall row q, row ∈ d_results d -> p_score (q_state row) = Some q ->
    exists r, d_regs d !! q_reg row = Some r /\ r_release r = q_release row /\ scored d r (q_au row) q
}.

Lemma tables_empty_inv : inv (Db ∅ [] [] []).
Proof. split; cbn; intros; try (by (set_solver || simplify_map_eq)). constructor. Qed.

(** Sessions with one id are one. *)
Lemma ids_unique d x y : inv d -> x ∈ d_sessions d -> y ∈ d_sessions d -> s_id x = s_id y -> x = y.
Proof.
  intros Hi Hx Hy He. apply list_elem_of_lookup in Hx as [i Hx], Hy as [j Hy].
  assert (i = j) as ->; [|congruence]. eapply NoDup_lookup; [exact (iv_ids _ Hi)|..]; rewrite list_lookup_fmap.
  - by rewrite Hx.
  - by rewrite Hy, He.
Qed.

(** ** Saving a registration *)

(** The same registration, with no verdict changed. *)
Definition same_verdicts (r r' : registration) : Prop :=
  r_id r' = r_id r /\ r_user r' = r_user r /\ r_release r' = r_release r /\
  forall i, p_completed (state_in r' i) = p_completed (state_in r i) /\ p_passed (state_in r' i) = p_passed (state_in r i) /\
    p_score (state_in r' i) = p_score (state_in r i).

Lemma placed_put d x r0 r r' :
  d_regs d !! r_id r = Some r -> same_verdicts r r' -> placed d x r0 -> exists r1, placed (put_reg r' d) x r1.
Proof.
  intros Hr (Hid & Hu & Hrel & _) (Hx & Hxu & Hau). destruct (decide (s_reg x = r_id r)) as [He|Hne].
  - rewrite He, Hr in Hx. injection Hx as <-. exists r'. unfold placed. cbn. rewrite He, Hid, lookup_insert_eq, Hu, Hrel. done.
  - exists r0. unfold placed. cbn. by rewrite Hid, lookup_insert_ne by done.
Qed.
Lemma inv_put d r r' : inv d -> d_regs d !! r_id r = Some r -> same_verdicts r r' -> inv (put_reg r' d).
Proof.
  intros Hi Hr Hs. pose proof Hs as (Hid & Hu & Hrel & Hv). destruct Hi as [H1 H2 H3 H4 H5 H6 H7 H8 H9 H10].
  assert (Hlook : forall k r0, d_regs (put_reg r' d) !! k = Some r0 -> (k = r_id r /\ r0 = r') \/ (k <> r_id r /\ d_regs d !! k = Some r0)).
  { intros k r0. cbn. rewrite Hid. destruct (decide (k = r_id r)) as [->|Hne].
    - rewrite lookup_insert_eq. intros [= <-]. by left.
    - rewrite lookup_insert_ne by done. by right. }
  split; try done.
  - intros k r0 [[-> ->]|[_ H]]%Hlook; [done|by apply H2].
  - intros x Hx. destruct (H3 x Hx) as [r0 Hp]. by eapply placed_put.
  - intros x r0 Hx [[Hk ->]|[_ H]]%Hlook; [|by apply H5]. destruct (Hv (s_au x)) as (-> & -> & _). apply (H5 x r Hx). by rewrite Hk.
  - intros k r0 i [[-> ->]|[_ H]]%Hlook Hp; [|by apply (H8 k)].
    destruct (Hv i) as (_ & He & _). rewrite He in Hp. destruct (H8 _ _ _ Hr Hp) as (g & Hg & Hgu & Hgr & Hga & Hm).
    exists g. rewrite Hu, Hrel. done.
  - intros k r0 i q [[-> ->]|[_ H]]%Hlook Hp; [|by apply (H9 k)].
    destruct (Hv i) as (_ & _ & He). rewrite He in Hp. unfold scored. rewrite Hu, Hrel. by apply (H9 (r_id r)).
  - intros row q Hrow Hp. destruct (H10 row q Hrow Hp) as (r0 & Hr0 & Hr0' & Hs0). destruct (decide (q_reg row = r_id r)) as [He|Hne].
    + rewrite He, Hr in Hr0. injection Hr0 as <-. exists r'. cbn. rewrite He, Hid, lookup_insert_eq, Hrel. unfold scored in *. by rewrite Hu, Hrel.
    + exists r0. cbn. by rewrite Hid, lookup_insert_ne.
Qed.
Lemma inv_new_reg d r : inv d -> d_regs d !! r_id r = None -> r_progress r = empty_progress -> inv (put_reg r d).
Proof.
  intros [H1 H2 H3 H4 H5 H6 H7 H8 H9 H10] Hn Hp. split; try done; cbn.
  - intros k r0. destruct (decide (k = r_id r)) as [->|Hne]; [rewrite lookup_insert_eq; by intros [= <-]|].
    rewrite lookup_insert_ne by done. apply H2.
  - intros x Hx. destruct (H3 x Hx) as [r0 (Ha & Hb)]. exists r0. split; [|done]. cbn. rewrite lookup_insert_ne; [done|congruence].
  - intros x r0 Hx Hl. apply H5; [done|]. destruct (H3 x Hx) as [r1 (Ha & _)]. rewrite lookup_insert_ne in Hl; [done|congruence].
  - intros k r0 i. destruct (decide (k = r_id r)) as [->|Hne].
    + rewrite lookup_insert_eq. intros [= <-]. unfold state_in. rewrite Hp. by cbn.
    + rewrite lookup_insert_ne by done. apply H8.
  - intros k r0 i q. destruct (decide (k = r_id r)) as [->|Hne].
    + rewrite lookup_insert_eq. intros [= <-]. unfold state_in. rewrite Hp. by cbn.
    + rewrite lookup_insert_ne by done. apply H9.
  - intros row q Hrow Hq. destruct (H10 row q Hrow Hq) as (r0 & Hr0 & Hb). exists r0. split; [|done]. rewrite lookup_insert_ne; [done|congruence].
Qed.
Lemma same_verdicts_satisfied r sat : same_verdicts r (with_progress (Progress (p_aus (r_progress r)) sat) r).
Proof. repeat split. Qed.
Lemma same_verdicts_waived r i reason :
  same_verdicts r (with_progress (Progress (<[i := with_waived reason (state_in r i)]> (p_aus (r_progress r))) (p_satisfied (r_progress r))) r).
Proof.
  split; [done|]. split; [done|]. split; [done|]. intros j. unfold state_in, state_of. cbn.
  destruct (decide (j = i)) as [->|Hne]; [by rewrite lookup_insert_eq|by rewrite lookup_insert_ne].
Qed.

(** ** Updating a session *)

(** A row rewritten as to who and what it is for. *)
Definition same_session (x y : session) : Prop :=
  s_id y = s_id x /\ s_reg y = s_reg x /\ s_user y = s_user x /\ s_au y = s_au x /\ s_mastery y = s_mastery x.
Lemma elem_of_set id f d y :
  y ∈ d_sessions (set_session id f d) <-> exists x, x ∈ d_sessions d /\ y = if String.eqb (s_id x) id then f x else x.
Proof. cbn. rewrite list_elem_of_fmap. naive_solver. Qed.
Lemma set_ids id f d : (forall x, same_session x (f x)) -> s_id <$> d_sessions (set_session id f d) = s_id <$> d_sessions d.
Proof.
  intros Hf. cbn. rewrite <- list_fmap_compose. apply list_fmap_ext. intros i x _. cbn. destruct (String.eqb _ _); [|done]. apply Hf.
Qed.
Lemma placed_same d x y r : same_session x y -> placed d x r -> placed d y r.
Proof. intros (_ & Hr & Hu & Ha & Hm) (H1 & H2 & H3). unfold placed. by rewrite Hr, Hu, Ha, Hm. Qed.

Lemma inv_set d id f :
  inv d -> (forall x, same_session x (f x)) -> (forall x, s_sent (f x) = s_sent x) ->
  (forall x, x ∈ d_sessions d -> s_id x = id -> legal (s_state (f x)) (s_sent x) /\ (is_open (f x) = true -> is_open x = true)) ->
  inv (set_session id f d).
Proof.
  intros Hi Hf Hsent Hl. set (g := fun x => if String.eqb (s_id x) id then f x else x).
  assert (Hg : forall x, same_session x (g x)) by (intros x; unfold g; destruct (String.eqb _ _); [apply Hf|done]).
  assert (Hgs : forall x, s_sent (g x) = s_sent x) by (intros x; unfold g; by destruct (String.eqb _ _)).
  assert (Hgl : forall x, x ∈ d_sessions d -> legal (s_state (g x)) (s_sent x) /\ (is_open (g x) = true -> is_open x = true)).
  { intros x Hx. unfold g. destruct (String.eqb_spec (s_id x) id) as [He|]; [by apply Hl|]. split; [by apply (iv_legal _ Hi)|done]. }
  destruct Hi as [H1 H2 H3 H4 H5 H6 H7 H8 H9 H10]. split; try done.
  - by rewrite set_ids.
  - intros y (x & Hx & ->)%elem_of_set. destruct (H3 x Hx) as [r Hp]. exists r. by apply (placed_same d x (g x)).
  - intros y (x & Hx & ->)%elem_of_set. fold (g x). rewrite Hgs. by apply Hgl.
  - intros y r (x & Hx & ->)%elem_of_set. fold (g x). destruct (Hg x) as (_ & -> & _ & -> & _). rewrite Hgs. by apply H5.
  - intros y y' verb (x & Hx & ->)%elem_of_set (x' & Hx' & ->)%elem_of_set. fold (g x) (g x').
    destruct (Hg x) as (_ & -> & _ & -> & _), (Hg x') as (_ & -> & _ & -> & _). rewrite !Hgs. intros. f_equal. by eapply H6.
  - intros y y' (x & Hx & ->)%elem_of_set (x' & Hx' & ->)%elem_of_set. fold (g x) (g x').
    destruct (Hg x) as (_ & -> & _), (Hg x') as (_ & -> & _). intros Hr Ho Ho'. f_equal. apply H7; try done; by apply Hgl.
Qed.

Lemma inv_marks d id a b : inv d -> inv (set_session id (with_marks a b) d).
Proof. intros Hi. apply inv_set; try done. intros x Hx _. split; [exact (iv_legal _ Hi x Hx)|done]. Qed.
Lemma inv_token d id hash now : inv d -> inv (set_session id (with_token hash now) d).
Proof. intros Hi. apply inv_set; try done. intros x Hx _. split; [exact (iv_legal _ Hi x Hx)|done]. Qed.
Lemma inv_abandoned d x now : inv d -> x ∈ d_sessions d -> is_open x = true -> inv (set_session (s_id x) (with_state Abandoned now) d).
Proof.
  intros Hi Hx Ho. apply inv_set; try done. intros y Hy He. assert (y = x) as -> by by eapply ids_unique.
  pose proof (iv_legal _ Hi x Hx) as Hl. split; [|done]. eapply legal_abandoned; [done|]. by apply legal_open.
Qed.

(** A new session, when no other of its registration is open. *)
Lemma inv_add d x r :
  inv d -> s_id x ∉ (s_id <$> d_sessions d) -> placed d x r -> s_state x = Launched -> s_sent x = [] ->
  (forall y, y ∈ d_sessions d -> s_reg y = s_reg x -> is_open y = false) -> inv (add_session x d).
Proof.
  intros [H1 H2 H3 H4 H5 H6 H7 H8 H9 H10] Hid Hp Hst Hsent Hopen.
  assert (Hin : forall y, y ∈ d_sessions (add_session x d) <-> y ∈ d_sessions d \/ y = x) by (intros y; cbn; set_solver).
  split; try done.
  - cbn. rewrite fmap_app. apply NoDup_app. split; [done|]. split; [|apply NoDup_singleton]. set_solver.
  - intros y [Hy| ->]%Hin; [by apply H3|by exists r].
  - intros y [Hy| ->]%Hin; [by apply H4|]. rewrite Hst, Hsent. apply legal_new.
  - intros y r0 [Hy| ->]%Hin; [by apply H5|]. rewrite Hsent. split; intros ?%elem_of_nil; done.
  - intros y z verb [Hy| ->]%Hin [Hz| ->]%Hin; [by apply H6|..]; rewrite ?Hsent; intros _ _ _ A B; try by apply elem_of_nil in A. by apply elem_of_nil in B.
  - intros y z [Hy| ->]%Hin [Hz| ->]%Hin; [by apply H7|..]; intros Hr Ho Ho'; [|symmetry in Hr|done];
      match goal with H : ?a ∈ d_sessions d |- _ => rewrite (Hopen a H) in *; done end.
Qed.
Lemma inv_grades d g : inv d -> inv (Db (d_regs d) (d_sessions d) (d_grades d ++ [g]) (d_results d)).
Proof.
  intros [H1 H2 H3 H4 H5 H6 H7 H8 H9 H10].
  assert (Hmore : forall r i q, scored d r i q -> scored (Db (d_regs d) (d_sessions d) (d_grades d ++ [g]) (d_results d)) r i q).
  { intros r i q (g' & Hg & H). exists g'. split; [|done]. cbn. set_solver. }
  split; try done.
  - intros k r i Hk Hp. destruct (H8 k r i Hk Hp) as (g' & Hg & H). exists g'. split; [|done]. cbn. set_solver.
  - intros k r i q Hk Hp. by eapply Hmore, H9.
  - intros row q Hrow Hq. destruct (H10 row q Hrow Hq) as (r & Hr & Hrel & Hs). exists r. auto.
Qed.
(** A result handed on, as its registration is saved. *)
Lemma inv_result d i s r r2 :
  inv d -> d_regs d !! r_id r = Some r2 -> r_release r2 = r_release r -> p_score s = p_score (state_in r2 i) ->
  inv (enqueue_result r i s d).
Proof.
  intros [H1 H2 H3 H4 H5 H6 H7 H8 H9 H10] Hr Hrel Hs. split; try done.
  intros row q [Hrow| ->%list_elem_of_singleton]%elem_of_app Hq; [by apply H10|]. exists r2. cbn. split; [done|]. split; [done|].
  apply (H9 (r_id r)); [done|]. cbn in Hq. congruence.
Qed.

(** ** A batch of statements *)

Lemma same_after now acc x : same_session x (session_after now acc x).
Proof.
  revert x; induction acc as [|v acc IH]; intros x; [done|]. cbn. destruct (IH (hears now v x)) as (H1 & H2 & H3 & H4 & H5).
  unfold session_after in *. unfold same_session. rewrite H1, H2, H3, H4, H5. unfold hears. repeat case_match; done.
Qed.
Lemma session_after_app now acc v x : session_after now (acc ++ [v]) x = hears now v (session_after now acc x).
Proof. unfold session_after. by rewrite foldl_app. Qed.

(** What a session has, after the verbs of a batch, and what allowed each of them. *)
Record batch (x : session) (view : SessionView) (now : Z) (acc : list string) : Prop := {
  bt_legal : legal (s_state (session_after now acc x)) (s_sent x ++ acc);
  bt_sent : s_sent (session_after now acc x) = s_sent x ++ acc;
  bt_state : s_state (session_after now acc x) <> Abandoned;
  bt_completed : COMPLETED ∈ acc -> w_au_completed view = false;
  bt_passed : PASSED ∈ acc -> w_au_passed view = false /\
    exists g s, w_graded view = Some g /\ (Qabs (s - g) <= 1 # 10000)%Q /\ forall m, w_mastery view = Some m -> (m <= s)%Q
}.

Section Batch.
Context (x : session) (r : registration) (runtime : string) (graded : option Q) (now : Z).
Context (Hlegal : legal (s_state x) (s_sent x)) (Hopen : is_open x = true).
#[local] Notation view := (_view x r runtime graded).

Lemma batch_nil : batch x view now [].
Proof.
  unfold session_after. split; cbn; rewrite ?app_nil_r; try done.
  - unfold is_open in Hopen. intros He. rewrite He in Hopen. by vm_compute in Hopen.
  - by intros ?%elem_of_nil.
  - by intros ?%elem_of_nil.
Qed.
Lemma batch_snoc acc st verb :
  batch x view now acc -> taken st view acc verb -> defined_ok st view acc verb -> batch x view now (acc ++ [verb]).
Proof.
  intros [Hl Hs Ha Hc Hp] Ht [Dv _ _ [Do [Dj1 Dj2] Dc Dp] Dm]. destruct (legal_open x Hlegal Hopen) as [Hterm Hstarted].
  assert (Hnot : TERMINATED ∉ s_sent x ++ acc) by (rewrite elem_of_app; intros [H|H]; [done|by apply (proj2 (tk_open _ _ _ _ Ht))]).
  rewrite <- Hs in Hl, Hnot. cbn [w_sent _view] in Do, Dj1, Dj2. rewrite <- Hs in Do, Dj1, Dj2.
  destruct (legal_hears now (session_after now acc x) verb Hl Ha Hnot Dv Do Dj1 Dj2) as (Hl' & Hs' & Ha').
  { rewrite Hs. intros [He ->]%app_nil. destruct (tk_started _ _ _ _ Ht) as [H|[H|H]]; [|done|by apply elem_of_nil in H].
    cbn in H. reflect_bools. by destruct (Hstarted H). }
  split; rewrite ?session_after_app, ?app_assoc, <- ?Hs; try done.
  - intros [H|H%list_elem_of_singleton]%elem_of_app; [by apply Hc|by apply Dc].
  - intros [H|H%list_elem_of_singleton]%elem_of_app; [by apply Hp|]. subst verb. split; [by apply Dp|].
    destruct Dm as (g & s & Hg & _ & Hd & Hm); [done..|]. exists g, s. split; [done|]. split; [done|]. intros m Hm'. by apply (Hm m Hm').
Qed.
Lemma batch_all sts : forall acc acc', batch x view now acc -> check_all view sts acc = Ok acc' -> batch x view now acc'.
Proof.
  induction sts as [|st sts IH]; intros acc acc' Hb H; cbn [check_all] in H; [by injection H as <-|]. ok_steps H.
  eapply IH; [|exact H]. pose proof (check_taken _ _ _ _ Hx) as (verb & Ht & Hv). destruct x0 as [said|].
  - destruct Hv as [-> Hd]. eapply batch_snoc; [done|done|by apply defined_facts].
  - by rewrite app_nil_r.
Qed.
End Batch.

(** The unit's entry after a batch. *)
Lemma said_spec acc s :
  p_completed (foldl (fun s verb => said verb s) s acc) = p_completed s || one_of COMPLETED acc /\
  p_passed (foldl (fun s verb => said verb s) s acc) = p_passed s || one_of PASSED acc.
Proof.
  revert s; induction acc as [|v acc IH]; intros s; cbn [foldl]; [by rewrite !orb_false_r|].
  destruct (IH (said v s)) as [-> ->]. unfold said, one_of.
  destruct (String.eqb_spec v COMPLETED) as [->|H1]; [|destruct (String.eqb_spec v PASSED) as [->|H2]; [|destruct (String.eqb_spec v FAILED) as [->|H3]]]; cbn.
  all: repeat case_bool_decide; rewrite ?orb_true_r, ?orb_false_r; try done; exfalso.
  all: repeat match goal with H : _ ∈ _ :: _ |- _ => apply elem_of_cons in H as [H|H] | H : ?a ∉ ?b :: ?l |- _ => apply not_elem_of_cons in H as [? H] end; try done; congruence.
Qed.
Lemma state_after_spec acc graded s :
  p_completed (state_after acc graded s) = p_completed s || one_of COMPLETED acc /\
  p_passed (state_after acc graded s) = p_passed s || one_of PASSED acc.
Proof.
  unfold state_after. destruct graded as [g|]; [|apply said_spec]. destruct (_ || _); [|apply said_spec].
  destruct (said_spec acc (with_score g s)) as [-> ->]. done.
Qed.

Lemma said_score acc s : p_score (foldl (fun s verb => said verb s) s acc) = p_score s.
Proof. revert s; induction acc as [|v acc IH]; intros s; cbn [foldl]; [done|]. rewrite IH. unfold said. by repeat case_match. Qed.
Lemma state_after_score acc graded s q :
  p_score (state_after acc graded s) = Some q -> p_score s = Some q \/ graded = Some q.
Proof.
  unfold state_after. rewrite said_score. destruct graded as [g|]; [|by left]. destruct (_ || _); [|by left]. cbn.
  unfold qmax. destruct (p_score s) as [best|]; [destruct (Qle_bool best g)|]; intros [= <-]; auto.
Qed.

(** ** Recording a batch *)

Definition reg_after (x : session) (r : registration) (acc : list string) (graded : option Q) : registration :=
  with_progress (Progress (<[s_au x := state_after acc graded (state_in r (s_au x))]> (p_aus (r_progress r))) (p_satisfied (r_progress r))) r.
Lemma reg_after_state x r acc graded i :
  p_completed (state_in (reg_after x r acc graded) i) = p_completed (state_in r i) || (bool_decide (i = s_au x) && one_of COMPLETED acc) /\
  p_passed (state_in (reg_after x r acc graded) i) = p_passed (state_in r i) || (bool_decide (i = s_au x) && one_of PASSED acc).
Proof.
  unfold state_in at 1 3, state_of, reg_after. cbn. case_bool_decide as Hi.
  - subst i. rewrite lookup_insert_eq. apply state_after_spec.
  - rewrite lookup_insert_ne by done. cbn. by rewrite !orb_false_r.
Qed.

Section Recording.
Context (d : db) (x : session) (r : registration) (runtime : string) (acc : list string) (graded : option Q) (now : Z).
Context (Hi : inv d) (Hx : x ∈ d_sessions d) (Ho : is_open x = true) (Hr : d_regs d !! s_reg x = Some r).
Context (Hb : batch x (_view x r runtime graded) now acc).
Context (Hg : forall q, graded = Some q ->
  exists g, g ∈ d_grades d /\ g_user g = s_user x /\ g_release g = r_release r /\ g_au g = s_au x /\ g_scaled g = q).

(** No other session of the unit has said what this one has or now says. *)
Lemma said_by_one y verb :
  y ∈ d_sessions d -> y <> x -> s_reg y = s_reg x -> s_au y = s_au x -> verb ∈ [COMPLETED; PASSED] ->
  verb ∈ s_sent y -> verb ∉ s_sent x ++ acc.
Proof.
  intros Hy Hne Hyr Hya Hv Hvy [Hvx|Hva]%elem_of_app; [apply Hne; by eapply (iv_once _ Hi)|].
  destruct (iv_recorded _ Hi y r Hy) as [R1 R2]; [congruence|]. rewrite Hya in *. cases_in Hv; subst verb.
  - pose proof (bt_completed _ _ _ _ Hb Hva) as Bc. cbn in Bc. unfold state_in in R1. rewrite R1 in Bc by done. done.
  - destruct (bt_passed _ _ _ _ Hb Hva) as [Bp _]. cbn in Bp. unfold state_in in R2. rewrite R2 in Bp by done. done.
Qed.
(** What the batch passes is marked. *)
Lemma batch_earned : PASSED ∈ acc -> earned d r (s_au x).
Proof.
  intros Hp. destruct (iv_placed _ Hi x Hx) as (r0 & Hr0 & Hux & cs & au & Hcs & Hau & Hm). rewrite Hr in Hr0. injection Hr0 as <-.
  destruct (bt_passed _ _ _ _ Hb Hp) as [_ (q & sc & Hq & Hd & Hms)]. cbn in Hq. destruct (Hg q Hq) as (g & G1 & G2 & G3 & G4 & G5).
  exists g. split; [done|]. split; [by rewrite G2, Hux|]. do 2 (split; [done|]). intros cs' au' m Hcs' Hau' Hmm.
  assert (cs' = cs) as -> by congruence. assert (au' = au) as -> by congruence.
  specialize (Hms m ltac:(cbn; congruence)). rewrite G5. apply Qabs_Qle_condition in Hd as [Hd1 Hd2]. lra.
Qed.

#[local] Notation r' := (reg_after x r acc graded).
#[local] Notation x' := (session_after now acc x).
#[local] Notation d' := (put_reg r' (set_session (s_id x) (session_after now acc) d)).
Lemma reg_after_lookup k r0 : d_regs d' !! k = Some r0 -> (k = s_reg x /\ r0 = r') \/ (k <> s_reg x /\ d_regs d !! k = Some r0).
Proof.
  cbn. rewrite (iv_keys _ Hi _ _ Hr). destruct (decide (k = s_reg x)) as [->|Hne].
  - rewrite lookup_insert_eq. intros [= <-]. by left.
  - rewrite lookup_insert_ne by done. by right.
Qed.
Lemma session_after_in y : y ∈ d_sessions d' -> y = x' \/ (y ∈ d_sessions d /\ y <> x).
Proof.
  intros Hy. change (y ∈ d_sessions (set_session (s_id x) (session_after now acc) d)) in Hy. apply elem_of_set in Hy as (z & Hz & ->).
  destruct (String.eqb_spec (s_id z) (s_id x)) as [He|Hne]; [left; by rewrite (ids_unique d z x)|right; split; [done|congruence]].
Qed.

Lemma batch_scored i q : p_score (state_in r' i) = Some q -> scored d r i q.
Proof.
  unfold state_in at 1, state_of, reg_after. cbn. destruct (decide (i = s_au x)) as [->|Hne].
  - rewrite lookup_insert_eq. cbn. intros [Hp|Hq]%state_after_score; [by eapply (iv_scored _ Hi)|].
    destruct (Hg q Hq) as (g & G1 & G2 & G3 & G4 & G5). destruct (iv_placed _ Hi x Hx) as (r0 & Hr0 & Hux & _). rewrite Hr in Hr0.
    injection Hr0 as <-. exists g. by rewrite G2, Hux.
  - rewrite lookup_insert_ne by done. by eapply (iv_scored _ Hi).
Qed.

Lemma inv_after : inv d'.
Proof.
  pose proof Hi as [H1 H2 H3 H4 H5 H6 H7 H8 H9 H10]. pose proof (bt_sent _ _ _ _ Hb) as Bs.
  destruct (same_after now acc x) as (Sid & Sreg & Suser & Sau & Smast).
  pose proof reg_after_lookup as Hlook. pose proof session_after_in as Hin. pose proof (reg_after_state x r acc graded) as Hst.
  assert (Hid : r_id r = s_reg x) by by apply H2.
  split.
  - change (NoDup (s_id <$> d_sessions (set_session (s_id x) (session_after now acc) d))). rewrite set_ids; [done|]. intros y. apply same_after.
  - intros k r0 [[-> ->]|[_ H]]%Hlook; [done|by apply H2].
  - intros y Hy. assert (Hp : exists z, z ∈ d_sessions d /\ same_session z y).
    { apply Hin in Hy as [->|[Hy _]]; [exists x; split; [done|by split]|exists y; by split]. }
    destruct Hp as (z & Hz & Hzy). destruct (H3 z Hz) as (r0 & Hp). destruct (decide (s_reg z = s_reg x)) as [He|Hne].
    + exists r'. apply (placed_same _ z y); [done|]. destruct Hp as (P1 & P2 & P3). rewrite He, Hr in P1. injection P1 as <-.
      split; [|by split]. cbn. by rewrite Hid, He, lookup_insert_eq.
    + exists r0. apply (placed_same _ z y); [done|]. destruct Hp as (P1 & P2 & P3). split; [|by split]. cbn. by rewrite Hid, lookup_insert_ne.
  - intros y [->|[Hy _]]%Hin; [rewrite Bs; by apply (bt_legal _ _ _ _ Hb)|by apply H4].
  - intros y r0 [->|[Hy Hne]]%Hin [[Hk ->]|[Hk Hl]]%Hlook; try congruence.
    + rewrite Bs, Sau. destruct (Hst (s_au x)) as [-> ->], (H5 x r Hx Hr) as [R1 R2]. rewrite bool_decide_true by done. cbn [andb].
      split; intros [Hv|Hv]%elem_of_app; apply orb_true_iff; [left; by apply R1|right; by apply one_of_true|left; by apply R2|right; by apply one_of_true].
    + destruct (Hst (s_au y)) as [-> ->], (H5 y r Hy) as [R1 R2]; [congruence|]. by split; intros Hv; apply orb_true_iff; left; auto.
    + by apply H5.
  - intros y z verb [->|[Hy Hny]]%Hin [->|[Hz Hnz]]%Hin; rewrite ?Bs, ?Sreg, ?Sau; intros Hrr Haa Hv Hvy Hvz; try done.
    + by destruct (said_by_one z verb).
    + by destruct (said_by_one y verb).
    + by eapply H6.
  - intros y z [->|[Hy Hny]]%Hin [->|[Hz Hnz]]%Hin; rewrite ?Sreg; intros Hrr Hoy Hoz; try done.
    + exfalso. apply Hnz. symmetry. by apply H7.
    + exfalso. apply Hny. by apply H7.
    + by apply H7.
  - intros k r0 i [[-> ->]|[_ Hl]]%Hlook Hp; [|by apply (H8 k)].
    rewrite (proj2 (Hst i)) in Hp. apply orb_true_iff in Hp as [Hp|Hp].
    + destruct (H8 _ _ _ Hr Hp) as (g & G1 & G2 & G3 & G4 & G5). exists g. by repeat split.
    + apply andb_true_iff in Hp as [Hia Hp]. reflect_bools. subst i. apply batch_earned. by apply one_of_true.
  - intros k r0 i q [[-> ->]|[_ Hl]]%Hlook Hp; [|by apply (H9 k)]. by apply batch_scored.
  - intros row q Hrow Hq. destruct (H10 row q Hrow Hq) as (r0 & Hr0 & Hb0). destruct (decide (q_reg row = s_reg x)) as [He|Hne].
    + rewrite He, Hr in Hr0. injection Hr0 as <-. exists r'. cbn. by rewrite Hid, He, lookup_insert_eq.
    + exists r0. cbn. by rewrite Hid, lookup_insert_ne.
Qed.
End Recording.

(** ** The operations keep the invariant *)

Lemma evaluate_spec P r sid now :
  spec P (evaluate r sid now)
    (fun x d => exists d0 sat, P d0 /\ x.2 = with_progress (Progress (p_aus (r_progress r)) sat) r /\ d = put_reg x.2 d0) P.
Proof.
  eapply spec_bind; [apply spec_quiet, quiet_package|]. intros cs s Hs. cbn. by eexists _, _.
Qed.
Lemma inv_evaluated d r sat :
  inv d -> d_regs d !! r_id r = Some r -> inv (put_reg (with_progress (Progress (p_aus (r_progress r)) sat) r) d).
Proof. intros Hi Hr. eapply inv_put; [done|done|apply same_verdicts_satisfied]. Qed.

Lemma abandon_spec P x rel now :
  spec P (abandon x rel now)
    (fun _ d => exists d0, P d0 /\ d = if is_open x then set_session (s_id x) (with_state Abandoned now) d0 else d0) P.
Proof.
  unfold abandon. destruct (is_open x); [|apply spec_ret; eauto].
  eapply spec_bind; [apply spec_quiet, quiet_package|intros cs]. eapply spec_bind; [apply spec_quiet, quiet_put|intros []].
  apply spec_on_db. eauto.
Qed.

Lemma spec_seq {A B} P (m : M A) (f : A -> M B) R E' Q E :
  spec P m R E' -> (forall d, E' d -> E d) -> (forall a, spec (R a) (f a) Q E) -> spec P (bind m f) Q E.
Proof. intros Hm HE Hf. eapply spec_bind; [|exact Hf]. by eapply spec_weaken. Qed.

Section Launching.
Context (rg : string) (r : registration) (sid : string).
(** The registration is saved, and the new id free. *)
Definition launching (d : db) : Prop := inv d /\ d_regs d !! rg = Some r /\ sid ∉ (s_id <$> d_sessions d).
Definition closing (l : list session) (d : db) : Prop :=
  launching d /\ NoDup l /\ (forall x, x ∈ l -> x ∈ d_sessions d /\ is_open x = true) /\
  (forall y, y ∈ d_sessions d -> s_reg y = rg -> is_open y = true -> y ∈ l).
Lemma closing_step x l d now :
  closing (x :: l) d -> closing l (set_session (s_id x) (with_state Abandoned now) d).
Proof.
  intros ((Hi & Hr & Hs) & [Hx Hn]%NoDup_cons & Hl & Hall). destruct (Hl x) as [Hin Ho]; [set_solver|].
  assert (Hset : forall y, y ∈ d_sessions (set_session (s_id x) (with_state Abandoned now) d) ->
    (y ∈ d_sessions d /\ y <> x) \/ is_open y = false).
  { intros y (z & Hz & ->)%elem_of_set. destruct (String.eqb_spec (s_id z) (s_id x)); [by right|left; split; [done|congruence]]. }
  split; [split; [by apply inv_abandoned|split; [done|by rewrite set_ids]]|]. split; [done|]. split.
  - intros y Hy. destruct (Hl y) as [Hyin Hyo]; [set_solver|]. split; [|done]. apply elem_of_set. exists y. split; [done|].
    destruct (String.eqb_spec (s_id y) (s_id x)) as [He|]; [|done]. exfalso. assert (y = x) by by eapply ids_unique. set_solver.
  - intros y Hy Hyr Hyo. destruct (Hset y Hy) as [[Hyin Hne]|Hc]; [|congruence]. specialize (Hall y Hyin Hyr Hyo). set_solver.
Qed.
Lemma abandon_all_spec rel now l :
  spec (closing l) (abandon_all l rel now) (fun _ => closing []) inv.
Proof.
  induction l as [|x l IH]; [by apply spec_ret|]. cbn [abandon_all].
  apply spec_bind with (R := fun _ => closing l); [|intros []; exact IH].
  eapply spec_weaken; [apply (abandon_spec (closing (x :: l)))|done| |by intros d [[? _] _]].
  intros [] d (d0 & Hc & ->). pose proof Hc as (_ & _ & Hl & _). destruct (Hl x) as [_ Ho]; [set_solver|]. rewrite Ho. by apply closing_step.
Qed.
End Launching.

Lemma enrolment_spec P o user rel :
  spec P (enrolment_for o user rel) (fun e d => P d /\ e_user e = user) P.
Proof.
  unfold enrolment_for. destruct (List.find _ _) as [e|] eqn:Ef; [|by apply spec_raise]. apply List.find_some in Ef as [_ Hf].
  apply andb_true_iff in Hf as [Hf _]. apply String.eqb_eq in Hf.
  eapply spec_bind; [apply spec_need with (Q := fun _ => P); auto|intros []]. by apply spec_ret.
Qed.
Lemma registration_spec e rel e1 now sid :
  spec (fun d => inv d /\ sid ∉ (s_id <$> d_sessions d)) (registration_of e rel e1 now)
    (fun r d => launching (r_id r) r sid d /\ r_user r = e_user e /\ r_release r = rel_id rel) inv.
Proof.
  eapply spec_bind; [apply spec_get_db with (Q := fun d' d => (inv d /\ sid ∉ (s_id <$> d_sessions d)) /\ d' = d); auto|]. intros d'.
  destruct (d_regs d' !! e_id e) as [r|] eqn:Er.
  - destruct (String.eqb_spec (r_user r) (e_user e)); [|apply spec_raise; naive_solver].
    eapply spec_bind; [apply spec_need with (Q := fun _ d => inv d /\ sid ∉ (s_id <$> d_sessions d) /\ d' = d /\ r_release r = rel_id rel)|intros []].
    + intros Hrel%String.eqb_eq. naive_solver.
    + naive_solver.
    + apply spec_ret. intros d (Hi & Hs & -> & Hrel). split; [|done]. split; [done|]. split; [|done].
      by rewrite (iv_keys _ Hi _ _ Er).
  - eapply spec_bind; [apply spec_on_db with (Q := fun _ => launching (e_id e) (Reg (e_id e) (e_user e) (rel_id rel) empty_progress) sid)|intros []].
    + intros d ((Hi & Hs) & ->). split; [by apply inv_new_reg|]. split; [|done]. cbn. apply lookup_insert_eq.
    + eapply spec_seq; [apply evaluate_spec|by intros d [? _]|]. intros [newly r']. apply spec_ret. intros d (d0 & sat & (Hi & Hr & Hs) & -> & ->). cbn. split; [|done].
      split; [by apply inv_evaluated|]. split; [|done]. cbn. apply lookup_insert_eq.
Qed.

Lemma spec_value {A} P (m : M A) (R : A -> Prop) : quiet m -> (forall s a s', m s = (Ok a, s') -> R a) -> spec P m (fun a d => P d /\ R a) P.
Proof.
  intros Hm HR s Hs. specialize (Hm s). destruct (m s) as [[a|e] s'] eqn:E; cbn in *; rewrite Hm; [|done]. split; [done|by eapply HR].
Qed.
Lemma package_spec P rel : spec P (get_package rel) (fun cs d => P d /\ package rel = Some cs) P.
Proof. apply spec_value; [apply quiet_package|]. intros s cs s'. unfold get_package. by destruct (package rel); [intros [= <- _]|]. Qed.

Lemma spec_pre {A} (P P' : db -> Prop) (m : M A) Q E : (forall d, P' d -> P d) -> spec P m Q E -> spec P' m Q E.
Proof. intros HP H. by eapply spec_weaken. Qed.
Lemma spec_pure {A} (P : db -> Prop) (F : Prop) (m : M A) Q E : (F -> spec P m Q E) -> spec (fun d => P d /\ F) m Q E.
Proof. intros H s [Hs Hf]. by apply H. Qed.

Lemma launch_inv o now user rel i mode sid secret e1 e2 :
  spec (fun d => inv d /\ sid ∉ (s_id <$> d_sessions d)) (launch o now user rel i mode sid secret e1 e2) (fun _ => inv) inv.
Proof.
  eapply spec_seq; [apply spec_quiet, quiet_credential|by intros d [? _]|intros []].
  eapply spec_seq; [apply enrolment_spec|by intros d [? _]|intros e]. apply spec_pure. intros Hu.
  eapply spec_seq; [apply package_spec|by intros d [? _]|intros cs]. apply spec_pure. intros Hcs.
  destruct (c_aus cs !! i) as [au|] eqn:Eau; [|apply spec_raise; by intros d [? _]].
  eapply spec_seq; [apply registration_spec|done|intros r]. apply spec_pure. intros [Hru Hrr].
  eapply spec_seq; [apply evaluate_spec|by intros d [? _]|intros [newly r']]. cbn [snd].
  set (L := launching (r_id r') r' sid).
  apply (spec_pre (fun d => L d /\ (r_user r' = user /\ r_release r' = rel_id rel))).
  { intros d (d0 & sat & (Hi & Hr & Hs) & -> & ->). split; [|cbn; split; congruence]. split; [by apply inv_evaluated|].
    split; [cbn; apply lookup_insert_eq|done]. }
  apply spec_pure. intros [Hru' Hrr'].
  eapply spec_seq; [apply (spec_quiet L), quiet_need|by intros d [? _]|intros []].
  eapply spec_seq; [apply spec_get_db with (Q := fun d' d => L d /\ d' = d) (E := inv); auto|done|intros d'].
  eapply spec_seq; [|done|intros []].
  { eapply spec_pre; [intros d [Hl ->]|apply abandon_all_spec with (rg := r_id r') (r := r') (sid := sid)].
    split; [done|]. split; [|split].
    - apply NoDup_ListNoDup, List.NoDup_filter, NoDup_ListNoDup. eapply NoDup_fmap_1. apply (iv_ids d), Hl.
    - intros x Hx%list_elem_of_In. apply filter_In in Hx as [Hx Hf]. apply list_elem_of_In in Hx. reflect_bools. done.
    - intros y Hy Hyr Hyo. apply list_elem_of_In, filter_In. split; [by apply list_elem_of_In|]. by rewrite Hyr, String.eqb_refl, Hyo. }
  eapply spec_seq; [apply spec_quiet, quiet_document|by intros d [[? _] _]|intros []].
  eapply spec_seq; [apply spec_quiet, quiet_put|by intros d [[? _] _]|intros []].
  eapply spec_seq; [apply spec_on_db with (Q := fun _ => inv) (E := inv)|done|intros []; by apply spec_ret].
  intros d ((Hi & Hr & Hs) & _ & _ & Hno). eapply inv_add; [done|done| |done|done|].
  - split; [exact Hr|]. split; [done|]. exists cs, au. cbn. by rewrite Hrr'.
  - intros y Hy Hyr. destruct (is_open y) eqn:Ho; [|done]. apply (Hno y Hy Hyr) in Ho. by apply elem_of_nil in Ho.
Qed.

Lemma fetch_inv secret token now : spec inv (fetch secret token now) (fun _ => inv) inv.
Proof.
  eapply spec_seq; [apply spec_get_db with (Q := fun _ => inv) (E := inv); auto|done|intros d].
  repeat case_match; try by apply spec_ret.
  eapply spec_seq; [apply spec_on_db with (Q := fun _ => inv) (E := inv)|done|intros []; by apply spec_ret].
  intros d' Hi. by apply inv_token.
Qed.
Lemma waive_inv d0 r rel i reason sid now :
  r_release r = rel_id rel -> d_regs d0 !! r_id r = Some r -> spec (fun d => d = d0 /\ inv d) (waive r rel i reason sid now) (fun _ => inv) inv.
Proof.
  intros Hrel Hr. set (P := fun d => d = d0 /\ inv d). assert (HP : forall d, P d -> inv d) by by intros d [_ ?].
  eapply spec_seq; [apply (spec_quiet P), quiet_need|done|intros []].
  eapply spec_seq; [apply (spec_quiet P), quiet_package|done|intros cs].
  do 2 (eapply spec_seq; [apply (spec_quiet P), quiet_need|done|intros []]).
  eapply spec_seq; [apply (spec_quiet P), quiet_put|done|intros []]. fold (state_in r i).
  set (r' := with_progress _ r).
  assert (Hv : same_verdicts r r') by apply same_verdicts_waived.
  eapply spec_seq; [apply spec_on_db with (Q := fun _ d => inv d /\ d_regs d !! r_id r' = Some r') (E := inv)|done|intros []].
  { intros d [-> Hi]. split; [by eapply inv_put|]. cbn. apply lookup_insert_eq. }
  eapply spec_seq; [apply evaluate_spec|by intros d [? _]|intros [newly r'']]. apply spec_ret.
  intros d (d1 & sat & [Hi Hr'] & -> & ->). by apply inv_evaluated.
Qed.
Lemma grade_inv o user rel i answers now : spec inv (grade_quiz o user rel i answers now) (fun _ => inv) inv.
Proof.
  apply spec_seq with (R := fun _ => inv) (E' := inv); [|done|intros []].
  { destruct (o_author o user); [by apply spec_ret|].
    eapply spec_seq; [apply (spec_quiet inv), quiet_enrolment|done|intros e].
    eapply spec_seq; [apply (spec_quiet inv), quiet_get_db|done|intros d]. apply (spec_quiet inv), quiet_need. }
  eapply spec_seq; [apply (spec_quiet inv), quiet_package|done|intros cs].
  eapply spec_seq; [apply (spec_quiet inv), quiet_need|done|intros []].
  repeat case_match; try by apply spec_raise.
  eapply spec_seq; [apply spec_on_db with (Q := fun _ => inv) (E := inv)|done|intros []; by apply spec_ret].
  intros d Hi. by apply inv_grades.
Qed.

(** ** A unit's request keeps it *)

Lemma auth_spec bearer now :
  spec inv (authenticate bearer now) (fun x d => inv d /\ x ∈ d_sessions d /\ is_open x = true) (fun _ => True).
Proof.
  intros s Hi. unfold authenticate. destruct bearer as [[sid token]|]; [|done]. unfold bind, get_db, need, ret, raise_. cbn.
  destruct (List.find _ _) as [x|] eqn:Ef; [|done]. apply List.find_some in Ef as [Hx _]. apply list_elem_of_In in Hx.
  repeat case_bool_decide; cbn; try done. destruct (now <=? s_expires_at x); cbn; [|done].
  split; [done|]. split; [done|]. unfold is_open. apply bool_decide_eq_true. destruct (s_state x); try done; in_list.
Qed.

Lemma bind_ok_inv {A B} (m : M A) (f : A -> M B) s b s' : bind m f s = (Ok b, s') -> exists a s1, m s = (Ok a, s1) /\ f a s1 = (Ok b, s').
Proof. unfold bind. destruct (m s) as [[a|e] s1]; [|done]. intros H. by exists a, s1. Qed.
Lemma need_ok b e s a s' : need b e s = (Ok a, s') -> b = true /\ s' = s.
Proof. destruct b; cbn; [by intros [= _ <-]|done]. Qed.
Lemma rules_ok {A} (r : result refusal A) s a s' : of_rules r s = (Ok a, s') -> r = Ok a /\ s' = s.
Proof. destruct r; cbn; [by intros [= -> <-]|done]. Qed.
(** Taking apart a computation known to have returned. *)
Ltac run H :=
  repeat match type of H with
  | bind _ _ _ = (Ok _, _) =>
      let a := fresh "a" in let s := fresh "s" in let Ha := fresh "Ha" in apply bind_ok_inv in H as (a & s & Ha & H);
      first [apply need_ok in Ha as [Ha ->] | apply rules_ok in Ha as [Ha ->] | idtac]
  | need _ _ _ = (Ok _, _) => apply need_ok in H as [? ->]
  | ret _ _ = (Ok _, _) => injection H as <- <-
  end.

Lemma allow_ok q x r runtime g s a s' :
  allow q x r runtime g s = (Ok a, s') ->
  w_accepted a = [] \/ (w_launch_data a = false /\ w_prefs a = false /\ exists sts, check_all (_view x r runtime g) sts [] = Ok (w_accepted a)).
Proof.
  unfold allow. intros H. destruct (_ && _); [run H; by left|]. destruct (String.eqb _ _).
  - run H. cbn. right. split; [done|]. split; [done|]. rename Ha0 into Hc. unfold _check_statements in Hc.
    destruct (a_body q) as [|t b|j]; [|done|]; ok_steps Hc; injection Hc as <-; by eexists.
  - destruct (String.eqb _ _); [run H; destruct (param_is q "stateId" "LMS.LaunchData"); run H; by left|].
    destruct (String.eqb _ _); [run H; by left|]. destruct (_ && _); [run H; by left|]. destruct (one_of _ _); [run H; by left|done].
Qed.

Lemma graded_grade d x rel q :
  _graded d x rel = Some q -> exists g, g ∈ d_grades d /\ g_user g = s_user x /\ g_release g = rel /\ g_au g = s_au x /\ g_scaled g = q.
Proof.
  unfold _graded. destruct (py_sorted _ _) as [|g l] eqn:E; [done|]. intros [= <-]. exists g.
  assert (Hin : g ∈ py_sorted latest_leb (List.filter (fun g => String.eqb (g_user g) (s_user x) && String.eqb (g_release g) rel && Nat.eqb (g_au g) (s_au x) && (s_launched_at x <=? g_at g)) (d_grades d)))
    by (rewrite E; set_solver).
  apply elem_of_py_sorted, list_elem_of_In, filter_In in Hin as [Hin Hf]. apply list_elem_of_In in Hin. reflect_bools.
  repeat match goal with H : String.eqb _ _ = true |- _ => apply String.eqb_eq in H | H : Nat.eqb _ _ = true |- _ => apply Nat.eqb_eq in H end. done.
Qed.
Lemma marks_none x : with_marks false false x = x.
Proof. destruct x. unfold with_marks. cbn. by rewrite !orb_false_r. Qed.
Lemma set_marks_none sid d : set_session sid (with_marks false false) d = d.
Proof.
  destruct d as [regs sessions grades results]. unfold set_session. cbn. f_equal.
  transitivity (id <$> sessions); [|apply list_fmap_id]. apply list_fmap_ext.
  intros i x _. destruct (String.eqb _ _); [apply marks_none|done].
Qed.

Definition in_session (x : session) (r : registration) (d : db) : Prop :=
  inv d /\ x ∈ d_sessions d /\ is_open x = true /\ d_regs d !! s_reg x = Some r.
Definition marked (x : session) (r : registration) (graded : option Q) (d : db) : Prop :=
  forall q, graded = Some q ->
    exists g, g ∈ d_grades d /\ g_user g = s_user x /\ g_release g = r_release r /\ g_au g = s_au x /\ g_scaled g = q.
Lemma after_spec x r runtime acc graded now :
  batch x (_view x r runtime graded) now acc ->
  spec (fun d => in_session x r d /\ marked x r graded d) (_after_statements x r acc graded now) (fun _ => inv) (fun _ => True).
Proof.
  intros Hb. unfold _after_statements. fold (state_in r (s_au x)) (reg_after x r acc graded). set (r' := reg_after x r acc graded).
  apply spec_seq with (R := fun _ d => inv (put_reg r' d)) (E' := fun _ => True); [|done|intros []].
  { apply spec_on_db. intros d ((Hi & Hx & Ho & Hr) & Hm). by eapply inv_after. }
  apply spec_seq with (R := fun _ d => inv d /\ d_regs d !! r_id r' = Some r') (E' := fun _ => True); [|done|intros []].
  { apply spec_on_db. intros d Hi. split; [done|]. cbn. apply lookup_insert_eq. }
  set (state := state_after acc graded (state_in r (s_au x))).
  assert (Hst : p_score state = p_score (state_in r' (s_au x))) by (unfold state_in, state_of, r', reg_after; cbn; by rewrite lookup_insert_eq).
  apply spec_seq with (R := fun _ d => inv d /\ exists r2, d_regs d !! r_id r' = Some r2 /\ r_release r2 = r_release r' /\
    p_score state = p_score (state_in r2 (s_au x))) (E' := fun _ => True); [|done|intros []].
  - destruct (_ || _); [|apply spec_ret; intros d [Hi Hr]; split; [done|by exists r']].
    eapply spec_seq; [apply evaluate_spec|done|intros [newly r'']]. apply spec_ret.
    intros d (d0 & sat & [Hi Hr] & -> & ->). split; [by apply inv_evaluated|]. eexists. split; [apply lookup_insert_eq|done].
  - destruct (existsb _ _); [|by apply spec_ret; intros d [Hi _]]. apply spec_on_db. intros d (Hi & r2 & Hr2 & Hrel & Hs).
    by eapply inv_result.
Qed.

Lemma request_inv o courses bearer q now : spec inv (au_request_route o courses bearer q now) (fun _ => inv) (fun _ => True).
Proof.
  eapply spec_seq; [apply auth_spec|done|intros x].
  eapply spec_seq; [apply spec_get_db with (Q := fun d' d => (inv d /\ x ∈ d_sessions d /\ is_open x = true) /\ d' = d) (E := fun _ => True); auto|done|intros d'].
  destruct (d_regs d' !! s_reg x) as [r|] eqn:Er; [|by apply spec_raise].
  apply spec_pre with (P := in_session x r); [by intros d [(Hi & Hx & Ho) ->]|].
  eapply spec_seq; [apply spec_get_db with (Q := fun d1 d => in_session x r d /\ d1 = d) (E := fun _ => True); auto|done|intros d1].
  destruct (d_regs d1 !! s_reg x) as [r1|] eqn:Er1; [|by apply spec_raise].
  eapply spec_seq; [apply spec_quiet, quiet_entitled|done|intros []].
  set (g := if String.eqb _ "statements" then _graded d1 x (rel_id (release_of courses r)) else None).
  assert (Hr1 : forall d, in_session x r d /\ d1 = d -> r1 = r /\ marked x r g d).
  { intros d [(Hi & Hx & Ho & Hr) ->]. split; [congruence|]. intros sc Hsc. subst g. destruct (String.eqb _ _); [|done].
    by apply graded_grade. }
  eapply spec_seq; [apply (spec_value _ _ _ (quiet_allow _ _ _ _ _) (allow_ok _ _ _ _ _))|done|intros a]. apply spec_pure. intros Ha.
  eapply spec_seq; [apply spec_quiet, quiet_credential|done|intros []].
  eapply spec_seq; [apply spec_quiet, quiet_lrs|done|intros resp].
  apply spec_seq with (R := fun _ => inv) (E' := fun _ => True); [|done|intros []].
  2: { apply spec_seq with (R := fun _ => inv) (E' := fun _ => True); [|done|intros []; by apply spec_ret].
       destruct (_ && _); [|by apply spec_ret]. apply spec_on_db. intros d Hi. by apply inv_marks. }
  destruct (success resp.1); [|apply spec_ret; by intros d [(? & _) _]].
  case_bool_decide as Hacc.
  - eapply spec_seq; [apply spec_on_db with (Q := fun _ => inv) (E := fun _ => True)|done|intros []; by apply spec_ret].
    intros d [(Hi & _) _]. by apply inv_marks.
  - destruct Ha as [Ha|(Hl & Hp & sts & Hsts)]; [done|]. rewrite Hl.
    apply spec_seq with (R := fun _ d => in_session x r d /\ d1 = d) (E' := fun _ => True); [|done|intros []].
    { apply spec_on_db. intros d Hd. by rewrite set_marks_none. }
    intros s Hs. destruct (Hr1 _ Hs) as [-> Hm]. destruct Hs as [Hs _]. pose proof Hs as (Hi & Hx & Ho & Hr).
    apply (after_spec x r (au_runtime_id iri_base (rel_id (release_of courses r)) (s_au x)) (w_accepted a) g now) with (s := s); [|by split].
    eapply batch_all; [by apply (iv_legal _ Hi)|done| |exact Hsts]. apply batch_nil; [by apply (iv_legal _ Hi)|done].
Qed.

(** ** Steps *)

(** One transaction, on a platform that may differ from step to step within [ok]; or the LRS moves on. *)
Inductive step (ok : platform -> Prop) (courses : string -> string) (s : st) : st -> Prop :=
| step_launch o now user rid i mode sid secret e1 e2 :
    ok o -> sid ∉ (s_id <$> d_sessions (t_db s)) ->
    step ok courses s (commit (launch o now user (Release rid (courses rid)) i mode sid secret e1 e2) s)
| step_fetch secret token now : step ok courses s (commit (fetch secret token now) s)
| step_request o bearer q now : ok o -> step ok courses s (commit_ok (au_request_route o courses bearer q now) s)
| step_waive k r i reason sid now :
    d_regs (t_db s) !! k = Some r -> step ok courses s (commit_ok (waive r (release_of courses r) i reason sid now) s)
| step_abandon x r now :
    x ∈ d_sessions (t_db s) -> d_regs (t_db s) !! s_reg x = Some r -> step ok courses s (commit_ok (abandon x (release_of courses r) now) s)
| step_grade o user rid i answers now :
    ok o -> step ok courses s (commit_ok (grade_quiz o user (Release rid (courses rid)) i answers now) s)
| step_lrs l : step ok courses s (St (t_db s) l).

Definition reachable (ok : platform -> Prop) (courses : string -> string) (s : st) : Prop :=
  exists l, rtc (step ok courses) (St (Db ∅ [] [] []) l) s.

Lemma commit_spec {A} (P Q : db -> Prop) (m : M A) s : spec P m (fun _ => Q) Q -> P (t_db s) -> Q (t_db (commit m s)).
Proof. intros H Hs. specialize (H s Hs). unfold commit. by destruct (m s) as [[a|e] s']. Qed.
Lemma commit_ok_spec {A} (P Q E : db -> Prop) (m : M A) s :
  spec P m (fun _ => Q) E -> P (t_db s) -> Q (t_db s) -> Q (t_db (commit_ok m s)).
Proof. intros H Hs Hq. specialize (H s Hs). unfold commit_ok. by destruct (m s) as [[a|e] s']. Qed.

Lemma transaction_inv ok courses s s' : step ok courses s s' -> inv (t_db s) -> inv (t_db s').
Proof.
  intros [] Hi; try done.
  - by eapply commit_spec; [apply launch_inv|].
  - by eapply commit_spec; [apply fetch_inv|].
  - by eapply commit_ok_spec; [apply request_inv|..].
  - eapply commit_ok_spec; [apply (waive_inv (t_db s) r (release_of courses r)); [done|by rewrite (iv_keys _ Hi _ _ H)]|done|done].
  - apply (commit_ok_spec (fun d => inv d /\ x ∈ d_sessions d) inv (fun _ => True)); [|done|done].
    eapply spec_weaken; [apply abandon_spec|intros d H1; exact H1| |done].
    intros [] d (d0 & [Hd Hx] & ->). destruct (is_open x) eqn:Ho; [by apply inv_abandoned|done].
  - by eapply commit_ok_spec; [apply grade_inv|..].
Qed.
Lemma run_inv ok courses s : reachable ok courses s -> inv (t_db s).
Proof.
  intros (l & Hs). cut (inv (t_db (St (Db ∅ [] [] []) l))); [|apply tables_empty_inv].
  induction Hs as [|s1 s2 s3 Hst _ IH]; [done|]. intros Hi. by eapply IH, transaction_inv.
Qed.

(** ** Marks within a day *)

Definition counts (u rel : string) (i : nat) (t : Z) (g : grade) : bool :=
  String.eqb (g_user g) u && String.eqb (g_release g) rel && Nat.eqb (g_au g) i && (t <=? g_at g) && (g_at g <=? t + HOURS_24).
Lemma filter_length_mono {A} (p q : A -> bool) l :
  (forall x, p x = true -> q x = true) -> (length (List.filter p l) <= length (List.filter q l))%nat.
Proof.
  intros H. induction l as [|x l IH]; cbn; [done|]. destruct (p x) eqn:Ep; [rewrite (H x Ep); cbn; lia|]. destruct (q x); cbn; lia.
Qed.
Definition limited (u : string) (gs : list grade) : Prop :=
  forall rel i t, (length (List.filter (counts u rel i t) gs) <= Nat.max attempts 1)%nat.
Lemma limited_other u gs g : g_user g <> u -> limited u gs -> limited u (gs ++ [g]).
Proof.
  intros Hne Hl rel i t. rewrite List.filter_app. cbn [List.filter]. unfold counts at 2. apply String.eqb_neq in Hne. rewrite Hne. cbn.
  rewrite app_nil_r. apply Hl.
Qed.
Lemma limited_used d u rel i q now :
  (used_attempts d u rel i now < Nat.max attempts 1)%nat -> limited u (d_grades d) -> limited u (d_grades d ++ [Grade u rel i q now]).
Proof.
  intros Hu Hl rel' i' t. rewrite List.filter_app, length_app. specialize (Hl rel' i' t). cbn [List.filter].
  destruct (counts u rel' i' t (Grade u rel i q now)) eqn:E; cbn; [|lia]. unfold counts in E. cbn in E. reflect_bools.
  match goal with H : String.eqb rel rel' = true |- _ => apply String.eqb_eq in H as <- end.
  match goal with H : Nat.eqb i i' = true |- _ => apply Nat.eqb_eq in H as <- end.
  enough (length (List.filter (counts u rel i t) (d_grades d)) <= used_attempts d u rel i now)%nat by lia.
  apply filter_length_mono. intros g Hg. unfold counts in Hg. reflect_bools.
  repeat (apply andb_true_iff; split); try done. apply Z.leb_le. lia.
Qed.

(** Computations that leave the marks as they are. *)
Definition stable {A} (m : M A) : Prop := forall s, d_grades (t_db (m s).2) = d_grades (t_db s).
Lemma stable_bind {A B} (m : M A) (f : A -> M B) : stable m -> (forall a, stable (f a)) -> stable (bind m f).
Proof. intros Hm Hf s. unfold bind. specialize (Hm s). destruct (m s) as [[a|e] s']; [|done]. by rewrite (Hf a). Qed.
Lemma stable_quiet {A} (m : M A) : quiet m -> stable m.
Proof. intros H s. by rewrite H. Qed.
Lemma stable_on_db f : (forall d, d_grades (f d) = d_grades d) -> stable (on_db f).
Proof. intros H s. apply H. Qed.
Lemma stable_evaluate r sid now : stable (evaluate r sid now).
Proof. apply stable_bind; [apply stable_quiet, quiet_package|]. by intros cs s. Qed.
Create HintDb stable discriminated.
Ltac stable := repeat first
  [ solve [auto with stable] | apply stable_evaluate | apply stable_bind; [|intros ?] | apply stable_on_db; done
  | apply stable_quiet; first [apply quiet_ret | apply quiet_raise | apply quiet_need | apply quiet_get_db | apply quiet_lrs | apply quiet_put
      | apply quiet_document | apply quiet_package | apply quiet_credential | apply quiet_enrolment | apply quiet_entitled | apply quiet_allow | apply quiet_authenticate]
  | case_match ].
Lemma stable_abandon x rel now : stable (abandon x rel now).
Proof. unfold abandon. stable. Qed.
Lemma stable_abandon_all l rel now : stable (abandon_all l rel now).
Proof. induction l as [|x l IH]; cbn [abandon_all]; [stable|]. apply stable_bind; [apply stable_abandon|done]. Qed.
Hint Resolve stable_abandon_all : stable.
Lemma stable_launch o now user rel i mode sid secret e1 e2 : stable (launch o now user rel i mode sid secret e1 e2).
Proof. unfold launch, registration_of, _save. stable. Qed.
Lemma stable_fetch secret token now : stable (fetch secret token now).
Proof. unfold fetch. stable. Qed.
Lemma stable_request o courses bearer q now : stable (au_request_route o courses bearer q now).
Proof. unfold au_request_route, proxy, _after_statements, _save. stable. Qed.
Lemma stable_waive r rel i reason sid now : stable (waive r rel i reason sid now).
Proof. unfold waive, _save. stable. Qed.
Lemma stable_commit {A} (m : M A) s : stable m -> d_grades (t_db (commit m s)) = d_grades (t_db s).
Proof. intros H. apply H. Qed.
Lemma stable_commit_ok {A} (m : M A) s : stable m -> d_grades (t_db (commit_ok m s)) = d_grades (t_db s).
Proof. intros H. unfold commit_ok. specialize (H s). by destruct (m s) as [[a|e] s']. Qed.

Lemma grade_limited u o user rel i answers now :
  o_author o u = false -> spec (fun d => limited u (d_grades d)) (grade_quiz o user rel i answers now) (fun _ d => limited u (d_grades d)) (fun _ => True).
Proof.
  intros Ha. set (L := fun d => limited u (d_grades d)).
  apply spec_seq with (R := fun _ d => L d /\ (user = u -> (used_attempts d u (rel_id rel) i now < Nat.max attempts 1)%nat)) (E' := fun _ => True); [|done|intros []].
  { destruct (o_author o user) eqn:Eo; [apply spec_ret; intros d Hd; split; [done|congruence]|].
    eapply spec_seq; [apply (spec_quiet L), quiet_enrolment|done|intros e].
    eapply spec_seq; [apply spec_get_db with (Q := fun d' d => L d /\ d' = d) (E := L); auto|done|intros d].
    apply spec_need; [|done]. intros Hn d' [Hd ->]. split; [done|]. intros ->. reflect_bools. apply Nat.leb_gt in Hn. done. }
  eapply spec_seq; [apply spec_quiet, quiet_package|done|intros cs].
  eapply spec_seq; [apply spec_quiet, quiet_need|done|intros []].
  repeat case_match; try by apply spec_raise.
  eapply spec_seq; [apply spec_on_db with (Q := fun _ => L) (E := fun _ => True)|done|intros []; by apply spec_ret].
  intros d [Hd Hu]. unfold L. cbn. destruct (decide (user = u)) as [->|Hne]; [by apply limited_used, Hd; apply Hu|by apply limited_other].
Qed.
Lemma step_limited u ok courses s s' :
  (forall o, ok o -> o_author o u = false) -> step ok courses s s' -> limited u (d_grades (t_db s)) -> limited u (d_grades (t_db s')).
Proof.
  intros Hok [] Hl; try done.
  - by rewrite stable_commit by apply stable_launch.
  - by rewrite stable_commit by apply stable_fetch.
  - by rewrite stable_commit_ok by apply stable_request.
  - by rewrite stable_commit_ok by apply stable_waive.
  - by rewrite stable_commit_ok by apply stable_abandon.
  - by eapply (commit_ok_spec (fun d => limited u (d_grades d)) (fun d => limited u (d_grades d))); [apply grade_limited, Hok|..].
Qed.

(** ** What a unit reaches of the LRS *)

(** The [agent] of a request is the Student: an Agent with the account [launch] gave the unit, and no other identity. *)
Definition of_student (x : session) (q : request) : Prop :=
  exists agent, assoc "agent" (q_params q) = Some agent /\
    get "homePage" (get "account" agent) = JStr home /\ get "name" (get "account" agent) = JStr (strip (s_user x)) /\
    has "mbox" agent = false /\ has "mbox_sha1sum" agent = false /\ has "openid" agent = false.
(** A request as a unit of session [x] of registration [r] may have it forwarded. *)
Inductive confined (x : session) (r : registration) (q : request) : Prop :=
| cf_about : q_method q = "GET"%string -> q_resource q = "about"%string -> confined x r q
| cf_agent : q_method q = "GET"%string -> q_resource q ∈ ["agents"; "agents/profile"]%string -> of_student x q -> confined x r q
| cf_own_read : q_method q = "GET"%string -> q_resource q ∈ ["activities"; "activities/profile"]%string ->
    assoc "activityId" (q_params q) = Some (JStr (au_runtime_id iri_base (r_release r) (s_au x))) -> confined x r q
| cf_state : q_resource q = "activities/state"%string -> of_student x q ->
    assoc "activityId" (q_params q) = Some (JStr (au_runtime_id iri_base (r_release r) (s_au x))) ->
    assoc "registration" (q_params q) = Some (JStr (r_id r)) ->
    (q_method q = "GET"%string \/ exists id, id <> "" /\ id <> "LMS.LaunchData"%string /\ assoc "stateId" (q_params q) = Some (JStr id)) ->
    confined x r q
| cf_statements graded sts j : q_resource q = "statements"%string -> q_method q ∈ ["POST"; "PUT"]%string -> q_body q = Payload j ->
    sts <> [] -> (j = JList (drop_server_set <$> sts) \/ exists st, sts = [st] /\ j = drop_server_set st) ->
    Forall (fun st => exists earlier v, check st (_view x r (au_runtime_id iri_base (r_release r) (s_au x)) graded) earlier = Ok v) sts ->
    confined x r q.

Lemma check_all_each view sts : forall acc acc', check_all view sts acc = Ok acc' -> Forall (fun st => exists earlier v, check st view earlier = Ok v) sts.
Proof.
  induction sts as [|st sts IH]; intros acc acc' H; cbn [check_all] in H; [constructor|]. ok_steps H.
  constructor; [by eexists _, _|by eapply IH].
Qed.
Lemma assoc_params k q : k <> "agent"%string -> assoc k (sent_params q) = JStr <$> assoc k (a_params q).
Proof.
  intros Hk. assert (Ha : forall l : list (string * string), assoc k ((fun kv => (kv.1, JStr kv.2)) <$> l) = JStr <$> assoc k l).
  { induction l as [|[k' v] l IH]; [done|]. cbn. by destruct (String.eqb k k'). }
  apply String.eqb_neq in Hk. unfold sent_params. destruct (a_agent q) as [[]|]; cbn; rewrite ?Hk; apply Ha.
Qed.
Lemma param_is_eq q k v : param_is q k v = true -> assoc k (a_params q) = Some v.
Proof. unfold param_is. destruct (assoc k (a_params q)); [|done]. by intros ->%String.eqb_eq. Qed.
Lemma has_param_eq q k : has_param q k = true -> exists v, v <> "" /\ assoc k (a_params q) = Some v.
Proof. unfold has_param. destruct (assoc k (a_params q)) as [v|]; [|done]. intros H. exists v. split; [|done]. intros ->. done. Qed.

(** The resource as it is forwarded. *)
Definition resource_of (q : au_request) : string := rstrip_if is_slash (lstrip_if is_slash (a_resource q)).
#[local] Notation forwarded q content status stored :=
  (Request true (a_method q) (resource_of q) (sent_params q) content status stored).
Lemma statements_confined q x r g accepted j status stored :
  resource_of q = "statements"%string -> a_method q ∈ ["POST"; "PUT"]%string ->
  _check_statements q (_view x r (au_runtime_id iri_base (r_release r) (s_au x)) g) = Ok (accepted, j) ->
  confined x r (forwarded q (Payload j) status stored).
Proof.
  intros Hr Hm Hc. unfold _check_statements in Hc.
  assert (Hj : exists payload, let sts := match payload with JList l => l | _ => [payload] end in
    sts <> [] /\ check_all (_view x r (au_runtime_id iri_base (r_release r) (s_au x)) g) sts [] = Ok accepted /\
    j = match payload with JList l => JList (drop_server_set <$> l) | _ => drop_server_set payload end).
  { destruct (a_body q) as [|t b|payload]; [exists JNull|done|exists payload]; ok_steps Hc; injection Hc as <- <-; reflect_bools; done. }
  destruct Hj as (payload & Hne & Hall & ->). eapply (cf_statements _ _ _ g); cbn; [done|done|done|exact Hne| |by eapply check_all_each].
  destruct payload; (by left) || (right; by eexists).
Qed.

Lemma agent_student q x content status stored s a s' :
  _agent_param q (s_user x) s = (Ok a, s') -> of_student x (forwarded q content status stored) /\ s' = s.
Proof.
  unfold _agent_param. destruct (a_agent q) as [[agent|t]|] eqn:Ea; try done. intros H. run H. split; [|done].
  exists agent. unfold sent_params. cbn. rewrite Ea. split; [done|].
  apply (same_actor_account _ (actor_account (s_user x))). congruence.
Qed.
Ltac by_param := cbn [q_params]; rewrite assoc_params by done; match goal with H : assoc ?k _ = Some _ |- context [assoc ?k _] => by rewrite H end.
Lemma allow_confined q x r g s a s' status stored :
  allow q x r (au_runtime_id iri_base (r_release r) (s_au x)) g s = (Ok a, s') -> confined x r (forwarded q (w_body a) status stored).
Proof.
  unfold allow. fold (resource_of q). intros H. unfold is_get in H.
  destruct (_ && _) eqn:E1; [apply andb_true_iff in E1 as [E1%String.eqb_eq E2%String.eqb_eq]; by apply cf_about|].
  destruct (String.eqb_spec (resource_of q) "statements") as [E2|_].
  { run H. rename Ha0 into Hc. cbn [w_body]. destruct a1 as [accepted j].
    eapply statements_confined; [done|by apply one_of_true|exact Hc]. }
  destruct (String.eqb_spec (resource_of q) "activities/state") as [E3|_].
  { run H. repeat match goal with H : param_is _ _ _ = true |- _ => apply param_is_eq in H end.
    apply cf_state; cbn [q_resource q_method]; [done|by eapply agent_student|by_param|by_param|].
    destruct (String.eqb_spec (a_method q) "GET") as [E4|E4]; [by left|right].
    match goal with H : has_param _ _ || _ = true |- _ => rewrite orb_false_r in H; apply has_param_eq in H as (v & Hv & Hs) end.
    exists v. split; [done|]. split; [|by_param]. intros ->. unfold param_is in H. rewrite Hs in H. by run H. }
  destruct (String.eqb_spec (resource_of q) "agents/profile") as [E4|_].
  { run H. apply cf_agent; cbn [q_resource q_method]; [by apply String.eqb_eq|rewrite E4; in_list|by eapply agent_student]. }
  destruct (String.eqb_spec (resource_of q) "agents") as [E5|_].
  { destruct (String.eqb_spec (a_method q) "GET") as [E6|E6]; cbn [andb] in H.
    - run H. apply cf_agent; cbn [q_resource q_method]; [done|rewrite E5; in_list|by eapply agent_student].
    - rewrite E5 in H. by vm_compute (one_of _ _) in H. }
  cbn [andb] in H. destruct (one_of _ _) eqn:E6; [|done]. apply one_of_true in E6. run H.
  match goal with H : param_is _ _ _ = true |- _ => apply param_is_eq in H end.
  apply cf_own_read; cbn [q_resource q_method]; [by apply String.eqb_eq|done|by_param].
Qed.

(** ** What is added to the log *)

Section Logged.
Context (P : request -> Prop) (Hown : forall q, q_from_au q = false -> P q).
Definition log_grows (l l' : lrs) : Prop := exists rs, l_log l' = l_log l ++ rs /\ Forall P rs.
Definition logged {A} (m : M A) : Prop := forall s, log_grows (t_lrs s) (t_lrs (m s).2).
Lemma log_refl l : log_grows l l.
Proof. exists []. by rewrite app_nil_r. Qed.
Lemma log_trans l1 l2 l3 : log_grows l1 l2 -> log_grows l2 l3 -> log_grows l1 l3.
Proof. intros (rs & H1 & F1) (rs' & H2 & F2). exists (rs ++ rs'). rewrite H2, H1, app_assoc. split; [done|]. by apply Forall_app. Qed.
Lemma logged_bind {A B} (m : M A) (f : A -> M B) : logged m -> (forall a s s', m s = (Ok a, s') -> log_grows (t_lrs s') (t_lrs (f a s').2)) -> logged (bind m f).
Proof.
  intros Hm Hf s. unfold bind. specialize (Hm s). destruct (m s) as [[a|e] s'] eqn:E; [|done].
  eapply log_trans; [exact Hm|by eapply Hf].
Qed.
Lemma logged_seq {A B} (m : M A) (f : A -> M B) : logged m -> (forall a, logged (f a)) -> logged (bind m f).
Proof. intros Hm Hf. apply logged_bind; [done|]. intros a s s' _. apply Hf. Qed.
Lemma logged_ret {A} (a : A) : logged (ret a). Proof. intros s. apply log_refl. Qed.
Lemma logged_raise {A} e : logged (raise_ (A := A) e). Proof. intros s. apply log_refl. Qed.
Lemma logged_need b e : logged (need b e). Proof. destruct b; intros s; apply log_refl. Qed.
Lemma logged_get_db : logged get_db. Proof. intros s. apply log_refl. Qed.
Lemma logged_on_db f : logged (on_db f). Proof. intros s. apply log_refl. Qed.
Lemma logged_rules {A} (r : result refusal A) : logged (of_rules r). Proof. destruct r; intros s; apply log_refl. Qed.
Lemma logged_lrs au m r p b : (forall status stored, P (Request au m r p b status stored)) -> logged (_lrs au m r p b).
Proof.
  intros HP s. unfold _lrs. destruct (l_answers (t_lrs s)) as [|[|status stored] rest]; cbn; [apply log_refl|exists []; cbn; by rewrite app_nil_r|].
  eexists. split; [done|]. by constructor.
Qed.
Hint Resolve logged_ret logged_raise logged_need logged_get_db logged_on_db logged_rules : logged.
Ltac logged := repeat first [solve [auto with logged] | apply logged_lrs; intros ? ?; by apply Hown | apply logged_seq; [|intros ?] | case_match].
Lemma logged_put stmt : logged (put_statement stmt). Proof. unfold put_statement. logged. Qed.
Hint Resolve logged_put : logged.
Lemma logged_entitled o r rel : logged (_still_entitled o r rel). Proof. unfold _still_entitled. logged. Qed.
Lemma logged_agent q u : logged (_agent_param q u). Proof. unfold _agent_param. logged. Qed.
Lemma logged_package rel : logged (get_package rel). Proof. unfold get_package. logged. Qed.
Lemma logged_credential o : logged (au_credential o). Proof. unfold au_credential. logged. Qed.
Lemma logged_authenticate b now : logged (authenticate b now). Proof. unfold authenticate. logged. Qed.
Hint Resolve logged_entitled logged_agent logged_package logged_credential logged_authenticate : logged.
Lemma logged_allow q x r runtime g : logged (allow q x r runtime g). Proof. unfold allow. logged. Qed.
Hint Resolve logged_allow : logged.

Lemma log_send stmt l : log_grows l (_send_satisfied stmt l).2.
Proof. unfold _send_satisfied. pose proof (logged_put stmt (St (Db ∅ [] [] []) l)) as H. destruct (put_statement _ _) as [[a|e] s']; exact H. Qed.
Lemma log_record key stmt w : log_grows (k_lrs w) (k_lrs (record_key key stmt w)).
Proof.
  unfold record_key. case_bool_decide; [apply log_refl|]. pose proof (log_send stmt (k_lrs w)) as Hx.
  destruct (_send_satisfied stmt (k_lrs w)) as [[] l]; exact Hx.
Qed.
Lemma log_node cs aus r sid now fuel : forall ch w, log_grows (k_lrs w) (k_lrs (node_ok cs aus r sid now fuel ch w).2).
Proof.
  induction fuel as [|fuel IH]; intros [i|i] w; cbn [node_ok]; try apply log_refl.
  destruct (c_blocks cs !! i) as [b|]; [|apply log_refl].
  assert (H : log_grows (k_lrs w) (k_lrs (all_ok (node_ok cs aus r sid now fuel) (b_children b) w).2)).
  { generalize (b_children b). intros l. revert w; induction l as [|ch l IHl]; intros w; cbn [all_ok]; [apply log_refl|].
    specialize (IH ch w). destruct (node_ok _ _ _ _ _ fuel ch w) as [[] w1]; [|exact IH]. eapply log_trans; [exact IH|apply IHl]. }
  destruct (all_ok _ _ w) as [[] w1]; [|exact H]. eapply log_trans; [exact H|apply log_record].
Qed.
Lemma log_walk cs aus r sid now satisfied l : log_grows l (k_lrs (evaluate_walk cs aus r sid now satisfied l)).
Proof.
  unfold evaluate_walk. assert (H : forall chs w, log_grows (k_lrs w) (k_lrs (each_ok cs aus r sid now (length (c_blocks cs)) chs w).2)).
  { induction chs as [|ch chs IH]; intros w; cbn [each_ok]; [apply log_refl|].
    pose proof (log_node cs aus r sid now (length (c_blocks cs)) ch w) as H1. destruct (node_ok _ _ _ _ _ _ ch w) as [ok w1].
    specialize (IH w1). destruct (each_ok _ _ _ _ _ _ chs w1) as [rest w2]. by eapply log_trans. }
  specialize (H (c_children cs) (Walk (fromkeys satisfied) [] l)). destruct (each_ok _ _ _ _ _ _ _ _) as [[] w]; [|exact H].
  eapply log_trans; [exact H|apply log_record].
Qed.
Lemma logged_evaluate r sid now : logged (evaluate r sid now).
Proof. apply logged_seq; [apply logged_package|]. intros cs s. apply log_walk. Qed.
Hint Resolve logged_evaluate : logged.
Lemma logged_after x r acc g now : logged (_after_statements x r acc g now).
Proof. unfold _after_statements, _save. logged. Qed.
End Logged.

Lemma quiet_same {A} (m : M A) s a s' : quiet m -> m s = (Ok a, s') -> t_db s' = t_db s.
Proof. intros H Hm. specialize (H s). by rewrite Hm in H. Qed.

(** The session a bearer holds: it names it, has its token, and it is open and not expired. *)
Definition bearer_of (d : db) (bearer : option (string * string)) (now : Z) (x : session) : Prop :=
  x ∈ d_sessions d /\ is_open x = true /\ now <= s_expires_at x /\
  exists token, bearer = Some (s_id x, token) /\ s_token_hash x = Some (sha256 token).
Lemma auth_bearer bearer now s x s' : authenticate bearer now s = (Ok x, s') -> bearer_of (t_db s) bearer now x.
Proof.
  unfold authenticate. destruct bearer as [[sid token]|]; [|done]. unfold bind at 1. cbn.
  destruct (List.find _ _) as [x0|] eqn:Ef; [|done]. apply List.find_some in Ef as [Hx Hid%String.eqb_eq]. apply list_elem_of_In in Hx.
  intros H. run H. reflect_bools. split; [done|]. split; [unfold is_open; apply bool_decide_eq_true; destruct (s_state x0); try done; in_list|].
  split; [lia|]. exists token. by subst sid.
Qed.
Definition reaches (d : db) (bearer : option (string * string)) (now : Z) (rq : request) : Prop :=
  q_from_au rq = true -> exists x r, bearer_of d bearer now x /\ d_regs d !! s_reg x = Some r /\ confined x r rq.
Lemma request_reaches o courses bearer q now s :
  log_grows (reaches (t_db s) bearer now) (t_lrs s) (t_lrs (au_request_route o courses bearer q now s).2).
Proof.
  assert (Hown : forall rq, q_from_au rq = false -> reaches (t_db s) bearer now rq) by (intros rq H H'; congruence).
  revert s Hown. intros s0 Hown. unfold au_request_route, bind at 1.
  pose proof (auth_bearer bearer now s0) as Hx.
  pose proof (logged_authenticate (reaches (t_db s0) bearer now) bearer now s0) as Hlog.
  pose proof (quiet_authenticate bearer now s0) as Hq. destruct (authenticate bearer now s0) as [[x|e] s1]; [|exact Hlog]. cbn in Hq, Hlog.
  eapply log_trans; [exact Hlog|]. specialize (Hx _ _ eq_refl). unfold bind at 1. cbn.
  destruct (d_regs (t_db s1) !! s_reg x) as [r|] eqn:Er; [|apply log_refl]. rewrite Hq in Er. unfold proxy, bind at 1. cbn.
  rewrite Hq, Er.
  match goal with |- log_grows _ _ (t_lrs (?m s1).2) => cut (logged (reaches (t_db s0) bearer now) m); [intros H; apply H|] end.
  apply logged_seq; [apply logged_entitled|intros []]. apply logged_bind; [by apply logged_allow|]. intros a s2 s3 Ha.
  match goal with |- log_grows _ _ (t_lrs (?m s3).2) => cut (logged (reaches (t_db s0) bearer now) m); [intros H; apply H|] end.
  apply logged_seq; [apply logged_credential|intros []]. apply logged_seq.
  { apply logged_lrs. intros status stored _. exists x, r. split; [done|]. split; [done|]. by eapply allow_confined. }
  intros resp. apply logged_seq.
  { destruct (success resp.1); [|apply logged_ret]. apply logged_seq; [apply logged_on_db|intros []].
    destruct (bool_decide (w_accepted a = [])); [apply logged_ret|by apply logged_after]. }
  intros []. apply logged_seq; [destruct (w_prefs a && _); [apply logged_on_db|apply logged_ret]|intros []; apply logged_ret].
Qed.
End Runs.

(** ** The properties *)

(** C33: whatever is launched, fetched, sent, waived, abandoned and marked, one transaction at a time, and whatever
    the LRS answers: the cmi5-defined verbs of every session are in order, initialized first and terminated last,
    each at most once and never both passed and failed, and agree with its state; a registration has at most one
    open session; and of one unit, at most one session of a registration ever says completed, and at most one
    passed. *)
Theorem sessions_in_order {cfg : Config} ok courses s :
  reachable ok courses s ->
  (forall x, x ∈ d_sessions (t_db s) -> legal (s_state x) (s_sent x)) /\
  (forall x y, x ∈ d_sessions (t_db s) -> y ∈ d_sessions (t_db s) -> s_reg x = s_reg y -> is_open x = true -> is_open y = true -> x = y) /\
  (forall x y verb, x ∈ d_sessions (t_db s) -> y ∈ d_sessions (t_db s) -> s_reg x = s_reg y -> s_au x = s_au y ->
    verb ∈ [COMPLETED; PASSED] -> verb ∈ s_sent x -> verb ∈ s_sent y -> x = y).
Proof. intros Hr. destruct (run_inv _ _ _ Hr) as [_ _ _ H4 _ H6 H7 _]. done. Qed.

(** C34: a unit that a registration has passed was marked by TrueNorth: there is a mark of the Student's for this
    unit of this release, and where the unit has a mastery score the mark is no more than a ten-thousandth below it. *)
Theorem passed_earned {cfg : Config} ok courses s k r i :
  reachable ok courses s -> d_regs (t_db s) !! k = Some r -> p_passed (state_in r i) = true -> earned (t_db s) r i.
Proof. intros Hr. apply (iv_earned _ (run_inv _ _ _ Hr)). Qed.

(** C37: a score is a mark: every score a registration has for a unit, and every one handed on for a gradebook, is one
    TrueNorth gave the Student for this unit of this release; never what the unit reports. *)
Theorem scores_are_marks {cfg : Config} ok courses s :
  reachable ok courses s ->
  (forall k r i q, d_regs (t_db s) !! k = Some r -> p_score (state_in r i) = Some q -> scored (t_db s) r i q) /\
  (forall row q, row ∈ d_results (t_db s) -> p_score (q_state row) = Some q ->
    exists r, d_regs (t_db s) !! q_reg row = Some r /\ r_release r = q_release row /\ scored (t_db s) r (q_au row) q).
Proof. intros Hr. pose proof (run_inv _ _ _ Hr) as Hi. split; [apply (iv_scored _ Hi)|apply (iv_results _ Hi)]. Qed.

(** C35: a Student who never may author courses gets no more marks of one unit in any 24 hours than the limit,
    however the requests' clocks relate. *)
Theorem marks_limited {cfg : Config} ok courses s u rel i t :
  (forall o, ok o -> o_author o u = false) -> reachable ok courses s ->
  (length (List.filter (counts u rel i t) (d_grades (t_db s))) <= Nat.max attempts 1)%nat.
Proof.
  intros Hok (l & Hs). cut (limited u (d_grades (t_db s))); [by intros H|].
  cut (limited u (d_grades (t_db (St (Db ∅ [] [] []) l)))); [|intros ? ? ?; cbn; lia].
  induction Hs as [|s1 s2 s3 Hst _ IH]; [done|]. intros Hl. by eapply IH, step_limited.
Qed.

(** C36: a bearer reaches nothing of the LRS but its own session's: what a request adds under the unit's credential
    is made for the session the bearer names and has the token of, while that session is open and not expired, and
    it is a read of what any unit may read, a read of what the LRS holds of its own Student, a read of its own
    activity, a State document of its own Student, activity and registration other than the launch data, or
    statements the rules accept of this session without what the LRS sets. *)
Theorem unit_confined {cfg : Config} o courses bearer q now s :
  exists rs, l_log (t_lrs (au_request_route o courses bearer q now s).2) = l_log (t_lrs s) ++ rs /\
    forall rq, rq ∈ rs -> q_from_au rq = true -> exists x r, bearer_of (t_db s) bearer now x /\
      d_regs (t_db s) !! s_reg x = Some r /\ confined x r rq.
Proof.
  destruct (request_reaches o courses bearer q now s) as (rs & Hl & Hf).
  exists rs. split; [done|]. intros rq Hrq. rewrite Forall_forall in Hf. by apply Hf.
Qed.

(** ** A run *)

Definition demo_platform : platform := Platform [Enrolment "r1" "u1" "k1" false] (fun _ => Some "c1"%string) (fun _ => Some true) (fun _ => false) true.
Definition demo_courses (_ : string) : string := "k1".
Definition demo_start : st := St (Db ∅ [] [] []) (Lrs (replicate 40 (Answer 200 None)) []).
#[local] Existing Instance demo_config.
Definition demo_release : release := Release "c1" (demo_courses "c1").
Definition demo_agent : option agent_text := Some (AgentJson (actor "u1")).
Definition demo_ask (now : Z) (method resource : string) (params : list (string * string)) (content : body) : st -> st :=
  commit_ok (au_request_route demo_platform demo_courses (Some ("s1", "token")%string) (AuRequest method resource params demo_agent content) now).
Definition demo_says (id verb : string) : body :=
  Payload (au_statement (View (actor_account "u1") "r1" "s1" (au_runtime_id iri_base "c1" 0) (launch_template "a0" "s1") "Normal" (Some (8 # 10)%Q)
    true false true [] false false [] true (Some 1%Q)) "a0" id "2026-01-05T10:00:00Z" verb 1).

Definition demo_launched : st := commit (launch demo_platform 0 "u1" demo_release 0 None "s1" "secret" "e1" "e2") demo_start.
Definition demo_fetched : st := commit (fetch "secret" "token" SECOND) demo_launched.
Definition demo_prefs : st := demo_ask SECOND "GET" "agents/profile" [("profileId", "cmi5LearnerPreferences")]%string NoBody demo_fetched.
Definition demo_started : st := demo_ask SECOND "POST" "statements" [] (demo_says "id1" INITIALIZED) demo_prefs.
Definition demo_marked : st := commit_ok (grade_quiz demo_platform "u1" demo_release 0 [("q1", " a "); ("q2", "B")]%string (2 * SECOND)) demo_started.
Definition demo_judged : st := demo_ask (3 * SECOND) "POST" "statements" [] (demo_says "id2" PASSED) demo_marked.

Definition demo_ok (o : platform) : Prop := o = demo_platform.
Lemma marked_reachable : reachable demo_ok demo_courses demo_marked.
Proof.
  exists (t_lrs demo_start).
  apply (rtc_l _ demo_start demo_launched).
  { apply (step_launch _ _ demo_start demo_platform 0 "u1" "c1" 0 None "s1" "secret" "e1" "e2"); [done|apply not_elem_of_nil]. }
  apply (rtc_l _ _ demo_fetched); [apply (step_fetch _ _ demo_launched "secret" "token" SECOND)|].
  apply (rtc_l _ _ demo_prefs); [by apply (step_request _ _ demo_fetched demo_platform)|].
  apply (rtc_l _ _ demo_started); [by apply (step_request _ _ demo_prefs demo_platform)|].
  apply (rtc_l _ _ demo_marked), rtc_refl.
  by apply (step_grade _ _ demo_started demo_platform "u1" "c1" 0 [("q1", " a "); ("q2", "B")]%string (2 * SECOND)).
Qed.
Lemma judged_reachable : reachable demo_ok demo_courses demo_judged.
Proof.
  destruct marked_reachable as [l H]. exists l. eapply rtc_r; [exact H|].
  by apply (step_request _ _ demo_marked demo_platform).
Qed.
Definition demo_session : session := default (Session "" "" "" 0 "" "" None [] "" None None Launched [] false false 0 None None 0) (d_sessions (t_db demo_judged) !! 0%nat).

Lemma sessions_in_order_witness : s_sent demo_session = [INITIALIZED; PASSED] /\ legal (s_state demo_session) (s_sent demo_session).
Proof.
  split; [by vm_compute|]. destruct (sessions_in_order demo_ok demo_courses demo_judged judged_reachable) as [H _]. apply H.
  assert (E : d_sessions (t_db demo_judged) = [demo_session]) by by vm_compute. rewrite E. by left.
Defined.
Lemma passed_earned_witness : exists r, d_regs (t_db demo_judged) !! "r1"%string = Some r /\ earned (t_db demo_judged) r 0.
Proof.
  destruct (d_regs (t_db demo_judged) !! "r1"%string) as [r|] eqn:E; [|by vm_compute in E].
  exists r. split; [done|]. apply (passed_earned demo_ok demo_courses demo_judged "r1" r 0 judged_reachable E).
  vm_compute in E. by injection E as <-.
Defined.
Lemma scores_are_marks_witness :
  exists row q r, d_results (t_db demo_judged) = [row] /\ p_score (q_state row) = Some q /\ scored (t_db demo_judged) r (q_au row) q.
Proof.
  assert (E : exists row q, d_results (t_db demo_judged) = [row] /\ p_score (q_state row) = Some q).
  { vm_compute. do 2 eexists. split; reflexivity. }
  destruct E as (row & q & E & Hq). destruct (scores_are_marks demo_ok demo_courses demo_judged judged_reachable) as [_ H].
  destruct (H row q) as (r & _ & _ & Hs); [rewrite E; by left|exact Hq|]. exists row, q, r. split; [exact E|split; [exact Hq|exact Hs]].
Defined.
Lemma marks_limited_witness : (length (List.filter (counts "u1" "c1" 0 0) (d_grades (t_db demo_judged))) <= 3)%nat.
Proof. apply (marks_limited (cfg := demo_config) demo_ok demo_courses demo_judged "u1" "c1" 0 0); [by intros o ->|apply judged_reachable]. Defined.
(** A State document the demonstration's unit writes. *)
Definition demo_writes (agent : option agent_text) (token : string) : result cerr Z * st :=
  au_request_route demo_platform demo_courses (Some ("s1"%string, token))
    (AuRequest "PUT" "activities/state"
       [("stateId", "bookmark"); ("activityId", au_runtime_id iri_base "c1" 0); ("registration", "r1")]%string agent (Text "p4" false))
    (3 * SECOND) demo_marked.
Lemma unit_confined_witness :
  exists rq, l_log (t_lrs (demo_writes demo_agent "token").2) = l_log (t_lrs demo_marked) ++ [rq] /\ q_method rq = "PUT"%string /\
    exists x r, bearer_of (t_db demo_marked) (Some ("s1", "token")%string) (3 * SECOND) x /\
      d_regs (t_db demo_marked) !! s_reg x = Some r /\ confined x r rq.
Proof.
  pose proof (unit_confined demo_platform demo_courses (Some ("s1", "token")%string)
    (AuRequest "PUT" "activities/state"
       [("stateId", "bookmark"); ("activityId", au_runtime_id iri_base "c1" 0); ("registration", "r1")]%string demo_agent (Text "p4" false))
    (3 * SECOND) demo_marked) as (rs & Hl & Hc).
  assert (E : exists rq, l_log (t_lrs (demo_writes demo_agent "token").2) = l_log (t_lrs demo_marked) ++ [rq] /\
    q_method rq = "PUT"%string /\ q_from_au rq = true).
  { vm_compute. eexists. split; [reflexivity|split; reflexivity]. }
  destruct E as (rq & E & Hm & Hq). exists rq. split; [exact E|]. split; [exact Hm|].
  unfold demo_writes in E. rewrite Hl in E. apply app_inv_head in E as ->. apply Hc; [by left|exact Hq].
Defined.
(** Another Student's agent, and a token that is not the session's, reach nothing. *)
Example demo_other_student :
  (demo_writes (Some (AgentJson (actor "u2"))) "token").1 = Err (Refused (forbid "8.1.3.0-3")) /\
  l_log (t_lrs (demo_writes (Some (AgentJson (actor "u2"))) "token").2) = l_log (t_lrs demo_marked) /\
  (demo_writes demo_agent "guess").1 = Err (Cmi5Error 401).
Proof. by vm_compute. Qed.

(** ** Two requests at once *)

(** A waiver that read the registration before an accepted [passed] and saves it after: the verdict is lost, though
    the session said it, and the LRS has the statement. *)
Lemma waive_race :
  exists stale r, d_regs (t_db demo_marked) !! "r1"%string = Some stale /\ PASSED ∈ s_sent demo_session /\
    d_regs (t_db (commit_ok (waive stale demo_release 1 "Administrative" "s2" (4 * SECOND)) demo_judged)) !! "r1"%string = Some r /\
    p_passed (state_in r 0) = false.
Proof.
  do 2 eexists. split; [vm_compute; reflexivity|]. split; [apply one_of_true; by vm_compute|].
  split; [vm_compute; reflexivity|]. by vm_compute.
Qed.
