(* ===== verification/Cmi5Gradebook.v ===== *)
(** * Results on to the gradebook of the LMS that launched a unit

    Models [control-plane/api/app/cmi5/ags.py]: which gradebook cells a result goes to, the outbox row of each, and
    its delivery by several senders at once.  A row is kept under its cell key; a sender names it by key and id, so
    that a row of a platform deregistered and registered again is another row.  The platform's answer to a score is
    free.  [enqueue] runs in the transaction that recorded the result; losing the race to insert a row reads the
    other's row, as if it had been there.  The texts of launches' scopes enter decoded. *)

From S2P Require Import Prelude PyText Cmi5Structure Cmi5Rules Cmi5Ids Cmi5Lms.
From Stdlib Require Import Ascii QArith.

Local Open Scope Z_scope.

(** ** The tables *)

Record launch_row := LTILaunch {
  v_platform : string; v_user : string; v_sub : string; v_kind : string; v_resource : string;
  v_lineitem : string; v_scopes : option json; v_created : Z
}.
Record platform_row := ExternalPlatform { f_id : string; f_tenant : string; f_active : bool; f_issuer : option string; f_base : string }.
(** [w_users] gives a user's [keycloak_id]; a link is a platform, a subject and a user. *)
Record world := World {
  w_launches : list launch_row; w_platforms : gmap string platform_row; w_users : gmap string string;
  w_links : list (string * string * string)
}.

Inductive ags_state := Pending | Sent | Failed.
#[export] Instance ags_state_eq_dec : EqDecision ags_state.
Proof. solve_decision. Defined.
Record score_row := AgsScore {
  a_id : string; a_key : string; a_tenant : string; a_platform : string; a_registration : string; a_user : string;
  a_release : string; a_au : nat; a_lineitem : string; a_sub : string;
  a_score : option Q; a_activity : string; a_grading : string; a_result_at : Z;
  a_state : ags_state; a_attempts : Z; a_next : option Z; a_sent_at : option Z; a_error : string
}.
#[export] Instance fraction_eq_dec : EqDecision Q.
Proof. solve_decision. Defined.
#[export] Instance score_row_eq_dec : EqDecision score_row.
Proof. solve_decision. Defined.
Notation outbox := (gmap string score_row).

(** A score the platform did not take. *)
Record ags_error := AGSError { x_text : string; x_transient : bool }.
Inductive value_error := ValueError.

(** The settings, and whether Python takes the host part of an address with a pair of brackets. *)
Class Gradebook := { ags_max_attempts : Z; bracketed_ok : string -> bool }.

Definition RESOURCE_KIND : string := "cmi5".
Definition SCORE_MAXIMUM : Z := 100.
Definition LEASE : Z := 120 * SECOND.
Definition AGS_SCORE_SCOPE : string := "https://purl.imsglobal.org/spec/lti-ags/scope/score".
Definition resource_id (release_id : string) (au_index : nat) : string := release_id +:+ ":" +:+ pretty au_index.

(** ** Addresses *)

(** [urlsplit]: what leads and what it drops, the scheme, the host part. *)
Definition c0_or_space (c : ascii) : bool := (nat_of_ascii c <=? 32)%nat.
Fixpoint drop_chars (p : ascii -> bool) (s : string) : string :=
  match s with EmptyString => EmptyString | String c s' => if p c then drop_chars p s' else String c (drop_chars p s') end.
Definition unsafe_char (c : ascii) : bool := one_of (String c "") [String "009" ""; String "010" ""; String "013" ""].
Fixpoint cut_at (p : ascii -> bool) (s : string) : string * string :=
  match s with
  | EmptyString => (EmptyString, EmptyString)
  | String c s' => if p c then (EmptyString, s) else let (a, b) := cut_at p s' in (String c a, b)
  end.
Fixpoint all_chars (p : ascii -> bool) (s : string) : bool :=
  match s with EmptyString => true | String c s' => p c && all_chars p s' end.
Definition alpha (c : ascii) : bool :=
  let n := nat_of_ascii c in ((65 <=? n) && (n <=? 90) || (97 <=? n) && (n <=? 122))%nat.
Definition scheme_char (c : ascii) : bool :=
  let n := nat_of_ascii c in alpha c || ((48 <=? n) && (n <=? 57))%nat || one_of (String c "") ["+"; "-"; "."]%string.
Definition split_scheme (url : string) : string * string :=
  match cut_at (Ascii.eqb ":") url with
  | (String c pre, String _ rest) =>
      if alpha c && all_chars scheme_char (String c pre) then (lower (String c pre), rest) else (""%string, url)
  | _ => (""%string, url)
  end.
Definition netloc_end (c : ascii) : bool := one_of (String c "") ["/"; "?"; "#"]%string.
Definition netloc_of (url : string) : string :=
  match url with String "/" (String "/" rest) => (cut_at netloc_end rest).1 | _ => ""%string end.
Definition has_char (c : ascii) (s : string) : bool := negb (all_chars (fun d => negb (Ascii.eqb c d)) s).

Section Ags.
Context {cfg : Config} {gb : Gradebook}.

Definition _origin (url : string) : result value_error (string * string) :=
  let url := drop_chars unsafe_char (lstrip_if c0_or_space url) in
  let (scheme, rest) := split_scheme url in
  let netloc := netloc_of rest in
  guard_or (eqb (has_char "[" netloc) (has_char "]" netloc)) ValueError (
  guard_or (negb (has_char "[" netloc) || bracketed_ok netloc) ValueError (
  Ok (lower scheme, lower netloc))).
Definition _own_lineitem (platform : platform_row) (lineitem : string) : result value_error bool :=
  origin ← _origin lineitem;
  if String.eqb origin.2 "" then Ok false
  else issuer ← _origin (default "" (f_issuer platform));
       base ← _origin (f_base platform);
       Ok (bool_decide (origin ∈ [issuer; base])).

Definition nl : string := String "010" "".
Definition _cell_key (platform_id lineitem sub : string) : string := sha256 (platform_id +:+ nl +:+ lineitem +:+ nl +:+ sub).

(** [round(x, 2)] *)
Definition round2 (x : Q) : Q := round_div (100 * Qnum x) (Zpos (Qden x)) # 100.
Definition result_of (s : au_state) : option Q * string * string :=
  match p_score s with
  | Some score => (Some (round2 (score * inject_Z SCORE_MAXIMUM)), "Completed", "FullyGraded")%string
  | None => (None, "Completed", "Pending")%string
  end.

(** ** The cells of a result *)

Definition is_bound (w : world) (platform_id sub user_id keycloak_id : string) : bool :=
  negb (String.eqb sub "") &&
  (String.eqb keycloak_id ("lti:" +:+ platform_id +:+ ":" +:+ sub) || bool_decide ((platform_id, sub, user_id) ∈ w_links w)).
Definition latest_launch_leb (a b : launch_row) : bool := v_created b <=? v_created a.
Definition own_launch (user_id rid : string) (l : launch_row) : bool :=
  String.eqb (v_user l) user_id && String.eqb (v_kind l) RESOURCE_KIND && String.eqb (v_resource l) rid && negb (String.eqb (v_lineitem l) "").
Definition launches_of (w : world) (user_id rid : string) : list launch_row :=
  take 50 (py_sorted latest_launch_leb (List.filter (own_launch user_id rid) (w_launches w))).
Definition score_scope (scopes : option json) : bool :=
  match scopes with Some (JList l) => existsb (is_str AGS_SCORE_SCOPE) l | _ => false end.
Definition launch_key (l : launch_row) : string := _cell_key (v_platform l) (v_lineitem l) (v_sub l).
(** Whether a result may go to the cell of a launch. *)
Definition eligible (w : world) (tenant user_id : string) (l : launch_row) : result value_error bool :=
  match w_users w !! user_id, w_platforms w !! v_platform l with
  | Some keycloak_id, Some platform =>
      if is_bound w (v_platform l) (v_sub l) user_id keycloak_id && f_active platform &&
         String.eqb (f_tenant platform) tenant && score_scope (v_scopes l)
      then _own_lineitem platform (v_lineitem l) else Ok false
  | _, _ => Ok false
  end.

Definition same_result (row : score_row) (res : option Q * string * string) : bool :=
  match a_score row, res.1.1 with Some x, Some y => Qeq_bool x y | None, None => true | _, _ => false end &&
  String.eqb (a_activity row) res.1.2 && String.eqb (a_grading row) res.2.
(** The values of [desired] set on a row. *)
Definition desire (res : option Q * string * string) (reg_id : string) (now : Z) (r : score_row) : score_row :=
  AgsScore (a_id r) (a_key r) (a_tenant r) (a_platform r) reg_id (a_user r) (a_release r) (a_au r) (a_lineitem r) (a_sub r)
    res.1.1 res.1.2 res.2 now Pending 0 (Some now) (a_sent_at r) "".
Definition new_score (id tenant : string) (reg : registration) (release_id : string) (i : nat) (l : launch_row)
    (res : option Q * string * string) (now : Z) : score_row :=
  AgsScore id (launch_key l) tenant (v_platform l) (r_id reg) (r_user reg) release_id i (v_lineitem l) (v_sub l)
    res.1.1 res.1.2 res.2 now Pending 0 (Some now) None "".

(** One cell, eligible: its row afterwards, and whether it now waits. *)
Definition offer (id tenant : string) (reg : registration) (release_id : string) (i : nat) (res : option Q * string * string)
    (now : Z) (l : launch_row) (rows : outbox) : outbox * nat :=
  match rows !! launch_key l with
  | None => (<[launch_key l := new_score id tenant reg release_id i l res now]> rows, 1%nat)
  | Some row =>
      if same_result row res && bool_decide (a_state row ∈ [Sent; Pending]) then (rows, 0%nat)
      else (<[launch_key l := desire res (r_id reg) now row]> rows, 1%nat)
  end.
Section Enqueue.
Context (w : world) (tenant : string) (reg : registration) (release_id : string) (i : nat) (res : option Q * string * string)
  (now : Z) (new_id : string -> string).
Fixpoint offer_all (launches : list launch_row) (seen : list string) (rows : outbox) (due : nat) : result value_error (outbox * nat) :=
  match launches with
  | [] => Ok (rows, due)
  | l :: launches' =>
      if bool_decide (launch_key l ∈ seen) then offer_all launches' seen rows due
      else ok ← eligible w tenant (r_user reg) l;
           let (rows', n) := if ok : bool then offer (new_id (launch_key l)) tenant reg release_id i res now l rows else (rows, 0%nat) in
           offer_all launches' (launch_key l :: seen) rows' (due + n)
  end.
End Enqueue.
(** [new_id] gives the id of a row it inserts. *)
Definition enqueue (w : world) (tenant : string) (reg : registration) (release_id : string) (i : nat) (s : au_state)
    (now : Z) (new_id : string -> string) (rows : outbox) : result value_error (outbox * nat) :=
  offer_all w tenant reg release_id i (result_of s) now new_id (launches_of w (r_user reg) (resource_id release_id i)) [] rows 0.

(** ** Delivery *)

Definition by_id (key id : string) (rows : outbox) : option score_row :=
  match rows !! key with Some r => if String.eqb (a_id r) id then Some r else None | None => None end.
Definition _payload (r : score_row) : json :=
  JObj ([("timestamp", JStr (_stamp (a_result_at r))); ("activityProgress", JStr (a_activity r)); ("gradingProgress", JStr (a_grading r))]%string ++
        match a_score r with Some q => [("scoreGiven", JFloat q); ("scoreMaximum", JInt SCORE_MAXIMUM)]%string | None => [] end).
Definition _backoff (attempts : Z) : Z := Z.min (30 * 2 ^ Z.max (attempts - 1) 0) 3600 * SECOND.

Definition with_next (next : option Z) (r : score_row) : score_row :=
  AgsScore (a_id r) (a_key r) (a_tenant r) (a_platform r) (a_registration r) (a_user r) (a_release r) (a_au r) (a_lineitem r) (a_sub r)
    (a_score r) (a_activity r) (a_grading r) (a_result_at r) (a_state r) (a_attempts r) next (a_sent_at r) (a_error r).
Definition is_due (now : Z) (r : score_row) : bool :=
  bool_decide (a_state r = Pending) && match a_next r with None => true | Some t => t <=? now end.
(** The guarded UPDATE: the outbox if it changed the row. *)
Definition claim (now : Z) (key id : string) (rows : outbox) : option outbox :=
  match by_id key id rows with
  | Some r => if is_due now r then Some (<[key := with_next (Some (now + LEASE)) r]> rows) else None
  | None => None
  end.
(** The row as it is read after the claim, and the error found before it is sent. *)
Definition read (w : world) (key id : string) (rows : outbox) : option (score_row * option ags_error) :=
  match by_id key id rows with
  | None => None
  | Some r =>
      let ok := match w_platforms w !! a_platform r with
                | Some platform => f_active platform && String.eqb (f_tenant platform) (a_tenant r)
                | None => false
                end in
      Some (r, if ok : bool then None else Some (AGSError "the platform is no longer registered and active" false))
  end.
Definition with_sent (now : Z) (r : score_row) : score_row :=
  AgsScore (a_id r) (a_key r) (a_tenant r) (a_platform r) (a_registration r) (a_user r) (a_release r) (a_au r) (a_lineitem r) (a_sub r)
    (a_score r) (a_activity r) (a_grading r) (a_result_at r) Sent (a_attempts r) None (Some now) "".
Definition with_error (now : Z) (e : ags_error) (r : score_row) : score_row :=
  let attempts := a_attempts r + 1 in
  let again := x_transient e && (attempts <? ags_max_attempts) in
  AgsScore (a_id r) (a_key r) (a_tenant r) (a_platform r) (a_registration r) (a_user r) (a_release r) (a_au r) (a_lineitem r) (a_sub r)
    (a_score r) (a_activity r) (a_grading r) (a_result_at r) (if again then a_state r else Failed) attempts
    (if again then Some (now + _backoff attempts) else None) (a_sent_at r) (String.substring 0 500 (x_text e)).
(** After the answer, on the row as it is then; [sent] is the row as it was sent. *)
Definition finish (now : Z) (sent : score_row) (error : option ags_error) (rows : outbox) : option ags_state * outbox :=
  match by_id (a_key sent) (a_id sent) rows with
  | None => (None, rows)
  | Some r =>
      if negb (a_result_at r =? a_result_at sent) then (Some (a_state r), rows)
      else let r := match error with None => with_sent now r | Some e => with_error now e r end in
           (Some (a_state r), <[a_key sent := r]> rows)
  end.
(** One delivery with nothing in between; [answer] is what the platform makes of the score. *)
Definition deliver (w : world) (answer : score_row -> option ags_error) (now now' : Z) (key id : string) (rows : outbox)
    : option ags_state * outbox :=
  match claim now key id rows with
  | None => (None, rows)
  | Some rows =>
      match read w key id rows with
      | None => (None, rows)
      | Some (r, Some e) => finish now' r (Some e) rows
      | Some (r, None) => finish now' r (answer r) rows
      end
  end.
(** The rows a round takes up, soonest due first. *)
Definition due_leb (r1 r2 : score_row) : bool :=
  match a_next r1, a_next r2 with Some a, Some b => a <=? b | None, _ => true | Some _, None => false end.
Definition due_ids (now : Z) (reg_id : option string) (limit : nat) (rows : outbox) : list (string * string) :=
  (fun r => (a_key r, a_id r)) <$>
    take limit (py_sorted due_leb (List.filter (fun r =>
      is_due now r && match reg_id with Some k => String.eqb (a_registration r) k | None => true end) ((map_to_list rows).*2))).

(** ** Senders at work *)

(** What is sent of a row. *)
Record message := Message {
  m_platform : string; m_lineitem : string; m_sub : string; m_score : option Q; m_activity : string; m_grading : string; m_at : Z
}.
Definition message_of (r : score_row) : message :=
  Message (a_platform r) (a_lineitem r) (a_sub r) (a_score r) (a_activity r) (a_grading r) (a_result_at r).
(** A sender: it holds a claim, is about to send the row it read, or has its answer. *)
Inductive phase := Claimed (key id : string) | Sending (r : score_row) | Answered (r : score_row) (error : option ags_error).
Definition held (p : phase) : option score_row :=
  match p with Claimed _ _ => None | Sending r | Answered r _ => Some r end.
(** The outbox, the senders, the scores platforms took, and the latest time read. *)
Record sys := Sys { y_rows : outbox; y_senders : gmap nat phase; y_taken : list message; y_clock : Z }.

Definition unused_id (id : string) (y : sys) : Prop :=
  forall n p r, y_senders y !! n = Some p -> held p = Some r -> a_id r <> id.
(** No sender holds a result of the same microsecond. *)
Definition new_instant (now : Z) (y : sys) : Prop :=
  forall n p r, y_senders y !! n = Some p -> held p = Some r -> a_result_at r <> now.

(** One transaction or exchange; senders are as many as there are requests and processes. *)
Inductive moves (y : sys) : sys -> Prop :=
| mv_enqueue w tenant reg release_id i s now new_id rows due :
    new_instant now y -> (forall k, unused_id (new_id k) y) ->
    enqueue w tenant reg release_id i s now new_id (y_rows y) = Ok (rows, due) ->
    moves y (Sys rows (y_senders y) (y_taken y) (Z.max now (y_clock y)))
| mv_claim n key id now rows :
    y_senders y !! n = None -> claim now key id (y_rows y) = Some rows ->
    moves y (Sys rows (<[n := Claimed key id]> (y_senders y)) (y_taken y) (Z.max now (y_clock y)))
| mv_read n key id w :
    y_senders y !! n = Some (Claimed key id) ->
    moves y (Sys (y_rows y)
      match read w key id (y_rows y) with
      | None => delete n (y_senders y)
      | Some (r, None) => <[n := Sending r]> (y_senders y)
      | Some (r, Some e) => <[n := Answered r (Some e)]> (y_senders y)
      end (y_taken y) (y_clock y))
| mv_taken n r error :
    y_senders y !! n = Some (Sending r) ->
    moves y (Sys (y_rows y) (<[n := Answered r error]> (y_senders y)) (message_of r :: y_taken y) (y_clock y))
| mv_not_taken n r e :
    y_senders y !! n = Some (Sending r) ->
    moves y (Sys (y_rows y) (<[n := Answered r (Some e)]> (y_senders y)) (y_taken y) (y_clock y))
| mv_finish n r error now :
    y_senders y !! n = Some (Answered r error) ->
    moves y (Sys (finish now r error (y_rows y)).2 (delete n (y_senders y)) (y_taken y) (Z.max now (y_clock y)))
| mv_lost n : moves y (Sys (y_rows y) (delete n (y_senders y)) (y_taken y) (y_clock y))
| mv_deregistered platform :
    moves y (Sys (filter (fun kr => a_platform kr.2 <> platform) (y_rows y)) (y_senders y) (y_taken y) (y_clock y)).
Definition runs (y : sys) : Prop := rtc moves (Sys ∅ ∅ [] 0) y.

(** *** The invariant *)

Definition HOUR : Z := 3600 * SECOND.
Record row_ok (taken : list message) (clock : Z) (k : string) (r : score_row) : Prop := {
  ro_key : a_key r = k;
  ro_sent : a_state r = Sent -> message_of r ∈ taken;
  ro_next : a_state r = Pending -> exists t, a_next r = Some t /\ t <= clock + HOUR;
  ro_attempts : 0 <= a_attempts r /\ (a_state r = Pending -> a_attempts r = 0 \/ a_attempts r < ags_max_attempts)
}.
(** A row that is what a sender read, by its id and instant, is what it sent. *)
Definition same_sent (p : phase) (k : string) (r : score_row) : Prop :=
  forall sn, held p = Some sn -> a_key sn = k -> a_id r = a_id sn -> a_result_at r = a_result_at sn -> message_of r = message_of sn.
Definition good (senders : gmap nat phase) (taken : list message) (clock : Z) (rows : outbox) : Prop :=
  forall k r, rows !! k = Some r -> row_ok taken clock k r /\ forall n p, senders !! n = Some p -> same_sent p k r.
Record sys_inv (y : sys) : Prop := {
  si_good : good (y_senders y) (y_taken y) (y_clock y) (y_rows y);
  si_answered : forall n sn, y_senders y !! n = Some (Answered sn None) -> message_of sn ∈ y_taken y
}.

Lemma row_ok_later taken clock taken' clock' k r :
  (forall m, m ∈ taken -> m ∈ taken') -> clock <= clock' -> row_ok taken clock k r -> row_ok taken' clock' k r.
Proof.
  intros Ht Hc [H1 H2 H3 H4]. split; [done|auto| |done]. intros Hp. destruct (H3 Hp) as (t & Hn & Hle). exists t. split; [done|lia].
Qed.
Lemma good_later senders taken clock taken' clock' rows :
  (forall m, m ∈ taken -> m ∈ taken') -> clock <= clock' -> good senders taken clock rows -> good senders taken' clock' rows.
Proof. intros Ht Hc Hg k r Hr. destruct (Hg k r Hr) as [H1 H2]. split; [by eapply row_ok_later|done]. Qed.
Lemma outbox_put senders taken clock rows k r :
  good senders taken clock rows -> row_ok taken clock k r -> (forall n p, senders !! n = Some p -> same_sent p k r) ->
  good senders taken clock (<[k := r]> rows).
Proof.
  intros Hg Hr Hs k' r'. destruct (decide (k = k')) as [<-|Hne].
  - rewrite lookup_insert_eq. by intros [= <-].
  - rewrite lookup_insert_ne by done. apply Hg.
Qed.
(** Senders that hold no more than before. *)
Lemma good_senders senders senders' taken clock rows :
  good senders taken clock rows ->
  (forall n p sn, senders' !! n = Some p -> held p = Some sn ->
     (exists n' p', senders !! n' = Some p' /\ held p' = Some sn) \/ rows !! a_key sn = Some sn) ->
  good senders' taken clock rows.
Proof.
  intros Hg Hs k r Hr. destruct (Hg k r Hr) as [H1 H2]. split; [done|]. intros n p Hp sn Hh Hk Hid Hat.
  destruct (Hs n p sn Hp Hh) as [(n' & p' & Hp' & Hh')|Hsn]; [by apply (H2 n' p')|]. rewrite Hk, Hr in Hsn. by injection Hsn as <-.
Qed.

(** *** Each step keeps it *)

Lemma backoff_bound n : _backoff n <= HOUR.
Proof. unfold _backoff, HOUR, SECOND. nia. Qed.
Lemma offer_good senders taken clock tenant reg release_id i res now l id rows :
  good senders taken clock rows -> now <= clock ->
  (forall n p sn, senders !! n = Some p -> held p = Some sn -> a_id sn <> id /\ a_result_at sn <> now) ->
  good senders taken clock (offer id tenant reg release_id i res now l rows).1.
Proof.
  intros Hg Hn Hs. unfold offer. destruct (rows !! launch_key l) as [row|] eqn:E.
  - destruct (_ && _); [done|]. destruct (Hg _ _ E) as [[H1 _ _ _] _]. apply outbox_put; [done| |].
    + split; [done|by intros H|intros _; exists now; split; [done|unfold HOUR, SECOND; lia]|split; [done|by left]].
    + intros n p Hp sn Hh _ _ Hat. destruct (Hs n p sn Hp Hh) as [_ H]. by cbn in Hat.
  - apply outbox_put; [done| |].
    + split; [done|by intros H|intros _; exists now; split; [done|unfold HOUR, SECOND; lia]|split; [done|by left]].
    + intros n p Hp sn Hh _ Hid _. destruct (Hs n p sn Hp Hh) as [H _]. by cbn in Hid.
Qed.
Lemma offer_all_good senders taken clock w tenant reg release_id i res now new_id launches :
  now <= clock ->
  (forall k n p sn, senders !! n = Some p -> held p = Some sn -> a_id sn <> new_id k /\ a_result_at sn <> now) ->
  forall seen rows due rows' due', good senders taken clock rows ->
  offer_all w tenant reg release_id i res now new_id launches seen rows due = Ok (rows', due') -> good senders taken clock rows'.
Proof.
  intros Hn Hs. induction launches as [|l launches IH]; intros seen rows due rows' due' Hg H; cbn [offer_all] in H; [by injection H as <- _|].
  destruct (bool_decide _); [by eapply IH|]. ok_steps H. destruct x; [|by eapply IH].
  pose proof (offer_good senders taken clock tenant reg release_id i res now l (new_id (launch_key l)) rows Hg Hn (Hs _)) as Ho.
  destruct (offer _ _ _ _ _ _ _ l rows) as [rows1 n]. by eapply IH.
Qed.
Lemma by_id_some key id rows r : by_id key id rows = Some r -> rows !! key = Some r /\ a_id r = id.
Proof. unfold by_id. destruct (rows !! key) as [r'|]; [|done]. destruct (String.eqb_spec (a_id r') id); [|done]. by intros [= ->]. Qed.

Lemma claim_good senders taken clock now key id rows rows' :
  good senders taken clock rows -> now <= clock -> claim now key id rows = Some rows' -> good senders taken clock rows'.
Proof.
  intros Hg Hn H. unfold claim in H. destruct (by_id key id rows) as [r|] eqn:E; [|done]. apply by_id_some in E as [E _].
  destruct (is_due now r); [|done]. injection H as <-. destruct (Hg _ _ E) as [[H1 H2 H3 H4] Hss].
  apply outbox_put; [done| |].
  - split; [done|done|intros _; exists (now + LEASE); split; [done|unfold LEASE, HOUR, SECOND; lia]|done].
  - intros n p Hp. exact (Hss n p Hp).
Qed.
Lemma finish_good senders taken clock now sn error rows :
  good senders taken clock rows -> now <= clock -> (forall k r, rows !! k = Some r -> k = a_key sn -> a_id r = a_id sn ->
    a_result_at r = a_result_at sn -> message_of r = message_of sn) -> (error = None -> message_of sn ∈ taken) ->
  good senders taken clock (finish now sn error rows).2.
Proof.
  intros Hg Hn Hsn Ht. unfold finish. destruct (by_id _ _ rows) as [r|] eqn:E; [|done]. apply by_id_some in E as [E Hid].
  destruct (Z.eqb_spec (a_result_at r) (a_result_at sn)) as [Hat|]; [|done]. cbn [negb snd].
  destruct (Hg _ _ E) as [[H1 H2 H3 [H4 H5]] Hss]. specialize (Hsn _ _ E eq_refl Hid Hat).
  apply outbox_put; [done| |destruct error; intros n p Hp; exact (Hss n p Hp)].
  destruct error as [e|].
  - unfold with_error. set (again := _ && _). split; cbn; [done| | |].
    + destruct again; [done|by intros].
    + destruct again; [|by intros]. intros _. eexists. split; [done|]. pose proof (backoff_bound (a_attempts r + 1)). lia.
    + split; [lia|]. destruct again eqn:Ea; [|by intros]. intros _. right. subst again. apply andb_true_iff in Ea as [_ Ea]. lia.
  - split; cbn; [done|intros _; rewrite <- Hsn in Ht; by apply Ht|by intros|done].
Qed.

(** The senders after one of them moves, and what the new phase holds. *)
Lemma senders_insert (senders : gmap nat phase) n p0 n' p sn :
  <[n := p0]> senders !! n' = Some p -> held p = Some sn -> held p0 = Some sn \/ exists n'' p', senders !! n'' = Some p' /\ held p' = Some sn.
Proof.
  destruct (decide (n = n')) as [<-|Hne].
  - rewrite lookup_insert_eq. intros [= <-]. by left.
  - rewrite lookup_insert_ne by done. right. by exists n', p.
Qed.
Lemma senders_delete (senders : gmap nat phase) n n' p : delete n senders !! n' = Some p -> senders !! n' = Some p.
Proof. intros H. apply lookup_delete_Some in H as [_ H]. done. Qed.
Lemma good_phase senders taken clock rows n p0 :
  good senders taken clock rows ->
  (forall sn, held p0 = Some sn -> rows !! a_key sn = Some sn \/ exists n' p', senders !! n' = Some p' /\ held p' = Some sn) ->
  good (<[n := p0]> senders) taken clock rows.
Proof.
  intros Hg Hp. apply (good_senders senders); [done|]. intros n' p sn H Hh.
  apply (senders_insert _ _ _ _ _ sn) in H as [H|(n'' & p' & H1 & H2)]; [|left; by eauto|done].
  destruct (Hp sn H) as [H1|(n'' & p' & H1 & H2)]; [by right|left; by eauto].
Qed.
Lemma good_delete senders taken clock rows n : good senders taken clock rows -> good (delete n senders) taken clock rows.
Proof. intros Hg. apply (good_senders senders); [done|]. intros n' p sn H%senders_delete Hh. left. by eauto. Qed.
Lemma answered_insert (P : score_row -> Prop) (senders : gmap nat phase) n p0 :
  (forall sn, p0 = Answered sn None -> P sn) -> (forall n' sn, senders !! n' = Some (Answered sn None) -> P sn) ->
  forall n' sn, <[n := p0]> senders !! n' = Some (Answered sn None) -> P sn.
Proof.
  intros Hp Hs n' sn. destruct (decide (n = n')) as [<-|Hne].
  - rewrite lookup_insert_eq. intros [= H]. by apply Hp.
  - rewrite lookup_insert_ne by done. apply Hs.
Qed.

Lemma moves_inv y y' : moves y y' -> sys_inv y -> sys_inv y'.
Proof.
  intros Hm [Hg Ha]. destruct Hm as [w tenant reg release_id i s now new_id rows due Hnew Hid He|n key id now rows Hn Hc|n key id w Hn|n r error Hn|n r e Hn|n r error now Hn|n|platform].
  - split; cbn; [|done]. assert (Hg' : good (y_senders y) (y_taken y) (Z.max now (y_clock y)) (y_rows y)) by (eapply good_later; [..|exact Hg]; [done|lia]).
    eapply offer_all_good; [..|exact Hg'|exact He]; [lia|]. intros k n p sn Hp Hh. split; [by eapply Hid|by eapply Hnew].
  - split; cbn; [|by apply answered_insert]. apply good_phase; [|done].
    eapply (claim_good _ _ _ now key id (y_rows y)); [eapply good_later; [..|exact Hg]; [done|lia]|lia|exact Hc].
  - unfold read. destruct (by_id key id (y_rows y)) as [r|] eqn:E; [|split; cbn; [by apply good_delete|intros n' sn H%senders_delete; by eapply Ha]].
    apply by_id_some in E as [E _]. destruct (Hg _ _ E) as [[H1 _ _ _] _].
    destruct (match w_platforms w !! a_platform r with Some _ => _ | None => _ end).
    all: split; cbn; [apply good_phase; [done|intros sn [= <-]; left; by rewrite H1]|by apply answered_insert].
  - split; cbn; [|apply answered_insert; [intros sn [= -> _]; by left|intros n' sn H; right; by eapply Ha]].
    eapply good_phase; [eapply good_later; [..|exact Hg]; [by right|lia]|]. intros sn [= <-]. right. by exists n, (Sending r).
  - split; cbn; [|by apply answered_insert]. apply good_phase; [done|]. intros sn [= <-]. right. by exists n, (Sending r).
  - split; cbn; [|intros n' sn H%senders_delete; by eapply Ha]. apply good_delete, finish_good; [|lia| |].
    + eapply good_later; [..|exact Hg]; [done|lia].
    + intros k r' Hr' -> Hid Hat. destruct (Hg _ _ Hr') as [_ Hs]. by eapply (Hs n (Answered r error)).
    + intros ->. by eapply Ha.
  - split; cbn; [by apply good_delete|intros n' sn H%senders_delete; by eapply Ha].
  - split; cbn; [|done]. intros k r Hr. apply map_lookup_filter_Some in Hr as [Hr _]. by apply Hg.
Qed.
Lemma runs_inv y : runs y -> sys_inv y.
Proof.
  intros Hr. unfold runs in Hr. cut (sys_inv (Sys ∅ ∅ [] 0)); [|split; [intros k r Hk|intros n sn Hk]; cbn in Hk; by rewrite lookup_empty in Hk].
  induction Hr as [|y1 y2 y3 Hm _ IH]; [done|]. intros Hi. by eapply IH, moves_inv.
Qed.

(** *** Retrying a row *)

(** A sender that comes back to a row whenever it is due: [answers] are what the platforms and the network make of it. *)
Fixpoint retry (w : world) (answers : list (option ags_error)) (now : Z) (key id : string) (rows : outbox) : outbox :=
  match answers with
  | [] => rows
  | answer :: answers' =>
      let rows := (deliver w (fun _ => answer) now now key id rows).2 in
      retry w answers' (now + HOUR) key id rows
  end.

(** A delivery of a due row: what becomes of it, and that nothing is due is left alone. *)
Lemma is_due_at now r t : a_state r = Pending -> a_next r = Some t -> t <= now -> is_due now r = true.
Proof. intros Hs Hn Ht. unfold is_due. rewrite Hn, bool_decide_true by done. cbn. by apply Z.leb_le. Qed.
Definition active (w : world) (r : score_row) : bool :=
  match w_platforms w !! a_platform r with Some p => f_active p && String.eqb (f_tenant p) (a_tenant r) | None => false end.
Lemma deliver_due w answer now now' k r rows :
  rows !! k = Some r -> a_key r = k -> is_due now r = true ->
  let claimed := with_next (Some (now + LEASE)) r in
  let error := if active w r then answer claimed else Some (AGSError "the platform is no longer registered and active" false) in
  let r' := match error with None => with_sent now' claimed | Some e => with_error now' e claimed end in
  deliver w answer now now' k (a_id r) rows = (Some (a_state r'), <[k := r']> rows).
Proof.
  intros Hr Hk Hd claimed error r'. unfold deliver, claim, by_id. rewrite Hr, String.eqb_refl, Hd.
  assert (Hb : by_id k (a_id r) (<[k := claimed]> rows) = Some claimed)
    by (unfold by_id; rewrite lookup_insert_eq; change (a_id claimed) with (a_id r); by rewrite String.eqb_refl).
  unfold read. fold claimed. rewrite Hb. change (match w_platforms w !! a_platform claimed with
    Some platform => f_active platform && String.eqb (f_tenant platform) (a_tenant claimed) | None => false end) with (active w r).
  assert (Hf : forall e, finish now' claimed e (<[k := claimed]> rows) =
    let r1 := match e with None => with_sent now' claimed | Some e => with_error now' e claimed end in (Some (a_state r1), <[k := r1]> rows)).
  { intros e. unfold finish. change (a_key claimed) with (a_key r). change (a_id claimed) with (a_id r). rewrite Hk, Hb, Z.eqb_refl.
    cbv zeta. cbn [negb]. destruct e; by rewrite insert_insert_eq. }
  subst r' error. destruct (active w r); rewrite Hf; reflexivity.
Qed.
Lemma deliver_idle w answer now now' k id r rows :
  rows !! k = Some r -> a_state r <> Pending -> deliver w answer now now' k id rows = (None, rows).
Proof.
  intros Hr Hs. unfold deliver, claim, by_id. rewrite Hr. destruct (String.eqb (a_id r) id); [|done].
  unfold is_due. by rewrite bool_decide_false.
Qed.

(** A pending row that is due at [t], and may be tried [n] times more. *)
Record waiting (r : score_row) (k : string) (t n : Z) : Prop := {
  wt_key : a_key r = k; wt_state : a_state r = Pending; wt_next : exists t0, a_next r = Some t0 /\ t0 <= t;
  wt_left : Z.max 1 (ags_max_attempts - a_attempts r) <= n
}.
Lemma with_error_waits now e r k t n :
  waiting r k t n -> waiting (with_error now e r) k (now + HOUR) (n - 1) \/ a_state (with_error now e r) = Failed.
Proof.
  intros [H1 H2 _ H4]. unfold with_error. set (again := _ && _). destruct again eqn:Ea; [left|by right].
  apply andb_true_iff in Ea as [_ Ea]. split; cbn; [done|done| |lia].
  eexists. split; [done|]. pose proof (backoff_bound (a_attempts r + 1)). lia.
Qed.
Lemma retry_settled w id k answers : forall now rows r,
  rows !! k = Some r -> a_state r <> Pending -> retry w answers now k id rows = rows.
Proof.
  induction answers as [|a answers IH]; intros now rows r Hr Hs; [done|]. cbn [retry]. rewrite (deliver_idle _ _ _ _ _ _ r) by done.
  by eapply IH.
Qed.
Lemma retry_settles w answers : forall now k n r rows,
  rows !! k = Some r -> waiting r k now n -> n <= zlen answers ->
  exists r', retry w answers now k (a_id r) rows !! k = Some r' /\ a_state r' <> Pending.
Proof.
  induction answers as [|a answers IH]; intros now k n r rows Hr Hw Hn; [rewrite zlen_nil in Hn; destruct Hw; lia|].
  pose proof Hw as [H1 H2 (t & Ht & Hle) H4]. cbn [retry]. rewrite zlen_cons in Hn.
  rewrite deliver_due; [|done|done|by eapply is_due_at]. cbv zeta. cbn [snd].
  set (c := with_next (Some (now + LEASE)) r). assert (Hc : waiting c k (now + LEASE) n) by (split; [done|done|by eexists|done]).
  destruct (if active w r then a else _) as [e|].
  - destruct (with_error_waits now e c k _ n Hc) as [Hw'|Hf].
    + change (a_id r) with (a_id (with_error now e c)). eapply IH; [apply lookup_insert_eq|exact Hw'|lia].
    + erewrite retry_settled; [|apply lookup_insert_eq|by rewrite Hf]. eexists. split; [apply lookup_insert_eq|by rewrite Hf].
  - erewrite retry_settled; [|apply lookup_insert_eq|done]. eexists. split; [apply lookup_insert_eq|done].
Qed.

(** *** What a result does to the cells *)

(** The latest launch of a cell. *)
Definition leads (launches : list launch_row) (l : launch_row) : Prop :=
  exists before after, launches = before ++ l :: after /\ launch_key l ∉ (launch_key <$> before).
Lemma leads_cons x launches l : leads launches l -> launch_key x <> launch_key l -> leads (x :: launches) l.
Proof. intros (b & a & -> & Hb) Hx. exists (x :: b), a. split; [done|]. cbn. apply not_elem_of_cons. split; [congruence|done]. Qed.
Lemma leads_inv x launches l : leads (x :: launches) l -> l = x \/ (launch_key x <> launch_key l /\ leads launches l).
Proof.
  intros ([|y b] & a & He & Hb); [left; by injection He|right]. injection He as <- ->. cbn in Hb. apply not_elem_of_cons in Hb as [Hb1 Hb2].
  split; [congruence|by exists b, a].
Qed.

Section Cells.
Context (w : world) (tenant : string) (reg : registration) (release_id : string) (i : nat) (res : option Q * string * string)
  (now : Z) (new_id : string -> string).
(** A cell that has the result, sent or on its way. *)
Definition has_result (rows : outbox) (k : string) : Prop :=
  exists r, rows !! k = Some r /\ same_result r res = true /\ a_state r ∈ [Sent; Pending].
Lemma same_result_set r : a_score r = res.1.1 -> a_activity r = res.1.2 -> a_grading r = res.2 -> same_result r res = true.
Proof.
  intros H1 H2 H3. unfold same_result. rewrite H1, H2, H3, !String.eqb_refl, !andb_true_r.
  destruct res.1.1 as [q|]; [|done]. by apply Qeq_bool_iff.
Qed.
Lemma offer_cell id l rows :
  let rows' := (offer id tenant reg release_id i res now l rows).1 in
  has_result rows' (launch_key l) /\ forall k, k <> launch_key l -> rows' !! k = rows !! k.
Proof.
  unfold offer. destruct (rows !! launch_key l) as [row|] eqn:E.
  - destruct (_ && _) eqn:Es; cbn.
    + apply andb_true_iff in Es as [E1 E2]. reflect_bools. split; [by exists row|done].
    + split; [|intros k Hk; by rewrite lookup_insert_ne]. eexists. split; [apply lookup_insert_eq|]. split; [by apply same_result_set|].
      cbn. by right; left.
  - cbn. split; [|intros k Hk; by rewrite lookup_insert_ne]. eexists. split; [apply lookup_insert_eq|]. split; [by apply same_result_set|].
    cbn. by right; left.
Qed.
Lemma offer_all_cells launches : forall seen rows due rows' due',
  offer_all w tenant reg release_id i res now new_id launches seen rows due = Ok (rows', due') ->
  (forall l, leads launches l -> launch_key l ∉ seen -> eligible w tenant (r_user reg) l = Ok true -> has_result rows' (launch_key l)) /\
  (forall k, rows' !! k <> rows !! k ->
     exists l, leads launches l /\ launch_key l ∉ seen /\ launch_key l = k /\ eligible w tenant (r_user reg) l = Ok true /\ has_result rows' k).
Proof.
  induction launches as [|x launches IH]; intros seen rows due rows' due' H; cbn [offer_all] in H.
  { injection H as <- _. split; [|done]. intros l (b & a & He & _). by destruct b. }
  case_bool_decide as Hseen.
  - destruct (IH _ _ _ _ _ H) as [I1 I2]. split.
    + intros l [->|[_ Hl]]%leads_inv Hs He; [done|by apply I1].
    + intros k Hk. destruct (I2 k Hk) as (l & L1 & L2 & L3). exists l. split; [|done]. apply leads_cons; [done|]. intros Heq. by rewrite Heq in Hseen.
  - ok_steps H. pose proof (offer_cell (new_id (launch_key x)) x rows) as Hcell.
    set (step := if x0 then _ else _) in H.
    assert (Hstep : (x0 = true -> has_result step.1 (launch_key x)) /\ forall k, (k <> launch_key x \/ x0 = false) -> step.1 !! k = rows !! k).
    { subst step. destruct x0; [destruct Hcell as [Hx1 Hx2]|]; (split; [done|]); intros k [Hk|Hk]; try done. by apply Hx2. }
    clearbody step. clear Hcell. destruct step as [rows1 n]. destruct Hstep as [S1 S2]. cbn in S1, S2.
    destruct (IH _ _ _ _ _ H) as [I1 I2].
    assert (Hkeep : has_result rows1 (launch_key x) -> has_result rows' (launch_key x)).
    { intros (r & Hr & Hr'). destruct (decide (rows' !! launch_key x = rows1 !! launch_key x)) as [He|Hne]; [exists r; by rewrite He|].
      by destruct (I2 _ Hne) as (l & _ & _ & _ & _ & Hres). }
    split.
    + intros l [->|[Hne Hl]]%leads_inv Hs He; [rewrite Hx in He; injection He as ->; by apply Hkeep, S1|].
      apply I1; [done| |done]. by apply not_elem_of_cons.
    + intros k Hk. destruct (decide (rows' !! k = rows1 !! k)) as [He|Hne].
      * destruct x0; [|by rewrite He, S2 in Hk; auto]. destruct (decide (k = launch_key x)) as [->|Hkx]; [|by rewrite He, S2 in Hk; auto].
        exists x. split; [by exists [], launches; split; [|apply not_elem_of_nil]|]. split; [done|]. split; [done|]. split; [done|]. by apply Hkeep, S1.
      * destruct (I2 k Hne) as (l & L1 & L2 & L3 & L4 & L5). apply not_elem_of_cons in L2 as [L2 L2']. exists l. split; [|by split].
        apply leads_cons; [done|]. congruence.
Qed.
End Cells.
Lemma length_lfilter_perm {A} (f : A -> bool) l k : l ≡ₚ k -> length (List.filter f l) = length (List.filter f k).
Proof. induction 1; cbn; repeat destruct (f _); cbn; congruence. Qed.
Lemma lfilter_lfilter {A} (f h : A -> bool) l : List.filter f (List.filter h l) = List.filter (fun x => h x && f x) l.
Proof. induction l as [|x l IH]; cbn; [done|]. destruct (h x); cbn; [destruct (f x)|]; cbn; congruence. Qed.

(** The latest launch of its cell, among the Student's 50 latest of the unit. *)
Definition latest_of (w : world) (user_id rid : string) (l : launch_row) : Prop :=
  l ∈ w_launches w /\ own_launch user_id rid l = true /\
  (forall l', l' ∈ w_launches w -> own_launch user_id rid l' = true -> launch_key l' = launch_key l -> l' = l \/ v_created l' < v_created l) /\
  (length (List.filter (fun l' => own_launch user_id rid l' && latest_launch_leb l' l) (w_launches w)) <= 50)%nat.
Lemma first_with_key l s : l ∈ s -> exists before x after, s = before ++ x :: after /\ launch_key x = launch_key l /\
  launch_key l ∉ (launch_key <$> before) /\ (x = l \/ l ∈ after).
Proof.
  induction s as [|y s IH]; intros Hl; [by apply elem_of_nil in Hl|].
  destruct (decide (launch_key y = launch_key l)) as [Hk|Hk].
  - exists [], y, s. split; [done|]. split; [done|]. split; [apply not_elem_of_nil|]. apply elem_of_cons in Hl as [->|Hl]; [by left|by right].
  - apply elem_of_cons in Hl as [->|Hl]; [done|]. destruct (IH Hl) as (b & x & a & -> & Hx & Hn & H). exists (y :: b), x, a.
    split; [done|]. split; [done|]. split; [cbn; apply not_elem_of_cons; by split|done].
Qed.
Lemma leads_latest w user_id rid l : latest_of w user_id rid l -> leads (launches_of w user_id rid) l.
Proof.
  intros (Hin & Hown & Hlast & H50). unfold launches_of. set (own := List.filter (own_launch user_id rid) (w_launches w)).
  assert (Hl : l ∈ py_sorted latest_launch_leb own).
  { apply elem_of_py_sorted, list_elem_of_In, List.filter_In. split; [by apply list_elem_of_In|done]. }
  assert (Hsort : StronglySorted (le_by latest_launch_leb) (py_sorted latest_launch_leb own)).
  { apply py_sorted_sorted; unfold latest_launch_leb; intros *; rewrite ?Z.leb_gt, ?Z.leb_le; lia. }
  pose proof (py_sorted_perm latest_launch_leb own) as Hp. destruct (first_with_key _ _ Hl) as (b & x & a & He & Hx & Hn & Hxl).
  rewrite He in *. apply StronglySorted_app in Hsort as (Hb & _ & Hs). apply StronglySorted_inv in Hs as [_ Ha].
  assert (Hxw : x ∈ w_launches w /\ own_launch user_id rid x = true).
  { assert (Hxo : x ∈ own) by (rewrite <- Hp; set_solver). apply list_elem_of_In, List.filter_In in Hxo as [H1 H2]. by apply list_elem_of_In in H1. }
  assert (x = l) as ->.
  { destruct Hxl as [|Hxl]; [done|]. rewrite Forall_forall in Ha. specialize (Ha _ Hxl). unfold le_by, latest_launch_leb in Ha.
    destruct (Hlast x) as [|Hlt]; [by apply Hxw..|done|done|]. lia. }
  set (f := fun l' => latest_launch_leb l' l). assert (Hf : List.filter f (b ++ [l]) = b ++ [l]).
  { apply forallb_filter_id, forallb_forall. intros y Hy%list_elem_of_In. apply elem_of_app in Hy as [Hy| ->%list_elem_of_singleton].
    - by apply Hb; [|left].
    - unfold f, latest_launch_leb. lia. }
  assert (Hlen : (length (b ++ [l]) <= 50)%nat).
  { etransitivity; [|exact H50]. rewrite <- (lfilter_lfilter f). fold own. rewrite <- Hf, <- (length_lfilter_perm f _ _ Hp).
    rewrite (cons_middle l b a), app_assoc, (List.filter_app f (b ++ [l])), length_app. lia. }
  exists b, (take (50 - length (b ++ [l])) a). split; [|done].
  rewrite (cons_middle l b a), app_assoc, take_app, take_ge by done. by rewrite <- app_assoc.
Qed.
End Ags.

(** ** The properties *)

(** C38: what a result does to the gradebook's cells, by the Student's launches of the unit that name a line item:
    when [enqueue] returns, a cell whose latest launch is eligible and among the Student's 50 latest has the result,
    sent or waiting (an older one is not looked at: [fifty_first_missed]); and a cell it changed is that of an
    eligible launch among those 50, by an account bound to the Student, of an active platform of the release's
    tenant that was granted the score scope, with its line item on the platform's own origin. *)
Theorem result_cells {cfg : Config} {gb : Gradebook} w tenant reg release_id i s now new_id rows rows' due :
  enqueue w tenant reg release_id i s now new_id rows = Ok (rows', due) ->
  let launches := launches_of w (r_user reg) (resource_id release_id i) in
  (forall l, latest_of w (r_user reg) (resource_id release_id i) l -> eligible w tenant (r_user reg) l = Ok true ->
    has_result (result_of s) rows' (launch_key l)) /\
  (forall l, leads launches l -> eligible w tenant (r_user reg) l = Ok true -> has_result (result_of s) rows' (launch_key l)) /\
  (forall k, rows' !! k <> rows !! k -> has_result (result_of s) rows' k /\ exists l keycloak_id platform, l ∈ launches /\ launch_key l = k /\
     w_users w !! r_user reg = Some keycloak_id /\ is_bound w (v_platform l) (v_sub l) (r_user reg) keycloak_id = true /\
     w_platforms w !! v_platform l = Some platform /\ f_active platform = true /\ f_tenant platform = tenant /\
     score_scope (v_scopes l) = true /\ _own_lineitem platform (v_lineitem l) = Ok true).
Proof.
  intros H launches. unfold enqueue in H. fold launches in H. apply offer_all_cells in H as [H1 H2].
  assert (Hlead : forall l, leads launches l -> eligible w tenant (r_user reg) l = Ok true -> has_result (result_of s) rows' (launch_key l)).
  { intros l Hl He. apply H1; [done|by apply not_elem_of_nil|done]. }
  split; [intros l Hl; by apply Hlead, leads_latest|]. split; [exact Hlead|].
  intros k Hk. destruct (H2 k Hk) as (l & (b & a & Hl & _) & _ & Hlk & He & Hres). split; [done|].
  unfold eligible in He. destruct (w_users w !! r_user reg) as [keycloak_id|] eqn:Eu; [|done].
  destruct (w_platforms w !! v_platform l) as [platform|] eqn:Ep; [|done]. destruct (_ && _) eqn:Eb; [|done].
  do 3 (apply andb_true_iff in Eb as [Eb ?]). exists l, keycloak_id, platform.
  split; [rewrite Hl; apply elem_of_app; right; by left|]. repeat split; done || by apply String.eqb_eq.
Qed.

(** C39: a cell marked sent was sent as it is: whatever senders do at once, lose, repeat or finish late, and whatever
    results come meanwhile, the platform took exactly the score the row holds. *)
Theorem sent_was_taken {cfg : Config} {gb : Gradebook} y k r :
  runs y -> y_rows y !! k = Some r -> a_state r = Sent -> message_of r ∈ y_taken y.
Proof. intros Hr Hk Hs. apply (ro_sent _ _ _ _ (proj1 (si_good _ (runs_inv _ Hr) _ _ Hk)) Hs). Qed.

(** C40: no result is stuck: whatever happened, an hour on a waiting row can be claimed, and a sender that comes back
    to it each hour settles it, sent or failed, within the attempts allowed, and at once if the platform takes it. *)
Theorem results_settle {cfg : Config} {gb : Gradebook} y k r w now :
  runs y -> y_rows y !! k = Some r -> a_state r = Pending -> y_clock y + HOUR <= now ->
  is_Some (claim now k (a_id r) (y_rows y)) /\
  (active w r = true -> (deliver w (fun _ => None) now now k (a_id r) (y_rows y)).1 = Some Sent) /\
  forall answers, Z.max 1 ags_max_attempts <= zlen answers ->
    exists r', retry w answers now k (a_id r) (y_rows y) !! k = Some r' /\ a_state r' <> Pending.
Proof.
  intros Hr Hk Hs Hn. destruct (si_good _ (runs_inv _ Hr) _ _ Hk) as [[H1 _ H3 [H4 _]] _]. destruct (H3 Hs) as (t & Ht & Hle).
  assert (Hd : is_due now r = true) by (eapply is_due_at; [done|done|lia]). split; [|split].
  - unfold claim, by_id. rewrite Hk, String.eqb_refl, Hd. by eexists.
  - intros Ha. rewrite deliver_due by done. rewrite Ha. done.
  - intros answers Hl. eapply retry_settles; [done| |exact Hl]. split; [done|done|exists t; split; [done|lia]|lia].
Qed.

(** ** Examples *)

#[local] Instance demo_gradebook : Gradebook := {| ags_max_attempts := 3; bracketed_ok _ := true |}.
#[local] Instance demo_digest : Config :=
  {| sha256 _ := "k"; mac _ := []; home := ""; iri_base := ""; web_base := ""; package _ := None; quiz _ _ := None;
     session_time := 0; fetch_time := 0; attempts := 3 |}.
Example demo_origin : _origin " HTTPS://LMS.example:8443/line?x=1" = Ok ("https", "lms.example:8443")%string.
Proof. reflexivity. Qed.
Definition demo_launch (lineitem : string) : launch_row :=
  LTILaunch "p1" "u1" "42" "cmi5" "c1:0" lineitem (Some (JList [JStr AGS_SCORE_SCOPE])) 0.
Definition demo_world (lineitem : string) : world :=
  World [demo_launch lineitem] {["p1" := ExternalPlatform "p1" "t1" true (Some "https://lms.example") "http://10.0.0.5"]}%string
    {["u1" := "lti:p1:42"]}%string [].
Definition demo_student : registration := Reg "r1" "u1" "c1" empty_progress.
Definition demo_result : au_state := AuState true true false None (Some (8 # 10)%Q).
Definition demo_line : string := "https://lms.example/line/7".
Definition demo_key : string := launch_key (demo_launch demo_line).
Definition demo_rows : outbox := {[demo_key := new_score "a1" "t1" demo_student "c1" 0 (demo_launch demo_line) (result_of demo_result) 5]}.

Lemma result_cells_witness :
  exists rows due, enqueue (demo_world demo_line) "t1" demo_student "c1" 0 demo_result 5 (fun _ => "a1"%string) ∅ = Ok (rows, due) /\
    has_result (result_of demo_result) rows demo_key.
Proof.
  exists demo_rows, 1%nat. split; [vm_compute; reflexivity|].
  assert (He : enqueue (demo_world demo_line) "t1" demo_student "c1" 0 demo_result 5 (fun _ => "a1"%string) ∅ = Ok (demo_rows, 1%nat))
    by (vm_compute; reflexivity).
  destruct (result_cells _ _ _ _ _ _ _ _ _ _ _ He) as [Hc _]. apply (Hc (demo_launch demo_line)).
  - split; [by left|]. split; [vm_compute; reflexivity|]. split; [|vm_compute; lia].
    intros l ->%list_elem_of_singleton _ _. by left.
  - vm_compute. reflexivity.
Defined.

(** The result is recorded, claimed, read, taken and marked. *)
Definition demo_queued : sys := Sys demo_rows ∅ [] 5.
Lemma demo_queued_runs : runs demo_queued.
Proof.
  eapply rtc_l; [|apply rtc_refl].
  apply (mv_enqueue (Sys ∅ ∅ [] 0) (demo_world demo_line) "t1" demo_student "c1" 0 demo_result 5 (fun _ => "a1"%string) demo_rows 1).
  - intros n p r Hn. by cbn in Hn; rewrite lookup_empty in Hn.
  - intros k n p r Hn. by cbn in Hn; rewrite lookup_empty in Hn.
  - vm_compute. reflexivity.
Qed.
Definition demo_row : score_row := new_score "a1" "t1" demo_student "c1" 0 (demo_launch demo_line) (result_of demo_result) 5.
Definition demo_claimed : score_row := with_next (Some (6 + LEASE)) demo_row.
Definition demo_sent : sys := Sys {[demo_key := with_sent 7 demo_claimed]} ∅ [message_of demo_row] 7.
Lemma demo_sent_runs : runs demo_sent.
Proof.
  unfold runs. etransitivity; [apply demo_queued_runs|].
  eapply rtc_l; [apply (mv_claim demo_queued 0 demo_key "a1" 6 {[demo_key := demo_claimed]}); [done|vm_compute; reflexivity]|].
  eapply rtc_l; [eapply (mv_read _ 0 demo_key "a1" (demo_world demo_line)); reflexivity|].
  eapply rtc_l; [apply (mv_taken _ 0 demo_claimed None); vm_compute; reflexivity|].
  eapply rtc_l; [apply (mv_finish _ 0 demo_claimed None 7); vm_compute; reflexivity|].
  match goal with |- rtc _ ?y _ => assert (E : y = demo_sent) by (vm_compute; reflexivity); rewrite E end. apply rtc_refl.
Qed.
Lemma sent_was_taken_witness : message_of (with_sent 7 demo_claimed) ∈ y_taken demo_sent.
Proof. apply (sent_was_taken demo_sent demo_key (with_sent 7 demo_claimed) demo_sent_runs); vm_compute; reflexivity. Defined.
Lemma results_settle_witness :
  is_Some (claim (5 + HOUR) demo_key "a1" demo_rows) /\
  exists r, retry (demo_world demo_line) (replicate 3 (Some (AGSError "HTTP 503" true))) (5 + HOUR) demo_key "a1" demo_rows !! demo_key = Some r /\
    a_state r = Failed.
Proof.
  destruct (results_settle demo_queued demo_key demo_row (demo_world demo_line) (5 + HOUR) demo_queued_runs) as (H1 & _ & H3);
    [vm_compute; reflexivity|reflexivity|vm_compute; discriminate|]. split; [exact H1|].
  destruct (H3 (replicate 3 (Some (AGSError "HTTP 503" true)))) as (r & Hr & Hs); [vm_compute; discriminate|].
  exists r. split; [exact Hr|]. vm_compute in Hr. injection Hr as <-. reflexivity.
Defined.

(** A line item that is no address is not skipped: the request that recorded the result fails, after the LRS has
    taken the statement. *)
Lemma bad_lineitem_raises :
  enqueue (demo_world "https://[lms.example/line/7") "t1" demo_student "c1" 0 demo_result 5 (fun _ => "a1"%string) ∅ = Err ValueError.
Proof. vm_compute. reflexivity. Qed.

(** A cell whose only launch is the Student's 51st latest gets no result, though the launch is eligible. *)
Definition demo_later (n : nat) : launch_row :=
  LTILaunch "p1" "u1" "42" "cmi5" "c1:0" "https://lms.example/line/8" (Some (JList [JStr AGS_SCORE_SCOPE])) (Z.of_nat (S n)).
Definition demo_many (lineitem : string) : world :=
  World (demo_launch lineitem :: (demo_later <$> seq 0 50)) (w_platforms (demo_world lineitem)) (w_users (demo_world lineitem)) [].
Lemma fifty_first_missed :
  eligible (demo_many demo_line) "t1" "u1" (demo_launch demo_line) = Ok true /\
  (forall l, l ∈ launches_of (demo_many demo_line) "u1" (resource_id "c1" 0) -> v_lineitem l = "https://lms.example/line/8"%string) /\
  exists rows, enqueue (demo_many demo_line) "t1" demo_student "c1" 0 demo_result 5 (fun _ => "a1"%string) ∅ = Ok (rows, 1%nat).
Proof.
  split; [vm_compute; reflexivity|]. split; [|eexists; vm_compute; reflexivity].
  apply Forall_forall. vm_compute (launches_of _ _ _). by repeat constructor.
Qed.
