(* ===== verification/ClassRanges.v ===== *)
(** * A class's ranges

    Models the clock of [control-plane/api/app/classes/ranges.py]: one row per (class, template, seat),
    its range created and built when a session's lead is reached, kept across sessions and torn down when
    the class no longer needs it; with [holding_sessions] and [attach_range] of [scheduler/service.py].
    Builds and teardowns are RangeLifecycle.v's.  A transaction works with a version of the row committed
    earlier, by any replica; the log is kept newest first.  Times are seconds, days day numbers.  The
    theorems: the rows are well formed; a range a class built is on a row that stands until the pass tears
    it down or finds it gone; a tick is a run of these transactions, and builds within its budget. *)

From S2P Require Import Prelude StateMachines RangeOps RangeLifecycle Capacity.

Local Open Scope Z_scope.

(** ** Data *)

Definition SHARED_SEAT : string := "shared".
Record Cls := MkCls { cl_tenant : string; cl_status : string; cl_end_date : Z }.
(** A roll-call entry; [en_off]: its status is one of [OFF_ROLL_CALL]. *)
Record RollCallEntry := MkEntry { en_id : string; en_tenant : string; en_class : string; en_off : bool }.
(** A [class_ranges] row. *)
(** [last_error]: a refusal, or an exception ([FAILED_PREFIX]; exceptions are outside the model). *)
Inductive trouble := Waiting (what : note) | WaitingTeardown (what : note) | FailedToStart (message : string).
Inductive reason := ClassGone | ClassIs (status : string) | STUDENT_REMOVED | NO_SESSION | CLASS_ENDED.
Record crow := MkRow {
  w_tenant : string; w_class : string; w_template : string; w_kind : ClassRangeKind; w_entry : option string; w_seat : string;
  w_range : option string; w_builds : Z; w_built_at : option Z; w_torn : option Z; w_reason : option reason; w_error : option trouble }.
(** A class session with its booking. *)
Record session := MkSession {
  s_event : string; s_class : string; s_link_tenant : string; s_tenant : string; s_mode : RangeMode; s_template : option string;
  s_state : EventState; s_start : Z; s_end : Z; s_range : option string }.
(** What happened: the audit log's lines, with what the theorems need of the moment and the text does not say ([old]
    and [found]: the range the row held when it was read, and that range's state).  A teardown for a class that is gone
    writes no line in the code, and has one here. *)
Inductive centry :=
| CCreated (row range : string) (old : option string) (found : option RangeState)
| CTeardown (row range : string) (why : reason) (window_bypass : option bypass) (what : note)
| CAttached (event range : string).
Record cworld := CWorld {
  y_rows : gmap string crow; y_ranges : gmap string range; y_classes : gmap string Cls; y_entries : list RollCallEntry;
  y_sessions : list session; y_log : list centry }.

Definition set_rows (m : gmap string crow) (w : cworld) : cworld :=
  CWorld m (y_ranges w) (y_classes w) (y_entries w) (y_sessions w) (y_log w).
Definition put_rng (r : string) (rng : option range) (w : cworld) : cworld :=
  CWorld (y_rows w) (match rng with Some x => <[r := x]> (y_ranges w) | None => y_ranges w end) (y_classes w) (y_entries w) (y_sessions w) (y_log w).
Definition note_log (x : centry) (w : cworld) : cworld :=
  CWorld (y_rows w) (y_ranges w) (y_classes w) (y_entries w) (y_sessions w) (x :: y_log w).
Definition with_error (e : option trouble) (r : crow) : crow :=
  MkRow (w_tenant r) (w_class r) (w_template r) (w_kind r) (w_entry r) (w_seat r) (w_range r) (w_builds r) (w_built_at r) (w_torn r) (w_reason r) e.
Definition rebuilt (new : string) (now builds : Z) (r : crow) : crow :=
  MkRow (w_tenant r) (w_class r) (w_template r) (w_kind r) (w_entry r) (w_seat r) (Some new) (builds + 1) (Some now) None None None.
Definition torn_down (now : Z) (why : reason) (r : crow) : crow :=
  MkRow (w_tenant r) (w_class r) (w_template r) (w_kind r) (w_entry r) (w_seat r) (w_range r) (w_builds r) (w_built_at r) (Some now) (Some why) None.

(** What a transaction meets, and the ids (uuids) it draws: a row's for a place, a range's for the moment of the log. *)
Record cenv := CEnv { x_now : Z; x_broker : option string; x_pool : bool; x_covers : string -> bool;
                      x_row_id : string -> string -> string -> string; x_range_id : nat -> string }.

Section ClassRanges.
Context (PROVISION_LEAD TEARDOWN_GRACE stale_after : Z) (request_hash : action -> string).

Definition site_of (k : cenv) (r : string) : site := Site (x_now k) (x_broker k) (x_covers k r) (x_pool k).

(** ** Reads *)

Definition is_class_range (w : cworld) (r : string) : bool :=
  existsb (fun p => bool_decide (w_range p.2 = Some r) && bool_decide (w_torn p.2 = None)) (map_to_list (y_rows w)).
Definition _of_class (w : cworld) (cid tenant r : string) : bool :=
  existsb (fun p => String.eqb (w_class p.2) cid && String.eqb (w_tenant p.2) tenant && bool_decide (w_range p.2 = Some r)) (map_to_list (y_rows w)).
Definition find_entry (w : cworld) (i : string) : option RollCallEntry := List.find (fun e => String.eqb (en_id e) i) (y_entries w).
Definition _seats (w : cworld) (cid : string) (c : Cls) : list RollCallEntry :=
  List.filter (fun e => String.eqb (en_class e) cid && String.eqb (en_tenant e) (cl_tenant c) && negb (en_off e)) (y_entries w).

Definition starts_sooner (a b : session) : bool := s_start a <=? s_start b.
(** [_due], with [holding_sessions]. *)
Definition _due (k : cenv) (w : cworld) : list session :=
  List.filter (fun s => negb (bool_decide (s_template s = None)) && String.eqb (s_link_tenant s) (s_tenant s))
    (take 500 (py_sorted starts_sooner (List.filter (fun s => bool_decide (s_state s ∈ HOLDING) && (x_now k <? s_end s) &&
      (s_start s <=? x_now k + PROVISION_LEAD)) (y_sessions w)))).

(** [attach_range] *)
Definition attach_range (event r : string) (w : cworld) : bool * cworld :=
  let hit s := String.eqb (s_event s) event && bool_decide (s_range s = None) && bool_decide (s_state s ∈ HOLDING) in
  (existsb hit (y_sessions w),
   CWorld (y_rows w) (y_ranges w) (y_classes w) (y_entries w)
     (map (fun s => if hit s then MkSession (s_event s) (s_class s) (s_link_tenant s) (s_tenant s) (s_mode s) (s_template s) (s_state s)
        (s_start s) (s_end s) (Some r) else s) (y_sessions w)) (y_log w)).

(** ** One seat's range *)

(** [_row]: the row of (class, template, seat), made if there is none. *)
Definition row_of (w : cworld) (cid tid key : string) : option string :=
  option_map fst (List.find (fun p => String.eqb (w_class p.2) cid && String.eqb (w_template p.2) tid && String.eqb (w_seat p.2) key) (map_to_list (y_rows w))).
Definition seat_key (e : option string) : string := match e with Some i => i | None => SHARED_SEAT end.
Definition _row (k : cenv) (cid : string) (c : Cls) (tid : string) (e : option string) (w : cworld) : string * cworld :=
  match row_of w cid tid (seat_key e) with
  | Some i => (i, w)
  | None =>
      let i := x_row_id k cid tid (seat_key e) in
      (i, set_rows (<[i := MkRow (cl_tenant c) cid tid (match e with Some _ => seat | None => shared end) e (seat_key e) None 0 None None None None]> (y_rows w)) w)
  end.

Definition note_error (i : string) (e : option trouble) (w : cworld) : cworld := set_rows (alter (with_error e) i (y_rows w)) w.

(** [_provision] *)
Definition _provision (k : cenv) (i r : string) (w : cworld) : cworld :=
  let '(built, what, rng) := provision_for_booking stale_after request_hash (site_of k r) (y_ranges w !! r) in
  let w1 := put_rng r rng w in
  if built || match y_ranges w1 !! r with Some x => negb (bool_decide (d_state (r_db x) = created)) | None => false end
  then note_error i None w1 else note_error i (Some (Waiting what)) w1.

(** Whether the row's range stands; [st]: its range's state as loaded, None when it has no range. *)
Definition standing (row : crow) (st : option RangeState) : bool :=
  match st with Some s => bool_decide (w_torn row = None) && negb (bool_decide (s ∈ [destroying; destroyed])) | None => false end.

(** The guarded UPDATE of [_ensure], with the new range and its line. *)
Definition renew (k : cenv) (i new : string) (seen : crow) (st : option RangeState) (w : cworld) : bool * cworld :=
  match y_rows w !! i with
  | Some row =>
      if bool_decide (w_range row = w_range seen)
      then (true, note_log (CCreated i new (w_range seen) st)
                    (set_rows (<[i := rebuilt new (x_now k) (w_builds seen) row]> (y_rows w))
                      (put_rng new (Some (Rng false false (Rdb (x_now k) created None NoVms [] None None false [] 0))) w)))
      else (false, w)
  | None => (false, w)
  end.

(** [_ensure]; [budget]: the builds left in this tick. *)
Definition state_of (w : cworld) (row : crow) : option RangeState :=
  match w_range row with Some r => option_map (fun x => d_state (r_db x)) (y_ranges w !! r) | None => None end.
Definition _ensure (k : cenv) (cid : string) (c : Cls) (tid : string) (e : option string) (bw : Z * cworld) : option string * (Z * cworld) :=
  let '(budget, w) := bw in
  let '(i, w1) := _row k cid c tid e w in
  match y_rows w1 !! i with
  | None => (None, (budget, w1))   (* never: it was just found or made *)
  | Some row =>
      let st := state_of w1 row in
      match (if standing row st then w_range row else None) with
      | Some r => (Some i, (budget, if bool_decide (st = Some created) then _provision k i r w1 else w1))
      | None =>
          if budget <=? 0 then (Some i, (budget, w1))
          else
            let new := x_range_id k (length (y_log w1)) in
            match renew k i new row st w1 with
            | (true, w2) => (Some i, (budget - 1, _provision k i new w2))
            | (false, w2) => (None, (budget - 1, w2))
            end
      end
  end.

(** ** Teardown *)

Definition NOT_CALLED_OFF (s : session) : bool := negb (bool_decide (s_state s ∈ [s_cancelled; s_rejected])).
Definition _needed (w : cworld) (cid : string) : list (ClassRangeKind * string) :=
  omap (fun s => if String.eqb (s_class s) cid && NOT_CALLED_OFF s then option_map (pair (kind_of (s_mode s))) (s_template s) else None) (y_sessions w).
Definition _ends (w : cworld) (cid : string) (c : Cls) : Z :=
  max_list (last_day_end (cl_end_date c)) (map s_end (List.filter (fun s => String.eqb (s_class s) cid && NOT_CALLED_OFF s) (y_sessions w))).

Definition on_roll_call (w : cworld) (row : crow) : bool :=
  match (match w_entry row with Some i => find_entry w i | None => None end) with Some e => negb (en_off e) | None => false end.
Definition _why_done (w : cworld) (c : option Cls) (row : crow) (now : Z) (needed : list (ClassRangeKind * string)) : option (reason * option bypass) :=
  match c with
  | None => Some (ClassGone, None)
  | Some c =>
      if negb (String.eqb (cl_status c) "open") then Some (ClassIs (cl_status c), None)
      else if bool_decide (w_kind row = seat) && negb (on_roll_call w row) then Some (STUDENT_REMOVED, None)
      else if negb (bool_decide ((w_kind row, w_template row) ∈ needed)) then Some (NO_SESSION, None)
      else if _ends w (w_class row) c + TEARDOWN_GRACE <=? now then Some (CLASS_ENDED, Some BYPASS_BOOKING_ENDED)
      else None
  end.

(** The end of [_teardown_if_done], for the range [r] the row held when the pass read it; [seen]: the state the range was loaded in. *)
Definition _teardown (k : cenv) (i r : string) (why : reason) (window_bypass : option bypass) (seen : option RangeState) (w : cworld) : bool * cworld :=
  let '(settled, what, rng) :=
    if bool_decide (seen = Some created) then discard_unbuilt created (y_ranges w !! r)
    else destroy_for_booking stale_after request_hash (site_of k r) (y_ranges w !! r) window_bypass in
  let w1 := put_rng r rng w in
  if settled
  then (true, note_log (CTeardown i r why window_bypass what)
                (set_rows (alter (fun row => if bool_decide (w_range row = Some r) && bool_decide (w_torn row = None)
                                             then torn_down (x_now k) why row else row) i (y_rows w1)) w1))
  else (false, note_error i (Some (WaitingTeardown what)) w1).
Definition _teardown_if_done (k : cenv) (i : string) (row : crow) (needed : list (ClassRangeKind * string)) (w : cworld) : bool * cworld :=
  match w_range row, _why_done w (y_classes w !! w_class row) row (x_now k) needed with
  | Some r, Some (why, b) => _teardown k i r why b (state_of w row) w
  | _, _ => (false, w)
  end.

(** ** A tick *)

Definition ensure_session (k : cenv) (bw : Z * cworld) (s : session) : Z * cworld :=
  match y_classes bw.2 !! s_class s, s_template s with
  | Some c, Some tid =>
      if negb (String.eqb (cl_tenant c) (s_tenant s)) || negb (String.eqb (cl_status c) "open") then bw
      else
        match s_mode s with
        | individual => fold_left (fun bw e => (_ensure k (s_class s) c tid (Some (en_id e)) bw).2) (_seats bw.2 (s_class s) c) bw
        | collective =>
            if match s_range s with None => true | Some r => _of_class bw.2 (s_class s) (cl_tenant c) r end
            then
              let '(row, bw1) := _ensure k (s_class s) c tid None bw in
              match (match row with Some i => match y_rows bw1.2 !! i with Some x => w_range x | None => None end | None => None end), s_range s with
              | Some r, None => match attach_range (s_event s) r bw1.2 with
                                | (true, w2) => (bw1.1, note_log (CAttached (s_event s) r) w2)
                                | (false, w2) => (bw1.1, w2)
                                end
              | _, _ => bw1
              end
            else bw
        end
  | _, _ => bw
  end.

Definition id_leb (a b : string * crow) : bool := string_leb a.1 b.1.
Definition _live (w : cworld) : list (string * crow) :=
  py_sorted id_leb (List.filter (fun p => negb (bool_decide (w_range p.2 = None)) && bool_decide (w_torn p.2 = None)) (map_to_list (y_rows w))).
Definition tick (k : cenv) (BUILDS_PER_TICK : Z) (w : cworld) : cworld :=
  let w1 := (fold_left (ensure_session k) (_due k w) (BUILDS_PER_TICK, w)).2 in
  fold_left (fun v p => (_teardown_if_done k p.1 p.2 (_needed w1 (w_class p.2)) v).2) (_live w1) w1.

(** [status(row, rng) == "failed"], with its row not torn down and its range there. *)
Definition status_failed (row : crow) (st : option RangeState) : bool :=
  bool_decide (w_torn row = None) &&
  match st with
  | Some s => bool_decide (s = failed) || (bool_decide (s = created) && match w_error row with Some (FailedToStart _) => true | _ => false end)
  | None => false
  end.
Definition retry (k : cenv) (i : string) (c : Cls) (row : crow) (w : cworld) : result http_error unit * cworld :=
  if negb (String.eqb (cl_status c) "open") then (Err (Http 409), w)
  else if bool_decide (w_kind row = seat) &&
          negb match (match w_entry row with Some e => find_entry w e | None => None end) with
               | Some e => String.eqb (en_tenant e) (cl_tenant c) && negb (en_off e)
               | None => false
               end
  then (Err (Http 409), w)
  else
    match (if status_failed row (state_of w row) then w_range row else None) with
    | None => (Err (Http 409), w)
    | Some r =>
        let '(built, what, rng) := provision_for_booking stale_after request_hash (site_of k r) (y_ranges w !! r) in
        if built then (Ok tt, note_error i None (put_rng r rng w)) else (Err (Http 409), put_rng r rng w)
    end.

(** ** Transactions of any replica *)

Definition hist : Type := list (string * crow).
Definition keep (w : cworld) (h : hist) : cworld * hist := (w, h ++ map_to_list (y_rows w)).

Inductive kstep : cworld * hist -> cworld * hist -> Prop :=
| k_row k cid c tid e w h : e <> Some SHARED_SEAT ->   (* an id is a uuid *)
    (row_of w cid tid (seat_key e) = None -> y_rows w !! x_row_id k cid tid (seat_key e) = None) ->
    kstep (w, h) (keep (_row k cid c tid e w).2 h)
| k_renew k i new seen st w h : (i, seen) ∈ h -> standing seen st = false -> (forall j v, (j, v) ∈ h -> w_range v <> Some new) ->
    kstep (w, h) (keep (renew k i new seen st w).2 h)
| k_provision k i r w h : kstep (w, h) (keep (_provision k i r w) h)
| k_attach event r w h : kstep (w, h) (keep (attach_range event r w).2 h)
| k_attached event r w h : kstep (w, h) (keep (note_log (CAttached event r) w) h)
| k_teardown k i row r why b seen w h : (i, row) ∈ h -> w_range row = Some r ->
    kstep (w, h) (keep (_teardown k i r why b seen w).2 h)
| k_retry k i c row w h : kstep (w, h) (keep (retry k i c row w).2 h)
| k_other ranges classes entries sessions w h :   (* workers and people *)
    kstep (w, h) (keep (CWorld (y_rows w) ranges classes entries sessions (y_log w)) h).

(** A well-formed row. *)
Definition typed (v : crow) : Prop :=
  match w_kind v with
  | seat => w_entry v = Some (w_seat v) /\ w_seat v <> SHARED_SEAT
  | shared => w_entry v = None /\ w_seat v = SHARED_SEAT
  end /\
  (w_torn v = None <-> w_reason v = None) /\ (w_torn v <> None -> w_range v <> None) /\
  (w_range v = None <-> w_builds v = 0) /\ (w_range v = None <-> w_built_at v = None) /\ 0 <= w_builds v.
Definition place (v : crow) : string * string * string := (w_class v, w_template v, w_seat v).

(** The lines that settle a range: it was torn down, or found gone when its row was rebuilt. *)
Definition settles (x : centry) (r : string) : Prop :=
  match x with
  | CTeardown _ r' _ _ _ => r' = r
  | CCreated _ _ old found => old = Some r /\ (found = None \/ found = Some destroying \/ found = Some destroyed)
  | CAttached _ _ => False
  end.
Definition was_created (l : list centry) (r : string) : Prop := exists i old found, CCreated i r old found ∈ l.
Definition stands (w : cworld) (r : string) : Prop := exists i v, y_rows w !! i = Some v /\ w_range v = Some r /\ w_torn v = None.

Record KInv (w : cworld) (h : hist) : Prop := MkKInv {
  k_rows : forall i v, y_rows w !! i = Some v -> (i, v) ∈ h;
  k_typed : forall i v, (i, v) ∈ h -> typed v;
  k_hist : forall i v, (i, v) ∈ h -> exists row, y_rows w !! i = Some row /\ place row = place v /\
    (w_torn v <> None -> w_range row = w_range v -> w_torn row <> None);
  k_place : forall i j v u, y_rows w !! i = Some v -> y_rows w !! j = Some u -> place v = place u -> i = j;
  k_range : forall i j v u r, (i, v) ∈ h -> (j, u) ∈ h -> w_range v = Some r -> w_range u = Some r -> i = j;
  k_log : forall r, was_created (y_log w) r -> exists i v, (i, v) ∈ h /\ w_range v = Some r;
  k_account : forall r, was_created (y_log w) r -> stands w r \/ exists x, x ∈ y_log w /\ settles x r;
  k_done : forall r x, x ∈ y_log w -> settles x r -> (exists i v, (i, v) ∈ h /\ w_range v = Some r) /\ ~ stands w r }.

(** A transaction that changes one row: [f] keeps its place, and its range unless it is new. *)
Definition same_or_new (h : hist) (v v' : crow) : Prop :=
  place v' = place v /\ (w_torn v <> None -> w_range v' = w_range v -> w_torn v' <> None) /\
  (w_range v' = w_range v \/ exists new, w_range v' = Some new /\ forall j u, (j, u) ∈ h -> w_range u <> Some new).

Lemma kcommit w h w' i v v' : KInv w h -> y_rows w !! i = Some v -> y_rows w' = <[i := v']> (y_rows w) -> typed v' -> same_or_new h v v' ->
  (forall r, was_created (y_log w') r -> was_created (y_log w) r \/ w_range v' = Some r) ->
  (forall r, was_created (y_log w') r -> stands w' r \/ exists x, x ∈ y_log w' /\ settles x r) ->
  (forall r x, x ∈ y_log w' -> settles x r ->
     x ∈ y_log w \/ ((exists u, (i, u) ∈ h /\ w_range u = Some r) /\ ~ (w_range v' = Some r /\ w_torn v' = None))) ->
  KInv w' (h ++ map_to_list (y_rows w')).
Proof.
  intros Hi Hv Hrows Ht (Hp & Htorn & Hr) Hlog Hacc Hdone.
  assert (Hvh : (i, v) ∈ h) by by apply (k_rows w h Hi).
  assert (Hnew : forall j u, (j, u) ∈ map_to_list (y_rows w') -> (j = i /\ u = v') \/ (j, u) ∈ h).
  { intros j u Hu. apply elem_of_map_to_list in Hu. rewrite Hrows in Hu. apply lookup_insert_Some in Hu as [[<- <-]|[_ Hu]]; [by left|].
    right. by apply (k_rows w h Hi). }
  assert (Hin : forall j u, (j, u) ∈ h ++ map_to_list (y_rows w') -> (j = i /\ u = v') \/ (j, u) ∈ h).
  { intros j u [Hu|Hu]%elem_of_app; [by right|by apply Hnew]. }
  split.
  - intros j u Hu. apply elem_of_app. right. by apply elem_of_map_to_list.
  - intros j u [[-> ->]|Hu]%Hin; [done|by apply (k_typed w h Hi j)].
  - intros j u [[-> ->]|Hu]%Hin; [exists v'; rewrite Hrows, lookup_insert_eq; done|].
    destruct (k_hist w h Hi j u Hu) as (row & Hrow & Hpl & Htr). rewrite Hrows. destruct (decide (j = i)) as [->|Hne].
    + rewrite lookup_insert_eq. exists v'. rewrite Hv in Hrow. injection Hrow as <-. split; [done|]. split; [congruence|].
      intros Hut Heq. destruct Hr as [Hr|(new & Hr & Hfresh)]; [|exfalso; apply (Hfresh i u Hu); congruence].
      apply Htorn; [|done]. apply Htr; [done|congruence].
    + rewrite lookup_insert_ne by done. by exists row.
  - intros j l a b Ha Hb Hpl. rewrite Hrows in Ha, Hb. apply lookup_insert_Some in Ha as [[<- <-]|[Hja Ha]]; apply lookup_insert_Some in Hb as [[<- <-]|[Hjb Hb]];
      [done| | |by eapply (k_place w h Hi)].
    + eapply (k_place w h Hi i l v b); [done|done|congruence].
    + eapply (k_place w h Hi j i a v); [done|done|congruence].
  - intros j l a b r Ha%Hin Hb%Hin Hra Hrb.
    destruct Ha as [[-> ->]|Ha], Hb as [[-> ->]|Hb]; [done| | |by eapply (k_range w h Hi)].
    + destruct Hr as [Hr|(new & Hr & Hfresh)]; [by eapply (k_range w h Hi i l v b r); [..|congruence|]|exfalso; apply (Hfresh l b Hb); congruence].
    + destruct Hr as [Hr|(new & Hr & Hfresh)]; [by eapply (k_range w h Hi j i a v r); [..|congruence]|exfalso; apply (Hfresh j a Ha); congruence].
  - intros r Hc. destruct (Hlog r Hc) as [Hc'|Hr'].
    + destruct (k_log w h Hi r Hc') as (j & u & Hu & Hur). exists j, u. split; [apply elem_of_app; by left|done].
    + exists i, v'. split; [|done]. apply elem_of_app. right. apply elem_of_map_to_list. by rewrite Hrows, lookup_insert_eq.
  - done.
  - intros r x Hx Hs. assert (Hother : forall j u, (j, u) ∈ h -> w_range u = Some r -> stands w' r ->
      (w_range v' = Some r /\ w_torn v' = None) \/ stands w r).
    { intros j u Hu Hur (l & a & Ha & Har & Hat). rewrite Hrows in Ha. apply lookup_insert_Some in Ha as [[<- <-]|[_ Ha]]; [by left|].
      right. by exists l, a. }
    destruct (Hdone r x Hx Hs) as [Hold|[(u & Hu & Hur) Hno]].
    + destruct (k_done w h Hi r x Hold Hs) as [(j & u & Hu & Hur) Hno]. split.
      * exists j, u. split; [apply elem_of_app; by left|done].
      * intros Hst. destruct (Hother j u Hu Hur Hst) as [[Hvr Hvt]|]; [|done].
        destruct Hr as [Hr|(new & Hr & Hfresh)]; [|apply (Hfresh j u Hu); congruence].
        destruct (decide (w_torn v = None)) as [Hn|Hn]; [|by apply (Htorn Hn Hr)]. apply Hno. exists i, v. by rewrite <- Hr.
    + split; [exists i, u; split; [apply elem_of_app; by left|done]|].
      intros (l & a & Ha & Har & Hat). rewrite Hrows in Ha. apply lookup_insert_Some in Ha as [[<- <-]|[Hne Ha]]; [by apply Hno|].
      apply Hne. by apply (k_range w h Hi i l u a r Hu (k_rows w h Hi l a Ha)).
Qed.

(** A transaction that leaves the rows as they are, and adds nothing of a new range. *)
Lemma kcommit_same w h w' : KInv w h -> y_rows w' = y_rows w -> (forall r, was_created (y_log w') r -> was_created (y_log w) r) ->
  (forall x, x ∈ y_log w -> x ∈ y_log w') -> (forall x r, x ∈ y_log w' -> settles x r -> x ∈ y_log w) -> KInv w' (h ++ map_to_list (y_rows w')).
Proof.
  intros Hi Hrows Hlog Hmono Hset.
  assert (Hin : forall j u, (j, u) ∈ h ++ map_to_list (y_rows w') -> (j, u) ∈ h).
  { intros j u [Hu|Hu]%elem_of_app; [done|]. rewrite Hrows in Hu. apply elem_of_map_to_list in Hu. by apply (k_rows w h Hi). }
  split.
  - intros j u Hu. apply elem_of_app. right. by apply elem_of_map_to_list.
  - intros j u Hu%Hin. by apply (k_typed w h Hi j).
  - intros j u Hu%Hin. rewrite Hrows. by apply (k_hist w h Hi).
  - rewrite Hrows. by apply (k_place w h Hi).
  - intros j l a b r Ha%Hin Hb%Hin. by apply (k_range w h Hi).
  - intros r Hc%Hlog. destruct (k_log w h Hi r Hc) as (j & u & Hu & Hur). exists j, u. split; [apply elem_of_app; by left|done].
  - intros r Hc%Hlog. destruct (k_account w h Hi r Hc) as [(j & u & Hu & Hur)|(x & Hx & Hs)].
    + left. exists j, u. by rewrite Hrows.
    + right. exists x. split; [by apply Hmono|done].
  - intros r x Hx Hs. destruct (k_done w h Hi r x (Hset x r Hx Hs) Hs) as [(j & u & Hu & Hur) Hno]. split.
    + exists j, u. split; [apply elem_of_app; by left|done].
    + intros (l & a & Ha & Hrest). apply Hno. exists l, a. by rewrite <- Hrows.
Qed.

(** The account kept by a transaction that changes one row. *)
Lemma kaccount w h w' i v v' : KInv w h -> y_rows w !! i = Some v -> y_rows w' = <[i := v']> (y_rows w) ->
  (forall x, x ∈ y_log w -> x ∈ y_log w') ->
  (forall r, w_range v = Some r -> w_torn v = None ->
     (w_range v' = Some r /\ w_torn v' = None) \/ exists x, x ∈ y_log w' /\ settles x r) ->
  forall r, was_created (y_log w) r -> stands w' r \/ exists x, x ∈ y_log w' /\ settles x r.
Proof.
  intros Hi Hv Hrows Hmono Hrow r Hc. destruct (k_account w h Hi r Hc) as [(j & u & Hu & Hur & Hut)|(x & Hx & Hs)].
  - destruct (decide (j = i)) as [->|Hne].
    + rewrite Hv in Hu. injection Hu as <-. destruct (Hrow r Hur Hut) as [[Hr Ht]|Hx]; [left|by right].
      exists i, v'. by rewrite Hrows, lookup_insert_eq.
    + left. exists j, u. by rewrite Hrows, lookup_insert_ne.
  - right. exists x. split; [by apply Hmono|done].
Qed.

(** Only a row's [last_error] changes. *)
Lemma note_inv w h i e : KInv w h -> KInv (note_error i e w) (h ++ map_to_list (y_rows (note_error i e w))).
Proof.
  intros Hi. destruct (y_rows w !! i) as [v|] eqn:Hv.
  - assert (Hrows : y_rows (note_error i e w) = <[i := with_error e v]> (y_rows w)).
    { apply map_eq. intros j. destruct (decide (j = i)) as [->|Hne]; cbn [note_error set_rows y_rows].
      - by rewrite lookup_alter_eq, Hv, lookup_insert_eq.
      - by rewrite lookup_alter_ne, lookup_insert_ne. }
    apply (kcommit w h _ i v (with_error e v) Hi Hv Hrows); [| |by left| |by left].
    + apply (k_typed w h Hi i v), (k_rows w h Hi), Hv.
    + split; [done|]. split; [done|by left].
    + apply (kaccount w h _ i v (with_error e v) Hi Hv Hrows); [done|by left].
  - apply (kcommit_same w h); [done| |done..]. cbn [note_error set_rows y_rows]. apply map_eq. intros j.
    destruct (decide (j = i)) as [->|Hne]; [by rewrite lookup_alter_eq, Hv|by rewrite lookup_alter_ne].
Qed.

Lemma put_inv w h r rng : KInv w h -> KInv (put_rng r rng w) h.
Proof. intros []. split; done. Qed.

Lemma row_of_none w cid tid key : row_of w cid tid key = None ->
  forall j u, y_rows w !! j = Some u -> place u <> (cid, tid, key).
Proof.
  unfold row_of. intros Hn j u Hu Hp. apply fmap_None in Hn.
  pose proof (List.find_none _ _ Hn (j, u)) as H. injection Hp as <- <- <-.
  cbn [snd] in H. rewrite !String.eqb_refl in H. discriminate H. apply list_elem_of_In. by apply elem_of_map_to_list.
Qed.

Lemma row_inv k cid c tid e w h : KInv w h -> e <> Some SHARED_SEAT ->
  (row_of w cid tid (seat_key e) = None -> y_rows w !! x_row_id k cid tid (seat_key e) = None) ->
  KInv (_row k cid c tid e w).2 (h ++ map_to_list (y_rows (_row k cid c tid e w).2)).
Proof.
  intros Hi He Hfresh. unfold _row. destruct (row_of _ _ _ _) as [i|] eqn:Hrow; cbn [snd]; [by apply (kcommit_same w h)|].
  specialize (Hfresh eq_refl). set (i := x_row_id _ _ _ _) in *. set (v := MkRow _ _ _ _ _ _ _ _ _ _ _ _). cbn [set_rows y_rows y_log].
  assert (Hp : place v = (cid, tid, seat_key e)) by done.
  assert (Hvr : w_range v = None) by done. assert (Hvt : w_torn v = None) by done.
  assert (Hv : typed v).
  { unfold typed, v. cbn [w_kind w_entry w_seat w_torn w_reason w_range w_builds w_built_at].
    destruct e as [e|]; cbn [seat_key]; (split; [split; [done|]|]); [|intuition lia|done|intuition lia]. congruence. }
  assert (Hno : forall u, (i, u) ∉ h).
  { intros u Hu. destruct (k_hist w h Hi i u Hu) as (row & Hr & _). by rewrite Hfresh in Hr. }
  clearbody v i.
  assert (Hin : forall j u, (j, u) ∈ h ++ map_to_list (<[i := v]> (y_rows w)) -> (j = i /\ u = v) \/ (j <> i /\ (j, u) ∈ h)).
  { intros j u [Hu|Hu%elem_of_map_to_list]%elem_of_app.
    - right. split; [|done]. intros ->. by apply (Hno u).
    - apply lookup_insert_Some in Hu as [[<- <-]|[Hne Hu]]; [by left|]. right. split; [done|]. by apply (k_rows w h Hi). }
  split; cbn [y_rows y_log set_rows].
  - intros j u Hu. apply elem_of_app. right. by apply elem_of_map_to_list.
  - intros j u [[-> ->]|[_ Hu]]%Hin; [done|by apply (k_typed w h Hi j)].
  - intros j u [[-> ->]|[Hne Hu]]%Hin; [exists v; by rewrite lookup_insert_eq|].
    destruct (k_hist w h Hi j u Hu) as (row & Hr & Hrest). exists row. by rewrite lookup_insert_ne.
  - intros j l a b Ha Hb Hpl. apply lookup_insert_Some in Ha as [[<- <-]|[Hja Ha]]; apply lookup_insert_Some in Hb as [[<- <-]|[Hjb Hb]];
      [done| | |by eapply (k_place w h Hi)]; exfalso.
    + apply (row_of_none w cid tid (seat_key e) Hrow l b Hb). congruence.
    + apply (row_of_none w cid tid (seat_key e) Hrow j a Ha). congruence.
  - intros j l a b r [[-> ->]|[_ Ha]]%Hin [[-> ->]|[_ Hb]]%Hin Hra Hrb; [done|congruence|congruence|by eapply (k_range w h Hi)].
  - intros r Hc. destruct (k_log w h Hi r Hc) as (j & u & Hu & Hur). exists j, u. split; [apply elem_of_app; by left|done].
  - intros r Hc. destruct (k_account w h Hi r Hc) as [(j & u & Hu & Hur)|Hx]; [left|by right].
    exists j, u. cbn [set_rows y_rows]. rewrite lookup_insert_ne; [done|]. intros <-. by rewrite Hfresh in Hu.
  - intros r x Hx Hs. destruct (k_done w h Hi r x Hx Hs) as [(j & u & Hu & Hur) Hnot]. split.
    + exists j, u. split; [apply elem_of_app; by left|done].
    + intros (l & a & Ha & Har & Hat). cbn [set_rows y_rows] in Ha.
      apply lookup_insert_Some in Ha as [[<- <-]|[_ Ha]]; [congruence|]. apply Hnot. by exists l, a.
Qed.

Lemma renew_inv k i new seen st w h : KInv w h -> (i, seen) ∈ h -> standing seen st = false ->
  (forall j v, (j, v) ∈ h -> w_range v <> Some new) ->
  KInv (renew k i new seen st w).2 (h ++ map_to_list (y_rows (renew k i new seen st w).2)).
Proof.
  intros Hi Hseen Hst Hfresh. unfold renew. destruct (y_rows w !! i) as [row|] eqn:Hrow; [|by apply (kcommit_same w h)].
  case_bool_decide as Heq; [|by apply (kcommit_same w h)]. cbn [snd].
  set (v' := rebuilt _ _ _ _). set (w' := note_log _ _).
  assert (Hrows : y_rows w' = <[i := v']> (y_rows w)) by done.
  assert (Hlog : y_log w' = CCreated i new (w_range seen) st :: y_log w) by done.
  pose proof (k_typed w h Hi i seen Hseen) as (_ & _ & _ & _ & _ & Hb).
  pose proof (k_typed w h Hi i row (k_rows w h Hi i row Hrow)) as (Hk & _).
  clearbody w'.
  apply (kcommit w h w' i row v' Hi Hrow Hrows).
  - unfold typed, v', rebuilt. cbn. split; [done|]. repeat split; try done; try lia.
  - split; [done|]. split; [|right; by exists new]. intros _ Hr. exfalso.
    apply (Hfresh i row (k_rows w h Hi i row Hrow)). by rewrite <- Hr.
  - intros r (j & old & found & Hc). rewrite Hlog in Hc. apply elem_of_cons in Hc as [Hc|Hc].
    + right. injection Hc as -> -> _ _. done.
    + left. by exists j, old, found.
  - assert (Hold : forall r, was_created (y_log w) r -> stands w' r \/ exists x, x ∈ y_log w' /\ settles x r).
    { apply (kaccount w h w' i row v' Hi Hrow Hrows).
      - intros x Hx. rewrite Hlog. by apply elem_of_cons; right.
      - intros r Hr Ht. right. exists (CCreated i new (w_range seen) st). rewrite Hlog. split; [by apply elem_of_cons; left|].
        split; [congruence|]. unfold standing in Hst. destruct st as [s|]; [right|by left].
        destruct (k_hist w h Hi i seen Hseen) as (row' & Hr' & _ & Htorn). rewrite Hrow in Hr'. injection Hr' as <-.
        destruct (decide (w_torn seen = None)) as [Hn|Hn]; [|by destruct (Htorn Hn Heq)].
        rewrite bool_decide_eq_true_2 in Hst by done. apply negb_false_iff, bool_decide_eq_true in Hst.
        apply elem_of_cons in Hst as [->|Hst]; [by left|right]. by apply list_elem_of_singleton in Hst as ->. }
    intros r (j & old & found & Hc). rewrite Hlog in Hc. apply elem_of_cons in Hc as [Hc|Hc]; [|apply Hold; by exists j, old, found].
    injection Hc as -> -> _ _. left. exists i, v'. by rewrite Hrows, lookup_insert_eq.
  - intros r x Hx Hs. rewrite Hlog in Hx. apply elem_of_cons in Hx as [->|Hx]; [right|by left].
    destruct Hs as [Hr _]. split; [by exists seen|]. intros [Hn _]. apply (Hfresh i seen Hseen). rewrite Hr. exact (eq_sym Hn).
Qed.

Lemma teardown_inv k i row r why b seen w h : KInv w h -> (i, row) ∈ h -> w_range row = Some r ->
  KInv (_teardown k i r why b seen w).2 (h ++ map_to_list (y_rows (_teardown k i r why b seen w).2)).
Proof.
  intros Hi Hrow Hrr. unfold _teardown. destruct (if bool_decide _ then _ else _) as [[settled what] rng].
  destruct settled; cbn [snd]; [|by apply note_inv, put_inv].
  set (f := fun row => if bool_decide (w_range row = Some r) && bool_decide (w_torn row = None) then torn_down (x_now k) why row else row).
  set (w' := note_log _ _).
  assert (Hlog : y_log w' = CTeardown i r why b what :: y_log w) by done.
  assert (Hmono : forall x, x ∈ y_log w -> x ∈ y_log w') by (intros x Hx; rewrite Hlog; by apply elem_of_cons; right).
  assert (Hc : forall x, was_created (y_log w') x -> was_created (y_log w) x).
  { intros x (j & old & found & Hx). rewrite Hlog in Hx. apply elem_of_cons in Hx as [Hx|Hx]; [done|]. by exists j, old, found. }
  assert (Hrows : y_rows w' = alter f i (y_rows w)) by done. clearbody w'.
  destruct (k_hist w h Hi i row Hrow) as (v & Hv & _).
  assert (Hins : y_rows w' = <[i := f v]> (y_rows w)).
    { rewrite Hrows. apply map_eq. intros j. destruct (decide (j = i)) as [->|Hne].
      - by rewrite lookup_alter_eq, Hv, lookup_insert_eq.
      - by rewrite lookup_alter_ne, lookup_insert_ne. }
    pose proof (k_typed w h Hi i v (k_rows w h Hi i v Hv)) as Hty.
    assert (Hf : (f v = v /\ (w_range v = Some r -> w_torn v <> None)) \/
                 (f v = torn_down (x_now k) why v /\ w_range v = Some r /\ w_torn v = None)).
    { unfold f. destruct (decide (w_range v = Some r)) as [Hr|Hr]; [|left; by rewrite (bool_decide_eq_false_2 _ Hr)].
      rewrite (bool_decide_eq_true_2 _ Hr). destruct (decide (w_torn v = None)) as [Ht|Ht].
      - right. by rewrite (bool_decide_eq_true_2 _ Ht).
      - left. by rewrite (bool_decide_eq_false_2 _ Ht). }
    apply (kcommit w h w' i v (f v) Hi Hv Hins).
    + destruct Hf as [[-> _]|(-> & Hr & Ht)]; [done|]. destruct Hty as (Hk & _ & _ & Hb & Ha & Hn). unfold typed, torn_down.
      cbn [w_kind w_entry w_seat w_torn w_reason w_range w_builds w_built_at]. rewrite Hr in Hb, Ha |- *.
      split; [done|]. by repeat split; try tauto.
    + destruct Hf as [[-> _]|(-> & Hr & Ht)]; (split; [done|]; split; [done|by left]).
    + by left; apply Hc.
    + intros x Hx%Hc. revert x Hx. apply (kaccount w h w' i v (f v) Hi Hv Hins Hmono). intros x Hx Ht.
      destruct Hf as [[-> _]|(_ & Hr & _)]; [by left|]. right. exists (CTeardown i r why b what). rewrite Hlog.
      split; [by apply elem_of_cons; left|]. cbn [settles]. congruence.
    + intros x y Hy Hs. rewrite Hlog in Hy. apply elem_of_cons in Hy as [->|Hy]; [right|by left]. cbn [settles] in Hs. subst x.
      split; [by exists row|]. intros [Hfr Hft]. destruct Hf as [[Hf Hno]|(Hf & _)]; rewrite Hf in Hfr, Hft; [by apply Hno|done].
Qed.

Lemma provision_inv k i r w h : KInv w h -> KInv (_provision k i r w) (h ++ map_to_list (y_rows (_provision k i r w))).
Proof.
  intros Hi. unfold _provision. destruct (provision_for_booking _ _ _ _) as [[built what] rng].
  cbv zeta. destruct (_ || _); by apply note_inv, put_inv.
Qed.

Lemma retry_inv k i c row w h : KInv w h -> KInv (retry k i c row w).2 (h ++ map_to_list (y_rows (retry k i c row w).2)).
Proof.
  intros Hi. assert (Hsame : KInv w (h ++ map_to_list (y_rows w))) by by apply (kcommit_same w h).
  unfold retry. destruct (negb _); [done|]. destruct (_ && _); [done|]. destruct (if status_failed _ _ then _ else _) as [r|]; [|done].
  destruct (provision_for_booking _ _ _ _) as [[[] what] rng]; cbn [snd]; [by apply note_inv, put_inv|].
  apply (kcommit_same (put_rng r rng w) h); [by apply put_inv|done..].
Qed.

Lemma kstep_inv s s' : kstep s s' -> KInv s.1 s.2 -> KInv s'.1 s'.2.
Proof.
  intros []; cbn [fst snd keep]; intros Hi.
  - by apply row_inv.
  - by apply renew_inv.
  - by apply provision_inv.
  - by apply (kcommit_same w h).
  - apply (kcommit_same w h); [done|done| |by intros x Hx; apply elem_of_cons; right|].
    + intros x (j & old & found & Hx). apply elem_of_cons in Hx as [Hx|Hx]; [done|]. by exists j, old, found.
    + intros x y Hx Hs. by apply elem_of_cons in Hx as [->|Hx].
  - by eapply teardown_inv.
  - by apply retry_inv.
  - by apply (kcommit_same w h).
Qed.

Lemma ksteps_inv s s' : rtc kstep s s' -> KInv s.1 s.2 -> KInv s'.1 s'.2.
Proof. induction 1 as [|? ? ? Hs _ IH]; [done|]. intros Hi. apply IH. by eapply kstep_inv. Qed.

(** A site before any class has a range. *)
Definition bare (ranges : gmap string range) (classes : gmap string Cls) (entries : list RollCallEntry) (sessions : list session) : cworld :=
  CWorld ∅ ranges classes entries sessions [].
Lemma bare_inv ranges classes entries sessions : KInv (bare ranges classes entries sessions) [].
Proof.
  split; cbn [bare y_rows y_log]; try (intros; by set_solver).
  1, 2: by intros r (j & old & found & Hx%elem_of_nil).
Qed.

(** In every world the clock, its replicas, the retries and the workers reach, each row is well formed
    (a seat's row is keyed by its roll-call entry, the shared row by [SHARED_SEAT]; a reason is recorded
    exactly when the row is torn down; a range, a count of builds and a build time come together), there is
    one row per class, template and seat, and no range is on two rows. *)
Theorem rows_well_formed ranges classes entries sessions w h :
  rtc kstep (bare ranges classes entries sessions, []) (w, h) ->
  (forall i v, y_rows w !! i = Some v -> typed v) /\
  (forall i j v u, y_rows w !! i = Some v -> y_rows w !! j = Some u -> place v = place u -> i = j) /\
  (forall i j v u r, y_rows w !! i = Some v -> y_rows w !! j = Some u -> w_range v = Some r -> w_range u = Some r -> i = j).
Proof.
  intros Hs%ksteps_inv; [|by apply bare_inv]. cbn [fst snd] in Hs. split; [|split].
  - intros i v Hv. by apply (k_typed w h Hs i v), (k_rows w h Hs).
  - by apply (k_place w h Hs).
  - intros i j v u r Hv Hu. by apply (k_range w h Hs i j v u r); apply (k_rows w h Hs).
Qed.

(** C18: the log accounts for every range the classes built: whatever the order of the ticks of any
    replicas, each working with rows it read earlier, a range the log says was created is either the range
    of a row that is not torn down, or the log says it was torn down, or that it was found gone (deleted,
    or already being destroyed) when its row was given a new range; and never both. *)
Theorem class_range_accounted ranges classes entries sessions w h r :
  rtc kstep (bare ranges classes entries sessions, []) (w, h) -> was_created (y_log w) r ->
  (stands w r /\ ~ exists x, x ∈ y_log w /\ settles x r) \/ (~ stands w r /\ exists x, x ∈ y_log w /\ settles x r).
Proof.
  intros Hs%ksteps_inv Hc; [|by apply bare_inv]. destruct (k_account w h Hs r Hc) as [Hst|(x & Hx & Hset)].
  - left. split; [done|]. intros (x & Hx & Hset). by apply (k_done w h Hs r x Hx Hset).
  - right. split; [by apply (k_done w h Hs r x Hx Hset)|by exists x].
Qed.

(** ** A tick is a run of its transactions *)

(** A uuid is drawn once. *)
Definition Distinct (k : cenv) : Prop :=
  Inj eq eq (x_range_id k) /\ forall c t s c' t' s', x_row_id k c t s = x_row_id k c' t' s' -> (c, t, s) = (c', t', s').

Record Good (k : cenv) (w : cworld) (h : hist) : Prop := MkGood {
  g_inv : KInv w h;
  g_ids : forall n j v, (length (y_log w) <= n)%nat -> (j, v) ∈ h -> w_range v <> Some (x_range_id k n);
  g_rows : forall c t s v, y_rows w !! x_row_id k c t s = Some v -> place v = (c, t, s);
  g_entries : forall e, In e (y_entries w) -> en_id e <> SHARED_SEAT }.
Definition runs (k : cenv) (w w' : cworld) : Prop :=
  forall h, Good k w h -> exists h', rtc kstep (w, h) (w', h') /\ Good k w' h'.

#[local] Instance runs_refl k : Reflexive (runs k).
Proof. intros w h Hg. by exists h. Qed.
#[local] Instance runs_trans k : Transitive (runs k).
Proof.
  intros w1 w2 w3 H12 H23 h Hg. destruct (H12 h Hg) as (h2 & Hr2 & Hg2). destruct (H23 h2 Hg2) as (h3 & Hr3 & Hg3).
  exists h3. split; [by etrans|done].
Qed.

(** The rows a transaction leaves: each as wide as an old version's, or with the range it drew. *)
Lemma good_step k w h w' : Distinct k -> Good k w h -> kstep (w, h) (keep w' h) ->
  (length (y_log w) <= length (y_log w'))%nat ->
  (forall j v, y_rows w' !! j = Some v -> w_range v = None \/ (exists u, (j, u) ∈ h /\ w_range u = w_range v) \/
     (w_range v = Some (x_range_id k (length (y_log w))) /\ (length (y_log w) < length (y_log w'))%nat)) ->
  (forall c t s v, y_rows w' !! x_row_id k c t s = Some v -> place v = (c, t, s)) -> (forall e, In e (y_entries w') -> en_id e <> SHARED_SEAT) ->
  exists h', rtc kstep (w, h) (w', h') /\ Good k w' h'.
Proof.
  intros Hinj Hg Hs Hlen Hrows Hplace Hent. exists (h ++ map_to_list (y_rows w')). split; [by apply rtc_once|].
  split; [by apply (kstep_inv _ _ Hs), g_inv with k| |done|done].
  intros n j v Hn Hv Hr. apply elem_of_app in Hv as [Hv|Hv%elem_of_map_to_list].
  - apply (g_ids k w h Hg n j v); [lia|done..].
  - destruct (Hrows j v Hv) as [Hno|[(u & Hu & Hur)|[Hnew Hlt]]]; [congruence| |].
    + apply (g_ids k w h Hg n j u); [lia|done|congruence].
    + rewrite Hnew in Hr. injection Hr as Hr%(proj1 Hinj). lia.
Qed.

(** A transaction that gives no row a range or a place. *)
Lemma good_quiet k w h w' : Distinct k -> Good k w h -> kstep (w, h) (keep w' h) ->
  (length (y_log w) <= length (y_log w'))%nat ->
  (forall j v, y_rows w' !! j = Some v -> exists u, y_rows w !! j = Some u /\ w_range u = w_range v /\ place u = place v) ->
  y_entries w' = y_entries w -> exists h', rtc kstep (w, h) (w', h') /\ Good k w' h'.
Proof.
  intros Hinj Hg Hs Hlen Hrows Hent. apply good_step; [done..| | |rewrite Hent; by apply (g_entries k w h Hg)].
  - intros j v (u & Hu & Hr & _)%Hrows. right. left. exists u. split; [|done]. by apply (k_rows w h (g_inv k w h Hg)).
  - intros c t s v (u & Hu & _ & <-)%Hrows. by apply (g_rows k w h Hg).
Qed.

(** What workers and people do between two ticks. *)
Lemma other_runs k w h ranges classes entries sessions : Distinct k -> Good k w h -> (forall e, In e entries -> en_id e <> SHARED_SEAT) ->
  exists h', rtc kstep (w, h) (CWorld (y_rows w) ranges classes entries sessions (y_log w), h') /\
    Good k (CWorld (y_rows w) ranges classes entries sessions (y_log w)) h'.
Proof.
  intros Hd Hg He. apply (good_step k w h); [done|done|by apply k_other|done| |by apply (g_rows k w h Hg)|done].
  intros j v Hv. right. left. exists v. split; [|done]. by apply (k_rows w h (g_inv k w h Hg)).
Qed.

Lemma not_class_range w r : is_class_range w r = false -> ~ stands w r.
Proof.
  intros Hf (i & v & Hv & Hvr & Hvt). assert (Ht : is_class_range w r = true); [|congruence].
  apply existsb_exists. exists (i, v). split; [by apply list_elem_of_In, elem_of_map_to_list|].
  apply andb_true_intro. by split; apply bool_decide_eq_true_2.
Qed.

Lemma alter_rows (f : crow -> crow) i (m : gmap string crow) j v : (forall u, w_range (f u) = w_range u /\ place (f u) = place u) ->
  alter f i m !! j = Some v -> exists u, m !! j = Some u /\ w_range u = w_range v /\ place u = place v.
Proof.
  intros Hf Hv. destruct (decide (i = j)) as [<-|Hne].
  - rewrite lookup_alter_eq in Hv. apply fmap_Some in Hv as (u & Hu & ->). exists u. by destruct (Hf u).
  - rewrite lookup_alter_ne in Hv by done. by exists v.
Qed.

Lemma row_runs k cid c tid e w : Distinct k -> e <> Some SHARED_SEAT -> runs k w (_row k cid c tid e w).2.
Proof.
  intros Hd He h Hg.
  assert (Hfresh : row_of w cid tid (seat_key e) = None -> y_rows w !! x_row_id k cid tid (seat_key e) = None).
  { intros Hn. destruct (y_rows w !! _) as [v|] eqn:Hv; [|done]. exfalso.
    apply (row_of_none w cid tid (seat_key e) Hn _ v Hv). by apply (g_rows k w h Hg). }
  pose proof (k_row k cid c tid e w h He Hfresh) as Hs. revert Hs Hfresh. unfold _row. destruct (row_of _ _ _ _) as [i|]; cbn [snd]; intros Hs Hfresh.
  - by apply (good_quiet k w h); [..|intros j v Hv; exists v|].
  - apply (good_step k w h); [done..| | |by apply (g_entries k w h Hg)]; cbn [set_rows y_rows].
    + intros j v [[<- <-]|[_ Hv]]%lookup_insert_Some; [by left|]. right. left. exists v. split; [|done]. by apply (k_rows w h (g_inv k w h Hg)).
    + intros a b d v [[Hid <-]|[_ Hv]]%lookup_insert_Some; [|by apply (g_rows k w h Hg)]. cbn. by apply (proj2 Hd).
Qed.

Lemma provision_runs k i r w : Distinct k -> runs k w (_provision k i r w).
Proof.
  intros Hd h Hg. pose proof (k_provision k i r w h) as Hs. revert Hs. unfold _provision. cbv zeta.
  destruct (provision_for_booking _ _ _ _) as [[built what] rng]. cbn [fst snd]. destruct (_ || _); intros Hs;
    (apply (good_quiet k w h); [done..| |done]; intros j v Hv; by apply (alter_rows _ i _ j v) in Hv).
Qed.

Lemma renew_runs k i row st w : Distinct k -> y_rows w !! i = Some row -> standing row st = false ->
  runs k w (renew k i (x_range_id k (length (y_log w))) row st w).2.
Proof.
  intros Hd Hrow Hst h Hg.
  assert (Hh : forall j v, y_rows w !! j = Some v -> (j, v) ∈ h) by by apply (k_rows w h (g_inv k w h Hg)).
  pose proof (k_renew k i (x_range_id k (length (y_log w))) row st w h (Hh i row Hrow) Hst
    (fun j v Hv => g_ids k w h Hg (length (y_log w)) j v (Nat.le_refl _) Hv)) as Hs.
  revert Hs. unfold renew. rewrite Hrow, bool_decide_eq_true_2 by done. cbn [snd]. intros Hs.
  apply (good_step k w h); [done|done|done|cbn; lia| | |by apply (g_entries k w h Hg)]; cbn [note_log set_rows put_rng y_rows y_log length].
  - intros j v [[<- <-]|[_ Hv]]%lookup_insert_Some; [right; right; split; [done|lia]|].
    right. left. exists v. split; [by apply Hh|done].
  - intros a b d v [[Hid <-]|[_ Hv]]%lookup_insert_Some; [|by apply (g_rows k w h Hg)].
    change (place row = (a, b, d)). apply (g_rows k w h Hg). by rewrite <- Hid.
Qed.

Lemma ensure_runs k cid c tid e bw : Distinct k -> e <> Some SHARED_SEAT -> runs k bw.2 (_ensure k cid c tid e bw).2.2.
Proof.
  destruct bw as [budget w]. intros Hd He. pose proof (row_runs k cid c tid e w Hd He) as Hrun. revert Hrun. unfold _ensure.
  destruct (_row k cid c tid e w) as [i w1]. cbn [snd]. intros Hrun. etrans; [exact Hrun|]. clear Hrun w.
  destruct (y_rows w1 !! i) as [row|] eqn:Hrow; cbn [snd]; [|done].
  destruct (if standing row (state_of w1 row) then w_range row else None) as [r|] eqn:Hst; cbn [snd].
  { destruct (bool_decide _); [by apply provision_runs|done]. }
  assert (Hno : standing row (state_of w1 row) = false).
  { destruct (standing row _) eqn:Hs; [|done]. unfold standing, state_of in Hs. by rewrite Hst in Hs. }
  destruct (budget <=? 0); cbn [snd]; [done|]. pose proof (renew_runs k i row _ w1 Hd Hrow Hno) as Hrun. revert Hrun. cbv zeta.
  destruct (renew _ _ _ _ _ _) as [[] w2]; cbn [snd]; intros Hrun; [|done]. etrans; [exact Hrun|by apply provision_runs].
Qed.

Lemma fold_runs {A B} k (wd : B -> cworld) (f : B -> A -> B) l b :
  (forall b x, In x l -> runs k (wd b) (wd (f b x))) -> runs k (wd b) (wd (fold_left f l b)).
Proof.
  revert b. induction l as [|x l IH]; intros b Hf; [done|]. cbn [fold_left]. etrans; [apply Hf; by left|].
  apply IH. intros b' y Hy. apply Hf. by right.
Qed.

Lemma attach_runs k event r w : Distinct k -> runs k w (attach_range event r w).2.
Proof. intros Hd h Hg. apply (good_quiet k w h); [done|done|by apply k_attach|done| |done]. intros j v Hv. by exists v. Qed.
Lemma attached_runs k event r w : Distinct k -> runs k w (note_log (CAttached event r) w).
Proof. intros Hd h Hg. apply (good_quiet k w h); [done|done|by apply k_attached|cbn; lia| |done]. intros j v Hv. by exists v. Qed.

Lemma session_runs k bw s : Distinct k -> runs k bw.2 (ensure_session k bw s).2.
Proof.
  intros Hd. unfold ensure_session.
  destruct (y_classes bw.2 !! s_class s) as [c|]; [|by apply runs_refl]. destruct (s_template s) as [tid|]; [|by apply runs_refl].
  destruct (_ || _); [by apply runs_refl|]. destruct (s_mode s).
  2: { destruct (match s_range s with None => true | Some _ => _ end); [|by apply runs_refl].
    pose proof (ensure_runs k (s_class s) c tid None bw Hd ltac:(done)) as Hrun. revert Hrun.
    destruct (_ensure _ _ _ _ _ _) as [row bw1]; cbn [snd]; intros Hrun.
    etrans; [exact Hrun|]. destruct (match row with Some _ => _ | None => None end) as [r|]; [|done]. destruct (s_range s); [done|].
    pose proof (attach_runs k (s_event s) r bw1.2 Hd) as Ha. revert Ha. destruct (attach_range _ _ _) as [[] w2]; cbn [snd]; intros Ha; [|done].
    etrans; [exact Ha|by apply attached_runs]. }
  intros h Hg. pose proof (g_entries k bw.2 h Hg) as He. revert h Hg.
  apply (fold_runs k snd (fun bw e => (_ensure k (s_class s) c tid (Some (en_id e)) bw).2)).
  intros b e Hin. apply ensure_runs; [done|]. intros Heq. injection Heq as Heq. apply (He e); [|done].
  unfold _seats in Hin. by apply List.filter_In in Hin as [Hin _].
Qed.

Lemma steps_grow s s' : rtc kstep s s' -> forall p, p ∈ s.2 -> p ∈ s'.2.
Proof.
  induction 1 as [|x y z Hs _ IH]; [done|]. intros p Hp. apply IH. destruct Hs; cbn [snd keep] in *; by apply elem_of_app; left.
Qed.

Lemma teardown_runs k i row needed w h : Distinct k -> Good k w h -> (i, row) ∈ h ->
  exists h', rtc kstep (w, h) ((_teardown_if_done k i row needed w).2, h') /\ Good k (_teardown_if_done k i row needed w).2 h'.
Proof.
  intros Hd Hg Hin. unfold _teardown_if_done. destruct (w_range row) as [r|] eqn:Hr; [|by exists h].
  destruct (_why_done _ _ _ _ _) as [[why b]|]; [|by exists h].
  pose proof (k_teardown k i row r why b (state_of w row) w h Hin Hr) as Hs. revert Hs. unfold _teardown.
  destruct (if bool_decide _ then _ else _) as [[[] what] rng]; cbn [snd]; intros Hs;
    (apply (good_quiet k w h); [done|done|done|cbn; lia| |done]); intros j v Hv; apply (alter_rows _ i _ j v) in Hv; [done| |done|done].
  intros u. by destruct (_ && _).
Qed.

Lemma pass_runs k (needed : crow -> list (ClassRangeKind * string)) l w h : Distinct k -> Good k w h -> (forall p, p ∈ l -> p ∈ h) ->
  exists h', rtc kstep (w, h) (fold_left (fun v p => (_teardown_if_done k p.1 p.2 (needed p.2) v).2) l w, h') /\
    Good k (fold_left (fun v p => (_teardown_if_done k p.1 p.2 (needed p.2) v).2) l w) h'.
Proof.
  intros Hd. revert w h. induction l as [|[i row] l IH]; intros w h Hg Hin; [by exists h|]. cbn [fold_left fst snd].
  destruct (teardown_runs k i row (needed row) w h Hd Hg) as (h1 & Hr1 & Hg1); [apply Hin; by left|].
  destruct (IH _ h1 Hg1) as (h2 & Hr2 & Hg2); [intros p Hp; apply (steps_grow _ _ Hr1), Hin; by right|]. exists h2. split; [by etrans|done].
Qed.

Lemma live_rows w p : p ∈ _live w -> y_rows w !! p.1 = Some p.2.
Proof.
  unfold _live. intros Hp%elem_of_py_sorted%list_elem_of_In%List.filter_In.
  destruct Hp as [Hp%list_elem_of_In _]. destruct p. by apply elem_of_map_to_list.
Qed.

(** A tick is a run of its transactions, if the database draws an id once. *)
Lemma class_tick_runs k B w h : Distinct k -> Good k w h -> exists h', rtc kstep (w, h) (tick k B w, h') /\ Good k (tick k B w) h'.
Proof.
  intros Hd Hg. unfold tick. cbv zeta. set (w1 := (fold_left _ _ _).2).
  assert (Hruns : runs k w w1).
  { apply (fold_runs k snd (ensure_session k) (_due k w) (B, w)). intros b x _. by apply session_runs. }
  destruct (Hruns h Hg) as (h1 & Hr1 & Hg1).
  destruct (pass_runs k (fun row => _needed w1 (w_class row)) (_live w1) w1 h1 Hd Hg1) as (h2 & Hr2 & Hg2).
  - intros [i v] Hp. apply (k_rows w1 h1 (g_inv k w1 h1 Hg1)). by apply (live_rows w1 (i, v)).
  - exists h2. split; [by etrans|done].
Qed.

(** ** How much a tick builds *)

Definition creates (x : centry) : bool := match x with CCreated _ _ _ _ => true | _ => false end.
Definition built (l : list centry) : Z := Z.of_nat (length (List.filter creates l)).

(** What a piece of the pass spends of the budget covers what it built. *)
Definition within (bw bw' : Z * cworld) : Prop :=
  built (y_log bw'.2) + bw'.1 <= built (y_log bw.2) + bw.1 /\ (0 <= bw.1 -> 0 <= bw'.1) /\ (bw.1 <= 0 -> bw'.1 = bw.1).
#[local] Instance within_refl : Reflexive within.
Proof. intros []. unfold within. lia. Qed.
#[local] Instance within_trans : Transitive within.
Proof. intros [] [] []. unfold within. lia. Qed.

Lemma fold_within {A} (f : Z * cworld -> A -> Z * cworld) l bw : (forall b x, within b (f b x)) -> within bw (fold_left f l bw).
Proof.
  intros Hf. revert bw. induction l as [|x l IH]; intros bw; [done|]. cbn [fold_left]. etrans; [apply Hf|apply IH].
Qed.

Lemma provision_log k i r w : y_log (_provision k i r w) = y_log w.
Proof. unfold _provision. destruct (provision_for_booking _ _ _ _) as [[b what] rng]. cbv zeta. by destruct (_ || _). Qed.

Lemma ensure_within k cid c tid e bw : within bw (_ensure k cid c tid e bw).2.
Proof.
  destruct bw as [budget w]. unfold _ensure.
  assert (Hlog : y_log (_row k cid c tid e w).2 = y_log w) by (unfold _row; by destruct (row_of _ _ _ _)).
  destruct (_row k cid c tid e w) as [i w1]. cbn [snd] in Hlog. unfold within.
  destruct (y_rows w1 !! i) as [row|] eqn:Hrow; [|cbn [fst snd]; rewrite Hlog; lia].
  destruct (if standing _ _ then _ else _); [destruct (bool_decide _); cbn [fst snd]; rewrite ?provision_log, Hlog; lia|].
  destruct (Z.leb_spec budget 0); [cbn [fst snd]; rewrite Hlog; lia|]. cbv zeta. unfold renew. rewrite Hrow, bool_decide_eq_true_2 by done.
  cbn [fst snd]. rewrite provision_log. cbn [note_log set_rows put_rng y_log]. unfold built. cbn [List.filter creates length]. rewrite Hlog. lia.
Qed.

Lemma session_within k bw s : within bw (ensure_session k bw s).
Proof.
  unfold ensure_session. destruct (y_classes _ !! _) as [c|]; [|done]. destruct (s_template s) as [tid|]; [|done].
  destruct (_ || _); [done|]. destruct (s_mode s).
  - apply fold_within. intros b x. apply ensure_within.
  - destruct (match s_range s with None => true | Some _ => _ end); [|done].
    pose proof (ensure_within k (s_class s) c tid None bw) as Hw. revert Hw.
    destruct (_ensure _ _ _ _ _ _) as [row bw1]; cbn [snd]; intros Hw. etrans; [exact Hw|].
    destruct (match row with Some _ => _ | None => None end) as [r|]; [|done]. destruct (s_range s); [done|].
    unfold attach_range. destruct (existsb _ _); unfold within, built; cbn; lia.
Qed.

Lemma pass_builds_nothing k (needed : crow -> list (ClassRangeKind * string)) l w :
  built (y_log (fold_left (fun v p => (_teardown_if_done k p.1 p.2 (needed p.2) v).2) l w)) = built (y_log w).
Proof.
  revert w. induction l as [|[i row] l IH]; intros w; [done|]. cbn [fold_left fst snd]. rewrite IH.
  unfold _teardown_if_done. destruct (w_range row); [|done]. destruct (_why_done _ _ _ _ _) as [[why b]|]; [|done].
  unfold _teardown. by destruct (if bool_decide _ then _ else _) as [[[] what] rng].
Qed.

(** A tick creates at most [BUILDS_PER_TICK] ranges, whatever the sessions due, the seats on their roll
    calls and the ranges gone since: the rest waits for the next tick. *)
Theorem builds_per_tick k B w : built (y_log (tick k B w)) <= built (y_log w) + Z.max 0 B.
Proof.
  unfold tick. cbv zeta. rewrite (pass_builds_nothing k (fun row => _needed _ (w_class row))).
  pose proof (fold_within (ensure_session k) (_due k w) (B, w) (session_within k)) as Hw. unfold within in Hw. cbn [fst snd] in Hw. lia.
Qed.
End ClassRanges.

(** ** A class with two Students *)

Local Open Scope string_scope.
Local Open Scope Z_scope.

Definition demo_env (now : Z) : cenv :=
  CEnv now (Some "task") true (fun _ => false) (fun c t s => pretty (encode (c, t, s))) (fun n => pretty n).
Definition demo_sessions : list session := [MkSession "ev" "cls" "ten" "ten" individual (Some "tpl") s_scheduled 5000 6000 None].
Definition demo_entries (off : bool) : list RollCallEntry := [MkEntry "stu1" "ten" "cls" false; MkEntry "stu2" "ten" "cls" off].
Definition demo_start : cworld := bare ∅ {[ "cls" := MkCls "ten" "open" 1 ]} (demo_entries false) demo_sessions.
Definition demo_tick (now B : Z) (w : cworld) : cworld := tick 3600 1800 21600 action_name (demo_env now) B w.
Definition demo_built : cworld := demo_tick 2000 5 demo_start.
(** The workers have built the ranges, and the second Student is taken off the roll call. *)
Definition demo_removed : cworld :=
  CWorld (y_rows demo_built) (fmap (fun x => with_db x (set_range ready None (r_db x))) (y_ranges demo_built))
    (y_classes demo_built) (demo_entries true) (y_sessions demo_built) (y_log demo_built).
Definition demo_torn : cworld := demo_tick 3000 5 demo_removed.

Example demo_log : map (fun x => match x with CCreated _ r _ _ => ("created", r) | CTeardown _ r _ _ _ => ("teardown", r) | CAttached _ r => ("attached", r) end)
  (y_log demo_torn) = [("teardown", "1"); ("created", "1"); ("created", "0")].
Proof. vm_compute. reflexivity. Qed.

Lemma demo_distinct now : Distinct (demo_env now).
Proof. split; [exact pretty_nat_inj|]. intros c t s c' t' s' H. cbn in H. by apply (inj pretty), (inj encode) in H. Qed.
Lemma demo_good : Good (demo_env 2000) demo_start [].
Proof.
  split; [by apply bare_inv| | |].
  - intros n j v _ H. by apply elem_of_nil in H.
  - intros c t s v H. cbn [demo_start bare y_rows] in H. by rewrite lookup_empty in H.
  - by intros e [<-|[<-|[]]].
Qed.
Lemma class_demo_run : exists h, rtc (kstep 21600 action_name) (demo_start, []) (demo_torn, h).
Proof.
  destruct (class_tick_runs 3600 1800 21600 action_name (demo_env 2000) 5 demo_start [] (demo_distinct 2000) demo_good) as (h1 & Hr1 & Hg1).
  destruct (other_runs 21600 action_name (demo_env 2000) demo_built h1 (y_ranges demo_removed) (y_classes demo_built) (demo_entries true)
    (y_sessions demo_built) (demo_distinct 2000) Hg1) as (h2 & Hr2 & Hg2); [by intros e [<-|[<-|[]]]|].
  fold demo_removed in Hr2, Hg2.
  assert (Hg : Good (demo_env 3000) demo_removed h2) by (destruct Hg2; split; assumption).
  destruct (class_tick_runs 3600 1800 21600 action_name (demo_env 3000) 5 demo_removed h2 (demo_distinct 3000) Hg) as (h3 & Hr3 & _).
  exists h3. etrans; [exact Hr1|]. etrans; [exact Hr2|exact Hr3].
Qed.

Definition demo_key : string := pretty (encode ("cls", "tpl", "stu2")).
Lemma rows_well_formed_witness : exists v, y_rows demo_torn !! demo_key = Some v /\ w_torn v = Some 3000 /\ typed v.
Proof.
  assert (Ht : option_map w_torn (y_rows demo_torn !! demo_key) = Some (Some 3000)) by (vm_compute; reflexivity).
  destruct class_demo_run as (h & Hr). destruct (y_rows demo_torn !! demo_key) as [v|] eqn:Hv; [|discriminate Ht].
  exists v. split; [reflexivity|]. split; [by injection Ht|].
  exact (proj1 (rows_well_formed 21600 action_name ∅ _ _ _ demo_torn h Hr) demo_key v Hv).
Defined.

Lemma class_range_accounted_witness : exists x, x ∈ y_log demo_torn /\ settles x "1".
Proof.
  destruct class_demo_run as (h & Hr).
  assert (Hc : was_created (y_log demo_torn) "1") by (eexists _, _, _; vm_compute; right; left).
  destruct (class_range_accounted 21600 action_name ∅ _ _ _ demo_torn h "1" Hr Hc) as [[Hst _]|[_ Hx]]; [exfalso|exact Hx].
  revert Hst. apply not_class_range. vm_compute. reflexivity.
Defined.
