(* ===== verification/LabSessions.v ===== *)
(** * Lab sessions: the operations

    Models [control-plane/api/app/lab_sessions/service.py] (launch, advance, touch, reset, evidence, end),
    [capacity_gate.py] and the network pool, one transaction at a time: an operation is a function of the
    session's row, the tables it reads and writes ([db]) and what its transaction meets ([env]); LabRuns.v
    puts the operations under the session's lease and its outbox.  Times are seconds.  The texts of the
    errors are constructors; probe results and notifications are outside. *)

From S2P Require Import Prelude StateMachines Capacity.

Local Open Scope Z_scope.

(** ** Data ([models.py]) *)

Inductive LabState := QUEUED | PROVISIONING | BASELINING | READY | ACTIVE | RESETTING | COMPLETED | EXPIRED
  | CLEANING | RECONCILE_WAIT | DESTROYED | FAILED | RECONCILE.
#[export] Instance LabState_eq_dec : EqDecision LabState.
Proof. solve_decision. Defined.

Definition LIVE : list LabState := [QUEUED; PROVISIONING; BASELINING; READY; ACTIVE; RESETTING].
Definition ENDING : list LabState := [COMPLETED; EXPIRED; CLEANING; RECONCILE; RECONCILE_WAIT].
Definition TERMINAL : list LabState := [DESTROYED; FAILED].
Definition HOLDS_RESOURCES : list LabState := LIVE ++ ENDING.
Definition RUNS_RESOURCES : list LabState := List.filter (fun s => negb (bool_decide (s = QUEUED))) HOLDS_RESOURCES.

(** The worker tasks a session asks for. *)
Inductive task := ProvisionRange (r : string) | SnapshotRange (r s : string) | RestoreSnapshot (r s : string)
  | DestroyRange (r : string) | ReconcileVms (ids : list string) (backend : string).
#[export] Instance task_eq_dec : EqDecision task.
Proof. solve_decision. Defined.

(** [session.error] *)
Inductive lab_error :=
| NoError | WindowHolds | OwnLabRunning | NoLabPlaces | NoVcpu | InTurn | BUSY | NoNetworks | RangeMissing | NotBuilt
| NotReadyInTime | NoBaseline | ResetIncomplete | ResetTimeout | RebuildIncomplete | NotShutDown | CLASS_RANGE | TaskRefused.
(** What a [LabRefusedError] answers; [Raised]: another exception. *)
Inductive refusal := Refused (status : Z) | LabsBusy | Raised.

Record labkey := Key { y_tenant : string; y_user : string; y_release : string; y_activity : string; y_attempt : Z;
                       y_backend : string; y_size : Resources; y_created : Z }.
Record evidence := Evidence { ev_body : string; ev_size : Z; ev_received : Z }.
Record times := Times { t_provisioning : option Z; t_ready : option Z; t_seen : option Z; t_idle : option Z; t_warned : option Z;
                        t_max : option Z; t_latest : option Z; t_ended : option Z; t_reconciled : option Z }.
(** A row of [lab_sessions]; [b_lease]: [lease_until] and [lease_holder]. *)
Record lab := MkLab {
  b_key : labkey; b_state : LabState; b_since : Z; b_attempts : Z; b_range : option string; b_baseline : option string;
  b_booking : option string; b_error : lab_error; b_times : times; b_evidence : list evidence; b_reason : string;
  b_pending : list task; b_retired : list string; b_lease : option (Z * string) }.

Definition at_provisioning (v : option Z) (t : times) : times :=
  Times v (t_ready t) (t_seen t) (t_idle t) (t_warned t) (t_max t) (t_latest t) (t_ended t) (t_reconciled t).
Definition at_ready (v : option Z) (t : times) : times :=
  Times (t_provisioning t) v (t_seen t) (t_idle t) (t_warned t) (t_max t) (t_latest t) (t_ended t) (t_reconciled t).
Definition at_seen (v : option Z) (t : times) : times :=
  Times (t_provisioning t) (t_ready t) v (t_idle t) (t_warned t) (t_max t) (t_latest t) (t_ended t) (t_reconciled t).
Definition at_idle (v : option Z) (t : times) : times :=
  Times (t_provisioning t) (t_ready t) (t_seen t) v (t_warned t) (t_max t) (t_latest t) (t_ended t) (t_reconciled t).
Definition at_warned (v : option Z) (t : times) : times :=
  Times (t_provisioning t) (t_ready t) (t_seen t) (t_idle t) v (t_max t) (t_latest t) (t_ended t) (t_reconciled t).
Definition at_max (v : option Z) (t : times) : times :=
  Times (t_provisioning t) (t_ready t) (t_seen t) (t_idle t) (t_warned t) v (t_latest t) (t_ended t) (t_reconciled t).
Definition at_latest (v : option Z) (t : times) : times :=
  Times (t_provisioning t) (t_ready t) (t_seen t) (t_idle t) (t_warned t) (t_max t) v (t_ended t) (t_reconciled t).
Definition at_ended (v : option Z) (t : times) : times :=
  Times (t_provisioning t) (t_ready t) (t_seen t) (t_idle t) (t_warned t) (t_max t) (t_latest t) v (t_reconciled t).
Definition at_reconciled (v : option Z) (t : times) : times :=
  Times (t_provisioning t) (t_ready t) (t_seen t) (t_idle t) (t_warned t) (t_max t) (t_latest t) (t_ended t) v.
Definition with_state (s : LabState) (now n : Z) (l : lab) : lab :=
  MkLab (b_key l) s now n (b_range l) (b_baseline l) (b_booking l) (b_error l) (b_times l) (b_evidence l) (b_reason l) (b_pending l) (b_retired l) (b_lease l).
Definition with_range (r : option string) (l : lab) : lab :=
  MkLab (b_key l) (b_state l) (b_since l) (b_attempts l) r (b_baseline l) (b_booking l) (b_error l) (b_times l) (b_evidence l) (b_reason l) (b_pending l) (b_retired l) (b_lease l).
Definition with_baseline (s : option string) (l : lab) : lab :=
  MkLab (b_key l) (b_state l) (b_since l) (b_attempts l) (b_range l) s (b_booking l) (b_error l) (b_times l) (b_evidence l) (b_reason l) (b_pending l) (b_retired l) (b_lease l).
Definition with_booking (b : option string) (l : lab) : lab :=
  MkLab (b_key l) (b_state l) (b_since l) (b_attempts l) (b_range l) (b_baseline l) b (b_error l) (b_times l) (b_evidence l) (b_reason l) (b_pending l) (b_retired l) (b_lease l).
Definition saying (e : lab_error) (l : lab) : lab :=
  MkLab (b_key l) (b_state l) (b_since l) (b_attempts l) (b_range l) (b_baseline l) (b_booking l) e (b_times l) (b_evidence l) (b_reason l) (b_pending l) (b_retired l) (b_lease l).
Definition with_times (f : times -> times) (l : lab) : lab :=
  MkLab (b_key l) (b_state l) (b_since l) (b_attempts l) (b_range l) (b_baseline l) (b_booking l) (b_error l) (f (b_times l)) (b_evidence l) (b_reason l) (b_pending l) (b_retired l) (b_lease l).
Definition with_evidence (e : list evidence) (l : lab) : lab :=
  MkLab (b_key l) (b_state l) (b_since l) (b_attempts l) (b_range l) (b_baseline l) (b_booking l) (b_error l) (b_times l) e (b_reason l) (b_pending l) (b_retired l) (b_lease l).
Definition with_reason (r : string) (l : lab) : lab :=
  MkLab (b_key l) (b_state l) (b_since l) (b_attempts l) (b_range l) (b_baseline l) (b_booking l) (b_error l) (b_times l) (b_evidence l) r (b_pending l) (b_retired l) (b_lease l).
Definition with_pending (p : list task) (l : lab) : lab :=
  MkLab (b_key l) (b_state l) (b_since l) (b_attempts l) (b_range l) (b_baseline l) (b_booking l) (b_error l) (b_times l) (b_evidence l) (b_reason l) p (b_retired l) (b_lease l).
Definition with_retired (r : list string) (l : lab) : lab :=
  MkLab (b_key l) (b_state l) (b_since l) (b_attempts l) (b_range l) (b_baseline l) (b_booking l) (b_error l) (b_times l) (b_evidence l) (b_reason l) (b_pending l) r (b_lease l).
Definition with_lease (x : option (Z * string)) (l : lab) : lab :=
  MkLab (b_key l) (b_state l) (b_since l) (b_attempts l) (b_range l) (b_baseline l) (b_booking l) (b_error l) (b_times l) (b_evidence l) (b_reason l) (b_pending l) (b_retired l) x.

(** A lab's range; [a_nets]: the port groups of its template. *)
Record lrange := MkRange { a_state : RangeState; a_nets : list string }.
Inductive SnapState := S_creating | S_ready | S_restoring | S_failed.
#[export] Instance SnapState_eq_dec : EqDecision SnapState.
Proof. solve_decision. Defined.
(** The tables; [d_nets]: the port group's session and network name, None while it is free. *)
Record db := Db { d_labs : gmap string lab; d_ranges : gmap string lrange; d_snaps : gmap string SnapState;
                  d_nets : gmap string (option (string * string)) }.
Definition put_range (r : string) (s : RangeState) (nets : list string) (d : db) : db :=
  Db (d_labs d) (<[r := MkRange s nets]> (d_ranges d)) (d_snaps d) (d_nets d).
Definition move_range (r : string) (s : RangeState) (d : db) : db :=
  Db (d_labs d) (alter (fun x => MkRange s (a_nets x)) r (d_ranges d)) (d_snaps d) (d_nets d).
Definition put_snap (i : string) (s : SnapState) (d : db) : db := Db (d_labs d) (d_ranges d) (<[i := s]> (d_snaps d)) (d_nets d).
Definition put_nets (m : gmap string (option (string * string))) (d : db) : db := Db (d_labs d) (d_ranges d) (d_snaps d) m.

(** A lab profile. *)
Record node := MkNode { o_networks : list string; o_size : Resources }.
Record profile := Profile { p_nodes : list node; p_networks : list string; p_snapshot : bool; p_idle : Z; p_max : Z }.

(** The platform's settings (the LAB_ variables). *)
Record settings := Settings {
  LAB_PORT_GROUPS : list string; LAB_MAX_SESSIONS_PER_USER : Z; LAB_MAX_SESSIONS_PER_TENANT : Z; LAB_MAX_VCPU_PER_TENANT : Z;
  LAB_MAX_NETWORKS_PER_TENANT : Z; LAB_IDLE_LIMIT : Z; LAB_MAX_LIFETIME : Z; LAB_QUEUE_TIMEOUT : Z; LAB_PROVISION_TIMEOUT : Z;
  LAB_STEP_TIMEOUT : Z; LAB_RECONCILE_GRACE : Z; LAB_TEARDOWN_ATTEMPTS : Z; LAB_IDLE_WARNING : Z; LAB_CONSOLE_RECHECK : Z;
  MAX_EVIDENCE_BYTES : Z; MAX_EVIDENCE_ITEMS : Z; PROVISION_LEAD : Z; TEARDOWN_GRACE : Z }.

(** A class session (a booking of the lab's course). *)
Record cevent := CEvent { c_id : string; c_start : Z; c_end : Z; c_total : Resources }.
Inductive consoles := NOT_ASKED | Unknown | OpenNow (n : Z).

(** What a transaction meets.  [e_profile]: the profile of the session's release (or its refusal);
    [e_window], [e_window_range]: a maintenance window holds a new build, covers the range; [e_locked]: rows
    of the pool locked by others; [e_sessions], [e_drawn]: the drawable class sessions of the student's
    roll calls, what labs draw on one; [e_follow]: the session's booking if it holds, and the drawable
    sessions of its class from its start on; [e_supply], [e_committed]: the cluster, and what approved
    bookings and classes hold per slice. *)
Record env := Env {
  e_now : Z; e_profile : result refusal profile; e_window : bool; e_window_range : bool; e_locked : string -> bool;
  e_sessions : list cevent; e_drawn : string -> Resources; e_drawing : bool; e_follow : option (cevent * list cevent);
  e_recent : bool; e_supply : Resources; e_committed : list Resources; e_class_range : bool; e_probes : list bool;
  e_creds_pending : bool; e_consoles : consoles; e_new_range : string; e_new_snap : string }.

Section LabSessions.
Context (cfg : settings).

Definition st : Type := lab * db.

(** ** Small steps *)

(** [_set_state], [_in_state_for], [_send] *)
Definition _set_state (now : Z) (s : LabState) (l : lab) : lab := if bool_decide (b_state l = s) then l else with_state s now 0 l.
Definition _in_state_for (now : Z) (l : lab) : Z := now - b_since l.
Definition _send (t : task) (l : lab) : lab := with_pending (b_pending l ++ [t]) l.
Definition idle_seconds (p : profile) : Z := 60 * Z.min (p_idle p) (Z.max 1 (LAB_IDLE_LIMIT cfg)).
(** [capacity_gate.lifetime], [capacity_gate.demand] *)
Definition lifetime (p : profile) : Z := 60 * Z.min (p_max p) (Z.max 15 (LAB_MAX_LIFETIME cfg)).
Definition demand (p : profile) : Resources := foldr plus zero (map o_size (p_nodes p)).

(** The session's range, as loaded. *)
Definition range_of (l : lab) (d : db) : option (string * lrange) :=
  match b_range l with Some r => option_map (pair r) (d_ranges d !! r) | None => None end.

(** ** Networks *)

(** [_pool]: rows for the configured names. *)
Definition _pool (d : db) : db :=
  put_nets (fold_left (fun m g => match m !! g with Some _ => m | None => <[g := None]> m end) (LAB_PORT_GROUPS cfg) (d_nets d)) d.
Definition tenant_of (d : db) (id : string) : option string := option_map (fun l => y_tenant (b_key l)) (d_labs d !! id).
Definition tenant_held (tenant : string) (d : db) : Z :=
  Z.of_nat (length (List.filter (fun x : string * option (string * string) => match x.2 with Some (i, _) => bool_decide (tenant_of d i = Some tenant) | None => false end) (map_to_list (d_nets d)))).
Definition free_networks (e : env) (d : db) : list string :=
  py_sorted string_leb (map fst (List.filter (fun x : string * option (string * string) =>
    bool_decide (x.2 = None) && bool_decide (x.1 ∈ LAB_PORT_GROUPS cfg) && negb (e_locked e x.1)) (map_to_list (d_nets d)))).

(** [_lease_networks]: network name to port group, None when the pool or the tenant's share is short. *)
Definition _lease_networks (id : string) (e : env) (p : profile) (s : st) : result refusal (option (gmap string string) * db) :=
  let '(l, d) := s in
  if String.eqb (y_backend (b_key l)) "mock" then Ok (Some ∅, d)
  else
    match LAB_PORT_GROUPS cfg with
    | [] => Err (Refused 503)
    | _ =>
        let d := _pool d in
        let n := length (p_networks p) in
        if LAB_MAX_NETWORKS_PER_TENANT cfg <? tenant_held (y_tenant (b_key l)) d + Z.of_nat n then Ok (None, d)
        else
          let free := take n (free_networks e d) in
          if (length free <? n)%nat then Ok (None, d)
          else
            let pairs := zip (p_networks p) free in
            Ok (Some (list_to_map (rev pairs)), put_nets (fold_left (fun m x => <[x.2 := Some (id, x.1)]> m) pairs (d_nets d)) d)
    end.
Definition _session_networks (id : string) (d : db) : gmap string string :=
  list_to_map (omap (fun x : string * option (string * string) => match x.2 with Some (i, n) => if String.eqb i id then Some (n, x.1) else None | None => None end) (map_to_list (d_nets d))).
Definition _release_networks (id : string) (d : db) : db :=
  put_nets (fmap (fun x : option (string * string) => match x with Some (i, _) => if String.eqb i id then None else x | None => None end) (d_nets d)) d.

(** The port groups of [range_template]; a node on other than one network is refused. *)
Definition range_template (p : profile) (port_groups : gmap string string) : option (list string) :=
  if forallb (fun n => (length (o_networks n) =? 1)%nat) (p_nodes p) then Some (omap (fun n => port_groups !! n) (p_networks p)) else None.

(** ** Admission *)

Definition others (id : string) (d : db) : list lab := omap (fun x => if String.eqb x.1 id then None else Some x.2) (map_to_list (d_labs d)).
Definition runs (l : lab) : bool := bool_decide (b_state l ∈ RUNS_RESOURCES).
Definition of_tenant (t : string) (l : lab) : bool := String.eqb (y_tenant (b_key l)) t.
Definition vcpus (ls : list lab) : Z := foldr Z.add 0 (map (fun l => vcpu (y_size (b_key l))) ls).
Definition _quota_problem (id : string) (l : lab) (d : db) : option lab_error :=
  let holding := List.filter runs (others id d) in
  let tenant := List.filter (of_tenant (y_tenant (b_key l))) holding in
  if LAB_MAX_SESSIONS_PER_USER cfg <=? Z.of_nat (length (List.filter (fun o => String.eqb (y_user (b_key o)) (y_user (b_key l))) holding)) then Some OwnLabRunning
  else if LAB_MAX_SESSIONS_PER_TENANT cfg <=? Z.of_nat (length tenant) then Some NoLabPlaces
  else if LAB_MAX_VCPU_PER_TENANT cfg <? vcpus tenant + vcpu (y_size (b_key l)) then Some NoVcpu
  else if existsb (fun o => bool_decide (b_state o = QUEUED) && of_tenant (y_tenant (b_key l)) o && (y_created (b_key o) <? y_created (b_key l))) (others id d)
       then Some InTurn
  else None.

(** [capacity_gate.own_booking], [capacity_gate.fits] *)
Definition fits_in (need free : Resources) : bool := (vcpu need <=? vcpu free) && (ram_mb need <=? ram_mb free) && (disk_gb need <=? disk_gb free).
Definition own_booking (e : env) (need : Resources) : option string :=
  option_map c_id (List.find (fun c => fits_in (plus (e_drawn e (c_id c)) need) (c_total c))
    (List.filter (fun c => (c_start c <=? e_now e + PROVISION_LEAD cfg) && (e_now e <? c_end c)) (e_sessions e))).
Definition fits (e : env) (need : Resources) : bool := forallb (fun c => fits_in need (available (e_supply e) c)) (e_committed e).

(** [_capacity_refused]: the session, and whether it must wait. *)
Definition _capacity_refused (e : env) (p : profile) (refuse_busy : bool) (l : lab) : result refusal (bool * lab) :=
  if negb refuse_busy && e_recent e then Ok (true, saying BUSY l)
  else
    match own_booking e (demand p) with
    | Some b => Ok (false, with_booking (Some b) l)
    | None =>
        let l := with_booking None l in
        if fits e (demand p) then Ok (false, l)
        else if refuse_busy then Err LabsBusy
        else Ok (true, saying BUSY l)
    end.

(** ** A class's own lab ([_follow_class], [class_chain], [chain_end], [next_live]) *)

Fixpoint chain_from (end_ : Z) (later : list cevent) : list cevent :=
  match later with
  | [] => []
  | c :: rest => if end_ + TEARDOWN_GRACE cfg <? c_start c then [] else c :: chain_from (Z.max end_ (c_end c)) rest
  end.
Definition class_chain (evt : cevent) (later : list cevent) : list cevent := evt :: chain_from (c_end evt) later.
Definition chain_end (chain : list cevent) : Z :=
  match map c_end chain with t :: ts => max_list t ts | [] => 0 end + TEARDOWN_GRACE cfg.
Definition next_live (chain : list cevent) (now : Z) : option cevent := List.find (fun c => now <? c_end c) (tl chain).

Definition min_some (t : Z) (o : option Z) : option Z := option_map (Z.min t) o.
Definition _follow_class (e : env) (l : lab) : lab :=
  match b_booking l, t_latest (b_times l), e_follow e with
  | Some _, Some latest, Some (evt, later) =>
      let chain := class_chain evt later in
      let l1 := if e_drawing e
        then with_times (at_max (Some (Z.min latest (chain_end chain))))
               (match (if c_end evt <=? e_now e then next_live chain (e_now e) else None) with Some c => with_booking (Some (c_id c)) l | None => l end)
        else with_times (fun t => at_max (min_some (chain_end chain) (t_max t)) t) l in
      match t_max (b_times l1) with Some m => with_times (fun t => at_idle (min_some m (t_idle t)) t) l1 | None => l1 end
  | _, _, _ => l
  end.

(** ** [_start] *)

(** From the networks on: the template, the range, the build. *)
Definition build (e : env) (p : profile) (networks : gmap string string) (rebuild : bool) (s : st) : result refusal st :=
  let '(l, d) := s in
  match range_template p networks with
  | None => Err (Refused 422)
  | Some nets =>
      let l1 := with_times (at_provisioning (Some (e_now e)))
                  (saying NoError (_set_state (e_now e) PROVISIONING (with_range (Some (e_new_range e)) l))) in
      let l2 := if rebuild then l1
        else
          let end_ := e_now e + lifetime p in
          let f := _follow_class e (with_times (fun t => at_max (Some end_) (at_latest (Some end_) t)) l1) in
          with_times (fun t => at_idle (min_some (e_now e + idle_seconds p) (t_max t)) t) f in
      Ok (_send (ProvisionRange (e_new_range e)) l2, put_range (e_new_range e) provisioning nets d)
  end.

(** [_start] of a queued session; a rebuild is [build] on the networks the session keeps. *)
Definition _start (id : string) (e : env) (p : profile) (refuse_busy : bool) (s : st) : result refusal st :=
  let '(l, d) := s in
  if e_window e then Ok (saying WindowHolds l, d)
  else
    match _quota_problem id l d with
    | Some why => Ok (saying why l, d)
    | None =>
        match _capacity_refused e p refuse_busy l with
        | Err x => Err x
        | Ok (true, l1) => Ok (l1, d)
        | Ok (false, l1) =>
            match _lease_networks id e p (l1, d) with
            | Err x => Err x
            | Ok (None, d1) => Ok (saying NoNetworks l1, d1)
            | Ok (Some networks, d1) => build e p networks false (l1, d1)
            end
        end
    end.

(** ** Ending and failing *)

(** [_fail] *)
Definition _fail (id : string) (e : env) (why : lab_error) (s : st) : st :=
  let '(l, d) := s in
  let l1 := with_reason (if String.eqb (b_reason l) "" then "failed" else b_reason l) (saying why l) in
  match range_of l d with
  | Some (r, x) =>
      if bool_decide (a_state x = destroyed) then (_set_state (e_now e) FAILED l1, _release_networks id d)
      else if bool_decide (a_state x = destroying) then (_set_state (e_now e) CLEANING l1, d)
      else (_set_state (e_now e) CLEANING (_send (DestroyRange r) l1), move_range r destroying d)
  | None => (_set_state (e_now e) FAILED l1, _release_networks id d)
  end.

(** [end] *)
Definition end_lab (id : string) (e : env) (reason : string) (s : st) : st :=
  let '(l, d) := s in
  if bool_decide (b_state l ∈ TERMINAL ++ ENDING) then s
  else
    let l1 := with_reason reason (with_times (at_ended (Some (e_now e))) l) in
    match range_of l d with
    | None => (_set_state (e_now e) DESTROYED l1, _release_networks id d)
    | Some (r, x) =>
        let l2 := _set_state (e_now e) (if bool_decide (reason ∈ ["expired"; "idle"]) then EXPIRED else COMPLETED) l1 in
        if bool_decide (a_state x ∈ [destroyed; destroying]) then (l2, d) else (_send (DestroyRange r) l2, move_range r destroying d)
    end.

(** ** [advance] *)

Definition with_profile (e : env) (f : profile -> result refusal st) : result refusal st :=
  match e_profile e with Ok p => f p | Err x => Err x end.

Definition _advance_provisioning (id : string) (e : env) (s : st) : result refusal st :=
  let '(l, d) := s in
  match range_of l d with
  | None => Ok (_fail id e RangeMissing s)
  | Some (r, x) =>
      if bool_decide (a_state x = failed) then Ok (_fail id e NotBuilt s)
      else if bool_decide (a_state x = created) then
        if e_window e then Ok (saying WindowHolds l, d)
        else Ok (_send (ProvisionRange r) (saying NoError (with_times (at_provisioning (Some (e_now e))) l)), move_range r provisioning d)
      else if LAB_PROVISION_TIMEOUT cfg <? e_now e - match t_provisioning (b_times l) with Some t => t | None => e_now e end
           then Ok (_fail id e NotReadyInTime s)
      else if negb (bool_decide (a_state x = ready)) then Ok s
      else with_profile e (fun p =>
        if negb (forallb (fun ok => ok) (e_probes e)) then Ok s
        else
          let l1 := with_times (at_ready (Some (e_now e))) l in
          if p_snapshot p
          then Ok (_send (SnapshotRange r (e_new_snap e)) (_set_state (e_now e) BASELINING (with_baseline (Some (e_new_snap e)) l1)),
                   put_snap (e_new_snap e) S_creating d)
          else Ok (_set_state (e_now e) READY l1, d))
  end.

Definition snap_of (l : lab) (d : db) : option (string * SnapState) :=
  match b_baseline l with Some i => option_map (pair i) (d_snaps d !! i) | None => None end.
Definition range_failed (l : lab) (d : db) : bool :=
  match range_of l d with Some (_, x) => bool_decide (a_state x = failed) | None => false end.
(** A snapshot that must be taken again while the range's row is gone raises: [str(rng.id)]. *)
Definition _advance_baselining (id : string) (e : env) (s : st) : result refusal st :=
  let '(l, d) := s in
  match snap_of l d with
  | None => Ok (_fail id e NoBaseline s)
  | Some (i, x) =>
      if bool_decide (x = S_ready) then Ok (_set_state (e_now e) READY l, d)
      else if range_failed l d then Ok (_fail id e NoBaseline s)
      else if bool_decide (x = S_failed) || (LAB_STEP_TIMEOUT cfg <? _in_state_for (e_now e) l) then
        if 2 <=? b_attempts l then Ok (_fail id e NoBaseline s)
        else
          match range_of l d with
          | Some (r, _) => Ok (_send (SnapshotRange r i) (with_state (b_state l) (e_now e) (b_attempts l + 1) l), put_snap i S_creating d)
          | None => Err Raised
          end
      else Ok s
  end.

Definition _advance_resetting (id : string) (e : env) (p : profile) (s : st) : result refusal st :=
  let '(l, d) := s in
  if p_snapshot p then
    match range_of l d with
    | None => Ok (_fail id e ResetIncomplete s)
    | Some (_, x) =>
        if bool_decide (a_state x = failed) then Ok (_fail id e ResetIncomplete s)
        else if match snap_of l d with Some (_, S_ready) => negb (bool_decide (a_state x = destroying)) | _ => false end
             then Ok (_set_state (e_now e) ACTIVE l, d)
        else if LAB_STEP_TIMEOUT cfg <? _in_state_for (e_now e) l then Ok (_fail id e ResetTimeout s)
        else Ok s
    end
  else
    match range_of l d with
    | None => Ok (_fail id e RebuildIncomplete s)
    | Some (r, x) =>
        if bool_decide (a_state x = destroyed) then
          if e_window e then Ok (saying WindowHolds l, d)
          else build e p (_session_networks id d) true
                 (_send (ReconcileVms [r] (y_backend (b_key l))) (with_retired (b_retired l ++ [r]) l), d)
        else if bool_decide (a_state x = failed) || (LAB_STEP_TIMEOUT cfg <? _in_state_for (e_now e) l)
             then Ok (_fail id e RebuildIncomplete s)
        else Ok s
    end.

Definition _advance_cleaning (id : string) (e : env) (s : st) : st :=
  let '(l, d) := s in
  let returned := (_set_state (e_now e) DESTROYED (with_times (at_reconciled (Some (e_now e))) l), _release_networks id d) in
  match range_of l d with
  | None => returned
  | Some (r, x) =>
      if bool_decide (a_state x = destroyed) then
        if bool_decide (b_state l = RECONCILE_WAIT) then
          if _in_state_for (e_now e) l <? LAB_RECONCILE_GRACE cfg then s else returned
        else (_set_state (e_now e) RECONCILE_WAIT (_send (ReconcileVms (b_retired l ++ [r]) (y_backend (b_key l))) l), d)
      else if bool_decide (a_state x = failed) || (bool_decide (a_state x = destroying) && (LAB_STEP_TIMEOUT cfg <? _in_state_for (e_now e) l)) then
        if LAB_TEARDOWN_ATTEMPTS cfg <=? b_attempts l
        then (with_state FAILED (b_since l) (b_attempts l) (saying NotShutDown l), d)
        else (_send (DestroyRange r) (_send (ReconcileVms [r] (y_backend (b_key l))) (with_state RECONCILE (e_now e) (b_attempts l + 1) l)),
              move_range r destroying d)
      else if bool_decide (b_state l ∈ [COMPLETED; EXPIRED]) then (_set_state (e_now e) CLEANING l, d)
      else s
  end.

(** [_console_idle]: whether to close, and the session. *)
Definition _console_idle (e : env) (latest : Z) (l : lab) : result refusal (bool * lab) :=
  match e_consoles e with
  | NOT_ASKED => Ok (false, l)
  | Unknown => Ok (false, with_times (at_idle (Some (Z.min (e_now e + Z.max 60 (LAB_CONSOLE_RECHECK cfg)) latest))) l)
  | OpenNow n =>
      if 0 <? n then
        match e_profile e with
        | Ok p => Ok (false, _set_state (e_now e) ACTIVE
            (with_times (fun t => at_warned None (at_idle (Some (Z.min (e_now e + idle_seconds p) latest)) (at_seen (Some (e_now e)) t))) l))
        | Err x => Err x
        end
      else Ok (true, l)
  end.

(** [_advance_running] *)
Definition _advance_running (id : string) (e : env) (s : st) : result refusal st :=
  let '(l, d) := s in
  match t_max (b_times l), t_idle (b_times l) with
  | Some latest, Some idle =>
      if (e_now e <? latest) && (e_now e <? idle) then
        Ok (if bool_decide (t_warned (b_times l) = None) && (idle <? latest) && (idle - LAB_IDLE_WARNING cfg <=? e_now e)
            then with_times (at_warned (Some (e_now e))) l else l, d)
      else if e_class_range e
           then Ok (_set_state (e_now e) FAILED (with_times (at_ended (Some (e_now e))) (with_reason "class_range" (saying CLASS_RANGE l))), d)
      else if e_now e <? latest then
        match _console_idle e latest l with
        | Ok (true, l1) => Ok (end_lab id e "idle" (l1, d))
        | Ok (false, l1) => Ok (l1, d)
        | Err x => Err x
        end
      else Ok (end_lab id e "expired" s)
  | _, _ => Err Raised   (* never: both are set with the range *)
  end.

(** [advance]: a session with tasks left to send does nothing else. *)
Definition advance (id : string) (e : env) (s : st) : result refusal st :=
  let '(l, d) := s in
  if negb (bool_decide (b_pending l = [])) then Ok s
  else
    match b_state l with
    | QUEUED => if LAB_QUEUE_TIMEOUT cfg <? _in_state_for (e_now e) l then Ok (end_lab id e "queue_timeout" s)
                else with_profile e (fun p => _start id e p false s)
    | PROVISIONING => _advance_provisioning id e s
    | BASELINING => _advance_baselining id e s
    | RESETTING => with_profile e (fun p => _advance_resetting id e p s)
    | READY | ACTIVE => _advance_running id e (_follow_class e l, d)
    | COMPLETED | EXPIRED | CLEANING | RECONCILE_WAIT | RECONCILE => Ok (_advance_cleaning id e s)
    | DESTROYED | FAILED => Ok s
    end.

(** ** The student's actions *)

Definition touch (e : env) (s : st) : result refusal st :=
  let '(l, d) := s in
  if negb (bool_decide (b_state l ∈ [READY; ACTIVE])) then Ok s
  else with_profile e (fun p =>
    Ok (_set_state (e_now e) ACTIVE (with_times (fun t => at_warned None (at_idle (min_some (e_now e + idle_seconds p) (t_max t)) (at_seen (Some (e_now e)) t))) l), d)).

Definition reset (e : env) (s : st) : result refusal st :=
  let '(l, d) := s in
  if negb (bool_decide (b_state l ∈ [READY; ACTIVE])) then Err (Refused 409)
  else
    match range_of l d with
    | None => Err Raised
    | Some (r, _) =>
        if e_window_range e then Err (Refused 409)
        else with_profile e (fun p =>
          if p_snapshot p then
            match snap_of l d with
            | Some (i, S_ready) =>
                if e_creds_pending e then Err (Refused 409)
                else Ok (_send (RestoreSnapshot r i) (_set_state (e_now e) RESETTING l), put_snap i S_restoring d)
            | _ => Err (Refused 409)
            end
          else Ok (_send (DestroyRange r) (_set_state (e_now e) RESETTING l), move_range r destroying d))
    end.

Definition add_evidence (e : env) (body : string) (size : Z) (s : st) : result refusal st :=
  let '(l, d) := s in
  if bool_decide (b_state l ∈ TERMINAL) then Err (Refused 409)
  else if MAX_EVIDENCE_BYTES cfg <? size then Err (Refused 413)
  else if MAX_EVIDENCE_ITEMS cfg <=? Z.of_nat (length (b_evidence l)) then Err (Refused 413)
  else Ok (with_evidence (b_evidence l ++ [Evidence body size (e_now e)]) l, d).

(** ** What an operation does to the session's life and resources *)

Definition core (l : lab) : LabState * option string * list string * list task := (b_state l, b_range l, b_retired l, b_pending l).
(** A range is up in these states; [rebuilds]: a reset rebuilds the lab instead of restoring its snapshot. *)
Definition UP (rebuilds : bool) : list LabState := [PROVISIONING; BASELINING; READY; ACTIVE] ++ if rebuilds then [] else [RESETTING].
(** Rows were added to the pool at most. *)
Definition grown (m m' : gmap string (option (string * string))) : Prop :=
  (forall g v, m !! g = Some v -> m' !! g = Some v) /\ (forall g v, m' !! g = Some v -> m !! g = Some v \/ v = None).
(** Free networks of the pool were leased to [id]: [nets], and others only grew. *)
Definition leased (id : string) (m m' : gmap string (option (string * string))) (nets : list string) : Prop :=
  (forall g v, m !! g = Some (Some v) -> m' !! g = Some (Some v)) /\
  (forall g v, m' !! g = Some (Some v) -> m !! g = Some (Some v) \/ v.1 = id) /\
  (forall g, g ∈ nets -> exists n, m' !! g = Some (Some (id, n))).

Inductive effect (rebuilds : bool) (id : string) (e : env) : st -> st -> Prop :=
| f_soft l d l' d' : core l' = core l -> d_ranges d' = d_ranges d -> grown (d_nets d) (d_nets d') -> effect rebuilds id e (l, d) (l', d')
| f_up l d l' d' s new : b_state l ∈ UP rebuilds -> s ∈ UP rebuilds -> core l' = (s, b_range l, b_retired l, b_pending l ++ new) ->
    d_ranges d' = d_ranges d -> d_nets d' = d_nets d -> effect rebuilds id e (l, d) (l', d')
| f_again l d l' r x : b_state l = PROVISIONING -> range_of l d = Some (r, x) -> a_state x = created ->
    core l' = (PROVISIONING, b_range l, b_retired l, b_pending l ++ [ProvisionRange r]) ->
    effect rebuilds id e (l, d) (l', move_range r provisioning d)
| f_destroying l d l' r x s new : b_state l ∈ RUNS_RESOURCES -> b_state l <> RECONCILE_WAIT ->
    s ∈ [CLEANING; EXPIRED; COMPLETED; RECONCILE; RESETTING] -> (s = RESETTING -> rebuilds = true) ->
    range_of l d = Some (r, x) -> a_state x <> destroyed -> core l' = (s, b_range l, b_retired l, b_pending l ++ new ++ [DestroyRange r]) ->
    effect rebuilds id e (l, d) (l', move_range r destroying d)
| f_leave l d l' r x s : b_state l ∈ RUNS_RESOURCES -> b_state l <> RECONCILE_WAIT -> s ∈ [CLEANING; EXPIRED; COMPLETED] -> range_of l d = Some (r, x) ->
    core l' = (s, b_range l, b_retired l, b_pending l) -> effect rebuilds id e (l, d) (l', d)
| f_reconcile l d l' r x : b_state l ∈ ENDING -> b_state l <> RECONCILE_WAIT -> range_of l d = Some (r, x) -> a_state x = destroyed ->
    core l' = (RECONCILE_WAIT, b_range l, b_retired l, b_pending l ++ [ReconcileVms (b_retired l ++ [r]) (y_backend (b_key l))]) ->
    effect rebuilds id e (l, d) (l', d)
| f_return l d l' s : b_state l ∈ HOLDS_RESOURCES -> s ∈ [DESTROYED; FAILED] ->
    (range_of l d = None \/ exists r x, range_of l d = Some (r, x) /\ a_state x = destroyed /\
       ((b_state l = RECONCILE_WAIT /\ b_pending l = [] /\ LAB_RECONCILE_GRACE cfg <= _in_state_for (e_now e) l) \/ b_state l ∈ UP rebuilds)) ->
    core l' = (s, b_range l, b_retired l, b_pending l) -> effect rebuilds id e (l, d) (l', _release_networks id d)
| f_failed l d l' : b_state l ∈ RUNS_RESOURCES -> b_state l <> RECONCILE_WAIT ->
    core l' = (FAILED, b_range l, b_retired l, b_pending l) -> effect rebuilds id e (l, d) (l', d)
| f_build l d l' nets d1 : b_state l = QUEUED -> d_ranges d1 = d_ranges d -> leased id (d_nets d) (d_nets d1) nets -> d_labs d1 = d_labs d ->
    _quota_problem id l d = None ->
    core l' = (PROVISIONING, Some (e_new_range e), b_retired l, b_pending l ++ [ProvisionRange (e_new_range e)]) ->
    effect rebuilds id e (l, d) (l', put_range (e_new_range e) provisioning nets d1)
| f_rebuild l d l' r x nets : rebuilds = true -> b_state l = RESETTING -> range_of l d = Some (r, x) -> a_state x = destroyed ->
    leased id (d_nets d) (d_nets d) nets ->
    core l' = (PROVISIONING, Some (e_new_range e), b_retired l ++ [r],
               b_pending l ++ [ReconcileVms [r] (y_backend (b_key l)); ProvisionRange (e_new_range e)]) ->
    effect rebuilds id e (l, d) (l', put_range (e_new_range e) provisioning nets d).

(** The fields no operation changes. *)
Definition framed (s s' : st) : Prop := b_key s'.1 = b_key s.1 /\ b_lease s'.1 = b_lease s.1 /\ d_labs s'.2 = d_labs s.2.
Definition does (rebuilds : bool) (id : string) (e : env) (s s' : st) : Prop := framed s s' /\ effect rebuilds id e s s'.

Lemma set_state_fields now s l : let l' := _set_state now s l in
  b_state l' = s /\ b_range l' = b_range l /\ b_retired l' = b_retired l /\ b_pending l' = b_pending l /\ b_key l' = b_key l /\ b_lease l' = b_lease l.
Proof. unfold _set_state. cbv zeta. by case_bool_decide. Qed.
Lemma state_set now s l : b_state (_set_state now s l) = s.
Proof. apply set_state_fields. Qed.
Lemma range_set now s l : b_range (_set_state now s l) = b_range l.
Proof. apply set_state_fields. Qed.
Lemma retired_set now s l : b_retired (_set_state now s l) = b_retired l.
Proof. apply set_state_fields. Qed.
Lemma pending_set now s l : b_pending (_set_state now s l) = b_pending l.
Proof. apply set_state_fields. Qed.
Lemma key_set now s l : b_key (_set_state now s l) = b_key l.
Proof. apply set_state_fields. Qed.
Lemma lease_set now s l : b_lease (_set_state now s l) = b_lease l.
Proof. apply set_state_fields. Qed.
#[local] Arguments _set_state : simpl never.
#[local] Hint Rewrite state_set range_set retired_set pending_set key_set lease_set : lab.
Ltac fields := unfold core, framed; cbn; autorewrite with lab; rewrite <- ?app_assoc, ?app_nil_r; try done.
Lemma grown_refl m : grown m m.
Proof. split; auto. Qed.

Lemma soft_does rebuilds id e l d l' : core l' = core l -> b_key l' = b_key l -> b_lease l' = b_lease l -> does rebuilds id e (l, d) (l', d).
Proof. intros Hc Hk Hl. split; [done|]. by apply f_soft; [|done|apply grown_refl]. Qed.

(** [_follow_class] moves the booking and the end times only. *)
Lemma follow_soft e l : core (_follow_class e l) = core l /\ b_key (_follow_class e l) = b_key l /\ b_lease (_follow_class e l) = b_lease l.
Proof.
  unfold _follow_class. destruct (b_booking l); [|done]. destruct (t_latest _); [|done]. destruct (e_follow e) as [[evt later]|]; [|done].
  cbv zeta. set (l1 := if e_drawing e then _ else _).
  assert (H1 : core l1 = core l /\ b_key l1 = b_key l /\ b_lease l1 = b_lease l).
  { unfold l1. destruct (e_drawing e); [|done]. by destruct (if _ <=? _ then _ else None). }
  clearbody l1. by destruct (t_max _).
Qed.

(** What [_fail] does from a state of the lab's life, its range up or being rebuilt. *)
Lemma fail_does rebuilds id e why l d : b_state l ∈ [PROVISIONING; BASELINING; RESETTING] ->
  (rebuilds = true -> b_state l = RESETTING -> forall r x, range_of l d = Some (r, x) -> a_state x <> destroyed) ->
  does rebuilds id e (l, d) (_fail id e why (l, d)).
Proof.
  intros Hs Hr. assert (Hruns : b_state l ∈ RUNS_RESOURCES /\ b_state l ∈ HOLDS_RESOURCES /\ b_state l <> RECONCILE_WAIT).
  { cases_in Hs; rewrite Hs; repeat split; (done || in_list). }
  destruct Hruns as (Hru & Hh & Hw). unfold _fail. cbv zeta.
  destruct (range_of l d) as [[r x]|] eqn:Hx; [case_bool_decide as Hd; [|case_bool_decide as Hg]|].
  - split; [fields|]. apply (f_return _ _ _ _ _ _ FAILED); [done|in_list| |fields].
    right. exists r, x. split; [done|]. split; [done|]. right.
    cases_in Hs; rewrite Hs; unfold UP; destruct rebuilds; try in_list. by destruct (Hr eq_refl Hs r x eq_refl).
  - split; [fields|]. apply (f_leave _ _ _ _ _ _ r x CLEANING); [done|done|in_list|done|fields].
  - split; [fields|]. apply (f_destroying _ _ _ _ _ _ r x CLEANING []); [done|done|in_list|done|done|done|fields].
  - split; [fields|]. apply (f_return _ _ _ _ _ _ FAILED); [done|in_list|by left|fields].
Qed.

(** A queued session has no range. *)
Definition queued_bare (l : lab) : Prop := b_state l = QUEUED -> b_range l = None.

Lemma ranged_runs l d r x : queued_bare l -> b_state l ∈ LIVE -> range_of l d = Some (r, x) -> b_state l ∈ RUNS_RESOURCES.
Proof.
  intros Hq Hl Hx. destruct (decide (b_state l = QUEUED)) as [H|H].
  - unfold range_of in Hx. by rewrite (Hq H) in Hx.
  - destruct (b_state l); first [done|in_list|by cases_in Hl].
Qed.

Lemma end_does rebuilds id e reason l d : queued_bare l -> does rebuilds id e (l, d) (end_lab id e reason (l, d)).
Proof.
  intros Hq. unfold end_lab. case_bool_decide as Hs; [by apply soft_does|]. cbv zeta.
  assert (Hh : b_state l ∈ LIVE /\ b_state l ∈ HOLDS_RESOURCES /\ b_state l <> RECONCILE_WAIT).
  { destruct (b_state l); repeat split; first [done|in_list|destruct Hs; in_list]. }
  destruct Hh as (Hl & Hh & Hw). set (s := if bool_decide (reason ∈ _) then EXPIRED else COMPLETED).
  assert (Hin : s ∈ [CLEANING; EXPIRED; COMPLETED]) by (unfold s; case_bool_decide; in_list).
  assert (Hin2 : s ∈ [CLEANING; EXPIRED; COMPLETED; RECONCILE; RESETTING]) by (unfold s; case_bool_decide; in_list).
  assert (Hn : s = RESETTING -> rebuilds = true) by (unfold s; by case_bool_decide). clearbody s.
  destruct (range_of l d) as [[r x]|] eqn:Hx; [pose proof (ranged_runs l d r x Hq Hl Hx) as Hr; case_bool_decide as Hd|].
  - split; [fields|]. by apply (f_leave _ _ _ _ _ _ r x s); [..|fields].
  - split; [fields|]. apply (f_destroying _ _ _ _ _ _ r x s []); [done..| |fields]. intros H. apply Hd. rewrite H. in_list.
  - split; [fields|]. apply (f_return _ _ _ _ _ _ DESTROYED); [done|in_list|by left|fields].
Qed.

Lemma up_does rebuilds id e l d l' s new : b_state l ∈ UP rebuilds -> s ∈ UP rebuilds ->
  core l' = (s, b_range l, b_retired l, b_pending l ++ new) -> b_key l' = b_key l -> b_lease l' = b_lease l ->
  forall d', d_ranges d' = d_ranges d -> d_nets d' = d_nets d -> d_labs d' = d_labs d -> does rebuilds id e (l, d) (l', d').
Proof. intros. split; [done|]. by apply (f_up _ _ _ _ _ _ _ s new). Qed.

Lemma provisioning_does rebuilds id e l d s' : b_state l = PROVISIONING -> _advance_provisioning id e (l, d) = Ok s' -> does rebuilds id e (l, d) s'.
Proof.
  intros Hs. unfold _advance_provisioning.
  assert (Hf : forall why, does rebuilds id e (l, d) (_fail id e why (l, d))) by (intros; apply fail_does; rewrite Hs; [in_list|done]).
  assert (Hu : b_state l ∈ UP rebuilds) by (rewrite Hs; unfold UP; destruct rebuilds; in_list).
  destruct (range_of l d) as [[r x]|] eqn:Hx; [|intros [= <-]; apply Hf].
  case_bool_decide; [intros [= <-]; apply Hf|]. case_bool_decide as Hc.
  { destruct (e_window e); intros [= <-]; [by apply soft_does|]. split; [fields|]. apply (f_again _ _ _ _ _ _ r x); [done..|]. fields. by rewrite Hs. }
  destruct (_ <? _); [intros [= <-]; apply Hf|]. destruct (negb _); [by intros [= <-]; apply soft_does|].
  unfold with_profile. destruct (e_profile e) as [p|]; [|done]. destruct (negb _); [by intros [= <-]; apply soft_does|]. cbv zeta.
  destruct (p_snapshot p); intros [= <-].
  - apply (up_does _ _ _ _ _ _ BASELINING [SnapshotRange r (e_new_snap e)]); first [done|fields]. unfold UP; destruct rebuilds; in_list.
  - apply (up_does _ _ _ _ _ _ READY []); first [done|fields]. unfold UP; destruct rebuilds; in_list.
Qed.

Lemma baselining_does rebuilds id e l d s' : b_state l = BASELINING -> _advance_baselining id e (l, d) = Ok s' -> does rebuilds id e (l, d) s'.
Proof.
  intros Hs. unfold _advance_baselining.
  assert (Hf : forall why, does rebuilds id e (l, d) (_fail id e why (l, d))) by (intros; apply fail_does; rewrite Hs; [in_list|done]).
  assert (Hu : b_state l ∈ UP rebuilds) by (rewrite Hs; unfold UP; destruct rebuilds; in_list).
  destruct (snap_of l d) as [[i x]|]; [|intros [= <-]; apply Hf].
  case_bool_decide; [intros [= <-]; apply (up_does _ _ _ _ _ _ READY []); first [done|fields]; unfold UP; destruct rebuilds; in_list|].
  destruct (range_failed l d); [intros [= <-]; apply Hf|]. destruct (_ || _); [|by intros [= <-]; apply soft_does].
  destruct (2 <=? _); [intros [= <-]; apply Hf|]. destruct (range_of l d) as [[r y]|]; [|done]. intros [= <-].
  apply (up_does _ _ _ _ _ _ BASELINING [SnapshotRange r i]); first [done|fields]; [|by rewrite Hs]. unfold UP; destruct rebuilds; in_list.
Qed.

(** *** Networks *)

Lemma pool_grown d : grown (d_nets d) (d_nets (_pool d)).
Proof.
  unfold _pool. cbn [put_nets d_nets]. generalize (d_nets d). induction (LAB_PORT_GROUPS cfg) as [|g gs IH]; intros m; [apply grown_refl|].
  cbn [fold_left]. destruct (IH (match m !! g with Some _ => m | None => <[g := None]> m end)) as [H1 H2].
  destruct (m !! g) as [v|] eqn:Hg; [by split|]. split.
  - intros h v Hv. apply H1. rewrite lookup_insert_ne; [done|]. intros <-. by rewrite Hg in Hv.
  - intros h v [Hv|Hv]%H2; [|by right]. apply lookup_insert_Some in Hv as [[<- <-]|[_ Hv]]; [by right|by left].
Qed.

Lemma lease_fold id (pairs : list (string * string)) (m : gmap string (option (string * string))) g :
  let m' := fold_left (fun m x => <[x.2 := Some (id, x.1)]> m) pairs m in
  (g ∈ pairs.*2 -> exists n, m' !! g = Some (Some (id, n))) /\ (g ∉ pairs.*2 -> m' !! g = m !! g).
Proof.
  cbv zeta. revert m. induction pairs as [|[n h] pairs IH]; intros m; [split; [by intros ?%elem_of_nil|done]|]. cbn [fold_left fst snd].
  destruct (IH (<[h := Some (id, n)]> m)) as [H1 H2]. rewrite fmap_cons. cbn [snd]. split.
  - intros Hg. destruct (decide (g ∈ pairs.*2)) as [Hin|Hout]; [by apply H1|].
    apply elem_of_cons in Hg as [->|Hg]; [|done]. exists n. by rewrite (H2 Hout), lookup_insert_eq.
  - intros Hg. apply not_elem_of_cons in Hg as [Hne Hout]. by rewrite (H2 Hout), lookup_insert_ne.
Qed.

Lemma free_is_free e d g : g ∈ free_networks e d -> d_nets d !! g = Some None.
Proof.
  unfold free_networks. intros Hg%elem_of_py_sorted%list_elem_of_In%in_map_iff. destruct Hg as ([h v] & <- & Hin).
  apply List.filter_In in Hin as [Hin Hb]. apply list_elem_of_In, elem_of_map_to_list in Hin. cbn [fst snd] in *. by reflect_bools; subst.
Qed.

Definition values (m : gmap string string) (g : string) : Prop := exists n, m !! n = Some g.
Lemma template_values p networks nets g : range_template p networks = Some nets -> g ∈ nets -> values networks g.
Proof. unfold range_template. destruct (forallb _ _); [|done]. intros [= <-] (n & _ & Hn)%list_elem_of_omap. by exists n. Qed.

Lemma lease_ok id e p l d o d1 : _lease_networks id e p (l, d) = Ok (o, d1) ->
  d_ranges d1 = d_ranges d /\ d_labs d1 = d_labs d /\
  match o with
  | None => grown (d_nets d) (d_nets d1)
  | Some networks => forall nets, (forall g, g ∈ nets -> values networks g) -> leased id (d_nets d) (d_nets d1) nets
  end.
Proof.
  unfold _lease_networks. destruct (String.eqb _ _).
  { intros [= <- <-]. split; [done|]. split; [done|]. intros nets Hn. split; [done|]. split; [by left|]. by intros g (n & Hg)%Hn. }
  destruct (LAB_PORT_GROUPS cfg) as [|g0 gs] eqn:Hpool; [done|]. cbv zeta. pose proof (pool_grown d) as [Hg1 Hg2].
  destruct (_ <? _); [by intros [= <- <-]|]. destruct (_ <? _)%nat; [by intros [= <- <-]|]. intros [= <- <-].
  split; [done|]. split; [done|]. set (pairs := zip _ _). intros nets Hn. cbn [put_nets d_nets].
  change (fold_left _ (LAB_PORT_GROUPS cfg) (d_nets d)) with (d_nets (_pool d)).
  assert (Hfree : forall g, g ∈ pairs.*2 -> d_nets (_pool d) !! g = Some None).
  { intros g Hg. apply (free_is_free e). apply list_elem_of_fmap in Hg as ([n h] & -> & Hp). cbn [snd].
    apply elem_of_zip_r in Hp. by apply elem_of_take_in in Hp. }
  split; [|split].
  - intros g v Hv. destruct (lease_fold id pairs (d_nets (_pool d)) g) as [_ Hout]. rewrite Hout; [by apply Hg1|].
    intros Hin. apply Hfree in Hin. rewrite (Hg1 g _ Hv) in Hin. discriminate Hin.
  - intros g v Hv. destruct (lease_fold id pairs (d_nets (_pool d)) g) as [Hin Hout]. destruct (decide (g ∈ pairs.*2)) as [Hg|Hg].
    + destruct (Hin Hg) as (n & Hn'). rewrite Hn' in Hv. injection Hv as <-. by right.
    + rewrite (Hout Hg) in Hv. destruct (Hg2 g _ Hv) as [?|?]; [by left|done].
  - intros g (n & Hng)%Hn. apply elem_of_list_to_map_2 in Hng. apply list_elem_of_In, in_rev, list_elem_of_In in Hng.
    apply (lease_fold id pairs (d_nets (_pool d)) g). by apply (list_elem_of_fmap_2 snd) in Hng.
Qed.

Lemma session_networks_leased id d nets : (forall g, g ∈ nets -> values (_session_networks id d) g) -> leased id (d_nets d) (d_nets d) nets.
Proof.
  intros Hn. split; [done|]. split; [by left|]. intros g (n & Hg)%Hn. exists n. unfold _session_networks in Hg. apply elem_of_list_to_map_2 in Hg.
  apply list_elem_of_omap in Hg as ([h v] & Hh & Hv). apply elem_of_map_to_list in Hh. cbn [fst snd] in Hv.
  destruct v as [[i m]|]; [|done]. destruct (String.eqb_spec i id) as [->|]; [|done]. by injection Hv as -> ->.
Qed.

(** *** The operations *)

Lemma build_ok e p networks rebuild l d s' : build e p networks rebuild (l, d) = Ok s' ->
  exists nets, s'.2 = put_range (e_new_range e) provisioning nets d /\ (forall g, g ∈ nets -> values networks g) /\
    b_key s'.1 = b_key l /\ b_lease s'.1 = b_lease l /\
    core s'.1 = (PROVISIONING, Some (e_new_range e), b_retired l, b_pending l ++ [ProvisionRange (e_new_range e)]).
Proof.
  unfold build. destruct (range_template p networks) as [nets|] eqn:Hn; [|done]. cbv zeta. set (l1 := with_times _ (saying _ _)).
  assert (H1 : b_key l1 = b_key l /\ b_lease l1 = b_lease l /\ core l1 = (PROVISIONING, Some (e_new_range e), b_retired l, b_pending l)).
  { unfold l1. fields. }
  clearbody l1. destruct H1 as (Hk & Hl & Hc). intros [= <-]. exists nets. cbn [fst snd]. split; [done|].
  split; [intros g; by apply (template_values p)|]. destruct rebuild; [unfold core in *; cbn; injection Hc as -> -> -> ->; done|].
  set (lt := with_times _ l1). destruct (follow_soft e lt) as (Hfc & Hfk & Hfl).
  unfold core in *. cbn [with_times _send with_pending b_key b_lease b_state b_range b_retired b_pending].
  injection Hfc as -> -> -> ->. cbn [lt with_times b_state b_range b_retired b_pending]. injection Hc as -> -> -> ->.
  by rewrite Hfk, Hfl.
Qed.

Lemma capacity_soft e p busy l b l1 : _capacity_refused e p busy l = Ok (b, l1) -> core l1 = core l /\ b_key l1 = b_key l /\ b_lease l1 = b_lease l.
Proof.
  unfold _capacity_refused. destruct (_ && _); [by intros [= <- <-]|]. destruct (own_booking _ _); [by intros [= <- <-]|].
  cbv zeta. destruct (fits _ _); [by intros [= <- <-]|]. destruct busy; [done|]. by intros [= <- <-].
Qed.

Lemma start_does rebuilds id e p busy l d s' : b_state l = QUEUED -> _start id e p busy (l, d) = Ok s' -> does rebuilds id e (l, d) s'.
Proof.
  intros Hq. unfold _start. destruct (e_window e); [by intros [= <-]; apply soft_does|].
  destruct (_quota_problem id l d) eqn:Hquota; [by intros [= <-]; apply soft_does|].
  destruct (_capacity_refused e p busy l) as [[[] l1]|] eqn:Hcap; [|destruct (_lease_networks id e p (l1, d)) as [[[networks|] d1]|] eqn:Hlease|]; [| | |done|done].
  - intros [= <-]. by destruct (capacity_soft _ _ _ _ _ _ Hcap) as (? & ? & ?); apply soft_does.
  - intros Hb. destruct (capacity_soft _ _ _ _ _ _ Hcap) as (Hc & Hk & Hl). destruct (lease_ok _ _ _ _ _ _ _ Hlease) as (Hr & Hla & Hn).
    destruct (build_ok _ _ _ _ _ _ _ Hb) as (nets & Hd & Hv & Hk2 & Hl2 & Hc2). destruct s' as [l' d']. cbn [fst snd] in *. subst d'.
    split; [split; [|split]; cbn; congruence|]. apply (f_build _ _ _ _ _ _ nets); [done|done|by apply Hn|done|done|].
    rewrite Hc2. unfold core in Hc. by injection Hc as _ _ -> ->.
  - intros [= <-]. destruct (capacity_soft _ _ _ _ _ _ Hcap) as (Hc & Hk & Hl). destruct (lease_ok _ _ _ _ _ _ _ Hlease) as (Hr & Hla & Hn).
    split; [done|]. by apply f_soft.
Qed.

Lemma resetting_does rebuilds id e p l d s' : p_snapshot p = negb rebuilds -> b_state l = RESETTING ->
  _advance_resetting id e p (l, d) = Ok s' -> does rebuilds id e (l, d) s'.
Proof.
  intros Hp Hs. unfold _advance_resetting. rewrite Hp.
  assert (Hf : forall why, (rebuilds = true -> forall r x, range_of l d = Some (r, x) -> a_state x <> destroyed) -> does rebuilds id e (l, d) (_fail id e why (l, d))).
  { intros why H. apply fail_does; [rewrite Hs; in_list|]. intros Ht _. by apply H. }
  destruct rebuilds; cbn [negb].
  - destruct (range_of l d) as [[r x]|] eqn:Hx; [|intros [= <-]; apply Hf; congruence]. case_bool_decide as Hd.
    + destruct (e_window e); [by intros [= <-]; apply soft_does|]. intros Hb.
      destruct (build_ok _ _ _ _ _ _ _ Hb) as (nets & Hd' & Hv & Hk & Hl & Hc). destruct s' as [l' d']. cbn [fst snd] in *. subst d'.
      split; [done|]. apply (f_rebuild _ _ _ _ _ _ r x nets); [done..|by apply session_networks_leased|].
      rewrite Hc. cbn [_send with_retired with_pending b_retired b_pending b_key]. by rewrite <- app_assoc.
    + destruct (_ || _); [|by intros [= <-]; apply soft_does]. intros [= <-]. apply Hf. by intros _ r' x' [= <- <-].
  - assert (Hu : b_state l ∈ UP false) by (rewrite Hs; in_list).
    destruct (range_of l d) as [[r x]|] eqn:Hx; [|by intros [= <-]; apply Hf]. case_bool_decide; [by intros [= <-]; apply Hf|].
    destruct (match snap_of l d with Some _ => _ | None => false end).
    + intros [= <-]. apply (up_does _ _ _ _ _ _ ACTIVE []); first [done|fields]. in_list.
    + destruct (_ <? _); intros [= <-]; [by apply Hf|by apply soft_does].
Qed.

Lemma cleaning_does rebuilds id e l d : b_state l ∈ ENDING -> b_pending l = [] ->
  (b_state l = RECONCILE_WAIT -> forall r x, range_of l d = Some (r, x) -> a_state x = destroyed) -> does rebuilds id e (l, d) (_advance_cleaning id e (l, d)).
Proof.
  intros Hs Hpend Hwait. assert (Hh : b_state l ∈ HOLDS_RESOURCES /\ b_state l ∈ RUNS_RESOURCES).
  { cases_in Hs; rewrite Hs; split; in_list. }
  destruct Hh as (Hh & Hru). unfold _advance_cleaning. cbv zeta. destruct (range_of l d) as [[r x]|] eqn:Hx.
  - case_bool_decide as Hd.
    + case_bool_decide as Hw.
      * destruct (Z.ltb_spec (_in_state_for (e_now e) l) (LAB_RECONCILE_GRACE cfg)); [by apply soft_does|]. split; [fields|].
        apply (f_return _ _ _ _ _ _ DESTROYED); [done|in_list| |fields]. right. exists r, x. split; [done|]. split; [done|]. by left.
      * split; [fields|]. apply (f_reconcile _ _ _ _ _ _ r x); [done..|fields].
    + assert (Hw : b_state l <> RECONCILE_WAIT) by (intros Hw; apply Hd; by apply (Hwait Hw r)).
      destruct (bool_decide _ || _); [destruct (_ <=? _)|case_bool_decide].
      * split; [fields|]. by apply f_failed; [..|fields].
      * split; [fields|]. apply (f_destroying _ _ _ _ _ _ r x RECONCILE [ReconcileVms [r] (y_backend (b_key l))]); [done|done|in_list|done|done|done|fields].
      * split; [fields|]. apply (f_leave _ _ _ _ _ _ r x CLEANING); [done|done|in_list|done|fields].
      * by apply soft_does.
  - split; [fields|]. apply (f_return _ _ _ _ _ _ DESTROYED); [done|in_list|by left|fields].
Qed.

(** An operation on a session whose soft fields were set before. *)
Lemma does_from rebuilds id e l l1 d s' : core l1 = core l -> b_key l1 = b_key l -> b_lease l1 = b_lease l -> b_state l ∈ [READY; ACTIVE] ->
  does rebuilds id e (l1, d) s' -> does rebuilds id e (l, d) s'.
Proof.
  intros Hc Hk Hl Hs [(Hk1 & Hl1 & Hd1) He]. pose proof Hc as Hcore. unfold core in Hc. injection Hc as Hc1 Hc2 Hc3 Hc4.
  split; [split; [|split]; cbn in *; congruence|].
  assert (Hr : range_of l1 d = range_of l d) by (unfold range_of; by rewrite Hc2).
  inversion He; subst; rewrite ?Hr, ?Hc1, ?Hc2, ?Hc3, ?Hc4, ?Hk in *.
  all: try (exfalso; cases_in Hs; congruence).
  - apply f_soft; [congruence|done..].
  - by eapply f_up.
  - by eapply f_destroying.
  - by eapply f_leave.
  - by eapply f_reconcile.
  - match goal with H : _ \/ _ |- _ => rename H into Hor end. eapply f_return; [done|done| |done].
    destruct Hor as [Hx|(r & x & Hx & Hxd & [(Hw & _)|Hup])]; [by left|by cases_in Hs; congruence|right; exists r, x; auto].
  - by eapply f_failed.
Qed.

Lemma console_soft e latest l b l1 : b_state l ∈ [READY; ACTIVE] -> _console_idle e latest l = Ok (b, l1) ->
  (exists s, s ∈ [READY; ACTIVE] /\ core l1 = (s, b_range l, b_retired l, b_pending l)) /\ b_key l1 = b_key l /\ b_lease l1 = b_lease l.
Proof.
  intros Hs. unfold _console_idle. destruct (e_consoles e) as [| |n].
  - intros [= <- <-]. split; [by exists (b_state l)|done].
  - intros [= <- <-]. split; [by exists (b_state l)|done].
  - destruct (0 <? n); [|intros [= <- <-]; split; [by exists (b_state l)|done]]. destruct (e_profile e); [|done]. intros [= <- <-].
    split; [exists ACTIVE; split; [in_list|fields]|]. by split; fields.
Qed.

Lemma running_does rebuilds id e l d s' : b_state l ∈ [READY; ACTIVE] -> _advance_running id e (l, d) = Ok s' -> does rebuilds id e (l, d) s'.
Proof.
  intros Hs. unfold _advance_running.
  assert (Hq : queued_bare l) by (intros Hq; by cases_in Hs; congruence).
  assert (Hru : b_state l ∈ RUNS_RESOURCES /\ b_state l <> RECONCILE_WAIT) by (cases_in Hs; rewrite Hs; split; first [done|in_list]).
  assert (Hup : forall s, s ∈ [READY; ACTIVE] -> s ∈ UP rebuilds) by (intros s Hin; unfold UP; cases_in Hin; rewrite Hin; destruct rebuilds; in_list).
  destruct (t_max _) as [latest|]; [|done]. destruct (t_idle _) as [idle|]; [|done]. destruct (_ && _).
  { intros [= <-]. by destruct (_ && _); apply soft_does. }
  destruct (e_class_range e). { intros [= <-]. destruct Hru. split; [fields|]. apply f_failed; [done|done|fields]. }
  destruct (_ <? _); [|intros [= <-]; by apply end_does].
  destruct (_console_idle e latest l) as [[[] l1]|] eqn:Hc; [| |done]; intros [= <-];
    destruct (console_soft e latest l _ l1 Hs Hc) as ((s & Hin & Hco) & Hk & Hl).
  - assert (Hsame : core l1 = core l).
    { unfold _console_idle in Hc. destruct (e_consoles e) as [| |n]; [done|done|]. destruct (0 <? n); [by destruct (e_profile e)|by injection Hc as <-]. }
    apply (does_from _ _ _ _ l1); [done..|]. apply end_does. intros Hq1. unfold core in Hsame. injection Hsame as H1 _ _ _. rewrite H1 in Hq1. by cases_in Hs; congruence.
  - apply (up_does _ _ _ _ _ _ s []); rewrite ?app_nil_r; auto.
Qed.

(** The profile of the release says how a reset works. *)
Definition consistent (rebuilds : bool) (e : env) : Prop := forall p, e_profile e = Ok p -> p_snapshot p = negb rebuilds.
Definition waits_destroyed (s : st) : Prop := b_state s.1 = RECONCILE_WAIT -> forall r x, range_of s.1 s.2 = Some (r, x) -> a_state x = destroyed.

Lemma advance_does rebuilds id e l d s' : consistent rebuilds e -> queued_bare l -> waits_destroyed (l, d) ->
  advance id e (l, d) = Ok s' -> does rebuilds id e (l, d) s'.
Proof.
  intros Hp Hq Hw. unfold advance, with_profile. case_bool_decide as Hpend; cbn [negb]; [|by intros [= <-]; apply soft_does].
  assert (Hclean : b_state l ∈ ENDING -> does rebuilds id e (l, d) (_advance_cleaning id e (l, d))) by (intros H; by apply cleaning_does).
  destruct (b_state l) eqn:Hs.
  - destruct (_ <? _); [intros [= <-]; by apply end_does|]. destruct (e_profile e) as [p|]; [|done]. by apply start_does.
  - by apply provisioning_does.
  - by apply baselining_does.
  - intros Hr. destruct (follow_soft e l) as (Hc & Hk & Hl). apply (does_from _ _ _ _ (_follow_class e l)); [done..|rewrite Hs; in_list|].
    apply running_does; [|done]. unfold core in Hc. injection Hc as -> _ _ _. rewrite Hs. in_list.
  - intros Hr. destruct (follow_soft e l) as (Hc & Hk & Hl). apply (does_from _ _ _ _ (_follow_class e l)); [done..|rewrite Hs; in_list|].
    apply running_does; [|done]. unfold core in Hc. injection Hc as -> _ _ _. rewrite Hs. in_list.
  - destruct (e_profile e) as [p|] eqn:He; [|done]. apply resetting_does; [by apply Hp|done].
  - intros [= <-]. apply Hclean. in_list.
  - intros [= <-]. apply Hclean. in_list.
  - intros [= <-]. apply Hclean. in_list.
  - intros [= <-]. apply Hclean. in_list.
  - by intros [= <-]; apply soft_does.
  - by intros [= <-]; apply soft_does.
  - intros [= <-]. apply Hclean. in_list.
Qed.

Lemma touch_does rebuilds id e l d s' : touch e (l, d) = Ok s' -> does rebuilds id e (l, d) s'.
Proof.
  unfold touch, with_profile. destruct (decide (b_state l ∈ [READY; ACTIVE])) as [Hs|Hs].
  - rewrite bool_decide_eq_true_2 by done. cbn [negb]. destruct (e_profile e); [|done]. intros [= <-].
    apply (up_does _ _ _ _ _ _ ACTIVE []); first [done|fields]; unfold UP; [|destruct rebuilds; in_list].
    cases_in Hs; rewrite Hs; destruct rebuilds; in_list.
  - rewrite bool_decide_eq_false_2 by done. intros [= <-]. by apply soft_does.
Qed.

(** A reset is asked of a lab whose range is up. *)
Definition up_ranged (rebuilds : bool) (s : st) : Prop := b_state s.1 ∈ UP rebuilds ->
  exists r x, range_of s.1 s.2 = Some (r, x) /\ a_state x <> destroying /\ a_state x <> destroyed.
Lemma reset_does rebuilds id e l d s' : consistent rebuilds e -> up_ranged rebuilds (l, d) -> reset e (l, d) = Ok s' -> does rebuilds id e (l, d) s'.
Proof.
  intros Hp Hu. unfold reset, with_profile. case_bool_decide as Hs; cbn [negb]; [|done].
  assert (Hup : b_state l ∈ UP rebuilds) by (unfold UP; cases_in Hs; rewrite Hs; destruct rebuilds; in_list).
  destruct (Hu Hup) as (r & x & Hx & Hd1 & Hd2). cbn [fst snd] in Hx. rewrite Hx. destruct (e_window_range e); [done|].
  destruct (e_profile e) as [p|] eqn:He; [|done]. rewrite (Hp p He). destruct rebuilds; cbn [negb].
  - intros [= <-]. split; [fields|]. apply (f_destroying _ _ _ _ _ _ r x RESETTING []); first [done|in_list|fields];
      cases_in Hs; rewrite Hs; first [done|in_list].
  - destruct (snap_of l d) as [[i []]|]; [done| |done..]. destruct (e_creds_pending e); [done|]. intros [= <-].
    apply (up_does _ _ _ _ _ _ RESETTING [RestoreSnapshot r i]); first [done|in_list|fields].
Qed.

Lemma evidence_does rebuilds id e body size l d s' : add_evidence e body size (l, d) = Ok s' -> does rebuilds id e (l, d) s'.
Proof.
  unfold add_evidence. destruct (bool_decide _); [done|]. destruct (_ <? _); [done|]. destruct (_ <=? _); [done|].
  intros [= <-]. by apply soft_does.
Qed.
End LabSessions.
