(* ===== verification/LabRuns.v ===== *)
(** * Lab sessions: the lease, the outbox and the life of every lab

    Models how [control-plane/api/app/lab_sessions/service.py] runs the operations of LabSessions.v:
    [launch], [claim] and [run_locked] under the session's lease, [flush_outbox] after the commit, with API
    processes that stop anywhere, workers that move the ranges, and administrators that abandon a failed one
    (range_abandon.py; not that of a lab that is up, see [may_abandon]).  A run works with the row it loaded when
    it claimed the lease.  The theorems, of every interleaving: an operation that commits worked on the
    latest row; two labs whose machines may exist never share a network; a network goes back to the pool
    only after the machines are gone, and the task that looks for leftovers was sent (or dropped) and waited for;
    tasks are sent in order, and none is lost but what the broker's contract refuses; one lab per student;
    the tenant's limits hold; a lab that ended stays ended. *)

From S2P Require Import Prelude StateMachines Capacity LabSessions.

Local Open Scope Z_scope.

(** ** The lease and the outbox *)

Definition LEASE_SECONDS : Z := 120.
Definition holder (l : lab) : option string := option_map snd (b_lease l).

(** [claim] *)
Definition claim (now : Z) (h : string) (l : lab) : bool * lab :=
  match b_lease l with
  | Some (until, _) => if until <? now then (true, with_lease (Some (now + LEASE_SECONDS, h)) l) else (false, l)
  | None => (true, with_lease (Some (now + LEASE_SECONDS, h)) l)
  end.

(** [_keep] *)
Definition _keep (now : Z) (h : string) (release : bool) (l : lab) : bool * lab :=
  if bool_decide (holder l = Some h)
  then (true, with_lease (if release then None else Some (now + LEASE_SECONDS, h)) l)
  else (false, l).

(** What the broker answers a send: taken, refused, or refused by the task's contract (an exception). *)
Inductive answer := Taken | NoBroker | BadTask.

(** The loop over the pending tasks: kept, sent, dropped. *)
Fixpoint deliver (answers : list answer) (pending : list task) {struct pending} : list task * list task * list task :=
  match pending with
  | [] => ([], [], [])
  | t :: rest =>
      match answers with
      | Taken :: more => let '(kept, sent, dropped) := deliver more rest in (kept, t :: sent, dropped)
      | BadTask :: more => let '(kept, sent, dropped) := deliver more rest in (kept, sent, t :: dropped)
      | _ => (pending, [], [])
      end
  end.

(** [flush_outbox], of one session: the row, the tasks sent and the tasks dropped. *)
Definition flush (now : Z) (h : string) (resent : bool) (answers : list answer) (l : lab) : lab * list task * list task :=
  match _keep now h false l with
  | (false, _) => (l, [], [])
  | (true, l1) =>
      let '(kept, sent, dropped) := deliver answers (b_pending l1) in
      let l2 := with_pending kept (match dropped with [] => l1 | _ => saying TaskRefused l1 end) in
      let l3 := if resent && negb (bool_decide (sent = [])) then with_state (b_state l2) now (b_attempts l2) l2 else l2 in
      ((_keep now h true l3).2, sent, dropped)
  end.

(** ** Operations *)

Inductive op := O_advance | O_touch | O_reset | O_end (reason : string) | O_evidence (body : string) (size : Z).

Section LabRuns.
Context (cfg : settings).

Definition perform (o : op) (id : string) (e : env) (s : st) : result refusal st :=
  match o with
  | O_advance => advance cfg id e s
  | O_touch => touch cfg e s
  | O_reset => reset e s
  | O_end reason => Ok (end_lab id e reason s)
  | O_evidence body size => add_evidence cfg e body size s
  end.
(** [RESENT]: an advance that found tasks left to send. *)
Definition resends (o : op) (l : lab) : bool := match o with O_advance => negb (bool_decide (b_pending l = [])) | _ => false end.

(** ** Launch *)

(** A launch request; [q_release_ok]: the release is there and was accepted or superseded; [q_refused]: the
    backend is switched off; [q_checked]: [check_profile] passed. *)
Record request := Request { q_tenant : string; q_user : string; q_release : string; q_activity : string; q_backend : string;
                            q_release_ok : result refusal unit; q_refused : bool; q_checked : result refusal unit }.
Definition same_key (q : request) (l : lab) : bool :=
  String.eqb (y_tenant (b_key l)) (q_tenant q) && String.eqb (y_user (b_key l)) (q_user q) &&
  String.eqb (y_release (b_key l)) (q_release q) && String.eqb (y_activity (b_key l)) (q_activity q).
Definition attempt_leb (a b : string * lab) : bool := y_attempt (b_key a.2) <=? y_attempt (b_key b.2).
Definition latest (q : request) (d : db) : option (string * lab) :=
  last (py_sorted attempt_leb (List.filter (fun x => same_key q x.2) (map_to_list (d_labs d)))).

Definition new_lab (q : request) (e : env) (p : profile) (attempt : Z) (h : string) : lab :=
  MkLab (Key (q_tenant q) (q_user q) (q_release q) (q_activity q) attempt (q_backend q) (demand p) (e_now e))
    QUEUED (e_now e) 0 None None None NoError (Times None None None None None None None None None) [] "" [] []
    (Some (e_now e + LEASE_SECONDS, h)).

Definition put_lab (id : string) (l : lab) (d : db) : db := Db (<[id := l]> (d_labs d)) (d_ranges d) (d_snaps d) (d_nets d).

(** [launch]: the session's id and, when it is new, its row and the tables. *)
Definition launch_new (attempt : Z) (id : string) (q : request) (e : env) (h : string) (d : db) : result refusal (string * option st) :=
  if existsb (fun x => String.eqb (y_user (b_key x.2)) (q_user q) && bool_decide (b_state x.2 ∈ HOLDS_RESOURCES)) (map_to_list (d_labs d))
  then Err (Refused 409)
  else if q_refused q then Err (Refused 409)
  else
    match e_profile e, q_checked q with
    | Ok p, Ok _ =>
        let l := new_lab q e p attempt h in
        match _start cfg id e p true (l, put_lab id l d) with Ok s => Ok (id, Some s) | Err x => Err x end
    | Err x, _ | _, Err x => Err x
    end.
Definition launch (id : string) (q : request) (e : env) (h : string) (d : db) : result refusal (string * option st) :=
  match q_release_ok q with
  | Err x => Err x
  | Ok _ =>
      match latest q d with
      | Some (i, l) => if bool_decide (b_state l ∈ TERMINAL) then launch_new (y_attempt (b_key l) + 1) id q e h d else Ok (i, None)
      | None => launch_new 1 id q e h d
      end
  end.

(** ** The site *)

(** A process acting on a session: it claimed the lease and loaded the row, or it has committed and goes
    on to send ([u_flushing]). *)
Record run := Run { u_id : string; u_seen : lab; u_flushing : bool; u_resent : bool }.
(** [y_used]: the holders drawn so far.  What was asked of the worker (committed to a session), what left
    the session's outbox, what was sent, what was dropped: for the statements only. *)
Record sys := Sys { y_db : db; y_runs : gmap string run; y_used : list string; y_asked : gmap string (list task);
                    y_left : gmap string (list task); y_sent : list (string * task); y_dropped : list (string * task) }.
Definition asked (y : sys) (id : string) : list task := default [] (y_asked y !! id).
Definition settled (y : sys) (id : string) : list task := default [] (y_left y !! id).
(** What was sent for a session, and what was dropped, in order. *)
Definition of_lab (id : string) (l : list (string * task)) : list task := map snd (List.filter (fun x => String.eqb x.1 id) l).
(** What became of the tasks that left the outbox, in its order: [true] for one that was dropped. *)
Definition went (id : string) (outs : list (task * bool)) (sent dropped : list (string * task)) : Prop :=
  map fst (List.filter (fun x => negb x.2) outs) `sublist_of` of_lab id sent /\
  map fst (List.filter snd outs) = of_lab id dropped.
(** What an operation added to the outbox. *)
Definition added (l l' : lab) : list task := drop (length (b_pending l)) (b_pending l').

Definition end_run (h : string) (y : sys) : sys :=
  Sys (y_db y) (delete h (y_runs y)) (y_used y) (y_asked y) (y_left y) (y_sent y) (y_dropped y).
Definition start_run (h : string) (u : run) (y : sys) : sys :=
  Sys (y_db y) (<[h := u]> (y_runs y)) (h :: y_used y) (y_asked y) (y_left y) (y_sent y) (y_dropped y).
Definition with_db (d : db) (y : sys) : sys := Sys d (y_runs y) (y_used y) (y_asked y) (y_left y) (y_sent y) (y_dropped y).
(** The committed row and tables of an operation, its tasks asked for. *)
Definition committed (id : string) (l l' : lab) (d' : db) (y : sys) : sys :=
  Sys (put_lab id l' d') (y_runs y) (y_used y) (<[id := asked y id ++ added l l']> (y_asked y)) (y_left y) (y_sent y) (y_dropped y).

(** [launch], with the commit of its caller. *)
Definition launching (id : string) (q : request) (e : env) (h : string) (y : sys) : sys :=
  match launch id q e h (y_db y) with
  | Ok (_, Some (l', d')) => start_run h (Run id l' true false) (committed id (with_pending [] l') l' d' y)
  | _ => y
  end.
(** The first half of [run_locked]: the lease, and the row as refreshed. *)
Definition claiming (id : string) (now : Z) (h : string) (y : sys) : sys :=
  match d_labs (y_db y) !! id with
  | Some l => match claim now h l with
              | (true, l') => start_run h (Run id l' false false) (with_db (put_lab id l' (y_db y)) y)
              | (false, _) => y
              end
  | None => y
  end.
(** Its second half: the operation, the check that the lease is still ours, the commit. *)
Definition running (h : string) (o : op) (e : env) (y : sys) : sys :=
  match y_runs y !! h with
  | Some (Run id seen false _) =>
      match d_labs (y_db y) !! id with
      | Some row =>
          match perform o id e (seen, y_db y) with
          | Ok (l', d') =>
              if bool_decide (holder row = Some h)
              then
                let y1 := committed id seen (with_lease (Some (e_now e + LEASE_SECONDS, h)) l') d' y in
                Sys (y_db y1) (<[h := Run id seen true (resends o seen)]> (y_runs y1)) (y_used y1) (y_asked y1) (y_left y1) (y_sent y1) (y_dropped y1)
              else end_run h y
          | Err _ => end_run h (with_db (put_lab id (_keep (e_now e) h true row).2 (y_db y)) y)
          end
      | None => y
      end
  | _ => y
  end.
(** [flush_outbox] *)
Definition flushing (h : string) (now : Z) (answers : list answer) (y : sys) : sys :=
  match y_runs y !! h with
  | Some (Run id _ true resent) =>
      match d_labs (y_db y) !! id with
      | Some row =>
          let '(row', sent, dropped) := flush now h resent answers row in
          end_run h (Sys (put_lab id row' (y_db y)) (y_runs y) (y_used y) (y_asked y)
            (<[id := settled y id ++ take (length (b_pending row) - length (b_pending row')) (b_pending row)]> (y_left y))
            (y_sent y ++ map (pair id) sent) (y_dropped y ++ map (pair id) dropped))
      | None => y
      end
  | _ => y
  end.

(** [run_locked], undisturbed. *)
Definition run_locked (id h : string) (o : op) (e : env) (answers : list answer) (y : sys) : sys :=
  flushing h (e_now e) answers (running h o e (claiming id (e_now e) h y)).

Context (rebuilds : labkey -> bool).

(** The new range's id is a fresh uuid; a release's profile never changes how a reset works. *)
Definition env_ok (e : env) (d : db) (key : labkey) : Prop := d_ranges d !! e_new_range e = None /\ consistent (rebuilds key) e.
(** A worker's move of a range: nothing leaves [destroyed]; a teardown ends destroyed or failed, and only a
    teardown does. *)
Definition worker_moves (s s' : RangeState) : Prop :=
  s <> destroyed /\ s' <> destroying /\ (s = destroying -> s' = destroyed \/ s' = failed) /\ (s' = destroyed -> s = destroying).
(** [range_abandon.abandon]: an administrator marks a failed range destroyed, here of a session that is not up (it
    ends, failed or rebuilds); [abandoned_returns_unlooked] is what follows when it is up. *)
Definition may_abandon (r : string) (s : RangeState) (d : db) : Prop :=
  s = failed /\ forall id l, d_labs d !! id = Some l -> b_range l = Some r -> b_state l ∉ UP (rebuilds (b_key l)).
Definition range_moves (r : string) (s s' : RangeState) (d : db) : Prop := worker_moves s s' \/ (s' = destroyed /\ may_abandon r s d).
Lemma range_moves_up r s s' d : range_moves r s s' d -> s <> destroyed /\ s' <> destroying.
Proof. intros [(H1 & H2 & _)|(-> & -> & _)]; done. Qed.

Inductive lstep : sys -> sys -> Prop :=
| s_launch id q e h y : h ∉ y_used y -> d_labs (y_db y) !! id = None -> d_ranges (y_db y) !! e_new_range e = None ->
    (forall p, e_profile e = Ok p -> 0 <= vcpu (demand p)) -> lstep y (launching id q e h y)
| s_claim id now h y : h ∉ y_used y -> lstep y (claiming id now h y)
| s_run h o e y : (forall id seen b r l, y_runs y !! h = Some (Run id seen b r) -> d_labs (y_db y) !! id = Some l -> env_ok e (y_db y) (b_key l)) ->
    lstep y (running h o e y)
| s_flush h now answers y : lstep y (flushing h now answers y)
| s_crash_sending h now answers y :   (* sent, and stopped before the commit *)
    lstep y (let f := flushing h now answers y in
             Sys (y_db y) (y_runs f) (y_used y) (y_asked y) (y_left y) (y_sent f) (y_dropped y))
| s_crash h y : lstep y (end_run h y)
| s_worker r s' y : (forall x, d_ranges (y_db y) !! r = Some x -> range_moves r (a_state x) s' (y_db y)) -> lstep y (with_db (move_range r s' (y_db y)) y)
| s_snapshot i x y : lstep y (with_db (put_snap i x (y_db y)) y).

Lemma put_lookup id l d j lj : d_labs (put_lab id l d) !! j = Some lj -> (j = id /\ lj = l) \/ (j <> id /\ d_labs d !! j = Some lj).
Proof. cbn [put_lab d_labs]. intros [[<- <-]|[Hne Hj]]%lookup_insert_Some; auto. Qed.

(** ** The invariant of a session *)

Record Good (id : string) (l : lab) (d : db) : Prop := MkGood {
  g_queued : queued_bare l;
  g_wait : b_state l = RECONCILE_WAIT -> exists r x, range_of l d = Some (r, x) /\ a_state x = destroyed;
  g_up : up_ranged (rebuilds (b_key l)) (l, d);
  g_row : forall r, b_range l = Some r -> exists x, d_ranges d !! r = Some x;
  g_nets : forall r x g, range_of l d = Some (r, x) -> a_state x <> destroyed -> g ∈ a_nets x -> exists n, d_nets d !! g = Some (Some (id, n));
  g_retired : forall r, r ∈ b_retired l -> exists x, d_ranges d !! r = Some x /\ a_state x = destroyed;
  g_free : b_state l = DESTROYED -> forall g n, d_nets d !! g <> Some (Some (id, n)) }.

(** What an operation on [id] leaves of everybody else's tables. *)
Lemma effect_ranges id e l d l' d' : d_ranges d !! e_new_range e = None -> effect cfg (rebuilds (b_key l)) id e (l, d) (l', d') ->
  forall r x, d_ranges d !! r = Some x -> b_range l <> Some r \/ a_state x = destroyed -> d_ranges d' !! r = Some x.
Proof.
  intros Hfresh He r x Hx Hor.
  assert (Hmove : forall r0 x0 s, range_of l d = Some (r0, x0) -> a_state x0 <> destroyed -> d_ranges (move_range r0 s d) !! r = Some x).
  { intros r0 x0 s Hr0 Hd. cbn [move_range d_ranges]. destruct (decide (r0 = r)) as [->|Hne]; [|by rewrite lookup_alter_ne].
    exfalso. unfold range_of in Hr0. destruct (b_range l) as [r1|] eqn:Hb; [|done]. destruct (d_ranges d !! r1) as [x1|] eqn:H1; [|done].
    cbn in Hr0. injection Hr0 as -> ->. rewrite Hx in H1. injection H1 as ->. by destruct Hor. }
  assert (Hput : forall nets, d_ranges (put_range (e_new_range e) provisioning nets d) !! r = Some x).
  { intros nets. cbn [put_range d_ranges]. rewrite lookup_insert_ne; [done|]. intros <-. by rewrite Hfresh in Hx. }
  inversion He; subst; try done; try congruence.
  - eapply Hmove; [done|congruence].
  - by eapply Hmove.
  - cbn [put_range d_ranges]. match goal with H : d_ranges _ = d_ranges _ |- _ => rewrite H end. apply (Hput nets).
Qed.

Lemma release_others id d j g n : j <> id -> (d_nets (_release_networks id d) !! g = Some (Some (j, n)) <-> d_nets d !! g = Some (Some (j, n))).
Proof.
  intros Hne. cbn [_release_networks put_nets d_nets]. rewrite lookup_fmap. destruct (d_nets d !! g) as [[[i m]|]|]; cbn; [|done|done].
  destruct (String.eqb_spec i id) as [->|]; [|done]. split; [done|]. congruence.
Qed.
Lemma release_own id d g n : d_nets (_release_networks id d) !! g <> Some (Some (id, n)).
Proof.
  cbn [_release_networks put_nets d_nets]. rewrite lookup_fmap. destruct (d_nets d !! g) as [[[i m]|]|]; cbn; [|done|done].
  destruct (String.eqb_spec i id); congruence.
Qed.

Lemma effect_nets id e l d l' d' j g n : j <> id -> effect cfg (rebuilds (b_key l)) id e (l, d) (l', d') ->
  (d_nets d' !! g = Some (Some (j, n)) <-> d_nets d !! g = Some (Some (j, n))).
Proof.
  intros Hne He.
  assert (Hleased : forall m m' nets, leased id m m' nets -> m' !! g = Some (Some (j, n)) <-> m !! g = Some (Some (j, n))).
  { intros m m' nets (H1 & H2 & _). split; [|apply H1]. intros H. by destruct (H2 g _ H) as [?|?]. }
  inversion He; subst; try done.
  - match goal with H : grown _ _ |- _ => destruct H as [H1 H2] end. split; [|apply H1]. intros H. by destruct (H2 g _ H).
  - match goal with H : d_nets _ = d_nets _ |- _ => by rewrite H end.
  - by apply release_others.
  - cbn [put_range d_nets]. by eapply Hleased.
Qed.

(** Another session stays good. *)
Lemma good_other id e l d l' d' j lj : d_ranges d !! e_new_range e = None -> effect cfg (rebuilds (b_key l)) id e (l, d) (l', d') ->
  j <> id -> (forall r, b_range l = Some r -> b_range lj <> Some r) -> Good j lj d -> Good j lj d'.
Proof.
  intros Hfresh He Hne Hdiff [Hq Hw Hu Hrow Hn Hret Hfree].
  assert (Hr : forall r x, b_range lj = Some r -> d_ranges d !! r = Some x -> d_ranges d' !! r = Some x).
  { intros r x Hb Hx. eapply effect_ranges; [done|done|done|]. left. intros H. by apply (Hdiff r). }
  assert (Hrange : range_of lj d' = range_of lj d).
  { unfold range_of. destruct (b_range lj) as [r|] eqn:Hb; [|done]. destruct (Hrow r eq_refl) as (x & Hx). by rewrite Hx, (Hr r x eq_refl Hx). }
  assert (Hnets : forall g n, d_nets d' !! g = Some (Some (j, n)) <-> d_nets d !! g = Some (Some (j, n))) by (intros; by eapply effect_nets).
  split; [done| | | | | |].
  - by rewrite Hrange.
  - unfold up_ranged in *. cbn [fst snd] in *. by rewrite Hrange.
  - intros r Hb. destruct (Hrow r Hb) as (x & Hx). exists x. by apply Hr.
  - intros r x g. rewrite Hrange. intros Hx Hd Hg. destruct (Hn r x g Hx Hd Hg) as (n & Hin). exists n. by apply Hnets.
  - intros r Hin. destruct (Hret r Hin) as (x & Hx & Hd). exists x. split; [|done]. eapply effect_ranges; [done..|by right].
  - intros Hs g n. rewrite Hnets. by apply Hfree.
Qed.

(** The session itself stays good. *)
Lemma core_fields l' s r ret p : core l' = (s, r, ret, p) -> b_state l' = s /\ b_range l' = r /\ b_retired l' = ret /\ b_pending l' = p.
Proof. unfold core. by intros [= -> -> -> ->]. Qed.

Lemma range_moved l d r x s : range_of l d = Some (r, x) -> forall l', b_range l' = b_range l ->
  range_of l' (move_range r s d) = Some (r, MkRange s (a_nets x)).
Proof.
  unfold range_of. intros Hx l' ->. destruct (b_range l) as [r0|]; [|done]. destruct (d_ranges d !! r0) as [x0|] eqn:H0; [|done].
  cbn in Hx. injection Hx as -> ->. cbn [move_range d_ranges]. by rewrite lookup_alter_eq, H0.
Qed.

Lemma move_retired r s d r1 x : d_ranges d !! r1 = Some x -> a_state x = destroyed -> (forall y, d_ranges d !! r = Some y -> a_state y <> destroyed) ->
  d_ranges (move_range r s d) !! r1 = Some x.
Proof.
  intros Hx Hd Hr. cbn [move_range d_ranges]. destruct (decide (r = r1)) as [->|Hne]; [by destruct (Hr x Hx)|by rewrite lookup_alter_ne].
Qed.

Lemma range_of_some l d r x : range_of l d = Some (r, x) <-> b_range l = Some r /\ d_ranges d !! r = Some x.
Proof.
  unfold range_of. destruct (b_range l) as [r0|]; [|naive_solver]. destruct (d_ranges d !! r0) as [x0|] eqn:H0; cbn; naive_solver.
Qed.

(** A transaction that leaves the session on its range, moved or not, with its networks. *)
Lemma good_same_range id l d l' d' : Good id l d -> b_range l' = b_range l -> b_retired l' = b_retired l -> b_state l' <> QUEUED ->
  (forall r x, d_ranges d !! r = Some x -> exists s, d_ranges d' !! r = Some (MkRange s (a_nets x)) /\ (a_state x = destroyed -> s = destroyed)) ->
  (forall g n, d_nets d !! g = Some (Some (id, n)) -> d_nets d' !! g = Some (Some (id, n))) ->
  b_state l' <> DESTROYED -> (b_state l' = RECONCILE_WAIT -> exists r x, range_of l' d' = Some (r, x) /\ a_state x = destroyed) ->
  up_ranged (rebuilds (b_key l')) (l', d') -> Good id l' d'.
Proof.
  intros [Hq Hw Hu Hrow Hn Hret Hfree] Hb Hrt Hnq Hranges Hnets Hnd Hw' Hu'. split; [by intros H|done|done| | | |by intros H].
  - intros r Hr. rewrite Hb in Hr. destruct (Hrow r Hr) as (x & Hx). destruct (Hranges r x Hx) as (s & Hs & _). by eexists.
  - intros r x' g [Hr Hx']%range_of_some Hd Hg. rewrite Hb in Hr. destruct (Hrow r Hr) as (x & Hx).
    destruct (Hranges r x Hx) as (s & Hs & Hds). rewrite Hx' in Hs. injection Hs as ->. cbn [a_state a_nets] in *.
    destruct (Hn r x g) as (n & Hin); [by apply range_of_some|by intros H; apply Hd, Hds|done|]. exists n. by apply Hnets.
  - intros r Hr. rewrite Hrt in Hr. destruct (Hret r Hr) as (x & Hx & Hd). destruct (Hranges r x Hx) as (s & Hs & Hds).
    exists (MkRange s (a_nets x)). split; [done|]. by apply Hds.
Qed.

Lemma same_ranges d d' r x : d_ranges d' = d_ranges d -> d_ranges d !! r = Some x ->
  exists s, d_ranges d' !! r = Some (MkRange s (a_nets x)) /\ (a_state x = destroyed -> s = destroyed).
Proof. intros ->. exists (a_state x). by destruct x. Qed.
Lemma moved_ranges d l r0 x0 s r x : range_of l d = Some (r0, x0) -> a_state x0 <> destroyed -> d_ranges d !! r = Some x ->
  exists s', d_ranges (move_range r0 s d) !! r = Some (MkRange s' (a_nets x)) /\ (a_state x = destroyed -> s' = destroyed).
Proof.
  intros [_ Hx0]%range_of_some Hd Hx. cbn [move_range d_ranges]. destruct (decide (r0 = r)) as [->|Hne].
  - rewrite Hx in Hx0. injection Hx0 as ->. rewrite lookup_alter_eq, Hx. by exists s.
  - rewrite lookup_alter_ne by done. exists (a_state x). by destruct x.
Qed.

Lemma up_states b s : s ∈ UP b -> s <> QUEUED /\ s <> DESTROYED /\ s <> RECONCILE_WAIT /\ s <> FAILED.
Proof. unfold UP. intros H. destruct b; cases_in H; subst; done. Qed.
Lemma not_up b s : s ∈ [COMPLETED; EXPIRED; CLEANING; RECONCILE; RECONCILE_WAIT; DESTROYED; FAILED; QUEUED] -> s ∉ UP b.
Proof. unfold UP. intros H Hu. cases_in H; subst; destruct b; by cases_in Hu. Qed.

(** A transaction that gives the session a new range, on networks leased to it. *)
Lemma good_new_range id e l d l' nets d1 : Good id l d -> d_ranges d !! e_new_range e = None -> b_state l' = PROVISIONING ->
  b_range l' = Some (e_new_range e) -> d_ranges d1 = d_ranges d -> leased id (d_nets d) (d_nets d1) nets ->
  (forall r, r ∈ b_retired l' -> exists x, d_ranges d !! r = Some x /\ a_state x = destroyed) ->
  Good id l' (put_range (e_new_range e) provisioning nets d1).
Proof.
  intros Hg Hfresh Hs Hb Hd1 (Hl1 & Hl2 & Hl3) Hret. set (d' := put_range _ _ _ _).
  assert (Hnew : range_of l' d' = Some (e_new_range e, MkRange provisioning nets)).
  { apply range_of_some. split; [done|]. cbn [d' put_range d_ranges]. by rewrite lookup_insert_eq. }
  split.
  - intros H. congruence.
  - intros H. congruence.
  - intros _. cbn [fst snd]. exists (e_new_range e), (MkRange provisioning nets). by repeat split.
  - intros r Hr. rewrite Hb in Hr. injection Hr as <-. apply range_of_some in Hnew as [_ Hx]. by eexists.
  - intros r x g Hx _ Hin. rewrite Hnew in Hx. injection Hx as <- <-. by apply Hl3.
  - intros r Hr. destruct (Hret r Hr) as (x & Hx & Hd). exists x. split; [|done]. cbn [d' put_range d_ranges].
    rewrite Hd1, lookup_insert_ne; [done|]. intros <-. by rewrite Hfresh in Hx.
  - intros H. congruence.
Qed.

Lemma good_soft id l d l' d' : Good id l d -> b_key l' = b_key l -> core l' = core l -> d_ranges d' = d_ranges d -> grown (d_nets d) (d_nets d') -> Good id l' d'.
Proof.
  intros [Hq Hw Hu Hrow Hn Hret Hfree] Hk (Hs & Hb & Hrt & Hp)%core_fields Hr [H1 H2].
  assert (Hrange : range_of l' d' = range_of l d) by (unfold range_of; by rewrite Hb, Hr).
  split; unfold queued_bare, up_ranged; cbn [fst snd]; rewrite ?Hs, ?Hb, ?Hrt, ?Hr, ?Hk, ?Hrange; [done..| | |].
  - intros r x g Hx Hd Hg. destruct (Hn r x g Hx Hd Hg) as (n & Hin). exists n. by apply H1.
  - done.
  - intros Hsd g n Hin. destruct (H2 g _ Hin) as [Hin'|]; [|done]. by apply (Hfree Hsd g n).
Qed.

Lemma good_own id e l d l' d' : b_key l' = b_key l -> d_ranges d !! e_new_range e = None ->
  effect cfg (rebuilds (b_key l)) id e (l, d) (l', d') -> Good id l d -> Good id l' d'.
Proof.
  intros Hk Hfresh He Hg. pose proof Hg as [Hq Hw Hu Hrow Hn Hret Hfree].
  inversion He as [? ? ? ? Hc Hr Hnets|? ? ? ? s new Hs Hs' Hc Hr Hnets|? ? ? r x Hs Hx Hcr Hc|? ? ? r x s new Hs Hnw Hs' Hmode Hx Hd Hc|
    ? ? ? r x s Hs Hnw Hs' Hx Hc|? ? ? r x Hs Hnw Hx Hd Hc|? ? ? s Hs Hs' Hor Hc|? ? ? Hs Hnw Hc|? ? ? nets d1 Hs Hr Hl Hlabs Hquota Hc|
    ? ? ? r x nets Hmode Hs Hx Hd Hl Hc]; subst; clear He; [by eapply good_soft|..]; apply core_fields in Hc as (Hs1 & Hb & Hrt & Hp).
  - destruct (up_states _ _ Hs') as (H1 & H2 & H3 & _). apply (good_same_range id l d); rewrite ?Hs1; [done..| | |done|done|].
    + intros r x. by apply same_ranges.
    + by rewrite Hnets.
    + intros _. cbn [fst snd]. destruct (Hu Hs) as (r & x & Hx & Hd). exists r, x. split; [|done]. unfold range_of in *. by rewrite Hb, Hr.
  - apply (good_same_range id l d); rewrite ?Hs1; [done..| |done|done|done|].
    + intros r1 x1. eapply moved_ranges; [done|congruence].
    + intros _. cbn [fst snd]. exists r, (MkRange provisioning (a_nets x)). split; [by apply (range_moved l)|done].
  - apply (good_same_range id l d); rewrite ?Hs1; [done|done|done|by cases_in Hs'; subst| |done|by cases_in Hs'; subst|intros ->; by cases_in Hs'|].
    + intros r1 x1. by eapply moved_ranges.
    + unfold up_ranged. cbn [fst snd]. rewrite Hk, Hs1. intros Hup. exfalso.
      cases_in Hs'; subst s; try (revert Hup; apply not_up; in_list). rewrite (Hmode eq_refl) in Hup. by cases_in Hup.
  - apply (good_same_range id l d'); rewrite ?Hs1; [done|done|done|by cases_in Hs'; subst| |done|by cases_in Hs'; subst|intros ->; by cases_in Hs'|].
    + intros r1 x1. by apply same_ranges.
    + unfold up_ranged. cbn [fst snd]. rewrite Hs1. intros Hup. exfalso. revert Hup. apply not_up. cases_in Hs'; subst; in_list.
  - apply (good_same_range id l d'); rewrite ?Hs1; [done|done|done|done| |done|done| |].
    + intros r1 x1. by apply same_ranges.
    + intros _. exists r, x. split; [|done]. unfold range_of in *. by rewrite Hb.
    + unfold up_ranged. cbn [fst snd]. rewrite Hs1. intros Hup. exfalso. revert Hup. apply not_up. in_list.
  - assert (Hrange : range_of l' (_release_networks id d) = range_of l d) by (unfold range_of; by rewrite Hb).
    split; unfold queued_bare, up_ranged; cbn [fst snd]; rewrite ?Hs1, ?Hrange, ?Hrt, ?Hb.
    + intros ->. by cases_in Hs'.
    + intros ->. by cases_in Hs'.
    + intros Hup. exfalso. revert Hup. apply not_up. cases_in Hs'; subst; in_list.
    + done.
    + intros r x g Hx Hd. destruct Hor as [Hor|(r1 & x1 & Hx1 & Hd1 & _)]; [congruence|]. rewrite Hx1 in Hx. by injection Hx as <- <-.
    + done.
    + intros _ g n. apply release_own.
  - apply (good_same_range id l d'); rewrite ?Hs1; [done|done|done|done| |done|done|done|].
    + intros r1 x1. by apply same_ranges.
    + unfold up_ranged. cbn [fst snd]. rewrite Hs1. intros Hup. exfalso. revert Hup. apply not_up. in_list.
  - apply (good_new_range id e l d); [done..|]. by rewrite Hrt.
  - apply (good_new_range id e l d); [done..|]. rewrite Hrt. intros r1 [Hin| ->%list_elem_of_singleton]%elem_of_app; [by apply Hret|].
    apply range_of_some in Hx as [_ Hx]. by exists x.
Qed.

Lemma perform_does o id e l d s' : Good id l d -> consistent (rebuilds (b_key l)) e -> perform o id e (l, d) = Ok s' ->
  does cfg (rebuilds (b_key l)) id e (l, d) s'.
Proof.
  intros Hg Hc. pose proof Hg as [Hq Hw Hu _ _ _ _]. destruct o; cbn [perform].
  - apply advance_does; [done|done|]. intros Hs r x Hx. destruct (Hw Hs) as (r1 & x1 & Hx1 & Hd). cbn [fst snd] in Hx. congruence.
  - apply touch_does.
  - by apply reset_does.
  - intros [= <-]. by apply end_does.
  - apply evidence_does.
Qed.

(** What an operation does to the session's place among the others. *)
Lemma effect_from b id e l d l' d' : effect cfg b id e (l, d) (l', d') -> core l' = core l \/ b_state l ∈ HOLDS_RESOURCES.
Proof.
  assert (Hrh : forall s, s ∈ RUNS_RESOURCES -> s ∈ HOLDS_RESOURCES) by (intros s Hs; unfold RUNS_RESOURCES in Hs; destruct s; first [in_list|by cases_in Hs]).
  intros He. inversion He; subst; try (right; by apply Hrh).
  - by left.
  - right. match goal with H : b_state l ∈ UP b |- _ => unfold UP in H; destruct b; cases_in H; rewrite H; in_list end.
  - right. match goal with H : b_state l = _ |- _ => rewrite H end. in_list.
  - right. match goal with H : b_state l ∈ ENDING |- _ => cases_in H; rewrite H; in_list end.
  - by right.
  - right. match goal with H : b_state l = _ |- _ => rewrite H end. in_list.
  - right. match goal with H : b_state l = _ |- _ => rewrite H end. in_list.
Qed.
Lemma effect_live b id e l d l' d' : effect cfg b id e (l, d) (l', d') -> b_state l' ∈ HOLDS_RESOURCES -> b_state l ∈ HOLDS_RESOURCES.
Proof. intros [Hc|Hs]%effect_from; [|done]. unfold core in Hc. by injection Hc as -> _ _ _. Qed.
Lemma effect_ended b id e l d l' d' : effect cfg b id e (l, d) (l', d') -> b_state l ∈ TERMINAL -> core l' = core l.
Proof. intros [Hc|Hs]%effect_from Ht; [done|]. exfalso. cases_in Ht; rewrite Ht in Hs; by cases_in Hs. Qed.

Lemma effect_runs b id e l d l' d' : effect cfg b id e (l, d) (l', d') -> runs l' = true ->
  runs l = true \/ (b_state l = QUEUED /\ _quota_problem cfg id l d = None).
Proof.
  unfold runs. intros He Hr. inversion He; subst; try (left; by apply bool_decide_eq_true_2).
  - match goal with H : core l' = core l |- _ => unfold core in H; injection H as H1 _ _ _ end. rewrite H1 in Hr. by left.
  - left. apply bool_decide_eq_true_2. match goal with H : b_state l ∈ UP b |- _ => unfold UP in H; destruct b; cases_in H; rewrite H; in_list end.
  - left. apply bool_decide_eq_true_2. match goal with H : b_state l = _ |- _ => rewrite H end. in_list.
  - left. apply bool_decide_eq_true_2. match goal with H : b_state l ∈ ENDING |- _ => cases_in H; rewrite H; in_list end.
  - apply bool_decide_eq_true_1 in Hr. match goal with H : core l' = _ |- _ => apply core_fields in H as (H1 & _) end. rewrite H1 in Hr.
    match goal with H : _ ∈ [DESTROYED; FAILED] |- _ => cases_in H; subst; vm_compute in Hr; by cases_in Hr end.
  - by right.
  - left. apply bool_decide_eq_true_2. match goal with H : b_state l = _ |- _ => rewrite H end. in_list.
Qed.

(** Tasks are only added at the end of the outbox. *)
Lemma effect_pending b id e l d l' d' : effect cfg b id e (l, d) (l', d') -> b_pending l' = b_pending l ++ added l l'.
Proof.
  intros He. assert (Hn : exists new, b_pending l' = b_pending l ++ new).
  { inversion He; subst; match goal with H : core l' = _ |- _ => unfold core in H; injection H as _ _ _ -> end; try (by eexists); exists []; by rewrite app_nil_r. }
  destruct Hn as (new & Hn). unfold added. by rewrite Hn, drop_app_length.
Qed.

(** A session that starts to wait for its leftovers asked for them to be looked for. *)
Lemma effect_reconciles b id e l d l' d' r : effect cfg b id e (l, d) (l', d') -> b_state l' = RECONCILE_WAIT -> b_range l' = Some r ->
  (b_state l = RECONCILE_WAIT /\ b_range l = Some r /\ b_retired l' = b_retired l) \/
  ReconcileVms (b_retired l' ++ [r]) (y_backend (b_key l)) ∈ added l l'.
Proof.
  intros He Hs Hr. pose proof (effect_pending _ _ _ _ _ _ _ He) as Hadd.
  inversion He; subst; match goal with H : core l' = _ |- _ => unfold core in H; injection H as Hs' Hb Hrt Hp end; rewrite Hs in Hs'; try discriminate Hs'.
  - left. split; [done|]. by rewrite <- Hb.
  - exfalso. match goal with H : _ ∈ UP b |- _ => idtac end. subst. by edestruct up_states as (_ & _ & ? & _); [eassumption|].
  - exfalso. subst. match goal with H : RECONCILE_WAIT ∈ _ |- _ => by cases_in H end.
  - exfalso. subst. match goal with H : RECONCILE_WAIT ∈ _ |- _ => by cases_in H end.
  - right. rewrite Hp in Hadd. apply app_inv_head in Hadd. rewrite <- Hadd, Hrt. apply list_elem_of_singleton.
    rewrite Hb in Hr. match goal with H : range_of l _ = Some _ |- _ => apply range_of_some in H as [H _]; rewrite H in Hr; by injection Hr as -> end.
  - exfalso. subst. match goal with H : RECONCILE_WAIT ∈ _ |- _ => by cases_in H end.
Qed.

(** ** The invariant of the tables *)

Definition all_labs (d : db) : list lab := map snd (map_to_list (d_labs d)).
(** The labs of a tenant that hold machines. *)
Definition tenant_running (t : string) (ls : list lab) : list lab := List.filter (of_tenant t) (List.filter runs ls).
Definition within_limits (ls : list lab) : Prop := forall t,
  Z.of_nat (length (tenant_running t ls)) <= Z.max 0 (LAB_MAX_SESSIONS_PER_TENANT cfg) /\
  vcpus (tenant_running t ls) <= Z.max 0 (LAB_MAX_VCPU_PER_TENANT cfg).

Record DbInv (d : db) : Prop := MkDbInv {
  v_good : forall id l, d_labs d !! id = Some l -> Good id l d;
  v_range : forall i j li lj r, d_labs d !! i = Some li -> d_labs d !! j = Some lj -> b_range li = Some r -> b_range lj = Some r -> i = j;
  v_owner : forall r x, d_ranges d !! r = Some x -> a_state x <> destroyed -> exists id l, d_labs d !! id = Some l /\ b_range l = Some r;
  v_user : forall i j li lj, d_labs d !! i = Some li -> d_labs d !! j = Some lj -> b_state li ∈ HOLDS_RESOURCES -> b_state lj ∈ HOLDS_RESOURCES ->
    y_user (b_key li) = y_user (b_key lj) -> i = j;
  v_size : forall id l, d_labs d !! id = Some l -> 0 <= vcpu (y_size (b_key l));
  v_limits : within_limits (all_labs d) }.

Lemma good_lease id l d x : Good id l d -> Good id (with_lease x l) d.
Proof. intros []. by split. Qed.
Lemma good_put id l d i l0 : Good id l d -> Good id l (put_lab i l0 d).
Proof. intros []. by split. Qed.

Lemma others_delete id d : others id d ≡ₚ map snd (map_to_list (delete id (d_labs d))).
Proof.
  unfold others.
  assert (Hsnd : forall ls : list (string * lab), (forall x, x ∈ ls -> x.1 <> id) -> omap (fun x => if String.eqb x.1 id then None else Some x.2) ls = map snd ls).
  { induction ls as [|x ls IH]; intros Hne; [done|]. cbn. destruct (String.eqb_spec x.1 id) as [He|_].
    - by destruct (Hne x (list_elem_of_here _ _)).
    - f_equal. apply IH. intros y Hy. apply Hne. by right. }
  rewrite <- Hsnd.
  2: { intros [i x] Hx. apply elem_of_map_to_list in Hx. cbn. intros ->. by rewrite lookup_delete_eq in Hx. }
  destruct (d_labs d !! id) as [l|] eqn:Hl.
  - rewrite <- (map_to_list_delete _ _ _ Hl). cbn. by rewrite String.eqb_refl.
  - by rewrite delete_id.
Qed.
Lemma labs_perm d id l : d_labs d !! id = Some l -> all_labs d ≡ₚ l :: others id d.
Proof. intros Hl. unfold all_labs. rewrite others_delete, <- (map_to_list_delete _ _ _ Hl). done. Qed.
Lemma put_perm d d' id l' : d_labs d' = d_labs d -> all_labs (put_lab id l' d') ≡ₚ l' :: others id d.
Proof.
  intros Hd. rewrite (labs_perm _ id l') by apply lookup_insert_eq. constructor. rewrite !others_delete.
  cbn [put_lab d_labs]. by rewrite delete_insert_eq, Hd.
Qed.

Lemma tenant_perm t ls ls' : ls ≡ₚ ls' ->
  length (tenant_running t ls) = length (tenant_running t ls') /\ vcpus (tenant_running t ls) = vcpus (tenant_running t ls').
Proof.
  unfold tenant_running, vcpus. induction 1 as [|x l l' _ IH|x y l|l1 l2 l3 _ IH1 _ IH2]; [done| | |by intuition congruence].
  - cbn [List.filter]. destruct (runs x); cbn [List.filter]; [|done]. destruct (of_tenant t x); cbn; [|done]. lia.
  - cbn [List.filter]. destruct (runs x), (runs y); cbn [List.filter]; try done. destruct (of_tenant t x), (of_tenant t y); cbn; try done. lia.
Qed.
Lemma limits_perm ls ls' : ls ≡ₚ ls' -> within_limits ls -> within_limits ls'.
Proof. intros Hp Hl t. destruct (tenant_perm t ls ls' Hp) as [<- <-]. apply Hl. Qed.

Lemma tenant_cons t l ls : tenant_running t (l :: ls) = if runs l && of_tenant t l then l :: tenant_running t ls else tenant_running t ls.
Proof. unfold tenant_running. cbn [List.filter]. destruct (runs l); cbn [List.filter andb]; [|done]. by destruct (of_tenant t l). Qed.

Lemma quota_limits id l d : _quota_problem cfg id l d = None ->
  let mine := tenant_running (y_tenant (b_key l)) (others id d) in
  Z.of_nat (length mine) < LAB_MAX_SESSIONS_PER_TENANT cfg /\ vcpus mine + vcpu (y_size (b_key l)) <= LAB_MAX_VCPU_PER_TENANT cfg.
Proof.
  unfold _quota_problem. cbv zeta. fold (tenant_running (y_tenant (b_key l)) (others id d)). destruct (_ <=? _); [done|].
  destruct (Z.leb_spec (LAB_MAX_SESSIONS_PER_TENANT cfg) (Z.of_nat (length (tenant_running (y_tenant (b_key l)) (others id d))))); [done|].
  destruct (Z.ltb_spec (LAB_MAX_VCPU_PER_TENANT cfg) (vcpus (tenant_running (y_tenant (b_key l)) (others id d)) + vcpu (y_size (b_key l)))); [done|].
  by intros _.
Qed.

Lemma limits_change id l l' d : 0 <= vcpu (y_size (b_key l)) -> b_key l' = b_key l ->
  (runs l' = true -> runs l = true \/ _quota_problem cfg id l d = None) -> within_limits (l :: others id d) -> within_limits (l' :: others id d).
Proof.
  intros Hsize Hk Hruns Hl t. specialize (Hl t). rewrite tenant_cons in Hl |- *.
  assert (Ht : of_tenant t l' = of_tenant t l) by (unfold of_tenant; by rewrite Hk). rewrite Ht.
  assert (Hv : forall ls, vcpus (l' :: ls) = vcpus (l :: ls)) by (intros; unfold vcpus; cbn; by rewrite Hk).
  destruct (of_tenant t l) eqn:Hof; rewrite ?andb_false_r, ?andb_true_r in *; [|done].
  destruct (runs l') eqn:Hr'.
  - rewrite Hv. cbn [length]. destruct (runs l) eqn:Hr; [done|]. destruct (Hruns eq_refl) as [?|Hq]; [done|].
    apply quota_limits in Hq. apply String.eqb_eq in Hof. rewrite Hof in Hq. unfold vcpus in *. cbn [map foldr]. lia.
  - destruct (runs l); [|done]. unfold vcpus in *. cbn [map foldr length] in Hl. lia.
Qed.

(** A range that is not destroyed is the session's, or was another's. *)
Lemma effect_owner id e l d l' d' r x : Good id l d -> effect cfg (rebuilds (b_key l)) id e (l, d) (l', d') ->
  d_ranges d' !! r = Some x -> a_state x <> destroyed ->
  b_range l' = Some r \/ (b_range l <> Some r /\ exists x0, d_ranges d !! r = Some x0 /\ a_state x0 <> destroyed).
Proof.
  intros Hg He Hx Hd.
  assert (Hsame : b_range l' = b_range l -> d_ranges d !! r = Some x -> b_range l' = Some r \/ (b_range l <> Some r /\ exists x0, d_ranges d !! r = Some x0 /\ a_state x0 <> destroyed)).
  { intros Hb Hx0. rewrite Hb. destruct (decide (b_range l = Some r)) as [H|H]; [by left|right]. split; [done|by exists x]. }
  assert (Hmove : forall r0 x0 s, b_range l' = b_range l -> range_of l d = Some (r0, x0) -> d_ranges (move_range r0 s d) !! r = Some x ->
    b_range l' = Some r \/ (b_range l <> Some r /\ exists x0, d_ranges d !! r = Some x0 /\ a_state x0 <> destroyed)).
  { intros r0 x0 s Hb [Hr0 Hx0]%range_of_some Hm. cbn [move_range d_ranges] in Hm. destruct (decide (r0 = r)) as [->|Hne]; [left; congruence|].
    rewrite lookup_alter_ne in Hm by done. by apply Hsame. }
  inversion He; subst; match goal with H : core l' = _ |- _ => unfold core in H; injection H as _ Hb _ _ end;
    try (by apply Hsame); try (by eapply Hmove).
  - apply Hsame; [done|]. match goal with H : d_ranges _ = d_ranges _ |- _ => by rewrite <- H end.
  - apply Hsame; [done|]. match goal with H : d_ranges _ = d_ranges _ |- _ => by rewrite <- H end.
  - cbn [put_range d_ranges] in Hx. apply lookup_insert_Some in Hx as [[<- <-]|[Hne Hx]]; [by left|right].
    match goal with H : d_ranges _ = d_ranges _ |- _ => rewrite H in Hx end.
    split; [|by exists x]. rewrite (g_queued id l d Hg) by done. done.
  - cbn [put_range d_ranges] in Hx. apply lookup_insert_Some in Hx as [[<- <-]|[Hne Hx]]; [by left|right].
    split; [|by exists x]. intros Hr. match goal with H : range_of l d = Some _ |- _ => apply range_of_some in H as [Hr1 Hx1] end. congruence.
Qed.

(** The commit of an operation. *)
Lemma db_commit id e l d l' d' l'' x : DbInv d -> d_labs d !! id = Some l -> d_ranges d !! e_new_range e = None ->
  does cfg (rebuilds (b_key l)) id e (l, d) (l', d') -> l'' = with_lease x l' -> DbInv (put_lab id l'' d').
Proof.
  intros [Hgood Hrange Hown Huser Hsize Hlim] Hl Hfresh [(Hk & _ & Hlabs) He] ->. cbn [fst snd] in Hk, Hlabs.
  assert (Hkx : b_key (with_lease x l') = b_key l) by done.
  assert (Hlook : forall j lj, d_labs (put_lab id (with_lease x l') d') !! j = Some lj -> (j = id /\ lj = with_lease x l') \/ (j <> id /\ d_labs d !! j = Some lj)).
  { intros j lj Hj%put_lookup. by rewrite Hlabs in Hj. }
  assert (Hg' : Good id l' d') by (eapply good_own; [exact Hk|exact Hfresh|exact He|by apply Hgood]).
  assert (Hr' : b_range l' = b_range l \/ b_range l' = Some (e_new_range e)).
  { inversion He; subst; match goal with H : core l' = _ |- _ => unfold core in H; injection H as _ Hb _ _ end; rewrite Hb; auto. }
  assert (Hnone : forall j lj, d_labs d !! j = Some lj -> b_range lj <> Some (e_new_range e)).
  { intros j lj Hj Hb. destruct (g_row j lj d (Hgood j lj Hj) _ Hb) as (y & Hy). congruence. }
  split.
  - intros j lj [[-> ->]|[Hne Hj]]%Hlook; apply good_put; [by apply good_lease|].
    apply (good_other id e l d l' d' j lj); [done|done|done| |by apply Hgood].
    intros r Hb Hbj. apply Hne. by eapply Hrange.
  - intros i j li lj r [[-> ->]|[Hi Hli]]%Hlook [[-> ->]|[Hj Hlj]]%Hlook Hri Hrj; [done| | |by eapply Hrange];
      cbn [with_lease b_range] in *; destruct Hr' as [Hr'|Hr']; rewrite Hr' in *.
    + by eapply Hrange.
    + injection Hri as <-. by destruct (Hnone j lj Hlj).
    + by eapply Hrange.
    + injection Hrj as <-. by destruct (Hnone i li Hli).
  - intros r y Hy Hd. change (d_ranges d' !! r = Some y) in Hy.
    assert (Hid : b_range l' = Some r -> exists i li, d_labs (put_lab id (with_lease x l') d') !! i = Some li /\ b_range li = Some r).
    { intros Hb. exists id, (with_lease x l'). split; [apply lookup_insert_eq|done]. }
    destruct (effect_owner id e l d l' d' r y) as [Hb|(Hno & y0 & Hy0 & Hd0)]; [by apply Hgood|done..|by apply Hid|].
    destruct (Hown r y0 Hy0 Hd0) as (j & lj & Hj & Hbj). exists j, lj. split; [|done].
    cbn [put_lab d_labs]. rewrite lookup_insert_ne; [by rewrite Hlabs|]. intros <-. congruence.
  - assert (Hlive : b_state (with_lease x l') ∈ HOLDS_RESOURCES -> b_state l ∈ HOLDS_RESOURCES) by (intros H; by eapply effect_live).
    intros i j li lj [[-> ->]|[Hi Hli]]%Hlook [[-> ->]|[Hj Hlj]]%Hlook Hsi Hsj Hu; [done| | |by eapply Huser];
      cbn [with_lease b_key] in Hu; rewrite Hk in Hu.
    + eapply Huser; [done|done|by apply Hlive|done|done].
    + eapply Huser; [done|done|done|by apply Hlive|done].
  - intros j lj [[-> ->]|[Hne Hj]]%Hlook; [|by eapply Hsize]. cbn. rewrite Hk. by eapply Hsize.
  - eapply limits_perm; [symmetry; by apply put_perm|]. apply (limits_change id l); [by eapply Hsize|done| |].
    + intros Hr. apply (effect_runs _ _ _ _ _ _ _ He) in Hr. destruct Hr as [?|[_ ?]]; auto.
    + eapply limits_perm; [by apply labs_perm|done].
Qed.

(** A row whose lease or outbox changed. *)
Definition quiet (l l' : lab) : Prop := b_key l' = b_key l /\ b_state l' = b_state l /\ b_range l' = b_range l /\ b_retired l' = b_retired l.
Lemma site_good_quiet id l l' d : quiet l l' -> Good id l d -> Good id l' d.
Proof.
  intros (Hk & Hs & Hb & Hr) []. assert (Hrange : range_of l' d = range_of l d) by (unfold range_of; by rewrite Hb).
  split; unfold queued_bare, up_ranged in *; cbn [fst snd] in *; by rewrite ?Hk, ?Hs, ?Hb, ?Hr, ?Hrange.
Qed.
Lemma db_quiet id l l' d : DbInv d -> d_labs d !! id = Some l -> quiet l l' -> DbInv (put_lab id l' d).
Proof.
  intros [Hgood Hrange Hown Huser Hsize Hlim] Hl Hq. pose proof Hq as (Hk & Hs & Hb & Hr).
  assert (Hlook : forall j lj, d_labs (put_lab id l' d) !! j = Some lj -> exists lj0, d_labs d !! j = Some lj0 /\ quiet lj0 lj).
  { intros j lj [[-> ->]|[Hne Hj]]%put_lookup; [by exists l|]. by exists lj. }
  split.
  - intros j lj (lj0 & Hj & Hqj)%Hlook. apply good_put. eapply site_good_quiet; [done|]. by apply Hgood.
  - intros i j li lj r (li0 & Hi & _ & _ & Hbi & _)%Hlook (lj0 & Hj & _ & _ & Hbj & _)%Hlook. rewrite Hbi, Hbj. by eapply Hrange.
  - intros r x Hx Hd. destruct (Hown r x Hx Hd) as (j & lj & Hj & Hbj). destruct (decide (j = id)) as [->|Hne].
    + exists id, l'. split; [apply lookup_insert_eq|]. rewrite Hl in Hj. injection Hj as <-. by rewrite Hb.
    + exists j, lj. split; [|done]. cbn [put_lab d_labs]. by rewrite lookup_insert_ne.
  - intros i j li lj (li0 & Hi & Hki & Hsi & _)%Hlook (lj0 & Hj & Hkj & Hsj & _)%Hlook. rewrite Hki, Hkj, Hsi, Hsj. by eapply Huser.
  - intros j lj (lj0 & Hj & Hkj & _)%Hlook. rewrite Hkj. by eapply Hsize.
  - eapply limits_perm; [symmetry; by apply put_perm|].
    assert (Hp : within_limits (l :: others id d)) by (eapply limits_perm; [by apply labs_perm|done]).
    apply (limits_change id l l' d); [by eapply Hsize|done| |done]. unfold runs. rewrite Hs. by left.
Qed.

(** A worker's or an administrator's move, and a snapshot's. *)
Lemma db_worker r s' d : DbInv d -> (forall x, d_ranges d !! r = Some x -> range_moves r (a_state x) s' d) -> DbInv (move_range r s' d).
Proof.
  intros [Hgood Hrange Hown Huser Hsize Hlim] Hm. assert (Hback : forall r1 x, d_ranges (move_range r s' d) !! r1 = Some x ->
    exists x0, d_ranges d !! r1 = Some x0 /\ a_nets x = a_nets x0 /\ ((r1 <> r /\ x = x0) \/ (r1 = r /\ range_moves r1 (a_state x0) (a_state x) d))).
  { intros r1 x Hx. cbn [move_range d_ranges] in Hx. destruct (decide (r = r1)) as [->|Hne].
    - rewrite lookup_alter_eq in Hx. apply fmap_Some in Hx as (x0 & Hx0 & ->). exists x0. split; [done|]. split; [done|]. right. split; [done|]. by apply Hm.
    - rewrite lookup_alter_ne in Hx by done. exists x. auto. }
  assert (Hforth : forall r1 x0, d_ranges d !! r1 = Some x0 -> exists x, d_ranges (move_range r s' d) !! r1 = Some x /\ a_nets x = a_nets x0 /\
    (x = x0 \/ range_moves r1 (a_state x0) (a_state x) d)).
  { intros r1 x0 Hx0. cbn [move_range d_ranges]. destruct (decide (r = r1)) as [->|Hne].
    - rewrite lookup_alter_eq, Hx0. eexists. split; [done|]. split; [done|]. right. by apply Hm.
    - rewrite lookup_alter_ne, Hx0 by done. eexists. eauto. }
  split; [|done| |done|done|done].
  - intros id l Hl. destruct (Hgood id l Hl) as [Hq Hw Hu Hrow Hn Hret Hfree]. split; [done| | | | | |done].
    + intros Hs. destruct (Hw Hs) as (r1 & x0 & [Hb Hx0]%range_of_some & Hd). destruct (Hforth r1 x0 Hx0) as (x & Hx & _ & [->|[Hno _]%range_moves_up]); [|done].
      exists r1, x0. split; [by apply range_of_some|done].
    + intros Hs. destruct (Hu Hs) as (r1 & x0 & [Hb Hx0]%range_of_some & Hd1 & Hd2). destruct (Hforth r1 x0 Hx0) as (x & Hx & _ & Hor).
      exists r1, x. split; [by apply range_of_some|]. destruct Hor as [->|Hmv]; [done|]. split; [by apply range_moves_up in Hmv as [_ ?]|].
      intros Hd. destruct Hmv as [(_ & _ & _ & H2)|(_ & _ & Hno)]; [by apply Hd1, H2|]. by apply (Hno id l Hl Hb).
    + intros r1 Hb. destruct (Hrow r1 Hb) as (x0 & Hx0). destruct (Hforth r1 x0 Hx0) as (x & Hx & _). by exists x.
    + intros r1 x g [Hb Hx]%range_of_some Hd Hg. destruct (Hback r1 x Hx) as (x0 & Hx0 & Hnets & Hor). rewrite Hnets in Hg.
      apply (Hn r1 x0 g); [by apply range_of_some| |done]. destruct Hor as [(_ & ->)|(_ & [Hno _]%range_moves_up)]; done.
    + intros r1 Hin. destruct (Hret r1 Hin) as (x0 & Hx0 & Hd). destruct (Hforth r1 x0 Hx0) as (x & Hx & _ & [->|[Hno _]%range_moves_up]); [|done]. by exists x0.
  - intros r1 x Hx Hd. destruct (Hback r1 x Hx) as (x0 & Hx0 & _ & Hor). apply (Hown r1 x0 Hx0). destruct Hor as [(_ & ->)|(_ & [Hno _]%range_moves_up)]; done.
Qed.

Lemma db_snapshot i x d : DbInv d -> DbInv (put_snap i x d).
Proof.
  intros [Hgood Hrange Hown Huser Hsize Hlim]. split; [|done..]. intros id l Hl. by destruct (Hgood id l Hl).
Qed.

(** A new row, queued, of a student with no other lab. *)
Lemma db_new id l d : DbInv d -> d_labs d !! id = None -> b_state l = QUEUED -> b_range l = None -> b_retired l = [] -> 0 <= vcpu (y_size (b_key l)) ->
  (forall j lj, d_labs d !! j = Some lj -> y_user (b_key lj) = y_user (b_key l) -> b_state lj ∉ HOLDS_RESOURCES) -> DbInv (put_lab id l d).
Proof.
  intros [Hgood Hrange Hown Huser Hsize Hlim] Hnone Hs Hb Hr Hv Hno.
  pose proof (put_lookup id l d) as Hlook.
  split.
  - intros j lj [[-> ->]|[_ Hj]]%Hlook; [|by apply good_put, Hgood].
    split; unfold queued_bare, range_of; try congruence.
    + intros Hup. exfalso. unfold up_ranged in *. cbn [fst] in Hup. rewrite Hs in Hup. revert Hup. apply not_up. in_list.
    + rewrite Hb. done.
    + rewrite Hr. by intros ? ?%elem_of_nil.
  - intros i j li lj r [[-> ->]|[_ Hi]]%Hlook [[-> ->]|[_ Hj]]%Hlook; [done|congruence|congruence|by eapply Hrange].
  - intros r x Hx Hd. destruct (Hown r x Hx Hd) as (j & lj & Hj & Hbj). exists j, lj. split; [|done].
    cbn [put_lab d_labs]. rewrite lookup_insert_ne; [done|]. intros <-. congruence.
  - intros i j li lj [[-> ->]|[Hi Hli]]%Hlook [[-> ->]|[Hj Hlj]]%Hlook Hsi Hsj Hu; [done| | |by eapply Huser].
    + by destruct (Hno j lj Hlj).
    + by destruct (Hno i li Hli).
  - intros j lj [[-> ->]|[_ Hj]]%Hlook; [done|by eapply Hsize].
  - assert (Hp : all_labs (put_lab id l d) ≡ₚ l :: all_labs d).
    { unfold all_labs. cbn [put_lab d_labs]. by rewrite map_to_list_insert. }
    eapply limits_perm; [symmetry; exact Hp|]. intros t. rewrite tenant_cons. unfold runs. rewrite Hs. apply Hlim.
Qed.

(** ** The invariant of the site *)

Record SysInv (y : sys) : Prop := MkSysInv {
  w_db : DbInv (y_db y);
  w_lease : forall id l h, d_labs (y_db y) !! id = Some l -> holder l = Some h -> h ∈ y_used y;
  w_run : forall h u, y_runs y !! h = Some u -> h ∈ y_used y;
  w_seen : forall h id seen b row, y_runs y !! h = Some (Run id seen false b) -> d_labs (y_db y) !! id = Some row -> holder row = Some h -> row = seen;
  w_asked : forall id l, d_labs (y_db y) !! id = Some l -> asked y id = settled y id ++ b_pending l;
  w_none : forall id, d_labs (y_db y) !! id = None -> asked y id = [] /\ settled y id = [];
  w_settled : forall id, exists outs, map fst outs = settled y id /\ went id outs (y_sent y) (y_dropped y);
  w_recon : forall id l r, d_labs (y_db y) !! id = Some l -> b_state l = RECONCILE_WAIT -> b_range l = Some r ->
    ReconcileVms (b_retired l ++ [r]) (y_backend (b_key l)) ∈ asked y id }.

(** The tasks taken off the outbox, in order, each sent or dropped. *)
Definition split_out (out : list task) (sent dropped : list task) : Prop :=
  exists outs, map fst outs = out /\ map fst (List.filter (fun x => negb x.2) outs) = sent /\ map fst (List.filter snd outs) = dropped.

Lemma deliver_spec answers pending kept sent dropped : deliver answers pending = (kept, sent, dropped) ->
  exists out, pending = out ++ kept /\ split_out out sent dropped.
Proof.
  revert answers kept sent dropped. induction pending as [|t rest IH]; intros answers kept sent dropped.
  - intros [= <- <- <-]. exists []. split; [done|]. by exists [].
  - cbn [deliver].
    assert (Hstop : (t :: rest, @nil task, @nil task) = (kept, sent, dropped) -> exists out, t :: rest = out ++ kept /\ split_out out sent dropped).
    { intros [= <- <- <-]. exists []. split; [done|]. by exists []. }
    destruct answers as [|[] more]; try exact Hstop; destruct (deliver more rest) as [[k1 s1] d1] eqn:Hd; intros [= <- <- <-];
      destruct (IH _ _ _ _ Hd) as (out & -> & outs & <- & <- & <-); exists (t :: map fst outs); (split; [done|]).
    + by exists ((t, false) :: outs).
    + by exists ((t, true) :: outs).
Qed.

Lemma of_lab_app id l k : of_lab id (l ++ k) = of_lab id l ++ of_lab id k.
Proof. unfold of_lab. by rewrite List.filter_app, map_app. Qed.
Lemma of_lab_pair id ts : of_lab id (map (pair id) ts) = ts.
Proof. unfold of_lab. induction ts as [|t ts IH]; [done|]. cbn. rewrite String.eqb_refl. cbn. by f_equal. Qed.
Lemma of_lab_other id j ts : j <> id -> of_lab j (map (pair id) ts) = [].
Proof. intros Hne. unfold of_lab. induction ts as [|t ts IH]; [done|]. cbn. by rewrite (proj2 (String.eqb_neq id j)) by congruence. Qed.
Lemma elem_of_lab id t l : t ∈ of_lab id l -> (id, t) ∈ l.
Proof.
  unfold of_lab. intros ([j u] & <- & Hin)%list_elem_of_In%in_map_iff. apply List.filter_In in Hin as [Hin Hj%String.eqb_eq].
  cbn in Hj. subst. by apply list_elem_of_In.
Qed.

(** What went, after one more flush. *)
Lemma went_more id j outs s0 d0 sent dropped out :
  went j outs s0 d0 -> split_out out sent dropped ->
  exists outs', map fst outs' = map fst outs ++ (if decide (j = id) then out else []) /\
    went j outs' (s0 ++ map (pair id) sent) (d0 ++ map (pair id) dropped).
Proof.
  intros [H1 H2] (more & <- & <- & <-). unfold went. rewrite !of_lab_app.
  destruct (decide (j = id)) as [->|Hne].
  - exists (outs ++ more). rewrite !List.filter_app, !map_app, !of_lab_pair. split; [done|].
    split; [by apply sublist_app|by f_equal].
  - exists outs. rewrite !of_lab_other, !app_nil_r by done. done.
Qed.

Lemma went_out id outs sent dropped t : went id outs sent dropped -> t ∈ map fst outs -> (id, t) ∈ sent \/ (id, t) ∈ dropped.
Proof.
  intros [H1 H2] ([u b] & Hu & Hin)%list_elem_of_In%in_map_iff. cbn in Hu. subst. destruct b; [right|left]; apply elem_of_lab.
  - rewrite <- H2. apply list_elem_of_In, in_map_iff. exists (t, true). split; [done|]. by apply List.filter_In.
  - eapply elem_of_submseteq; [|apply sublist_submseteq, H1]. apply list_elem_of_In, in_map_iff. exists (t, false). split; [done|]. by apply List.filter_In.
Qed.

Lemma flush_spec now h resent answers row row' sent dropped : flush now h resent answers row = (row', sent, dropped) ->
  quiet row row' /\ (row' = row \/ holder row' = None) /\
  exists out, b_pending row = out ++ b_pending row' /\ split_out out sent dropped.
Proof.
  unfold flush, _keep. case_bool_decide as Hh.
  - cbv zeta. destruct (deliver answers _) as [[kept s1] d1] eqn:Hd. cbn [with_lease b_pending] in Hd.
    destruct (deliver_spec _ _ _ _ _ Hd) as (out & Hp & Hout). rewrite bool_decide_eq_true_2.
    2: { destruct d1, (resent && negb (bool_decide (s1 = []))); done. }
    cbn [snd]. intros [= <- <- <-]. split; [by destruct d1, (resent && _)|]. split; [right; by destruct d1, (resent && _)|].
    exists out. split; [|done]. rewrite Hp. by destruct d1, (resent && _).
  - intros [= <- <- <-]. split; [done|]. split; [by left|]. exists []. split; [done|]. by exists [].
Qed.

Lemma end_run_inv h y : SysInv y -> SysInv (end_run h y).
Proof.
  intros [Hdb Hlease Hrun Hseen Hasked Hnone Hset Hrec]. split; try done.
  - intros h1 u Hu. cbn [end_run y_runs] in Hu. apply lookup_delete_Some in Hu as [_ Hu]. by eapply Hrun.
  - intros h1 id seen b row Hu. cbn [end_run y_runs] in Hu. apply lookup_delete_Some in Hu as [_ Hu]. by eapply Hseen.
Qed.

(** A row that keeps its outbox, with its lease given up or unchanged. *)
Lemma quiet_inv id l l' y : SysInv y -> d_labs (y_db y) !! id = Some l -> quiet l l' -> b_pending l' = b_pending l ->
  (l' = l \/ holder l' = None) -> SysInv (with_db (put_lab id l' (y_db y)) y).
Proof.
  intros [Hdb Hlease Hrun Hseen Hasked Hnone Hset Hrec] Hl Hq Hp Hor. pose proof Hq as (Hk & Hs & Hb & Hr).
  split; cbn [with_db y_db y_runs y_used y_sent y_dropped]; try done.
  - by eapply db_quiet.
  - intros j lj h [[-> ->]|[_ Hj]]%put_lookup Hh; [|by eapply Hlease]. destruct Hor as [->|Hn]; [by eapply Hlease|congruence].
  - intros h j seen b row Hu [[-> ->]|[_ Hj]]%put_lookup Hh; [|by eapply Hseen]. destruct Hor as [->|Hn]; [by eapply Hseen|congruence].
  - intros j lj [[-> ->]|[_ Hj]]%put_lookup; [|by apply Hasked]. rewrite Hp. by apply Hasked.
  - intros j Hj. apply Hnone. cbn [put_lab d_labs] in Hj. by apply lookup_insert_None in Hj as [Hj _].
  - intros j lj r [[-> ->]|[_ Hj]]%put_lookup; [|by apply Hrec]. rewrite Hk, Hs, Hb, Hr. by apply Hrec.
Qed.

(** The tables a process commits, with what it asked for. *)
Lemma commit_inv h id e l l' d' x y : SysInv y -> d_labs (y_db y) !! id = Some l -> d_ranges (y_db y) !! e_new_range e = None ->
  does cfg (rebuilds (b_key l)) id e (l, y_db y) (l', d') -> h ∈ y_used y -> holder l = Some h ->
  (forall h1 seen b, y_runs y !! h1 = Some (Run id seen false b) -> h1 <> h) ->
  SysInv (committed id l (with_lease (Some (x, h)) l') d' y).
Proof.
  intros [Hdb Hlease Hrun Hseen Hasked Hnone Hset Hrec] Hl Hfresh Hdoes Hu Hh Hother.
  pose proof Hdoes as [(Hk & _ & Hlabs) He]. cbn [fst snd] in Hk, Hlabs.
  assert (Hlook : forall j lj, d_labs (put_lab id (with_lease (Some (x, h)) l') d') !! j = Some lj ->
    (j = id /\ lj = with_lease (Some (x, h)) l') \/ (j <> id /\ d_labs (y_db y) !! j = Some lj)).
  { intros j lj Hj%put_lookup. by rewrite Hlabs in Hj. }
  assert (Hadd : added l (with_lease (Some (x, h)) l') = added l l') by done.
  assert (Hpend := effect_pending _ _ _ _ _ _ _ He).
  assert (Hother_asked : forall j, j <> id -> default [] (<[id := asked y id ++ added l l']> (y_asked y) !! j) = asked y j).
  { intros j Hj. by rewrite lookup_insert_ne by done. }
  split; cbn [committed y_db y_runs y_used y_sent y_dropped]; unfold asked, settled; cbn [committed y_asked y_left]; rewrite ?Hadd.
  - by eapply db_commit.
  - intros j lj h1 [[-> ->]|[_ Hj]]%Hlook Hh1; [|by eapply Hlease]. cbn in Hh1. injection Hh1 as <-. done.
  - done.
  - intros h1 j seen b row Hr [[-> ->]|[_ Hj]]%Hlook Hh1; [|by eapply Hseen]. cbn in Hh1. injection Hh1 as <-. by destruct (Hother h seen b).
  - intros j lj [[-> ->]|[Hne Hj]]%Hlook.
    + rewrite lookup_insert_eq. cbn [default]. rewrite (Hasked id l Hl). unfold settled. cbn [with_lease b_pending]. by rewrite Hpend, app_assoc.
    + rewrite Hother_asked by done. by apply Hasked.
  - intros j Hj. cbn [put_lab d_labs] in Hj. apply lookup_insert_None in Hj as [Hj Hne]. rewrite Hlabs in Hj.
    rewrite Hother_asked by done. by apply Hnone.
  - done.
  - intros j lj r [[-> ->]|[Hne Hj]]%Hlook Hs Hb.
    + rewrite lookup_insert_eq. cbn [default with_lease b_retired b_key]. rewrite Hk. apply elem_of_app.
      destruct (effect_reconciles _ _ _ _ _ _ _ r He Hs Hb) as [(Hs0 & Hb0 & ->)|Hin]; [left; by apply Hrec|by right].
    + rewrite Hother_asked by done. by apply Hrec.
Qed.

Lemma running_inv h o e y : SysInv y ->
  (forall id seen b r l, y_runs y !! h = Some (Run id seen b r) -> d_labs (y_db y) !! id = Some l -> env_ok e (y_db y) (b_key l)) ->
  SysInv (running h o e y).
Proof.
  intros Hinv Henv. unfold running. destruct (y_runs y !! h) as [[id seen [] r]|] eqn:Hrun; [done| |done].
  destruct (d_labs (y_db y) !! id) as [row|] eqn:Hrow; [|done]. destruct (Henv id seen false r row eq_refl Hrow) as (Hfresh & Hcons).
  destruct (perform o id e (seen, y_db y)) as [[l' d']|] eqn:Hp.
  - case_bool_decide as Hh; [|by apply end_run_inv].
    assert (row = seen) as -> by by eapply (w_seen y Hinv).
    assert (Hdoes : does cfg (rebuilds (b_key seen)) id e (seen, y_db y) (l', d')).
    { apply (perform_does o); [|done|done]. by apply (v_good _ (w_db y Hinv)). }
    cbv zeta. set (u := Run id seen true (resends o seen)). set (y0 := Sys (y_db y) (<[h := u]> (y_runs y)) (y_used y) (y_asked y) (y_left y) (y_sent y) (y_dropped y)).
    assert (H0 : SysInv y0).
    { destruct Hinv as [Hdb Hlease Hrn Hseen Hasked Hnone Hset Hrec]. split; try done.
      - intros h1 u1 Hu. cbn [y0 y_runs] in Hu. apply lookup_insert_Some in Hu as [[<- <-]|[_ Hu]]; [|by eapply Hrn]. by eapply (Hrn h).
      - intros h1 j s1 b1 row1 Hu. cbn [y0 y_runs] in Hu. apply lookup_insert_Some in Hu as [[<- Hu]|[_ Hu]]; [discriminate Hu|by eapply Hseen]. }
    apply (commit_inv h id e seen l' d' (e_now e + LEASE_SECONDS) y0); [done..| |done|].
    + by eapply (w_run y Hinv).
    + intros h1 s1 b1 Hu ->. cbn [y0 y_runs] in Hu. rewrite lookup_insert_eq in Hu. discriminate Hu.
  - apply end_run_inv. unfold _keep. case_bool_decide as Hh; cbn [snd].
    + apply (quiet_inv id row); [done|done|done|done|by right].
    + apply (quiet_inv id row); [done|done|done|done|by left].
Qed.

Lemma claiming_inv id now h y : SysInv y -> h ∉ y_used y -> SysInv (claiming id now h y).
Proof.
  intros Hinv Hu. unfold claiming. destruct (d_labs (y_db y) !! id) as [l|] eqn:Hl; [|done].
  destruct (claim now h l) as [[] l'] eqn:Hc; [|done].
  assert (Hl' : l' = with_lease (Some (now + LEASE_SECONDS, h)) l).
  { unfold claim in Hc. destruct (b_lease l) as [[until h0]|]; [destruct (until <? now)|]; congruence. }
  clear Hc. subst l'. set (l' := with_lease _ l). destruct Hinv as [Hdb Hlease Hrun Hseen Hasked Hnone Hset Hrec].
  assert (Hq : quiet l l') by done.
  split; cbn [start_run with_db y_db y_runs y_used y_sent y_dropped]; try done.
  - by eapply db_quiet.
  - intros j lj h1 [[-> ->]|[_ Hj]]%put_lookup Hh1; [|right; by eapply Hlease]. cbn in Hh1. injection Hh1 as <-. by left.
  - intros h1 u [[<- <-]|[_ Hr]]%lookup_insert_Some; [by left|right; by eapply Hrun].
  - intros h1 j seen b row Hr Hj Hh1.
    apply lookup_insert_Some in Hr as [[<- Heq]|[Hne Hr]]; apply put_lookup in Hj as [[Hji ->]|[Hj Hrow]].
    + by injection Heq.
    + injection Heq. congruence.
    + cbn in Hh1. congruence.
    + by eapply Hseen.
  - intros j lj [[-> ->]|[_ Hj]]%put_lookup; [by apply (Hasked id l)|by apply Hasked].
  - intros j Hj. apply Hnone. cbn [put_lab d_labs] in Hj. by apply lookup_insert_None in Hj as [Hj _].
  - intros j lj r [[-> ->]|[_ Hj]]%put_lookup; [by apply (Hrec id l)|by apply Hrec].
Qed.

Lemma flushing_inv h now answers y : SysInv y -> SysInv (flushing h now answers y).
Proof.
  intros Hinv. unfold flushing. destruct (y_runs y !! h) as [[id seen [] r]|]; [|done..].
  destruct (d_labs (y_db y) !! id) as [row|] eqn:Hrow; [|done].
  destruct (flush now h r answers row) as [[row' sent] dropped] eqn:Hf. apply end_run_inv.
  destruct (flush_spec _ _ _ _ _ _ _ _ Hf) as (Hq & Hor & out & Hp & Hout).
  assert (Hout' : take (length (b_pending row) - length (b_pending row')) (b_pending row) = out).
  { rewrite Hp, length_app, Nat.add_sub. apply take_app_length. }
  rewrite Hout'. pose proof Hq as (Hk & Hs & Hb & Hr). destruct Hinv as [Hdb Hlease Hrun Hseen Hasked Hnone Hset Hrec].
  split; cbn [y_db y_runs y_used y_sent y_dropped]; unfold asked, settled in *; cbn [y_asked y_left].
  - by eapply db_quiet.
  - intros j lj h1 [[-> ->]|[_ Hj]]%put_lookup Hh; [|by eapply Hlease]. destruct Hor as [->|Hn]; [by eapply Hlease|congruence].
  - done.
  - intros h1 j s1 b row1 Hu [[-> ->]|[_ Hj]]%put_lookup Hh; [|by eapply Hseen]. destruct Hor as [->|Hn]; [by eapply Hseen|congruence].
  - intros j lj [[-> ->]|[Hne Hj]]%put_lookup.
    + rewrite lookup_insert_eq. cbn [default]. rewrite (Hasked id row Hrow), Hp. by rewrite app_assoc.
    + rewrite lookup_insert_ne by done. by apply Hasked.
  - intros j Hj. cbn [put_lab d_labs] in Hj. apply lookup_insert_None in Hj as [Hj Hne]. rewrite lookup_insert_ne by done. by apply Hnone.
  - intros j. destruct (Hset j) as (outs & Ho & Hw). destruct (went_more id j outs _ _ sent dropped out Hw Hout) as (outs' & Ho' & Hw').
    exists outs'. split; [|exact Hw']. rewrite Ho', Ho. destruct (decide (j = id)) as [->|Hne].
    + by rewrite lookup_insert_eq.
    + by rewrite lookup_insert_ne, app_nil_r.
  - intros j lj r0 [[-> ->]|[_ Hj]]%put_lookup; [|by apply Hrec]. rewrite Hk, Hs, Hb, Hr. by apply Hrec.
Qed.

Lemma flushing_sends h now answers y : (exists more, y_sent (flushing h now answers y) = y_sent y ++ more) /\
  (y_runs (flushing h now answers y) = y_runs y \/ y_runs (flushing h now answers y) = delete h (y_runs y)).
Proof.
  assert (Hn : exists more, y_sent y = y_sent y ++ more) by (exists []; by rewrite app_nil_r).
  unfold flushing. destruct (y_runs y !! h) as [[id seen [] r]|]; [|auto..]. destruct (d_labs (y_db y) !! id) as [row|]; [|auto].
  destruct (flush now h r answers row) as [[row' sent] dropped]. split; [|by right]. by exists (map (pair id) sent).
Qed.

Lemma crash_inv h now answers y : SysInv y -> let f := flushing h now answers y in
  SysInv (Sys (y_db y) (y_runs f) (y_used y) (y_asked y) (y_left y) (y_sent f) (y_dropped y)).
Proof.
  intros [Hdb Hlease Hrun Hseen Hasked Hnone Hset Hrec]. cbv zeta. destruct (flushing_sends h now answers y) as [[more Hsent] Hruns].
  assert (Hsub : forall h1 u, y_runs (flushing h now answers y) !! h1 = Some u -> y_runs y !! h1 = Some u).
  { intros h1 u Hu. destruct Hruns as [Hr|Hr]; rewrite Hr in Hu; [done|]. by apply lookup_delete_Some in Hu as [_ Hu]. }
  split; cbn [y_db y_runs y_used y_sent y_dropped]; try done.
  - intros h1 u Hu%Hsub. by eapply Hrun.
  - intros h1 id seen b row Hu%Hsub. by eapply Hseen.
  - intros id. destruct (Hset id) as (outs & Ho & H1 & H2). exists outs. split; [done|]. split; [|done].
    cbn [y_sent]. rewrite Hsent, of_lab_app. by apply sublist_inserts_r.
Qed.

Lemma tables_inv d y : SysInv y -> DbInv d -> d_labs d = d_labs (y_db y) -> SysInv (with_db d y).
Proof.
  intros [Hdb Hlease Hrun Hseen Hasked Hnone Hset Hrec] Hd Hlabs. split; cbn [with_db y_db y_runs y_used y_sent y_dropped]; rewrite ?Hlabs; done.
Qed.

(** The new row of a launch, before anything else. *)
Lemma queued_inv id l h y : SysInv y -> h ∉ y_used y -> d_labs (y_db y) !! id = None -> DbInv (put_lab id l (y_db y)) -> b_state l = QUEUED ->
  b_pending l = [] -> holder l = Some h ->
  SysInv (Sys (put_lab id l (y_db y)) (y_runs y) (h :: y_used y) (y_asked y) (y_left y) (y_sent y) (y_dropped y)).
Proof.
  intros [Hdb Hlease Hrun Hseen Hasked Hnone Hset Hrec] Hu Hno Hd Hs Hp Hh. split; cbn [y_db y_runs y_used y_sent y_dropped]; try done.
  - intros j lj h1 [[-> ->]|[_ Hj]]%put_lookup Hh1; [|right; by eapply Hlease]. assert (h1 = h) as -> by congruence. by left.
  - intros h1 u Hr. right. by eapply Hrun.
  - intros h1 j seen b row Hr [[-> ->]|[_ Hj]]%put_lookup Hh1; [|by eapply Hseen]. exfalso. apply Hu.
    assert (h1 = h) as -> by congruence. by eapply Hrun.
  - intros j lj [[-> ->]|[_ Hj]]%put_lookup; [|by apply Hasked]. unfold asked, settled in *. cbn [y_asked y_left]. rewrite Hp.
    destruct (Hnone id Hno) as [-> ->]. done.
  - intros j Hj. apply Hnone. cbn [put_lab d_labs] in Hj. by apply lookup_insert_None in Hj as [Hj _].
  - intros j lj r [[-> ->]|[_ Hj]]%put_lookup; [congruence|by apply Hrec].
Qed.

(** A run that has its row written goes on to send. *)
Lemma sending_inv h u y : SysInv y -> u_flushing u = true -> h ∈ y_used y ->
  SysInv (Sys (y_db y) (<[h := u]> (y_runs y)) (y_used y) (y_asked y) (y_left y) (y_sent y) (y_dropped y)).
Proof.
  intros [Hdb Hlease Hrun Hseen Hasked Hnone Hset Hrec] Hfl Hu. split; try done.
  - intros h1 u1 Hr. cbn [y_runs] in Hr. apply lookup_insert_Some in Hr as [[<- <-]|[_ Hr]]; [done|]. by eapply Hrun.
  - intros h1 j seen b row Hr. cbn [y_runs] in Hr. apply lookup_insert_Some in Hr as [[_ ->]|[_ Hr]]; [discriminate Hfl|by eapply Hseen].
Qed.

Lemma launch_new_ok attempt id q e h d i s : launch_new attempt id q e h d = Ok (i, Some s) ->
  i = id /\ exists p, e_profile e = Ok p /\ _start cfg id e p true (new_lab q e p attempt h, put_lab id (new_lab q e p attempt h) d) = Ok s /\
  forall j lj, d_labs d !! j = Some lj -> y_user (b_key lj) = q_user q -> b_state lj ∉ HOLDS_RESOURCES.
Proof.
  unfold launch_new. destruct (existsb _ _) eqn:Hex; [done|]. destruct (q_refused q); [done|].
  destruct (e_profile e) as [p|] eqn:Hp; [|done]. destruct (q_checked q); [|done]. cbv zeta.
  destruct (_start _ _ _ _ _ _) as [s'|] eqn:Hst; [|done]. intros [= <- <-]. split; [done|]. exists p. split; [done|]. split; [done|].
  intros j lj Hj Huser Hlive. revert Hex. apply not_false_iff_true, existsb_exists. exists (j, lj).
  split; [by apply list_elem_of_In, elem_of_map_to_list|]. cbn [snd]. rewrite Huser, String.eqb_refl. by apply bool_decide_eq_true_2.
Qed.

Lemma launching_new attempt id q e h y i l' d' : SysInv y -> h ∉ y_used y -> d_labs (y_db y) !! id = None -> d_ranges (y_db y) !! e_new_range e = None ->
  (forall p, e_profile e = Ok p -> 0 <= vcpu (demand p)) -> launch_new attempt id q e h (y_db y) = Ok (i, Some (l', d')) ->
  SysInv (start_run h (Run id l' true false) (committed id (with_pending [] l') l' d' y)).
Proof.
  intros Hinv Hu Hno Hfresh Hv Hln. destruct (launch_new_ok _ _ _ _ _ _ _ _ Hln) as (-> & p & Hp & Hst & Hfree).
  set (l := new_lab q e p attempt h) in *.
  assert (Hd0 : DbInv (put_lab id l (y_db y))) by (apply db_new; [by apply w_db|done..|by apply Hv|exact Hfree]).
  pose proof (start_does cfg (rebuilds (b_key l)) id e p true l (put_lab id l (y_db y)) (l', d') eq_refl Hst) as Hdoes.
  pose proof Hdoes as [(_ & Hls & _) _]. cbn [fst snd] in Hls.
  pose proof (queued_inv id l h y Hinv Hu Hno Hd0 eq_refl eq_refl eq_refl) as Hq.
  assert (Hl' : with_lease (Some (e_now e + LEASE_SECONDS, h)) l' = l') by (destruct l'; cbn in Hls |- *; by subst).
  assert (Hrn : forall h1 seen b, y_runs y !! h1 = Some (Run id seen false b) -> h1 <> h) by (intros h1 seen b Hr ->; by apply Hu, (w_run y Hinv h _ Hr)).
  pose proof (commit_inv h id e l l' d' (e_now e + LEASE_SECONDS) _ Hq (lookup_insert_eq _ _ _) Hfresh Hdoes (list_elem_of_here _ _) eq_refl Hrn) as Hc.
  rewrite Hl' in Hc. by apply (sending_inv h (Run id l' true false)) in Hc; [|done|by left].
Qed.

Lemma launching_inv id q e h y : SysInv y -> h ∉ y_used y -> d_labs (y_db y) !! id = None -> d_ranges (y_db y) !! e_new_range e = None ->
  (forall p, e_profile e = Ok p -> 0 <= vcpu (demand p)) -> SysInv (launching id q e h y).
Proof.
  intros Hinv Hu Hno Hfresh Hv. unfold launching, launch. destruct (q_release_ok q); [|done].
  destruct (latest q (y_db y)) as [[i l0]|]; [case_bool_decide; [|done]|].
  all: destruct (launch_new _ _ _ _ _ _) as [[i1 [[l' d']|]]|] eqn:Hl; [by eapply launching_new|done..].
Qed.

Lemma site_step_inv y y' : lstep y y' -> SysInv y -> SysInv y'.
Proof.
  intros [] Hinv.
  - by apply launching_inv.
  - by apply claiming_inv.
  - by apply running_inv.
  - by apply flushing_inv.
  - by apply crash_inv.
  - by apply end_run_inv.
  - apply tables_inv; [done| |done]. apply db_worker; [by apply w_db|done].
  - apply tables_inv; [done| |done]. apply db_snapshot. by apply w_db.
Qed.
Lemma site_steps_inv y y' : rtc lstep y y' -> SysInv y -> SysInv y'.
Proof. induction 1 as [|? ? ? Hs _ IH]; [done|]. intros Hi. apply IH. by eapply site_step_inv. Qed.

(** A site before its first lab: a pool of networks, some of them given to nobody. *)
Definition empty_site (nets : gmap string (option (string * string))) : sys := Sys (Db ∅ ∅ ∅ nets) ∅ [] ∅ ∅ [] [].
Lemma empty_inv nets : SysInv (empty_site nets).
Proof.
  split; cbn [empty_site y_db d_labs]; try (intros *; rewrite lookup_empty; done).
  - split; cbn [d_labs d_ranges]; try (intros *; rewrite lookup_empty; done). intros t. unfold all_labs. cbn [d_labs]. rewrite map_to_list_empty. split; cbn; lia.
  - intros h u. cbn [empty_site y_runs]. by rewrite lookup_empty.
  - intros id. exists []. split; [done|]. by split.
Qed.

(** [run_locked] is a run of the site's steps. *)
Lemma run_locked_steps id h o e answers y : h ∉ y_used y -> SysInv y ->
  (forall l, d_labs (y_db y) !! id = Some l -> env_ok e (y_db y) (b_key l)) -> rtc lstep y (run_locked id h o e answers y).
Proof.
  intros Hu Hinv He. unfold run_locked. eapply rtc_l; [by apply s_claim|]. eapply rtc_l; [apply s_run|apply rtc_once, s_flush].
  unfold claiming. destruct (d_labs (y_db y) !! id) as [l|] eqn:Hl; [destruct (claim (e_now e) h l) as [[] l'] eqn:Hc|].
  2, 3: intros j seen b r lj Hr; exfalso; by apply Hu, (w_run y Hinv h _ Hr).
  intros j seen b r lj Hr Hj. cbn [start_run y_runs] in Hr. rewrite lookup_insert_eq in Hr. injection Hr as <- _ _ _.
  cbn [start_run with_db y_db put_lab d_labs d_ranges] in Hj |- *. rewrite lookup_insert_eq in Hj. injection Hj as <-.
  assert (Hk : b_key l' = b_key l).
  { unfold claim in Hc. destruct (b_lease l) as [[until h0]|]; [destruct (until <? e_now e)|]; simplify_eq; done. }
  unfold env_ok. rewrite Hk. by apply He.
Qed.

(** ** Theorems *)

Definition reachable (y : sys) : Prop := exists nets, rtc lstep (empty_site nets) y.
Lemma site_reachable_inv y : reachable y -> SysInv y.
Proof. intros (nets & Hr). by eapply site_steps_inv, empty_inv. Qed.

(** C19: two labs never share a network: of the ranges labs ever had, at most one whose machines may exist
    (its state is not destroyed) is on a given port group, in every interleaving of launches, sweeps, page
    polls, resets, ends, crashes of any process and moves of the workers. *)
Theorem labs_share_no_network y r1 r2 x1 x2 g : reachable y ->
  d_ranges (y_db y) !! r1 = Some x1 -> d_ranges (y_db y) !! r2 = Some x2 -> a_state x1 <> destroyed -> a_state x2 <> destroyed ->
  g ∈ a_nets x1 -> g ∈ a_nets x2 -> r1 = r2.
Proof.
  intros Hinv%site_reachable_inv%w_db Hx1 Hx2 Hd1 Hd2 Hg1 Hg2.
  destruct (v_owner _ Hinv r1 x1 Hx1 Hd1) as (i & l1 & Hl1 & Hb1). destruct (v_owner _ Hinv r2 x2 Hx2 Hd2) as (j & l2 & Hl2 & Hb2).
  destruct (g_nets i l1 _ (v_good _ Hinv i l1 Hl1) r1 x1 g) as (n1 & Hn1); [by apply range_of_some|done..|].
  destruct (g_nets j l2 _ (v_good _ Hinv j l2 Hl2) r2 x2 g) as (n2 & Hn2); [by apply range_of_some|done..|].
  assert (i = j) as -> by congruence. congruence.
Qed.

(** An operation that commits worked on the session's latest row: a run whose lease lapsed and was
    taken writes nothing, so no update is lost; and what it committed is what its operation gives on the row
    it replaced. *)
Theorem commits_on_latest y h o e id seen b row l' : reachable y -> y_runs y !! h = Some (Run id seen false b) ->
  d_labs (y_db y) !! id = Some row -> d_labs (y_db (running h o e y)) !! id = Some l' ->
  l' = row \/ (holder row = Some h /\ l' = with_lease None row) \/
  (holder row = Some h /\ exists l1 d1, perform o id e (row, y_db y) = Ok (l1, d1) /\ l' = with_lease (Some (e_now e + LEASE_SECONDS, h)) l1).
Proof.
  intros Hinv%site_reachable_inv Hr Hrow. unfold running. rewrite Hr, Hrow. destruct (perform o id e (seen, y_db y)) as [[l1 d1]|] eqn:Hp.
  - case_bool_decide as Hh.
    + assert (row = seen) as -> by by eapply (w_seen y Hinv). cbn. rewrite lookup_insert_eq. intros [= <-]. right. right. split; [done|]. by exists l1, d1.
    + cbn. rewrite Hrow. intros [= <-]. by left.
  - cbn. rewrite lookup_insert_eq. unfold _keep. case_bool_decide; intros [= <-]; [right; by left|by left].
Qed.

(** C21: no task is forgotten, nor sent out of order: the tasks a session ever asked of the worker are, in
    the order it asked, those that left its outbox and then those still on the session for the next sweep.
    Of those that left, the ones the broker's contract refused were dropped, in that order; all the others
    were sent, in that order (a process that stopped after sending has them sent again); whichever process
    stops, between its commit and its last send included. *)
Theorem no_task_lost y id : reachable y ->
  exists outs : list (task * bool),
    asked y id = map fst outs ++ match d_labs (y_db y) !! id with Some l => b_pending l | None => [] end /\
    map fst (List.filter (fun x => negb x.2) outs) `sublist_of` of_lab id (y_sent y) /\
    map fst (List.filter snd outs) = of_lab id (y_dropped y).
Proof.
  intros Hinv%site_reachable_inv. destruct (w_settled y Hinv id) as (outs & Ho & Hw). exists outs. split; [|exact Hw]. rewrite Ho.
  destruct (d_labs (y_db y) !! id) as [l|] eqn:Hl; [by apply w_asked|]. by destruct (w_none y Hinv id Hl) as [-> ->].
Qed.

(** C22: one student has at most one lab that is running, waiting or being cleared, and a tenant's running
    labs stay within its places and its vCPUs, however the launches and sweeps of any processes interleave. *)
Theorem lab_limits y : reachable y ->
  (forall i j li lj, d_labs (y_db y) !! i = Some li -> d_labs (y_db y) !! j = Some lj -> b_state li ∈ HOLDS_RESOURCES ->
     b_state lj ∈ HOLDS_RESOURCES -> y_user (b_key li) = y_user (b_key lj) -> i = j) /\
  forall t, Z.of_nat (length (tenant_running t (all_labs (y_db y)))) <= Z.max 0 (LAB_MAX_SESSIONS_PER_TENANT cfg) /\
    vcpus (tenant_running t (all_labs (y_db y))) <= Z.max 0 (LAB_MAX_VCPU_PER_TENANT cfg).
Proof. intros Hinv%site_reachable_inv%w_db. split; [by apply v_user|by apply v_limits]. Qed.




(** A step of the site changes a session's row by its lease and outbox, or by one of its operations. *)
Lemma lstep_row y y' id l : SysInv y -> lstep y y' -> d_labs (y_db y) !! id = Some l ->
  exists l', d_labs (y_db y') !! id = Some l' /\
    (quiet l l' \/ exists e d' l1 x, does cfg (rebuilds (b_key l)) id e (l, y_db y) (l1, d') /\ l' = with_lease x l1).
Proof.
  intros Hinv Hs Hl.
  assert (Hsame : exists l', Some l = Some l' /\ (quiet l l' \/ exists e d' l1 x, does cfg (rebuilds (b_key l)) id e (l, y_db y) (l1, d') /\ l' = with_lease x l1))
    by (exists l; split; [done|by left]).
  assert (Hput : forall j lj lj', d_labs (y_db y) !! j = Some lj -> quiet lj lj' ->
    exists l', d_labs (put_lab j lj' (y_db y)) !! id = Some l' /\ (quiet l l' \/ exists e d' l1 x, does cfg (rebuilds (b_key l)) id e (l, y_db y) (l1, d') /\ l' = with_lease x l1)).
  { intros j lj lj' Hj Hq. cbn [put_lab d_labs]. destruct (decide (j = id)) as [->|Hne].
    - rewrite lookup_insert_eq. exists lj'. split; [done|]. left. congruence.
    - by rewrite lookup_insert_ne, Hl. }
  assert (Hnew : forall j q e h a i l1 d1, launch_new a j q e h (y_db y) = Ok (i, Some (l1, d1)) -> d_labs (y_db y) !! j = None ->
    d_labs (put_lab j l1 d1) !! id = Some l).
  { intros j q e h a i l1 d1 Hln Hno. destruct (launch_new_ok _ _ _ _ _ _ _ _ Hln) as (_ & p & _ & Hst & _).
    apply (start_does cfg true) in Hst as [(_ & _ & Hlabs) _]; [|done]. cbn [snd put_lab d_labs] in Hlabs |- *. rewrite Hlabs.
    rewrite !lookup_insert_ne; [done|congruence..]. }
  destruct Hs; try (cbn [end_run with_db move_range put_snap y_db d_labs]; rewrite Hl; exact Hsame).
  - unfold launching, launch. destruct (q_release_ok q); [|rewrite Hl; exact Hsame].
    destruct (latest q (y_db y)) as [[i l0]|]; [case_bool_decide; [|rewrite Hl; exact Hsame]|].
    all: destruct (launch_new _ _ _ _ _ _) as [[i1 [[l1 d1]|]]|] eqn:Hln; [|rewrite Hl; exact Hsame..].
    all: cbn [start_run committed y_db]; rewrite (Hnew _ _ _ _ _ _ _ _ Hln); done.
  - unfold claiming. destruct (d_labs (y_db y) !! id0) as [l0|] eqn:H0; [|rewrite Hl; exact Hsame].
    destruct (claim now h l0) as [[] l0'] eqn:Hc; [|rewrite Hl; exact Hsame]. cbn [start_run with_db y_db]. apply (Hput id0 l0); [done|].
    unfold claim in Hc. destruct (b_lease l0) as [[until h0]|]; [destruct (until <? now)|]; simplify_eq; done.
  - unfold running. destruct (y_runs y !! h) as [[j seen [] r]|] eqn:Hr; [rewrite Hl; exact Hsame| |rewrite Hl; exact Hsame].
    destruct (d_labs (y_db y) !! j) as [row|] eqn:Hrow; [|rewrite Hl; exact Hsame].
    destruct (perform o j e (seen, y_db y)) as [[l1 d1]|] eqn:Hp.
    + case_bool_decide as Hh; [|cbn [end_run y_db]; rewrite Hl; exact Hsame]. assert (row = seen) as -> by by eapply (w_seen y Hinv).
      assert (Hdoes : does cfg (rebuilds (b_key seen)) j e (seen, y_db y) (l1, d1)).
      { apply (perform_does o); [by apply (v_good _ (w_db y Hinv))| |done]. by eapply H. }
      pose proof Hdoes as [(_ & _ & Hlabs) _]. cbn [snd] in Hlabs. cbn [committed y_db put_lab d_labs]. rewrite Hlabs. destruct (decide (j = id)) as [->|Hne].
      * rewrite lookup_insert_eq. eexists. split; [done|]. right. assert (seen = l) as -> by congruence. by exists e, d1, l1, (Some (e_now e + LEASE_SECONDS, h)).
      * rewrite lookup_insert_ne, Hl by done. exact Hsame.
    + cbn [end_run with_db y_db]. apply (Hput j row); [done|]. unfold _keep. by case_bool_decide.
  - unfold flushing. destruct (y_runs y !! h) as [[j seen [] r]|]; [|rewrite Hl; exact Hsame..].
    destruct (d_labs (y_db y) !! j) as [row|] eqn:Hrow; [|rewrite Hl; exact Hsame].
    destruct (flush now h r answers row) as [[row' sent] dropped] eqn:Hf. cbn [end_run y_db]. apply (Hput j row); [done|]. by eapply flush_spec.
Qed.

(** A lab that ended (destroyed or failed) stays as it ended, its range and its history included,
    whatever the student, the sweep, launches and the workers do afterwards. *)
Theorem ended_stays y y' id l : reachable y -> rtc lstep y y' -> d_labs (y_db y) !! id = Some l -> b_state l ∈ TERMINAL ->
  exists l', d_labs (y_db y') !! id = Some l' /\ b_state l' = b_state l /\ b_range l' = b_range l /\ b_retired l' = b_retired l.
Proof.
  intros Hinv%site_reachable_inv Hr. revert l Hinv. induction Hr as [y|y y1 y2 Hs _ IH]; intros l Hinv Hl Ht; [by exists l|].
  assert (H1 : exists l1, d_labs (y_db y1) !! id = Some l1 /\ b_state l1 = b_state l /\ b_range l1 = b_range l /\ b_retired l1 = b_retired l).
  { destruct (lstep_row y y1 id l Hinv Hs Hl) as (l1 & Hl1 & [(_ & Hq)|(e & d1 & l2 & x & [_ He] & ->)]); [by exists l1|].
    exists (with_lease x l2). split; [done|]. pose proof (effect_ended _ _ _ _ _ _ _ He Ht) as Hc. unfold core in Hc. by injection Hc. }
  destruct H1 as (l1 & Hl1 & Hs1 & Hb1 & Hr1).
  destruct (IH l1) as (l2 & Hl2 & Hs2 & Hb2 & Hr2); [by eapply site_step_inv|done|by rewrite Hs1|]. exists l2. split; [done|]. split; [congruence|]. split; congruence.
Qed.
End LabRuns.

(** ** Two students and two networks *)

Local Open Scope string_scope.
Local Open Scope Z_scope.

Section Demo.
Definition demo_cfg : settings := Settings ["pg1"; "pg2"] 1 10 100 10 240 10080 7200 3600 3600 120 5 900 15 65536 200 1800 900.
Definition demo_profile : profile := Profile [MkNode ["lan"] (Res 2 4096 40)] ["lan"] false 60 240.
Definition demo_env (now : Z) (r : string) : env :=
  Env now (Ok demo_profile) false false (fun _ => false) [] (fun _ => zero) false None false (Res 100 100000 1000) [] false [true] false NOT_ASKED r "".
Definition demo_request (user : string) : request := Request "t" user "rel" "mod_1" "vsphere" (Ok tt) false (Ok tt).

Inductive act := Launch (id user h : string) (now : Z) (r : string) | Claim (id h : string) (now : Z) | Do (h : string) (o : op) (now : Z) (r : string)
  | Send (h : string) (now : Z) (answers : list answer) | Work (r : string) (s : RangeState).
Definition exec (a : act) (y : sys) : sys :=
  match a with
  | Launch id user h now r => launching demo_cfg id (demo_request user) (demo_env now r) h y
  | Claim id h now => claiming id now h y
  | Do h o now r => running demo_cfg h o (demo_env now r) y
  | Send h now answers => flushing h now answers y
  | Work r s => with_db (move_range r s (y_db y)) y
  end.
#[local] Instance worker_moves_dec s s' : Decision (worker_moves s s').
Proof. unfold worker_moves. apply _. Defined.
Definition allowed (a : act) (y : sys) : bool :=
  match a with
  | Launch id _ h _ r => bool_decide (h ∉ y_used y) && bool_decide (d_labs (y_db y) !! id = None) && bool_decide (d_ranges (y_db y) !! r = None)
  | Claim _ h _ => bool_decide (h ∉ y_used y)
  | Do _ _ _ r => bool_decide (d_ranges (y_db y) !! r = None)
  | Send _ _ _ => true
  | Work r s => match d_ranges (y_db y) !! r with Some x => bool_decide (worker_moves (a_state x) s) | None => true end
  end.
Fixpoint script (l : list act) (y : sys) : option sys :=
  match l with [] => Some y | a :: l => if allowed a y then script l (exec a y) else None end.

Definition two_labs : list act :=
  [Launch "L1" "u1" "h1" 0 "R1"; Send "h1" 1 [Taken]; Launch "L2" "u2" "h2" 2 "R2"; Send "h2" 3 [Taken]; Work "R1" ready; Work "R2" ready].
Definition one_ended : list act :=
  [Claim "L1" "h3" 10; Do "h3" (O_end "completed") 11 ""; Send "h3" 12 [NoBroker]; Claim "L1" "h4" 20; Do "h4" O_advance 21 ""; Send "h4" 22 [Taken];
   Work "R1" destroyed; Claim "L1" "h5" 30; Do "h5" O_advance 31 ""; Send "h5" 32 [Taken]; Claim "L1" "h6" 200].
Definition demo_start : sys := empty_site {[ "pg1" := None ]}.
Definition at_ (l : list act) : sys := default demo_start (script l demo_start).
Definition demo_two : sys := at_ two_labs.
Definition demo_waiting : sys := at_ (two_labs ++ one_ended).
Definition demo_returned : sys := exec (Do "h6" O_advance 201 "") demo_waiting.

Lemma exec_step a y : allowed a y = true -> lstep demo_cfg (fun _ => true) y (exec a y).
Proof.
  destruct a; cbn [allowed exec]; intros H.
  - reflect_bools. apply s_launch; [done..|]. intros p [= <-]. by vm_compute.
  - reflect_bools. by apply s_claim.
  - reflect_bools. apply s_run. intros j seen b r1 l _ _. split; [done|]. by intros p [= <-].
  - apply s_flush.
  - apply s_worker. intros x Hx. left. rewrite Hx in H. by apply bool_decide_eq_true in H.
Qed.
Lemma script_run l y y' : script l y = Some y' -> rtc (lstep demo_cfg (fun _ => true)) y y'.
Proof.
  revert y. induction l as [|a l IH]; intros y; cbn [script]; [by intros [= <-]|]. destruct (allowed a y) eqn:Ha; [|done].
  intros Hs. eapply rtc_l; [by apply exec_step|by apply IH].
Qed.
Lemma at_reachable l : (exists y, script l demo_start = Some y) -> reachable demo_cfg (fun _ => true) (at_ l).
Proof. intros (y & Hy). exists {[ "pg1" := None ]}. unfold at_. rewrite Hy. by eapply script_run. Qed.
Lemma two_reachable : reachable demo_cfg (fun _ => true) demo_two.
Proof. apply at_reachable. eexists. vm_compute. reflexivity. Qed.
Lemma waiting_reachable : reachable demo_cfg (fun _ => true) demo_waiting.
Proof. apply at_reachable. eexists. vm_compute. reflexivity. Qed.

Lemma labs_share_no_network_witness : ~ "pg1" ∈ ["pg2"].
Proof.
  intros H2. assert (Heq : "R1" = "R2"); [|discriminate Heq].
  apply (labs_share_no_network demo_cfg (fun _ => true) demo_two "R1" "R2" (MkRange ready ["pg1"]) (MkRange ready ["pg2"]) "pg1" two_reachable);
    [vm_compute; reflexivity|vm_compute; reflexivity|done|done|by left|exact H2].
Defined.

Lemma commits_on_latest_witness : exists row l1 d1, d_labs (y_db demo_waiting) !! "L1" = Some row /\
  perform demo_cfg O_advance "L1" (demo_env 201 "") (row, y_db demo_waiting) = Ok (l1, d1) /\ b_state l1 = DESTROYED.
Proof.
  destruct (d_labs (y_db demo_waiting) !! "L1") as [row|] eqn:Hrow; [|vm_compute in Hrow; discriminate Hrow].
  destruct (d_labs (y_db demo_returned) !! "L1") as [l'|] eqn:Hl'; [|vm_compute in Hl'; discriminate Hl'].
  assert (Hs : option_map b_state (d_labs (y_db demo_returned) !! "L1") = Some DESTROYED) by (vm_compute; reflexivity).
  assert (Hs0 : option_map b_state (d_labs (y_db demo_waiting) !! "L1") = Some RECONCILE_WAIT) by (vm_compute; reflexivity).
  rewrite Hl' in Hs. rewrite Hrow in Hs0. injection Hs as Hs. injection Hs0 as Hs0.
  destruct (y_runs demo_waiting !! "h6") as [[id seen b r]|] eqn:Hr; [|vm_compute in Hr; discriminate Hr].
  assert (Hid : option_map (fun u => (u_id u, u_flushing u)) (y_runs demo_waiting !! "h6") = Some ("L1", false)) by (vm_compute; reflexivity).
  rewrite Hr in Hid. injection Hid as -> ->. exists row.
  destruct (commits_on_latest demo_cfg (fun _ => true) demo_waiting "h6" O_advance (demo_env 201 "") "L1" seen r row l' waiting_reachable Hr Hrow Hl')
    as [->|[(_ & ->)|(_ & l1 & d1 & Hp & ->)]].
  - congruence.
  - cbn in Hs. congruence.
  - exists l1, d1. by repeat split.
Defined.

Lemma no_task_lost_witness : ("L1", ReconcileVms ["R1"] "vsphere") ∈ y_sent demo_waiting \/ ("L1", ReconcileVms ["R1"] "vsphere") ∈ y_dropped demo_waiting.
Proof.
  destruct (no_task_lost demo_cfg (fun _ => true) demo_waiting "L1" waiting_reachable) as (outs & Ha & Hsent & Hdropped).
  assert (Hp : match d_labs (y_db demo_waiting) !! "L1" with Some l => b_pending l | None => [] end = []) by (vm_compute; reflexivity).
  rewrite Hp, app_nil_r in Ha. apply (went_out "L1" outs); [split; [exact Hsent|exact Hdropped]|]. rewrite <- Ha. in_list.
Defined.

Lemma lab_limits_witness : Z.of_nat (length (tenant_running "t" (all_labs (y_db demo_two)))) = 2 /\
  vcpus (tenant_running "t" (all_labs (y_db demo_two))) <= 10.
Proof. split; [vm_compute; reflexivity|]. apply (proj2 (proj2 (lab_limits demo_cfg (fun _ => true) demo_two two_reachable) "t")). Defined.


(** What [range_abandon.abandon] does to a lab's range, which it does not refuse: a failed range is marked
    destroyed with no hypervisor call.  The lab's networks then return to the pool at its next step, and
    nobody looked for its machines. *)
Definition abandoned (r : string) (y : sys) : sys := with_db (move_range r destroyed (y_db y)) y.
Definition demo_abandoned : sys :=
  exec (Do "h7" O_advance 9001 "") (exec (Claim "L1" "h7" 9000) (abandoned "R1"
    (at_ [Launch "L1" "u1" "h1" 0 "R1"; Send "h1" 1 [Taken]; Work "R1" failed]))).
Example abandoned_returns_unlooked :
  d_nets (y_db (at_ [Launch "L1" "u1" "h1" 0 "R1"; Send "h1" 1 [Taken]; Work "R1" failed])) !! "pg1" = Some (Some ("L1", "lan")) /\
  d_nets (y_db demo_abandoned) !! "pg1" = Some None /\
  y_sent demo_abandoned = [("L1", ProvisionRange "R1")] /\ y_dropped demo_abandoned = [].
Proof. split; [|split; [|split]]; vm_compute; reflexivity. Qed.

Lemma ended_stays_witness : exists l', d_labs (y_db (exec (Claim "L1" "h7" 900) demo_returned)) !! "L1" = Some l' /\ b_state l' = DESTROYED.
Proof.
  assert (Hreach : reachable demo_cfg (fun _ => true) demo_returned).
  { destruct waiting_reachable as (nets & Hr). exists nets. eapply rtc_r; [exact Hr|]. apply exec_step. vm_compute. reflexivity. }
  destruct (d_labs (y_db demo_returned) !! "L1") as [l|] eqn:Hl; [|vm_compute in Hl; discriminate Hl].
  assert (Hs : option_map b_state (d_labs (y_db demo_returned) !! "L1") = Some DESTROYED) by (vm_compute; reflexivity).
  rewrite Hl in Hs. injection Hs as Hs.
  destruct (ended_stays demo_cfg (fun _ => true) demo_returned (exec (Claim "L1" "h7" 900) demo_returned) "L1" l Hreach) as (l' & Hl' & Hst & _).
  - apply rtc_once, exec_step. vm_compute. reflexivity.
  - exact Hl.
  - rewrite Hs. in_list.
  - exists l'. split; [exact Hl'|congruence].
Defined.
End Demo.
